(* ===== verification/_CoqProject ===== *)
-Q . S2P
Prelude.v
RustStr.v
IpAddr.v
Regex.v
Rules.v
Acl.v
Moka.v
Hickory.v
Cache.v
Db.v
DbLogic.v
Tables.v
Listing.v
Filter.v
Resolver.v
UpstreamPool.v
Metrics.v
AppCatalog.v
QueryLogWriter.v
Handler.v
HandlerTests.v
Server.v
Subscription.v
Api.v
Auth.v
Users.v
Ws.v
AuditTrail.v
Validators.v
App.v
AppTests.v
Rewrites.v
RulesApi.v
RulesTransfer.v
Clients.v
Groups.v
GroupsProps.v
GroupsSpec.v
Settings.v
FiltersApi.v
Tasks.v
Alerts.v
Upstreams.v
Health.v
Doh.v
Tools.v
RuleStats.v
Conditions.v
QueryLog.v
QueryFilters.v
Templates.v
Float.v
Dashboard.v
Insights.v
Activity.v
Endpoints.v
Router.v
Startup.v
Web.v
Shutdown.v
Frame.v
Integrity.v
Serving.v
System.v
Enforced.v
Live.v
Connect.v
Conformance.v
