(* ===== verification/Prelude.v ===== *)
(** * rust-dns: a filtering DNS server, verified

    A model of the server of src/src: the DNS path from the sockets to the
    upstreams, the filter that decides what is blocked or rewritten, the
    subscriptions that feed the filter, the query log, the background tasks,
    and the whole management API from its router to the statements it sends.
    Paths below are relative to src/.

    ** How the program is put together

    A datagram or a TCP message ([src/dns/server.rs], [Server]) goes to the
    handler ([src/dns/handler.rs], [Handler]).  The handler checks the
    client's address against the access list ([src/dns/acl.rs], [Acl]),
    decodes the message ([Hickory]), finds the client's configuration in the
    database ([Db]) through a cache ([Moka]), tries the rewrites and the rules
    of the client's groups and of the filter engine ([src/dns/filter.rs],
    [Filter], on the rule set of [src/dns/rules.rs], [Rules]), then the
    response cache ([src/dns/cache.rs], [Cache]), and last the pool of
    upstreams ([src/dns/upstream_pool.rs], [UpstreamPool], whose nodes are the
    resolvers of [src/dns/resolver.rs], [Resolver]).  It counts the query
    ([src/metrics.rs], [Metrics]), attributes it to an application
    ([src/db/app_catalog_cache.rs], [AppCatalog]) and puts an entry into the
    channel of the log writer ([src/db/query_log_writer.rs],
    [QueryLogWriter]).  A subscription ([src/dns/subscription.rs],
    [Subscription]) downloads a list and replaces its rules in the database,
    which the filter engine reads when it is reloaded.  Tasks of [src/main.rs]
    and [src/api/mod.rs] refresh the lists, drop expired rules and old log
    entries ([Tasks]) and check the upstreams ([Health]).

    The management API works on the same database and shares the handler.  A
    request passes the audit middleware ([src/api/middleware/audit.rs],
    [AuditTrail]) and the router ([src/api/router.rs], [Router]), its token is
    read by the extractors ([src/api/middleware], [src/auth], [src/error.rs],
    [Api]), and one of the handlers of [src/api/handlers] answers it
    ([Endpoints]); a handler that changes rules, rewrites, clients, groups,
    upstreams or settings also tells the filter engine, the caches or the pool
    of the running DNS handler ([App]).  [Startup] is the way from the
    configuration and the database to that state, [Shutdown] the signal
    ([src/shutdown.rs]) that ends the tasks and the program.

    ** The files

    - [Prelude]: results, the state and error monad, lists, chunks.
    - [RustStr], [IpAddr], [Float]: Rust's strings (lists of scalar values,
      lengths in bytes), addresses (the parser and printer of the standard
      library) and [f64] (53 bits, to the nearest, ties to even).
    - [Regex], [Moka], [Hickory], and the first parts of [Acl], [Resolver],
      [UpstreamPool], [Subscription], [Api] and others: the crates the sources
      call, each a class of its operations and a class [..Doc] of the
      documented facts the theorems use.  A module [Ref..] beside it is an
      instance, which shows that the facts can hold and lets the examples
      compute.  [Moka] has the two kinds of cache the sources build: with one
      time to live, and with a time given when an entry is created.
    - [Db]: the tables as lists of rows, a statement of the sources as a
      function on them, [HasDb] as the interface through which every
      component reaches the connection.  Any statement may fail.  [DbLogic]
      says what a computation does when the connection works ([does]) and
      gives the rules by which the handlers are executed symbolically;
      [Tables] has the lemmas of tables with a key and their view as a map,
      [Listing] the pages, searches and orders of the listings.
    - one file per component of the DNS path, named above; a component's state
      is a record, a method a definition with the source's name, each in a
      module with the name of the source's type or file.
    - [App]: the state the API handlers share; [AppTests] a small server.  The
      handlers: [Auth], [Users], [Ws] (login, accounts, tickets),
      [Rewrites], [RulesApi], [RulesTransfer] (rules, their export and
      import), [RuleStats] (hits of rules), [Validators], [Clients],
      [Activity] (what a client asked, its name; the backup), [Groups] with
      [GroupsProps] and [GroupsSpec], [Settings], [FiltersApi], [Alerts],
      [Upstreams], [Doh] (DNS over HTTPS), [Tools] (checks, sandbox, cache,
      metrics, audit listing), [Conditions], [QueryLog], [QueryFilters] (the
      query log, its export and its query builder), [Templates], [Dashboard],
      [Insights].
    - [Connect] (the database before the tables), [Endpoints], [Router],
      [Web] (CORS and security headers), [Live] (the loop of an open
      WebSocket), [Startup], [Shutdown]: the composition.
    - [Frame] (which tables a call or a round may change), [Integrity] (what
      holds of the tables after it), [Serving] (how it may change the running
      DNS handler), [System]: the program as one process of events, which runs
      or has ended, since a panic aborts the release build;
      [Enforced]: from a change of the rules over the API to the reply.
    - [HandlerTests] and the modules [..Witness]: concrete states and the
      theorems applied to them.  [Conformance]: the unit tests of the sources,
      which the model passes.

    ** What the theorems show

    - The handler: the reply to any datagram, in any state a running server
      can reach, is the first that applies of a refusal, a failure, a rewrite,
      a block, a cached response and what an upstream now answers
      ([Handler.handle_correct]); what a
      refused, a blocked, a rewritten and a forwarded query get and what they
      leave unchanged; when the configuration of a client applies.
    - The server loops: bounds on the work in flight, the exact count of the
      connections, every reply is an answer of the handler, framed
      ([Server.server_correct]).
    - The rules: [match_domain] against a reference by domains and parents,
      the effect of one more block or allow rule, the equivalence of the
      syntaxes, the wildcards against a reference matcher, the order of a
      list.  The filter: what a reload holds, and that a failed one changes
      nothing.
    - The access list against the cover of its entries; the cache: a hit is
      the last response stored, and the TTL of some response stored for its
      name and type is not over (moka keeps the deadline of an entry that is
      replaced while it lives, so it need not be that response's own); the resolver and the pool:
      the reply to every outcome of a lookup, the order of the nodes and the
      one that answers, all before it having given none, the
      URLs of upstreams, the health checks and the failover.
    - Subscriptions: what a synchronisation stores, also when statements
      fail, what a list means to the filter, and the guards of the download.
      The tasks: which lists are refreshed and that the whole rows of all
      others stay, when expired rules leave the filter, what the rotation
      deletes.
    - The log writer: the entries accepted are those of the batches flushed,
      of the batch and of the channel, in order, and the log holds the batches
      whose transaction succeeded; so none is lost or written twice as long
      as the database works; and the alerts it raises.
    - The program as a whole: through any sequence of requests, queries, steps
      of the log writer and rounds of the tasks the tables stay in order, a
      super administrator is left and, while the process runs, the next query
      is answered as it should be; it runs unless the reading of a time range
      of the log, or the wildcard as an allowed origin, made it panic
      ([System.system_correct]); an event changes no table but its own, and a
      GET none but for two handlers ([System.events_framed]).  A call that
      writes rules or rewrites decides the next query
      ([Enforced.rules_enforced], [Enforced.rewrites_enforced]).
    - The API as a whole: who gets past the router to which handler
      ([Router.requests_guarded]), and that every handler is reached
      ([Router.routes_served]).
    - The calls that write: each is refused with the stated error or does to
      its table what an abstract store does, a map by keys with the checks of
      the schema ([RulesApi], [Rewrites], [Clients], [Groups], [FiltersApi],
      [Upstreams], [Templates], [Alerts]), and afterwards the running filter,
      caches and pool are those of the new tables.
    - The calls that read: the pages of a listing and of the cursor of the
      query log show every row once; the statement the query builder writes
      selects the rows the filters mean and binds a value to every parameter;
      the exports read back; a rule is credited only with names it blocks; the
      figures of the dashboard are counts of the log and its percentiles the
      nearest ranks in spite of the rounding; the anomalies are the clients
      two standard deviations above their mean, by the formula in floating
      point that [Insights.reported] writes out.
    - Accounts: whom a session identifies and for how long, the lockout of
      the login, that an active super administrator remains
      ([Users.super_admin_remains]), the tickets, the
      address a client is known by, that a rule the validator accepts is one
      the rule set takes, and that a fresh database gets an administrator who
      can log in ([Startup.start_correct]); a start creates the database it is
      to use and no other ([Connect.init_correct]).
    - The live view sends each value once and in order and leaves out only
      what the channel has dropped ([Live.live_correct]); which origins may
      read a response and the headers of all ([Web.web_correct]).
    - The end: the tasks that wait for the signal get it, a server that is
      still starting does not, [main] may leave the drain of the servers after
      thirty seconds whatever they do, and then waits for the connections in
      use, without a timeout ([Shutdown.shutdown_ends]).  The clock of that
      model is in seconds and nothing forces a step that may be taken.

    Some theorems say what the code does where it is not what it means to do:
    the fall back to a second upstream, safe search, wildcard rules of
    groups, the configuration of clients on the present schema, filters of
    the query log on the time, the cooldown of the anomaly alerts, the
    deadline of a cached response that replaces another, the wait for the
    pool at the end.  The manifest lists them as findings.

    ** Conventions and bounds

    - An operation that fails keeps the changes it made before, as [?] does:
      the monad [M] of this file.
    - One call of a handler is one step; the interleaving of steps is free
      ([Handler.hstep], [Server.step], [QueryLogWriter.step]).  Within a step
      the shared stores ([ArcSwap], [RwLock], atomics) are assignments.
    - Widths are kept where they matter: counters wrap at 64 bits and the length
      of a TCP message at 16.
    - The statements of one call of the API see the same time, the one drawn
      for the call ([Draws]); their texts are kept where the code builds them
      ([RulesApi], [Templates], [Conditions], [QueryFilters]).  The server's
      types decide: a text compared with a time, or bound for a boolean, fails
      the statement.
    - Recursions that are not structural run on fuel, which is the length of
      the text or list: every round consumes a character or an element, and
      the lemmas are proved for any fuel not below it ([chunks], the
      parents of a name, the groups of an IPv6 address, the patterns).
    - Instants are numbers given to a call; what the network, the random
      generator or a socket give is an argument, or numbered by the call.
    - The percentiles are of at most 5000 values, the limit of their
      statement; [Float] proves the rounding for all of them at once.

    ** What is not modelled

    The SQL migrations (the tables of [Db] are the schema they end in) and
    PostgreSQL itself; the sources of the configuration, which a crate reads
    and merges; the log files; what the CORS layer does inside, the trace
    layer and the static front end; the matching of paths inside the router
    crate; the benchmark and the integration tests.  [src/api/routes/query_log.rs] and
    [doh.rs.disabled] are in no module of the program. *)
From Stdlib Require Export ZArith NArith Lia ZifyBool ZifyN ZifyNat Bool List Sorted.
From stdpp Require Export base option list gmap sets strings.
Export ListNotations.


(** ** Results: Rust's [Result<T, E>] *)

Inductive result (A E : Type) : Type :=
| Ok (a : A)
| Err (e : E).
Arguments Ok {A E} a.
Arguments Err {A E} e.

Definition is_ok {A E} (r : result A E) : bool :=
  match r with Ok _ => true | Err _ => false end.

(** [Result::map_err] *)
Definition map_err {A E F} (f : E -> F) (r : result A E) : result A F :=
  match r with Ok a => Ok a | Err e => Err (f e) end.

(** [Option::ok_or] *)
Definition ok_or {A E} (o : option A) (e : E) : result A E :=
  match o with Some a => Ok a | None => Err e end.

(** ** A state and error monad

    A fallible operation on a state keeps the state changes made before the
    error, as the early return of Rust's [?] does. *)

Definition M (S E A : Type) : Type := S -> result A E * S.

Definition ret {S E A} (a : A) : M S E A := fun s => (Ok a, s).
Definition fail {S E A} (e : E) : M S E A := fun s => (Err e, s).
Definition bind {S E A B} (m : M S E A) (k : A -> M S E B) : M S E B :=
  fun s => match m s with
           | (Ok a, s') => k a s'
           | (Err e, s') => (Err e, s')
           end.
Definition get {S E} : M S E S := fun s => (Ok s, s).
Definition gets {S E A} (f : S -> A) : M S E A := fun s => (Ok (f s), s).
Definition put {S E} (s : S) : M S E unit := fun _ => (Ok tt, s).
Definition modify {S E} (f : S -> S) : M S E unit := fun s => (Ok tt, f s).
(** A pure fallible value used with [?]. *)
Definition lift {S E A} (r : result A E) : M S E A := fun s => (r, s).
(** [match m.await { Ok(..) => .., Err(..) => .. }]: the error is handled. *)
Definition catch {S E F A} (m : M S E A) : M S F (result A E) :=
  fun s => let '(r, s') := m s in (Ok r, s').
Definition mmap_err {S E F A} (f : E -> F) (m : M S E A) : M S F A :=
  fun s => let '(r, s') := m s in (map_err f r, s').

Declare Scope dns_scope.
Delimit Scope dns_scope with dns.
Notation "'let!' x ':=' m 'in' k" := (bind m (fun x => k))
  (at level 10, x pattern, m at level 100, k at level 200,
   format "'[v' 'let!'  x  ':='  m  'in' '/' k ']'") : dns_scope.
Notation "m ';;;' k" := (bind m (fun _ => k))
  (at level 200, right associativity, only parsing) : dns_scope.
Notation "'try!' x ':=' r 'in' k" :=
  (match r with Ok x => k | Err e => Err e end)
  (at level 10, x pattern, r at level 100, k at level 200) : dns_scope.
#[global] Open Scope dns_scope.

Section monad_lemmas.
Context {S E : Type}.

Lemma bind_ret_l {A B} (a : A) (k : A -> M S E B) s : bind (ret a) k s = k a s.
Proof. reflexivity. Qed.

Lemma bind_Ok {A B} (m : M S E A) (k : A -> M S E B) s b s' :
  bind m k s = (Ok b, s') <->
  exists a s1, m s = (Ok a, s1) /\ k a s1 = (Ok b, s').
Proof.
  unfold bind. destruct (m s) as [[a|e] s1]; split.
  - eauto.
  - intros (? & ? & ? & ?). by simplify_eq.
  - done.
  - intros (? & ? & ? & ?). by simplify_eq.
Qed.

Lemma bind_Err {A B} (m : M S E A) (k : A -> M S E B) s e s' :
  bind m k s = (Err e, s') <->
  m s = (Err e, s') \/ exists a s1, m s = (Ok a, s1) /\ k a s1 = (Err e, s').
Proof.
  unfold bind. destruct (m s) as [[a|e'] s1]; split.
  - intros ?. right. by exists a, s1.
  - intros [?|(? & ? & ? & ?)]; by simplify_eq.
  - intros ?. left. by simplify_eq.
  - intros [?|(? & ? & ? & ?)]; by simplify_eq.
Qed.

Lemma bind_run {A B} (m : M S E A) (k : A -> M S E B) s r s1 :
  m s = (r, s1) ->
  bind m k s = match r with Ok a => k a s1 | Err e => (Err e, s1) end.
Proof. unfold bind. intros ->. by destruct r. Qed.
End monad_lemmas.

(** ** Tactics *)

(** Split the conjunctions of the goal and the booleans of the context. *)
Ltac split_bools :=
  repeat match goal with
  | H : (_ && _)%bool = true |- _ => apply andb_true_iff in H as [? ?]
  | H : (_ || _)%bool = false |- _ => apply orb_false_iff in H as [? ?]
  | H : negb _ = true |- _ => apply negb_true_iff in H
  | H : negb _ = false |- _ => apply negb_false_iff in H
  end.

(** Case analysis on the scrutinee of a [match] or [if] of the goal, or of
    a hypothesis, remembering the equation. *)
Ltac case_goal :=
  match goal with
  | |- context [match ?x with _ => _ end] =>
      lazymatch x with
      | context [match _ with _ => _ end] => fail
      | _ => destruct x eqn:?
      end
  end.
Ltac case_hyp H :=
  match type of H with
  | context [match ?x with _ => _ end] =>
      lazymatch x with
      | context [match _ with _ => _ end] => fail
      | _ => destruct x eqn:?
      end
  end.

(** Run a computation of the monad one step. *)
Ltac mstep :=
  cbn [ret fail bind get gets put modify lift catch mmap_err map_err].

(** ** Lists *)

Section list_lemmas.
Context {A : Type}.
Implicit Types (l : list A) (p : A -> bool).

(** [Iterator::take_while] and the rest. *)
Fixpoint take_while p l : list A :=
  match l with
  | [] => []
  | x :: l' => if p x then x :: take_while p l' else []
  end.
Fixpoint drop_while p l : list A :=
  match l with
  | [] => []
  | x :: l' => if p x then drop_while p l' else l
  end.

Lemma take_drop_while p l : take_while p l ++ drop_while p l = l.
Proof. induction l as [|x l IH]; [done|]. simpl. destruct (p x); [|done]. simpl. by rewrite IH. Qed.

Lemma drop_while_head p l x l' : drop_while p l = x :: l' -> p x = false.
Proof.
  induction l as [|y l IH]; [done|]. simpl. destruct (p y) eqn:Hy; [done|].
  by intros [= -> ->].
Qed.

Lemma drop_while_all p l : forallb p l = true -> drop_while p l = [].
Proof. induction l as [|x l IH]; [done|]. simpl. destruct (p x); [done|discriminate]. Qed.

Lemma drop_while_none p l :
  match l with [] => True | x :: _ => p x = false end -> drop_while p l = l.
Proof. destruct l as [|x l]; [done|]. simpl. by intros ->. Qed.

Lemma drop_while_idem p l : drop_while p (drop_while p l) = drop_while p l.
Proof.
  apply drop_while_none. destruct (drop_while p l) as [|x l'] eqn:H; [done|].
  by eapply drop_while_head.
Qed.

Lemma drop_while_suffix p l : exists k, l = k ++ drop_while p l.
Proof. exists (take_while p l). by rewrite take_drop_while. Qed.

Lemma drop_while_incl p l x : x ∈ drop_while p l -> x ∈ l.
Proof.
  destruct (drop_while_suffix p l) as [k Hk]. rewrite Hk at 2.
  intros ?. apply elem_of_app. by right.
Qed.

Lemma forallb_drop_while p q l : forallb p l = true -> forallb p (drop_while q l) = true.
Proof.
  rewrite !forallb_forall. setoid_rewrite <- list_elem_of_In.
  eauto using drop_while_incl.
Qed.

Lemma drop_while_weaken p q l :
  (forall x, x ∈ l -> p x = q x) -> drop_while p l = drop_while q l.
Proof.
  induction l as [|x l IH]; [done|]. intros H. simpl.
  rewrite H by left. destruct (q x); [|done]. apply IH. intros y Hy. apply H. by right.
Qed.

(** [Iterator::filter_map] *)
Fixpoint filter_map {B} (f : A -> option B) l : list B :=
  match l with
  | [] => []
  | x :: l' => match f x with Some y => y :: filter_map f l' | None => filter_map f l' end
  end.

Lemma elem_of_filter_map {B} (f : A -> option B) l y :
  y ∈ filter_map f l <-> exists x, x ∈ l /\ f x = Some y.
Proof.
  induction l as [|x l IH]; simpl.
  - split; [by intros ?%not_elem_of_nil|]. by intros (? & ?%not_elem_of_nil & _).
  - destruct (f x) as [z|] eqn:Hf.
    + rewrite elem_of_cons, IH. split.
      * intros [->|(x' & ? & ?)]; [exists x|exists x']; (split; [|done]).
        -- by left.
        -- by right.
      * intros (x' & [->|?]%elem_of_cons & ?); [left; congruence|right; eauto].
    + rewrite IH. split; intros (x' & Hin & ?); exists x'; (split; [|done]).
      * by right.
      * apply elem_of_cons in Hin as [->|?]; [congruence|done].
Qed.

(** [slice::chunks(n)], with the length of the list as fuel: every chunk
    but the last one takes [n >= 1] elements. *)
Fixpoint chunks_fuel (fuel n : nat) l : list (list A) :=
  match fuel, l with
  | _, [] => []
  | O, _ => []
  | S fuel', _ => take n l :: chunks_fuel fuel' n (drop n l)
  end.
Definition chunks (n : nat) l : list (list A) := chunks_fuel (length l) n l.

Lemma concat_chunks n l : 1 <= n -> concat (chunks n l) = l.
Proof.
  intros Hn. unfold chunks. assert (length l <= length l) as Hle by lia.
  revert Hle. generalize (length l) at 2 3 as fuel. intros fuel. revert l.
  induction fuel as [|fuel IH]; intros l Hle.
  - by destruct l; [|simpl in Hle; lia].
  - destruct l as [|x l]; [done|].
    change (take n (x :: l) ++ concat (chunks_fuel fuel n (drop n (x :: l))) = x :: l).
    rewrite IH; [apply take_drop|]. rewrite length_drop. simpl in *. lia.
Qed.

Lemma chunks_bounded n l c : c ∈ chunks n l -> length c <= n.
Proof.
  unfold chunks. generalize (length l) as fuel. intros fuel. revert l.
  induction fuel as [|fuel IH]; intros [|x l]; simpl; try by intros ?%not_elem_of_nil.
  intros [->|Hc]%elem_of_cons; [rewrite length_take; lia|eauto].
Qed.

(** A fold with a running state threaded through a list ([for x in l]). *)
Lemma fold_left_ind {B} (P : B -> Prop) (f : B -> A -> B) l b :
  P b -> (forall b x, x ∈ l -> P b -> P (f b x)) -> P (fold_left f l b).
Proof.
  revert b. induction l as [|x l IH]; intros b Hb Hf; [done|]. simpl. apply IH.
  - apply Hf; [by left|done].
  - intros b' y Hy. apply Hf. by right.
Qed.
End list_lemmas.

(** ** [slice::sort_by_key]: a stable sort *)

Section sort.
Context {A : Type} (key : A -> Z).

Fixpoint insert_by (x : A) (l : list A) : list A :=
  match l with
  | [] => [x]
  | y :: l' => if (key x <=? key y)%Z then x :: l else y :: insert_by x l'
  end.
Definition sort_by_key (l : list A) : list A := fold_right insert_by [] l.

Definition key_le (x y : A) : Prop := (key x <= key y)%Z.

Lemma insert_by_perm x l : Permutation (insert_by x l) (x :: l).
Proof.
  induction l as [|y l IH]; [done|]. simpl. destruct (key x <=? key y)%Z; [done|].
  rewrite IH. apply perm_swap.
Qed.

Lemma sort_by_key_perm l : Permutation (sort_by_key l) l.
Proof. induction l as [|x l IH]; [done|]. simpl. by rewrite insert_by_perm, IH. Qed.

Lemma insert_by_sorted x l : StronglySorted key_le l -> StronglySorted key_le (insert_by x l).
Proof.
  induction 1 as [|y l Hl IH Hy]; simpl; [repeat constructor|].
  destruct (key x <=? key y)%Z eqn:Hxy.
  - constructor; [by constructor|]. constructor; [unfold key_le; lia|].
    eapply Forall_impl; [exact Hy|]. unfold key_le. intros. lia.
  - constructor; [done|]. rewrite insert_by_perm. constructor; [unfold key_le; lia|done].
Qed.

Lemma sort_by_key_sorted l : StronglySorted key_le (sort_by_key l).
Proof. induction l; simpl; [constructor|by apply insert_by_sorted]. Qed.

(** Stable: the elements of one key keep their order. *)
Lemma insert_by_filter x l k :
  List.filter (fun y => key y =? k)%Z (insert_by x l) = List.filter (fun y => key y =? k)%Z (x :: l).
Proof.
  induction l as [|y l IH]; [done|]. simpl insert_by. destruct (key x <=? key y)%Z eqn:Hxy; [done|].
  cbn [List.filter] in IH |- *. rewrite IH.
  destruct (key y =? k)%Z eqn:Hy, (key x =? k)%Z eqn:Hx; try done. lia.
Qed.

Lemma sort_by_key_stable l k :
  List.filter (fun y => key y =? k)%Z (sort_by_key l) = List.filter (fun y => key y =? k)%Z l.
Proof.
  induction l as [|x l IH]; [done|]. simpl sort_by_key. rewrite insert_by_filter.
  cbn [List.filter]. by rewrite IH.
Qed.

Lemma sort_by_key_nil l : sort_by_key l = [] <-> l = [].
Proof.
  split; [|by intros ->]. intros Hs. apply Permutation_nil. by rewrite <- (sort_by_key_perm l), Hs.
Qed.
End sort.

Create HintDb dns.
Create Rewrite HintDb dns.
#[export] Hint Rewrite @bind_ret_l : dns.
#[export] Hint Resolve drop_while_incl forallb_drop_while : dns.
