(* ===== verification/RustStr.v ===== *)
(** * Rust strings

    The [str] and [char] operations of Rust's standard library that the
    sources use.  A string is the list of its Unicode scalar values; lengths
    in bytes are computed from their UTF-8 encodings.  The behaviour on ASCII
    is defined here; what depends on the Unicode tables of the standard
    library beyond ASCII ([char::is_alphanumeric], [str::to_lowercase]) is
    left to the class [RustUnicode]. *)
From S2P Require Import Prelude.

Abbreviation char := N.
Definition str := list N.

(** String literals: the code points of an ASCII literal. *)
Fixpoint lit (s : string) : str :=
  match s with
  | EmptyString => []
  | String a s' => Ascii.N_of_ascii a :: lit s'
  end.
Coercion lit : string >-> str.
Arguments lit : simpl never.

(** The characters the sources compare with. *)
Abbreviation bang := 33%N.
Abbreviation hash := 35%N.
Abbreviation dollar := 36%N.
Abbreviation percent := 37%N.
Abbreviation star := 42%N.
Abbreviation comma := 44%N.
Abbreviation hyphen := 45%N.
Abbreviation dot := 46%N.
Abbreviation slash := 47%N.
Abbreviation colon := 58%N.
Abbreviation lbracket := 91%N.
Abbreviation backslash := 92%N.
Abbreviation rbracket := 93%N.
Abbreviation caret := 94%N.
Abbreviation underscore := 95%N.
Abbreviation bar := 124%N.

#[global] Instance str_eq_dec : EqDecision str.
Proof. unfold str. apply _. Defined.
#[global] Instance str_countable : Countable str.
Proof. unfold str. apply _. Defined.
#[global] Instance str_inhabited : Inhabited str := populate [].

Definition str_eqb (s t : str) : bool := bool_decide (s = t).
Infix "=s?" := str_eqb (at level 70) : dns_scope.

Lemma str_eqb_eq s t : (s =s? t)%dns = true <-> s = t.
Proof. apply bool_decide_eq_true. Qed.
Lemma str_eqb_neq s t : (s =s? t)%dns = false <-> s <> t.
Proof. apply bool_decide_eq_false. Qed.
Lemma str_eqb_refl s : (s =s? s)%dns = true.
Proof. by apply str_eqb_eq. Qed.
#[export] Hint Rewrite str_eqb_refl : dns.

(** ** Characters *)

Class RustUnicode := {
  (** [char::is_alphanumeric] above ASCII *)
  uni_alphanumeric : char -> bool;
  (** [str::to_lowercase] of a string with a character above ASCII *)
  uni_lowercase : str -> str;
}.

Local Open Scope N_scope.

Definition is_ascii (c : char) : bool := c <? 128.
Definition is_ascii_digit (c : char) : bool := (48 <=? c) && (c <=? 57).
Definition is_ascii_upper (c : char) : bool := (65 <=? c) && (c <=? 90).
Definition is_ascii_lower (c : char) : bool := (97 <=? c) && (c <=? 122).
Definition is_ascii_alpha (c : char) : bool := is_ascii_upper c || is_ascii_lower c.
Definition is_ascii_hexdigit (c : char) : bool :=
  is_ascii_digit c || ((65 <=? c) && (c <=? 70)) || ((97 <=? c) && (c <=? 102)).

Definition is_alphanumeric `{RustUnicode} (c : char) : bool :=
  if is_ascii c then is_ascii_digit c || is_ascii_alpha c else uni_alphanumeric c.

(** The characters with the Unicode property White_Space. *)
Definition is_whitespace (c : char) : bool :=
  ((9 <=? c) && (c <=? 13)) || (c =? 32) || (c =? 133) || (c =? 160)
  || (c =? 5760) || ((8192 <=? c) && (c <=? 8202)) || (c =? 8232) || (c =? 8233)
  || (c =? 8239) || (c =? 8287) || (c =? 12288).

Definition to_ascii_lower (c : char) : char := if is_ascii_upper c then c + 32 else c.

Definition str_is_ascii (s : str) : bool := forallb is_ascii s.

Definition to_lowercase `{RustUnicode} (s : str) : str :=
  if str_is_ascii s then map to_ascii_lower s else uni_lowercase s.

(** [char::len_utf8] and [str::len] *)
Definition len_utf8 (c : char) : N :=
  if c <? 128 then 1 else if c <? 2048 then 2 else if c <? 65536 then 3 else 4.
Definition len (s : str) : N := fold_right (fun c n => len_utf8 c + n) 0 s.
Definition is_empty (s : str) : bool := match s with [] => true | _ => false end.

(** ** Searching and trimming *)

Definition contains_char (s : str) (c : char) : bool := existsb (N.eqb c) s.
Definition contains_any (s : str) (p : char -> bool) : bool := existsb p s.

Fixpoint strip_prefix (s p : str) : option str :=
  match p, s with
  | [], _ => Some s
  | c :: p', d :: s' => if c =? d then strip_prefix s' p' else None
  | _ :: _, [] => None
  end.
Definition starts_with (s p : str) : bool :=
  match strip_prefix s p with Some _ => true | None => false end.
Definition ends_with (s p : str) : bool := starts_with (rev s) (rev p).
Definition starts_with_char (s : str) (c : char) : bool :=
  match s with [] => false | d :: _ => d =? c end.
Definition ends_with_char (s : str) (c : char) : bool := starts_with_char (rev s) c.

Fixpoint contains_str (s p : str) : bool :=
  starts_with s p || match s with [] => false | _ :: s' => contains_str s' p end.

Definition trim_end_by (p : char -> bool) (s : str) : str := rev (drop_while p (rev s)).
Definition trim_start_by (p : char -> bool) (s : str) : str := drop_while p s.
(** [str::trim_end_matches(c)] *)
Definition trim_end_char (s : str) (c : char) : str := trim_end_by (N.eqb c) s.
(** [str::trim] *)
Definition trim (s : str) : str := trim_end_by is_whitespace (trim_start_by is_whitespace s).

(** [str::trim_start_matches(p)] for a string pattern: fuel is the length,
    every round removes the non-empty pattern. *)
Fixpoint trim_start_str_fuel (fuel : nat) (s p : str) : str :=
  match fuel with
  | O => s
  | S fuel' =>
      match p, strip_prefix s p with
      | _ :: _, Some s' => trim_start_str_fuel fuel' s' p
      | _, _ => s
      end
  end.
Definition trim_start_str (s p : str) : str := trim_start_str_fuel (length s) s p.

(** [s.find(c)], as the text before and the text after the first match:
    [&s[..pos]] and [&s[pos + 1..]]. *)
Fixpoint split_once (s : str) (c : char) : option (str * str) :=
  match s with
  | [] => None
  | d :: s' =>
      if d =? c then Some ([], s')
      else match split_once s' c with
           | Some (a, b) => Some (d :: a, b)
           | None => None
           end
  end.
(** [s.rfind(c)] in the same form. *)
Definition rsplit_once (s : str) (c : char) : option (str * str) :=
  match split_once (rev s) c with
  | Some (a, b) => Some (rev b, rev a)
  | None => None
  end.

(** ** Splitting *)

(** [str::split(p)] for a character pattern *)
Fixpoint split_by (p : char -> bool) (s : str) : list str :=
  match s with
  | [] => [[]]
  | d :: s' =>
      if p d then [] :: split_by p s'
      else match split_by p s' with
           | w :: ws => (d :: w) :: ws
           | [] => [[d]]
           end
  end.
Definition split (s : str) (c : char) : list str := split_by (N.eqb c) s.
(** [s.split(c).next().unwrap_or(s)] *)
Definition split_first (s : str) (c : char) : str := hd s (split s c).

(** [str::split_whitespace] *)
Definition split_whitespace (s : str) : list str :=
  List.filter (fun w => negb (is_empty w)) (split_by is_whitespace s).

(** [str::split(p)] for a string pattern of two characters *)
Fixpoint split_str2 (c1 c2 : char) (s : str) : list str :=
  match s with
  | [] => [[]]
  | d :: s' =>
      match s' with
      | e :: s'' =>
          if (d =? c1) && (e =? c2) then [] :: split_str2 c1 c2 s''
          else match split_str2 c1 c2 s' with
               | w :: ws => (d :: w) :: ws
               | [] => [[d]]
               end
      | [] => [[d]]
      end
  end.

(** [slice::join] *)
Fixpoint join (sep : str) (ws : list str) : str :=
  match ws with
  | [] => []
  | [w] => w
  | w :: ws' => w ++ sep ++ join sep ws'
  end.

(** [str::lines]: every line ends at a line feed, which is removed together
    with a carriage return just before it; a last empty line is no line. *)
Definition strip_cr (w : str) : str :=
  match rev w with 13 :: r => rev r | _ => w end.
Fixpoint lines_go (ws : list str) : list str :=
  match ws with
  | [] => []
  | [w] => if is_empty w then [] else [w]
  | w :: ws' => strip_cr w :: lines_go ws'
  end.
Definition lines (s : str) : list str := lines_go (split s 10).

(** [str::replace(a, b)] for characters *)
Definition replace_char (s : str) (a b : char) : str :=
  map (fun c => if c =? a then b else c) s.

(** ** Numbers *)

Definition digit_value (c : char) : option N :=
  if is_ascii_digit c then Some (c - 48) else None.
Fixpoint parse_digits (acc : N) (s : str) : option N :=
  match s with
  | [] => Some acc
  | c :: s' =>
      match digit_value c with
      | Some d => parse_digits (10 * acc + d) s'
      | None => None
      end
  end.
(** [str::parse::<uW>]: an optional plus sign and at least one digit; an
    error when the value does not fit. *)
Definition parse_uint (max : N) (s : str) : option N :=
  let body := match s with 43 :: s' => s' | _ => s end in
  match body with
  | [] => None
  | _ => match parse_digits 0 body with
         | Some n => if n <=? max then Some n else None
         | None => None
         end
  end.
Definition parse_u16 : str -> option N := parse_uint 65535.

(** [Display] of an unsigned number, with its number of digits as fuel. *)
Fixpoint show_N_fuel (fuel : nat) (n : N) (acc : str) : str :=
  match fuel with
  | O => acc
  | S fuel' =>
      let acc' := (48 + n mod 10) :: acc in
      if n / 10 =? 0 then acc' else show_N_fuel fuel' (n / 10) acc'
  end.
Definition show_N (n : N) : str := show_N_fuel (S (N.to_nat (N.log2 n))) n [].
Definition show_Z (z : Z) : str :=
  match z with Zneg p => 45 :: show_N (Npos p) | _ => show_N (Z.to_N z) end.
Definition show_bool (b : bool) : str := if b then lit "true" else lit "false".

(** ** Lemmas *)

Lemma to_ascii_lower_idem c : to_ascii_lower (to_ascii_lower c) = to_ascii_lower c.
Proof.
  unfold to_ascii_lower, is_ascii_upper.
  destruct ((65 <=? c) && (c <=? 90)) eqn:Hc; [|by rewrite Hc].
  destruct ((65 <=? c + 32) && (c + 32 <=? 90)) eqn:Hc'; [|done].
  split_bools. lia.
Qed.

Lemma to_ascii_lower_ascii c : is_ascii (to_ascii_lower c) = is_ascii c.
Proof.
  unfold to_ascii_lower, is_ascii, is_ascii_upper.
  destruct ((65 <=? c) && (c <=? 90)) eqn:Hc; [|done].
  apply andb_true_iff in Hc as [Hc1%N.leb_le Hc2%N.leb_le].
  apply eq_true_iff_eq. rewrite !N.ltb_lt. lia.
Qed.

(** A character that is no letter is its own lower case, and only its own. *)
Lemma to_ascii_lower_fixed c d :
  is_ascii_alpha d = false -> to_ascii_lower c = d <-> c = d.
Proof.
  unfold to_ascii_lower, is_ascii_alpha, is_ascii_upper, is_ascii_lower. intros Hd.
  destruct ((65 <=? c) && (c <=? 90)) eqn:Hc; [|done].
  apply orb_false_iff in Hd as [Hd1 Hd2].
  split; intros Heq; split_bools; exfalso.
  - subst d. apply andb_false_iff in Hd2 as [?|?]; lia.
  - subst d. apply andb_false_iff in Hd1 as [?|?]; lia.
Qed.

Section lower.
Context `{RustUnicode}.

Lemma to_lowercase_ascii s :
  str_is_ascii s = true -> to_lowercase s = map to_ascii_lower s.
Proof. unfold to_lowercase. by intros ->. Qed.

Lemma map_lower_ascii s : str_is_ascii (map to_ascii_lower s) = str_is_ascii s.
Proof.
  unfold str_is_ascii. induction s as [|c s IH]; [done|]. simpl.
  by rewrite to_ascii_lower_ascii, IH.
Qed.

Lemma str_is_ascii_lower s :
  str_is_ascii s = true -> str_is_ascii (to_lowercase s) = true.
Proof. intros Hs. by rewrite to_lowercase_ascii, map_lower_ascii. Qed.

Lemma to_lowercase_idem s :
  str_is_ascii s = true -> to_lowercase (to_lowercase s) = to_lowercase s.
Proof.
  intros Hs. rewrite (to_lowercase_ascii s Hs).
  rewrite to_lowercase_ascii by (by rewrite map_lower_ascii).
  rewrite map_map. apply map_ext. apply to_ascii_lower_idem.
Qed.
End lower.

Lemma str_is_ascii_app s t : str_is_ascii (s ++ t) = str_is_ascii s && str_is_ascii t.
Proof. apply forallb_app. Qed.

Lemma str_is_ascii_rev s : str_is_ascii (rev s) = str_is_ascii s.
Proof.
  unfold str_is_ascii. induction s as [|c s IH]; [done|]. simpl.
  rewrite forallb_app. simpl. rewrite IH, andb_true_r. apply andb_comm.
Qed.

(** *** Trimming *)

Lemma trim_end_by_nil p : trim_end_by p [] = [].
Proof. done. Qed.

Lemma trim_end_by_prefix p s : exists k, s = trim_end_by p s ++ k.
Proof.
  unfold trim_end_by. destruct (drop_while_suffix p (rev s)) as [k Hk].
  exists (rev k). rewrite <- rev_app_distr, <- Hk. by rewrite rev_involutive.
Qed.

Lemma trim_end_by_last p s c k : trim_end_by p s = k ++ [c] -> p c = false.
Proof.
  unfold trim_end_by. intros Hs. apply (f_equal (@rev char)) in Hs.
  rewrite rev_involutive, rev_app_distr in Hs. simpl in Hs. by eapply drop_while_head.
Qed.

Lemma trim_end_by_id p s :
  match rev s with [] => True | c :: _ => p c = false end -> trim_end_by p s = s.
Proof.
  unfold trim_end_by. intros Hs. rewrite drop_while_none; [|done]. apply rev_involutive.
Qed.

Lemma trim_end_by_idem p s : trim_end_by p (trim_end_by p s) = trim_end_by p s.
Proof. unfold trim_end_by. by rewrite rev_involutive, drop_while_idem. Qed.

Lemma trim_end_by_ascii p s : str_is_ascii s = true -> str_is_ascii (trim_end_by p s) = true.
Proof.
  intros Hs. unfold trim_end_by. rewrite str_is_ascii_rev.
  apply forallb_drop_while. by rewrite <- str_is_ascii_rev in Hs.
Qed.

Lemma trim_ascii s : str_is_ascii s = true -> str_is_ascii (trim s) = true.
Proof. intros Hs. apply trim_end_by_ascii. unfold trim_start_by. by apply forallb_drop_while. Qed.

Lemma map_drop_while {A B} (f : A -> B) p q (l : list A) :
  (forall x, q (f x) = p x) -> map f (drop_while p l) = drop_while q (map f l).
Proof.
  intros Hpq. induction l as [|x l IH]; [done|]. simpl. rewrite Hpq.
  destruct (p x); [apply IH|done].
Qed.

(** Lowering commutes with trimming a character that is no letter. *)
Lemma lower_trim_end_char s c :
  is_ascii_alpha c = false ->
  map to_ascii_lower (trim_end_char s c) = trim_end_char (map to_ascii_lower s) c.
Proof.
  intros Hc. unfold trim_end_char, trim_end_by.
  rewrite map_rev. rewrite (map_drop_while _ _ (N.eqb c)); [by rewrite map_rev|].
  intros d. apply eq_true_iff_eq. rewrite !N.eqb_eq.
  pose proof (to_ascii_lower_fixed d c Hc). split; intros ?; symmetry; naive_solver.
Qed.

(** *** Prefixes *)

Lemma strip_prefix_Some s p r : strip_prefix s p = Some r <-> s = p ++ r.
Proof.
  revert s. induction p as [|c p IH]; intros s; simpl.
  - destruct s; naive_solver.
  - destruct s as [|d s]; [done|]. simpl. destruct (c =? d) eqn:Hcd.
    + apply N.eqb_eq in Hcd as ->. rewrite IH. naive_solver.
    + apply N.eqb_neq in Hcd. naive_solver.
Qed.

Lemma strip_prefix_app p r : strip_prefix (p ++ r) p = Some r.
Proof. by apply strip_prefix_Some. Qed.

Lemma starts_with_true s p : starts_with s p = true <-> exists r, s = p ++ r.
Proof.
  unfold starts_with. destruct (strip_prefix s p) as [r|] eqn:Hr.
  - apply strip_prefix_Some in Hr. naive_solver.
  - split; [done|]. intros [r ->]. by rewrite strip_prefix_app in Hr.
Qed.

(** *** Finding a character *)

Lemma split_once_Some s c a b :
  split_once s c = Some (a, b) -> s = a ++ c :: b /\ c ∉ a.
Proof.
  revert a. induction s as [|d s IH]; intros a; [done|]. simpl.
  destruct (d =? c) eqn:Hdc.
  - apply N.eqb_eq in Hdc as ->. intros [= <- <-]. split; [done|]. apply not_elem_of_nil.
  - apply N.eqb_neq in Hdc. destruct (split_once s c) as [[a' b']|]; [|done].
    intros [= <- <-]. destruct (IH a' eq_refl) as [-> Ha']. split; [done|].
    rewrite not_elem_of_cons. auto.
Qed.

Lemma split_once_None s c : split_once s c = None <-> c ∉ s.
Proof.
  induction s as [|d s IH]; simpl.
  - split; [intros _; apply not_elem_of_nil|done].
  - rewrite not_elem_of_cons. destruct (d =? c) eqn:Hdc.
    + apply N.eqb_eq in Hdc. naive_solver.
    + apply N.eqb_neq in Hdc. destruct (split_once s c) as [[a b]|]; naive_solver.
Qed.

Lemma split_once_app a b c : c ∉ a -> split_once (a ++ c :: b) c = Some (a, b).
Proof.
  induction a as [|d a IH]; simpl.
  - by rewrite N.eqb_refl.
  - rewrite not_elem_of_cons. intros [Hd Ha].
    rewrite (proj2 (N.eqb_neq d c)) by auto. by rewrite IH.
Qed.

Lemma contains_char_true s c : contains_char s c = true <-> c ∈ s.
Proof.
  unfold contains_char. rewrite existsb_exists. split.
  - intros (d & Hin & Hd). apply N.eqb_eq in Hd as ->. by apply list_elem_of_In.
  - intros Hin. exists c. split; [by apply list_elem_of_In|apply N.eqb_refl].
Qed.

Lemma contains_char_false s c : contains_char s c = false <-> c ∉ s.
Proof. rewrite <- contains_char_true. by destruct (contains_char s c). Qed.

Lemma split_once_shorter s c a b : split_once s c = Some (a, b) -> (length b < length s)%nat.
Proof. intros [-> _]%split_once_Some. rewrite length_app. simpl. lia. Qed.

(** *** Splitting at a character *)

Lemma split_by_nonempty p s : split_by p s <> [].
Proof.
  destruct s as [|d s]; [done|]. simpl. destruct (p d); [done|].
  by destruct (split_by p s).
Qed.

Lemma split_cons_first s c :
  split s c = match split_once s c with
              | Some (a, b) => a :: split b c
              | None => [s]
              end.
Proof.
  unfold split. induction s as [|d s IH]; [done|]. simpl.
  rewrite (N.eqb_sym c d). destruct (d =? c); [done|]. rewrite IH.
  by destruct (split_once s c) as [[a b]|].
Qed.

Lemma split_first_alt s c :
  split_first s c = match split_once s c with Some (a, _) => a | None => s end.
Proof.
  unfold split_first. rewrite split_cons_first. by destruct (split_once s c) as [[a b]|].
Qed.

Lemma split_first_id s c : c ∉ s -> split_first s c = s.
Proof. intros Hc. rewrite split_first_alt. by rewrite (proj2 (split_once_None s c) Hc). Qed.

Lemma split_first_app a b c : c ∉ a -> split_first (a ++ c :: b) c = a.
Proof. intros Hc. by rewrite split_first_alt, split_once_app. Qed.

(** [join] is the inverse of [split] at a character. *)
Lemma join_split s c : join [c] (split s c) = s.
Proof.
  assert (Hn : forall n s, (length s <= n)%nat -> join [c] (split s c) = s).
  { clear s. induction n as [|n IH]; intros s Hs.
    - by destruct s; [|simpl in Hs; lia].
    - rewrite split_cons_first. destruct (split_once s c) as [[a b]|] eqn:Hab; [|done].
      pose proof (split_once_shorter _ _ _ _ Hab). apply split_once_Some in Hab as [-> _].
      specialize (IH b ltac:(lia)). simpl.
      destruct (split b c) as [|w ws] eqn:Hb; [by apply split_by_nonempty in Hb|].
      by rewrite IH. }
  by apply (Hn (length s)).
Qed.

Lemma len_app s t : len (s ++ t) = len s + len t.
Proof. unfold len. induction s as [|c s IH]; simpl; [done|]. rewrite IH. lia. Qed.

Lemma len_ascii s : str_is_ascii s = true -> len s = N.of_nat (length s).
Proof.
  unfold str_is_ascii, len. induction s as [|c s IH]; [done|]. cbn [forallb fold_right length].
  intros Hs. split_bools. rewrite IH by done. unfold len_utf8.
  unfold is_ascii in *. destruct (c <? 128); [|done]. lia.
Qed.

Lemma is_empty_true s : is_empty s = true <-> s = [].
Proof. by destruct s. Qed.
Lemma is_empty_false s : is_empty s = false <-> s <> [].
Proof. by destruct s. Qed.

(** *** Texts without a class of characters *)

Definition lacks (p : char -> bool) (s : str) : Prop := forall c, c ∈ s -> p c = false.

Lemma lacks_nil p : lacks p [].
Proof. intros c Hc. by apply not_elem_of_nil in Hc. Qed.
Lemma lacks_cons p c s : lacks p (c :: s) <-> p c = false /\ lacks p s.
Proof. unfold lacks. setoid_rewrite elem_of_cons. naive_solver. Qed.
Lemma lacks_app p s t : lacks p (s ++ t) <-> lacks p s /\ lacks p t.
Proof. unfold lacks. setoid_rewrite elem_of_app. naive_solver. Qed.
Lemma lacks_rev p s : lacks p (rev s) <-> lacks p s.
Proof. unfold lacks. setoid_rewrite list_elem_of_In. setoid_rewrite <- in_rev. done. Qed.
Lemma lacks_char c s : lacks (N.eqb c) s <-> c ∉ s.
Proof.
  unfold lacks. split.
  - intros Hs Hc. specialize (Hs c Hc). by rewrite N.eqb_refl in Hs.
  - intros Hc d Hd. apply N.eqb_neq. by intros ->.
Qed.

Lemma drop_while_lacks p s : lacks p s -> drop_while p s = s.
Proof. intros Hs. apply drop_while_none. destruct s as [|c s]; [done|]. by apply lacks_cons in Hs as [? _]. Qed.
Lemma trim_end_by_lacks p s : lacks p s -> trim_end_by p s = s.
Proof. intros Hs. unfold trim_end_by. rewrite drop_while_lacks by (by apply lacks_rev). apply rev_involutive. Qed.
Lemma trim_lacks s : lacks is_whitespace s -> trim s = s.
Proof. intros Hs. unfold trim, trim_start_by. by rewrite drop_while_lacks, trim_end_by_lacks. Qed.

(** A text that begins and ends with a character outside the class is left
    alone by trimming. *)
Lemma trim_ends c d s :
  is_whitespace c = false -> is_whitespace d = false -> trim (c :: s ++ [d]) = c :: s ++ [d].
Proof.
  intros Hc Hd. unfold trim, trim_start_by. simpl. rewrite Hc.
  apply trim_end_by_id. simpl. by rewrite rev_app_distr.
Qed.
Lemma trim_head_last s :
  match s with [] => True | c :: _ => is_whitespace c = false end ->
  match rev s with [] => True | c :: _ => is_whitespace c = false end -> trim s = s.
Proof.
  intros Hh Hl. unfold trim, trim_start_by. rewrite drop_while_none by done. by apply trim_end_by_id.
Qed.

Lemma trim_end_char_app s c d : c <> d -> trim_end_char (s ++ [d]) c = s ++ [d].
Proof.
  intros Hcd. apply trim_end_by_id. rewrite rev_app_distr. simpl. by apply N.eqb_neq.
Qed.
Lemma trim_end_char_drop s c : trim_end_char (s ++ [c]) c = trim_end_char s c.
Proof. unfold trim_end_char, trim_end_by. rewrite rev_app_distr. simpl. by rewrite N.eqb_refl. Qed.
Lemma trim_end_char_lacks s c : c ∉ s -> trim_end_char s c = s.
Proof. intros Hc. apply trim_end_by_lacks. by apply lacks_char. Qed.

Lemma split_by_lacks p s : lacks p s -> split_by p s = [s].
Proof.
  induction s as [|c s IH]; [done|]. intros [Hc Hs]%lacks_cons. simpl. rewrite Hc, IH; done.
Qed.
Lemma split_by_app p a c b :
  lacks p a -> p c = true -> split_by p (a ++ c :: b) = a :: split_by p b.
Proof.
  intros Ha Hc. induction a as [|d a IH]; simpl; [by rewrite Hc|].
  apply lacks_cons in Ha as [Hd Ha]. rewrite Hd, IH by done. done.
Qed.

(** The characters of a text are those of its parts and the separator. *)
Lemma elem_of_split s c d : d ∈ s -> d = c \/ exists w, w ∈ split s c /\ d ∈ w.
Proof.
  unfold split. induction s as [|e s IH]; [by intros ?%not_elem_of_nil|]. simpl.
  intros [->|Hd]%elem_of_cons.
  - destruct (c =? e) eqn:He; [left; by apply N.eqb_eq in He|]. right.
    destruct (split_by (N.eqb c) s) as [|w ws].
    + exists [e]. split; by left.
    + exists (e :: w). split; by left.
  - destruct (IH Hd) as [->|(w & Hw & Hdw)]; [by left|]. right.
    destruct (c =? e); [exists w; split; [by right|done]|].
    destruct (split_by (N.eqb c) s) as [|w' ws]; [by apply not_elem_of_nil in Hw|].
    apply elem_of_cons in Hw as [->|Hw].
    + exists (e :: w'). split; [by left|by right].
    + exists w. split; [by right|done].
Qed.

Lemma split_snoc s c : split (s ++ [c]) c = split s c ++ [[]].
Proof.
  unfold split. induction s as [|e s IH]; simpl; [by rewrite N.eqb_refl|].
  destruct (c =? e); [by rewrite IH|]. rewrite IH.
  destruct (split_by (N.eqb c) s) as [|w ws] eqn:Hs; [by apply split_by_nonempty in Hs|done].
Qed.

Lemma str_is_ascii_elem s c : str_is_ascii s = true -> c ∈ s -> is_ascii c = true.
Proof. unfold str_is_ascii. rewrite forallb_forall. setoid_rewrite <- list_elem_of_In. eauto. Qed.

(** *** Lowering and the other operations *)

Lemma lower_eqb c d : is_ascii_alpha d = false -> (to_ascii_lower c =? d) = (c =? d).
Proof.
  intros Hd. apply eq_true_iff_eq. rewrite !N.eqb_eq. by apply to_ascii_lower_fixed.
Qed.

Lemma split_lower s c :
  is_ascii_alpha c = false ->
  split (map to_ascii_lower s) c = map (map to_ascii_lower) (split s c).
Proof.
  intros Hc. unfold split. induction s as [|d s IH]; [done|]. simpl.
  rewrite (N.eqb_sym c), lower_eqb, (N.eqb_sym d), IH by done. destruct (c =? d); [done|].
  by destruct (split_by (N.eqb c) s).
Qed.

Lemma contains_char_lower s c :
  is_ascii_alpha c = false -> contains_char (map to_ascii_lower s) c = contains_char s c.
Proof.
  intros Hc. unfold contains_char. induction s as [|d s IH]; [done|]. simpl.
  by rewrite (N.eqb_sym c), lower_eqb, (N.eqb_sym d), IH.
Qed.

Lemma is_alphanumeric_lower `{RustUnicode} c :
  is_ascii c = true -> is_alphanumeric (to_ascii_lower c) = is_alphanumeric c.
Proof.
  intros Hc. unfold is_alphanumeric. rewrite to_ascii_lower_ascii, Hc.
  unfold to_ascii_lower, is_ascii_digit, is_ascii_alpha, is_ascii_lower, is_ascii_upper.
  destruct ((65 <=? c) && (c <=? 90)) eqn:Hu; lia.
Qed.

Lemma len_lower s : str_is_ascii s = true -> len (map to_ascii_lower s) = len s.
Proof. intros Hs. rewrite !len_ascii by (by rewrite ?map_lower_ascii). by rewrite length_map. Qed.

Lemma starts_with_char_lower s c :
  is_ascii_alpha c = false ->
  starts_with_char (map to_ascii_lower s) c = starts_with_char s c.
Proof. intros Hc. destruct s as [|d s]; [done|]. by apply lower_eqb. Qed.

Lemma ends_with_char_lower s c :
  is_ascii_alpha c = false -> ends_with_char (map to_ascii_lower s) c = ends_with_char s c.
Proof. intros Hc. unfold ends_with_char. rewrite <- map_rev. by apply starts_with_char_lower. Qed.

(** The text before a character that follows something without it. *)
Lemma split_first_tail a b c : c ∉ a -> split_first (a ++ b) c = a ++ split_first b c.
Proof.
  intros Ha. rewrite !split_first_alt. induction a as [|d a IH]; [done|].
  rewrite not_elem_of_cons in Ha. destruct Ha as [Hd Ha]. specialize (IH Ha). simpl.
  rewrite (proj2 (N.eqb_neq d c)) by auto.
  destruct (split_once (a ++ b) c) as [[u v]|]; by rewrite IH.
Qed.

Lemma lacks_forallb p s : forallb (fun c => negb (p c)) s = true -> lacks p s.
Proof.
  rewrite forallb_forall. intros Hs c Hc. apply negb_true_iff, Hs. by apply list_elem_of_In.
Qed.

Lemma trim_front c s d :
  is_whitespace c = false -> d <> [] -> lacks is_whitespace d -> trim (c :: s ++ d) = c :: s ++ d.
Proof.
  intros Hc Hd Hl. destruct d as [|e k _] using rev_ind; [done|].
  apply lacks_app in Hl as [_ [He _]%lacks_cons]. rewrite app_assoc. by apply trim_ends.
Qed.

Lemma strip_prefix_lit_ne c s a p :
  c <> Ascii.N_of_ascii a -> strip_prefix (c :: s) (lit (String a p)) = None.
Proof.
  intros Hc. change (lit (String a p)) with (Ascii.N_of_ascii a :: lit p). cbn [strip_prefix].
  by rewrite (proj2 (N.eqb_neq _ _)) by auto.
Qed.

Lemma split_whitespace_word s : s <> [] -> lacks is_whitespace s -> split_whitespace s = [s].
Proof. intros Hs Hl. unfold split_whitespace. rewrite split_by_lacks by done. by destruct s. Qed.

Lemma split_whitespace_two a c b :
  a <> [] -> lacks is_whitespace a -> is_whitespace c = true -> b <> [] -> lacks is_whitespace b ->
  split_whitespace (a ++ c :: b) = [a; b].
Proof.
  intros Ha Hla Hc Hb Hlb. unfold split_whitespace.
  rewrite split_by_app, split_by_lacks by done. by destruct a, b.
Qed.

Lemma nonempty_cons (s : str) : s <> [] -> exists c r, s = c :: r.
Proof. destruct s as [|c r]; [done|eauto]. Qed.

(** *** ASCII texts stay ASCII *)

Lemma strip_prefix_ascii s p r :
  strip_prefix s p = Some r -> str_is_ascii s = true -> str_is_ascii r = true.
Proof. intros ->%strip_prefix_Some. rewrite str_is_ascii_app. intros Hs. by split_bools. Qed.

Lemma split_first_ascii s c : str_is_ascii s = true -> str_is_ascii (split_first s c) = true.
Proof.
  intros Hs. rewrite split_first_alt. destruct (split_once s c) as [[a b]|] eqn:Hab; [|done].
  apply split_once_Some in Hab as [-> _]. rewrite str_is_ascii_app in Hs. by split_bools.
Qed.

Lemma trim_end_char_ascii s c : str_is_ascii s = true -> str_is_ascii (trim_end_char s c) = true.
Proof. apply trim_end_by_ascii. Qed.

Lemma split_by_ascii p s w : str_is_ascii s = true -> w ∈ split_by p s -> str_is_ascii w = true.
Proof.
  revert w. induction s as [|d s IH]; intros w; cbn [split_by].
  - by intros _ ->%list_elem_of_singleton.
  - unfold str_is_ascii. simpl. intros Hs. split_bools. destruct (p d).
    + intros [->|Hw]%elem_of_cons; [done|by apply IH].
    + destruct (split_by p s) as [|w' ws].
      * intros ->%list_elem_of_singleton. simpl. by rewrite andb_true_r.
      * intros [->|Hw]%elem_of_cons; [|apply IH; [done|by right]].
        simpl. apply andb_true_iff. split; [done|]. apply IH; [done|by left].
Qed.

Lemma split_ascii s c w : str_is_ascii s = true -> w ∈ split s c -> str_is_ascii w = true.
Proof. apply split_by_ascii. Qed.

Lemma split_whitespace_ascii s w :
  str_is_ascii s = true -> w ∈ split_whitespace s -> str_is_ascii w = true.
Proof.
  intros Hs Hw. apply list_elem_of_In in Hw. unfold split_whitespace in Hw.
  apply filter_In in Hw as [Hw _]. by eapply split_by_ascii, list_elem_of_In.
Qed.

Lemma strip_cr_ascii w : str_is_ascii w = true -> str_is_ascii (strip_cr w) = true.
Proof.
  unfold strip_cr. intros Hw. rewrite <- str_is_ascii_rev in Hw.
  destruct (rev w) as [|c r] eqn:Hr; [by rewrite <- (rev_involutive w), Hr|].
  assert (Hw' : str_is_ascii w = true) by (by rewrite <- str_is_ascii_rev, Hr).
  assert (str_is_ascii (rev r) = true).
  { rewrite str_is_ascii_rev. unfold str_is_ascii in *. simpl in Hw. by split_bools. }
  by repeat case_match.
Qed.

Lemma lines_ascii s w : str_is_ascii s = true -> w ∈ lines s -> str_is_ascii w = true.
Proof.
  intros Hs. unfold lines.
  assert (forall v, v ∈ split s 10 -> str_is_ascii v = true) as Hv by (intros; by eapply split_ascii).
  revert Hv. generalize (split s 10) as ws. clear s Hs.
  induction ws as [|v ws IH]; [by intros _ ?%not_elem_of_nil|]. intros Hv.
  destruct ws as [|v' ws].
  - simpl. destruct (is_empty v); [by intros ?%not_elem_of_nil|].
    intros ->%list_elem_of_singleton. apply Hv. by left.
  - intros [->|Hw]%elem_of_cons.
    + apply strip_cr_ascii, Hv. by left.
    + apply IH; [|done]. intros u Hu. apply Hv. by right.
Qed.

#[export] Hint Resolve strip_prefix_ascii split_first_ascii trim_end_char_ascii trim_ascii : dns.

(** ** Printing and parsing numbers *)

Lemma parse_digits_app s t a :
  parse_digits a (s ++ t) = match parse_digits a s with Some v => parse_digits v t | None => None end.
Proof.
  revert a. induction s as [|c s IH]; intros a; [done|]. simpl. by destruct (digit_value c).
Qed.

Lemma show_N_fuel_app fuel n acc : show_N_fuel fuel n acc = show_N_fuel fuel n [] ++ acc.
Proof.
  revert n acc. induction fuel as [|fuel IH]; intros n acc; [done|]. cbn [show_N_fuel].
  destruct (n / 10 =? 0); [done|]. rewrite IH. rewrite (IH _ [_]). by rewrite <- app_assoc.
Qed.

Lemma digit_value_digit d : d < 10 -> digit_value (48 + d) = Some d.
Proof.
  intros Hd. unfold digit_value, is_ascii_digit.
  assert ((48 <=? 48 + d) && (48 + d <=? 57) = true) as -> by lia. f_equal. lia.
Qed.

Lemma parse_show_fuel fuel n :
  n < 10 ^ N.of_nat fuel -> parse_digits 0 (show_N_fuel fuel n []) = Some n.
Proof.
  revert n. induction fuel as [|fuel IH]; intros n Hn.
  { simpl in Hn. by assert (n = 0) as -> by lia. }
  cbn [show_N_fuel]. pose proof (N.mod_lt n 10 ltac:(lia)).
  pose proof (N.div_mod n 10 ltac:(lia)).
  destruct (n / 10 =? 0) eqn:Hz.
  - cbn [parse_digits]. rewrite digit_value_digit by lia. f_equal. lia.
  - rewrite show_N_fuel_app, parse_digits_app, IH.
    + cbn [parse_digits]. rewrite digit_value_digit by lia. f_equal. lia.
    + apply N.Div0.div_lt_upper_bound. rewrite Nat2N.inj_succ, N.pow_succ_r' in Hn. lia.
Qed.

Lemma show_N_bound n : n < 10 ^ N.of_nat (S (N.to_nat (N.log2 n))).
Proof.
  rewrite Nat2N.inj_succ, N2Nat.id. destruct (decide (n = 0)) as [->|Hn]; [done|].
  pose proof (N.log2_spec n ltac:(lia)) as [_ Hlt].
  eapply N.lt_le_trans; [exact Hlt|]. apply N.pow_le_mono_l. lia.
Qed.

Lemma show_N_digits n c : c ∈ show_N n -> is_ascii_digit c = true.
Proof.
  unfold show_N. generalize (S (N.to_nat (N.log2 n))) as fuel. intros fuel.
  assert (forall acc, (forall c, c ∈ acc -> is_ascii_digit c = true) ->
    c ∈ show_N_fuel fuel n acc -> is_ascii_digit c = true) as Hall.
  { revert n. induction fuel as [|fuel IH]; intros n acc Hacc; [apply Hacc|]. cbn [show_N_fuel].
    assert (forall c, c ∈ (48 + n mod 10) :: acc -> is_ascii_digit c = true) as Hacc'.
    { intros c' [->|Hin]%elem_of_cons; [|by apply Hacc].
      pose proof (N.mod_lt n 10 ltac:(lia)). unfold is_ascii_digit. lia. }
    destruct (n / 10 =? 0); [apply Hacc'|]. by apply IH. }
  apply Hall. by intros ? ?%not_elem_of_nil.
Qed.

Lemma show_N_nonempty n : exists c s, show_N n = c :: s.
Proof.
  unfold show_N. cbn [show_N_fuel]. destruct (n / 10 =? 0); [eauto|].
  rewrite show_N_fuel_app. destruct (show_N_fuel _ _ []); simpl; eauto.
Qed.

(** [Display] then [FromStr] gives the number back. *)
Lemma parse_show_N max n : n <= max -> parse_uint max (show_N n) = Some n.
Proof.
  intros Hn. unfold parse_uint.
  destruct (show_N_nonempty n) as (c & s & Hs).
  assert (Hc : is_ascii_digit c = true) by (apply (show_N_digits n); rewrite Hs; left).
  assert (match show_N n with 43 :: s' => s' | _ => show_N n end = show_N n) as ->.
  { rewrite Hs. repeat (match goal with |- context [match ?x with _ => _ end] => destruct x; try done end). }
  rewrite Hs at 1. unfold show_N. rewrite parse_show_fuel by apply show_N_bound.
  by rewrite (proj2 (N.leb_le _ _) Hn).
Qed.

(** ** The order of strings: [Ord for str], by code points *)

Fixpoint str_leb (s t : str) : bool :=
  match s, t with
  | [], _ => true
  | _ :: _, [] => false
  | c :: s', d :: t' => if c <? d then true else if d <? c then false else str_leb s' t'
  end.
Fixpoint insert_str (x : str) (l : list str) : list str :=
  match l with
  | [] => [x]
  | y :: l' => if str_leb x y then x :: l else y :: insert_str x l'
  end.
Lemma str_leb_trans s t u : str_leb s t = true -> str_leb t u = true -> str_leb s u = true.
Proof.
  revert t u. induction s as [|c s IH]; intros [|d t] [|e u]; cbn [str_leb]; try done.
  destruct (N.ltb_spec c d), (N.ltb_spec d c), (N.ltb_spec d e), (N.ltb_spec e d), (N.ltb_spec c e), (N.ltb_spec e c);
    try done; try lia. apply IH.
Qed.
Lemma str_leb_total s t : str_leb s t = true \/ str_leb t s = true.
Proof.
  revert t. induction s as [|c s IH]; intros [|d t]; cbn [str_leb]; auto.
  destruct (N.ltb_spec c d), (N.ltb_spec d c); auto; lia.
Qed.
Lemma str_leb_antisym s t : str_leb s t = true -> str_leb t s = true -> s = t.
Proof.
  revert t. induction s as [|c s IH]; intros [|d t]; cbn [str_leb]; try done.
  destruct (N.ltb_spec c d), (N.ltb_spec d c); try done; try lia. intros Hst Hts. f_equal; [lia|by apply IH].
Qed.
(** [slice::sort] of strings *)
Definition sort_strs (l : list str) : list str := fold_right insert_str [] l.

(** ** UTF-8 *)

Definition utf8_cont (b : N) : bool := (128 <=? b) && (b <=? 191).
(** The second byte after the leading bytes that restrict it. *)
Definition utf8_second (b0 b1 : N) : bool :=
  utf8_cont b1 && (if b0 =? 224 then 160 <=? b1 else if b0 =? 237 then b1 <=? 159
                   else if b0 =? 240 then 144 <=? b1 else if b0 =? 244 then b1 <=? 143 else true).
(** [String::from_utf8] *)
Fixpoint from_utf8 (bs : list N) : option str :=
  match bs with
  | [] => Some []
  | b0 :: r0 =>
      if b0 <? 128 then cons b0 <$> from_utf8 r0
      else match r0 with
      | b1 :: r1 =>
          if (194 <=? b0) && (b0 <=? 223) then
            if utf8_cont b1 then cons ((b0 - 192) * 64 + (b1 - 128)) <$> from_utf8 r1 else None
          else match r1 with
          | b2 :: r2 =>
              if (224 <=? b0) && (b0 <=? 239) then
                if utf8_second b0 b1 && utf8_cont b2
                then cons (((b0 - 224) * 64 + (b1 - 128)) * 64 + (b2 - 128)) <$> from_utf8 r2 else None
              else match r2 with
              | b3 :: r3 =>
                  if (240 <=? b0) && (b0 <=? 244) && utf8_second b0 b1 && utf8_cont b2 && utf8_cont b3
                  then cons ((((b0 - 240) * 64 + (b1 - 128)) * 64 + (b2 - 128)) * 64 + (b3 - 128)) <$> from_utf8 r3
                  else None
              | [] => None
              end
          | [] => None
          end
      | [] => None
      end
  end.

Lemma from_utf8_ascii s : str_is_ascii s = true -> from_utf8 s = Some s.
Proof.
  induction s as [|c s IH]; [done|]. unfold str_is_ascii, is_ascii. simpl. intros Hs.
  apply andb_true_iff in Hs as [Hc Hs]. rewrite Hc, IH by done. done.
Qed.

(** *** Trimming and splitting, continued *)

Lemma trim_end_char_tail s e : exists k, s = trim_end_char s e ++ k /\ forall c, c ∈ k -> c = e.
Proof.
  unfold trim_end_char, trim_end_by. exists (rev (take_while (N.eqb e) (rev s))). split.
  - rewrite <- rev_app_distr. rewrite <- (rev_involutive s) at 1. f_equal. symmetry. apply take_drop_while.
  - intros c Hc. apply list_elem_of_In, in_rev in Hc.
    revert Hc. generalize (rev s). intros q. induction q as [|d q IH]; [done|]. cbn [take_while].
    destruct (N.eqb_spec e d) as [<-|]; [|done]. intros [<-|Hc]; [done|auto].
Qed.
Lemma trim_end_char_all s e k : (forall c, c ∈ k -> c = e) -> trim_end_char (s ++ k) e = trim_end_char s e.
Proof.
  induction k as [|c k IH] using rev_ind; [by rewrite app_nil_r|]. intros Hk. rewrite app_assoc.
  rewrite (Hk c) by (apply elem_of_app; right; by left). rewrite trim_end_char_drop. apply IH.
  intros d Hd. apply Hk, elem_of_app. by left.
Qed.
Lemma trim_head s c r : trim s = c :: r -> is_whitespace c = false.
Proof.
  unfold trim, trim_start_by. intros Ht.
  destruct (trim_end_by_prefix is_whitespace (drop_while is_whitespace s)) as [k Hk]. rewrite Ht in Hk.
  by eapply drop_while_head.
Qed.
Lemma trim_idem s : trim (trim s) = trim s.
Proof.
  unfold trim at 1, trim_start_by. rewrite drop_while_none.
  - unfold trim. apply trim_end_by_idem.
  - destruct (trim s) eqn:Ht; [done|]. by eapply trim_head.
Qed.
Lemma split_by_word q s w : w ∈ split_by q s -> lacks q w.
Proof.
  revert w. induction s as [|d s IH]; cbn [split_by]; intros w.
  - intros ->%list_elem_of_singleton. apply lacks_nil.
  - destruct (q d) eqn:Hd.
    + intros [->|Hw]%elem_of_cons; [apply lacks_nil|auto].
    + destruct (split_by q s) as [|w1 ws].
      * intros ->%list_elem_of_singleton. apply lacks_cons. split; [done|apply lacks_nil].
      * intros [->|Hw]%elem_of_cons; [apply lacks_cons; split; [done|apply IH; by left]|apply IH; by right].
Qed.
Lemma split_whitespace_lacks s w : w ∈ split_whitespace s -> lacks is_whitespace w.
Proof.
  unfold split_whitespace. intros Hw. apply list_elem_of_In, filter_In in Hw as [Hw _].
  apply (split_by_word _ s). by apply list_elem_of_In.
Qed.
Lemma split_whitespace_head c s :
  is_whitespace c = false -> exists w ws, split_whitespace (c :: s) = (c :: w) :: ws.
Proof.
  intros Hc. unfold split_whitespace. cbn [split_by]. rewrite Hc.
  destruct (split_by is_whitespace s) as [|w ws]; cbn [List.filter is_empty negb]; eauto.
Qed.
Lemma no_white_space s : contains_any s is_whitespace = false -> lacks is_whitespace s.
Proof.
  intros Hc c Hin. destruct (is_whitespace c) eqn:Hw; [|done].
  assert (contains_any s is_whitespace = true); [|congruence].
  apply existsb_exists. exists c. split; [by apply list_elem_of_In|done].
Qed.
Lemma len_length s : N.of_nat (length s) <= len s.
Proof.
  induction s as [|c s IH]; [done|]. change (len (c :: s)) with (len_utf8 c + len s). cbn [length].
  assert (1 <= len_utf8 c); [|lia]. unfold len_utf8. repeat case_match; lia.
Qed.
Lemma split_length s c : (length (split s c) <= S (length s))%nat.
Proof.
  unfold split. induction s as [|d s IH]; [done|]. cbn [split_by]. destruct (c =? d); [cbn [length]; lia|].
  destruct (split_by (N.eqb c) s); cbn [length] in *; lia.
Qed.
Lemma split_str2_nonempty a b s : split_str2 a b s <> [].
Proof. destruct s as [|d [|e s]]; cbn [split_str2]; repeat case_match; done. Qed.
Lemma split_str2_join a b s : join [a; b] (split_str2 a b s) = s.
Proof.
  remember (length s) as n eqn:Hn. assert (Hle : (length s <= n)%nat) by lia. clear Hn. revert s Hle.
  induction n as [|n IH]; intros s Hle; [destruct s; [done|cbn [length] in Hle; lia]|].
  destruct s as [|d [|e s]]; [done|done|]. cbn [length] in Hle.
  assert (split_str2 a b (d :: e :: s) = if (d =? a) && (e =? b) then [] :: split_str2 a b s
    else match split_str2 a b (e :: s) with w :: ws => (d :: w) :: ws | [] => [[d]] end) as -> by reflexivity.
  destruct ((d =? a) && (e =? b)) eqn:Hde.
  - apply andb_true_iff in Hde as [->%N.eqb_eq ->%N.eqb_eq]. pose proof (IH s ltac:(lia)) as Hs.
    pose proof (split_str2_nonempty a b s) as Hne. destruct (split_str2 a b s) as [|w ws]; [done|].
    change (join [a; b] ([] :: w :: ws)) with (a :: b :: join [a; b] (w :: ws)). by rewrite Hs.
  - pose proof (IH (e :: s) ltac:(cbn [length]; lia)) as Hs.
    pose proof (split_str2_nonempty a b (e :: s)) as Hne.
    destruct (split_str2 a b (e :: s)) as [|w [|w' ws]]; [done| |]; cbn [join app] in *; by rewrite Hs.
Qed.
