(* ===== verification/IpAddr.v ===== *)
(** * IP addresses

    [std::net::IpAddr] and [SocketAddr] as the sources use them: parsing
    ([FromStr]), printing ([Display]) and the address classes.  The parsers
    follow the standard library's: every reader takes the remaining text and
    gives the value and the rest, or nothing when it fails. *)
From S2P Require Import Prelude RustStr.
Local Open Scope N_scope.

Inductive IpAddr :=
| V4 (a b c d : N)
| V6 (s0 s1 s2 s3 s4 s5 s6 s7 : N).

#[global] Instance IpAddr_eq_dec : EqDecision IpAddr.
Proof. solve_decision. Defined.

Definition is_ipv4 (ip : IpAddr) : bool := match ip with V4 _ _ _ _ => true | _ => false end.
Definition is_ipv6 (ip : IpAddr) : bool := negb (is_ipv4 ip).

Record SocketAddr := { sa_ip : IpAddr; sa_port : N }.

(** ** Address classes *)

Definition v4_is_loopback (a b c d : N) : bool := a =? 127.
Definition v4_is_private (a b c d : N) : bool :=
  (a =? 10) || ((a =? 172) && (16 <=? b) && (b <=? 31)) || ((a =? 192) && (b =? 168)).
Definition v4_is_link_local (a b c d : N) : bool := (a =? 169) && (b =? 254).
Definition v4_is_broadcast (a b c d : N) : bool :=
  (a =? 255) && (b =? 255) && (c =? 255) && (d =? 255).
Definition v4_is_documentation (a b c d : N) : bool :=
  ((a =? 192) && (b =? 0) && (c =? 2)) || ((a =? 198) && (b =? 51) && (c =? 100))
  || ((a =? 203) && (b =? 0) && (c =? 113)).
Definition v4_is_unspecified (a b c d : N) : bool :=
  (a =? 0) && (b =? 0) && (c =? 0) && (d =? 0).
Definition v6_is_loopback (ip : IpAddr) : bool := bool_decide (ip = V6 0 0 0 0 0 0 0 1).
Definition v6_is_unspecified (ip : IpAddr) : bool := bool_decide (ip = V6 0 0 0 0 0 0 0 0).

(** ** Parsing *)

Definition reader (A : Type) := str -> option (A * str).

Definition read_char (c : char) : reader unit := fun s =>
  match s with d :: s' => if d =? c then Some (tt, s') else None | [] => None end.

(** [char::to_digit(radix)] for the radixes 10 and 16 *)
Definition to_digit (radix : N) (c : char) : option N :=
  let v := if is_ascii_digit c then Some (c - 48)
           else if (97 <=? c) && (c <=? 102) then Some (c - 87)
           else if (65 <=? c) && (c <=? 70) then Some (c - 55) else None in
  match v with Some d => if d <? radix then Some d else None | None => None end.

(** The digits read by [read_number]: their value, how many, and the rest. *)
Fixpoint read_digits (radix acc : N) (count : nat) (s : str) : N * nat * str :=
  match s with
  | c :: s' =>
      match to_digit radix c with
      | Some d => read_digits radix (acc * radix + d) (S count) s'
      | None => (acc, count, s)
      end
  | [] => (acc, count, s)
  end.

(** [Parser::read_number(radix, max_digits, allow_zero_prefix)] for a type of
    maximum [max]. *)
Definition read_number (radix : N) (max_digits : option nat) (zero_prefix : bool) (max : N)
    : reader N := fun s =>
  let '(v, count, rest) := read_digits radix 0 0 s in
  if match max_digits with Some m => (m <? count)%nat | None => false end then None
  else if max <? v then None
  else if (count =? 0)%nat then None
  else if negb zero_prefix && starts_with_char s 48 && (1 <? count)%nat then None
  else Some (v, rest).

(** [Parser::read_separator(sep, index, inner)] *)
Definition read_separator {A} (sep : char) (index : nat) (inner : reader A) : reader A := fun s =>
  if (0 <? index)%nat then
    match read_char sep s with Some (_, s') => inner s' | None => None end
  else inner s.

Definition read_octet : reader N := read_number 10 (Some 3%nat) false 255.

Definition read_ipv4_addr : reader (N * N * N * N) := fun s =>
  match read_separator 46 0 read_octet s with
  | Some (a, s) =>
    match read_separator 46 1 read_octet s with
    | Some (b, s) =>
      match read_separator 46 2 read_octet s with
      | Some (c, s) =>
        match read_separator 46 3 read_octet s with
        | Some (d, s) => Some ((a, b, c, d), s)
        | None => None
        end
      | None => None
      end
    | None => None
    end
  | None => None
  end.

(** [read_groups]: at most [limit] groups of an IPv6 address from group [i] on,
    whether it ended in an embedded IPv4 address, and the rest.  The fuel is
    the number of groups left. *)
Fixpoint read_groups (fuel i limit : nat) (s : str) : list N * bool * str :=
  match fuel with
  | O => ([], false, s)
  | S fuel' =>
      let group :=
        match read_separator 58 i (read_number 16 (Some 4%nat) true 65535) s with
        | Some (g, s') => let '(gs, v4, r) := read_groups fuel' (S i) limit s' in (g :: gs, v4, r)
        | None => ([], false, s)
        end in
      if (i <? limit - 1)%nat then
        match read_separator 58 i read_ipv4_addr s with
        | Some ((a, b, c, d), s') => ([a * 256 + b; c * 256 + d], true, s')
        | None => group
        end
      else group
  end.

Definition v6_of_list (l : list N) : option IpAddr :=
  match l with
  | [s0; s1; s2; s3; s4; s5; s6; s7] => Some (V6 s0 s1 s2 s3 s4 s5 s6 s7)
  | _ => None
  end.

Definition read_ipv6_addr : reader IpAddr := fun s =>
  let '(head, head_v4, s1) := read_groups 8 0 8 s in
  if (length head =? 8)%nat then
    match v6_of_list head with Some ip => Some (ip, s1) | None => None end
  else if head_v4 then None
  else match read_char 58 s1 with
  | Some (_, s2) =>
    match read_char 58 s2 with
    | Some (_, s3) =>
      let limit := (8 - (length head + 1))%nat in
      let '(tail, _, s4) := read_groups limit 0 limit s3 in
      let zeros := repeat 0 (8 - length head - length tail) in
      match v6_of_list (head ++ zeros ++ tail) with
      | Some ip => Some (ip, s4)
      | None => None
      end
    | None => None
    end
  | None => None
  end.

(** [parse_with]: the whole text must be read. *)
Definition parse_all {A} (r : reader A) (s : str) : option A :=
  match r s with Some (a, []) => Some a | _ => None end.

Definition v4_of (q : N * N * N * N) : IpAddr := let '(a, b, c, d) := q in V4 a b c d.

(** [Ipv4Addr::from_str] refuses a text longer than [255.255.255.255] *)
Definition parse_ipv4 (s : str) : option IpAddr :=
  if 15 <? len s then None
  else match parse_all read_ipv4_addr s with Some q => Some (v4_of q) | None => None end.
Definition parse_ipv6 (s : str) : option IpAddr := parse_all read_ipv6_addr s.

Definition read_ip_addr : reader IpAddr := fun s =>
  match read_ipv4_addr s with
  | Some (q, s') => Some (v4_of q, s')
  | None => read_ipv6_addr s
  end.
(** [str::parse::<IpAddr>] *)
Definition parse_ip (s : str) : option IpAddr := parse_all read_ip_addr s.

Definition read_port : reader N := fun s =>
  match read_char 58 s with
  | Some (_, s') => read_number 10 None true 65535 s'
  | None => None
  end.
Definition read_scope_id : reader unit := fun s =>
  match read_char 37 s with
  | Some (_, s') =>
      match read_number 10 None true 4294967295 s' with
      | Some (_, s'') => Some (tt, s'')
      | None => None
      end
  | None => None
  end.
Definition read_socket_addr_v4 : reader SocketAddr := fun s =>
  match read_ipv4_addr s with
  | Some (q, s') =>
      match read_port s' with
      | Some (p, s'') => Some ({| sa_ip := v4_of q; sa_port := p |}, s'')
      | None => None
      end
  | None => None
  end.
(** [[ip]:port], with an optional scope id that the sources never look at. *)
Definition read_socket_addr_v6 : reader SocketAddr := fun s =>
  match read_char 91 s with
  | Some (_, s1) =>
    match read_ipv6_addr s1 with
    | Some (ip, s2) =>
      let s3 := match read_scope_id s2 with Some (_, s') => s' | None => s2 end in
      match read_char 93 s3 with
      | Some (_, s4) =>
        match read_port s4 with
        | Some (p, s5) => Some ({| sa_ip := ip; sa_port := p |}, s5)
        | None => None
        end
      | None => None
      end
    | None => None
    end
  | None => None
  end.
(** [str::parse::<SocketAddr>] *)
Definition parse_socket_addr (s : str) : option SocketAddr :=
  parse_all (fun s => match read_socket_addr_v4 s with
                      | Some r => Some r
                      | None => read_socket_addr_v6 s
                      end) s.

(** ** Printing *)

Definition hex_digit (d : N) : char := if d <? 10 then 48 + d else 87 + d.
(** [{:x}] of a 16-bit segment *)
Definition show_hex (n : N) : str :=
  let ds := [n / 4096 mod 16; n / 256 mod 16; n / 16 mod 16; n mod 16] in
  match drop_while (N.eqb 0) ds with
  | [] => lit "0"
  | ds' => map hex_digit ds'
  end.

(** The first longest run of zero segments: start and length. *)
Fixpoint zero_runs (i : nat) (cur best : nat * nat) (l : list N) : nat * nat :=
  match l with
  | [] => best
  | x :: l' =>
      if x =? 0 then
        let cur' := if (snd cur =? 0)%nat then (i, 1%nat) else (fst cur, S (snd cur)) in
        zero_runs (S i) cur' (if (snd best <? snd cur')%nat then cur' else best) l'
      else zero_runs (S i) (0%nat, 0%nat) best l'
  end.

Definition show_v4 (a b c d : N) : str :=
  show_N a ++ lit "." ++ show_N b ++ lit "." ++ show_N c ++ lit "." ++ show_N d.
Definition show_v6 (l : list N) : str :=
  match l with
  | [0; 0; 0; 0; 0; 65535; g; h] =>
      lit "::ffff:" ++ show_v4 (g / 256) (g mod 256) (h / 256) (h mod 256)
  | _ =>
      let '(start, n) := zero_runs 0 (0, 0)%nat (0, 0)%nat l in
      if (1 <? n)%nat then
        join (lit ":") (map show_hex (take start l)) ++ lit "::"
          ++ join (lit ":") (map show_hex (drop (start + n) l))
      else join (lit ":") (map show_hex l)
  end.
(** [IpAddr::to_string] *)
Definition show_ip (ip : IpAddr) : str :=
  match ip with
  | V4 a b c d => show_v4 a b c d
  | V6 s0 s1 s2 s3 s4 s5 s6 s7 => show_v6 [s0; s1; s2; s3; s4; s5; s6; s7]
  end.

(** ** The characters of an address *)

(** The reader takes characters of the class [p] only. *)
Definition reads {A} (p : char -> bool) (r : reader A) : Prop :=
  forall s a s', r s = Some (a, s') -> exists k, s = k ++ s' /\ forallb p k = true.

Lemma reads_weaken {A} (p q : char -> bool) (r : reader A) :
  (forall c, p c = true -> q c = true) -> reads p r -> reads q r.
Proof.
  intros Hpq Hr s a s' Hs. destruct (Hr _ _ _ Hs) as (k & -> & Hk). exists k. split; [done|].
  rewrite forallb_forall in Hk |- *. auto.
Qed.

Lemma reads_char p c : p c = true -> reads p (read_char c).
Proof.
  intros Hc [|d s] a s'; simpl; [done|]. destruct (d =? c) eqn:Hd; [|done].
  intros [= _ ->]. apply N.eqb_eq in Hd as ->. exists [c]. by rewrite <- Hc; simpl; rewrite andb_true_r.
Qed.

Lemma reads_cat {A B} p (k1 k2 s s1 : str) (r : reader A) (f : reader B) :
  s = k1 ++ k2 ++ s1 -> forallb p k1 = true -> forallb p k2 = true ->
  exists k, s = k ++ s1 /\ forallb p k = true.
Proof. intros -> H1 H2. exists (k1 ++ k2). rewrite <- app_assoc, forallb_app, H1, H2. done. Qed.

Lemma to_digit_hex radix c d : to_digit radix c = Some d -> is_ascii_hexdigit c = true.
Proof.
  unfold to_digit, is_ascii_hexdigit. destruct (is_ascii_digit c); [done|].
  destruct ((97 <=? c) && (c <=? 102)); [by rewrite orb_true_r|].
  by destruct ((65 <=? c) && (c <=? 70)).
Qed.

Lemma to_digit_10 c d : to_digit 10 c = Some d -> is_ascii_digit c = true.
Proof.
  unfold to_digit. destruct (is_ascii_digit c); [done|].
  destruct ((97 <=? c) && (c <=? 102)) eqn:Ha; [|destruct ((65 <=? c) && (c <=? 70)) eqn:Hb; [|done]].
  - assert ((c - 87 <? 10) = false) as -> by (split_bools; lia). done.
  - assert ((c - 55 <? 10) = false) as -> by (split_bools; lia). done.
Qed.

Lemma read_digits_chars p radix acc n s v m s' :
  (forall c d, to_digit radix c = Some d -> p c = true) ->
  read_digits radix acc n s = (v, m, s') -> exists k, s = k ++ s' /\ forallb p k = true.
Proof.
  intros Hp. revert acc n. induction s as [|c s IH]; intros acc n; simpl.
  - intros [= _ _ <-]. by exists [].
  - destruct (to_digit radix c) as [d|] eqn:Hd; [|intros [= _ _ <-]; by exists []].
    intros Hs. destruct (IH _ _ Hs) as (k & -> & Hk). exists (c :: k).
    split; [done|]. simpl. by rewrite (Hp _ _ Hd), Hk.
Qed.

Lemma reads_number p radix digits zero max :
  (forall c d, to_digit radix c = Some d -> p c = true) ->
  reads p (read_number radix digits zero max).
Proof.
  intros Hp s v s'. unfold read_number.
  destruct (read_digits radix 0 0 s) as [[w n] r] eqn:Hr.
  pose proof (read_digits_chars p _ _ _ _ _ _ _ Hp Hr).
  repeat case_match; try done; by intros [= _ <-].
Qed.

Lemma reads_separator {A} p sep i (r : reader A) :
  p sep = true -> reads p r -> reads p (read_separator sep i r).
Proof.
  intros Hsep Hr s a s'. unfold read_separator.
  destruct (0 <? i)%nat; [|apply Hr].
  destruct (read_char sep s) as [[u s1]|] eqn:Hc; [|done].
  intros Hs. destruct (reads_char p sep Hsep _ _ _ Hc) as (k1 & -> & Hk1).
  destruct (Hr _ _ _ Hs) as (k2 & -> & Hk2). by eapply (reads_cat _ k1 k2 _ _ r r).
Qed.

Definition is_v4_char (c : char) : bool := is_ascii_digit c || (c =? dot).
Definition is_v6_char (c : char) : bool := is_ascii_hexdigit c || (c =? dot) || (c =? colon).

Lemma reads_octet i : reads is_v4_char (read_separator 46 i read_octet).
Proof.
  apply reads_separator; [done|]. apply reads_number.
  intros c d Hd. unfold is_v4_char. by rewrite (to_digit_10 _ _ Hd).
Qed.

Lemma reads_ipv4 : reads is_v4_char read_ipv4_addr.
Proof.
  intros s q s'. unfold read_ipv4_addr.
  destruct (read_separator 46 0 read_octet s) as [[a s1]|] eqn:H1; [|done].
  destruct (read_separator 46 1 read_octet s1) as [[b s2]|] eqn:H2; [|done].
  destruct (read_separator 46 2 read_octet s2) as [[c s3]|] eqn:H3; [|done].
  destruct (read_separator 46 3 read_octet s3) as [[d s4]|] eqn:H4; [|done].
  intros [= _ <-].
  destruct (reads_octet _ _ _ _ H1) as (k1 & -> & Hk1), (reads_octet _ _ _ _ H2) as (k2 & -> & Hk2),
    (reads_octet _ _ _ _ H3) as (k3 & -> & Hk3), (reads_octet _ _ _ _ H4) as (k4 & -> & Hk4).
  exists (k1 ++ k2 ++ k3 ++ k4). rewrite !forallb_app, Hk1, Hk2, Hk3, Hk4.
  by rewrite <- !app_assoc.
Qed.

Lemma v4_char_v6 c : is_v4_char c = true -> is_v6_char c = true.
Proof. unfold is_v4_char, is_v6_char, is_ascii_hexdigit. intros [-> | ->]%orb_true_iff; by rewrite ?orb_true_r. Qed.

Lemma reads_sep_ipv4 i : reads is_v6_char (read_separator 58 i read_ipv4_addr).
Proof. apply reads_separator; [done|]. eapply reads_weaken; [apply v4_char_v6|apply reads_ipv4]. Qed.

Lemma reads_hextet i : reads is_v6_char (read_separator 58 i (read_number 16 (Some 4%nat) true 65535)).
Proof.
  apply reads_separator; [done|]. apply reads_number.
  intros c d Hd. unfold is_v6_char. by rewrite (to_digit_hex _ _ _ Hd).
Qed.

Lemma separator_in {A} sep i (r : reader A) s a s' :
  (0 < i)%nat -> read_separator sep i r s = Some (a, s') -> sep ∈ s.
Proof.
  intros Hi. unfold read_separator. destruct (0 <? i)%nat eqn:Hb; [|lia].
  destruct s as [|c s]; [done|]. simpl. destruct (c =? sep) eqn:Hc; [|done].
  intros _. apply N.eqb_eq in Hc as ->. by left.
Qed.

Lemma read_groups_chars fuel i limit s gs v r :
  read_groups fuel i limit s = (gs, v, r) ->
  (exists k, s = k ++ r /\ forallb is_v6_char k = true) /\
  (((0 < i)%nat /\ gs <> []) \/ (2 < length gs)%nat -> colon ∈ s).
Proof.
  revert i s gs v r. induction fuel as [|fuel IH]; intros i s gs v r; cbn [read_groups].
  { intros [= <- _ <-]. split; [by exists []|]. intros [[_ ?]|?]; [done|simpl in *; lia]. }
  assert (Hg : forall gs v r,
    match read_separator 58 i (read_number 16 (Some 4%nat) true 65535) s with
    | Some (g, s') => let '(gs, v4, r) := read_groups fuel (S i) limit s' in (g :: gs, v4, r)
    | None => ([], false, s)
    end = (gs, v, r) ->
    (exists k, s = k ++ r /\ forallb is_v6_char k = true) /\
    (((0 < i)%nat /\ gs <> []) \/ (2 < length gs)%nat -> colon ∈ s)).
  { clear gs v r. intros gs v r.
    destruct (read_separator 58 i _ s) as [[g s1]|] eqn:Hs.
    2: { intros [= <- _ <-]. split; [by exists []|]. intros [[_ ?]|?]; [done|simpl in *; lia]. }
    destruct (read_groups fuel (S i) limit s1) as [[gs1 v1] r1] eqn:Hr. intros [= <- _ <-].
    destruct (reads_hextet _ _ _ _ Hs) as (k1 & Hk & Hk1).
    destruct (IH _ _ _ _ _ Hr) as [(k2 & Hk' & Hk2) Hc]. split.
    - rewrite Hk' in Hk. by eapply (reads_cat _ k1 k2 _ _ read_octet read_octet).
    - intros [[Hi _]|Hl]; [by eapply separator_in|].
      rewrite Hk. apply elem_of_app. right. apply Hc. left. split; [lia|].
      intros ->. simpl in Hl. lia. }
  destruct (i <? limit - 1)%nat; [|apply Hg].
  destruct (read_separator 58 i read_ipv4_addr s) as [[[[[a b] c] d] s1]|] eqn:Hs; [|apply Hg].
  intros [= <- _ <-]. split; [by eapply reads_sep_ipv4|].
  intros [[Hi _]|Hl]; [by eapply separator_in|simpl in Hl; lia].
Qed.

Lemma reads_ipv6 s ip s' :
  read_ipv6_addr s = Some (ip, s') ->
  (exists k, s = k ++ s' /\ forallb is_v6_char k = true) /\ colon ∈ s /\ is_ipv6 ip = true.
Proof.
  unfold read_ipv6_addr. destruct (read_groups 8 0 8 s) as [[head v4] s1] eqn:H1.
  destruct (read_groups_chars _ _ _ _ _ _ _ H1) as [(k1 & Hk & Hk1) Hc1].
  assert (Hv6 : forall l ip, v6_of_list l = Some ip -> is_ipv6 ip = true).
  { intros l ip'. unfold v6_of_list. repeat (destruct l as [|? l]; try done). by intros [= <-]. }
  destruct (length head =? 8)%nat eqn:Hl.
  { destruct (v6_of_list head) eqn:Hh; [|done]. intros [= <- <-]. split; [by eauto|].
    split; [apply Hc1; right; lia|by eapply Hv6]. }
  destruct v4; [done|].
  destruct (read_char 58 s1) as [[u1 s2]|] eqn:H2; [|done].
  destruct (read_char 58 s2) as [[u2 s3]|] eqn:H3; [|done].
  destruct (read_groups _ 0 _ s3) as [[tail tv] s4] eqn:H4.
  destruct (v6_of_list _) eqn:Hh; [|done]. intros [= <- <-].
  destruct (read_groups_chars _ _ _ _ _ _ _ H4) as [(k4 & Hk4' & Hk4) _].
  destruct (reads_char is_v6_char 58 eq_refl _ _ _ H2) as (k2 & Hk2' & Hk2).
  destruct (reads_char is_v6_char 58 eq_refl _ _ _ H3) as (k3 & Hk3' & Hk3).
  split; [|split; [|by eapply Hv6]].
  - exists (k1 ++ k2 ++ k3 ++ k4). rewrite !forallb_app, Hk1, Hk2, Hk3, Hk4.
    by rewrite Hk, Hk2', Hk3', Hk4', <- !app_assoc.
  - rewrite Hk. apply elem_of_app. right. destruct s1 as [|c s1]; [done|].
    simpl in H2. destruct (c =? 58) eqn:Hc; [|done]. apply N.eqb_eq in Hc as ->. by left.
Qed.

(** Both parsers are tried by [str::parse::<IpAddr>]. *)
Lemma parse_ip_either s : is_Some (parse_ipv4 s) \/ is_Some (parse_ipv6 s) -> is_Some (parse_ip s).
Proof.
  unfold parse_ip, parse_ipv4, parse_ipv6, parse_all, read_ip_addr. intros [Hs|Hs].
  - destruct (15 <? len s); [by destruct Hs|]. destruct (read_ipv4_addr s) as [[q [|? ?]]|]; [by eexists| |]; by destruct Hs.
  - destruct (read_ipv4_addr s) as [[q r]|] eqn:H4; [|exact Hs]. exfalso. destruct Hs as [ip Hs].
    assert (Hn : read_ipv6_addr s = None); [|by rewrite Hn in Hs].
    unfold read_ipv6_addr. cbn [read_groups Nat.ltb Nat.leb Nat.sub]. unfold read_separator at 1. cbn [Nat.ltb Nat.leb].
    rewrite H4. by destruct q as [[[a b] c] d].
Qed.
Lemma parse_ip_front c s : is_Some (parse_ip (c :: s)) ->
  c <> hash /\ c <> bang /\ c <> slash /\ c <> bar /\ c <> 64 /\ c <> dot.
Proof.
  intros [ip Hs]. repeat split; intros ->; by vm_compute in Hs.
Qed.

(** What the text of an address tells about it: IPv6 addresses are the ones
    with a colon, and neither has a slash. *)
Lemma parse_ip_chars s ip :
  parse_ip s = Some ip -> contains_char s colon = is_ipv6 ip /\ slash ∉ s.
Proof.
  unfold parse_ip, parse_all, read_ip_addr.
  assert (Hslash : forall k, forallb is_v6_char k = true -> slash ∉ k).
  { intros k Hk Hin. rewrite forallb_forall in Hk. apply list_elem_of_In, Hk in Hin. done. }
  destruct (read_ipv4_addr s) as [[q r]|] eqn:H4.
  - destruct (reads_ipv4 _ _ _ H4) as (k & Hk & Hc). destruct r; [|done].
    rewrite app_nil_r in Hk. subst k. intros [= <-]. destruct q as [[[a b] c] d]. split.
    + apply contains_char_false. intros Hin. rewrite forallb_forall in Hc.
      apply list_elem_of_In, Hc in Hin. done.
    + apply Hslash. rewrite forallb_forall in Hc |- *. eauto using v4_char_v6.
  - destruct (read_ipv6_addr s) as [[q r]|] eqn:H6; [|done].
    destruct (reads_ipv6 _ _ _ H6) as ((k & Hk & Hc) & Hcol & Hv). destruct r; [|done].
    rewrite app_nil_r in Hk. subst k. intros [= <-]. rewrite Hv. split; [|by apply Hslash].
    by apply contains_char_true.
Qed.

(** ** Checks on concrete texts *)

Example parse_v4_ok : parse_ip "192.168.1.10" = Some (V4 192 168 1 10).
Proof. vm_compute. reflexivity. Qed.
Example parse_v4_zero_prefix : parse_ip "192.168.01.1" = None.
Proof. vm_compute. reflexivity. Qed.
Example parse_v4_big : parse_ip "192.168.1.256" = None.
Proof. vm_compute. reflexivity. Qed.
Example parse_v6_ok : parse_ip "2001:db8::1" = Some (V6 8193 3512 0 0 0 0 0 1).
Proof. vm_compute. reflexivity. Qed.
Example parse_v6_mapped : parse_ip "::ffff:1.2.3.4" = Some (V6 0 0 0 0 0 65535 258 772).
Proof. vm_compute. reflexivity. Qed.
Example parse_v6_bad : parse_ip "2001:db8::gggg" = None.
Proof. vm_compute. reflexivity. Qed.
Example parse_v6_two_gaps : parse_ip "1::2::3" = None.
Proof. vm_compute. reflexivity. Qed.
Example parse_v6_full : parse_ip "1:2:3:4:5:6:7:8" = Some (V6 1 2 3 4 5 6 7 8).
Proof. vm_compute. reflexivity. Qed.
Example parse_sock : parse_socket_addr "[::1]:853" = Some {| sa_ip := V6 0 0 0 0 0 0 0 1; sa_port := 853 |}.
Proof. vm_compute. reflexivity. Qed.
Example show_v6_gap : show_ip (V6 8193 3512 0 0 0 0 0 1) = lit "2001:db8::1".
Proof. vm_compute. reflexivity. Qed.
Example show_v6_mapped : show_ip (V6 0 0 0 0 0 65535 258 772) = lit "::ffff:1.2.3.4".
Proof. vm_compute. reflexivity. Qed.

(** ** Printing and parsing an IPv4 address *)

Lemma read_digits_app radix ds r acc n :
  (forall c, c ∈ ds -> to_digit radix c <> None) ->
  match r with c :: _ => to_digit radix c = None | [] => True end ->
  read_digits radix acc n (ds ++ r) = (fst (read_digits radix acc n ds), r).
Proof.
  revert acc n. induction ds as [|d ds IH]; intros acc n Hds Hr.
  - destruct r as [|c r]; [done|]. simpl. by rewrite Hr.
  - simpl. destruct (to_digit radix d) as [v|] eqn:Hd.
    + apply IH; [|done]. intros c Hc. apply Hds. by right.
    + destruct (Hds d); [left|done].
Qed.

Definition octets : list N := map N.of_nat (seq 0 256).
Lemma elem_of_octets n : n < 256 -> n ∈ octets.
Proof.
  intros Hn. apply list_elem_of_In, in_map_iff. exists (N.to_nat n). split; [lia|]. apply in_seq. lia.
Qed.

Lemma octets_read : forallb (fun n => bool_decide (read_octet (show_N n) = Some (n, []))) octets = true.
Proof. vm_compute. reflexivity. Qed.

Lemma to_digit_show n c : c ∈ show_N n -> to_digit 10 c <> None.
Proof.
  intros Hc. apply show_N_digits in Hc as Hd. unfold to_digit. rewrite Hd.
  unfold is_ascii_digit in Hd. split_bools. by assert ((c - 48 <? 10) = true) as -> by lia.
Qed.

Lemma read_octet_show n r :
  n < 256 -> match r with c :: _ => to_digit 10 c = None | [] => True end ->
  read_octet (show_N n ++ r) = Some (n, r).
Proof.
  intros Hn Hr. pose proof octets_read as Hall. rewrite forallb_forall in Hall.
  specialize (Hall n (proj1 (list_elem_of_In _ _) (elem_of_octets n Hn))).
  apply bool_decide_eq_true in Hall. unfold read_octet, read_number in *.
  rewrite read_digits_app; [|apply to_digit_show|done].
  destruct (read_digits 10 0 0 (show_N n)) as [[v m] rest]. cbn [fst].
  destruct (show_N_nonempty n) as (d & s & Hs). rewrite Hs in *. cbn [app starts_with_char] in *.
  repeat match goal with H : (if ?b then None else _) = Some _ |- _ => destruct b; [done|] end.
  by injection Hall as -> _.
Qed.

Lemma read_octet_end n : n < 256 -> read_octet (show_N n) = Some (n, []).
Proof. intros Hn. rewrite <- (app_nil_r (show_N n)) at 1. by apply read_octet_show. Qed.

Lemma parse_show_v4 a b c d :
  a < 256 -> b < 256 -> c < 256 -> d < 256 -> parse_ip (show_v4 a b c d) = Some (V4 a b c d).
Proof.
  intros Ha Hb Hc Hd. unfold parse_ip, parse_all, read_ip_addr, read_ipv4_addr, read_separator, show_v4.
  cbn [Nat.ltb Nat.leb]. change (lit ".") with [dot]. cbn [app].
  rewrite read_octet_show by done. unfold read_char. cbn [N.eqb Pos.eqb].
  rewrite read_octet_show by done. cbn [N.eqb Pos.eqb].
  rewrite read_octet_show by done. cbn [N.eqb Pos.eqb].
  by rewrite read_octet_end.
Qed.
