(* ===== verification/Regex.v ===== *)
(** * The [regex] crate as the rule set uses it

    The engine is a parameter, the class [RegexEngine].  [RegexDoc] states the
    part of the crate's documented syntax the patterns of src/dns/rules.rs are
    written in; [RefRegex] is an engine for that part, which shows that the
    statement can hold and lets the witnesses compute. *)
From S2P Require Import Prelude RustStr.
Local Open Scope N_scope.

(** [regex::RegexSet] *)
Class RegexEngine := {
  RegexSet : Type;
  RegexSet_new : list str -> option RegexSet;
  RegexSet_is_empty : RegexSet -> bool;
  RegexSet_is_match : RegexSet -> str -> bool;
}.

(** ** The fragment *)

Inductive ratom :=
| RLit (c : char)     (* a character that stands for itself *)
| REsc (c : char)     (* an escaped character *)
| RNonDots.           (* [^.]+ *)

Definition ratom_text (a : ratom) : str :=
  match a with RLit c => [c] | REsc c => [backslash; c] | RNonDots => "[^.]+" end.
(** Case-insensitive, anchored at both ends. *)
Definition regex_text (p : list ratom) : str :=
  lit "(?i)^" ++ concat (map ratom_text p) ++ lit "$".

Definition is_word_char (c : char) : bool :=
  is_ascii_digit c || is_ascii_alpha c || (c =? hyphen) || (c =? underscore).
(** The crate lets any ASCII character be escaped but letters, digits and the
    word-boundary signs. *)
Definition is_escapable (c : char) : bool :=
  is_ascii c && negb (is_ascii_digit c || is_ascii_alpha c) && negb (c =? 60) && negb (c =? 62).
Definition ratom_wf (a : ratom) : bool :=
  match a with RLit c => is_word_char c | REsc c => is_escapable c | RNonDots => true end.

Definition same_ci (c d : char) : bool := to_ascii_lower c =? to_ascii_lower d.

(** One character that is no dot, then maybe more, then the rest. *)
Fixpoint nondots_then (k : str -> bool) (s : str) : bool :=
  match s with
  | [] => false
  | d :: s' => negb (d =? dot) && (k s' || nondots_then k s')
  end.
Fixpoint rmatch (p : list ratom) (s : str) : bool :=
  match p with
  | [] => is_empty s
  | RNonDots :: p' => nondots_then (rmatch p') s
  | RLit c :: p' | REsc c :: p' =>
      match s with d :: s' => same_ci c d && rmatch p' s' | [] => false end
  end.

(** What the documentation says of such patterns on ASCII text. *)
Class RegexDoc `{RegexEngine} := {
  regex_fragment : forall ps,
    Forall (fun p => forallb ratom_wf p = true) ps ->
    exists set,
      RegexSet_new (map regex_text ps) = Some set /\
      (RegexSet_is_empty set = true <-> ps = []) /\
      forall s, str_is_ascii s = true ->
        RegexSet_is_match set s = existsb (fun p => rmatch p s) ps;
}.

(** ** A reference engine for the fragment *)

Module RefRegex.
(** Every round consumes a character, so the length is enough fuel. *)
Fixpoint parse_atoms (fuel : nat) (s : str) : option (list ratom) :=
  match fuel with
  | O => None
  | S fuel' =>
      if s =s? "$" then Some []
      else match strip_prefix s "[^.]+" with
      | Some r => cons RNonDots <$> parse_atoms fuel' r
      | None =>
          match s with
          | c :: d :: r =>
              if c =? backslash then
                if is_escapable d then cons (REsc d) <$> parse_atoms fuel' r else None
              else if is_word_char c then cons (RLit c) <$> parse_atoms fuel' (d :: r) else None
          | _ => None
          end
      end
  end.
Definition parse (s : str) : option (list ratom) :=
  match strip_prefix s "(?i)^" with
  | Some r => parse_atoms (length r) r
  | None => None
  end.

#[export] Instance engine : RegexEngine := {|
  RegexSet := list (list ratom);
  RegexSet_new ps := mapM parse ps;
  RegexSet_is_empty set := match set with [] => true | _ => false end;
  RegexSet_is_match set s := existsb (fun p => rmatch p s) set;
|}.

Lemma parse_atoms_text p fuel :
  forallb ratom_wf p = true ->
  (length (concat (map ratom_text p) ++ lit "$") <= fuel)%nat ->
  parse_atoms fuel (concat (map ratom_text p) ++ lit "$") = Some p.
Proof.
  revert fuel. induction p as [|a p IH]; intros fuel Hwf Hf.
  - destruct fuel; [simpl in Hf; lia|]. done.
  - destruct fuel as [|fuel]; [rewrite length_app in Hf; simpl in Hf; lia|].
    cbn [forallb] in Hwf. apply andb_true_iff in Hwf as [Ha Hwf].
    cbn [map concat] in *. rewrite <- app_assoc in *.
    assert (Hlen : (length (concat (map ratom_text p) ++ lit "$") <= fuel)%nat).
    { rewrite length_app in Hf. destruct a; simpl in Hf |- *; lia. }
    specialize (IH fuel Hwf Hlen).
    assert (Hne : exists e r, concat (map ratom_text p) ++ lit "$" = e :: r).
    { destruct (concat (map ratom_text p)); simpl; eauto. }
    destruct Hne as (e & r & Her). rewrite Her in IH |- *.
    destruct a as [c|c|]; cbn [ratom_text app parse_atoms].
    + assert ((c :: e :: r =s? "$")%dns = false) as -> by by apply str_eqb_neq.
      cbn [ratom_wf] in Ha.
      rewrite strip_prefix_lit_ne.
      2: { intros ->. done. }
      destruct (c =? backslash) eqn:Hb; [apply N.eqb_eq in Hb as ->; done|].
      by rewrite Ha, IH.
    + assert ((backslash :: c :: e :: r =s? "$")%dns = false) as -> by by apply str_eqb_neq.
      rewrite strip_prefix_lit_ne by done. cbn [ratom_wf] in Ha.
      by rewrite N.eqb_refl, Ha, IH.
    + assert ((lit "[^.]+" ++ e :: r =s? "$")%dns = false) as -> by by apply str_eqb_neq.
      by rewrite strip_prefix_app, IH.
Qed.

Lemma parse_text p : forallb ratom_wf p = true -> parse (regex_text p) = Some p.
Proof.
  intros Hp. unfold parse, regex_text. rewrite strip_prefix_app. by apply parse_atoms_text.
Qed.

#[export] Instance doc : RegexDoc.
Proof.
  constructor. intros ps Hps. exists ps. split; [|split].
  - simpl. apply mapM_Some. induction Hps as [|p ps Hp _ IH]; constructor; [by apply parse_text|done].
  - simpl. by destruct ps.
  - done.
Qed.
End RefRegex.

(** A standard library whose tables stop at ASCII, for the witnesses. *)
Module AsciiUnicode.
#[export] Instance unicode : RustUnicode :=
  {| uni_alphanumeric _ := false; uni_lowercase s := s |}.
End AsciiUnicode.
