(* ===== verification/Rules.v ===== *)
(** * The filtering rules: src/dns/rules.rs

    The rule parser of AdGuard, hosts and plain domain lines, the set of rules
    it fills, and the matching of a domain against it.  The [regex] crate is a
    parameter, the class [RegexEngine]. *)
From S2P Require Import Prelude RustStr IpAddr Regex.
Local Open Scope N_scope.

Inductive MatchResult := Allowed | Blocked | NoMatch.
#[global] Instance MatchResult_eq_dec : EqDecision MatchResult.
Proof. solve_decision. Defined.

Module Rules.
Section rules.
Context `{RustUnicode, RegexEngine}.

Record RuleSet := {
  blocked : gset str;
  allowed : gset str;
  wildcard_blocked_patterns : list str;
  wildcard_allowed_patterns : list str;
  wildcard_blocked_set : option RegexSet;
  wildcard_allowed_set : option RegexSet;
  block_all : bool;
}.

Definition new : RuleSet :=
  {| blocked := ∅; allowed := ∅;
     wildcard_blocked_patterns := []; wildcard_allowed_patterns := [];
     wildcard_blocked_set := None; wildcard_allowed_set := None;
     block_all := false |}.

(** The capacity only reserves memory. *)
Definition with_capacity (n : N) : RuleSet :=
  {| blocked := ∅; allowed := ∅;
     wildcard_blocked_patterns := []; wildcard_allowed_patterns := [];
     wildcard_blocked_set := None; wildcard_allowed_set := None;
     block_all := false |}.

Definition set_blocked (rs : RuleSet) (s : gset str) : RuleSet :=
  {| blocked := s; allowed := allowed rs;
     wildcard_blocked_patterns := wildcard_blocked_patterns rs;
     wildcard_allowed_patterns := wildcard_allowed_patterns rs;
     wildcard_blocked_set := wildcard_blocked_set rs;
     wildcard_allowed_set := wildcard_allowed_set rs; block_all := block_all rs |}.
Definition set_allowed (rs : RuleSet) (s : gset str) : RuleSet :=
  {| blocked := blocked rs; allowed := s;
     wildcard_blocked_patterns := wildcard_blocked_patterns rs;
     wildcard_allowed_patterns := wildcard_allowed_patterns rs;
     wildcard_blocked_set := wildcard_blocked_set rs;
     wildcard_allowed_set := wildcard_allowed_set rs; block_all := block_all rs |}.
Definition set_wildcard_blocked (rs : RuleSet) (ps : list str) (c : option RegexSet) : RuleSet :=
  {| blocked := blocked rs; allowed := allowed rs;
     wildcard_blocked_patterns := ps;
     wildcard_allowed_patterns := wildcard_allowed_patterns rs;
     wildcard_blocked_set := c;
     wildcard_allowed_set := wildcard_allowed_set rs; block_all := block_all rs |}.
Definition set_wildcard_allowed (rs : RuleSet) (ps : list str) (c : option RegexSet) : RuleSet :=
  {| blocked := blocked rs; allowed := allowed rs;
     wildcard_blocked_patterns := wildcard_blocked_patterns rs;
     wildcard_allowed_patterns := ps;
     wildcard_blocked_set := wildcard_blocked_set rs;
     wildcard_allowed_set := c; block_all := block_all rs |}.
Definition set_block_all (rs : RuleSet) : RuleSet :=
  {| blocked := blocked rs; allowed := allowed rs;
     wildcard_blocked_patterns := wildcard_blocked_patterns rs;
     wildcard_allowed_patterns := wildcard_allowed_patterns rs;
     wildcard_blocked_set := wildcard_blocked_set rs;
     wildcard_allowed_set := wildcard_allowed_set rs; block_all := true |}.

(** [patterns.is_empty() ? None : RegexSet::new(patterns).ok()] *)
Definition compile (ps : list str) : option RegexSet :=
  match ps with [] => None | _ => RegexSet_new ps end.

Definition build (rs : RuleSet) : RuleSet :=
  let rs1 := set_wildcard_blocked rs (wildcard_blocked_patterns rs)
               (compile (wildcard_blocked_patterns rs)) in
  set_wildcard_allowed rs1 (wildcard_allowed_patterns rs1)
    (compile (wildcard_allowed_patterns rs1)).

(** ** Parsing *)

Definition normalize_domain (s : str) : str := to_lowercase (trim_end_char (trim s) dot).

Definition is_valid_label (label : str) : bool :=
  negb (is_empty label) && (len label <=? 63)
  && forallb (fun c => is_alphanumeric c || (c =? hyphen)) label
  && negb (starts_with_char label hyphen) && negb (ends_with_char label hyphen).

Definition is_valid_domain (s : str) : bool :=
  if is_empty s || (253 <? len s) then false
  else if negb (contains_char s dot) && negb (s =s? "localhost") then false
  else forallb is_valid_label (split s dot).

(** What precedes the first caret and the first dollar sign. *)
Definition strip_options (rest : str) : str := split_first (split_first rest caret) 36.

Definition parse_adguard_domain (rule : str) : option str :=
  match (match strip_prefix rule "||" with
         | Some s => Some s
         | None => strip_prefix rule "|"
         end) with
  | None => None
  | Some rest =>
      let domain_raw := strip_options rest in
      let domain := normalize_domain
        (trim_end_char (trim_end_char (trim_end_char domain_raw bar) slash) dot) in
      if is_valid_domain domain then Some domain else None
  end.

(** One character of a wildcard pattern as regex text. *)
Definition wildcard_char (c : char) : str :=
  if c =? star then "[^.]+"
  else if c =? dot then [backslash; dot]
  else if is_alphanumeric c || (c =? hyphen) || (c =? underscore) then [c]
  else [backslash; c].

Definition wildcard_to_regex (pattern : str) : str :=
  lit "(?i)^" ++ concat (map wildcard_char pattern) ++ lit "$".

Definition parse_adguard_wildcard_pattern (rule : str) : option str :=
  match strip_prefix rule "||" with
  | None => None
  | Some rest =>
      let domain_str := to_lowercase
        (trim_end_char (trim_end_char (trim_end_char (strip_options rest) bar) slash) dot) in
      if negb (contains_char domain_str star) then None
      else if negb (contains_char domain_str dot) then None
      else Some (wildcard_to_regex domain_str)
  end.

Definition parse_hosts_line (line : str) : option str :=
  match split_whitespace line with
  | [] => None
  | ip :: parts =>
      match parse_ip ip with
      | None => None
      | Some _ =>
          match parts with
          | [] => None
          | domain_part :: _ =>
              if (domain_part =s? "localhost") || ends_with domain_part ".local" then None
              else let domain := normalize_domain domain_part in
                   if is_valid_domain domain then Some domain else None
          end
      end
  end.

Definition insert_blocked (rs : RuleSet) (d : str) : RuleSet :=
  set_blocked rs ({[ d ]} ∪ blocked rs).

(** [add_rule]: the new set, and whether the line was a valid rule. *)
Definition add_rule (rs : RuleSet) (line : str) : RuleSet * bool :=
  let line := trim line in
  if is_empty line || starts_with_char line hash || starts_with_char line bang then (rs, false)
  else if starts_with_char line slash && ends_with_char line slash then (rs, false)
  else if (line =s? "||*^") || (line =s? "||*") then (set_block_all rs, true)
  else match strip_prefix line "@@" with
  | Some rest =>
      match parse_adguard_domain rest with
      | Some domain => (set_allowed rs ({[ domain ]} ∪ allowed rs), true)
      | None =>
          match parse_adguard_wildcard_pattern rest with
          | Some pattern =>
              (set_wildcard_allowed rs (wildcard_allowed_patterns rs ++ [pattern]) None, true)
          | None => (rs, false)
          end
      end
  | None =>
  match parse_adguard_domain line with
  | Some domain => (insert_blocked rs domain, true)
  | None =>
  match parse_adguard_wildcard_pattern line with
  | Some pattern =>
      (set_wildcard_blocked rs (wildcard_blocked_patterns rs ++ [pattern]) None, true)
  | None =>
  match strip_prefix line "." with
  | Some inner =>
      let domain := normalize_domain (trim_end_char (strip_options inner) dot) in
      if is_valid_domain domain then (insert_blocked rs domain, true) else (rs, false)
  | None =>
  match parse_hosts_line line with
  | Some domain => (insert_blocked rs domain, true)
  | None =>
      let plain :=
        let domain := normalize_domain line in
        if is_valid_domain domain then (insert_blocked rs domain, true) else (rs, false) in
      match strip_prefix line "*." with
      | Some rest =>
          let domain := normalize_domain rest in
          if negb (is_empty domain) then (insert_blocked rs domain, true) else plain
      | None => plain
      end
  end end end end end.

(** [filter(|line| self.add_rule(line)).count()], one line. *)
Definition add_step (x : RuleSet * N) (line : str) : RuleSet * N :=
  let '(rs, n) := x in
  let '(rs', b) := add_rule rs line in (rs', if b : bool then n + 1 else n).

Definition add_rules (rs : RuleSet) (ls : list str) : RuleSet * N :=
  fold_left add_step ls (rs, 0).

Definition add_rules_from_str (rs : RuleSet) (content : str) : RuleSet * N :=
  add_rules rs (lines content).

(** ** Matching *)

(** The walk from a domain to its parents, [current = &current[pos + 1..]];
    every round shortens the text, so the length is enough fuel. *)
Fixpoint walk (test : str -> bool) (fuel : nat) (current : str) : bool :=
  match fuel with
  | O => false
  | S fuel' =>
      if test current then true
      else match split_once current dot with
           | Some (_, parent) => walk test fuel' parent
           | None => false
           end
  end.
Definition walk_up (test : str -> bool) (domain : str) : bool :=
  walk test (S (length domain)) domain.

Definition matches_set (domain : str) (set : gset str) : bool :=
  walk_up (fun d => bool_decide (d ∈ set)) domain.

Definition matches_wildcard_set (domain : str) (set : option RegexSet) : bool :=
  match set with
  | Some s => if RegexSet_is_empty s then false else walk_up (RegexSet_is_match s) domain
  | None => false
  end.

Definition match_domain (rs : RuleSet) (domain : str) : MatchResult :=
  let domain := to_lowercase (trim_end_char domain dot) in
  if matches_set domain (allowed rs) then Allowed
  else if matches_wildcard_set domain (wildcard_allowed_set rs) then Allowed
  else if block_all rs then Blocked
  else if matches_set domain (blocked rs) then Blocked
  else if matches_wildcard_set domain (wildcard_blocked_set rs) then Blocked
  else NoMatch.

Definition is_blocked (rs : RuleSet) (domain : str) : bool :=
  bool_decide (match_domain rs domain = Blocked).

Definition blocked_count (rs : RuleSet) : nat :=
  (size (blocked rs) + length (wildcard_blocked_patterns rs))%nat.
Definition allowed_count (rs : RuleSet) : nat :=
  (size (allowed rs) + length (wildcard_allowed_patterns rs))%nat.
Definition wildcard_blocked_count (rs : RuleSet) : nat :=
  length (wildcard_blocked_patterns rs).
Definition wildcard_allowed_count (rs : RuleSet) : nat :=
  length (wildcard_allowed_patterns rs).

(** ** Specification of the matching *)

(** [under q d]: the domain [q] is [d] or a subdomain of [d]. *)
Definition under (q d : str) : Prop := q = d \/ exists p, q = p ++ dot :: d.

(** A rule of the set [s] or a pattern of [c] covers [q]. *)
Definition covers (s : gset str) (c : option RegexSet) (q : str) : Prop :=
  exists d, under q d /\
    (d ∈ s \/ exists r, c = Some r /\ RegexSet_is_empty r = false /\ RegexSet_is_match r d = true).

(** The name a query is matched under. *)
Definition query_name (domain : str) : str := to_lowercase (trim_end_char domain dot).

Lemma under_refl q : under q q.
Proof. by left. Qed.

Lemma under_parent a b d : dot ∉ a -> under (a ++ dot :: b) d <-> d = a ++ dot :: b \/ under b d.
Proof.
  intros Ha. split.
  - intros [<-|[p Hp]]; [by left|]. right.
    pose proof (split_once_app a b dot Ha) as H1.
    destruct (decide (dot ∈ p)) as [Hin|Hin].
    + destruct (split_once p dot) as [[u v]|] eqn:Huv; [|by apply split_once_None in Huv].
      apply split_once_Some in Huv as [-> Hu].
      rewrite Hp, <- app_assoc in H1. simpl in H1. rewrite split_once_app in H1 by done.
      injection H1 as -> <-. right. by exists v.
    + rewrite Hp, split_once_app in H1 by done. injection H1 as -> ->. by left.
  - intros [->|[->|[p ->]]]; [by left|right; by exists a|].
    right. exists (a ++ dot :: p). by rewrite <- app_assoc.
Qed.

Lemma under_no_dot q d : dot ∉ q -> under q d <-> d = q.
Proof.
  intros Hq. split; [|by intros ->; left].
  intros [->|[p ->]]; [done|]. exfalso. apply Hq. apply elem_of_app. right. left.
Qed.

Lemma walk_spec test fuel q :
  (length q < fuel)%nat ->
  walk test fuel q = true <-> exists d, under q d /\ test d = true.
Proof.
  revert q. induction fuel as [|fuel IH]; intros q Hq; [lia|]. simpl.
  destruct (test q) eqn:Ht; [split; [intros _; exists q; split; [apply under_refl|done]|done]|].
  destruct (split_once q dot) as [[a b]|] eqn:Hab.
  - pose proof (split_once_shorter _ _ _ _ Hab). rewrite IH by lia.
    apply split_once_Some in Hab as [-> Ha].
    setoid_rewrite under_parent; [|done]. naive_solver congruence.
  - apply split_once_None in Hab. setoid_rewrite under_no_dot; [|done]. naive_solver congruence.
Qed.

Lemma walk_up_spec test q : walk_up test q = true <-> exists d, under q d /\ test d = true.
Proof. apply walk_spec. lia. Qed.

Lemma matches_covers s c q :
  matches_set q s || matches_wildcard_set q c = true <-> covers s c q.
Proof.
  rewrite orb_true_iff. unfold matches_set, matches_wildcard_set, covers.
  rewrite walk_up_spec. setoid_rewrite bool_decide_eq_true. split.
  - intros [(d & ? & ?)|Hw]; [by exists d; auto|].
    destruct c as [r|]; [|done]. destruct (RegexSet_is_empty r) eqn:He; [done|].
    apply walk_up_spec in Hw as (d & ? & ?). exists d. split; [done|]. right. by exists r.
  - intros (d & Hd & [Hs|(r & -> & He & Hm)]); [left; by exists d|].
    right. rewrite He. apply walk_up_spec. by exists d.
Qed.

Lemma match_domain_alt rs domain :
  match_domain rs domain =
  let q := query_name domain in
  if matches_set q (allowed rs) || matches_wildcard_set q (wildcard_allowed_set rs) then Allowed
  else if block_all rs || (matches_set q (blocked rs)
                           || matches_wildcard_set q (wildcard_blocked_set rs)) then Blocked
  else NoMatch.
Proof.
  unfold match_domain, query_name. cbn zeta.
  by repeat match goal with |- context [if ?b then _ else _] =>
    match b with
    | context [if _ then _ else _] => fail 1
    | _ || _ => fail 1
    | _ => destruct b eqn:?
    end end.
Qed.

(** ** Valid domains *)

(** The characters a rule line gives a meaning to, and white space. *)
Definition special (c : char) : bool :=
  is_whitespace c || existsb (N.eqb c) [bang; hash; dollar; star; slash; 64; colon; caret; bar].

Lemma domain_char_plain c :
  is_ascii c = true -> is_alphanumeric c || (c =? hyphen) = true ->
  special c = false /\ c <> dot.
Proof.
  unfold is_alphanumeric, special, is_whitespace, is_ascii_alpha, is_ascii_digit, is_ascii_upper,
    is_ascii_lower, is_ascii. intros Ha. rewrite Ha. cbn [existsb]. intros Hc.
  split; lia.
Qed.

Lemma valid_domain_chars d c :
  is_valid_domain d = true -> c ∈ d ->
  c = dot \/ is_alphanumeric c || (c =? hyphen) = true.
Proof.
  unfold is_valid_domain. destruct (is_empty d || (253 <? len d)); [done|].
  destruct (negb _ && negb _); [done|]. intros Hv Hc.
  destruct (elem_of_split d dot c Hc) as [->|(w & Hw & Hcw)]; [by left|]. right.
  rewrite forallb_forall in Hv. apply list_elem_of_In in Hw. specialize (Hv w Hw).
  unfold is_valid_label in Hv. split_bools.
  match goal with H : forallb _ w = true |- _ => rewrite forallb_forall in H; apply H end.
  by apply list_elem_of_In.
Qed.

Lemma valid_domain_plain d :
  str_is_ascii d = true -> is_valid_domain d = true -> lacks special d.
Proof.
  intros Ha Hv c Hc. destruct (valid_domain_chars d c Hv Hc) as [->|Hal]; [done|].
  apply domain_char_plain; [by eapply str_is_ascii_elem|done].
Qed.

Lemma special_whitespace d : lacks special d -> lacks is_whitespace d.
Proof. intros Hd c Hc. specialize (Hd c Hc). unfold special in Hd. by apply orb_false_iff in Hd as [? _]. Qed.

Lemma special_not_elem d c : lacks special d -> special c = true -> c ∉ d.
Proof. intros Hd Hc Hin. specialize (Hd c Hin). congruence. Qed.

Lemma valid_domain_labels d w : is_valid_domain d = true -> w ∈ split d dot -> is_valid_label w = true.
Proof.
  unfold is_valid_domain. destruct (is_empty d || (253 <? len d)); [done|].
  destruct (negb _ && negb _); [done|]. rewrite forallb_forall. intros Hv Hw.
  apply Hv. by apply list_elem_of_In.
Qed.

Lemma valid_domain_not_empty d : is_valid_domain d = true -> d <> [].
Proof. by intros Hv ->. Qed.

Lemma valid_domain_no_end_dot (d k : str) : is_valid_domain d = true -> d <> k ++ [dot].
Proof.
  intros Hv ->. eapply (valid_domain_labels _ []) in Hv; [done|].
  rewrite split_snoc. apply elem_of_app. right. by left.
Qed.

Lemma valid_domain_no_front (c : char) (r : str) :
  is_valid_domain (c :: r) = true -> c <> dot /\ c <> hyphen.
Proof.
  intros Hv. pose proof (split_cons_first (c :: r) dot) as Hs. cbn [split_once] in Hs.
  destruct (c =? dot) eqn:Hc.
  - exfalso. eapply (valid_domain_labels _ []) in Hv; [done|]. rewrite Hs. by left.
  - split; [by apply N.eqb_neq|]. intros ->.
    assert (exists w, (hyphen :: w) ∈ split (hyphen :: r) dot) as [w Hw].
    { rewrite Hs. destruct (split_once r dot) as [[a b]|]; eexists; by left. }
    eapply valid_domain_labels in Hw; [|done]. unfold is_valid_label in Hw. simpl in Hw.
    by rewrite !andb_false_r in Hw.
Qed.

Lemma valid_domain_trim_dots d : is_valid_domain d = true -> trim_end_char d dot = d.
Proof.
  intros Hv. destruct d as [|c k _] using rev_ind; [done|].
  apply trim_end_char_app. intros <-. by eapply valid_domain_no_end_dot in Hv.
Qed.

Lemma normalize_valid d :
  str_is_ascii d = true -> is_valid_domain d = true -> normalize_domain d = to_lowercase d.
Proof.
  intros Ha Hv. unfold normalize_domain.
  rewrite trim_lacks by (by apply special_whitespace, valid_domain_plain).
  by rewrite valid_domain_trim_dots.
Qed.

Lemma valid_label_lower w :
  str_is_ascii w = true -> is_valid_label w = true ->
  is_valid_label (map to_ascii_lower w) = true.
Proof.
  intros Ha. unfold is_valid_label. rewrite len_lower by done.
  rewrite starts_with_char_lower, ends_with_char_lower by done.
  intros Hw. split_bools. rewrite !andb_true_iff, !negb_true_iff. repeat split; try done.
  - by destruct w.
  - rewrite forallb_forall in *. intros c' (c & <- & Hc)%in_map_iff.
    rewrite is_alphanumeric_lower, lower_eqb
      by (done || by eapply str_is_ascii_elem; [|apply list_elem_of_In]).
    auto.
Qed.

Lemma valid_domain_lower d :
  str_is_ascii d = true -> is_valid_domain d = true -> is_valid_domain (to_lowercase d) = true.
Proof.
  intros Ha. rewrite to_lowercase_ascii by done. unfold is_valid_domain.
  rewrite len_lower, contains_char_lower, split_lower by done.
  destruct (is_empty d || (253 <? len d)) eqn:He; [done|].
  apply orb_false_iff in He as [He ->].
  assert (is_empty (map to_ascii_lower d) = false) as -> by (by destruct d). simpl.
  destruct (contains_char d dot); simpl.
  - rewrite !forallb_forall. intros Hv w' (w & <- & Hw)%in_map_iff.
    apply valid_label_lower; [|by apply Hv]. eapply split_ascii; [exact Ha|by apply list_elem_of_In].
  - destruct (d =s? "localhost")%dns eqn:Hl; [|done].
    apply str_eqb_eq in Hl as ->.
    intros _. vm_compute. reflexivity.
Qed.

(** ** The rule syntaxes *)

(** A text of the rule made of [d] and what may stand around it. *)
Lemma strip_options_plain d tail :
  lacks special d -> (tail = [] \/ exists r, tail = caret :: r \/ tail = dollar :: r) ->
  strip_options (d ++ tail) = d.
Proof.
  intros Hd Ht. unfold strip_options.
  assert (caret ∉ d) by (by eapply special_not_elem).
  assert (dollar ∉ d) by (by eapply special_not_elem).
  destruct Ht as [->|[r [-> | ->]]].
  - rewrite app_nil_r. rewrite (split_first_id d caret) by done. by apply split_first_id.
  - rewrite (split_first_app d r caret) by done. by apply split_first_id.
  - rewrite (split_first_tail d (dollar :: r) caret) by done.
    assert (exists r', split_first (dollar :: r) caret = dollar :: r') as [r' ->].
    { rewrite split_first_alt. simpl. destruct (split_once r caret) as [[]|]; eauto. }
    by apply split_first_app.
Qed.

Lemma trim_tail_valid d :
  str_is_ascii d = true -> is_valid_domain d = true ->
  trim_end_char (trim_end_char (trim_end_char d bar) slash) dot = d.
Proof.
  intros Ha Hv. pose proof (valid_domain_plain d Ha Hv) as Hp.
  rewrite (trim_end_char_lacks d bar) by (by eapply special_not_elem).
  rewrite (trim_end_char_lacks d slash) by (by eapply special_not_elem).
  by apply valid_domain_trim_dots.
Qed.

Lemma parse_adguard_valid d tail :
  str_is_ascii d = true -> is_valid_domain d = true ->
  (tail = [] \/ exists r, tail = caret :: r \/ tail = dollar :: r) ->
  parse_adguard_domain (lit "||" ++ d ++ tail) = Some (to_lowercase d).
Proof.
  intros Ha Hv Ht. unfold parse_adguard_domain. rewrite strip_prefix_app.
  rewrite strip_options_plain by (done || by apply valid_domain_plain).
  rewrite trim_tail_valid, normalize_valid by done. by rewrite valid_domain_lower.
Qed.

Lemma strip_options_id d : lacks special d -> strip_options d = d.
Proof. intros Hd. rewrite <- (app_nil_r d) at 1. apply strip_options_plain; auto. Qed.

Section syntaxes.
Context (d : str) (Ha : str_is_ascii d = true) (Hv : is_valid_domain d = true).

Lemma plain_d : lacks special d.
Proof. by apply valid_domain_plain. Qed.
Lemma ws_d : lacks is_whitespace d.
Proof. apply special_whitespace, plain_d. Qed.
Lemma nonempty_d : d <> [].
Proof. by apply valid_domain_not_empty. Qed.
Lemma not_in_d c : special c = true -> c ∉ d.
Proof. apply special_not_elem, plain_d. Qed.

Lemma head_d : exists c r, d = c :: r /\ special c = false /\ c <> dot.
Proof.
  destruct (nonempty_cons d nonempty_d) as (c & r & Hd). exists c, r. split; [done|]. split.
  - apply plain_d. rewrite Hd. by left.
  - apply (valid_domain_no_front c r). by rewrite <- Hd.
Qed.

(** A line that starts with a bar and is not [||*] or [||*^]. *)
Lemma add_rule_bar rs line :
  trim (bar :: line) = bar :: line -> (bar :: line) <> lit "||*^" -> (bar :: line) <> lit "||*" ->
  parse_adguard_domain (bar :: line) = Some (to_lowercase d) ->
  add_rule rs (bar :: line) = (insert_blocked rs (to_lowercase d), true).
Proof.
  intros Ht H1 H2 Hp. unfold add_rule. rewrite Ht. cbn [is_empty starts_with_char orb andb].
  rewrite (proj2 (str_eqb_neq _ _) H1), (proj2 (str_eqb_neq _ _) H2).
  rewrite strip_prefix_lit_ne by done. by rewrite Hp.
Qed.

Lemma add_rule_domain rs : add_rule rs (lit "||" ++ d) = (insert_blocked rs (to_lowercase d), true).
Proof.
  apply (add_rule_bar rs (bar :: d)).
  - apply (trim_front bar [bar] d); [done|apply nonempty_d|apply ws_d].
  - intros [= Heq]. apply (not_in_d star); [done|]. rewrite Heq. by left.
  - intros [= Heq]. apply (not_in_d star); [done|]. rewrite Heq. by left.
  - rewrite <- (app_nil_r d) at 1. apply (parse_adguard_valid d []); auto.
Qed.

Lemma add_rule_domain_tail rs tail c :
  is_whitespace c = false ->
  (exists r, tail ++ [c] = caret :: r \/ tail ++ [c] = dollar :: r) ->
  add_rule rs (lit "||" ++ d ++ tail ++ [c]) = (insert_blocked rs (to_lowercase d), true).
Proof.
  intros Hc Hr. apply (add_rule_bar rs (bar :: d ++ tail ++ [c])).
  - change (bar :: bar :: d ++ tail ++ [c]) with (bar :: (bar :: d) ++ tail ++ [c]).
    rewrite app_assoc. by apply trim_ends.
  - intros [= Heq]. apply (not_in_d star); [done|].
    destruct head_d as (e & r & Hd & _ & _). rewrite Hd in Heq |- *. injection Heq as -> _. by left.
  - intros [= Heq]. apply (not_in_d star); [done|].
    destruct head_d as (e & r & Hd & _ & _). rewrite Hd in Heq |- *. injection Heq as -> _. by left.
  - apply (parse_adguard_valid d (tail ++ [c])); auto.
Qed.

Lemma add_rule_caret rs :
  add_rule rs (lit "||" ++ d ++ lit "^") = (insert_blocked rs (to_lowercase d), true).
Proof. apply (add_rule_domain_tail rs [] caret); [done|]. by eexists; left. Qed.

(** The lines that no earlier syntax claims. *)
Lemma add_rule_plain_line rs c r :
  trim (c :: r) = c :: r ->
  c <> hash -> c <> bang -> c <> slash -> c <> bar -> c <> 64 ->
  add_rule rs (c :: r) =
    match strip_prefix (c :: r) "." with
    | Some inner =>
        let domain := normalize_domain (trim_end_char (strip_options inner) dot) in
        if is_valid_domain domain then (insert_blocked rs domain, true) else (rs, false)
    | None =>
        match parse_hosts_line (c :: r) with
        | Some domain => (insert_blocked rs domain, true)
        | None =>
            let plain :=
              let domain := normalize_domain (c :: r) in
              if is_valid_domain domain then (insert_blocked rs domain, true) else (rs, false) in
            match strip_prefix (c :: r) "*." with
            | Some rest =>
                let domain := normalize_domain rest in
                if negb (is_empty domain) then (insert_blocked rs domain, true) else plain
            | None => plain
            end
        end
    end.
Proof.
  intros Ht ????? . unfold add_rule. rewrite Ht. cbn [is_empty starts_with_char orb].
  rewrite !(proj2 (N.eqb_neq c _)) by done. cbn [andb orb].
  assert (forall a s, c <> Ascii.N_of_ascii a -> (c :: r =s? lit (String a s))%dns = false) as Hne.
  { intros a s Hac. apply str_eqb_neq. intros Heq. by injection Heq. }
  rewrite !Hne by done. cbn [orb]. rewrite strip_prefix_lit_ne by done.
  unfold parse_adguard_domain, parse_adguard_wildcard_pattern.
  by rewrite !strip_prefix_lit_ne by done.
Qed.

Lemma add_rule_dot rs : add_rule rs (lit "." ++ d ++ lit "^") = (insert_blocked rs (to_lowercase d), true).
Proof.
  change (lit "." ++ d ++ lit "^") with (dot :: d ++ [caret]).
  rewrite add_rule_plain_line by (done || by apply trim_ends).
  change (dot :: d ++ [caret]) with (lit "." ++ (d ++ [caret])). rewrite strip_prefix_app.
  rewrite (strip_options_plain d [caret]) by (eauto using plain_d).
  rewrite valid_domain_trim_dots by done. cbn zeta.
  rewrite normalize_valid by done. by rewrite valid_domain_lower.
Qed.

Lemma parse_hosts_none : parse_hosts_line d = None.
Proof.
  unfold parse_hosts_line. rewrite split_whitespace_word by auto using nonempty_d, ws_d.
  by destruct (parse_ip d).
Qed.

Lemma add_rule_plain rs : add_rule rs d = (insert_blocked rs (to_lowercase d), true).
Proof.
  destruct head_d as (c & r & Hd & Hc & Hdot). rewrite Hd at 1.
  rewrite add_rule_plain_line; try (intros ->; done).
  - rewrite !(strip_prefix_lit_ne c r) by (done || by intros ->).
    rewrite <- Hd, parse_hosts_none. cbn zeta. rewrite normalize_valid by done.
    by rewrite valid_domain_lower.
  - rewrite <- Hd. by apply trim_lacks, ws_d.
Qed.

Lemma add_rule_star rs : add_rule rs (lit "*." ++ d) = (insert_blocked rs (to_lowercase d), true).
Proof.
  change (lit "*." ++ d) with (star :: [dot] ++ d).
  rewrite add_rule_plain_line by (done || apply trim_front; auto using nonempty_d, ws_d).
  rewrite (strip_prefix_lit_ne star) by done.
  change (star :: [dot] ++ d) with (lit "*." ++ d). rewrite strip_prefix_app.
  assert (parse_hosts_line (lit "*." ++ d) = None) as ->.
  { unfold parse_hosts_line. rewrite split_whitespace_word; [by destruct (parse_ip _)|done|].
    apply lacks_app. split; [by apply lacks_forallb|apply ws_d]. }
  cbn zeta. rewrite normalize_valid by done.
  destruct (to_lowercase d) eqn:Hl; [|done].
  pose proof (valid_domain_lower d Ha Hv) as Hv'. by rewrite Hl in Hv'.
Qed.

Lemma add_rule_hosts rs :
  d <> lit "localhost" -> ends_with d ".local" = false ->
  add_rule rs (lit "0.0.0.0 " ++ d) = (insert_blocked rs (to_lowercase d), true).
Proof.
  intros Hl1 Hl2. change (lit "0.0.0.0 " ++ d) with (48 :: lit ".0.0.0 " ++ d).
  rewrite add_rule_plain_line by (done || apply trim_front; auto using nonempty_d, ws_d).
  rewrite (strip_prefix_lit_ne 48) by done.
  change (48 :: lit ".0.0.0 " ++ d) with (lit "0.0.0.0" ++ 32 :: d).
  unfold parse_hosts_line.
  rewrite split_whitespace_two by (done || auto using nonempty_d, ws_d || by apply lacks_forallb).
  assert (parse_ip "0.0.0.0" = Some (V4 0 0 0 0)) as -> by (vm_compute; reflexivity).
  rewrite (proj2 (str_eqb_neq d _) Hl1), Hl2. cbn [orb].
  rewrite normalize_valid by done. by rewrite valid_domain_lower.
Qed.
End syntaxes.

Lemma add_rule_allow rs d :
  str_is_ascii d = true -> is_valid_domain d = true ->
  add_rule rs (lit "@@||" ++ d ++ lit "^")
  = (set_allowed rs ({[ to_lowercase d ]} ∪ allowed rs), true).
Proof.
  intros Ha Hv.
  change (lit "@@||" ++ d ++ lit "^") with (lit "@@" ++ (lit "||" ++ d ++ lit "^")).
  unfold add_rule.
  assert (trim (lit "@@" ++ (lit "||" ++ d ++ lit "^")) = lit "@@" ++ (lit "||" ++ d ++ lit "^")) as ->.
  { change (lit "@@" ++ (lit "||" ++ d ++ lit "^")) with (64 :: (64 :: bar :: bar :: d) ++ [caret]).
    by apply trim_ends. }
  pose proof (parse_adguard_valid d [caret] Ha Hv ltac:(right; by exists []; left)) as Hp.
  change (lit "||" ++ d ++ [caret]) with (lit "||" ++ d ++ lit "^") in Hp.
  revert Hp. generalize (lit "||" ++ d ++ lit "^") as t. intros t Hp.
  assert (lit "@@" ++ t <> lit "||*^") as H1 by done.
  assert (lit "@@" ++ t <> lit "||*") as H2 by done.
  rewrite (proj2 (str_eqb_neq _ _) H1), (proj2 (str_eqb_neq _ _) H2).
  rewrite strip_prefix_app, Hp. reflexivity.
Qed.

(** ** What a line adds *)

Inductive rule :=
| RBlock (domain : str)
| RAllow (domain : str)
| RWildBlock (pattern : str)
| RWildAllow (pattern : str)
| RBlockAll.

Definition apply_rule (rs : RuleSet) (r : rule) : RuleSet :=
  match r with
  | RBlock d => insert_blocked rs d
  | RAllow d => set_allowed rs ({[ d ]} ∪ allowed rs)
  | RWildBlock p => set_wildcard_blocked rs (wildcard_blocked_patterns rs ++ [p]) None
  | RWildAllow p => set_wildcard_allowed rs (wildcard_allowed_patterns rs ++ [p]) None
  | RBlockAll => set_block_all rs
  end.

Definition line_adds (line : str) (o : option rule) : Prop :=
  forall rs, add_rule rs line
             = match o with Some r => (apply_rule rs r, true) | None => (rs, false) end.

(** A stored domain is matched under its own name. *)
Definition rule_ok (o : option rule) : Prop :=
  match o with Some (RBlock d) | Some (RAllow d) => query_name d = d | _ => True end.

Lemma query_name_normalize x :
  str_is_ascii x = true -> query_name (normalize_domain x) = normalize_domain x.
Proof.
  intros Hx. unfold query_name, normalize_domain.
  set (y := trim_end_char (trim x) dot).
  assert (str_is_ascii y = true) by (subst y; auto with dns).
  rewrite (to_lowercase_ascii y) by done. rewrite <- lower_trim_end_char by done.
  assert (trim_end_char y dot = y) as -> by apply trim_end_by_idem.
  by rewrite <- (to_lowercase_ascii y), to_lowercase_idem.
Qed.

Lemma parse_adguard_domain_ok rule d :
  parse_adguard_domain rule = Some d -> str_is_ascii rule = true -> query_name d = d.
Proof.
  unfold parse_adguard_domain. intros Hp Ha.
  destruct (match strip_prefix rule "||" with Some _ => _ | None => _ end) as [rest|] eqn:Hr; [|done].
  assert (str_is_ascii rest = true).
  { destruct (strip_prefix rule "||") eqn:Hs; simplify_eq; eauto with dns. }
  cbn zeta in Hp. destruct (is_valid_domain _); simplify_eq.
  apply query_name_normalize. unfold strip_options. auto 10 with dns.
Qed.

Lemma parse_hosts_line_ok line d :
  parse_hosts_line line = Some d -> str_is_ascii line = true -> query_name d = d.
Proof.
  unfold parse_hosts_line. intros Hp Ha.
  destruct (split_whitespace line) as [|ip [|w ws]] eqn:Hw; [done|by destruct (parse_ip ip)|].
  destruct (parse_ip ip); [|done]. destruct (_ || _); [done|].
  cbn zeta in Hp. destruct (is_valid_domain _); simplify_eq.
  apply query_name_normalize. eapply split_whitespace_ascii; [exact Ha|]. rewrite Hw.
  right. left.
Qed.

Lemma add_rule_cases line :
  exists o, line_adds line o /\ (str_is_ascii line = true -> rule_ok o).
Proof.
  unfold line_adds, add_rule. cbn zeta. set (l := trim line).
  assert (str_is_ascii line = true -> str_is_ascii l = true) as Hl by apply trim_ascii.
  clearbody l.
  destruct (is_empty l || starts_with_char l hash || starts_with_char l bang); [by exists None|].
  destruct (starts_with_char l slash && ends_with_char l slash); [by exists None|].
  destruct ((l =s? "||*^")%dns || (l =s? "||*")%dns); [by exists (Some RBlockAll)|].
  destruct (strip_prefix l "@@") as [rest|] eqn:Hat.
  { destruct (parse_adguard_domain rest) as [d|] eqn:Hp.
    - exists (Some (RAllow d)). split; [done|]. intros Ha.
      eapply parse_adguard_domain_ok; [done|]. eauto with dns.
    - destruct (parse_adguard_wildcard_pattern rest) as [p|]; [by exists (Some (RWildAllow p))|by exists None]. }
  destruct (parse_adguard_domain l) as [d|] eqn:Hp.
  { exists (Some (RBlock d)). split; [done|]. intros Ha. eapply parse_adguard_domain_ok; [done|auto]. }
  destruct (parse_adguard_wildcard_pattern l) as [p|]; [by exists (Some (RWildBlock p))|].
  destruct (strip_prefix l ".") as [inner|] eqn:Hdot.
  { destruct (is_valid_domain _); [|by exists None]. eexists (Some (RBlock _)). split; [done|].
    intros Ha. apply query_name_normalize. unfold strip_options. eauto 10 with dns. }
  destruct (parse_hosts_line l) as [d|] eqn:Hh.
  { exists (Some (RBlock d)). split; [done|]. intros Ha. eapply parse_hosts_line_ok; [done|auto]. }
  assert (exists o, (forall rs, (if is_valid_domain (normalize_domain l)
      then (insert_blocked rs (normalize_domain l), true) else (rs, false))
      = match o with Some r => (apply_rule rs r, true) | None => (rs, false) end)
      /\ (str_is_ascii line = true -> rule_ok o)) as (o & Ho & Hok).
  { destruct (is_valid_domain (normalize_domain l)); [|by exists None].
    exists (Some (RBlock (normalize_domain l))). split; [done|].
    intros Ha. by apply query_name_normalize, Hl. }
  destruct (strip_prefix l "*.") as [rest|] eqn:Hstar; [|by exists o].
  destruct (is_empty (normalize_domain rest)); [by exists o|].
  exists (Some (RBlock (normalize_domain rest))). split; [done|].
  intros Ha. apply query_name_normalize. eauto with dns.
Qed.

(** ** Adding many lines *)

Lemma add_rules_ind (P : RuleSet -> Prop) rs ls :
  P rs -> (forall rs line, line ∈ ls -> P rs -> P (fst (add_rule rs line))) ->
  P (fst (add_rules rs ls)).
Proof.
  intros Hrs Hstep. unfold add_rules. generalize 0 as n. revert rs Hrs.
  induction ls as [|line ls IH]; intros rs Hrs n; [done|]. simpl.
  destruct (add_rule rs line) as [rs' b] eqn:Hl. apply IH.
  - intros rs1 l1 Hin. apply Hstep. by right.
  - specialize (Hstep rs line ltac:(left) Hrs). by rewrite Hl in Hstep.
Qed.

(** Every stored domain is matched under its own name. *)
Definition entries_ok (rs : RuleSet) : Prop :=
  forall d, d ∈ blocked rs ∪ allowed rs -> query_name d = d.

Lemma entries_ok_new : entries_ok new.
Proof. intros d Hd. set_solver. Qed.

Lemma entries_ok_add_rule rs line :
  str_is_ascii line = true -> entries_ok rs -> entries_ok (fst (add_rule rs line)).
Proof.
  intros Ha Hrs. destruct (add_rule_cases line) as (o & Ho & Hok). rewrite Ho.
  specialize (Hok Ha). destruct o as [[]|]; simpl in *; try done.
  all: intros e He; simpl in He; unfold entries_ok in Hrs; set_solver.
Qed.

Lemma matches_set_alt q (s : gset str) : matches_set q s = true <-> exists d, under q d /\ d ∈ s.
Proof. unfold matches_set. rewrite walk_up_spec. by setoid_rewrite bool_decide_eq_true. Qed.

Lemma matches_set_insert q d (s : gset str) :
  matches_set q ({[ d ]} ∪ s) = true <-> under q d \/ matches_set q s = true.
Proof. rewrite !matches_set_alt. set_solver. Qed.

Lemma matches_set_insert_not q d (s : gset str) :
  ~ under q d -> matches_set q ({[ d ]} ∪ s) = matches_set q s.
Proof. intros Hn. apply eq_true_iff_eq. rewrite matches_set_insert. tauto. Qed.

Lemma matches_set_self q (s : gset str) : q ∈ s -> matches_set q s = true.
Proof. intros Hq. apply matches_set_alt. exists q. split; [apply under_refl|done]. Qed.

(** Two states of the loading that differ in the order of the patterns only. *)
Definition same_rules (x y : RuleSet * N) : Prop :=
  snd x = snd y /\ blocked (fst x) = blocked (fst y) /\ allowed (fst x) = allowed (fst y) /\
  block_all (fst x) = block_all (fst y) /\
  Permutation (wildcard_blocked_patterns (fst x)) (wildcard_blocked_patterns (fst y)) /\
  Permutation (wildcard_allowed_patterns (fst x)) (wildcard_allowed_patterns (fst y)).

#[global] Instance same_rules_equiv : Equivalence same_rules.
Proof.
  split.
  - intros x. by repeat split.
  - intros x y (? & ? & ? & ? & ? & ?). repeat split; by symmetry.
  - intros x y z (? & ? & ? & ? & ? & ?) (? & ? & ? & ? & ? & ?).
    repeat split; by etransitivity.
Qed.

#[global] Instance add_step_proper : Proper (same_rules ==> eq ==> same_rules) add_step.
Proof.
  intros [rs n] [rs' n'] (Hn & Hb & Ha & Hall & Hp & Hq) line ? <-. simpl in *.
  destruct (add_rule_cases line) as (o & Ho & _). rewrite !Ho.
  destruct o as [[]|]; repeat split; simpl; try done; try congruence; by rewrite ?Hp, ?Hq.
Qed.

Lemma add_step_comm x l1 l2 : same_rules (add_step (add_step x l1) l2) (add_step (add_step x l2) l1).
Proof.
  destruct x as [rs n]. simpl.
  destruct (add_rule_cases l1) as (o1 & Ho1 & _), (add_rule_cases l2) as (o2 & Ho2 & _).
  rewrite Ho1, Ho2.
  destruct o1 as [[]|], o2 as [[]|]; simpl; rewrite ?Ho1, ?Ho2; repeat split; simpl;
    try done; try set_solver; rewrite <- !app_assoc; by rewrite (Permutation_app_comm [_]).
Qed.

Lemma fold_add_step_proper ls x y :
  same_rules x y -> same_rules (fold_left add_step ls x) (fold_left add_step ls y).
Proof. revert x y. induction ls as [|l ls IH]; intros x y Hxy; [done|]. simpl. apply IH. by rewrite Hxy. Qed.

Lemma fold_add_step_perm ls1 ls2 x :
  Permutation ls1 ls2 -> same_rules (fold_left add_step ls1 x) (fold_left add_step ls2 x).
Proof.
  intros Hp. revert x. induction Hp as [|l ls1 ls2 _ IH|l1 l2 ls|ls1 ls2 ls3 _ IH1 _ IH2]; intros x.
  - reflexivity.
  - apply IH.
  - simpl. apply fold_add_step_proper, add_step_comm.
  - etransitivity; [apply IH1|apply IH2].
Qed.

(** ** Wildcard patterns *)

(** What a pattern character stands for in the regex. *)
Definition atom_of (c : char) : ratom :=
  if c =? star then RNonDots
  else if c =? dot then REsc dot
  else if is_alphanumeric c || (c =? hyphen) || (c =? underscore) then RLit c
  else REsc c.

(** The reading of a wildcard pattern: [*] stands for one or more characters
    of a label, every other character for itself, whatever its case. *)
Definition glob (pattern d : str) : bool := rmatch (map atom_of pattern) d.

Definition pattern_char (c : char) : bool := is_word_char c || (c =? dot) || (c =? star).
(** A pattern of words, dots and stars, with a star and a dot inside. *)
Definition wildcard_pattern (p : str) : Prop :=
  forallb pattern_char p = true /\ star ∈ p /\ dot ∈ p /\ trim_end_char p dot = p.

Lemma wildcard_to_regex_text p : wildcard_to_regex p = regex_text (map atom_of p).
Proof.
  unfold wildcard_to_regex, regex_text. rewrite map_map. do 3 f_equal. apply map_ext.
  intros c. unfold wildcard_char, atom_of. by repeat case_match.
Qed.

Lemma pattern_char_ascii c : pattern_char c = true -> is_ascii c = true.
Proof.
  unfold pattern_char, is_word_char, is_ascii_digit, is_ascii_alpha, is_ascii_upper,
    is_ascii_lower, is_ascii. lia.
Qed.

Lemma pattern_char_lower c : pattern_char c = true -> pattern_char (to_ascii_lower c) = true.
Proof.
  unfold pattern_char, is_word_char, to_ascii_lower, is_ascii_digit, is_ascii_alpha,
    is_ascii_upper, is_ascii_lower.
  destruct ((65 <=? c) && (c <=? 90)) eqn:Hc; lia.
Qed.

Lemma pattern_char_special c : pattern_char c = true -> c <> star -> special c = false.
Proof.
  unfold pattern_char, is_word_char, special, is_whitespace, is_ascii_digit, is_ascii_alpha,
    is_ascii_upper, is_ascii_lower. cbn [existsb]. lia.
Qed.

Lemma atom_of_wf c : pattern_char c = true -> ratom_wf (atom_of c) = true.
Proof.
  intros Hc. pose proof (pattern_char_ascii c Hc) as Ha. unfold atom_of.
  destruct (c =? star) eqn:H1; [done|]. destruct (c =? dot) eqn:H2; [done|].
  unfold pattern_char in Hc. rewrite H1, H2, !orb_false_r in Hc.
  unfold is_alphanumeric. rewrite Ha. unfold is_word_char in Hc. rewrite Hc. cbn [ratom_wf].
  exact Hc.
Qed.

Section wildcard.
Context (p : str) (Hp : wildcard_pattern p).

Lemma pattern_chars c : c ∈ p -> pattern_char c = true.
Proof. destruct Hp as [Hf _]. rewrite forallb_forall in Hf. rewrite list_elem_of_In. auto. Qed.

Lemma pattern_ascii : str_is_ascii p = true.
Proof.
  unfold str_is_ascii. apply forallb_forall. intros c Hc.
  by apply pattern_char_ascii, pattern_chars, list_elem_of_In.
Qed.

Lemma pattern_lacks c : special c = true -> c <> star -> c ∉ p.
Proof.
  intros Hc Hs Hin. apply pattern_chars in Hin. apply pattern_char_special in Hin; [|done]. congruence.
Qed.

Lemma pattern_tail t :
  t = [] \/ t = [caret] ->
  trim_end_char (trim_end_char (trim_end_char (strip_options (p ++ t)) bar) slash) dot = p.
Proof.
  intros Ht. assert (strip_options (p ++ t) = p) as ->.
  { unfold strip_options. destruct Ht as [-> | ->].
    - rewrite app_nil_r. rewrite (split_first_id p caret) by by apply pattern_lacks.
      by apply split_first_id, pattern_lacks.
    - rewrite split_first_app by by apply pattern_lacks. by apply split_first_id, pattern_lacks. }
  rewrite (trim_end_char_lacks p bar) by by apply pattern_lacks.
  rewrite (trim_end_char_lacks p slash) by by apply pattern_lacks.
  by destruct Hp as (_ & _ & _ & ?).
Qed.

Lemma pattern_lower : to_lowercase p = map to_ascii_lower p.
Proof. apply to_lowercase_ascii, pattern_ascii. Qed.

Lemma pattern_not_domain : parse_adguard_domain (lit "||" ++ p ++ [caret]) = None.
Proof.
  unfold parse_adguard_domain. rewrite strip_prefix_app, pattern_tail by auto. cbn zeta.
  destruct (is_valid_domain (normalize_domain p)) eqn:Hv; [|done]. exfalso.
  assert (star ∈ normalize_domain p) as Hin.
  { unfold normalize_domain. rewrite trim_lacks.
    - destruct Hp as (_ & Hs & _ & ->). rewrite pattern_lower.
      change star with (to_ascii_lower star) at 1. by apply list_elem_of_fmap_2.
    - intros c Hc. destruct (is_whitespace c) eqn:Hw; [|done].
      exfalso. eapply (pattern_lacks c); [|by intros ->|done]. unfold special. by rewrite Hw. }
  by destruct (valid_domain_chars _ _ Hv Hin) as [|[=]].
Qed.

Lemma parse_wildcard :
  parse_adguard_wildcard_pattern (lit "||" ++ p ++ [caret])
  = Some (regex_text (map atom_of (map to_ascii_lower p))).
Proof.
  unfold parse_adguard_wildcard_pattern. rewrite strip_prefix_app, pattern_tail by auto. cbn zeta.
  rewrite pattern_lower, !contains_char_lower by done. destruct Hp as (_ & Hs & Hd & _).
  rewrite !(proj2 (contains_char_true p _)) by done. cbn [negb].
  by rewrite wildcard_to_regex_text.
Qed.

Lemma add_rule_wildcard rs :
  add_rule rs (lit "||" ++ p ++ lit "^")
  = (apply_rule rs (RWildBlock (regex_text (map atom_of (map to_ascii_lower p)))), true).
Proof.
  pose proof pattern_not_domain as H1. pose proof parse_wildcard as H2.
  assert (Hbar : lit "||" ++ p ++ [caret] = bar :: (bar :: p) ++ [caret]) by done.
  change (lit "||" ++ p ++ lit "^") with (lit "||" ++ p ++ [caret]).
  unfold add_rule. rewrite Hbar in *. rewrite trim_ends by done.
  assert (bar :: (bar :: p) ++ [caret] <> lit "||*^" /\ bar :: (bar :: p) ++ [caret] <> lit "||*")
    as [Hn1 Hn2].
  { destruct Hp as (_ & _ & Hd & _). split; intros [= Heq].
    - change (lit "*^") with ([star] ++ [caret]) in Heq. apply app_inj_tail in Heq as [-> _].
      apply list_elem_of_singleton in Hd. done.
    - change (lit "*") with ([] ++ [star]) in Heq. by apply app_inj_tail in Heq as [_ [=]]. }
  cbn [is_empty starts_with_char orb andb].
  rewrite (proj2 (str_eqb_neq _ _) Hn1), (proj2 (str_eqb_neq _ _) Hn2).
  rewrite strip_prefix_lit_ne by done. by rewrite H1, H2.
Qed.
End wildcard.

Lemma wildcard_atoms_wf ps :
  Forall wildcard_pattern ps ->
  Forall (fun p => forallb ratom_wf p = true) (map (fun p => map atom_of (map to_ascii_lower p)) ps).
Proof.
  induction 1 as [|p ps Hp _ IH]; constructor; [|done]. rewrite map_map. apply forallb_forall.
  intros a (c & <- & Hc)%in_map_iff. apply atom_of_wf, pattern_char_lower.
  destruct Hp as [Hf _]. rewrite forallb_forall in Hf. auto.
Qed.

Lemma load_wildcards_from rs n ps :
  Forall wildcard_pattern ps ->
  fst (fold_left add_step (map (fun p => lit "||" ++ p ++ lit "^") ps) (rs, n))
  = match ps with
    | [] => rs
    | _ => set_wildcard_blocked rs (wildcard_blocked_patterns rs
             ++ map regex_text (map (fun p => map atom_of (map to_ascii_lower p)) ps)) None
    end.
Proof.
  intros Hps. revert rs n. induction Hps as [|p ps Hp _ IH]; intros rs n; [done|].
  cbn [map fold_left add_step]. rewrite add_rule_wildcard, IH by done.
  destruct ps; [done|]. cbn [apply_rule set_wildcard_blocked wildcard_blocked_patterns].
  by rewrite <- app_assoc.
Qed.

Lemma load_wildcards ps :
  Forall wildcard_pattern ps ->
  fst (add_rules new (map (fun p => lit "||" ++ p ++ lit "^") ps))
  = set_wildcard_blocked new
      (map regex_text (map (fun p => map atom_of (map to_ascii_lower p)) ps)) None.
Proof. intros Hps. unfold add_rules. rewrite load_wildcards_from by done. by destruct ps. Qed.

Lemma under_ascii q d : under q d -> str_is_ascii q = true -> str_is_ascii d = true.
Proof.
  intros [->|[p ->]]; [done|]. unfold str_is_ascii. rewrite forallb_app. simpl.
  intros Hq. by split_bools.
Qed.

(** ** Properties *)

(** C16: a domain is [Allowed] exactly when an allow rule or pattern covers it
    or one of its parents; otherwise [Blocked] exactly when everything is
    blocked or a block rule or pattern covers it or a parent; otherwise there
    is no match.  In particular the walk to the parents always ends. *)
Theorem match_domain_correct rs domain :
  let q := query_name domain in
  let white := covers (allowed rs) (wildcard_allowed_set rs) q in
  let black := block_all rs = true \/ covers (blocked rs) (wildcard_blocked_set rs) q in
  (match_domain rs domain = Allowed <-> white) /\
  (match_domain rs domain = Blocked <-> ~ white /\ black) /\
  (match_domain rs domain = NoMatch <-> ~ white /\ ~ black).
Proof.
  cbn zeta. rewrite match_domain_alt. cbn zeta.
  rewrite <- !matches_covers.
  destruct (matches_set _ (allowed rs) || _); [naive_solver|].
  destruct (block_all rs); [naive_solver|]. cbn [orb].
  destruct (matches_set _ (blocked rs) || _); naive_solver.
Qed.

(** the rule [||d^] is accepted and blocks exactly [d] and its
    subdomains: whatever matched before, allow rules included, is unchanged,
    and an unmatched domain becomes blocked if and only if it is under [d]. *)
Theorem block_rule_effect rs d q :
  str_is_ascii d = true -> is_valid_domain d = true ->
  let rs' := fst (add_rule rs (lit "||" ++ d ++ lit "^")) in
  let u := under (query_name q) (to_lowercase d) in
  snd (add_rule rs (lit "||" ++ d ++ lit "^")) = true /\
  (match_domain rs q <> NoMatch -> match_domain rs' q = match_domain rs q) /\
  (match_domain rs q = NoMatch -> u -> match_domain rs' q = Blocked) /\
  (match_domain rs q = NoMatch -> ~ u -> match_domain rs' q = NoMatch).
Proof.
  intros Ha Hv. cbn zeta.
  rewrite add_rule_caret by done.
  cbn [fst snd]. split; [done|]. rewrite !match_domain_alt. cbn zeta.
  cbn [insert_blocked set_blocked blocked allowed block_all wildcard_blocked_set wildcard_allowed_set].
  destruct (matches_set _ (allowed rs) || _); [naive_solver|].
  destruct (block_all rs); [naive_solver|]. cbn [orb].
  repeat split.
  - destruct (matches_set (query_name q) (blocked rs)) eqn:Hb; cbn [orb].
    + by rewrite (proj2 (matches_set_insert _ _ _)) by auto.
    + destruct (matches_wildcard_set _ _); [|done]. by rewrite orb_true_r.
  - intros _ Hu. by rewrite (proj2 (matches_set_insert _ _ _)) by auto.
  - intros Hn Hu. by rewrite matches_set_insert_not.
Qed.

(** the AdGuard, dotted, hosts, plain and [*.] forms of a valid domain are
    all accepted and have the same effect on the set; the [*.d] form blocks
    [d] itself as well. *)
Theorem block_syntaxes_agree rs d :
  str_is_ascii d = true -> is_valid_domain d = true ->
  d <> lit "localhost" -> ends_with d ".local" = false ->
  Forall (fun line => add_rule rs line = (insert_blocked rs (to_lowercase d), true))
    [lit "||" ++ d ++ lit "^"; lit "||" ++ d; lit "||" ++ d ++ lit "^$third-party";
     lit "||" ++ d ++ lit "$important"; lit "." ++ d ++ lit "^";
     lit "0.0.0.0 " ++ d; d; lit "*." ++ d].
Proof.
  intros Ha Hv Hl1 Hl2. repeat apply Forall_cons_2; last apply Forall_nil_2.
  - by apply add_rule_caret.
  - by apply add_rule_domain.
  - apply (add_rule_domain_tail d Ha Hv rs (lit "^$third-part") 121); [done|by eexists; left].
  - apply (add_rule_domain_tail d Ha Hv rs (lit "$importan") 116); [done|by eexists; right].
  - by apply add_rule_dot.
  - by apply add_rule_hosts.
  - by apply add_rule_plain.
  - by apply add_rule_star.
Qed.

(** the rule [@@||d^] is accepted and allows exactly [d] and its
    subdomains, whatever blocks them, the block-all rule included. *)
Theorem allow_rule_effect rs d q :
  str_is_ascii d = true -> is_valid_domain d = true ->
  let rs' := fst (add_rule rs (lit "@@||" ++ d ++ lit "^")) in
  let u := under (query_name q) (to_lowercase d) in
  snd (add_rule rs (lit "@@||" ++ d ++ lit "^")) = true /\
  (u -> match_domain rs' q = Allowed) /\
  (~ u -> match_domain rs' q = match_domain rs q).
Proof.
  intros Ha Hv. cbn zeta. rewrite add_rule_allow by done. cbn [fst snd]. split; [done|].
  rewrite !match_domain_alt. cbn zeta.
  cbn [set_allowed blocked allowed block_all wildcard_blocked_set wildcard_allowed_set]. split.
  - intros Hu. by rewrite (proj2 (matches_set_insert _ _ _)) by auto.
  - intros Hu. by rewrite matches_set_insert_not.
Qed.

(** no rule of a rule list is dead: after loading any ASCII list into an
    empty set, every stored allow entry matches its own name as [Allowed], and
    every stored block entry matches its own name. *)
Theorem no_dead_rules content :
  str_is_ascii content = true ->
  let rs := fst (add_rules_from_str new content) in
  (forall d, d ∈ allowed rs -> match_domain rs d = Allowed) /\
  (forall d, d ∈ blocked rs -> match_domain rs d <> NoMatch).
Proof.
  intros Ha. cbn zeta.
  assert (entries_ok (fst (add_rules_from_str new content))) as Hok.
  { unfold add_rules_from_str. apply (add_rules_ind entries_ok); [apply entries_ok_new|]. intros rs line Hline Hrs.
    apply entries_ok_add_rule; [|done]. by eapply lines_ascii. }
  revert Hok. generalize (fst (add_rules_from_str new content)) as rs. intros rs Hok.
  split; intros d Hd; rewrite match_domain_alt; cbn zeta; rewrite Hok by set_solver.
  - by rewrite (matches_set_self d (allowed rs)).
  - rewrite (matches_set_self d (blocked rs)) by done. cbn [orb]. rewrite orb_true_r.
    by destruct (_ || _).
Qed.

(** The order of the lines of a list is irrelevant: permuted lists give
    the same block and allow entries, the same patterns up to order, and the
    same count of accepted lines. *)
Lemma add_rules_order ls1 ls2 :
  Permutation ls1 ls2 ->
  let '(rs1, n1) := add_rules new ls1 in
  let '(rs2, n2) := add_rules new ls2 in
  n1 = n2 /\ blocked rs1 = blocked rs2 /\ allowed rs1 = allowed rs2 /\
  block_all rs1 = block_all rs2 /\
  Permutation (wildcard_blocked_patterns rs1) (wildcard_blocked_patterns rs2) /\
  Permutation (wildcard_allowed_patterns rs1) (wildcard_allowed_patterns rs2).
Proof.
  intros Hp.
  pose proof (fold_add_step_perm ls1 ls2 (new, 0) Hp) as Hs. unfold add_rules.
  by destruct (fold_left _ ls1 _) as [rs1 n1], (fold_left _ ls2 _) as [rs2 n2].
Qed.

(** wildcard rules.  After loading the rules [||p^] for a list of
    wildcard patterns and [build], a domain is blocked exactly when it or one
    of its parents reads as one of the patterns, and is unmatched otherwise.
    Before [build] none of the patterns has any effect. *)
Theorem wildcard_rules_effect `{!RegexDoc} ps q :
  Forall wildcard_pattern ps -> str_is_ascii q = true ->
  let rs := fst (add_rules new (map (fun p => lit "||" ++ p ++ lit "^") ps)) in
  let hit := exists p d, p ∈ ps /\ under (query_name q) d /\ glob (map to_ascii_lower p) d = true in
  match_domain rs q = NoMatch /\
  (hit -> match_domain (build rs) q = Blocked) /\
  (~ hit -> match_domain (build rs) q = NoMatch).
Proof.
  intros Hps Hq. cbn zeta. rewrite (load_wildcards ps Hps).
  set (rps := map (fun p => map atom_of (map to_ascii_lower p)) ps).
  assert (Hwf : Forall (fun p => forallb ratom_wf p = true) rps) by by apply wildcard_atoms_wf.
  destruct (regex_fragment rps Hwf) as (set & Hset & Hempty & Hmatch).
  assert (Hno : forall x, match_domain
     (set_wildcard_blocked new (map regex_text rps) x) q = 
     if matches_wildcard_set (query_name q) x then Blocked else NoMatch).
  { intros x. rewrite match_domain_alt. cbn zeta.
    cbn [set_wildcard_blocked new blocked allowed block_all wildcard_blocked_set wildcard_allowed_set].
    assert (matches_set (query_name q) ∅ = false) as ->; [|done].
    apply not_true_iff_false. rewrite matches_set_alt. set_solver. }
  assert (Hb : build (set_wildcard_blocked new (map regex_text rps) None)
    = set_wildcard_blocked new (map regex_text rps) (compile (map regex_text rps))) by done.
  rewrite Hb, !Hno. split; [done|].
  assert (Hhit : matches_wildcard_set (query_name q) (compile (map regex_text rps)) = true <->
    exists p d, p ∈ ps /\ under (query_name q) d /\ glob (map to_ascii_lower p) d = true).
  { assert (Hqa : str_is_ascii (query_name q) = true) by (apply str_is_ascii_lower; auto with dns).
    destruct (decide (ps = [])) as [->|Hne].
    { split; [done|]. intros (p & _ & Hin & _). by apply not_elem_of_nil in Hin. }
    assert (compile (map regex_text rps) = Some set) as ->.
    { rewrite <- Hset. unfold compile. by destruct ps. }
    unfold matches_wildcard_set. destruct (RegexSet_is_empty set).
    { destruct Hempty as [He _]. specialize (He eq_refl). by destruct ps. }
    rewrite walk_up_spec. split.
    - intros (d & Hd & Hm). rewrite Hmatch in Hm by by eapply under_ascii.
      apply existsb_exists in Hm as (p' & Hin & Hm). apply in_map_iff in Hin as (p & <- & Hin).
      exists p, d. by rewrite list_elem_of_In.
    - intros (p & d & Hin & Hd & Hm). exists d. split; [done|].
      rewrite Hmatch by by eapply under_ascii. apply existsb_exists.
      exists (map atom_of (map to_ascii_lower p)). split; [|done].
      apply (in_map (fun p => map atom_of (map to_ascii_lower p))). by apply list_elem_of_In. }
  rewrite <- Hhit. by destruct (matches_wildcard_set _ _).
Qed.

End rules.
End Rules.

(** ** Concrete inputs *)

Module RulesWitness.
Import AsciiUnicode RefRegex Rules.

(** The tests of the source on the reference engine. *)
Definition loaded (ls : list string) : RuleSet := build (fst (add_rules new (map lit ls))).

Example test_allowlist_overrides_block :
  map (fun q => is_blocked (loaded ["||example.com^"; "@@||safe.example.com^"]%string) (lit q))
    ["ads.example.com"; "safe.example.com"; "sub.safe.example.com"]%string = [true; false; false].
Proof. vm_compute. reflexivity. Qed.
Example test_wildcard_adguard_format :
  map (fun q => is_blocked (loaded ["||ad-*.aliyuncs.com^"]%string) (lit q))
    ["ad-foo.aliyuncs.com"; "sub.ad-foo.aliyuncs.com"; "foo.aliyuncs.com"; "ad-.aliyuncs.com"]%string
  = [true; true; false; false].
Proof. vm_compute. reflexivity. Qed.
Example test_block_all :
  map (fun q => is_blocked (loaded ["||*^"; "@@||safe.com^"]%string) (lit q))
    ["evil.com"; "sub.safe.com"]%string = [true; false].
Proof. vm_compute. reflexivity. Qed.
Example test_rejected :
  map (fun l => snd (add_rule new (lit l)))
    ["# c"; "! c"; ""; "com"; "127.0.0.1 localhost"; "0.0.0.0 mydevice.local"; "/^ads\./"]%string
  = repeat false 7.
Proof. vm_compute. reflexivity. Qed.

(** The comment of the allowlist branch names [@@domain] as a syntax; such a
    line is refused. *)
Example allow_without_bars_refused : add_rule new (lit "@@example.com") = (new, false).
Proof. vm_compute. reflexivity. Qed.

(** The comment of [wildcard_to_regex] shows an escaped hyphen. *)
Example wildcard_regex_hyphen :
  wildcard_to_regex (lit "ad-*.aliyuncs.com") = lit "(?i)^ad-[^.]+\.aliyuncs\.com$".
Proof. vm_compute. reflexivity. Qed.

(** The comment of the [*.] branch says it blocks the subdomains. *)
Example star_rule_blocks_apex : is_blocked (loaded ["*.ads.com"]%string) (lit "ads.com") = true.
Proof. vm_compute. reflexivity. Qed.

(** A wildcard with a character the crate does not let be escaped leaves the
    rule set without any wildcard: [RegexSet::new(..).ok()] fails as a whole. *)
Example bad_wildcard_disables_all :
  is_blocked (loaded ["||ad-*.x.com^"]%string) (lit "ad-1.x.com") = true /\
  is_blocked (build (fst (add_rules new [lit "||ad-*.x.com^"; lit "||" ++ [8364] ++ lit "*.x.com^"])))
    (lit "ad-1.x.com") = false.
Proof. vm_compute. done. Qed.

Lemma block_rule_effect_witness :
  match_domain new (lit "X.ads.Example.com.") = NoMatch /\
  match_domain (fst (add_rule new (lit "||" ++ lit "Ads.example.com" ++ lit "^")))
    (lit "X.ads.Example.com.") = Blocked.
Proof.
  split; [vm_compute; reflexivity|].
  apply (block_rule_effect new (lit "Ads.example.com") (lit "X.ads.Example.com."));
    [vm_compute; reflexivity|vm_compute; reflexivity|vm_compute; reflexivity|].
  right. exists (lit "x"). vm_compute. reflexivity.
Defined.

Lemma block_syntaxes_agree_witness :
  Forall (fun line => add_rule new line = (insert_blocked new (to_lowercase (lit "ads.com")), true))
    [lit "||" ++ lit "ads.com" ++ lit "^"; lit "||" ++ lit "ads.com";
     lit "||" ++ lit "ads.com" ++ lit "^$third-party"; lit "||" ++ lit "ads.com" ++ lit "$important";
     lit "." ++ lit "ads.com" ++ lit "^"; lit "0.0.0.0 " ++ lit "ads.com"; lit "ads.com";
     lit "*." ++ lit "ads.com"].
Proof.
  apply (block_syntaxes_agree new (lit "ads.com"));
    [vm_compute; reflexivity|vm_compute; reflexivity|vm_compute; discriminate|vm_compute; reflexivity].
Defined.

Lemma allow_rule_effect_witness :
  match_domain (fst (add_rule (loaded ["||*^"]%string) (lit "@@||" ++ lit "safe.com" ++ lit "^")))
    (lit "a.safe.com") = Allowed.
Proof.
  apply (allow_rule_effect (loaded ["||*^"]%string) (lit "safe.com") (lit "a.safe.com"));
    [vm_compute; reflexivity|vm_compute; reflexivity|].
  right. exists (lit "a"). vm_compute. reflexivity.
Defined.

Lemma no_dead_rules_witness :
  let content := lit "||Ads.Example.com^" ++ [10] ++ lit "@@||ok.com^" ++ [10] ++ lit "*. Odd .." in
  match_domain (fst (add_rules_from_str new content)) (lit "ok.com") = Allowed /\
  match_domain (fst (add_rules_from_str new content)) (lit "ads.example.com") <> NoMatch.
Proof.
  cbn zeta.
  destruct (no_dead_rules (lit "||Ads.Example.com^" ++ [10] ++ lit "@@||ok.com^" ++ [10] ++ lit "*. Odd .."))
    as [Ha Hb]; [vm_compute; reflexivity|]. split.
  - apply Ha. apply (bool_decide_eq_true_1 (lit "ok.com" ∈ _)). vm_compute. reflexivity.
  - apply Hb. apply (bool_decide_eq_true_1 (lit "ads.example.com" ∈ _)). vm_compute. reflexivity.
Defined.

Lemma add_rules_order_witness :
  blocked (fst (add_rules new [lit "||a.com^"; lit "@@||b.com^"; lit "||c.com^"]))
  = blocked (fst (add_rules new [lit "@@||b.com^"; lit "||a.com^"; lit "||c.com^"])).
Proof.
  pose proof (add_rules_order _ _
    (perm_swap (lit "@@||b.com^") (lit "||a.com^") [lit "||c.com^"])) as H.
  destruct (add_rules new [lit "||a.com^"; _; _]) as [rs1 n1].
  destruct (add_rules new [lit "@@||b.com^"; _; _]) as [rs2 n2].
  exact (eq_sym (proj1 (proj2 H))) || exact (proj1 (proj2 H)).
Defined.

Lemma wildcard_rules_effect_witness :
  match_domain (build (fst (add_rules new (map (fun p => lit "||" ++ p ++ lit "^") [lit "AD-*.x.com"]))))
    (lit "sub.ad-1.x.com.") = Blocked.
Proof.
  destruct (wildcard_rules_effect [lit "AD-*.x.com"] (lit "sub.ad-1.x.com.")) as (_ & Hhit & _).
  - apply Forall_cons_2; [|apply Forall_nil_2].
    split; [vm_compute; reflexivity|]. split; [apply contains_char_true; vm_compute; reflexivity|].
    split; [apply contains_char_true; vm_compute; reflexivity|vm_compute; reflexivity].
  - vm_compute. reflexivity.
  - apply Hhit. exists (lit "AD-*.x.com"), (lit "ad-1.x.com"). split; [by left|]. split.
    + right. exists (lit "sub"). vm_compute. reflexivity.
    + vm_compute. reflexivity.
Defined.

End RulesWitness.
