(* ===== verification/Acl.v ===== *)
(** * The client access list: src/dns/acl.rs

    Two lists of networks, filled from the texts of the settings.  The
    networks are the [ipnet] crate's, a parameter: the class [IpNetCrate],
    with what its documentation promises in [IpNetDoc]. *)
From S2P Require Import Prelude RustStr IpAddr.
Local Open Scope N_scope.

(** ** The ipnet crate *)

Class IpNetCrate := {
  IpNet : Type;
  (** [IpNet::from_str] *)
  IpNet_from_str : str -> option IpNet;
  (** [IpNet::contains] of an address *)
  IpNet_contains : IpNet -> IpAddr -> bool;
}.

(** The bits of an address and their number. *)
Definition ip_width (ip : IpAddr) : N := if is_ipv4 ip then 32 else 128.
Definition ip_value (ip : IpAddr) : N :=
  match ip with
  | V4 a b c d => fold_left (fun v x => 256 * v + x) [a; b; c; d] 0
  | V6 s0 s1 s2 s3 s4 s5 s6 s7 =>
      fold_left (fun v x => 65536 * v + x) [s0; s1; s2; s3; s4; s5; s6; s7] 0
  end.
(** Two addresses of one family with the same first [n] bits. *)
Definition same_prefix (n : N) (x y : IpAddr) : bool :=
  Bool.eqb (is_ipv4 x) (is_ipv4 y)
  && (N.shiftr (ip_value x) (ip_width x - n) =? N.shiftr (ip_value y) (ip_width y - n)).

(** An address, a slash and a prefix length is a network, of the addresses
    that share the prefix. *)
Class IpNetDoc `{IpNetCrate} := {
  ipnet_doc : forall t ip n, parse_ip t = Some ip -> n <= ip_width ip ->
    exists net, IpNet_from_str (t ++ slash :: show_N n) = Some net /\
      forall y, IpNet_contains net y = same_prefix n ip y;
}.

(** ** The access list *)

Module Acl.
Section acl.
Context `{IpNetCrate}.

Record Acl := { allowed : list IpNet; denied : list IpNet }.

Definition new : Acl := {| allowed := []; denied := [] |}.

(** A bare address gets the prefix length of its family. *)
Definition cidr_text (s : str) : str :=
  if contains_char s slash then s
  else if contains_char s colon then s ++ lit "/128"
  else s ++ lit "/32".

(** The closure [parse] of [from_cidrs], on one entry. *)
Definition parse_entry (s : str) : option IpNet :=
  let s := trim s in
  if is_empty s then None else IpNet_from_str (cidr_text s).

Definition from_cidrs (al de : list str) : Acl :=
  {| allowed := filter_map parse_entry al; denied := filter_map parse_entry de |}.

Definition validate_cidrs (cidrs : list str) : list str :=
  List.filter (fun s =>
    let s := trim s in
    if is_empty s then false
    else match IpNet_from_str (cidr_text s) with Some _ => false | None => true end) cidrs.

Definition is_allowed (acl : Acl) (ip : IpAddr) : bool :=
  match allowed acl, denied acl with
  | [], [] => true
  | _, _ =>
      if existsb (fun net => IpNet_contains net ip) (denied acl) then false
      else match allowed acl with
           | [] => true
           | _ => existsb (fun net => IpNet_contains net ip) (allowed acl)
           end
  end.

(** ** What a list of entries means *)

Inductive entry := Bare (t : str) | Cidr (t : str) (n : N).

(** The line of the settings is the entry, up to white space around it. *)
Definition reads (line : str) (e : entry) : Prop :=
  match e with
  | Bare t => trim line = t /\ exists ip, parse_ip t = Some ip
  | Cidr t n => trim line = t ++ slash :: show_N n /\ exists ip, parse_ip t = Some ip /\ n <= ip_width ip
  end.

(** The address is one the entry stands for. *)
Definition covers (e : entry) (y : IpAddr) : bool :=
  match e with
  | Bare t => match parse_ip t with Some ip => same_prefix (ip_width ip) ip y | None => false end
  | Cidr t n => match parse_ip t with Some ip => same_prefix n ip y | None => false end
  end.

Lemma is_allowed_alt acl ip :
  is_allowed acl ip =
    negb (existsb (fun net => IpNet_contains net ip) (denied acl))
    && (match allowed acl with [] => true | _ => false end
        || existsb (fun net => IpNet_contains net ip) (allowed acl)).
Proof.
  unfold is_allowed. destruct (allowed acl) as [|a al], (denied acl) as [|d de]; simpl; try done.
  all: by destruct (IpNet_contains d ip || _).
Qed.

Lemma parse_entry_reads `{!IpNetDoc} line e :
  reads line e -> exists net, parse_entry line = Some net /\ forall y, IpNet_contains net y = covers e y.
Proof.
  unfold parse_entry. destruct e as [t|t n]; simpl.
  - intros [-> [ip Hip]]. destruct (parse_ip_chars _ _ Hip) as [Hcol Hsl].
    destruct (ipnet_doc t ip (ip_width ip) Hip ltac:(done)) as (net & Hnet & Hcov).
    exists net. rewrite Hip. split; [|done].
    destruct (is_empty t) eqn:He; [by apply is_empty_true in He as ->|].
    unfold cidr_text. apply contains_char_false in Hsl. rewrite Hsl, Hcol, <- Hnet.
    unfold is_ipv6, ip_width. by destruct (is_ipv4 ip).
  - intros [-> (ip & Hip & Hn)]. destruct (ipnet_doc t ip n Hip Hn) as (net & Hnet & Hcov).
    exists net. rewrite Hip. split; [|done].
    destruct (is_empty (t ++ slash :: show_N n)) eqn:He.
    { apply is_empty_true in He. by destruct t. }
    unfold cidr_text. rewrite (proj2 (contains_char_true _ slash)); [done|].
    apply elem_of_app. right. left.
Qed.

Lemma parse_entries_reads `{!IpNetDoc} ls es :
  Forall2 reads ls es ->
  Forall2 (fun net e => forall y, IpNet_contains net y = covers e y) (filter_map parse_entry ls) es.
Proof.
  induction 1 as [|line e ls es Hr _ IH]; [constructor|]. simpl.
  destruct (parse_entry_reads _ _ Hr) as (net & -> & Hnet). by constructor.
Qed.

Lemma existsb_covers nets es y :
  Forall2 (fun net e => forall y, IpNet_contains net y = covers e y) nets es ->
  existsb (fun net => IpNet_contains net y) nets = existsb (fun e => covers e y) es.
Proof. induction 1 as [|net e nets es Hne _ IH]; [done|]. simpl. by rewrite Hne, IH. Qed.

(** C15: A list of addresses and networks admits a client exactly when none of
    the denied entries covers its address, and, unless the list of allowed
    entries is empty, one of those does: a denied entry wins over an allowed
    one, and a bare address stands for itself alone. *)
Theorem acl_semantics `{!IpNetDoc} al de als des y :
  Forall2 reads al als -> Forall2 reads de des ->
  is_allowed (from_cidrs al de) y =
    negb (existsb (fun e => covers e y) des)
    && (match als with [] => true | _ => false end || existsb (fun e => covers e y) als).
Proof.
  intros Hal Hde. rewrite is_allowed_alt. simpl.
  apply parse_entries_reads in Hal, Hde.
  rewrite (existsb_covers _ _ _ Hde), (existsb_covers _ _ _ Hal).
  by destruct Hal.
Qed.

(** The entries [validate_cidrs] reports are the ones that are not blank and
    that [from_cidrs] drops: a list it finds no fault with gives one network
    per entry that is not blank, and dropping the reported entries changes
    nothing. *)
Lemma validate_cidrs_correct cidrs :
  let kept := List.filter (fun s => negb (bool_decide (s ∈ validate_cidrs cidrs))) cidrs in
  (forall s, s ∈ validate_cidrs cidrs <->
    s ∈ cidrs /\ is_empty (trim s) = false /\ parse_entry s = None) /\
  (forall al, from_cidrs kept al = from_cidrs cidrs al /\ from_cidrs al kept = from_cidrs al cidrs) /\
  (validate_cidrs cidrs = [] ->
    length (allowed (from_cidrs cidrs [])) =
    length (List.filter (fun s => negb (is_empty (trim s))) cidrs)).
Proof.
  assert (Hin : forall s, s ∈ validate_cidrs cidrs <->
    s ∈ cidrs /\ is_empty (trim s) = false /\ parse_entry s = None).
  { intros s. unfold validate_cidrs, parse_entry. rewrite !list_elem_of_In, filter_In. cbn zeta.
    destruct (is_empty (trim s)); [intuition congruence|].
    destruct (IpNet_from_str _); intuition congruence. }
  cbn zeta. split; [done|]. split.
  - assert (Hk : filter_map parse_entry
      (List.filter (fun s => negb (bool_decide (s ∈ validate_cidrs cidrs))) cidrs)
      = filter_map parse_entry cidrs).
    { assert (Hp : forall s, s ∈ validate_cidrs cidrs -> parse_entry s = None)
        by (intros s Hs; apply Hin in Hs; tauto).
      revert Hp. generalize (validate_cidrs cidrs) as bad. intros bad Hp. clear Hin.
      induction cidrs as [|s cidrs IH]; [done|]. simpl.
      destruct (bool_decide (s ∈ bad)) eqn:Hb; simpl; rewrite IH; [|done].
      apply bool_decide_eq_true_1 in Hb. by rewrite (Hp s Hb). }
    intros al. unfold from_cidrs. by rewrite Hk.
  - intros Hnil. simpl.
    assert (Hok : forall s, s ∈ cidrs -> is_empty (trim s) = false -> parse_entry s <> None).
    { intros s Hs He Hn. apply (not_elem_of_nil s). rewrite <- Hnil. by apply Hin. }
    clear Hin Hnil. induction cidrs as [|s cidrs IH]; [done|]. simpl.
    assert (length (filter_map parse_entry cidrs)
      = length (List.filter (fun s => negb (is_empty (trim s))) cidrs)) as IH'.
    { apply IH. intros s' Hs'. apply Hok. by right. }
    destruct (is_empty (trim s)) eqn:He; simpl.
    + unfold parse_entry. by rewrite He.
    + destruct (parse_entry s) eqn:Hps; [simpl; by rewrite IH'|].
      exfalso. apply (Hok s); [by left|done|done].
Qed.

End acl.
End Acl.

(** ** A reference for the crate, and concrete inputs *)

Module RefIpNet.
#[export] Instance engine : IpNetCrate := {|
  IpNet := IpAddr * N;
  IpNet_from_str s :=
    match rsplit_once s slash with
    | Some (t, w) =>
        match parse_ip t, parse_uint 255 w with
        | Some ip, Some n => if n <=? ip_width ip then Some (ip, n) else None
        | _, _ => None
        end
    | None => None
    end;
  IpNet_contains net y := same_prefix (snd net) (fst net) y;
|}.

#[export] Instance doc : IpNetDoc.
Proof.
  constructor. intros t ip n Hip Hn. exists (ip, n). split; [|done]. simpl.
  assert (rsplit_once (t ++ slash :: show_N n) slash = Some (t, show_N n)) as ->.
  { unfold rsplit_once. rewrite rev_app_distr. simpl. rewrite <- app_assoc. simpl.
    rewrite split_once_app; [by rewrite !rev_involutive|].
    intros Hin. rewrite <- In_rev in Hin || apply list_elem_of_In, in_rev, list_elem_of_In in Hin.
    apply show_N_digits in Hin. done. }
  assert (ip_width ip <= 128) by (unfold ip_width; by destruct (is_ipv4 ip)).
  rewrite Hip, parse_show_N by lia. by rewrite (proj2 (N.leb_le _ _) Hn).
Qed.
End RefIpNet.

Module AclWitness.
Import RefIpNet Acl.

(** Spaces around an entry, a network in the middle of an octet, and both
    families. *)
Definition example_acl : Acl :=
  from_cidrs [lit " 192.168.0.0/16"; lit "2001:db8::/32"; lit "10.0.0.1"] [lit "192.168.1.64/26 "; lit "::1"; lit ""].
Example acl_tests :
  map (is_allowed example_acl)
    [V4 192 168 1 10; V4 192 168 1 70; V4 10 0 0 1; V4 10 0 0 2; V6 8193 3512 5 0 0 0 0 1; V6 0 0 0 0 0 0 0 1]
  = [true; false; true; false; true; false].
Proof. vm_compute. reflexivity. Qed.
Example validate_tests :
  validate_cidrs [lit "10.0.0.0/8"; lit "10.0.0.0/33"; lit " "; lit "nonsense"; lit "fe80::1"]
  = [lit "10.0.0.0/33"; lit "nonsense"].
Proof. vm_compute. reflexivity. Qed.

Lemma acl_semantics_witness :
  is_allowed (from_cidrs [lit " 10.0.0.0/8"] [lit "10.0.0.1"]) (V4 10 0 0 1) = false /\
  is_allowed (from_cidrs [lit " 10.0.0.0/8"] [lit "10.0.0.1"]) (V4 10 0 0 2) = true.
Proof.
  assert (Forall2 reads [lit " 10.0.0.0/8"] [Cidr (lit "10.0.0.0") 8]) as Ha.
  { repeat constructor. exists (V4 10 0 0 0). split; [vm_compute; reflexivity|vm_compute; discriminate]. }
  assert (Forall2 reads [lit "10.0.0.1"] [Bare (lit "10.0.0.1")]) as Hd.
  { repeat constructor. exists (V4 10 0 0 1). vm_compute. reflexivity. }
  split.
  - rewrite (acl_semantics _ _ _ _ _ Ha Hd). vm_compute. reflexivity.
  - rewrite (acl_semantics _ _ _ _ _ Ha Hd). vm_compute. reflexivity.
Defined.

End AclWitness.
