(* ===== verification/Moka.v ===== *)
(** * The moka crate: in-memory caches with expiry

    The DNS cache, the cache of the clients' configurations, that of their
    resolvers and that of the rule validator are [moka] caches.  The crate is
    a parameter, the class [Moka]; a cache may drop any entry at any time, so
    what [MokaDoc] states of its documentation is what a hit means.  Instants
    and durations are in nanoseconds. *)
From S2P Require Import Prelude RustStr.
Local Open Scope N_scope.

Class Moka := {
  moka : Type -> Type;
  (** [Cache::builder().max_capacity(c).time_to_live(life)] *)
  moka_build : forall {V}, N -> N -> moka V;
  (** [Cache::builder().max_capacity(c).expire_after(e)], where [e] is an
      [Expiry] that overrides [expire_after_create] only *)
  moka_build_expiring : forall {V}, N -> (str -> V -> N) -> moka V;
  moka_get : forall {V}, moka V -> N -> str -> option V;
  moka_insert : forall {V}, moka V -> N -> str -> V -> moka V;
  moka_invalidate : forall {V}, moka V -> str -> moka V;
  moka_invalidate_all : forall {V}, moka V -> moka V;
  moka_entry_count : forall {V}, moka V -> N;
}.

(** A sequence of operations on a cache. *)
Inductive moka_op (V : Type) :=
| MInsert (now : N) (k : str) (v : V)
| MInvalidate (k : str)
| MInvalidateAll.
Arguments MInsert {V} now k v.
Arguments MInvalidate {V} k.
Arguments MInvalidateAll {V}.

Definition moka_apply `{Moka} {V} (m : moka V) (o : moka_op V) : moka V :=
  match o with
  | MInsert now k v => moka_insert m now k v
  | MInvalidate k => moka_invalidate m k
  | MInvalidateAll => moka_invalidate_all m
  end.
Definition moka_run `{Moka} {V} (m : moka V) (os : list (moka_op V)) : moka V :=
  fold_left moka_apply os m.

(** The operation writes or removes the entry of the key. *)
Definition touches {V} (k : str) (o : moka_op V) : bool :=
  match o with
  | MInsert _ k' _ | MInvalidate k' => bool_decide (k' = k)
  | MInvalidateAll => true
  end.

(** The operation removes the entry of the key. *)
Definition removes {V} (k : str) (o : moka_op V) : bool :=
  match o with
  | MInsert _ _ _ => false
  | MInvalidate k' => bool_decide (k' = k)
  | MInvalidateAll => true
  end.

(** A hit is the value of the last operation on the key, an insertion.

    With [time_to_live] each insertion starts the entry's life anew.  With an
    [Expiry], [expire_after_create] gives the life of an entry from the
    insertion that creates it, and an insertion that finds the entry alive
    calls [expire_after_update], which keeps the time that is left unless it
    is overridden.  The entry may have been dropped in between, so what a hit
    tells is that some insertion of the key since the last removal has created
    an entry whose life is not over. *)
Class MokaDoc `{Moka} := {
  moka_hit : forall V cap life (os : list (moka_op V)) now k v,
    moka_get (moka_run (moka_build cap life) os) now k = Some v ->
    exists before t after,
      os = before ++ MInsert t k v :: after /\
      existsb (touches k) after = false /\
      now < t + life;
  moka_expiring_hit : forall V cap (create : str -> V -> N) os now k v,
    moka_get (moka_run (moka_build_expiring cap create) os) now k = Some v ->
    (exists before t after,
      os = before ++ MInsert t k v :: after /\
      existsb (touches k) after = false) /\
    (exists before t0 v0 after,
      os = before ++ MInsert t0 k v0 :: after /\
      existsb (removes k) after = false /\
      now < t0 + create k v0);
}.

(** ** A reference cache, of unlimited capacity *)

Module RefMoka.
Inductive policy (V : Type) :=
| TimeToLive (life : N)
| ExpireAfterCreate (create : str -> V -> N).
Arguments TimeToLive {V} life.
Arguments ExpireAfterCreate {V} create.

(** The values and the instants at which they expire. *)
Record cache (V : Type) := { expiry : policy V; entries : gmap str (V * N) }.
Arguments expiry {V} _.
Arguments entries {V} _.

Definition deadline {V} (m : cache V) (now : N) (k : str) (v : V) : N :=
  match expiry m with
  | TimeToLive life => now + life
  | ExpireAfterCreate create =>
      match entries m !! k with
      | Some (_, t) => if now <? t then t else now + create k v
      | None => now + create k v
      end
  end.

#[export] Instance engine : Moka := {|
  moka := cache;
  moka_build V _ life := {| expiry := TimeToLive life; entries := ∅ |};
  moka_build_expiring V _ create := {| expiry := ExpireAfterCreate create; entries := ∅ |};
  moka_get V m now k :=
    match entries m !! k with
    | Some (v, t) => if now <? t then Some v else None
    | None => None
    end;
  moka_insert V m now k v :=
    {| expiry := expiry m; entries := <[k := (v, deadline m now k v)]> (entries m) |};
  moka_invalidate V m k := {| expiry := expiry m; entries := delete k (entries m) |};
  moka_invalidate_all V m := {| expiry := expiry m; entries := ∅ |};
  moka_entry_count V m := N.of_nat (size (entries m));
|}.

Section run.
Context {V : Type} (m0 : cache V).
Hypothesis Hempty : entries m0 = ∅.

Lemma expiry_run os : expiry (moka_run (H := engine) m0 os) = expiry m0.
Proof.
  unfold moka_run. apply (fold_left_ind (fun m' => expiry m' = expiry m0)); [done|].
  by intros m' [] _ <-.
Qed.

Lemma run_snoc os o : moka_run (H := engine) m0 (os ++ [o]) = moka_apply (H := engine) (moka_run (H := engine) m0 os) o.
Proof. unfold moka_run. by rewrite fold_left_app. Qed.

(** Appending an operation that does not concern the key. *)
Lemma ops_snoc (f : moka_op V -> bool) os o before x after :
  os = before ++ x :: after -> existsb f after = false -> f o = false ->
  os ++ [o] = before ++ x :: (after ++ [o]) /\ existsb f (after ++ [o]) = false.
Proof. intros -> Ha Ho. rewrite existsb_app, Ha. simpl. rewrite Ho. by rewrite <- app_assoc. Qed.

(** The value of an entry is the one written last. *)
Lemma entry_value os k v t :
  entries (moka_run (H := engine) m0 os) !! k = Some (v, t) ->
  exists before t' after, os = before ++ MInsert t' k v :: after /\ existsb (touches k) after = false.
Proof.
  revert v t. induction os as [|o os IH] using rev_ind; intros v t; [simpl; by rewrite Hempty|].
  rewrite run_snoc.
  assert (Hkeep : touches k o = false -> entries (moka_run (H := engine) m0 os) !! k = Some (v, t) ->
    exists before t' after, os ++ [o] = before ++ MInsert t' k v :: after /\ existsb (touches k) after = false).
  { intros Ho Hm. destruct (IH _ _ Hm) as (before & t' & after & Hos & Hafter).
    destruct (ops_snoc _ _ o _ _ _ Hos Hafter Ho). by exists before, t', (after ++ [o]). }
  destruct o as [t' k' v'|k'|]; simpl in *; [| |done].
  - destruct (decide (k' = k)) as [->|Hk].
    + rewrite lookup_insert_eq. intros [= -> _]. by exists os, t', [].
    + rewrite lookup_insert_ne by done. apply Hkeep. by apply bool_decide_eq_false.
  - destruct (decide (k' = k)) as [->|Hk]; [by rewrite lookup_delete_eq|].
    rewrite lookup_delete_ne by done. apply Hkeep. by apply bool_decide_eq_false.
Qed.

(** The expiry of an entry is the one written last, or kept. *)
Lemma entry_created os create k v t :
  expiry m0 = ExpireAfterCreate create ->
  entries (moka_run (H := engine) m0 os) !! k = Some (v, t) ->
  exists before t0 v0 after, os = before ++ MInsert t0 k v0 :: after /\
    existsb (removes k) after = false /\ t = t0 + create k v0.
Proof.
  intros Hp. revert v t. induction os as [|o os IH] using rev_ind; intros v t; [simpl; by rewrite Hempty|].
  rewrite run_snoc.
  assert (Hkeep : forall v', removes k o = false -> entries (moka_run (H := engine) m0 os) !! k = Some (v', t) ->
    exists before t0 v0 after, os ++ [o] = before ++ MInsert t0 k v0 :: after /\
      existsb (removes k) after = false /\ t = t0 + create k v0).
  { intros v' Ho Hm. destruct (IH _ _ Hm) as (before & t0 & v0 & after & Hos & Hafter & Ht).
    destruct (ops_snoc _ _ o _ _ _ Hos Hafter Ho). by exists before, t0, v0, (after ++ [o]). }
  destruct o as [t' k' v'|k'|]; simpl in *; [| |done].
  - destruct (decide (k' = k)) as [->|Hk]; [|rewrite lookup_insert_ne by done; by apply Hkeep].
    rewrite lookup_insert_eq. intros [= -> Ht]. revert Ht. unfold deadline. rewrite expiry_run, Hp.
    destruct (entries (moka_run (H := engine) m0 os) !! k) as [[v1 t1]|] eqn:Hm; [destruct (t' <? t1)|]; intros <-;
      [by apply (Hkeep v1)|by exists os, t', v, []..].
  - destruct (decide (k' = k)) as [->|Hk]; [by rewrite lookup_delete_eq|].
    rewrite lookup_delete_ne by done. apply Hkeep. by apply bool_decide_eq_false.
Qed.

(** With [time_to_live] it is the one of the last write. *)
Lemma entry_life os life k v t :
  expiry m0 = TimeToLive life ->
  entries (moka_run (H := engine) m0 os) !! k = Some (v, t) ->
  exists before t' after, os = before ++ MInsert t' k v :: after /\
    existsb (touches k) after = false /\ t = t' + life.
Proof.
  intros Hp. revert v t. induction os as [|o os IH] using rev_ind; intros v t; [simpl; by rewrite Hempty|].
  rewrite run_snoc.
  assert (Hkeep : touches k o = false -> entries (moka_run (H := engine) m0 os) !! k = Some (v, t) ->
    exists before t' after, os ++ [o] = before ++ MInsert t' k v :: after /\
      existsb (touches k) after = false /\ t = t' + life).
  { intros Ho Hm. destruct (IH _ _ Hm) as (before & t' & after & Hos & Hafter & Ht).
    destruct (ops_snoc _ _ o _ _ _ Hos Hafter Ho). by exists before, t', (after ++ [o]). }
  destruct o as [t' k' v'|k'|]; simpl in *; [| |done].
  - destruct (decide (k' = k)) as [->|Hk].
    + rewrite lookup_insert_eq. intros [= -> <-]. exists os, t', []. unfold deadline. by rewrite expiry_run, Hp.
    + rewrite lookup_insert_ne by done. apply Hkeep. by apply bool_decide_eq_false.
  - destruct (decide (k' = k)) as [->|Hk]; [by rewrite lookup_delete_eq|].
    rewrite lookup_delete_ne by done. apply Hkeep. by apply bool_decide_eq_false.
Qed.

Lemma get_entry os now k v :
  moka_get (moka_run (H := engine) m0 os) now k = Some v -> exists t, entries (moka_run (H := engine) m0 os) !! k = Some (v, t) /\ now < t.
Proof.
  simpl. destruct (entries _ !! k) as [[v' t]|]; [|done].
  destruct (now <? t) eqn:Hn; [|done]. intros [= ->]. exists t. split; [done|]. by apply N.ltb_lt.
Qed.
End run.

#[export] Instance doc : MokaDoc.
Proof.
  constructor.
  - intros V cap life os now k v Hg.
    destruct (get_entry _ _ _ _ _ Hg) as (t & He & Hn).
    destruct (entry_life (@moka_build engine V cap life) eq_refl os life k v t eq_refl He) as (b & t' & a & Hos & Ha & ->).
    by exists b, t', a.
  - intros V cap create os now k v Hg.
    destruct (get_entry _ _ _ _ _ Hg) as (t & He & Hn). split.
    + exact (entry_value (@moka_build_expiring engine V cap create) eq_refl os k v t He).
    + destruct (entry_created (@moka_build_expiring engine V cap create) eq_refl os create k v t eq_refl He)
        as (b & t0 & v0 & a & Hos & Ha & ->).
      by exists b, t0, v0, a.
Qed.
End RefMoka.
