(* ===== verification/Hickory.v ===== *)
(** * DNS messages: the hickory-proto crate as the sources use it

    A message is what the crate's accessors show of it: the header fields and
    the sections src/dns reads or sets.  Names, record types, classes, the
    data of records and the wire format are the crate's, parameters of the
    model; [HickoryDoc] states the facts of the DNS wire format (RFC 1035)
    the handler relies on.  A byte is an [N] below 256. *)
From S2P Require Import Prelude RustStr IpAddr.
Local Open Scope N_scope.

Class Hickory := {
  Name : Type;
  (** [Name::to_string] *)
  name_str : Name -> str;
  RecordType : Type;
  rtype_eq_dec :: EqDecision RecordType;
  rtype_A : RecordType;
  rtype_AAAA : RecordType;
  (** [format!("{:?}", qtype)] *)
  rtype_debug : RecordType -> str;
  DNSClass : Type;
  class_IN : DNSClass;
  RData : Type;
  (** [RData::A] and [RData::AAAA] *)
  rdata_ip : IpAddr -> RData;
  (** [RData::to_string] *)
  rdata_str : RData -> str;
}.

Inductive MessageType := MtQuery | MtResponse.
Inductive OpCode := OpQuery | OpOther (n : N).
Inductive ResponseCode := NoError | ServFail | NXDomain | Refused | RcOther (n : N).
#[global] Instance MessageType_eq_dec : EqDecision MessageType.
Proof. solve_decision. Defined.
#[global] Instance OpCode_eq_dec : EqDecision OpCode.
Proof. solve_decision. Defined.
#[global] Instance ResponseCode_eq_dec : EqDecision ResponseCode.
Proof. solve_decision. Defined.

Section message.
Context `{Hickory}.

Record Query := { q_name : Name; q_type : RecordType; q_class : DNSClass }.
(** A resource record: [Record] is a keyword. *)
Record RRecord := {
  r_name : Name; r_type : RecordType; r_class : DNSClass; r_ttl : N; r_data : option RData }.
Record Message := {
  m_id : N;
  m_type : MessageType;
  m_op : OpCode;
  m_rd : bool;  (* recursion desired *)
  m_ra : bool;  (* recursion available *)
  m_code : ResponseCode;
  m_queries : list Query;
  m_answers : list RRecord;
}.

(** [Message::new] and the setters *)
Definition Message_new : Message :=
  {| m_id := 0; m_type := MtQuery; m_op := OpQuery; m_rd := false; m_ra := false;
     m_code := NoError; m_queries := []; m_answers := [] |}.
Definition set_id (m : Message) (i : N) : Message :=
  {| m_id := i; m_type := m_type m; m_op := m_op m; m_rd := m_rd m; m_ra := m_ra m;
     m_code := m_code m; m_queries := m_queries m; m_answers := m_answers m |}.
Definition set_type (m : Message) (t : MessageType) : Message :=
  {| m_id := m_id m; m_type := t; m_op := m_op m; m_rd := m_rd m; m_ra := m_ra m;
     m_code := m_code m; m_queries := m_queries m; m_answers := m_answers m |}.
Definition set_op (m : Message) (o : OpCode) : Message :=
  {| m_id := m_id m; m_type := m_type m; m_op := o; m_rd := m_rd m; m_ra := m_ra m;
     m_code := m_code m; m_queries := m_queries m; m_answers := m_answers m |}.
Definition set_rd (m : Message) (b : bool) : Message :=
  {| m_id := m_id m; m_type := m_type m; m_op := m_op m; m_rd := b; m_ra := m_ra m;
     m_code := m_code m; m_queries := m_queries m; m_answers := m_answers m |}.
Definition set_ra (m : Message) (b : bool) : Message :=
  {| m_id := m_id m; m_type := m_type m; m_op := m_op m; m_rd := m_rd m; m_ra := b;
     m_code := m_code m; m_queries := m_queries m; m_answers := m_answers m |}.
Definition set_code (m : Message) (c : ResponseCode) : Message :=
  {| m_id := m_id m; m_type := m_type m; m_op := m_op m; m_rd := m_rd m; m_ra := m_ra m;
     m_code := c; m_queries := m_queries m; m_answers := m_answers m |}.
Definition add_query (m : Message) (q : Query) : Message :=
  {| m_id := m_id m; m_type := m_type m; m_op := m_op m; m_rd := m_rd m; m_ra := m_ra m;
     m_code := m_code m; m_queries := m_queries m ++ [q]; m_answers := m_answers m |}.
Definition add_answer (m : Message) (r : RRecord) : Message :=
  {| m_id := m_id m; m_type := m_type m; m_op := m_op m; m_rd := m_rd m; m_ra := m_ra m;
     m_code := m_code m; m_queries := m_queries m; m_answers := m_answers m ++ [r] |}.

Lemma fold_add_query qs m :
  fold_left add_query qs m =
  {| m_id := m_id m; m_type := m_type m; m_op := m_op m; m_rd := m_rd m; m_ra := m_ra m;
     m_code := m_code m; m_queries := m_queries m ++ qs; m_answers := m_answers m |}.
Proof.
  revert m. induction qs as [|q qs IH]; intros m; simpl.
  - destruct m. by rewrite app_nil_r.
  - rewrite IH. simpl. by rewrite <- app_assoc.
Qed.

Lemma fold_add_answer rs m :
  fold_left add_answer rs m =
  {| m_id := m_id m; m_type := m_type m; m_op := m_op m; m_rd := m_rd m; m_ra := m_ra m;
     m_code := m_code m; m_queries := m_queries m; m_answers := m_answers m ++ rs |}.
Proof.
  revert m. induction rs as [|r rs IH]; intros m; simpl.
  - destruct m. by rewrite app_nil_r.
  - rewrite IH. simpl. by rewrite <- app_assoc.
Qed.

(** [Message::from_vec] and [Message::to_vec]; both can fail. *)
Class DnsCodec := {
  from_vec : list N -> option Message;
  to_vec : Message -> option (list N);
}.

(** [data[0] = hi; data[1] = lo] *)
Definition patch_id (data : list N) (i : N) : list N :=
  <[1%nat := i mod 256]> (<[0%nat := i / 256]> data).

(** The wire format: what is encoded decodes to itself, the header is twelve
    bytes long and starts with the identifier. *)
Class HickoryDoc `{DnsCodec} := {
  rtype_debug_inj : forall t u, rtype_debug t = rtype_debug u -> t = u;
  rtype_debug_no_colon : forall t, colon ∉ rtype_debug t;
  to_from_vec : forall m data, m_id m < 65536 -> to_vec m = Some data -> from_vec data = Some m;
  wire_id : forall data m, from_vec data = Some m ->
    m_id m < 65536 /\ (12 <= length data)%nat /\
    forall i, i < 65536 -> from_vec (patch_id data i) = Some (set_id m i);
}.
End message.
Arguments DnsCodec {_}.

(** ** A reference wire format, for the witnesses *)

Module RefHickory.
#[export] Instance types : Hickory := {|
  Name := str; name_str n := n;
  RecordType := N; rtype_A := 1; rtype_AAAA := 28;
  rtype_debug t := if t =? 1 then lit "A" else if t =? 28 then lit "AAAA" else show_N t;
  DNSClass := unit; class_IN := tt;
  RData := IpAddr + str;
  rdata_ip := inl;
  rdata_str d := match d with inl ip => show_ip ip | inr s => s end;
|}.

#[global] Instance IpAddr_countable : Countable IpAddr.
Proof.
  apply (inj_countable'
    (fun ip => match ip with
       | V4 a b c d => [a; b; c; d] | V6 a b c d e f g h => [a; b; c; d; e; f; g; h] end)
    (fun l => match l with
       | [a; b; c; d] => V4 a b c d | [a; b; c; d; e; f; g; h] => V6 a b c d e f g h
       | _ => V4 0 0 0 0 end)).
  by intros [].
Defined.

Definition code_N (c : ResponseCode) : N :=
  match c with NoError => 0 | ServFail => 1 | NXDomain => 2 | Refused => 3 | RcOther n => 4 + n end.
Definition N_code (n : N) : ResponseCode :=
  if n =? 0 then NoError else if n =? 1 then ServFail else if n =? 2 then NXDomain
  else if n =? 3 then Refused else RcOther (n - 4).
Lemma N_code_N c : N_code (code_N c) = c.
Proof.
  destruct c as [| | | |n]; try done. unfold N_code, code_N.
  repeat match goal with |- context [(4 + n =? ?k)] => rewrite (proj2 (N.eqb_neq (4 + n) k)) by lia end.
  f_equal. lia.
Qed.
Definition op_N (o : OpCode) : N := match o with OpQuery => 0 | OpOther n => N.succ n end.
Definition N_op (n : N) : OpCode := if n =? 0 then OpQuery else OpOther (N.pred n).
Lemma N_op_N o : N_op (op_N o) = o.
Proof.
  destruct o as [|n]; [done|]. unfold N_op, op_N.
  rewrite (proj2 (N.eqb_neq (N.succ n) 0)) by lia. f_equal. lia.
Qed.

(** All of a message but its identifier. *)
Abbreviation wire := (bool * N * bool * bool * N * list (str * N) * list (str * N * N * option (IpAddr + str)))%type.
Definition body (m : Message) : wire :=
  (bool_decide (m_type m = MtResponse), op_N (m_op m), m_rd m, m_ra m, code_N (m_code m),
   map (fun q => (q_name q, q_type q)) (m_queries m),
   map (fun r => (r_name r, r_type r, r_ttl r, r_data r)) (m_answers m)).
Definition unbody (i : N) (w : wire) : Message :=
  let '(t, o, rd, ra, c, qs, rs) := w in
  {| m_id := i; m_type := if t : bool then MtResponse else MtQuery; m_op := N_op o;
     m_rd := rd; m_ra := ra; m_code := N_code c;
     m_queries := map (fun '(n, t) => Build_Query n t tt) qs;
     m_answers := map (fun '(n, t, l, d) => Build_RRecord n t tt l d) rs |}.

Lemma unbody_body m : unbody (m_id m) (body m) = m.
Proof.
  destruct m as [i t o rd ra c qs rs]. unfold unbody, body; cbn [m_id m_type m_op m_rd m_ra m_code m_queries m_answers].
  rewrite N_op_N, N_code_N, !map_map. f_equal.
  - by destruct t.
  - induction qs as [|[n ty []] qs IH]; [done|]. simpl. by rewrite IH.
  - induction rs as [|[n ty [] l d] rs IH]; [done|]. simpl. by rewrite IH.
Qed.

Fixpoint bits (p : positive) : list N :=
  match p with xH => [] | xO p => 0 :: bits p | xI p => 1 :: bits p end.
Fixpoint unbits (l : list N) : positive :=
  match l with [] => xH | b :: l => if b =? 0 then xO (unbits l) else xI (unbits l) end.
Lemma unbits_bits p : unbits (bits p) = p.
Proof. induction p; simpl; congruence. Qed.

#[export] Instance codec : DnsCodec := {|
  from_vec data :=
    match data with
    | hi :: lo :: rest =>
        if (10 <=? length rest)%nat && (hi <? 256) && (lo <? 256) then
          unbody (256 * hi + lo) <$> decode (unbits (drop 10 rest))
        else None
    | _ => None
    end;
  to_vec m := Some (m_id m / 256 :: m_id m mod 256 :: repeat 0 10 ++ bits (encode (body m)));
|}.

Lemma byte_bounds i : i < 65536 -> (i / 256 <? 256) = true /\ (i mod 256 <? 256) = true.
Proof.
  intros Hi. pose proof (N.mod_lt i 256 ltac:(lia)).
  pose proof (N.Div0.div_lt_upper_bound i 256 256). split; lia.
Qed.

#[export] Instance doc : HickoryDoc.
Proof.
  assert (Hd : forall n s, show_N n = 65 :: s -> False).
  { intros n s Hs. assert (is_ascii_digit 65 = true); [|done].
    apply (show_N_digits n). rewrite Hs. left. }
  constructor.
  - intros t u. cbn [rtype_debug types].
    destruct (t =? 1) eqn:Ht, (u =? 1) eqn:Hu; try lia;
      [destruct (u =? 28); [done|]|destruct (t =? 28); [done|]|].
    + intros Heq. by destruct (Hd u _ (eq_sym Heq)).
    + intros Heq. by destruct (Hd t _ Heq).
    + destruct (t =? 28) eqn:Ht', (u =? 28) eqn:Hu'; try lia; intros Heq.
      * by destruct (Hd u _ (eq_sym Heq)).
      * by destruct (Hd t _ Heq).
      * apply (f_equal (parse_uint (t + u))) in Heq. rewrite !parse_show_N in Heq by lia. congruence.
  - intros t. simpl. repeat case_match; try (by apply contains_char_false).
    intros Hin. by apply show_N_digits in Hin.
  - intros m data Hi. cbn [to_vec codec from_vec]. intros [= <-].
    destruct (byte_bounds _ Hi) as [-> ->]. simpl.
    rewrite drop_0, unbits_bits, decode_encode. simpl. f_equal.
    assert (256 * (m_id m / 256) + m_id m mod 256 = m_id m) as ->.
    { symmetry. by apply N.div_mod. }
    apply unbody_body.
  - intros data m. cbn [from_vec codec]. destruct data as [|hi [|lo rest]]; try done.
    destruct ((10 <=? length rest)%nat && (hi <? 256) && (lo <? 256)) eqn:Hb; [|done].
    destruct (decode _) as [w|] eqn:Hw; [|done]. simpl. intros [= <-]. split_bools.
    destruct w as [[[[[[t o] rd] ra] c] qs] rs]. split; [simpl; lia|]. split; [lia|].
    intros i Hi.
    transitivity (Some (unbody i (t, o, rd, ra, c, qs, rs))); [|done].
    transitivity (if (10 <=? length rest)%nat && (i / 256 <? 256) && (i mod 256 <? 256) then
         unbody (256 * (i / 256) + i mod 256) <$> (decode (unbits (drop 10 rest)) : option wire)
         else None); [done|].
    destruct (byte_bounds _ Hi) as [-> ->]. rewrite H, Hw, <- N.div_mod by lia. done.
Qed.
End RefHickory.
