(* ===== verification/Cache.v ===== *)
(** * The DNS response cache: src/dns/cache.rs

    A moka cache from the lowercased name and the record type to the wire
    format of a response, with a life per entry taken from the TTLs of the
    answer.  The life is that of the response that created the entry: the
    expiry policy has no [expire_after_update], so a response that replaces a
    live one inherits the time that one had left. *)
From S2P Require Import Prelude RustStr IpAddr Regex Moka Hickory.
Local Open Scope N_scope.

Definition TTL_MIN_SECS : N := 5.
Definition TTL_MAX_SECS : N := 86400.
Definition TTL_DEFAULT_SECS : N := 300.
Definition DNS_CACHE_MAX_CAPACITY : N := 50000.

(** [Duration::from_secs], in nanoseconds. *)
Definition secs (n : N) : N := n * 1000000000.
(** [Ord::clamp] *)
Definition clamp (n lo hi : N) : N := if n <? lo then lo else if hi <? n then hi else n.

Module Cache.
Section cache.
Context `{RustUnicode, Hickory, Moka}.

Record CacheEntry := { data : list N; ttl : N }.

(** [DnsCacheExpiry::expire_after_create] *)
Definition expire_after_create (key : str) (value : CacheEntry) : N := ttl value.

Definition DnsCache : Type := moka CacheEntry.

Definition new : DnsCache := moka_build_expiring DNS_CACHE_MAX_CAPACITY expire_after_create.

Definition cache_key (domain : str) (qtype : RecordType) : str :=
  to_lowercase domain ++ lit ":" ++ rtype_debug qtype.

Definition get (c : DnsCache) (now : N) (domain : str) (qtype : RecordType) : option (list N) :=
  data <$> moka_get c now (cache_key domain qtype).

Definition set_with_ttl (c : DnsCache) (now : N) (domain : str) (qtype : RecordType)
    (d : list N) (min_ttl : option N) : DnsCache :=
  let ttl_secs := clamp (default TTL_DEFAULT_SECS min_ttl) TTL_MIN_SECS TTL_MAX_SECS in
  moka_insert c now (cache_key domain qtype) {| data := d; ttl := secs ttl_secs |}.

Definition set (c : DnsCache) (now : N) (domain : str) (qtype : RecordType) (d : list N) : DnsCache :=
  set_with_ttl c now domain qtype d None.

Definition entry_count (c : DnsCache) : N := moka_entry_count c.
Definition invalidate_all (c : DnsCache) : DnsCache := moka_invalidate_all c.

(** ** What the cache promises *)

(** The history of a cache. *)
Inductive op :=
| Set_ (now : N) (domain : str) (qtype : RecordType) (d : list N) (min_ttl : option N)
| Flush.
Definition apply (c : DnsCache) (o : op) : DnsCache :=
  match o with
  | Set_ now domain qtype d min_ttl => set_with_ttl c now domain qtype d min_ttl
  | Flush => invalidate_all c
  end.
Definition run (os : list op) : DnsCache := fold_left apply os new.

(** The operation settles what the cache holds for the name and type. *)
Definition settles (domain : str) (qtype : RecordType) (o : op) : Prop :=
  match o with
  | Set_ _ domain' qtype' _ _ => to_lowercase domain' = to_lowercase domain /\ qtype' = qtype
  | Flush => True
  end.

Definition moka_of (o : op) : moka_op CacheEntry :=
  match o with
  | Set_ now domain qtype d min_ttl =>
      MInsert now (cache_key domain qtype)
        {| data := d; ttl := secs (clamp (default TTL_DEFAULT_SECS min_ttl) TTL_MIN_SECS TTL_MAX_SECS) |}
  | Flush => MInvalidateAll
  end.

Lemma run_moka os : run os = moka_run new (map moka_of os).
Proof.
  unfold run, moka_run. generalize new as c. induction os as [|o os IH]; intros c; [done|].
  simpl. rewrite IH. by destruct o.
Qed.

Lemma cache_key_inj `{!DnsCodec, !HickoryDoc} d q d' q' :
  cache_key d q = cache_key d' q' -> to_lowercase d = to_lowercase d' /\ q = q'.
Proof.
  unfold cache_key. intros Heq.
  assert (Hsplit : forall d q, rsplit_once (to_lowercase d ++ lit ":" ++ rtype_debug q) colon
    = Some (to_lowercase d, rtype_debug q)).
  { intros e r. unfold rsplit_once. rewrite !rev_app_distr, <- app_assoc. change (rev (lit ":")) with [colon]. simpl.
    rewrite split_once_app; [by rewrite !rev_involutive|].
    intros Hin. apply list_elem_of_In, in_rev, list_elem_of_In in Hin. by apply rtype_debug_no_colon in Hin. }
  pose proof (Hsplit d q) as H1'. rewrite Heq, Hsplit in H1'. injection H1' as Hd Hq.
  split; [done|]. symmetry. by apply rtype_debug_inj.
Qed.

Lemma clamp_bounds n lo hi : lo <= hi -> lo <= clamp n lo hi <= hi.
Proof. unfold clamp. intros Hle. destruct (n <? lo) eqn:?, (hi <? n) eqn:?; lia. Qed.

(** The life of the entry a set makes, in seconds. *)
Definition life_of (min_ttl : option N) : N := clamp (default TTL_DEFAULT_SECS min_ttl) TTL_MIN_SECS TTL_MAX_SECS.

(** A set of the cache's history, from the insertion of moka's. *)
Lemma set_of_insert `{!DnsCodec, !HickoryDoc} os before t domain qtype e after :
  map moka_of os = before ++ MInsert t (cache_key domain qtype) e :: after ->
  exists os1 domain' min_ttl os2, os = os1 ++ Set_ t domain' qtype (data e) min_ttl :: os2 /\
    to_lowercase domain' = to_lowercase domain /\ ttl e = secs (life_of min_ttl) /\ after = map moka_of os2.
Proof.
  intros Hos. apply map_eq_app in Hos as (os1 & os2 & -> & <- & Hos).
  apply map_eq_cons in Hos as (o & os3 & -> & Ho & <-).
  destruct o as [t' dom' q' d' m|]; [|done]. simpl in Ho. injection Ho as -> Hk <-.
  apply cache_key_inj in Hk as [Hdom ->]. by exists os1, dom', m, os3.
Qed.
Lemma existsb_moka (f : moka_op CacheEntry -> bool) os o :
  existsb f (map moka_of os) = false -> o ∈ os -> f (moka_of o) = false.
Proof.
  intros Hf Hin. destruct (f (moka_of o)) eqn:Ho; [|done]. rewrite <- Hf. symmetry. apply existsb_exists.
  exists (moka_of o). split; [by apply in_map, list_elem_of_In|done].
Qed.

(** What a hit is in the history of the cache: the last set of the name and
    type, and a set of them that has created a live entry. *)
Lemma get_run `{!DnsCodec, !HickoryDoc, !MokaDoc} os now domain qtype d :
  get (run os) now domain qtype = Some d ->
  (exists before t domain' min_ttl after,
    os = before ++ Set_ t domain' qtype d min_ttl :: after /\
    to_lowercase domain' = to_lowercase domain /\
    Forall (fun o => ~ settles domain qtype o) after) /\
  (exists before t0 domain' d0 min_ttl after,
    os = before ++ Set_ t0 domain' qtype d0 min_ttl :: after /\
    to_lowercase domain' = to_lowercase domain /\
    Flush ∉ after /\
    now < t0 + secs (life_of min_ttl)).
Proof.
  unfold get. rewrite run_moka. intros Hget.
  apply fmap_Some in Hget as (e & Hget & ->).
  apply moka_expiring_hit in Hget as [(b & t & a & Hos & Ha) (b0 & t0 & e0 & a0 & Hos0 & Ha0 & Hnow)]. split.
  - apply set_of_insert in Hos as (os1 & dom' & m & os2 & -> & Hd & _ & ->).
    exists os1, t, dom', m, os2. repeat split; [done|]. apply Forall_forall. intros o Hin Hs.
    pose proof (existsb_moka _ _ _ Ha Hin) as Ho.
    destruct o as [t2 d2 q2 x2 m2|]; [|done]. simpl in Hs, Ho. destruct Hs as [Hd2 ->].
    apply bool_decide_eq_false in Ho. apply Ho. unfold cache_key. by rewrite Hd2.
  - apply set_of_insert in Hos0 as (os1 & dom' & m & os2 & -> & Hd & Ht & ->).
    exists os1, t0, dom', (data e0), m, os2. repeat split; [done| |].
    + intros Hin. by pose proof (existsb_moka _ _ _ Ha0 Hin).
    + unfold expire_after_create in Hnow. by rewrite <- Ht.
Qed.

(** C29: A hit is never another name's or type's response, never an overwritten
    or flushed one: after any history, what [get] gives is what the last
    operation that settles the name (up to case) and the type has set.  And it
    is given only while the TTL of a response set for that name and type since
    the last flush is not over, a TTL brought between five seconds and one day
    that is five minutes when the response had no answer: so for its own TTL
    at most, unless it replaced another response; the one that replaces a live
    one keeps that one's deadline. *)
Theorem cache_hit_sound `{!DnsCodec, !HickoryDoc, !MokaDoc} os now domain qtype d :
  get (run os) now domain qtype = Some d ->
  (exists before t domain' min_ttl after,
    os = before ++ Set_ t domain' qtype d min_ttl :: after /\
    to_lowercase domain' = to_lowercase domain /\
    Forall (fun o => ~ settles domain qtype o) after) /\
  (exists before t0 domain' d0 min_ttl after,
    os = before ++ Set_ t0 domain' qtype d0 min_ttl :: after /\
    to_lowercase domain' = to_lowercase domain /\
    Flush ∉ after /\
    let life := clamp (default 300 min_ttl) 5 86400 in
    now < t0 + life * 1000000000 /\ 5 <= life <= 86400).
Proof.
  intros Hget. destruct (get_run os now domain qtype d Hget) as [Hlast (b & t0 & dom' & d0 & m & a & Hos & Hd & Ha & Hn)].
  split; [exact Hlast|]. exists b, t0, dom', d0, m, a. do 3 (split; [done|]). split; [exact Hn|by apply clamp_bounds].
Qed.

End cache.
End Cache.

Module CacheWitness.
Import AsciiUnicode RefHickory RefMoka Cache.

Definition history : list op :=
  [Set_ 0 (lit "Example.com.") 1 [1; 2] (Some 1); Set_ 5 (lit "example.com.") 28 [3] None].
(** Case does not matter, the type does, and the TTL of one second became
    five. *)
Example cache_tests :
  map (fun '(t, d, q) => get (run history) t (lit d) q)
    [(4000000000, "EXAMPLE.com.", 1); (5000000000, "example.com.", 1); (6000000000, "example.com.", 28);
     (4000000000, "example.org.", 1)]%string
  = [Some [1; 2]; None; Some [3]; None].
Proof. vm_compute. reflexivity. Qed.

(** Two queries that both miss set the same name: the second response, with
    a TTL of five seconds, replaces the first, with one of an hour, and is
    served for the hour; the other way around it is gone after five. *)
Example replaced_response :
  let twice ttl1 ttl2 := run [Set_ 0 (lit "a.com.") 1 [1] (Some ttl1); Set_ 1 (lit "a.com.") 1 [2] (Some ttl2)] in
  (get (twice 3600 5) 3500000000000 (lit "a.com.") 1, get (twice 5 3600) 5000000000 (lit "a.com.") 1)
  = (Some [2], None).
Proof. vm_compute. reflexivity. Qed.

Lemma cache_hit_sound_witness :
  exists before t domain' min_ttl after,
    history = before ++ Set_ t domain' 1 [1; 2] min_ttl :: after /\
    to_lowercase domain' = to_lowercase (lit "example.com.").
Proof.
  destruct (cache_hit_sound history 4000000000 (lit "example.com.") 1 [1; 2])
    as [(before & t & domain' & m & after & Hos & Hd & _) _]; [vm_compute; reflexivity|].
  by exists before, t, domain', m, after.
Defined.

End CacheWitness.
