(* ===== verification/Db.v ===== *)
(** * The database

    The tables of src/db/migrations as lists of rows in insertion order (the
    settings as a map, their key is unique), and the ways the sources query
    them.  PostgreSQL and [sqlx] are not under src/: a statement of the
    sources is a function on the tables, and any call may fail, which the
    predicate [faults] on the number of the call decides.  A time is a number
    of seconds where the sources compute with it, and the text of the column
    where they do not. *)
From S2P Require Import Prelude RustStr.
Local Open Scope N_scope.

(** ** Rows: src/db/models and the columns the statements name *)

(** A column whose type the sources and the migrations disagree on. *)
Inductive sql_value := SqlInt (z : Z) | SqlBool (b : bool).

Record CustomRule := {
  cr_id : str; cr_rule : str; cr_comment : option str; cr_is_enabled : bool;
  cr_created_by : str; cr_created_at : str; cr_expires_at : option str }.
Record FilterList := {
  fl_id : str; fl_name : str; fl_url : option str; fl_is_enabled : bool; fl_rule_count : Z;
  fl_last_updated : option str; fl_created_at : str; fl_update_interval_hours : Z }.
Record DnsRewrite := {
  dr_id : str; dr_domain : str; dr_answer : str; dr_created_by : str; dr_created_at : str }.
Record Client := {
  c_id : str; c_name : str; c_identifiers : str; c_upstreams : option str;
  c_filter_enabled : sql_value; c_tags : option str; c_created_at : str; c_updated_at : str }.
Record ClientGroup := {
  cg_id : Z; cg_name : str; cg_color : str; cg_description : option str; cg_priority : Z;
  cg_created_at : str; cg_updated_at : str }.
Record ClientGroupMembership := {
  cgm_id : Z; cgm_client_id : str; cgm_group_id : Z; cgm_created_at : str }.
Record ClientGroupRule := {
  cgr_id : Z; cgr_group_id : Z; cgr_rule_id : str; cgr_rule_type : str; cgr_priority : Z;
  cgr_created_at : str }.
Record ParentalCategory := {
  pc_id : str; pc_name : str; pc_description : option str; pc_level : str; pc_domains : str; pc_created_at : str }.
Record Upstream := {
  u_id : str; u_name : str; u_addresses : str; u_priority : Z; u_is_active : bool;
  u_health_check_enabled : bool; u_failover_enabled : bool; u_health_check_interval : Z;
  u_health_check_timeout : Z; u_failover_threshold : Z; u_health_status : str;
  u_last_health_check_at : option Z; u_last_failover_at : option Z;
  u_created_at : Z; u_updated_at : Z }.
Record FailoverLog := {
  fo_id : str; fo_upstream_id : str; fo_action : str; fo_reason : option str; fo_timestamp : Z }.
Record User := {
  usr_id : str; usr_username : str; usr_password : str; usr_role : str; usr_is_active : bool;
  usr_created_at : str; usr_updated_at : str }.
Record AuditLogEntry := {
  al_id : Z; al_time : str; al_user_id : str; al_username : str; al_action : str; al_resource : str;
  al_resource_id : option str; al_detail : option str; al_ip : str }.
Record Alert := {
  a_id : str; a_type : str; a_client_id : option str; a_message : str; a_is_read : Z; a_created_at : str }.
Record AlertMute := { am_alert_type : str; am_muted_until : option str; am_created_at : str }.
Record LatencySample := { ul_upstream_id : str; ul_latency_ms : Z; ul_success : Z; ul_checked_at : Z }.
Record QueryLogTemplate := {
  qt_id : str; qt_name : str; qt_filters : str; qt_logic : str; qt_created_by : str; qt_created_at : str;
  qt_is_public : bool }.
(** The query log entry of src/db/query_log_writer.rs, its time in
    nanoseconds, and the row it becomes: the number comes from the sequence of
    the table, the name of the client is never written. *)
Record QueryLogEntry := {
  q_time : N; q_client_ip : str; q_question : str; q_qtype : str; q_status : str;
  q_reason : option str; q_answer : option str; q_elapsed_ns : Z; q_upstream_ns : option Z;
  q_upstream_name : option str; q_app_id : option Z }.
Record QueryLogRow := { ql_id : Z; ql_client_name : option str; ql_entry :> QueryLogEntry }.
Record AppDomain := { ad_id : Z; ad_app_id : Z; ad_domain : str }.
Record AppRow := {
  ap_id : Z; ap_app_name : str; ap_category : str; ap_icon : str; ap_vendor : option str; ap_homepage : option str }.

(** ** The tables *)

Record Db := {
  custom_rules : list CustomRule;
  filter_lists : list FilterList;
  dns_rewrites : list DnsRewrite;
  settings : gmap str str;
  clients : list Client;
  client_groups : list ClientGroup;
  client_group_memberships : list ClientGroupMembership;
  client_group_rules : list ClientGroupRule;
  parental_control_categories : list ParentalCategory;
  dns_upstreams : list Upstream;
  upstream_failover_log : list FailoverLog;
  users : list User;
  audit_log : list AuditLogEntry;
  alerts : list Alert;
  alert_mutes : list AlertMute;
  upstream_latency_log : list LatencySample;
  query_log_templates : list QueryLogTemplate;
  query_log : list QueryLogRow;
  query_log_seq : Z;
  app_domains : list AppDomain;
  app_catalog : list AppRow;
}.

Definition empty_db : Db := {|
  custom_rules := [];
  filter_lists := [];
  dns_rewrites := [];
  settings := ∅;
  clients := [];
  client_groups := [];
  client_group_memberships := [];
  client_group_rules := [];
  parental_control_categories := [];
  dns_upstreams := [];
  upstream_failover_log := [];
  users := [];
  audit_log := [];
  alerts := [];
  alert_mutes := [];
  upstream_latency_log := [];
  query_log_templates := [];
  query_log := [];
  query_log_seq := 0%Z;
  app_domains := [];
  app_catalog := [] |}.

Definition set_custom_rules (d : Db) (x : list CustomRule) : Db := {|
  custom_rules := x;
  filter_lists := filter_lists d;
  dns_rewrites := dns_rewrites d;
  settings := settings d;
  clients := clients d;
  client_groups := client_groups d;
  client_group_memberships := client_group_memberships d;
  client_group_rules := client_group_rules d;
  parental_control_categories := parental_control_categories d;
  dns_upstreams := dns_upstreams d;
  upstream_failover_log := upstream_failover_log d;
  users := users d;
  audit_log := audit_log d;
  alerts := alerts d;
  alert_mutes := alert_mutes d;
  upstream_latency_log := upstream_latency_log d;
  query_log_templates := query_log_templates d;
  query_log := query_log d;
  query_log_seq := query_log_seq d;
  app_domains := app_domains d;
  app_catalog := app_catalog d |}.
Definition set_filter_lists (d : Db) (x : list FilterList) : Db := {|
  custom_rules := custom_rules d;
  filter_lists := x;
  dns_rewrites := dns_rewrites d;
  settings := settings d;
  clients := clients d;
  client_groups := client_groups d;
  client_group_memberships := client_group_memberships d;
  client_group_rules := client_group_rules d;
  parental_control_categories := parental_control_categories d;
  dns_upstreams := dns_upstreams d;
  upstream_failover_log := upstream_failover_log d;
  users := users d;
  audit_log := audit_log d;
  alerts := alerts d;
  alert_mutes := alert_mutes d;
  upstream_latency_log := upstream_latency_log d;
  query_log_templates := query_log_templates d;
  query_log := query_log d;
  query_log_seq := query_log_seq d;
  app_domains := app_domains d;
  app_catalog := app_catalog d |}.
Definition set_dns_rewrites (d : Db) (x : list DnsRewrite) : Db := {|
  custom_rules := custom_rules d;
  filter_lists := filter_lists d;
  dns_rewrites := x;
  settings := settings d;
  clients := clients d;
  client_groups := client_groups d;
  client_group_memberships := client_group_memberships d;
  client_group_rules := client_group_rules d;
  parental_control_categories := parental_control_categories d;
  dns_upstreams := dns_upstreams d;
  upstream_failover_log := upstream_failover_log d;
  users := users d;
  audit_log := audit_log d;
  alerts := alerts d;
  alert_mutes := alert_mutes d;
  upstream_latency_log := upstream_latency_log d;
  query_log_templates := query_log_templates d;
  query_log := query_log d;
  query_log_seq := query_log_seq d;
  app_domains := app_domains d;
  app_catalog := app_catalog d |}.
Definition set_settings (d : Db) (x : gmap str str) : Db := {|
  custom_rules := custom_rules d;
  filter_lists := filter_lists d;
  dns_rewrites := dns_rewrites d;
  settings := x;
  clients := clients d;
  client_groups := client_groups d;
  client_group_memberships := client_group_memberships d;
  client_group_rules := client_group_rules d;
  parental_control_categories := parental_control_categories d;
  dns_upstreams := dns_upstreams d;
  upstream_failover_log := upstream_failover_log d;
  users := users d;
  audit_log := audit_log d;
  alerts := alerts d;
  alert_mutes := alert_mutes d;
  upstream_latency_log := upstream_latency_log d;
  query_log_templates := query_log_templates d;
  query_log := query_log d;
  query_log_seq := query_log_seq d;
  app_domains := app_domains d;
  app_catalog := app_catalog d |}.
Definition set_clients (d : Db) (x : list Client) : Db := {|
  custom_rules := custom_rules d;
  filter_lists := filter_lists d;
  dns_rewrites := dns_rewrites d;
  settings := settings d;
  clients := x;
  client_groups := client_groups d;
  client_group_memberships := client_group_memberships d;
  client_group_rules := client_group_rules d;
  parental_control_categories := parental_control_categories d;
  dns_upstreams := dns_upstreams d;
  upstream_failover_log := upstream_failover_log d;
  users := users d;
  audit_log := audit_log d;
  alerts := alerts d;
  alert_mutes := alert_mutes d;
  upstream_latency_log := upstream_latency_log d;
  query_log_templates := query_log_templates d;
  query_log := query_log d;
  query_log_seq := query_log_seq d;
  app_domains := app_domains d;
  app_catalog := app_catalog d |}.
Definition set_client_groups (d : Db) (x : list ClientGroup) : Db := {|
  custom_rules := custom_rules d;
  filter_lists := filter_lists d;
  dns_rewrites := dns_rewrites d;
  settings := settings d;
  clients := clients d;
  client_groups := x;
  client_group_memberships := client_group_memberships d;
  client_group_rules := client_group_rules d;
  parental_control_categories := parental_control_categories d;
  dns_upstreams := dns_upstreams d;
  upstream_failover_log := upstream_failover_log d;
  users := users d;
  audit_log := audit_log d;
  alerts := alerts d;
  alert_mutes := alert_mutes d;
  upstream_latency_log := upstream_latency_log d;
  query_log_templates := query_log_templates d;
  query_log := query_log d;
  query_log_seq := query_log_seq d;
  app_domains := app_domains d;
  app_catalog := app_catalog d |}.
Definition set_client_group_memberships (d : Db) (x : list ClientGroupMembership) : Db := {|
  custom_rules := custom_rules d;
  filter_lists := filter_lists d;
  dns_rewrites := dns_rewrites d;
  settings := settings d;
  clients := clients d;
  client_groups := client_groups d;
  client_group_memberships := x;
  client_group_rules := client_group_rules d;
  parental_control_categories := parental_control_categories d;
  dns_upstreams := dns_upstreams d;
  upstream_failover_log := upstream_failover_log d;
  users := users d;
  audit_log := audit_log d;
  alerts := alerts d;
  alert_mutes := alert_mutes d;
  upstream_latency_log := upstream_latency_log d;
  query_log_templates := query_log_templates d;
  query_log := query_log d;
  query_log_seq := query_log_seq d;
  app_domains := app_domains d;
  app_catalog := app_catalog d |}.
Definition set_client_group_rules (d : Db) (x : list ClientGroupRule) : Db := {|
  custom_rules := custom_rules d;
  filter_lists := filter_lists d;
  dns_rewrites := dns_rewrites d;
  settings := settings d;
  clients := clients d;
  client_groups := client_groups d;
  client_group_memberships := client_group_memberships d;
  client_group_rules := x;
  parental_control_categories := parental_control_categories d;
  dns_upstreams := dns_upstreams d;
  upstream_failover_log := upstream_failover_log d;
  users := users d;
  audit_log := audit_log d;
  alerts := alerts d;
  alert_mutes := alert_mutes d;
  upstream_latency_log := upstream_latency_log d;
  query_log_templates := query_log_templates d;
  query_log := query_log d;
  query_log_seq := query_log_seq d;
  app_domains := app_domains d;
  app_catalog := app_catalog d |}.
Definition set_parental_control_categories (d : Db) (x : list ParentalCategory) : Db := {|
  custom_rules := custom_rules d;
  filter_lists := filter_lists d;
  dns_rewrites := dns_rewrites d;
  settings := settings d;
  clients := clients d;
  client_groups := client_groups d;
  client_group_memberships := client_group_memberships d;
  client_group_rules := client_group_rules d;
  parental_control_categories := x;
  dns_upstreams := dns_upstreams d;
  upstream_failover_log := upstream_failover_log d;
  users := users d;
  audit_log := audit_log d;
  alerts := alerts d;
  alert_mutes := alert_mutes d;
  upstream_latency_log := upstream_latency_log d;
  query_log_templates := query_log_templates d;
  query_log := query_log d;
  query_log_seq := query_log_seq d;
  app_domains := app_domains d;
  app_catalog := app_catalog d |}.
Definition set_dns_upstreams (d : Db) (x : list Upstream) : Db := {|
  custom_rules := custom_rules d;
  filter_lists := filter_lists d;
  dns_rewrites := dns_rewrites d;
  settings := settings d;
  clients := clients d;
  client_groups := client_groups d;
  client_group_memberships := client_group_memberships d;
  client_group_rules := client_group_rules d;
  parental_control_categories := parental_control_categories d;
  dns_upstreams := x;
  upstream_failover_log := upstream_failover_log d;
  users := users d;
  audit_log := audit_log d;
  alerts := alerts d;
  alert_mutes := alert_mutes d;
  upstream_latency_log := upstream_latency_log d;
  query_log_templates := query_log_templates d;
  query_log := query_log d;
  query_log_seq := query_log_seq d;
  app_domains := app_domains d;
  app_catalog := app_catalog d |}.
Definition set_upstream_failover_log (d : Db) (x : list FailoverLog) : Db := {|
  custom_rules := custom_rules d;
  filter_lists := filter_lists d;
  dns_rewrites := dns_rewrites d;
  settings := settings d;
  clients := clients d;
  client_groups := client_groups d;
  client_group_memberships := client_group_memberships d;
  client_group_rules := client_group_rules d;
  parental_control_categories := parental_control_categories d;
  dns_upstreams := dns_upstreams d;
  upstream_failover_log := x;
  users := users d;
  audit_log := audit_log d;
  alerts := alerts d;
  alert_mutes := alert_mutes d;
  upstream_latency_log := upstream_latency_log d;
  query_log_templates := query_log_templates d;
  query_log := query_log d;
  query_log_seq := query_log_seq d;
  app_domains := app_domains d;
  app_catalog := app_catalog d |}.
Definition set_users (d : Db) (x : list User) : Db := {|
  custom_rules := custom_rules d;
  filter_lists := filter_lists d;
  dns_rewrites := dns_rewrites d;
  settings := settings d;
  clients := clients d;
  client_groups := client_groups d;
  client_group_memberships := client_group_memberships d;
  client_group_rules := client_group_rules d;
  parental_control_categories := parental_control_categories d;
  dns_upstreams := dns_upstreams d;
  upstream_failover_log := upstream_failover_log d;
  users := x;
  audit_log := audit_log d;
  alerts := alerts d;
  alert_mutes := alert_mutes d;
  upstream_latency_log := upstream_latency_log d;
  query_log_templates := query_log_templates d;
  query_log := query_log d;
  query_log_seq := query_log_seq d;
  app_domains := app_domains d;
  app_catalog := app_catalog d |}.
Definition set_audit_log (d : Db) (x : list AuditLogEntry) : Db := {|
  custom_rules := custom_rules d;
  filter_lists := filter_lists d;
  dns_rewrites := dns_rewrites d;
  settings := settings d;
  clients := clients d;
  client_groups := client_groups d;
  client_group_memberships := client_group_memberships d;
  client_group_rules := client_group_rules d;
  parental_control_categories := parental_control_categories d;
  dns_upstreams := dns_upstreams d;
  upstream_failover_log := upstream_failover_log d;
  users := users d;
  audit_log := x;
  alerts := alerts d;
  alert_mutes := alert_mutes d;
  upstream_latency_log := upstream_latency_log d;
  query_log_templates := query_log_templates d;
  query_log := query_log d;
  query_log_seq := query_log_seq d;
  app_domains := app_domains d;
  app_catalog := app_catalog d |}.
Definition set_alerts (d : Db) (x : list Alert) : Db := {|
  custom_rules := custom_rules d;
  filter_lists := filter_lists d;
  dns_rewrites := dns_rewrites d;
  settings := settings d;
  clients := clients d;
  client_groups := client_groups d;
  client_group_memberships := client_group_memberships d;
  client_group_rules := client_group_rules d;
  parental_control_categories := parental_control_categories d;
  dns_upstreams := dns_upstreams d;
  upstream_failover_log := upstream_failover_log d;
  users := users d;
  audit_log := audit_log d;
  alerts := x;
  alert_mutes := alert_mutes d;
  upstream_latency_log := upstream_latency_log d;
  query_log_templates := query_log_templates d;
  query_log := query_log d;
  query_log_seq := query_log_seq d;
  app_domains := app_domains d;
  app_catalog := app_catalog d |}.
Definition set_alert_mutes (d : Db) (x : list AlertMute) : Db := {|
  custom_rules := custom_rules d;
  filter_lists := filter_lists d;
  dns_rewrites := dns_rewrites d;
  settings := settings d;
  clients := clients d;
  client_groups := client_groups d;
  client_group_memberships := client_group_memberships d;
  client_group_rules := client_group_rules d;
  parental_control_categories := parental_control_categories d;
  dns_upstreams := dns_upstreams d;
  upstream_failover_log := upstream_failover_log d;
  users := users d;
  audit_log := audit_log d;
  alerts := alerts d;
  alert_mutes := x;
  upstream_latency_log := upstream_latency_log d;
  query_log_templates := query_log_templates d;
  query_log := query_log d;
  query_log_seq := query_log_seq d;
  app_domains := app_domains d;
  app_catalog := app_catalog d |}.
Definition set_upstream_latency_log (d : Db) (x : list LatencySample) : Db := {|
  custom_rules := custom_rules d;
  filter_lists := filter_lists d;
  dns_rewrites := dns_rewrites d;
  settings := settings d;
  clients := clients d;
  client_groups := client_groups d;
  client_group_memberships := client_group_memberships d;
  client_group_rules := client_group_rules d;
  parental_control_categories := parental_control_categories d;
  dns_upstreams := dns_upstreams d;
  upstream_failover_log := upstream_failover_log d;
  users := users d;
  audit_log := audit_log d;
  alerts := alerts d;
  alert_mutes := alert_mutes d;
  upstream_latency_log := x;
  query_log_templates := query_log_templates d;
  query_log := query_log d;
  query_log_seq := query_log_seq d;
  app_domains := app_domains d;
  app_catalog := app_catalog d |}.
Definition set_query_log_templates (d : Db) (x : list QueryLogTemplate) : Db := {|
  custom_rules := custom_rules d;
  filter_lists := filter_lists d;
  dns_rewrites := dns_rewrites d;
  settings := settings d;
  clients := clients d;
  client_groups := client_groups d;
  client_group_memberships := client_group_memberships d;
  client_group_rules := client_group_rules d;
  parental_control_categories := parental_control_categories d;
  dns_upstreams := dns_upstreams d;
  upstream_failover_log := upstream_failover_log d;
  users := users d;
  audit_log := audit_log d;
  alerts := alerts d;
  alert_mutes := alert_mutes d;
  upstream_latency_log := upstream_latency_log d;
  query_log_templates := x;
  query_log := query_log d;
  query_log_seq := query_log_seq d;
  app_domains := app_domains d;
  app_catalog := app_catalog d |}.
Definition set_query_log (d : Db) (x : list QueryLogRow) : Db := {|
  custom_rules := custom_rules d;
  filter_lists := filter_lists d;
  dns_rewrites := dns_rewrites d;
  settings := settings d;
  clients := clients d;
  client_groups := client_groups d;
  client_group_memberships := client_group_memberships d;
  client_group_rules := client_group_rules d;
  parental_control_categories := parental_control_categories d;
  dns_upstreams := dns_upstreams d;
  upstream_failover_log := upstream_failover_log d;
  users := users d;
  audit_log := audit_log d;
  alerts := alerts d;
  alert_mutes := alert_mutes d;
  upstream_latency_log := upstream_latency_log d;
  query_log_templates := query_log_templates d;
  query_log := x;
  query_log_seq := query_log_seq d;
  app_domains := app_domains d;
  app_catalog := app_catalog d |}.
Definition set_query_log_seq (d : Db) (x : Z) : Db := {|
  custom_rules := custom_rules d;
  filter_lists := filter_lists d;
  dns_rewrites := dns_rewrites d;
  settings := settings d;
  clients := clients d;
  client_groups := client_groups d;
  client_group_memberships := client_group_memberships d;
  client_group_rules := client_group_rules d;
  parental_control_categories := parental_control_categories d;
  dns_upstreams := dns_upstreams d;
  upstream_failover_log := upstream_failover_log d;
  users := users d;
  audit_log := audit_log d;
  alerts := alerts d;
  alert_mutes := alert_mutes d;
  upstream_latency_log := upstream_latency_log d;
  query_log_templates := query_log_templates d;
  query_log := query_log d;
  query_log_seq := x;
  app_domains := app_domains d;
  app_catalog := app_catalog d |}.
Definition set_app_domains (d : Db) (x : list AppDomain) : Db := {|
  custom_rules := custom_rules d;
  filter_lists := filter_lists d;
  dns_rewrites := dns_rewrites d;
  settings := settings d;
  clients := clients d;
  client_groups := client_groups d;
  client_group_memberships := client_group_memberships d;
  client_group_rules := client_group_rules d;
  parental_control_categories := parental_control_categories d;
  dns_upstreams := dns_upstreams d;
  upstream_failover_log := upstream_failover_log d;
  users := users d;
  audit_log := audit_log d;
  alerts := alerts d;
  alert_mutes := alert_mutes d;
  upstream_latency_log := upstream_latency_log d;
  query_log_templates := query_log_templates d;
  query_log := query_log d;
  query_log_seq := query_log_seq d;
  app_domains := x;
  app_catalog := app_catalog d |}.
Definition set_app_catalog (d : Db) (x : list AppRow) : Db := {|
  custom_rules := custom_rules d;
  filter_lists := filter_lists d;
  dns_rewrites := dns_rewrites d;
  settings := settings d;
  clients := clients d;
  client_groups := client_groups d;
  client_group_memberships := client_group_memberships d;
  client_group_rules := client_group_rules d;
  parental_control_categories := parental_control_categories d;
  dns_upstreams := dns_upstreams d;
  upstream_failover_log := upstream_failover_log d;
  users := users d;
  audit_log := audit_log d;
  alerts := alerts d;
  alert_mutes := alert_mutes d;
  upstream_latency_log := upstream_latency_log d;
  query_log_templates := query_log_templates d;
  query_log := query_log d;
  query_log_seq := query_log_seq d;
  app_domains := app_domains d;
  app_catalog := x |}.

(** ** Calls *)

Inductive DbError :=
| DbFault          (* the server or the connection failed *)
| RowNotFound
| ColumnDecode     (* the column is not of the type asked for *)
| UniqueViolation
| CheckViolation
| ForeignKeyViolation
| DatatypeMismatch  (* a value is not of the type of its column or of its cast *)
| UndefinedColumn
| NumericOutOfRange
| InvalidRowCount  (* a negative LIMIT or OFFSET *)
| SyntaxError      (* the text is no statement *)
| WrongParameters. (* fewer values are bound than the statement has parameters *)

Record DbState := { tables : Db; calls : N; faults : N -> bool }.

(** A state that holds the connection to the database. *)
Class HasDb (S : Type) := { db_of : S -> DbState; with_db : S -> DbState -> S }.
Class HasDbLaws (S : Type) `{HasDb S} := {
  db_of_with : forall s d, db_of (with_db s d) = d;
  with_db_with : forall s d d', with_db (with_db s d) d' = with_db s d';
  with_db_of : forall s, with_db s (db_of s) = s }.

#[export] Instance DbState_HasDb : HasDb DbState := { db_of s := s; with_db _ d := d }.
#[export] Instance DbState_HasDbLaws : HasDbLaws DbState.
Proof. by constructor. Qed.

Section calls.
Context {S : Type} `{HasDb S}.

Definition tick (d : DbState) : DbState :=
  {| tables := tables d; calls := calls d + 1; faults := faults d |}.
Definition store (d : DbState) (t : Db) : DbState :=
  {| tables := t; calls := calls d; faults := faults d |}.

(** [fetch_all] and the other reading calls: the statement can fail itself. *)
Definition query {A} (q : Db -> result A DbError) : M S DbError A := fun s =>
  let d := db_of s in
  (if faults d (calls d) then Err DbFault else q (tables d), with_db s (tick d)).
Definition fetch_all {A} (q : Db -> list A) : M S DbError (list A) := query (fun t => Ok (q t)).
Definition fetch_optional {A} (q : Db -> option A) : M S DbError (option A) := query (fun t => Ok (q t)).
Definition fetch_one {A} (q : Db -> option A) : M S DbError A :=
  query (fun t => ok_or (q t) RowNotFound).
(** [execute] of a statement that changes the tables. *)
Definition execute {A} (f : Db -> result (A * Db) DbError) : M S DbError A := fun s =>
  let d := tick (db_of s) in
  if faults d (calls (db_of s)) then (Err DbFault, with_db s d)
  else match f (tables d) with
       | Ok (a, t) => (Ok a, with_db s (store d t))
       | Err e => (Err e, with_db s d)
       end.

(** [begin], the statements, [commit]: when any of them fails the tables are
    what they were at the beginning. *)
Definition rollback (t : Db) (s : S) : S := with_db s (store (db_of s) t).
Definition transaction {A} (m : M S DbError A) : M S DbError A := fun s =>
  match query (fun _ => Ok tt) s with
  | (Err e, s1) => (Err e, s1)
  | (Ok _, s1) =>
      match m s1 with
      | (Err e, s2) => (Err e, rollback (tables (db_of s)) s2)
      | (Ok a, s2) =>
          match query (fun _ => Ok tt) s2 with
          | (Err e, s3) => (Err e, rollback (tables (db_of s)) s3)
          | (Ok _, s3) => (Ok a, s3)
          end
      end
  end.

(** [SELECT value FROM settings WHERE key = ..] *)
Definition setting (k : str) (t : Db) : option str := settings t !! k.

(** The connection works from now on. *)
Definition db_works (s : S) : Prop := forall n, faults (db_of s) n = false.

Context `{!HasDbLaws S}.

Lemma query_run {A} (q : Db -> result A DbError) s :
  db_works s -> query q s = (q (tables (db_of s)), with_db s (tick (db_of s))).
Proof. unfold query. by intros ->. Qed.

Lemma db_works_tick s : db_works s -> db_works (with_db s (tick (db_of s))).
Proof. unfold db_works. by rewrite db_of_with. Qed.

(** Reading leaves everything but the count of calls as it was. *)
Definition reads_only {E A} (m : M S E A) : Prop :=
  forall s, exists n, snd (m s) =
    with_db s {| tables := tables (db_of s); calls := n; faults := faults (db_of s) |}.

Lemma reads_query {A} (q : Db -> result A DbError) : reads_only (query q).
Proof. intros s. by exists (calls (db_of s) + 1). Qed.

Lemma reads_ret {E A} (a : A) : reads_only (ret (E:=E) a).
Proof.
  intros s. exists (calls (db_of s)). simpl. rewrite <- (with_db_of s) at 1. by destruct (db_of s).
Qed.

Lemma reads_bind {E A B} (m : M S E A) (k : A -> M S E B) :
  reads_only m -> (forall a, reads_only (k a)) -> reads_only (bind m k).
Proof.
  intros Hm Hk s. unfold bind. destruct (Hm s) as [n Hn]. destruct (m s) as [[a|e] s1]; simpl in Hn; subst s1.
  - destruct (Hk a (with_db s {| tables := tables (db_of s); calls := n; faults := faults (db_of s) |})) as [n' Hn'].
    exists n'. by rewrite Hn', db_of_with, with_db_with.
  - by exists n.
Qed.

Lemma reads_catch {E F A} (m : M S E A) : reads_only m -> reads_only (catch (F:=F) m).
Proof. intros Hm s. destruct (Hm s) as [n Hn]. exists n. unfold catch. by destruct (m s). Qed.

Lemma reads_map_err {E F A} (f : E -> F) (m : M S E A) : reads_only m -> reads_only (mmap_err f m).
Proof. intros Hm s. destruct (Hm s) as [n Hn]. exists n. unfold mmap_err. by destruct (m s). Qed.

(** On a working connection the computation reads the tables only, and gives
    what the function [f] says of them. *)
Definition computes {E A} (m : M S E A) (f : Db -> result A E) : Prop :=
  forall s, db_works s -> exists n, m s =
    (f (tables (db_of s)), with_db s {| tables := tables (db_of s); calls := n; faults := faults (db_of s) |}).

Lemma computes_query {A} (q : Db -> result A DbError) : computes (query q) q.
Proof. intros s Hs. exists (calls (db_of s) + 1). unfold query. by rewrite Hs. Qed.

Lemma computes_ret {E A} (a : A) : computes (ret (E:=E) a) (fun _ => Ok a).
Proof.
  intros s _. exists (calls (db_of s)). unfold ret. f_equal.
  rewrite <- (with_db_of s) at 1. by destruct (db_of s).
Qed.

Lemma computes_bind {E A B} (m : M S E A) (k : A -> M S E B) f g :
  computes m f -> (forall a, computes (k a) (g a)) ->
  computes (bind m k) (fun t => match f t with Ok a => g a t | Err e => Err e end).
Proof.
  intros Hm Hk s Hs. destruct (Hm s Hs) as [n Hn]. unfold bind. rewrite Hn.
  destruct (f (tables (db_of s))) as [a|e]; [|by exists n].
  set (s1 := with_db s _). destruct (Hk a s1) as [n' Hn'].
  - unfold db_works, s1. by rewrite db_of_with.
  - exists n'. rewrite Hn'. unfold s1. by rewrite db_of_with, with_db_with.
Qed.

Lemma computes_catch {E F A} (m : M S E A) f :
  computes m f -> computes (catch (F:=F) m) (fun t => Ok (f t)).
Proof. intros Hm s Hs. destruct (Hm s Hs) as [n Hn]. exists n. unfold catch. by rewrite Hn. Qed.

Lemma computes_map_err {E F A} (h : E -> F) (m : M S E A) f :
  computes m f -> computes (mmap_err h m) (fun t => map_err h (f t)).
Proof. intros Hm s Hs. destruct (Hm s Hs) as [n Hn]. exists n. unfold mmap_err. by rewrite Hn. Qed.

Lemma computes_ext {E A} (m : M S E A) f g :
  (forall t, f t = g t) -> computes m f -> computes m g.
Proof. intros Hfg Hm s Hs. destruct (Hm s Hs) as [n Hn]. exists n. by rewrite Hn, Hfg. Qed.

(** What a computation does to the tables on a working connection, and that it
    does nothing else to the state than use the connection. *)
Definition runs {E A} (m : M S E A) (s : S) (r : result A E) (t : Db) : Prop :=
  exists n, m s = (r, with_db s {| tables := t; calls := n; faults := faults (db_of s) |}).

Lemma runs_query {A} (q : Db -> result A DbError) s : db_works s -> runs (query q) s (q (tables (db_of s))) (tables (db_of s)).
Proof. apply computes_query. Qed.

Lemma runs_computes {E A} (m : M S E A) f s :
  computes m f -> db_works s -> runs m s (f (tables (db_of s))) (tables (db_of s)).
Proof. intros Hm Hs. exact (Hm s Hs). Qed.

Lemma runs_execute {A} (f : Db -> result (A * Db) DbError) s :
  db_works s ->
  match f (tables (db_of s)) with
  | Ok (a, t) => runs (execute f) s (Ok a) t
  | Err e => runs (execute f) s (Err e) (tables (db_of s))
  end.
Proof.
  intros Hs. destruct (f (tables (db_of s))) as [[a t]|e] eqn:Hf; exists (calls (db_of s) + 1);
    unfold execute; cbn [tick tables faults]; rewrite Hs, Hf; done.
Qed.

Lemma runs_ret {E A} (a : A) s : runs (ret (E:=E) a) s (Ok a) (tables (db_of s)).
Proof.
  exists (calls (db_of s)). unfold ret. f_equal. rewrite <- (with_db_of s) at 1. by destruct (db_of s).
Qed.

Lemma runs_fail {E A} (e : E) s : runs (fail (A:=A) e) s (Err e) (tables (db_of s)).
Proof.
  exists (calls (db_of s)). unfold fail. f_equal. rewrite <- (with_db_of s) at 1. by destruct (db_of s).
Qed.

Lemma runs_bind {E A B} (m : M S E A) (k : A -> M S E B) s a t r u :
  db_works s -> runs m s (Ok a) t ->
  (forall s', db_works s' -> tables (db_of s') = t -> runs (k a) s' r u) -> runs (bind m k) s r u.
Proof.
  intros Hs [n Hn] Hk. unfold runs, bind. rewrite Hn. set (s1 := with_db s _).
  destruct (Hk s1) as [n' Hn'].
  - unfold db_works, s1. by rewrite db_of_with.
  - unfold s1. by rewrite db_of_with.
  - exists n'. rewrite Hn'. unfold s1. by rewrite db_of_with, with_db_with.
Qed.

Lemma runs_bind_err {E A B} (m : M S E A) (k : A -> M S E B) s e t :
  runs m s (Err e) t -> runs (bind m k) s (Err e) t.
Proof. intros [n Hn]. exists n. unfold bind. by rewrite Hn. Qed.

Lemma runs_map_err {E F A} (f : E -> F) (m : M S E A) s r t :
  runs m s r t -> runs (mmap_err f m) s (map_err f r) t.
Proof. intros [n Hn]. exists n. unfold mmap_err. by rewrite Hn. Qed.

Lemma runs_catch {E F A} (m : M S E A) s r t : runs m s r t -> runs (catch (F:=F) m) s (Ok r) t.
Proof. intros [n Hn]. exists n. unfold catch. by rewrite Hn. Qed.

Lemma runs_transaction {A} (m : M S DbError A) s r t :
  db_works s ->
  (forall s', db_works s' -> tables (db_of s') = tables (db_of s) -> runs m s' r t) ->
  runs (transaction m) s r (if is_ok r then t else tables (db_of s)).
Proof.
  intros Hs Hm. unfold runs, transaction. rewrite query_run by done.
  set (s1 := with_db s (tick (db_of s))).
  destruct (Hm s1) as [n Hn]; [by apply db_works_tick|unfold s1; by rewrite db_of_with|].
  rewrite Hn. unfold s1. rewrite db_of_with, with_db_with. destruct r as [a|e]; cbn [is_ok].
  - rewrite query_run; [|unfold db_works; rewrite db_of_with; exact Hs].
    exists (n + 1). by rewrite db_of_with, with_db_with.
  - exists n. unfold rollback. by rewrite db_of_with, with_db_with.
Qed.

(** *** Calls that succeeded *)

Lemma execute_Ok {A} (f : Db -> result (A * Db) DbError) s a s' :
  execute f s = (Ok a, s') ->
  f (tables (db_of s)) = Ok (a, tables (db_of s')) /\ faults (db_of s') = faults (db_of s).
Proof.
  unfold execute. cbn [tick tables]. destruct (faults _ _); [done|].
  destruct (f _) as [[b t]|e]; [|done]. intros [= -> <-]. by rewrite db_of_with.
Qed.

Lemma query_Ok {A} (q : Db -> result A DbError) s a s' :
  query q s = (Ok a, s') ->
  q (tables (db_of s)) = Ok a /\ tables (db_of s') = tables (db_of s) /\ faults (db_of s') = faults (db_of s).
Proof.
  unfold query. destruct (faults _ _); [done|]. intros [= -> <-]. by rewrite db_of_with.
Qed.

Lemma transaction_Ok {A} (m : M S DbError A) s a s' :
  transaction m s = (Ok a, s') ->
  exists s1 s2, tables (db_of s1) = tables (db_of s) /\ m s1 = (Ok a, s2) /\ tables (db_of s') = tables (db_of s2).
Proof.
  unfold transaction. destruct (query _ s) as [[u|e] s1] eqn:H1; [|done].
  destruct (m s1) as [[b|e] s2] eqn:Hm; [|done]. destruct (query _ s2) as [[v|e] s3] eqn:H3; [|done].
  intros [= -> <-]. apply query_Ok in H1 as (_ & H1 & _), H3 as (_ & H3 & _). by exists s1, s2.
Qed.

Lemma execute_Err {A} (f : Db -> result (A * Db) DbError) s e s' :
  execute f s = (Err e, s') -> tables (db_of s') = tables (db_of s).
Proof.
  unfold execute. cbn [tick tables]. destruct (faults _ _); [intros [= _ <-]; by rewrite db_of_with|].
  destruct (f _) as [[b t]|e']; [done|]. intros [= _ <-]. by rewrite db_of_with.
Qed.

(** Whatever fails: a transaction that fails leaves the tables alone. *)
Definition frames {E A} (m : M S E A) : Prop :=
  forall s, exists d, faults d = faults (db_of s) /\ snd (m s) = with_db s d.

Lemma frames_reads {E A} (m : M S E A) : reads_only m -> frames m.
Proof. intros Hm s. destruct (Hm s) as [n ->]. eexists; split; [|reflexivity]; done. Qed.

Lemma frames_execute {A} (f : Db -> result (A * Db) DbError) : frames (execute f).
Proof.
  intros s. unfold execute. destruct (faults _ _); [eexists; split; [|reflexivity]; done|].
  destruct (f _) as [[a t]|e]; (eexists; split; [|reflexivity]; done).
Qed.

Lemma frames_bind {E A B} (m : M S E A) (k : A -> M S E B) :
  frames m -> (forall a, frames (k a)) -> frames (bind m k).
Proof.
  intros Hm Hk s. unfold bind. destruct (Hm s) as (d & Hf & Hd). destruct (m s) as [[a|e] s1]; simpl in Hd; subst s1.
  - destruct (Hk a (with_db s d)) as (d' & Hf' & Hd'). exists d'. rewrite Hd', with_db_with.
    split; [|done]. by rewrite Hf', db_of_with.
  - by exists d.
Qed.

Lemma frames_transaction {A} (m : M S DbError A) : frames m -> frames (transaction m).
Proof.
  intros Hm s. unfold transaction, query. cbn beta zeta. destruct (faults (db_of s) _); [eexists; split; [|reflexivity]; done|].
  set (s1 := with_db s (tick (db_of s))). destruct (Hm s1) as (d & Hf & Hd).
  unfold s1 in Hf. rewrite db_of_with in Hf.
  destruct (m s1) as [[a|e] s2]; simpl in Hd; subst s2; unfold s1, rollback; rewrite !db_of_with, !with_db_with.
  - destruct (faults d _); cbn [snd]; rewrite ?db_of_with, ?with_db_with; eexists; (split; [|reflexivity]); done.
  - cbn [snd]. eexists. split; [|reflexivity]. done.
Qed.

Lemma transaction_atomic {A} (m : M S DbError A) s e s' :
  frames m -> transaction m s = (Err e, s') -> tables (db_of s') = tables (db_of s).
Proof.
  intros Hm. unfold transaction, query. cbn beta zeta. destruct (faults (db_of s) _).
  { intros [= _ <-]. by rewrite db_of_with. }
  set (s1 := with_db s (tick (db_of s))).
  destruct (m s1) as [[a|e'] s2].
  - destruct (faults (db_of s2) _); [|done]. intros [= _ <-]. unfold rollback. by rewrite !db_of_with.
  - intros [= _ <-]. unfold rollback. by rewrite db_of_with.
Qed.

End calls.

(** Decompose a computation into its calls. *)
Ltac solve_reads := repeat first
  [ assumption
  | lazymatch goal with
    | |- reads_only (bind _ _) => apply reads_bind; [|intros ?]
    | |- reads_only (catch _) => apply reads_catch
    | |- reads_only (mmap_err _ _) => apply reads_map_err
    | |- reads_only (query _) => apply reads_query
    | |- reads_only (fetch_all _) => apply reads_query
    | |- reads_only (fetch_one _) => apply reads_query
    | |- reads_only (fetch_optional _) => apply reads_query
    | |- reads_only (ret _) => apply reads_ret
    | |- reads_only (if ?b then _ else _) => destruct b
    end ].
Ltac solve_computes := repeat first
  [ eassumption
  | lazymatch goal with
    | |- computes (bind _ _) _ => eapply computes_bind; [|intros ?]
    | |- computes (catch _) _ => eapply computes_catch
    | |- computes (mmap_err _ _) _ => eapply computes_map_err
    | |- computes (query _) _ => eapply computes_query
    | |- computes (fetch_all _) _ => eapply computes_query
    | |- computes (fetch_one _) _ => eapply computes_query
    | |- computes (fetch_optional _) _ => eapply computes_query
    | |- computes (ret _) _ => eapply computes_ret
    end ].

(** ** Crates *)

(** [serde_json] on the columns that hold JSON. *)
Class SerdeJson := {
  (** [serde_json::from_str::<Vec<String>>] *)
  json_strings : str -> option (list str);
  (** [serde_json::from_str::<Vec<Value>>] with [as_str] on every element *)
  json_values : str -> option (list (option str));
  (** [serde_json::to_string] of a [Vec<String>] *)
  json_of_strings : list str -> str;
}.
Class SerdeJsonDoc `{SerdeJson} := {
  json_roundtrip : forall l, json_strings (json_of_strings l) = Some l;
  json_none : json_strings (lit "[]") = Some [] }.
(** The order and the lower case of texts of the server's collation. *)
Class Collation := { text_lt : str -> str -> bool; sql_lower : str -> str }.

(** The server's reading of a text as a time with a zone, in seconds; the
    text of a time it stored, in nanoseconds; and the elements of a text that is a JSON
    array, a null for [None]. *)
Class SqlTime := { timestamptz : str -> option Z; timestamptz_text : N -> str }.
Class SqlJson := { json_array_elements_text : str -> option (list (option str)) }.

(** [serde_json::Value], its reader [from_str] and its writers [to_string]
    and [to_string_pretty]. *)
Inductive Value :=
| VNull
| VBool (b : bool)
| VNumber (text : str)
| VString (s : str)
| VArray (l : list Value)
| VObject (fields : list (str * Value)).
Class SerdeValue := { value_from_str : str -> option Value; to_string : Value -> str; to_string_pretty : Value -> str }.
Definition value_get (k : str) (fields : list (str * Value)) : option Value := snd <$> find (fun f => fst f =s? k) fields.
Definition as_array (v : Value) : option (list Value) := match v with VArray l => Some l | _ => None end.
Definition as_str (v : Value) : option str := match v with VString s => Some s | _ => None end.

(** References for both: arrays of strings without escapes, and the order of
    the code points. *)
Module RefJson.
(** The rest of a string after its first quote, and the strings of an array
    after its bracket. *)
Fixpoint read_str (s acc : str) : option (str * str) :=
  match s with
  | [] => None
  | c :: s' =>
      if c =? 34 then Some (acc, s')
      else if c =? 92 then match s' with [] => None | d :: s'' => read_str s'' (acc ++ [d]) end
      else read_str s' (acc ++ [c])
  end.
Fixpoint read_list (fuel : nat) (s : str) : option (list str) :=
  match fuel, s with
  | Datatypes.S f, 32 :: s' => read_list f s'
  | Datatypes.S f, 34 :: s' =>
      match read_str s' [] with
      | Some (w, 93 :: []) => Some [w]
      | Some (w, 44 :: r) => match read_list f r with Some ws => Some (w :: ws) | None => None end
      | _ => None
      end
  | _, _ => None
  end.
Definition parse_strings (s : str) : option (list str) :=
  match s with
  | [91; 93] => Some []
  | 91 :: s' => read_list (length s') s'
  | _ => None
  end.
Definition escape (w : str) : str := flat_map (fun c => if (c =? 34) || (c =? 92) then [92; c] else [c]) w.
#[export] Instance json : SerdeJson := {
  json_strings := parse_strings;
  json_values s := map Some <$> parse_strings s;
  json_of_strings l := 91 :: join (lit ",") (map (fun w => 34 :: escape w ++ [34]) l) ++ [93] }.
#[export] Instance collation : Collation := { text_lt s t := negb (str_leb t s); sql_lower s := map to_ascii_lower s }.
Lemma read_escaped w r acc : read_str (escape w ++ 34 :: r) acc = Some (acc ++ w, r).
Proof.
  revert acc. induction w as [|c w IH]; intros acc; [by rewrite app_nil_r|]. cbn [escape flat_map].
  destruct ((c =? 34) || (c =? 92)) eqn:Hc; cbn [app read_str].
  - change (92 =? 34) with false. change (92 =? 92) with true. cbn iota. rewrite IH. by rewrite <- app_assoc.
  - apply orb_false_iff in Hc as [-> ->]. rewrite IH. by rewrite <- app_assoc.
Qed.
Lemma read_written w ws fuel :
  (length ws < fuel)%nat -> read_list fuel (join (lit ",") (map (fun w => 34 :: escape w ++ [34]) (w :: ws)) ++ [93]) = Some (w :: ws).
Proof.
  revert w fuel. induction ws as [|v ws IH]; intros w fuel Hf; (destruct fuel as [|fuel]; [simpl in Hf; lia|]).
  - cbn [map join app read_list]. rewrite <- app_assoc. cbn [app]. by rewrite read_escaped.
  - change (join (lit ",") (map (fun w => 34 :: escape w ++ [34]) (w :: v :: ws))) with
      ((34 :: escape w ++ [34]) ++ 44 :: join (lit ",") (map (fun w => 34 :: escape w ++ [34]) (v :: ws))).
    rewrite <- !app_assoc. cbn [app read_list]. rewrite <- app_assoc. cbn [app]. rewrite read_escaped. cbn [app].
    rewrite IH by (simpl in Hf |- *; lia). done.
Qed.
#[export] Instance doc : SerdeJsonDoc.
Proof.
  constructor; [|done]. intros [|w ws]; [done|]. cbn [json_strings json_of_strings json]. unfold parse_strings.
  set (text := join _ _ ++ [93]). assert (Hlen : (length ws < length text)%nat).
  { unfold text. rewrite length_app. clear. revert w. induction ws as [|v ws IH]; intros w; simpl in *; [lia|].
    specialize (IH v). repeat (rewrite length_app in * || simpl in * ). lia. }
  assert (Hr : read_list (length text) text = Some (w :: ws)) by (by apply read_written).
  assert (Ht : exists t, text = 34 :: t) by (unfold text; destruct ws; cbn [map join app]; eauto).
  destruct Ht as [t Ht]. rewrite Ht in Hr |- *. exact Hr.
Qed.
Example json_tests :
  (json_strings (json_of_strings [lit "a.com"; lit "b.com"]), json_strings (lit "[]"), json_strings (lit "x"))
  = (Some [lit "a.com"; lit "b.com"], Some [], None).
Proof. vm_compute. reflexivity. Qed.
End RefJson.

(** JSON texts without escapes and numbers. *)
Module RefValue.
Definition skip := trim_start_by is_whitespace.
Fixpoint read (fuel : nat) (s : str) : option (Value * str) :=
  match fuel with
  | O => None
  | Datatypes.S f =>
      match skip s with
      | 34 :: r => match split_once r 34 with Some (a, b) => Some (VString a, b) | None => None end
      | 91 :: r => match skip r with 93 :: r' => Some (VArray [], r') | _ => read_items f r [] end
      | 123 :: r => match skip r with 125 :: r' => Some (VObject [], r') | _ => read_fields f r [] end
      | s' =>
          match strip_prefix s' (lit "true"), strip_prefix s' (lit "false"), strip_prefix s' (lit "null") with
          | Some r, _, _ => Some (VBool true, r)
          | _, Some r, _ => Some (VBool false, r)
          | _, _, Some r => Some (VNull, r)
          | _, _, _ => None
          end
      end
  end
with read_items (fuel : nat) (s : str) (acc : list Value) : option (Value * str) :=
  match fuel with
  | O => None
  | Datatypes.S f =>
      match read f s with
      | Some (v, r) =>
          match skip r with
          | 44 :: r' => read_items f r' (acc ++ [v])
          | 93 :: r' => Some (VArray (acc ++ [v]), r')
          | _ => None
          end
      | None => None
      end
  end
with read_fields (fuel : nat) (s : str) (acc : list (str * Value)) : option (Value * str) :=
  match fuel with
  | O => None
  | Datatypes.S f =>
      match read f s with
      | Some (VString k, r) =>
          match skip r with
          | 58 :: r1 =>
              match read f r1 with
              | Some (v, r2) =>
                  match skip r2 with
                  | 44 :: r' => read_fields f r' (acc ++ [(k, v)])
                  | 125 :: r' => Some (VObject (acc ++ [(k, v)]), r')
                  | _ => None
                  end
              | None => None
              end
          | _ => None
          end
      | _ => None
      end
  end.
Fixpoint show (v : Value) : str :=
  match v with
  | VNull => lit "null" | VBool b => show_bool b | VNumber t => t | VString s => 34 :: s ++ [34]
  | VArray l => 91 :: join (lit ",") (map show l) ++ [93]
  | VObject fs => 123 :: join (lit ",") (map (fun f => 34 :: fst f ++ [34; 58] ++ show (snd f)) fs) ++ [125]
  end.
#[export] Instance value : SerdeValue := {
  value_from_str s := match read (length s) s with Some (v, []) => Some v | _ => None end;
  to_string := show;
  to_string_pretty := show }.
(** No text is a time, every time is shown as its number, and an array of
    texts is one. *)
#[export] Instance time : SqlTime := { timestamptz _ := None; timestamptz_text := show_N }.
#[export] Instance sql : SqlJson := {
  json_array_elements_text s := match value_from_str s ≫= as_array with Some l => Some (map as_str l) | None => None end }.
End RefValue.
