(* ===== verification/DbLogic.v ===== *)
(** * Reasoning about calls of the database

    Two judgements on the computations that hold the connection.  [does] is
    what a computation does on a connection that works: its result and the
    state it ends in, up to the count of the calls, so that a call that only
    reads leaves the state as it is.  [preserves] is about every run,
    whatever fails. *)
From S2P Require Import Prelude Db.
Local Open Scope N_scope.

Section logic.
Context {S : Type} `{HasDbLaws S}.

(** The state with another count of calls, or other tables. *)
Definition with_calls (n : N) (s : S) : S :=
  with_db s {| tables := tables (db_of s); calls := n; faults := faults (db_of s) |}.
Definition with_tables (t : Db) (s : S) : S :=
  with_db s {| tables := t; calls := calls (db_of s); faults := faults (db_of s) |}.

Lemma with_calls_calls n m s : with_calls n (with_calls m s) = with_calls n s.
Proof. unfold with_calls. by rewrite db_of_with, with_db_with. Qed.
Lemma with_calls_same s : with_calls (calls (db_of s)) s = s.
Proof. transitivity (with_db s (db_of s)); [|apply with_db_of]. unfold with_calls. by destruct (db_of s). Qed.
Lemma tables_with_calls n s : tables (db_of (with_calls n s)) = tables (db_of s).
Proof. unfold with_calls. by rewrite db_of_with. Qed.
Lemma faults_with_calls n s : faults (db_of (with_calls n s)) = faults (db_of s).
Proof. unfold with_calls. by rewrite db_of_with. Qed.
Lemma tables_with_tables t s : tables (db_of (with_tables t s)) = t.
Proof. unfold with_tables. by rewrite db_of_with. Qed.
Lemma with_tables_tables t u s : with_tables t (with_tables u s) = with_tables t s.
Proof. unfold with_tables. by rewrite db_of_with, with_db_with. Qed.
Lemma with_tables_same s : with_tables (tables (db_of s)) s = s.
Proof. transitivity (with_db s (db_of s)); [|apply with_db_of]. unfold with_tables. by destruct (db_of s). Qed.
Lemma with_calls_tables n t s : with_calls n (with_tables t s) = with_tables t (with_calls n s).
Proof. unfold with_calls, with_tables. by rewrite !db_of_with, !with_db_with. Qed.
Lemma works_with_tables t s : db_works (with_tables t s) <-> db_works s.
Proof. unfold db_works, with_tables. by rewrite db_of_with. Qed.
Lemma works_with_calls n s : db_works (with_calls n s) <-> db_works s.
Proof. unfold db_works, with_calls. by rewrite db_of_with. Qed.

(** ** What a computation does when the connection works *)

Definition does {E A} (m : M S E A) (s : S) (r : result A E) (s' : S) : Prop :=
  forall n, exists n', m (with_calls n s) = (r, with_calls n' s').

Lemma does_run {E A} (m : M S E A) s r s' : does m s r s' -> exists n, m s = (r, with_calls n s').
Proof. intros Hm. destruct (Hm (calls (db_of s))) as [n Hn]. exists n. by rewrite with_calls_same in Hn. Qed.

Lemma does_ret {E A} (a : A) s : does (ret (E:=E) a) s (Ok a) s.
Proof. intros n. by exists n. Qed.
Lemma does_fail {E A} (e : E) s : does (fail (A:=A) e) s (Err e) s.
Proof. intros n. by exists n. Qed.
Lemma does_lift {E A} (r : result A E) s : does (lift r) s r s.
Proof. intros n. by exists n. Qed.
Lemma does_gets {E A} (f : S -> A) s : (forall n, f (with_calls n s) = f s) -> does (gets (E:=E) f) s (Ok (f s)) s.
Proof. intros Hf n. exists n. unfold gets. by rewrite Hf. Qed.
Lemma does_modify {E} (f : S -> S) s :
  (forall n, f (with_calls n s) = with_calls n (f s)) -> does (modify (E:=E) f) s (Ok tt) (f s).
Proof. intros Hf n. exists n. unfold modify. by rewrite Hf. Qed.

Lemma does_bind {E A B} (m : M S E A) (k : A -> M S E B) s a s1 r s2 :
  does m s (Ok a) s1 -> does (k a) s1 r s2 -> does (bind m k) s r s2.
Proof.
  intros Hm Hk n. destruct (Hm n) as [n1 H1]. destruct (Hk n1) as [n2 H2]. exists n2. unfold bind. by rewrite H1.
Qed.
Lemma does_bind_err {E A B} (m : M S E A) (k : A -> M S E B) s e s1 :
  does m s (Err e) s1 -> does (bind m k) s (Err e) s1.
Proof. intros Hm n. destruct (Hm n) as [n1 H1]. exists n1. unfold bind. by rewrite H1. Qed.
Lemma does_catch {E F A} (m : M S E A) s r s' : does m s r s' -> does (catch (F:=F) m) s (Ok r) s'.
Proof. intros Hm n. destruct (Hm n) as [n1 H1]. exists n1. unfold catch. by rewrite H1. Qed.
Lemma does_map_err {E F A} (f : E -> F) (m : M S E A) s r s' : does m s r s' -> does (mmap_err f m) s (map_err f r) s'.
Proof. intros Hm n. destruct (Hm n) as [n1 H1]. exists n1. unfold mmap_err. by rewrite H1. Qed.

Lemma does_query {A} (q : Db -> result A DbError) s : db_works s -> does (query q) s (q (tables (db_of s))) s.
Proof.
  intros Hs n. exists (n + 1). unfold query. rewrite faults_with_calls, Hs, tables_with_calls. f_equal.
  unfold with_calls, tick. by rewrite !db_of_with, with_db_with.
Qed.
Lemma does_execute {A} (f : Db -> result (A * Db) DbError) s a t :
  db_works s -> f (tables (db_of s)) = Ok (a, t) -> does (execute f) s (Ok a) (with_tables t s).
Proof.
  intros Hs Hf n. exists (n + 1). unfold execute. cbn [tick tables faults].
  rewrite faults_with_calls, Hs, tables_with_calls, Hf. f_equal.
  unfold with_calls, with_tables, tick, store. by rewrite !db_of_with, !with_db_with.
Qed.
Lemma does_execute_err {A} (f : Db -> result (A * Db) DbError) s e :
  db_works s -> f (tables (db_of s)) = Err e -> does (execute f) s (Err e) s.
Proof.
  intros Hs Hf n. exists (n + 1). unfold execute. cbn [tick tables faults].
  rewrite faults_with_calls, Hs, tables_with_calls, Hf. f_equal.
  unfold with_calls, tick. by rewrite !db_of_with, with_db_with.
Qed.

Lemma does_transaction {A} (m : M S DbError A) s a s' :
  db_works s -> db_works s' -> does m s (Ok a) s' -> does (transaction m) s (Ok a) s'.
Proof.
  intros Hs Hs' Hm n. destruct (does_query (fun _ => Ok tt) s Hs n) as [n1 H1].
  destruct (Hm n1) as [n2 H2]. destruct (does_query (fun _ => Ok tt) s' Hs' n2) as [n3 H3].
  exists n3. unfold transaction. by rewrite H1, H2, H3.
Qed.
Lemma does_transaction_err {A} (m : M S DbError A) s e s' :
  db_works s -> does m s (Err e) s' -> does (transaction m) s (Err e) (with_tables (tables (db_of s)) s').
Proof.
  intros Hs Hm n. destruct (does_query (fun _ => Ok tt) s Hs n) as [n1 H1].
  destruct (Hm n1) as [n2 H2]. exists n2. unfold transaction. rewrite H1, H2. f_equal.
  rewrite tables_with_calls. unfold rollback, with_calls, with_tables, store.
  by rewrite !db_of_with, !with_db_with.
Qed.

(** ** What no run breaks *)

Definition preserves (I : Db -> Prop) {E A} (m : M S E A) : Prop :=
  forall s, I (tables (db_of s)) -> I (tables (db_of (snd (m s)))).
(** Every run of the statement on its own. *)
Definition statement_keeps (I : Db -> Prop) {A} (f : Db -> result (A * Db) DbError) : Prop :=
  forall t a t', f t = Ok (a, t') -> I t -> I t'.

Section preserves.
Context (I : Db -> Prop).
Lemma preserves_ret {E A} (a : A) : preserves I (ret (E:=E) a).
Proof. by intros s. Qed.
Lemma preserves_fail {E A} (e : E) : preserves I (fail (A:=A) e).
Proof. by intros s. Qed.
Lemma preserves_lift {E A} (r : result A E) : preserves I (lift r).
Proof. by intros s. Qed.
Lemma preserves_gets {E A} (f : S -> A) : preserves I (gets (E:=E) f).
Proof. by intros s. Qed.
Lemma preserves_bind {E A B} (m : M S E A) (k : A -> M S E B) :
  preserves I m -> (forall a, preserves I (k a)) -> preserves I (bind m k).
Proof.
  intros Hm Hk s Hs. unfold bind. specialize (Hm s Hs). destruct (m s) as [[a|e] s1]; [|done]. by apply Hk.
Qed.
Lemma preserves_catch {E F A} (m : M S E A) : preserves I m -> preserves I (catch (F:=F) m).
Proof. intros Hm s Hs. specialize (Hm s Hs). unfold catch. by destruct (m s). Qed.
Lemma preserves_map_err {E F A} (f : E -> F) (m : M S E A) : preserves I m -> preserves I (mmap_err f m).
Proof. intros Hm s Hs. specialize (Hm s Hs). unfold mmap_err. by destruct (m s). Qed.
Lemma preserves_reads {E A} (m : M S E A) : reads_only m -> preserves I m.
Proof. intros Hm s Hs. destruct (Hm s) as [n ->]. by rewrite db_of_with. Qed.
(** What was read still holds when the next statement runs. *)
Lemma preserves_read {E A B} (q : Db -> result A DbError) (h : DbError -> E) (k : A -> M S E B) :
  (forall a s, q (tables (db_of s)) = Ok a -> I (tables (db_of s)) -> I (tables (db_of (snd (k a s))))) ->
  preserves I (bind (mmap_err h (query q)) k).
Proof.
  intros Hk s Hs. unfold bind, mmap_err, query. destruct (faults (db_of s) _); cbn [map_err snd]; [by rewrite db_of_with|].
  destruct (q (tables (db_of s))) as [a|e] eqn:Hq; cbn [map_err snd]; [|by rewrite db_of_with].
  apply Hk; rewrite db_of_with; done.
Qed.
Lemma preserves_execute {A} (f : Db -> result (A * Db) DbError) : statement_keeps I f -> preserves I (execute f).
Proof.
  intros Hf s Hs. unfold execute. cbn [tick tables faults].
  destruct (faults _ _); cbn [snd]; [by rewrite db_of_with|].
  destruct (f _) as [[a t]|e] eqn:Hft; cbn [snd]; rewrite db_of_with; [|done]. by eapply Hf.
Qed.
Lemma preserves_transaction {A} (m : M S DbError A) : preserves I m -> preserves I (transaction m).
Proof.
  intros Hm s Hs. unfold transaction, query. cbn beta zeta.
  destruct (faults (db_of s) _); cbn [snd]; [by rewrite db_of_with|].
  specialize (Hm (with_db s (tick (db_of s)))). rewrite db_of_with in Hm. specialize (Hm Hs).
  destruct (m _) as [[a|e] s1]; cbn [snd] in *.
  - unfold rollback. destruct (faults (db_of s1) _); cbn [snd]; rewrite ?db_of_with; done.
  - unfold rollback. by rewrite db_of_with.
Qed.
(** A transaction whose statements break what all of them together keep. *)
Lemma preserves_transaction_whole {A} (m : M S DbError A) :
  (forall s a, I (tables (db_of s)) -> fst (m s) = Ok a -> I (tables (db_of (snd (m s))))) -> preserves I (transaction m).
Proof.
  intros Hm s Hs. unfold transaction, query. cbn beta zeta.
  destruct (faults (db_of s) _); cbn [snd]; [by rewrite db_of_with|].
  specialize (Hm (with_db s (tick (db_of s)))). rewrite db_of_with in Hm. specialize (fun a => Hm a Hs).
  destruct (m _) as [[a|e] s1]; cbn [fst snd] in *.
  - specialize (Hm a eq_refl). unfold rollback. destruct (faults (db_of s1) _); cbn [snd]; rewrite ?db_of_with; done.
  - unfold rollback. by rewrite db_of_with.
Qed.
End preserves.
End logic.

(** Decompose a computation along its calls. *)
Ltac solve_preserves := repeat first
  [ assumption
  | lazymatch goal with
    | |- forall _, preserves _ _ => intros ?
    | |- preserves _ (bind _ _) => apply preserves_bind
    | |- preserves _ (ret _) => apply preserves_ret
    | |- preserves _ (fail _) => apply preserves_fail
    | |- preserves _ (lift _) => apply preserves_lift
    | |- preserves _ (gets _) => apply preserves_gets
    | |- preserves _ (catch _) => apply preserves_catch
    | |- preserves _ (mmap_err _ _) => apply preserves_map_err
    | |- preserves _ (query _) => apply preserves_reads, reads_query
    | |- preserves _ (fetch_all _) => apply preserves_reads, reads_query
    | |- preserves _ (fetch_one _) => apply preserves_reads, reads_query
    | |- preserves _ (fetch_optional _) => apply preserves_reads, reads_query
    | |- preserves _ (execute _) => apply preserves_execute
    | |- preserves _ (transaction _) => apply preserves_transaction
    | |- preserves _ (if ?b then _ else _) => destruct b eqn:?
    | |- preserves _ (match ?x with _ => _ end) => destruct x eqn:?
    end ].
