(* ===== verification/Tables.v ===== *)
(** * Tables with keys

    A table is the list of its rows.  The lemmas say when a column stays
    without duplicates, which row a key names, and what a statement that
    inserts, changes or deletes rows by key does to the others. *)
From S2P Require Import Prelude RustStr.
Local Open Scope N_scope.

Lemma existsb_none {A} (p : A -> bool) l : existsb p l = false <-> forall x, x ∈ l -> p x = false.
Proof.
  rewrite <- not_true_iff_false, existsb_exists. split.
  - intros Hn x Hx. destruct (p x) eqn:Hp; [|done]. exfalso. apply Hn. exists x. split; [by apply list_elem_of_In|done].
  - intros Hall (x & Hx%list_elem_of_In & Hp). specialize (Hall x Hx). congruence.
Qed.
Lemma existsb_some {A} (p : A -> bool) l : existsb p l = true <-> exists x, x ∈ l /\ p x = true.
Proof. rewrite existsb_exists. setoid_rewrite <- list_elem_of_In. done. Qed.
Lemma elem_of_bfilter {A} (p : A -> bool) l x : x ∈ List.filter p l <-> x ∈ l /\ p x = true.
Proof. rewrite !list_elem_of_In. apply filter_In. Qed.

Lemma find_app {A} (p : A -> bool) l1 l2 :
  find p (l1 ++ l2) = match find p l1 with Some x => Some x | None => find p l2 end.
Proof. induction l1 as [|x l1 IH]; [done|]. cbn [app find]. by destruct (p x). Qed.

Section keys.
Context {R K : Type} (key : R -> K).
Implicit Types (rows : list R).

Lemma unique_snoc rows row :
  NoDup (map key rows) -> (forall r, r ∈ rows -> key r <> key row) -> NoDup (map key (rows ++ [row])).
Proof.
  intros Hn Hf. rewrite map_app. apply NoDup_app. split; [done|]. split; [|apply NoDup_singleton].
  intros x (r & -> & Hr)%list_elem_of_fmap Hx%list_elem_of_singleton. by apply (Hf r).
Qed.
Lemma unique_filter p rows : NoDup (map key rows) -> NoDup (map key (List.filter p rows)).
Proof.
  induction rows as [|r rows IH]; [done|]. cbn [map List.filter]. intros [Hr Hn]%NoDup_cons.
  destruct (p r); [|by apply IH]. cbn [map]. apply NoDup_cons. split; [|by apply IH].
  intros (r' & Heq & Hr')%list_elem_of_fmap. apply Hr. rewrite Heq. apply list_elem_of_fmap.
  exists r'. split; [done|]. by apply elem_of_bfilter in Hr' as [? _].
Qed.
(** A change that leaves the column. *)
Lemma same_column (p : R -> bool) g rows :
  (forall r, key (g r) = key r) -> map key (map (fun r => if p r then g r else r) rows) = map key rows.
Proof. intros Hg. rewrite map_map. apply map_ext. intros r. by destruct (p r). Qed.
Lemma unique_elem rows r r' : NoDup (map key rows) -> r ∈ rows -> r' ∈ rows -> key r = key r' -> r = r'.
Proof.
  induction rows as [|x rows IH]; [by intros _ ?%not_elem_of_nil|]. cbn [map]. intros [Hx Hn]%NoDup_cons.
  assert (Hno : forall r, r ∈ rows -> key r <> key x).
  { intros y Hy Heq. apply Hx. rewrite <- Heq. by apply list_elem_of_fmap_2. }
  intros [->|Hr]%elem_of_cons [->|Hr']%elem_of_cons Heq; [done|by destruct (Hno r')|by destruct (Hno r)|by apply IH].
Qed.
(** A change of the rows a condition names, which share the value of another
    key. *)
Lemma unique_change_where {K'} (id : R -> K') (p : R -> bool) (g : R -> R) rows :
  NoDup (map id rows) -> NoDup (map key rows) ->
  (forall r r', p r = true -> p r' = true -> id r = id r') ->
  (forall r r', r ∈ rows -> p r = true -> r' ∈ rows -> p r' = false -> key r' <> key (g r)) ->
  NoDup (map key (map (fun r => if p r then g r else r) rows)).
Proof.
  intros Hid Hk Hp Hg. induction rows as [|r rows IH]; [done|]. cbn [map] in *.
  apply NoDup_cons in Hid as [Hri Hid], Hk as [Hrk Hk]. apply NoDup_cons. split.
  - intros (r' & Heq & Hr')%list_elem_of_fmap. apply list_elem_of_fmap in Hr' as (r0 & -> & Hr0).
    assert (Hne : id r0 <> id r) by (intros He; apply Hri; rewrite <- He; by apply list_elem_of_fmap_2).
    destruct (p r) eqn:E, (p r0) eqn:E0.
    + apply Hne. by apply Hp.
    + apply (Hg r r0); [by left|done|by right|done|done].
    + apply (Hg r0 r); [by right|done|by left|done|done].
    + apply Hrk. rewrite Heq. by apply list_elem_of_fmap_2.
  - apply IH; [done|done|]. intros a b Ha Hpa Hb Hpb. apply Hg; [by right|done|by right|done].
Qed.
End keys.

(** Rows named by a text. *)
Section ids.
Context {R : Type} (id : R -> str).
Implicit Types (rows : list R).

Definition row_named (x : str) rows : option R := find (fun r => id r =s? x) rows.
Definition count_named (x : str) rows : nat := length (List.filter (fun r => id r =s? x) rows).
Definition without (x : str) rows : list R := List.filter (fun r => negb (id r =s? x)) rows.
Definition change_named (x : str) (g : R -> R) rows : list R := map (fun r => if id r =s? x then g r else r) rows.

Lemma row_named_Some x rows r : row_named x rows = Some r -> r ∈ rows /\ id r = x.
Proof. intros [Hr Hx]%find_some. split; [by apply list_elem_of_In|by apply str_eqb_eq]. Qed.
Lemma row_named_None x rows : row_named x rows = None <-> forall r, r ∈ rows -> id r <> x.
Proof.
  split.
  - intros Hn r Hr%list_elem_of_In. apply str_eqb_neq. by apply (find_none _ _ Hn r).
  - intros Hall. destruct (row_named x rows) as [r|] eqn:Hr; [|done]. apply row_named_Some in Hr as [Hr Hx].
    by destruct (Hall r Hr).
Qed.
Lemma row_named_unique x rows r : NoDup (map id rows) -> r ∈ rows -> id r = x -> row_named x rows = Some r.
Proof.
  intros Hn Hr Hx. destruct (row_named x rows) as [r'|] eqn:Hf.
  - apply row_named_Some in Hf as [Hr' Hx']. f_equal. apply (unique_elem id rows); congruence.
  - by destruct (proj1 (row_named_None x rows) Hf r Hr).
Qed.
Lemma count_named_0 x rows : count_named x rows = 0%nat <-> row_named x rows = None.
Proof.
  rewrite row_named_None. unfold count_named. split.
  - intros Hl%length_zero_iff_nil r Hr Hx. assert (Hin : r ∈ List.filter (fun r => id r =s? x) rows).
    { apply elem_of_bfilter. by rewrite Hx, str_eqb_refl. }
    rewrite Hl in Hin. by apply not_elem_of_nil in Hin.
  - intros Hall. destruct (List.filter _ rows) as [|r l] eqn:Hf; [done|].
    assert (Hin : r ∈ List.filter (fun r => id r =s? x) rows) by (rewrite Hf; by left).
    apply elem_of_bfilter in Hin as [Hr Hx%str_eqb_eq]. by destruct (Hall r Hr).
Qed.
Lemma without_unchanged x rows : row_named x rows = None -> without x rows = rows.
Proof.
  rewrite row_named_None. intros Hall. unfold without. induction rows as [|r rows IH]; [done|]. cbn [List.filter].
  rewrite (proj2 (str_eqb_neq (id r) x)) by (apply Hall; by left). cbn [negb]. f_equal. apply IH. intros r' Hr'.
  apply Hall. by right.
Qed.
Lemma elem_of_without x rows r : r ∈ without x rows <-> r ∈ rows /\ id r <> x.
Proof. unfold without. rewrite elem_of_bfilter. rewrite negb_true_iff. by rewrite str_eqb_neq. Qed.
Lemma elem_of_change x g rows r :
  r ∈ change_named x g rows <-> (exists r0, r0 ∈ rows /\ id r0 = x /\ r = g r0) \/ (r ∈ rows /\ id r <> x).
Proof.
  unfold change_named. rewrite list_elem_of_fmap. split.
  - intros (r0 & -> & Hr0). destruct (id r0 =s? x) eqn:He; [left|right].
    + apply str_eqb_eq in He. by exists r0.
    + apply str_eqb_neq in He. done.
  - intros [(r0 & Hr0 & Hx & ->)|[Hr Hx]].
    + exists r0. split; [|done]. by rewrite Hx, str_eqb_refl.
    + exists r. split; [|done]. by rewrite (proj2 (str_eqb_neq _ _) Hx).
Qed.
Lemma change_nothing x g rows : row_named x rows = None -> change_named x g rows = rows.
Proof.
  rewrite row_named_None. intros Hall. unfold change_named. rewrite <- (map_id rows) at 2. apply map_ext_in.
  intros r Hr%list_elem_of_In. by rewrite (proj2 (str_eqb_neq _ _) (Hall r Hr)).
Qed.
(** A column whose value of the changed row no other row has. *)
Lemma unique_change {K} (key : R -> K) x g rows :
  NoDup (map id rows) -> NoDup (map key rows) ->
  (forall r r', r ∈ rows -> id r = x -> r' ∈ rows -> id r' <> x -> key r' <> key (g r)) ->
  NoDup (map key (change_named x g rows)).
Proof.
  intros Hid Hk Hg. unfold change_named. induction rows as [|r rows IH]; [done|]. cbn [map] in *.
  apply NoDup_cons in Hid as [Hri Hid], Hk as [Hrk Hk]. apply NoDup_cons. split.
  - intros (r' & Heq & Hr')%list_elem_of_fmap. apply list_elem_of_fmap in Hr' as (r0 & -> & Hr0).
    assert (Hne : id r0 <> id r) by (intros He; apply Hri; rewrite <- He; by apply list_elem_of_fmap_2).
    destruct (id r =s? x) eqn:E, (id r0 =s? x) eqn:E0; rewrite ?str_eqb_eq, ?str_eqb_neq in *.
    + congruence.
    + apply (Hg r r0); [by left|done|by right|done|done].
    + apply (Hg r0 r); [by right|done|by left|congruence|done].
    + apply Hrk. rewrite Heq. by apply list_elem_of_fmap_2.
  - apply IH; [done|done|]. intros a b Ha Hax Hb Hbx. apply Hg; [by right|done|by right|done].
Qed.
End ids.

(** A table as the map of its rows by their name. *)
Section view.
Context {R V : Type} (id : R -> str) (val : R -> V).
Implicit Types (rows : list R).

Definition view rows : gmap str V := list_to_map (map (fun r => (id r, val r)) rows).

Lemma lookup_view rows x : view rows !! x = val <$> row_named id x rows.
Proof.
  unfold view, row_named. induction rows as [|r rows IH]; [done|]. cbn [map list_to_map foldr find fst snd].
  destruct (id r =s? x) eqn:He; rewrite ?str_eqb_eq, ?str_eqb_neq in He.
  - rewrite He. apply lookup_insert_eq.
  - rewrite lookup_insert_ne by done. exact IH.
Qed.
Lemma view_snoc rows row : row_named id (id row) rows = None -> view (rows ++ [row]) = <[id row := val row]> (view rows).
Proof.
  intros Hn. apply map_eq. intros x. rewrite lookup_view. unfold row_named in *. rewrite find_app. cbn [find].
  destruct (decide (x = id row)) as [->|Hx].
  - rewrite lookup_insert_eq, Hn. by rewrite str_eqb_refl.
  - rewrite lookup_insert_ne, lookup_view by done. unfold row_named.
    destruct (find (fun r => id r =s? x) rows); [done|].
    by rewrite (proj2 (str_eqb_neq (id row) x)) by congruence.
Qed.
Lemma view_without rows x : view (without id x rows) = delete x (view rows).
Proof.
  apply map_eq. intros y. rewrite lookup_view. destruct (decide (y = x)) as [->|Hy].
  - rewrite lookup_delete_eq. assert (Hn : row_named id x (without id x rows) = None).
    { apply row_named_None. intros r Hr. by apply elem_of_without in Hr as [_ ?]. }
    by rewrite Hn.
  - rewrite lookup_delete_ne, lookup_view by done. f_equal. unfold row_named, without.
    induction rows as [|r rows IH]; [done|]. cbn [List.filter find]. destruct (id r =s? x) eqn:He; cbn [negb find].
    + apply str_eqb_eq in He. rewrite IH. by rewrite (proj2 (str_eqb_neq (id r) y)) by congruence.
    + destruct (id r =s? y); [done|exact IH].
Qed.
Lemma view_change rows x g r :
  row_named id x rows = Some r -> (forall r, id (g r) = id r) ->
  view (change_named id x g rows) = <[x := val (g r)]> (view rows).
Proof.
  intros Hr Hg. apply map_eq. intros y. rewrite lookup_view.
  assert (Hf : row_named id y (change_named id x g rows) =
    (fun r => if id r =s? x then g r else r) <$> row_named id y rows).
  { unfold row_named, change_named. induction rows as [|r' rows' IH] in Hr |- *; [done|]. cbn [map find] in *.
    assert (Hk : id (if id r' =s? x then g r' else r') = id r') by (destruct (id r' =s? x); [apply Hg|done]).
    rewrite Hk. destruct (id r' =s? y) eqn:Ey; [done|]. unfold row_named in Hr. cbn [find] in Hr.
    destruct (id r' =s? x) eqn:Ex; [|by apply IH].
    clear -Ey Ex Hg. apply str_eqb_eq in Ex. rewrite Ex in Ey. induction rows' as [|q rows' IH]; [done|]. cbn [map find].
    assert (Hk : id (if id q =s? x then g q else q) = id q) by (destruct (id q =s? x); [apply Hg|done]).
    rewrite Hk. destruct (id q =s? y); [done|exact IH]. }
  rewrite Hf. destruct (decide (y = x)) as [->|Hy].
  - rewrite lookup_insert_eq, Hr. cbn [fmap option_fmap option_map]. apply row_named_Some in Hr as [_ Hx].
    by rewrite Hx, str_eqb_refl.
  - rewrite lookup_insert_ne, lookup_view by done. destruct (row_named id y rows) as [r'|] eqn:Hr'; [|done].
    apply row_named_Some in Hr' as [_ Hx]. cbn [fmap option_fmap option_map]. by rewrite Hx, (proj2 (str_eqb_neq y x)).
Qed.
(** Changing or deleting the rows a condition names. *)
Lemma row_named_map x (h : R -> R) rows :
  (forall r, id (h r) = id r) -> row_named id x (map h rows) = h <$> row_named id x rows.
Proof.
  intros Hh. unfold row_named. induction rows as [|r rows IH]; [done|]. cbn [map find]. rewrite Hh.
  by destruct (id r =s? x).
Qed.
Lemma row_named_filter x (p : R -> bool) rows :
  NoDup (map id rows) ->
  row_named id x (List.filter p rows) = match row_named id x rows with Some r => if p r then Some r else None | None => None end.
Proof.
  intros Hn. destruct (row_named id x rows) as [r|] eqn:Hr.
  - apply row_named_Some in Hr as [Hin <-]. destruct (p r) eqn:Hp.
    + apply row_named_unique; [by apply unique_filter| |done]. by apply elem_of_bfilter.
    + apply row_named_None. intros r' [Hr' Hp']%elem_of_bfilter Hid. assert (r' = r) as -> by (by apply (unique_elem id rows)).
      congruence.
  - apply row_named_None. intros r' [Hr' _]%elem_of_bfilter. by apply (proj1 (row_named_None id x rows) Hr).
Qed.
Lemma view_map (h : R -> R) rows :
  (forall r, id (h r) = id r) -> forall x, view (map h rows) !! x = (fun r => val (h r)) <$> row_named id x rows.
Proof. intros Hh x. rewrite lookup_view, row_named_map by done. by destruct (row_named id x rows). Qed.
(** What all rows of a table without duplicates satisfy. *)
Lemma view_Exists rows (P : str -> V -> Prop) :
  NoDup (map id rows) -> map_Exists P (view rows) <-> exists r, r ∈ rows /\ P (id r) (val r).
Proof.
  intros Hn. unfold map_Exists. split.
  - intros (x & v & Hv & HP). rewrite lookup_view in Hv. destruct (row_named id x rows) as [r|] eqn:Hr; [|done].
    injection Hv as <-. apply row_named_Some in Hr as [Hr <-]. by exists r.
  - intros (r & Hr & HP). exists (id r), (val r). split; [|done]. rewrite lookup_view.
    by rewrite (row_named_unique id (id r) rows r).
Qed.
End view.

(** A table as the map of its rows by any key. *)
Section keyed.
Context {R K V : Type} `{Countable K} (key : R -> K) (val : R -> V).
Implicit Types (rows : list R).

Definition keyed rows : gmap K V := list_to_map (map (fun r => (key r, val r)) rows).

Lemma keyed_fst rows : (map (fun r => (key r, val r)) rows).*1 = map key rows.
Proof. induction rows as [|r rows IH]; [done|]. cbn [map fmap list_fmap fst]. by f_equal. Qed.
Lemma keyed_Some rows k v : NoDup (map key rows) -> keyed rows !! k = Some v <-> exists r, r ∈ rows /\ key r = k /\ val r = v.
Proof.
  intros Hn. unfold keyed. rewrite <- elem_of_list_to_map by (by rewrite keyed_fst). rewrite list_elem_of_fmap. split.
  - intros (r & [= -> ->] & Hr). by exists r.
  - intros (r & Hr & <- & <-). by exists r.
Qed.
Lemma keyed_None rows k : keyed rows !! k = None <-> forall r, r ∈ rows -> key r <> k.
Proof.
  unfold keyed. rewrite <- not_elem_of_list_to_map, keyed_fst, list_elem_of_fmap. split.
  - intros Hno r Hr <-. apply Hno. by exists r.
  - intros Hall (r & -> & Hr). by apply (Hall r Hr).
Qed.
Lemma keyed_snoc rows row : (forall r, r ∈ rows -> key r <> key row) -> keyed (rows ++ [row]) = <[key row := val row]> (keyed rows).
Proof.
  intros Hno. unfold keyed. rewrite map_app, list_to_map_app. cbn [map list_to_map foldr].
  change (list_to_map [(key row, val row)]) with (<[key row := val row]> (∅ : gmap K V)).
  rewrite insert_empty, <- insert_union_singleton_r; [done|]. by apply keyed_None.
Qed.
Lemma keyed_filter rows (p : R -> bool) (P : K * V -> Prop) `{forall x, Decision (P x)} :
  NoDup (map key rows) -> (forall r, r ∈ rows -> p r = true <-> P (key r, val r)) ->
  keyed (List.filter p rows) = filter P (keyed rows).
Proof.
  intros Hn Hp. apply map_eq. intros k. apply option_eq. intros v.
  rewrite keyed_Some by (by apply unique_filter). rewrite map_lookup_filter_Some, keyed_Some by done. split.
  - intros (r & [Hr Hpr]%elem_of_bfilter & <- & <-). split; [by exists r|]. by apply Hp.
  - intros [(r & Hr & <- & <-) HP]. exists r. split; [|done]. apply elem_of_bfilter. split; [done|]. by apply Hp.
Qed.
Lemma keyed_change rows (p : R -> bool) (g : R -> R) k :
  NoDup (map key rows) -> (forall r, p r = true <-> key r = k) -> (forall r, key (g r) = key r) ->
  forall r, r ∈ rows -> key r = k -> keyed (map (fun r => if p r then g r else r) rows) = <[k := val (g r)]> (keyed rows).
Proof.
  intros Hn Hp Hg r Hr Hk. apply map_eq. intros k'. apply option_eq. intros v.
  rewrite keyed_Some by (by rewrite same_column). split.
  - intros (r' & (r0 & -> & Hr0)%list_elem_of_fmap & <- & <-). destruct (p r0) eqn:Hpr.
    + apply Hp in Hpr. rewrite Hg, Hpr, lookup_insert_eq. f_equal. do 2 f_equal. apply (unique_elem key rows); congruence.
    + rewrite lookup_insert_ne.
      * apply keyed_Some; [done|]. by exists r0.
      * intros Heq. symmetry in Heq. apply Hp in Heq. congruence.
  - destruct (decide (k' = k)) as [->|Hne].
    + rewrite lookup_insert_eq. intros [= <-]. exists (g r). split; [|by rewrite Hg].
      apply list_elem_of_fmap. exists r. split; [|done]. by rewrite (proj2 (Hp r) Hk).
    + rewrite lookup_insert_ne by done. rewrite keyed_Some by done. intros (r0 & Hr0 & <- & <-). exists r0.
      split; [|done]. apply list_elem_of_fmap. exists r0. split; [|done]. destruct (p r0) eqn:Hpr; [|done].
      apply Hp in Hpr. done.
Qed.
End keyed.
