(* ===== verification/Listing.v ===== *)
(** * Listings: pages, searches and orders

    What the listings of the API share: the page and its size
    ([ListParams] of src/api/handlers), the [LIKE] of their searches, the
    [ORDER BY] of a text column and [LIMIT .. OFFSET ..]. *)
From S2P Require Import Prelude RustStr Db.
Local Open Scope N_scope.

Module Listing.

(** [page: Option<u32>], [per_page: Option<u32>], [search: Option<String>] *)
Record ListParams := { lp_page : option N; lp_per_page : option N; lp_search : option str }.
Definition u32_params (p : ListParams) : Prop :=
  default 0 (lp_page p) < 2 ^ 32 /\ default 0 (lp_per_page p) < 2 ^ 32.

Definition page (p : ListParams) : N := N.max (default 1 (lp_page p)) 1.
Definition per_page (p : ListParams) : Z := Z.of_N (N.min (default 50 (lp_per_page p)) 200).
(** [(page as i64 - 1) * per_page] *)
Definition offset (p : ListParams) : Z := ((Z.of_N (page p) - 1) * per_page p)%Z.
Definition search (p : ListParams) : str := trim (default [] (lp_search p)).
Definition search_pattern (s : str) : str := [37] ++ s ++ [37].

(** [s LIKE pattern]: [%] is any text, [_] any character, a backslash takes
    the next one as it is.  No pattern here ends in a backslash, which the
    server rejects. *)
Fixpoint like (pattern s : str) : bool :=
  match pattern with
  | [] => is_empty s
  | c :: p =>
      if c =? 37 then
        (fix skip (s : str) : bool := like p s || match s with [] => false | _ :: s' => skip s' end) s
      else if c =? 95 then match s with [] => false | _ :: s' => like p s' end
      else if c =? 92 then
        match p, s with d :: p', e :: s' => (d =? e) && like p' s' | _, _ => false end
      else match s with [] => false | e :: s' => (c =? e) && like p s' end
  end.
Definition opt_like (pattern : str) (o : option str) : bool :=
  match o with Some s => like pattern s | None => false end.

(** [LIMIT n OFFSET k] *)
Definition limit {A} (n k : Z) (l : list A) : list A := take (Z.to_nat n) (drop (Z.to_nat k) l).

(** [ORDER BY key ASC] and [DESC]; rows of one key in the order of the
    table. *)
Section order.
Context `{Collation} {A : Type} (key : A -> str).
Fixpoint insert_asc (x : A) (l : list A) : list A :=
  match l with
  | [] => [x]
  | y :: l' => if text_lt (key y) (key x) then y :: insert_asc x l' else x :: l
  end.
Definition order_asc (l : list A) : list A := fold_right insert_asc [] l.
Fixpoint insert_desc (x : A) (l : list A) : list A :=
  match l with
  | [] => [x]
  | y :: l' => if text_lt (key x) (key y) then y :: insert_desc x l' else x :: l
  end.
Definition order_desc (l : list A) : list A := fold_right insert_desc [] l.

Lemma order_asc_perm l : Permutation (order_asc l) l.
Proof.
  assert (Hi : forall x l, Permutation (insert_asc x l) (x :: l)).
  { intros x l'. induction l' as [|y l' IH]; [done|]. simpl. destruct (text_lt _ _); [|done].
    rewrite IH. apply Permutation_swap. }
  induction l as [|x l IH]; [done|]. simpl. by rewrite Hi, IH.
Qed.
Lemma order_desc_perm l : Permutation (order_desc l) l.
Proof.
  assert (Hi : forall x l, Permutation (insert_desc x l) (x :: l)).
  { intros x l'. induction l' as [|y l' IH]; [done|]. simpl. destruct (text_lt _ _); [|done].
    rewrite IH. apply Permutation_swap. }
  induction l as [|x l IH]; [done|]. simpl. by rewrite Hi, IH.
Qed.
End order.

(** The page of the rows. *)
Definition page_of {A} (p : ListParams) (rows : list A) : list A := limit (per_page p) (offset p) rows.

(** ** Pages *)

Lemma per_page_bounds p : (0 <= per_page p <= 200)%Z.
Proof. unfold per_page. lia. Qed.
Lemma page_bounds p : u32_params p -> 1 <= page p < 2 ^ 32.
Proof. unfold u32_params, page. intros [Hp _]. destruct (lp_page p); simpl in *; lia. Qed.
(** No overflow of the 64 bits. *)
Lemma offset_bounds p : u32_params p -> (0 <= offset p < 2 ^ 63)%Z.
Proof.
  intros Hp%page_bounds. pose proof (per_page_bounds p). unfold offset.
  set (a := (Z.of_N (page p) - 1)%Z). assert (0 <= a < 2 ^ 32)%Z by lia. nia.
Qed.

Lemma limit_length {A} n k (l : list A) : (Z.of_nat (length (limit n k l)) <= Z.max 0 n)%Z.
Proof. unfold limit. rewrite length_take. lia. Qed.

(** The pages one after the other are the rows. *)
Lemma limit_pages {A} n m (l : list A) :
  concat (map (fun k => limit (Z.of_nat n) (Z.of_nat k * Z.of_nat n) l) (seq 0 m)) = take (m * n) l.
Proof.
  induction m as [|m IH]; [by rewrite take_0|]. rewrite seq_S, map_app, concat_app, IH. simpl.
  rewrite app_nil_r. unfold limit. rewrite Nat2Z.id.
  replace (Z.to_nat (Z.of_nat m * Z.of_nat n)) with (m * n)%nat by lia.
  rewrite take_take_drop. f_equal. lia.
Qed.
Lemma page_of_number {A} (rows : list A) per s k :
  page_of {| lp_page := Some (N.of_nat (Datatypes.S k)); lp_per_page := Some per; lp_search := s |} rows =
  limit (Z.of_nat (N.to_nat (N.min per 200))) (Z.of_nat k * Z.of_nat (N.to_nat (N.min per 200))) rows.
Proof.
  unfold page_of, offset, per_page, page. cbn [lp_page lp_per_page default from_option id].
  replace (Z.of_N (N.min per 200)) with (Z.of_nat (N.to_nat (N.min per 200))) by lia.
  replace (Z.of_N (N.max (N.of_nat (Datatypes.S k)) 1) - 1)%Z with (Z.of_nat k) by lia. done.
Qed.

(** ** Searches *)

(** A text without the characters [LIKE] takes for its own. *)
Definition plain (s : str) : bool := forallb (fun c => negb ((c =? 37) || (c =? 95) || (c =? 92))) s.
Definition contains (t s : str) : Prop := exists a b, t = a ++ s ++ b.

Lemma like_rest s : like [37] s = true.
Proof. induction s as [|c s IH]; [done|]. exact IH. Qed.
Lemma like_plain w s : plain w = true -> like (w ++ [37]) s = true <-> exists b, s = w ++ b.
Proof.
  revert s. induction w as [|c w IH]; intros s Hw.
  - split; [by exists s|]. intros _. apply like_rest.
  - cbn [plain forallb] in Hw. split_bools. cbn [app like].
    replace (c =? 37) with false by lia. replace (c =? 95) with false by lia. replace (c =? 92) with false by lia.
    destruct s as [|e s]; [split; [done|by intros [b ?]]|].
    rewrite andb_true_iff, N.eqb_eq, IH by done. split.
    + intros [-> [b ->]]. by exists b.
    + intros [b [= -> ->]]. split; [done|]. by exists b.
Qed.
(** The pattern of a search for a plain text finds what contains it. *)
Lemma like_contains w s : plain w = true -> like (search_pattern w) s = true <-> contains s w.
Proof.
  intros Hw. unfold search_pattern, contains. cbn [app like]. change (37 =? 37) with true. cbn iota.
  induction s as [|c s IH].
  - rewrite orb_false_r, like_plain by done. split.
    + intros [b Hb]. by exists [], b.
    + intros (a & b & Hab). exists b. destruct a; [done|]. done.
  - rewrite orb_true_iff, IH, like_plain by done. split.
    + intros [[b Hb]|(a & b & ->)]; [by exists [], b|by exists (c :: a), b].
    + intros ([|d a] & b & Hab); [left; by exists b|right]. simpl in Hab. injection Hab as -> ->. by exists a, b.
Qed.

End Listing.
