(* ===== verification/Filter.v ===== *)
(** * The filter engine: src/dns/filter.rs

    The rule set and the rewrites every query is checked against.  [reload]
    builds both from the database and replaces them at its end: each store is
    one assignment of the state, as the [ArcSwap]s of the code are. *)
From S2P Require Import Prelude RustStr IpAddr Regex Rules Db.
Local Open Scope N_scope.

Module FilterEngine.
Section filter.
Context `{RustUnicode, RegexEngine, SerdeJson, Collation}.

Record FilterEngine := {
  rules : Rules.RuleSet;
  rewrites : gmap str str;
  db : DbState;
}.

#[global] Instance FilterEngine_HasDb : HasDb FilterEngine := {
  db_of := db;
  with_db s d := {| rules := rules s; rewrites := rewrites s; db := d |} }.
#[global] Instance FilterEngine_HasDbLaws : HasDbLaws FilterEngine.
Proof. constructor; try done. by intros []. Qed.

Definition store_rules (r : Rules.RuleSet) (s : FilterEngine) : FilterEngine :=
  {| rules := r; rewrites := rewrites s; db := db s |}.
Definition store_rewrites (m : gmap str str) (s : FilterEngine) : FilterEngine :=
  {| rules := rules s; rewrites := m; db := db s |}.

(** [is_enabled = true AND (expires_at IS NULL OR expires_at > $1)] *)
Definition rule_active (now : str) (r : CustomRule) : bool :=
  cr_is_enabled r && match cr_expires_at r with None => true | Some e => text_lt now e end.
Definition active_rules (now : str) (t : Db) : list str :=
  map cr_rule (List.filter (rule_active now) (custom_rules t)).

Definition insert_rewrite (m : gmap str str) (r : str * str) : gmap str str :=
  <[to_lowercase (fst r) := snd r]> m.

Definition safe_search_rules : list (str * str) :=
  [(lit "www.google.com", lit "forcesafesearch.google.com");
   (lit "google.com", lit "forcesafesearch.google.com");
   (lit "www.bing.com", lit "strict.bing.com");
   (lit "bing.com", lit "strict.bing.com");
   (lit "www.youtube.com", lit "restrict.youtube.com");
   (lit "youtube.com", lit "restrict.youtube.com");
   (lit "duckduckgo.com", lit "safe.duckduckgo.com");
   (lit "yandex.com", lit "family.yandex.com");
   (lit "www.yandex.com", lit "family.yandex.com")].

(** The block rules of one row of the categories: a JSON array of domains,
    or nothing when the text is no such array. *)
Definition category_rules (domains_json : str) : list str :=
  match json_strings domains_json with
  | Some domains => map (fun d => lit "||" ++ d) domains
  | None => []
  end.

(** [.fetch_one(..).await.unwrap_or_else(|_| default)] *)
Definition setting_or (key default : str) : M FilterEngine DbError str :=
  let! r := catch (fetch_one (setting key)) in
  ret (match r with Ok v => v | Err _ => default end).

(** The rules of the parental control settings, added to the set. *)
Definition parental_rules (rs : Rules.RuleSet) : M FilterEngine DbError Rules.RuleSet :=
  let! parental_enabled := setting_or "parental_control_enabled" "false" in
  if parental_enabled =s? "true" then
    let! protection_level := setting_or "parental_control_level" "none" in
    if negb (protection_level =s? "none") then
      let! category_rows := fetch_all (fun t =>
        map pc_domains (List.filter (fun c => pc_level c =s? protection_level)
                          (parental_control_categories t))) in
      ret (fold_left (fun rs row => fst (Rules.add_rules rs (category_rules row))) category_rows rs)
    else ret rs
  else ret rs.

Definition reload (now_rfc3339 : str) : M FilterEngine DbError unit :=
  let! expected_count := catch (fetch_one (fun t => Some (N.of_nat (length (active_rules now_rfc3339 t))))) in
  let new_rules := Rules.with_capacity (match expected_count with Ok n => n | Err _ => 0 end) in
  let! rows := fetch_all (active_rules now_rfc3339) in
  let '(new_rules, total) := Rules.add_rules new_rules rows in
  let! list_count := fetch_one (fun t => Some (length (List.filter fl_is_enabled (filter_lists t)))) in
  let! rewrite_rows := fetch_all (fun t => map (fun r => (dr_domain r, dr_answer r)) (dns_rewrites t)) in
  let new_rewrites := fold_left insert_rewrite rewrite_rows ∅ in
  let! safe_search_enabled := setting_or "safe_search_enabled" "false" in
  let new_rewrites :=
    if safe_search_enabled =s? "true" then fold_left insert_rewrite safe_search_rules new_rewrites
    else new_rewrites in
  let! new_rules := parental_rules new_rules in
  let new_rules := Rules.build new_rules in
  modify (store_rules new_rules) ;;;
  modify (store_rewrites new_rewrites).

Definition new (d : DbState) (now : str) : result FilterEngine DbError :=
  let engine := {| rules := Rules.new; rewrites := ∅; db := d |} in
  match reload now engine with
  | (Ok _, engine') => Ok engine'
  | (Err e, _) => Err e
  end.

Definition is_blocked (s : FilterEngine) (domain : str) : bool := Rules.is_blocked (rules s) domain.

Definition check_rewrite (s : FilterEngine) (domain : str) : option str :=
  rewrites s !! to_lowercase domain.

Definition add_rule_live (s : FilterEngine) (rule : str) : FilterEngine :=
  let new_rules := fst (Rules.add_rule (rules s) rule) in
  store_rules (Rules.build new_rules) s.

Definition stats (s : FilterEngine) : nat * nat * nat :=
  (Rules.blocked_count (rules s), Rules.allowed_count (rules s), size (rewrites s)).

(** ** What a reload loads *)

Definition setting_is (key v : str) (t : Db) : bool :=
  match setting key t with Some x => x =s? v | None => false end.

(** The lines of the parental control settings. *)
Definition parental_lines (t : Db) : list str :=
  if setting_is "parental_control_enabled" "true" t then
    let level := default (lit "none") (setting "parental_control_level" t) in
    if negb (level =s? "none") then
      concat (map (fun c => category_rules (pc_domains c))
        (List.filter (fun c => pc_level c =s? level) (parental_control_categories t)))
    else []
  else [].

(** The last pair for the name, whatever the case of the pairs. *)
Definition last_rewrite (ps : list (str * str)) (domain : str) : option str :=
  snd <$> find (fun r => to_lowercase (fst r) =s? to_lowercase domain) (rev ps).

(** Safe search comes before the table, and the last row of the table before
    the others. *)
Definition rewrite_of (t : Db) (domain : str) : option str :=
  let table := last_rewrite (map (fun r => (dr_domain r, dr_answer r)) (dns_rewrites t)) domain in
  if setting_is "safe_search_enabled" "true" t then
    match last_rewrite safe_search_rules domain with Some a => Some a | None => table end
  else table.

Lemma fold_insert_rewrite ps m domain :
  fold_left insert_rewrite ps m !! to_lowercase domain =
    match last_rewrite ps domain with Some a => Some a | None => m !! to_lowercase domain end.
Proof.
  unfold last_rewrite. induction ps as [|p ps IH] using rev_ind; [done|].
  rewrite fold_left_app, rev_app_distr. simpl. unfold insert_rewrite at 1.
  destruct (_ =s? _)%dns eqn:Heq.
  - apply str_eqb_eq in Heq. rewrite Heq. by rewrite lookup_insert_eq.
  - apply str_eqb_neq in Heq. rewrite lookup_insert_ne by done. apply IH.
Qed.

Lemma fold_add_step_count ls rs n :
  fold_left Rules.add_step ls (rs, n) =
    (fst (Rules.add_rules rs ls), n + snd (Rules.add_rules rs ls)).
Proof.
  unfold Rules.add_rules. revert rs n. induction ls as [|l ls IH]; intros rs n; simpl.
  - f_equal. lia.
  - destruct (Rules.add_rule rs l) as [rs' b]. rewrite IH, (IH rs' (if b then 0 + 1 else 0)). simpl.
    f_equal. destruct b; lia.
Qed.

Lemma add_rules_app rs ls1 ls2 :
  fst (Rules.add_rules rs (ls1 ++ ls2)) = fst (Rules.add_rules (fst (Rules.add_rules rs ls1)) ls2).
Proof.
  unfold Rules.add_rules at 1. rewrite fold_left_app, fold_add_step_count.
  by rewrite fold_add_step_count.
Qed.

Lemma fold_categories rows rs :
  fold_left (fun rs row => fst (Rules.add_rules rs (category_rules row))) rows rs =
  fst (Rules.add_rules rs (concat (map category_rules rows))).
Proof.
  revert rs. induction rows as [|row rows IH]; intros rs; [done|]. simpl.
  by rewrite add_rules_app, IH.
Qed.

Lemma computes_setting_or key d :
  computes (setting_or key d) (fun t => Ok (default d (setting key t))).
Proof.
  eapply computes_ext; [|unfold setting_or; solve_computes].
  intros t. simpl. by destruct (setting key t).
Qed.

Lemma reads_setting_or key d : reads_only (setting_or key d).
Proof. unfold setting_or. solve_reads. Qed.

Lemma reads_parental rs : reads_only (parental_rules rs).
Proof. unfold parental_rules. solve_reads; apply reads_setting_or. Qed.

Lemma setting_default key d t :
  lit "true" <> d -> (default d (setting key t) =s? "true") = setting_is key "true" t.
Proof.
  intros Hd. unfold setting_is. destruct (setting key t); [done|].
  apply str_eqb_neq. simpl. congruence.
Qed.

Lemma computes_parental rs :
  computes (parental_rules rs) (fun t => Ok (fst (Rules.add_rules rs (parental_lines t)))).
Proof.
  unfold parental_rules, parental_lines. eapply computes_ext.
  2: { eapply computes_bind; [apply computes_setting_or|]. intros v.
       instantiate (1 := fun v t => if v =s? "true" then _ else _). cbn beta.
       destruct (v =s? "true"); [|apply computes_ret].
       eapply computes_bind; [apply computes_setting_or|]. intros level.
       instantiate (1 := fun level t => if negb (level =s? "none") then _ else _). cbn beta.
       destruct (negb (level =s? "none")); [|apply computes_ret]. solve_computes. }
  intros t. cbn beta iota. rewrite setting_default by done.
  destruct (setting_is _ _ t); [|done]. destruct (negb _); [|done].
  by rewrite fold_categories, map_map.
Qed.

(** The part of [reload] before the stores. *)
Definition build_new (now_rfc3339 : str) : M FilterEngine DbError (Rules.RuleSet * gmap str str) :=
  let! expected_count := catch (fetch_one (fun t => Some (N.of_nat (length (active_rules now_rfc3339 t))))) in
  let! rows := fetch_all (active_rules now_rfc3339) in
  let! list_count := fetch_one (fun t => Some (length (List.filter fl_is_enabled (filter_lists t)))) in
  let! rewrite_rows := fetch_all (fun t => map (fun r => (dr_domain r, dr_answer r)) (dns_rewrites t)) in
  let! safe := setting_or "safe_search_enabled" "false" in
  let! rs := parental_rules (fst (Rules.add_rules Rules.new rows)) in
  ret (Rules.build rs,
       if safe =s? "true" then fold_left insert_rewrite safe_search_rules (fold_left insert_rewrite rewrite_rows ∅)
       else fold_left insert_rewrite rewrite_rows ∅).

Lemma reload_build_new now s :
  reload now s =
    match build_new now s with
    | (Ok (r, m), s') => (Ok tt, store_rewrites m (store_rules r s'))
    | (Err e, s') => (Err e, s')
    end.
Proof.
  unfold reload, build_new, bind, modify, ret.
  destruct (catch _ s) as [[n|e] s1]; [|done].
  destruct (fetch_all (active_rules now) s1) as [[rows|e] s2]; [|done].
  change (Rules.with_capacity _) with Rules.new.
  destruct (Rules.add_rules Rules.new rows) as [rs0 k].
  destruct (fetch_one _ s2) as [[c|e] s3]; [|done].
  destruct (fetch_all _ s3) as [[rw|e] s4]; [|done].
  destruct (setting_or _ _ s4) as [[ss|e] s5]; [|done].
  by destruct (parental_rules _ s5) as [[r|e] s6].
Qed.

Lemma reads_build_new now : reads_only (build_new now).
Proof.
  unfold build_new. solve_reads; [apply reads_setting_or|apply reads_parental].
Qed.

Lemma computes_build_new now :
  computes (build_new now) (fun t => Ok
    (Rules.build (fst (Rules.add_rules Rules.new (active_rules now t ++ parental_lines t))),
     let table := fold_left insert_rewrite (map (fun r => (dr_domain r, dr_answer r)) (dns_rewrites t)) ∅ in
     if setting_is "safe_search_enabled" "true" t then fold_left insert_rewrite safe_search_rules table
     else table)).
Proof.
  unfold build_new. eapply computes_ext.
  2: { solve_computes; [apply computes_setting_or|apply computes_parental]. }
  intros t. cbn beta iota. by rewrite setting_default, add_rules_app by done.
Qed.

(** a reload that fails changes nothing of what the queries see: the rules
    and the rewrites stay as they were, and so does the database. *)
Theorem reload_failure_keeps now s e s' :
  reload now s = (Err e, s') ->
  rules s' = rules s /\ rewrites s' = rewrites s /\ tables (db s') = tables (db s) /\
  (forall domain, is_blocked s' domain = is_blocked s domain /\ check_rewrite s' domain = check_rewrite s domain).
Proof.
  rewrite reload_build_new. destruct (reads_build_new now s) as [n Hn].
  destruct (build_new now s) as [[[r m]|e'] s1]; simpl in Hn; [done|].
  intros [= _ <-]. by subst s1.
Qed.

(** The rewrites a reload leaves. *)
Definition rewrites_table (t : Db) : gmap str str :=
  let table := fold_left insert_rewrite (map (fun r => (dr_domain r, dr_answer r)) (dns_rewrites t)) ∅ in
  if setting_is "safe_search_enabled" "true" t then fold_left insert_rewrite safe_search_rules table else table.
Lemma rewrites_table_lookup t domain : rewrites_table t !! to_lowercase domain = rewrite_of t domain.
Proof.
  unfold rewrites_table, rewrite_of. cbn zeta. destruct (setting_is _ _ _); rewrite !fold_insert_rewrite, ?lookup_empty.
  - destruct (last_rewrite safe_search_rules domain); [done|]. by destruct (last_rewrite _ domain).
  - by destruct (last_rewrite _ domain).
Qed.
Lemma reload_works now s :
  db_works s -> exists n, reload now s = (Ok tt,
    {| rules := Rules.build (fst (Rules.add_rules Rules.new (active_rules now (tables (db s)) ++ parental_lines (tables (db s)))));
       rewrites := rewrites_table (tables (db s));
       db := {| tables := tables (db s); calls := n; faults := faults (db s) |} |}).
Proof.
  intros Hs. rewrite reload_build_new. destruct (computes_build_new now s Hs) as [n ->]. by exists n.
Qed.
(** A reload leaves the tables alone, whatever fails. *)
Lemma reload_tables now s :
  tables (db (snd (reload now s))) = tables (db s) /\ faults (db (snd (reload now s))) = faults (db s).
Proof.
  rewrite reload_build_new. destruct (reads_build_new now s) as [n Hn].
  destruct (build_new now s) as [[[r m]|e'] s1]; cbn [snd] in *; subst s1; done.
Qed.

(** C25: on a working connection a reload succeeds, and the engine then holds
    exactly the enabled rules that have not expired and the domains of the
    parental control level, compiled, and rewrites a name, in any case of its
    letters, to its safe search host when safe search is on, else to the
    answer of the last row for it.  Nothing of the earlier contents is left,
    and the tables are as they were. *)
Theorem reload_correct now s :
  db_works s ->
  let '(r, s') := reload now s in
  r = Ok tt /\ tables (db s') = tables (db s) /\
  rules s' = Rules.build (fst (Rules.add_rules Rules.new
    (active_rules now (tables (db s)) ++ parental_lines (tables (db s))))) /\
  forall domain, check_rewrite s' domain = rewrite_of (tables (db s)) domain.
Proof.
  intros Hs. destruct (reload_works now s Hs) as [n ->]. repeat split. apply rewrites_table_lookup.
Qed.

Lemma build_add_rule rs line : Rules.build (fst (Rules.add_rule (Rules.build rs) line)) = Rules.build (fst (Rules.add_rule rs line)).
Proof. unfold Rules.add_rule. repeat case_match; done. Qed.

(** adding a rule at run time gives the engine that a reload of the same
    lines and that one would give: no query can tell them apart, wildcards
    included, and the rewrites stay. *)
Theorem add_rule_live_correct s lines line domain :
  rules s = Rules.build (fst (Rules.add_rules Rules.new lines)) ->
  rules (add_rule_live s line) = Rules.build (fst (Rules.add_rules Rules.new (lines ++ [line]))) /\
  check_rewrite (add_rule_live s line) domain = check_rewrite s domain.
Proof.
  intros Hs. split; [|done]. unfold add_rule_live. simpl. rewrite Hs, build_add_rule, add_rules_app.
  f_equal. unfold Rules.add_rules at 2. simpl. by destruct (Rules.add_rule _ line).
Qed.

End filter.
End FilterEngine.

Module FilterWitness.
Import AsciiUnicode RefRegex RefJson FilterEngine.

Definition rule_row (r : string) (e : bool) (x : option string) : CustomRule :=
  {| cr_id := []; cr_rule := lit r; cr_comment := None; cr_is_enabled := e; cr_created_by := [];
     cr_created_at := []; cr_expires_at := lit <$> x |}.
Definition rewrite_row (d a : string) : DnsRewrite :=
  {| dr_id := []; dr_domain := lit d; dr_answer := lit a; dr_created_by := []; dr_created_at := [] |}.
Definition example_db : Db :=
  set_settings
    (set_parental_control_categories
      (set_dns_rewrites
        (set_custom_rules empty_db
          [rule_row "||ads.com^" true None; rule_row "||off.com^" false None; rule_row "||old.com^" true (Some "2025"%string);
           rule_row "||new.com^" true (Some "2027"%string)])
        [rewrite_row "Router.lan" "10.0.0.1"; rewrite_row "www.google.com" "1.2.3.4"])
      [{| pc_id := []; pc_name := []; pc_description := None; pc_created_at := []; pc_level := lit "basic"; pc_domains := json_of_strings [lit "bad.com"; lit "worse.com"] |}])
    {[ lit "safe_search_enabled" := lit "true"; lit "parental_control_enabled" := lit "true";
       lit "parental_control_level" := lit "basic" ]}.
Definition example_engine (faults : N -> bool) : FilterEngine :=
  {| rules := Rules.new; rewrites := ∅; db := {| tables := example_db; calls := 0; faults := faults |} |}.

Example reload_tests :
  let s := snd (reload (lit "2026") (example_engine (fun _ => false))) in
  (map (fun d => is_blocked s (lit d)) ["x.ads.com"; "off.com"; "old.com"; "new.com"; "bad.com"; "worse.com"],
   map (fun d => check_rewrite s (lit d)) ["ROUTER.lan"; "WWW.google.com"; "x.org"])%string
  = ([true; false; false; true; true; true], [Some (lit "10.0.0.1"); Some (lit "forcesafesearch.google.com"); None]).
Proof. vm_compute. reflexivity. Qed.

Lemma reload_failure_keeps_witness :
  is_blocked (snd (reload (lit "2026") (example_engine (N.eqb 3)))) (lit "ads.com") = false.
Proof.
  destruct (reload (lit "2026") (example_engine (N.eqb 3))) as [r s'] eqn:Hr.
  assert (r = Err DbFault) as ->.
  { transitivity (fst (reload (lit "2026") (example_engine (N.eqb 3)))); [by rewrite Hr|vm_compute; reflexivity]. }
  destruct (reload_failure_keeps _ _ _ _ Hr) as (_ & _ & _ & Hb).
  cbn [snd]. rewrite (proj1 (Hb (lit "ads.com"))). vm_compute. reflexivity.
Defined.

Lemma reload_correct_witness :
  check_rewrite (snd (reload (lit "2026") (example_engine (fun _ => false)))) (lit "YouTube.com")
  = Some (lit "restrict.youtube.com").
Proof.
  pose proof (reload_correct (lit "2026") (example_engine (fun _ => false)) (fun _ => eq_refl)) as H.
  destruct (reload _ _) as [r s']. destruct H as (_ & _ & _ & H). cbn [snd].
  rewrite H. vm_compute. reflexivity.
Defined.

Lemma add_rule_live_correct_witness :
  rules (add_rule_live (example_engine (fun _ => false)) (lit "||ad-*.x.com^"))
  = Rules.build (fst (Rules.add_rules Rules.new [lit "||ad-*.x.com^"])).
Proof. apply (add_rule_live_correct (example_engine (fun _ => false)) [] (lit "||ad-*.x.com^") []). vm_compute. reflexivity. Defined.

End FilterWitness.
