(* ===== verification/Resolver.v ===== *)
(** * Upstream resolvers: src/dns/resolver.rs

    The texts that name an upstream, the name servers they stand for, and the
    reply made from the outcome of a lookup.  The hickory resolver, which
    talks to the name servers, and the system's host lookup are parameters:
    the class [HickoryResolver]; what they answer may differ from call to
    call, so a lookup is given the number of the call. *)
From S2P Require Import Prelude RustStr IpAddr Hickory.
Local Open Scope N_scope.

Inductive Protocol := Udp | Tcp.

(** What [TokioAsyncResolver::lookup] can fail with. *)
Inductive ResolveErrorKind := NoRecordsFound (response_code : ResponseCode) | OtherError.

Class HickoryResolver `{Hickory} := {
  NameServerConfig : Type;
  ns_new : SocketAddr -> Protocol -> NameServerConfig;
  (** [NameServerConfigGroup::from_ips_https] and [from_ips_tls] *)
  from_ips_https : list IpAddr -> N -> str -> list NameServerConfig;
  from_ips_tls : list IpAddr -> N -> str -> list NameServerConfig;
  (** [ResolverConfig::cloudflare] *)
  cloudflare : list NameServerConfig;
  (** [ToSocketAddrs] of a text: the addresses of its host *)
  to_socket_addrs : str -> option (list SocketAddr);
  (** [lookup] of the [n]-th call, through the name servers *)
  lookup : N -> list NameServerConfig -> str -> RecordType -> result (list RRecord) ResolveErrorKind;
}.

(** The address of a name server, and what the crate documents of it. *)
Class HickoryResolverDoc `{HickoryResolver} := {
  ns_addr : NameServerConfig -> SocketAddr;
  ns_addr_new : forall a p, ns_addr (ns_new a p) = a;
  ns_addr_https : forall ips port host,
    map ns_addr (from_ips_https ips port host) = map (fun ip => {| sa_ip := ip; sa_port := port |}) ips;
  ns_addr_tls : forall ips port host,
    map ns_addr (from_ips_tls ips port host) = map (fun ip => {| sa_ip := ip; sa_port := port |}) ips;
  cloudflare_nonempty : cloudflare <> [];
}.

Module Resolver.

(** ** Upstream URLs *)

Inductive UrlError := BadScheme | EmptyHost | MalformedIpv6 | InvalidPort.

(** The host and port of an authority; both URL parsers have this part. *)
Definition split_authority (authority : str) (default_port : N) : result (str * N) UrlError :=
  if starts_with_char authority lbracket then
    match rsplit_once authority rbracket with
    | None => Err MalformedIpv6
    | Some (before, port_part) =>
        let host_part := drop 1 before in
        if is_empty port_part then Ok (host_part, default_port)
        else match strip_prefix port_part ":" with
             | Some p => match parse_u16 p with
                         | Some port => Ok (host_part, port)
                         | None => Err InvalidPort
                         end
             | None => Err InvalidPort
             end
    end
  else match rsplit_once authority colon with
       | Some (host_part, port_str) =>
           match parse_u16 port_str with
           | Some port => Ok (host_part, port)
           | None => Err InvalidPort
           end
       | None => Ok (authority, default_port)
       end.

Definition parse_dot_url (url : str) : result (str * N) UrlError :=
  try! rest := ok_or (strip_prefix url "tls://") BadScheme in
  if is_empty rest then Err EmptyHost
  else
    let authority := match split_once rest slash with Some (a, _) => a | None => rest end in
    try! host_port := split_authority authority 853 in
    if is_empty (fst host_port) then Err EmptyHost else Ok host_port.

Definition parse_doh_url (url : str) : result (str * N * str) UrlError :=
  try! rest := ok_or (strip_prefix url "https://") BadScheme in
  if is_empty rest then Err EmptyHost
  else
    let '(authority, path) :=
      match split_once rest slash with Some (a, p) => (a, slash :: p) | None => (rest, lit "/dns-query") end in
    try! host_port := split_authority authority 443 in
    if is_empty (fst host_port) then Err EmptyHost
    else Ok (fst host_port, snd host_port, path).

(** A host as it stands in a URL, with the brackets of an IPv6 literal. *)
Inductive url_host : str -> str -> Prop :=
| Plain h : h <> [] -> starts_with_char h lbracket = false -> colon ∉ h -> slash ∉ h -> url_host h h
| Bracketed h : h <> [] -> rbracket ∉ h -> slash ∉ h -> url_host (lbracket :: h ++ [rbracket]) h.

Lemma rsplit_once_app a b c : c ∉ b -> rsplit_once (a ++ c :: b) c = Some (a, b).
Proof.
  intros Hb. unfold rsplit_once. rewrite rev_app_distr. simpl. rewrite <- app_assoc. simpl.
  rewrite split_once_app; [by rewrite !rev_involutive|].
  intros Hin. by apply list_elem_of_In, in_rev, list_elem_of_In in Hin.
Qed.

Lemma rsplit_once_None s c : c ∉ s -> rsplit_once s c = None.
Proof.
  intros Hs. unfold rsplit_once. rewrite (proj2 (split_once_None _ _)); [done|].
  intros Hin. by apply list_elem_of_In, in_rev, list_elem_of_In in Hin.
Qed.

Lemma show_N_lacks n c : is_ascii_digit c = false -> c ∉ show_N n.
Proof. intros Hc Hin. apply show_N_digits in Hin. congruence. Qed.

Lemma split_authority_host t h d : url_host t h -> split_authority t d = Ok (h, d).
Proof.
  intros [h' Hne Hl Hc _|h' Hne Hr _]; unfold split_authority.
  - by rewrite Hl, rsplit_once_None.
  - rewrite app_comm_cons, rsplit_once_app by apply not_elem_of_nil. done.
Qed.

Lemma split_authority_port t h d p :
  url_host t h -> p <= 65535 -> split_authority (t ++ colon :: show_N p) d = Ok (h, p).
Proof.
  intros Hh Hp. assert (Hcol : colon ∉ show_N p) by by apply show_N_lacks.
  assert (Hrb : rbracket ∉ show_N p) by by apply show_N_lacks.
  destruct Hh as [h' Hne Hl Hc _|h' Hne Hr _]; unfold split_authority.
  - assert (starts_with_char (h' ++ colon :: show_N p) lbracket = false) as ->.
    { destruct h' as [|c h']; [done|]. exact Hl. }
    rewrite rsplit_once_app by done. unfold parse_u16. by rewrite parse_show_N.
  - cbn [starts_with_char app]. rewrite N.eqb_refl, <- app_assoc. cbn [app].
    rewrite app_comm_cons, rsplit_once_app.
    + cbn [is_empty]. change (colon :: show_N p) with (lit ":" ++ show_N p).
      rewrite strip_prefix_app. unfold parse_u16. by rewrite parse_show_N.
    + intros [Heq|Hin]%elem_of_cons; [discriminate|done].
Qed.

Lemma url_host_chars t h : url_host t h -> (slash ∉ t) /\ t <> [] /\ h <> [].
Proof.
  intros [h' Hne _ _ Hs|h' Hne _ Hs]; [done|]. split; [|done].
  rewrite elem_of_cons, elem_of_app, list_elem_of_singleton. naive_solver.
Qed.

(** A URL of a host, perhaps a port and perhaps a path gives them back: DNS
    over TLS defaults to port 853 and ignores the path, DNS over HTTPS to 443
    and to the path /dns-query. *)
Theorem parse_urls_correct t h port path :
  url_host t h ->
  match port with Some p => p <= 65535 | None => True end ->
  let authority := t ++ match port with Some p => colon :: show_N p | None => [] end in
  let rest := authority ++ match path with Some p => slash :: p | None => [] end in
  parse_dot_url (lit "tls://" ++ rest) = Ok (h, default 853 port) /\
  parse_doh_url (lit "https://" ++ rest) =
    Ok (h, default 443 port, match path with Some p => slash :: p | None => lit "/dns-query" end).
Proof.
  intros Hh Hp authority rest.
  destruct (url_host_chars _ _ Hh) as (Hts & Hte & Hhe).
  assert (Ha : forall d, split_authority authority d = Ok (h, default d port)).
  { intros d. unfold authority. destruct port as [p|].
    - by rewrite (split_authority_port _ _ _ _ Hh Hp).
    - rewrite app_nil_r. by apply split_authority_host. }
  assert (Hs : slash ∉ authority).
  { unfold authority. intros [Hin|Hin]%elem_of_app; [done|].
    destruct port as [p|]; [|by apply not_elem_of_nil in Hin].
    apply elem_of_cons in Hin as [Heq|Hin]; [discriminate|].
    by apply show_N_digits in Hin. }
  assert (Hr : rest <> []).
  { unfold rest, authority. destruct t; [done|discriminate]. }
  assert (Hhe' : is_empty h = false) by by apply is_empty_false.
  unfold parse_dot_url, parse_doh_url. rewrite !strip_prefix_app. cbn [ok_or].
  rewrite (proj2 (is_empty_false rest) Hr). unfold rest. destruct path as [p|].
  - rewrite split_once_app by done. rewrite !Ha. cbn [fst snd]. by rewrite Hhe'.
  - rewrite app_nil_r. rewrite (proj2 (split_once_None _ _)) by done. rewrite !Ha. cbn [fst snd]. by rewrite Hhe'.
Qed.

Section resolver.
Context `{Hickory, !HickoryResolver}.

(** ** The name servers of a list of upstreams *)

Record DnsResolver := { inner : list NameServerConfig; ipv4_only : bool }.

(** A DoH or DoT upstream: the addresses of the host, the family filtered. *)
Definition secure_servers (prefer_ipv4 : bool) (host : str) (port : N)
    (group : list IpAddr -> N -> str -> list NameServerConfig) : list NameServerConfig :=
  match to_socket_addrs (host ++ lit ":" ++ show_N port) with
  | Some addrs =>
      let ips := map sa_ip (List.filter (fun a => if prefer_ipv4 then is_ipv4 (sa_ip a) else true) addrs) in
      if match ips with [] => true | _ => false end then [] else group ips port host
  | None => []
  end.

(** A plain address, with or without a port. *)
Definition plain_servers (prefer_ipv4 : bool) (rest : str) (p : Protocol) : list NameServerConfig :=
  match parse_socket_addr rest with
  | Some a => if prefer_ipv4 && is_ipv6 (sa_ip a) then [] else [ns_new a p]
  | None =>
      match parse_ip rest with
      | Some ip => if prefer_ipv4 && is_ipv6 ip then [] else [ns_new {| sa_ip := ip; sa_port := 53 |} p]
      | None => []
      end
  end.

(** The name servers one entry adds. *)
Definition upstream_servers (prefer_ipv4 : bool) (upstream : str) : list NameServerConfig :=
  let upstream := trim upstream in
  if starts_with upstream "https://" then
    match parse_doh_url upstream with
    | Ok (host, port, _) => secure_servers prefer_ipv4 host port from_ips_https
    | Err _ => []
    end
  else if starts_with upstream "tls://" then
    match parse_dot_url upstream with
    | Ok (host, port) => secure_servers prefer_ipv4 host port from_ips_tls
    | Err _ => []
    end
  else match strip_prefix upstream "udp://" with
  | Some rest => plain_servers prefer_ipv4 rest Udp
  | None =>
      match strip_prefix upstream "tcp://" with
      | Some rest => plain_servers prefer_ipv4 rest Tcp
      | None => plain_servers prefer_ipv4 upstream Udp
      end
  end.

(** The loop: the configuration and the number of servers added. *)
Definition add_upstream (prefer_ipv4 : bool) (x : list NameServerConfig * nat) (upstream : str)
    : list NameServerConfig * nat :=
  let servers := upstream_servers prefer_ipv4 upstream in
  (fst x ++ servers, (snd x + length servers)%nat).

(** [with_upstreams] never fails. *)
Definition with_upstreams (upstreams : list str) (prefer_ipv4 : bool) : DnsResolver :=
  let '(config, added) := fold_left (add_upstream prefer_ipv4) upstreams ([], 0%nat) in
  if (added =? 0)%nat then {| inner := cloudflare; ipv4_only := prefer_ipv4 |}
  else {| inner := config; ipv4_only := prefer_ipv4 |}.

(** [new]: nothing calls it; the fall back of [with_upstreams] is the same. *)
Definition new (prefer_ipv4 : bool) : DnsResolver := {| inner := cloudflare; ipv4_only := prefer_ipv4 |}.
Lemma fall_back_new b : with_upstreams [] b = new b.
Proof. reflexivity. Qed.

Lemma fold_add_upstream b us x :
  fold_left (add_upstream b) us x =
    (fst x ++ concat (map (upstream_servers b) us),
     (snd x + length (concat (map (upstream_servers b) us)))%nat).
Proof.
  revert x. induction us as [|u us IH]; intros [c n]; simpl.
  - by rewrite app_nil_r, Nat.add_0_r.
  - rewrite IH. simpl. by rewrite <- app_assoc, length_app, Nat.add_assoc.
Qed.

Lemma with_upstreams_alt us b :
  with_upstreams us b =
    {| inner := match concat (map (upstream_servers b) us) with [] => cloudflare | c => c end;
       ipv4_only := b |}.
Proof. unfold with_upstreams. rewrite fold_add_upstream. simpl. by destruct (concat _). Qed.

Section servers.
Context `{!HickoryResolverDoc}.

Definition ipv4_server (s : NameServerConfig) : Prop := is_ipv4 (sa_ip (ns_addr s)) = true.

Lemma secure_servers_ipv4 host port group :
  (forall ips port host,
    map ns_addr (group ips port host) = map (fun ip => {| sa_ip := ip; sa_port := port |}) ips) ->
  Forall ipv4_server (secure_servers true host port group).
Proof.
  intros Hg. unfold secure_servers. destruct (to_socket_addrs _) as [addrs|]; [|constructor].
  set (ips := map sa_ip _). destruct (match ips with [] => true | _ => false end); [constructor|].
  assert (Hips : Forall (fun ip => is_ipv4 ip = true) ips).
  { apply Forall_forall. intros ip Hin. apply list_elem_of_In, in_map_iff in Hin as (a & <- & Ha).
    by apply filter_In in Ha as [_ Ha]. }
  assert (Hm : Forall (fun a => is_ipv4 (sa_ip a) = true) (map ns_addr (group ips port host))).
  { rewrite Hg. clear -Hips. induction Hips; simpl; by constructor. }
  clear -Hm. induction (group ips port host) as [|s l IH]; [constructor|].
  simpl in Hm. apply Forall_cons in Hm as [? ?]. constructor; [done|by apply IH].
Qed.

Lemma plain_servers_ipv4 rest p : Forall ipv4_server (plain_servers true rest p).
Proof.
  unfold plain_servers, is_ipv6, ipv4_server.
  destruct (parse_socket_addr rest) as [a|]; [|destruct (parse_ip rest) as [ip|]; [|constructor]].
  - destruct (is_ipv4 (sa_ip a)) eqn:Ha; [|constructor]. constructor; [by rewrite ns_addr_new|constructor].
  - destruct (is_ipv4 ip) eqn:Ha; [|constructor]. constructor; [by rewrite ns_addr_new|constructor].
Qed.

Lemma with_upstreams_nonempty us b : inner (with_upstreams us b) <> [].
Proof. rewrite with_upstreams_alt. cbn [inner]. destruct (concat _); [apply cloudflare_nonempty|done]. Qed.

(** A resolver always has a name server to ask.  Its servers are those of its
    entries in their order, or Cloudflare's when no entry stands for one; an
    entry that is malformed or cannot be resolved never drops another.  With
    prefer_ipv4 every server of an entry has an IPv4 address. *)
Theorem with_upstreams_correct us b :
  inner (with_upstreams us b) <> [] /\
  (forall us1 u us2, us = us1 ++ u :: us2 -> upstream_servers b u <> [] ->
    inner (with_upstreams us b) =
      concat (map (upstream_servers b) us1) ++ upstream_servers b u ++ concat (map (upstream_servers b) us2)) /\
  ((forall u, u ∈ us -> upstream_servers b u = []) -> inner (with_upstreams us b) = cloudflare) /\
  (b = true -> inner (with_upstreams us b) = cloudflare \/ Forall ipv4_server (inner (with_upstreams us b))).
Proof.
  split; [apply with_upstreams_nonempty|].
  rewrite with_upstreams_alt. cbn [inner]. split; [|split].
  - intros us1 u us2 -> Hu. rewrite map_app, concat_app. simpl.
    destruct (upstream_servers b u) as [|s l]; [done|]. by destruct (concat (map _ us1)).
  - intros Hall. assert (concat (map (upstream_servers b) us) = []) as ->; [|done].
    induction us as [|u us IH]; [done|]. simpl. rewrite Hall by left. apply IH. intros v Hv. apply Hall. by right.
  - intros ->. destruct (concat (map (upstream_servers true) us)) eqn:Hc; [by left|]. right. rewrite <- Hc. clear Hc.
    induction us as [|u us IH]; [constructor|]. simpl. apply Forall_app_2; [|apply IH].
    unfold upstream_servers. repeat case_match; try apply plain_servers_ipv4; try constructor.
    all: apply secure_servers_ipv4; first [apply ns_addr_https|apply ns_addr_tls].
Qed.
End servers.

(** ** Resolving *)

(** The calls made to the network so far; the random choices too. *)
Record Env := { net_calls : N; rng_calls : N }.

Definition do_lookup (r : DnsResolver) (domain : str) (qtype : RecordType)
    : M Env ResolveErrorKind (list RRecord) := fun e =>
  (lookup (net_calls e) (inner r) domain qtype,
   {| net_calls := net_calls e + 1; rng_calls := rng_calls e |}).

(** The lowest TTL so far. *)
Definition min_ttl_step (m : option N) (r : RRecord) : option N :=
  Some (match m with None => r_ttl r | Some current => N.min current (r_ttl r) end).

(** The wire format cannot be written. *)
Inductive ResolveFailure := EncodeError.

Context `{!DnsCodec}.

(** The header and question of the reply. *)
Definition reply_base (request : Message) : Message :=
  let response := set_id Message_new (m_id request) in
  let response := set_type response MtResponse in
  let response := set_op response OpQuery in
  let response := set_rd response (m_rd request) in
  let response := set_ra response true in
  fold_left add_query (m_queries request) response.

Definition resolve (r : DnsResolver) (domain : str) (qtype : RecordType) (request : Message)
    : M Env ResolveFailure (list N * option N * option str) :=
  let response := reply_base request in
  let! outcome := catch (do_lookup r domain qtype) in
  let '(response, min_ttl) :=
    match outcome with
    | Ok records =>
        (fold_left add_answer records (set_code response NoError), fold_left min_ttl_step records None)
    | Err (NoRecordsFound response_code) => (set_code response response_code, None)
    | Err OtherError => (set_code response ServFail, None)
    end in
  let! bytes := lift (ok_or (to_vec response) EncodeError) in
  ret (bytes, min_ttl, None).

(** What the reply to a request says, given the outcome of the lookup. *)
Definition reply_of (request : Message) (outcome : result (list RRecord) ResolveErrorKind) : Message :=
  {| m_id := m_id request; m_type := MtResponse; m_op := OpQuery; m_rd := m_rd request; m_ra := true;
     m_code := match outcome with
               | Ok _ => NoError | Err (NoRecordsFound c) => c | Err OtherError => ServFail end;
     m_queries := m_queries request;
     m_answers := match outcome with Ok rs => rs | Err _ => [] end |}.
Definition ttl_of (outcome : result (list RRecord) ResolveErrorKind) : option N :=
  match outcome with Ok rs => fold_left min_ttl_step rs None | Err _ => None end.

Lemma fold_min_ttl rs m :
  match fold_left min_ttl_step rs m with
  | None => rs = [] /\ m = None
  | Some t => (forall r, r ∈ rs -> t <= r_ttl r) /\ (forall t0, m = Some t0 -> t <= t0) /\
              (m = Some t \/ exists r, r ∈ rs /\ r_ttl r = t)
  end.
Proof.
  revert m. induction rs as [|r rs IH]; intros m; simpl.
  - destruct m as [t|]; [|done]. split; [by intros r ?%not_elem_of_nil|]. split; [intros t0 [= <-]; lia|by left].
  - specialize (IH (min_ttl_step m r)). destruct (fold_left _ rs _) as [t|]; [|by destruct IH].
    destruct IH as (Hall & Hm & Hin). unfold min_ttl_step in *. specialize (Hm _ eq_refl).
    split; [|split].
    + intros r' [->|Hr']%elem_of_cons; [destruct m; lia|by apply Hall].
    + intros t0 ->. lia.
    + destruct Hin as [[= Hin]|(r' & Hr' & Ht)].
      * destruct m as [t0|]; [|right; exists r; split; [left|done]].
        destruct (N.min_spec t0 (r_ttl r)) as [[_ Hmin]|[_ Hmin]]; rewrite Hmin in Hin; subst.
        -- by left.
        -- right. exists r. split; [left|done].
      * right. exists r'. split; [by right|done].
Qed.

Lemma resolve_run r domain qtype request e :
  resolve r domain qtype request e =
    let outcome := lookup (net_calls e) (inner r) domain qtype in
    (match to_vec (reply_of request outcome) with
     | Some bytes => Ok (bytes, ttl_of outcome, None)
     | None => Err EncodeError
     end, {| net_calls := net_calls e + 1; rng_calls := rng_calls e |}).
Proof.
  unfold resolve, bind, catch, do_lookup. cbn zeta.
  unfold reply_of, ttl_of, reply_base. rewrite fold_add_query.
  destruct (lookup _ _ _ _) as [rs|[c|]].
  - rewrite fold_add_answer. cbn. destruct (to_vec _); done.
  - cbn. by destruct (to_vec _).
  - cbn. by destruct (to_vec _).
Qed.

(** One lookup, and a reply the client can match: whatever the lookup gives,
    the bytes decode to a response with the identifier, the question and the
    recursion flag of the request, whose code and answers are those of the
    outcome; the TTL handed to the cache is the lowest of the answers, and
    there is none exactly when there are no answers.  A failure of the
    upstream is no error of [resolve] but the code SERVFAIL. *)
Theorem resolve_correct `{!HickoryDoc} r domain qtype request e bytes min_ttl name e' :
  m_id request < 65536 ->
  resolve r domain qtype request e = (Ok (bytes, min_ttl, name), e') ->
  let outcome := lookup (net_calls e) (inner r) domain qtype in
  net_calls e' = net_calls e + 1 /\ name = None /\
  from_vec bytes = Some (reply_of request outcome) /\
  match outcome with
  | Ok rs =>
      match min_ttl with
      | Some t => (forall x, x ∈ rs -> t <= r_ttl x) /\ exists x, x ∈ rs /\ r_ttl x = t
      | None => rs = []
      end
  | Err _ => min_ttl = None
  end.
Proof.
  intros Hid. rewrite resolve_run. cbn zeta. set (outcome := lookup _ _ _ _).
  destruct (to_vec (reply_of request outcome)) as [bs|] eqn:Hv; [|done].
  intros [= <- <- <- <-]. split; [done|]. split; [done|]. split; [by apply to_from_vec|].
  unfold ttl_of. destruct outcome as [rs|]; [|done].
  pose proof (fold_min_ttl rs None) as Hm. destruct (fold_left _ rs None) as [t|].
  - destruct Hm as (Ha & _ & [?|Hx]); [done|]. done.
  - by destruct Hm.
Qed.

End resolver.
End Resolver.

(** ** A reference network, and concrete inputs *)

Module RefResolver.
Import RefHickory.

(** One host name is known; lookups give two records, except the ones of
    [down.com], which fail, and of [nx.com], which has no records. *)
#[export] Instance network : HickoryResolver := {
  NameServerConfig := (SocketAddr * str)%type;
  ns_new a p := (a, match p with Udp => lit "udp" | Tcp => lit "tcp" end);
  from_ips_https ips port host := map (fun ip => ({| sa_ip := ip; sa_port := port |}, lit "https")) ips;
  from_ips_tls ips port host := map (fun ip => ({| sa_ip := ip; sa_port := port |}, lit "tls")) ips;
  cloudflare := [({| sa_ip := V4 1 1 1 1; sa_port := 53 |}, lit "udp")];
  to_socket_addrs t :=
    match parse_socket_addr t with
    | Some a => Some [a]
    | None =>
        match split_once t colon with
        | Some (h, p) =>
            if h =s? "dns.google" then
              match parse_u16 p with
              | Some port => Some [{| sa_ip := V4 8 8 8 8; sa_port := port |};
                                   {| sa_ip := V6 8193 0 0 0 0 0 0 1; sa_port := port |}]
              | None => None
              end
            else None
        | None => None
        end
    end;
  lookup n servers domain qtype :=
    if starts_with domain "down.com" then Err OtherError
    else if starts_with domain "nx.com" then Err (NoRecordsFound NXDomain)
    else Ok [{| r_name := domain; r_type := qtype; r_class := tt; r_ttl := 60; r_data := Some (inl (V4 9 9 9 9)) |};
             {| r_name := domain; r_type := qtype; r_class := tt; r_ttl := 30; r_data := Some (inl (V4 9 9 9 8)) |}] }.

#[export] Instance doc : HickoryResolverDoc.
Proof.
  refine {| ns_addr := fst |}; try done.
  - intros ips port host. simpl. by rewrite map_map.
  - intros ips port host. simpl. by rewrite map_map.
Qed.
End RefResolver.

Module ResolverWitness.
Import RefHickory RefResolver Resolver.

Example servers_tests :
  map (fun us => inner (with_upstreams (map lit us) true))
    [["8.8.8.8"; "[::1]:53"; "tcp://9.9.9.9:5353"]; ["tls://dns.google"; "https://[fe80::1]/x"; "tls://dns.google:99999"];
     ["not an address"; "2001:db8::1"]]%string
  = [[({| sa_ip := V4 8 8 8 8; sa_port := 53 |}, lit "udp"); ({| sa_ip := V4 9 9 9 9; sa_port := 5353 |}, lit "tcp")];
     [({| sa_ip := V4 8 8 8 8; sa_port := 853 |}, lit "tls")];
     [({| sa_ip := V4 1 1 1 1; sa_port := 53 |}, lit "udp")]].
Proof. vm_compute. reflexivity. Qed.

Definition question (name : string) : Message :=
  {| m_id := 4660; m_type := MtQuery; m_op := OpQuery; m_rd := true; m_ra := false; m_code := NoError;
     m_queries := [{| q_name := lit name; q_type := 1; q_class := tt |}]; m_answers := [] |}.
Definition env0 : Env := {| net_calls := 0; rng_calls := 0 |}.

Lemma parse_urls_correct_witness :
  parse_dot_url (lit "tls://[::1]:8853") = Ok (lit "::1", 8853) /\ parse_doh_url (lit "https://dns.google/resolve") = Ok (lit "dns.google", 443, lit "/resolve").
Proof.
  split.
  - pose proof (parse_urls_correct (lit "[::1]") (lit "::1") (Some 8853) None
      (Bracketed (lit "::1") ltac:(discriminate) ltac:(apply contains_char_false; vm_compute; reflexivity)
        ltac:(apply contains_char_false; vm_compute; reflexivity)) ltac:(vm_compute; discriminate)) as [H _].
    exact H.
  - pose proof (parse_urls_correct (lit "dns.google") (lit "dns.google") None (Some (lit "resolve"))
      (Plain (lit "dns.google") ltac:(discriminate) eq_refl
        ltac:(apply contains_char_false; vm_compute; reflexivity)
        ltac:(apply contains_char_false; vm_compute; reflexivity)) I) as [_ H].
    exact H.
Defined.

Lemma with_upstreams_correct_witness :
  Forall ipv4_server (inner (with_upstreams [lit "::1"; lit "8.8.8.8"] true)).
Proof.
  destruct (with_upstreams_correct [lit "::1"; lit "8.8.8.8"] true) as (_ & _ & _ & H).
  destruct (H eq_refl) as [Hc|Hf]; [|exact Hf]. exfalso. revert Hc. vm_compute. discriminate.
Defined.

Lemma resolve_correct_witness :
  match resolve (with_upstreams [] true) (lit "a.com.") rtype_A (question "a.com.") env0 with
  | (Ok (bytes, Some t, _), _) => t <= 60 /\ exists m, from_vec bytes = Some m /\ m_id m = 4660
  | _ => False
  end.
Proof.
  destruct (resolve (with_upstreams [] true) (lit "a.com.") rtype_A (question "a.com.") env0)
    as [[[[bytes t] name]|] e'] eqn:Hr.
  - assert (Hid : m_id (question "a.com.") < 65536) by (vm_compute; reflexivity).
    destruct (resolve_correct _ _ _ _ _ _ _ _ _ Hid Hr) as (_ & _ & Hf & Ht).
    destruct t as [t|]; [|discriminate Ht]. split.
    + destruct Ht as [Ht _]. exact (Ht _ (list_elem_of_here _ _)).
    + eexists. split; [exact Hf|reflexivity].
  - exfalso. revert Hr. rewrite resolve_run. vm_compute. discriminate.
Defined.

End ResolverWitness.
