(* ===== verification/UpstreamPool.v ===== *)
(** * The pool of upstreams: src/dns/upstream_pool.rs

    The nodes a query may be sent to, their order under the three strategies,
    the loop that tries them, and the health checks.  The random shuffles of
    the [rand] crate are a parameter, given the number of the shuffle. *)
From S2P Require Import Prelude RustStr IpAddr Regex Hickory Db Resolver.
Local Open Scope N_scope.

(** [SliceRandom::shuffle] of the [n]-th call *)
Class Rng := { shuffle : forall {A}, N -> list A -> list A }.
Class RngDoc `{Rng} := { shuffle_perm : forall A n (l : list A), Permutation (shuffle n l) l }.

Inductive UpstreamStrategy := Priority | LoadBalance | Fastest.

Module UpstreamPool.
Section pool.
Context `{RustUnicode, SerdeJson, Hickory, !HickoryResolver, !DnsCodec, Rng}.

Definition from_string (s : str) : UpstreamStrategy :=
  let s := to_lowercase s in
  if (s =s? "load_balance") || (s =s? "loadbalance") then LoadBalance
  else if s =s? "fastest" then Fastest
  else Priority.

Record UpstreamNode := {
  model : Upstream; resolver : Resolver.DnsResolver; last_latency_ms : Z }.
Record UpstreamPool := { nodes : list UpstreamNode; strategy : UpstreamStrategy }.

(** [Upstream::addresses_vec] *)
Definition addresses_vec (u : Upstream) : option (list str) := json_strings (u_addresses u).

Definition fallback_model (now : Z) : Upstream :=
  {| u_id := lit "fallback"; u_name := lit "Cloudflare/Google Fallback";
     u_addresses := 91 :: 34 :: lit "1.1.1.1:53" ++ [34] ++ lit ", " ++ [34] ++ lit "8.8.8.8:53" ++ [34; 93];
     u_priority := 999; u_is_active := true; u_health_check_enabled := false;
     u_failover_enabled := false; u_health_check_interval := 0; u_health_check_timeout := 0;
     u_failover_threshold := 0; u_health_status := lit "healthy"; u_last_health_check_at := None;
     u_last_failover_at := None; u_created_at := now; u_updated_at := now |}.

(** The node of one row, if the row is to be used. *)
Definition node_of (prefer_ipv4 : bool) (m : Upstream) : option UpstreamNode :=
  if negb (u_is_active m) || (u_health_status m =s? "degraded") || (u_health_status m =s? "dead") then None
  else match addresses_vec m with
       | Some ((_ :: _) as addrs) =>
           Some {| model := m; resolver := Resolver.with_upstreams addrs prefer_ipv4; last_latency_ms := 0 |}
       | _ => None
       end.

Definition node_priority (n : UpstreamNode) : Z := u_priority (model n).

Definition new (upstreams : list Upstream) (strategy_str : str) (prefer_ipv4 : bool) (now : Z) : UpstreamPool :=
  let strategy := from_string strategy_str in
  let nodes := sort_by_key node_priority (filter_map (node_of prefer_ipv4) upstreams) in
  let nodes :=
    match nodes with
    | [] => [{| model := fallback_model now;
                resolver := Resolver.with_upstreams [lit "1.1.1.1:53"; lit "8.8.8.8:53"] prefer_ipv4;
                last_latency_ms := 0 |}]
    | _ => nodes
    end in
  {| nodes := nodes; strategy := strategy |}.

Definition set_latency (n : UpstreamNode) (latency_ms : Z) : UpstreamNode :=
  {| model := model n; resolver := resolver n; last_latency_ms := latency_ms |}.

Definition update_latency (p : UpstreamPool) (upstream_id : str) (latency_ms : Z) : UpstreamPool :=
  {| nodes := map (fun n => if u_id (model n) =s? upstream_id then set_latency n latency_ms else n) (nodes p);
     strategy := strategy p |}.

(** ** The order of the nodes *)

(** The priority groups one after the other, each shuffled; every round takes
    the group of the first node off, so the length is enough fuel. *)
Fixpoint shuffle_groups (fuel : nat) (seed : N) (l : list UpstreamNode) : list UpstreamNode * N :=
  match fuel, l with
  | S fuel', n :: _ =>
      let same m := (node_priority m =? node_priority n)%Z in
      let '(rest, seed') := shuffle_groups fuel' (seed + 1) (drop_while same l) in
      (shuffle seed (take_while same l) ++ rest, seed')
  | _, _ => ([], seed)
  end.

(** [nodes_to_try], and the number of shuffles made so far. *)
Definition nodes_to_try (p : UpstreamPool) (seed : N) : list UpstreamNode * N :=
  match strategy p with
  | Priority => shuffle_groups (length (nodes p)) seed (nodes p)
  | LoadBalance => (shuffle seed (nodes p), seed + 1)
  | Fastest => (sort_by_key last_latency_ms (nodes p), seed)
  end.

Inductive PoolError := NoNodes | NodeFailed (e : Resolver.ResolveFailure).

(** The loop over the nodes, with the error of the last one that failed. *)
Fixpoint try_nodes (l : list UpstreamNode) (last_err : PoolError) (domain : str) (qtype : RecordType)
    (request : Message) : M Resolver.Env PoolError (list N * option N * option str) :=
  match l with
  | [] => fail last_err
  | node :: l' =>
      let! r := catch (Resolver.resolve (resolver node) domain qtype request) in
      match r with
      | Ok (res, min_ttl, _) => ret (res, min_ttl, Some (u_name (model node)))
      | Err e => try_nodes l' (NodeFailed e) domain qtype request
      end
  end.

Definition resolve (p : UpstreamPool) (domain : str) (qtype : RecordType) (request : Message)
    : M Resolver.Env PoolError (list N * option N * option str) := fun e =>
  let '(l, seed) := nodes_to_try p (Resolver.rng_calls e) in
  try_nodes l NoNodes domain qtype request
    {| Resolver.net_calls := Resolver.net_calls e; Resolver.rng_calls := seed |}.

Lemma shuffle_groups_perm `{!RngDoc} fuel seed l :
  (length l <= fuel)%nat -> Permutation (fst (shuffle_groups fuel seed l)) l.
Proof.
  revert seed l. induction fuel as [|fuel IH]; intros seed [|n l] Hl; try done; [simpl in Hl; lia|].
  cbn [shuffle_groups]. set (same := fun m => _).
  assert (Hd : (length (drop_while same (n :: l)) <= fuel)%nat).
  { simpl. unfold same at 1. rewrite Z.eqb_refl.
    destruct (drop_while_suffix same l) as [k Hk]. apply (f_equal length) in Hk.
    rewrite length_app in Hk. simpl in Hl. lia. }
  specialize (IH (seed + 1) _ Hd). destruct (shuffle_groups fuel _ _) as [rest seed']. cbn [fst] in *.
  rewrite shuffle_perm, IH. by rewrite take_drop_while.
Qed.

Lemma take_while_forall {A} (p : A -> bool) l : Forall (fun x => p x = true) (take_while p l).
Proof. induction l as [|x l IH]; simpl; [constructor|]. destruct (p x) eqn:Hp; by constructor. Qed.

Lemma sorted_app {A} (R : A -> A -> Prop) l1 l2 :
  StronglySorted R l1 -> StronglySorted R l2 -> (forall x y, x ∈ l1 -> y ∈ l2 -> R x y) ->
  StronglySorted R (l1 ++ l2).
Proof.
  induction 1 as [|x l1 Hl IH Hx]; intros Hl2 Hc; [done|]. simpl. constructor.
  - apply IH; [done|]. intros y z Hy Hz. apply Hc; [by right|done].
  - apply Forall_app_2; [done|]. apply Forall_forall. intros y Hy. apply Hc; [by left|done].
Qed.

Lemma sorted_drop_while {A} (R : A -> A -> Prop) p l :
  StronglySorted R l -> StronglySorted R (drop_while p l).
Proof. induction 1; simpl; [constructor|]. destruct (p a); [done|by constructor]. Qed.

Lemma const_sorted {A} (key : A -> Z) k l :
  Forall (fun x => key x = k) l -> StronglySorted (key_le key) l.
Proof.
  induction 1 as [|x l Hx Hl IH]; constructor; [done|].
  eapply Forall_impl; [exact Hl|]. unfold key_le. intros y Hy. simpl in Hy. lia.
Qed.

Lemma shuffle_groups_sorted `{!RngDoc} fuel seed l :
  (length l <= fuel)%nat -> StronglySorted (key_le node_priority) l ->
  StronglySorted (key_le node_priority) (fst (shuffle_groups fuel seed l)).
Proof.
  revert seed l. induction fuel as [|fuel IH]; intros seed [|n l] Hl Hs; try by constructor.
  cbn [shuffle_groups]. set (same := fun m => _).
  assert (Hd : (length (drop_while same (n :: l)) <= fuel)%nat).
  { simpl. unfold same at 1. rewrite Z.eqb_refl.
    destruct (drop_while_suffix same l) as [k Hk]. apply (f_equal length) in Hk.
    rewrite length_app in Hk. simpl in Hl. lia. }
  pose proof (IH (seed + 1) _ Hd (sorted_drop_while _ same _ Hs)) as Hr.
  pose proof (shuffle_groups_perm fuel (seed + 1) _ Hd) as Hp.
  destruct (shuffle_groups fuel _ _) as [rest seed']. cbn [fst] in *.
  assert (Hg : Forall (fun m => node_priority m = node_priority n) (shuffle seed (take_while same (n :: l)))).
  { rewrite shuffle_perm. eapply Forall_impl; [apply take_while_forall|]. intros m Hm. unfold same in Hm. lia. }
  apply sorted_app; [by eapply const_sorted|done|].
  intros x y Hx Hy. rewrite Forall_forall in Hg. specialize (Hg x Hx).
  rewrite Hp in Hy. apply drop_while_incl in Hy.
  unfold key_le. apply StronglySorted_inv in Hs as [_ Hs]. rewrite Forall_forall in Hs.
  apply elem_of_cons in Hy as [->|Hy]; [lia|]. specialize (Hs _ Hy). unfold key_le in Hs. lia.
Qed.

(** The pool a list of rows gives: never empty, in priority order, and made
    of exactly the rows that are active, not degraded or dead, and have an
    address, each with a resolver of its addresses; the fallback only when
    there is no such row. *)
Theorem pool_new_correct `{!HickoryResolverDoc} us s b now :
  let p := new us s b now in
  nodes p <> [] /\
  StronglySorted (key_le node_priority) (nodes p) /\
  Forall (fun n => Resolver.inner (resolver n) <> []) (nodes p) /\
  (filter_map (node_of b) us <> [] -> Permutation (nodes p) (filter_map (node_of b) us)) /\
  (filter_map (node_of b) us = [] -> map model (nodes p) = [fallback_model now]) /\
  (forall n, n ∈ nodes p -> model n = fallback_model now \/
    model n ∈ us /\ u_is_active (model n) = true /\ u_health_status (model n) <> lit "degraded" /\
    u_health_status (model n) <> lit "dead" /\ exists a l, addresses_vec (model n) = Some (a :: l)).
Proof.
  cbn zeta. unfold new. cbn [nodes].
  assert (Hnode : forall m n, node_of b m = Some n -> model n = m /\ Resolver.inner (resolver n) <> [] /\
    u_is_active m = true /\ u_health_status m <> lit "degraded" /\ u_health_status m <> lit "dead" /\
    exists a l, addresses_vec m = Some (a :: l)).
  { intros m n. unfold node_of. destruct (_ || _) eqn:Hc; [done|].
    destruct (addresses_vec m) as [[|a l]|] eqn:Ha; try done. intros [= <-]. split_bools. simpl.
    repeat split; [apply Resolver.with_upstreams_nonempty|done|by apply str_eqb_neq..|by exists a, l]. }
  assert (Hin : forall n, n ∈ sort_by_key node_priority (filter_map (node_of b) us) ->
    exists m, m ∈ us /\ node_of b m = Some n).
  { intros n. rewrite sort_by_key_perm. apply elem_of_filter_map. }
  pose proof (sort_by_key_perm node_priority (filter_map (node_of b) us)) as Hp.
  pose proof (sort_by_key_sorted node_priority (filter_map (node_of b) us)) as Hs.
  destruct (sort_by_key node_priority _) as [|n l] eqn:Hl.
  - apply sort_by_key_nil in Hl. rewrite Hl. repeat split; try done.
    + repeat constructor.
    + repeat constructor. apply Resolver.with_upstreams_nonempty.
    + intros n ->%list_elem_of_singleton. by left.
  - repeat split; try done.
    + apply Forall_forall. intros n' Hn'. destruct (Hin _ Hn') as (m & _ & Hm). by apply Hnode in Hm as (_ & ? & _).
    + intros Hnil. rewrite Hnil in Hp. by apply Permutation_sym, Permutation_nil_cons in Hp.
    + intros n' Hn'. right. destruct (Hin _ Hn') as (m & Hm & Hn). apply Hnode in Hn as (-> & _ & ?). done.
Qed.

Lemma nodes_to_try_perm `{!RngDoc} p seed : Permutation (fst (nodes_to_try p seed)) (nodes p).
Proof.
  unfold nodes_to_try.
  destruct (strategy p); [by apply shuffle_groups_perm|apply shuffle_perm|apply sort_by_key_perm].
Qed.

Lemma new_sorted us s b now : StronglySorted (key_le node_priority) (nodes (new us s b now)).
Proof.
  unfold new. cbn [nodes]. pose proof (sort_by_key_sorted node_priority (filter_map (node_of b) us)) as Hs.
  destruct (sort_by_key _ _); [by repeat constructor|done].
Qed.

(** Whatever the strategy, every node is tried once: by priority, the nodes
    of one priority in a random order; in a random order; or by latency, the
    nodes of one latency in the order of the pool. *)
Theorem nodes_to_try_correct `{!RngDoc} p seed :
  let l := fst (nodes_to_try p seed) in
  Permutation l (nodes p) /\
  (strategy p = Priority -> StronglySorted (key_le node_priority) (nodes p) ->
    StronglySorted (key_le node_priority) l) /\
  (strategy p = Fastest -> StronglySorted (key_le last_latency_ms) l /\
    forall k, List.filter (fun n => last_latency_ms n =? k)%Z l
            = List.filter (fun n => last_latency_ms n =? k)%Z (nodes p)).
Proof.
  split; [apply nodes_to_try_perm|]. unfold nodes_to_try. destruct (strategy p).
  - split; [|done]. intros _. by apply shuffle_groups_sorted.
  - done.
  - split; [done|]. intros _. split; [apply sort_by_key_sorted|]. intros k. apply sort_by_key_stable.
Qed.

(** ** Failover *)

(** What the [k]-th node of the list answers when the ones before have each
    made their lookup. *)
Definition answer_of (node : UpstreamNode) (n : N) (domain : str) (qtype : RecordType) (request : Message)
    : option (list N) :=
  to_vec (Resolver.reply_of request (lookup n (Resolver.inner (resolver node)) domain qtype)).

Lemma try_nodes_correct l err domain qtype request e :
  (exists before node after bytes ttl,
    l = before ++ node :: after /\
    (forall i m, before !! i = Some m ->
      answer_of m (Resolver.net_calls e + N.of_nat i) domain qtype request = None) /\
    answer_of node (Resolver.net_calls e + N.of_nat (length before)) domain qtype request = Some bytes /\
    ttl = Resolver.ttl_of (lookup (Resolver.net_calls e + N.of_nat (length before))
            (Resolver.inner (resolver node)) domain qtype) /\
    try_nodes l err domain qtype request e =
      (Ok (bytes, ttl, Some (u_name (model node))),
       {| Resolver.net_calls := Resolver.net_calls e + N.of_nat (S (length before));
          Resolver.rng_calls := Resolver.rng_calls e |})) \/
  ((forall i m, l !! i = Some m ->
     answer_of m (Resolver.net_calls e + N.of_nat i) domain qtype request = None) /\
   fst (try_nodes l err domain qtype request e) =
     Err (match l with [] => err | _ => NodeFailed Resolver.EncodeError end) /\
   Resolver.net_calls (snd (try_nodes l err domain qtype request e)) = Resolver.net_calls e + N.of_nat (length l)).
Proof.
  revert err e. induction l as [|node l IH]; intros err e; [right; split; [done|]; split; [done|simpl; lia]|].
  cbn [try_nodes]. unfold bind, catch. rewrite Resolver.resolve_run. cbn zeta.
  fold (answer_of node (Resolver.net_calls e) domain qtype request).
  destruct (answer_of node (Resolver.net_calls e) domain qtype request) as [bytes|] eqn:Ha.
  - left. eexists [], node, l, bytes, _. split; [done|]. split; [done|].
    split; [simpl; by rewrite N.add_0_r|]. split; [|done]. simpl. by rewrite N.add_0_r.
  - set (e1 := {| Resolver.net_calls := Resolver.net_calls e + 1; Resolver.rng_calls := Resolver.rng_calls e |}).
    destruct (IH (NodeFailed Resolver.EncodeError) e1)
      as [(before & n & after & bytes & ttl & -> & Hbefore & Hn & Httl & Hr)|(Hall & Hr & Hc)].
    + left. exists (node :: before), n, after, bytes, ttl. split; [done|]. simpl in Hbefore, Hn. split; [|split].
      * intros [|i] m Hm; simpl in Hm; [by injection Hm as <-; rewrite N.add_0_r|].
        rewrite <- (Hbefore _ _ Hm). f_equal. lia.
      * rewrite <- Hn. f_equal. simpl. lia.
      * split; [rewrite Httl; do 2 f_equal; simpl; lia|]. rewrite Hr. simpl. f_equal. f_equal. lia.
    + right. split.
      * intros [|i] m Hm; simpl in Hm; [by injection Hm as <-; rewrite N.add_0_r|].
        simpl in Hall. rewrite <- (Hall _ _ Hm). f_equal. lia.
      * split; [rewrite Hr; by destruct l|]. rewrite Hc. simpl. lia.
Qed.

(** The pool's reply is the first one a node gives. *)
Lemma pool_resolve_cases `{!RngDoc} p domain qtype request e :
  nodes p <> [] ->
  (exists before node after bytes e',
    fst (nodes_to_try p (Resolver.rng_calls e)) = before ++ node :: after /\
    (forall i m, before !! i = Some m ->
      answer_of m (Resolver.net_calls e + N.of_nat i) domain qtype request = None) /\
    let n := Resolver.net_calls e + N.of_nat (length before) in
    let outcome := lookup n (Resolver.inner (resolver node)) domain qtype in
    to_vec (Resolver.reply_of request outcome) = Some bytes /\
    resolve p domain qtype request e =
      (Ok (bytes, Resolver.ttl_of outcome, Some (u_name (model node))), e') /\
    Resolver.net_calls e' = n + 1) \/
  ((exists node, answer_of node (Resolver.net_calls e) domain qtype request = None) /\
   exists e', resolve p domain qtype request e = (Err (NodeFailed Resolver.EncodeError), e') /\
     Resolver.net_calls e' = Resolver.net_calls e + N.of_nat (length (nodes p)) /\
     forall i m, fst (nodes_to_try p (Resolver.rng_calls e)) !! i = Some m ->
       answer_of m (Resolver.net_calls e + N.of_nat i) domain qtype request = None).
Proof.
  intros Hne. unfold resolve. pose proof (nodes_to_try_perm p (Resolver.rng_calls e)) as Hperm.
  destruct (nodes_to_try p (Resolver.rng_calls e)) as [l seed]. cbn [fst] in *.
  set (e1 := {| Resolver.net_calls := _; Resolver.rng_calls := seed |}).
  destruct (try_nodes_correct l NoNodes domain qtype request e1)
    as [(before & node & after & bytes & ttl & -> & Hb & Hn & -> & Hr)|(Hall & Hr & Hc)].
  - left. eexists before, node, after, bytes, _. split; [done|]. split; [exact Hb|]. cbn zeta.
    split; [exact Hn|]. split; [exact Hr|]. simpl. lia.
  - right. rewrite <- (Permutation_length Hperm). destruct l as [|m l].
    { exfalso. apply Hne. by apply Permutation_nil. }
    split; [exists m; rewrite <- (Hall 0%nat m eq_refl); f_equal; simpl; lia|].
    destruct (try_nodes _ _ _ _ _ e1) as [r e']. simpl in Hr, Hc. subst r. by exists e'.
Qed.

(** C31: The nodes are asked in the order the strategy gives, one lookup each,
    until one gives a reply, which is returned with its TTL and the node's
    name: all before it have given none, and none after it is asked.  When no
    node gives a reply all have been asked, and the error is returned.  But a
    failed lookup is a reply, SERVFAIL: a node gives none only when its reply
    cannot be encoded, so as long as messages can be encoded the first node is
    the only one asked, whatever comes of its lookup, and no other node of the
    pool is ever fallen back to. *)
Theorem pool_resolve_correct `{!RngDoc} p domain qtype request e :
  nodes p <> [] ->
  let order := fst (nodes_to_try p (Resolver.rng_calls e)) in
  let fails i m := answer_of m (Resolver.net_calls e + N.of_nat i) domain qtype request = None in
  Permutation order (nodes p) /\
  ((exists before node after bytes ttl e',
    order = before ++ node :: after /\
    (forall i m, before !! i = Some m -> fails i m) /\
    answer_of node (Resolver.net_calls e + N.of_nat (length before)) domain qtype request = Some bytes /\
    ttl = Resolver.ttl_of (lookup (Resolver.net_calls e + N.of_nat (length before))
            (Resolver.inner (resolver node)) domain qtype) /\
    resolve p domain qtype request e = (Ok (bytes, ttl, Some (u_name (model node))), e') /\
    Resolver.net_calls e' = Resolver.net_calls e + N.of_nat (length before) + 1 /\
    ((forall m, to_vec m <> None) -> before = [])) \/
   ((forall i m, order !! i = Some m -> fails i m) /\
    exists e', resolve p domain qtype request e = (Err (NodeFailed Resolver.EncodeError), e') /\
      Resolver.net_calls e' = Resolver.net_calls e + N.of_nat (length (nodes p)))).
Proof.
  intros Hne order fails. split; [apply nodes_to_try_perm|].
  destruct (pool_resolve_cases p domain qtype request e Hne)
    as [(before & node & after & bytes & e' & Hl & Hb & Hn & Hr & Hc)|(_ & e' & Hr & Hc & Hall)]; [left|right].
  - eexists before, node, after, bytes, _, e'. split; [done|]. split; [exact Hb|]. split; [exact Hn|].
    split; [done|]. split; [exact Hr|]. split; [exact Hc|]. intros Henc. destruct before as [|m before]; [done|].
    exfalso. apply (Henc _ (Hb 0%nat m eq_refl)).
  - split; [exact Hall|]. by exists e'.
Qed.

(** ** Health checks *)

(** The time the [n]-th lookup takes, in milliseconds, and the name the
    probe asks for. *)
Context (lookup_ms : N -> N) (example_com : Name).

Definition probe_request : Message :=
  let test_req := set_id Message_new 1 in
  let test_req := set_type test_req MtQuery in
  let test_req := set_op test_req OpQuery in
  let test_req := set_rd test_req true in
  add_query test_req {| q_name := example_com; q_type := rtype_A; q_class := class_IN |}.

Definition timeout_of (m : Upstream) : N :=
  if (0 <? u_health_check_timeout m)%Z then Z.to_N (u_health_check_timeout m) else 2000.

(** The task of one node: its latency and whether it is healthy.  A probe
    that takes longer than the timeout is cut off there. *)
Definition probe (node : UpstreamNode) : M Resolver.Env unit (Z * bool) := fun e =>
  let ms := lookup_ms (Resolver.net_calls e) in
  let timeout_ms := timeout_of (model node) in
  let '(r, e') := Resolver.resolve (resolver node) (lit "example.com") rtype_A probe_request e in
  if timeout_ms <? ms then (Ok (Z.of_N timeout_ms, false), e')
  else (Ok (Z.of_N ms, is_ok r), e').

(** The tasks in the order they end, which is arbitrary: the node's place in
    the pool, and the node.  Each stores the latency in its node. *)
Fixpoint join_all (tasks : list (nat * UpstreamNode)) (p : UpstreamPool)
    : M Resolver.Env unit (list (str * Z * bool) * UpstreamPool) :=
  match tasks with
  | [] => ret ([], p)
  | (i, node) :: tasks' =>
      let! res := probe node in
      let '(latency_ms, is_healthy) := res in
      let p' := {| nodes := alter (fun n => set_latency n latency_ms) i (nodes p); strategy := strategy p |} in
      let! rest := join_all tasks' p' in
      let '(results, p'') := rest in
      ret ((u_id (model node), latency_ms, is_healthy) :: results, p'')
  end.

Definition health_check_all (p : UpstreamPool)
    : M Resolver.Env unit (list (str * Z * bool) * UpstreamPool) := fun e =>
  let spawned := List.filter (fun x => u_health_check_enabled (model (snd x)))
                   (zip (seq 0 (length (nodes p))) (nodes p)) in
  join_all (shuffle (Resolver.rng_calls e) spawned) p
    {| Resolver.net_calls := Resolver.net_calls e; Resolver.rng_calls := Resolver.rng_calls e + 1 |}.

Lemma new_nonempty us s b now : nodes (new us s b now) <> [].
Proof. unfold new. cbn [nodes]. by destruct (sort_by_key _ _). Qed.

Lemma join_all_length tasks p e results p' e' :
  join_all tasks p e = (Ok (results, p'), e') -> length (nodes p') = length (nodes p).
Proof.
  revert p e results p' e'. induction tasks as [|[i node] tasks IH]; intros p e results p' e'.
  { by intros [= _ <- _]. }
  cbn [join_all]. unfold bind. destruct (probe node e) as [[[lat h]|] e1]; [|done].
  set (p1 := {| nodes := _; strategy := _ |}).
  destruct (join_all tasks p1 e1) as [[[rs p2]|] e2] eqn:Hj; [|done]. intros [= _ <- _].
  rewrite (IH _ _ _ _ _ Hj). unfold p1. simpl. apply length_alter.
Qed.

Lemma map_alter {A B} (f : A -> B) (g : A -> A) i l :
  (forall x, f (g x) = f x) -> map f (alter g i l) = map f l.
Proof.
  intros Hf. revert i. induction l as [|x l IH]; intros [|i]; try done; simpl; [by rewrite Hf|].
  f_equal. apply IH.
Qed.

Lemma join_all_correct tasks p e :
  (forall m, to_vec m <> None) ->
  exists results p' e',
    join_all tasks p e = (Ok (results, p'), e') /\
    map (fun r => fst (fst r)) results = map (fun t => u_id (model (snd t))) tasks /\
    map model (nodes p') = map model (nodes p) /\
    map resolver (nodes p') = map resolver (nodes p) /\
    (forall j, (forall n, (j, n) ∉ tasks) -> nodes p' !! j = nodes p !! j) /\
    forall k id latency healthy i node,
      results !! k = Some (id, latency, healthy) -> tasks !! k = Some (i, node) ->
      let ms := lookup_ms (Resolver.net_calls e + N.of_nat k) in
      latency = Z.of_N (N.min ms (timeout_of (model node))) /\ healthy = (ms <=? timeout_of (model node)).
Proof.
  intros Henc. revert p e. induction tasks as [|[i node] tasks IH]; intros p e.
  { exists [], p, e. by repeat split. }
  cbn [join_all]. unfold bind at 1. unfold probe. rewrite Resolver.resolve_run. cbn zeta.
  set (e1 := {| Resolver.net_calls := Resolver.net_calls e + 1; Resolver.rng_calls := Resolver.rng_calls e |}).
  destruct (to_vec (Resolver.reply_of probe_request _)) as [bytes|] eqn:Hv; [|by destruct (Henc _ Hv)].
  set (ms := lookup_ms (Resolver.net_calls e)). cbn [is_ok].
  assert (Hp : exists lat : Z, exists h, lat = Z.of_N (N.min ms (timeout_of (model node))) /\
    h = (ms <=? timeout_of (model node)) /\
    (if timeout_of (model node) <? ms then (Ok (Z.of_N (timeout_of (model node)), false), e1)
     else (Ok (Z.of_N ms, true), e1)) = (Ok (lat, h) : result (Z * bool) unit, e1)).
  { destruct (timeout_of (model node) <? ms) eqn:Ht; (eexists _, _; split; [|split; [|reflexivity]]); lia. }
  destruct Hp as (lat & h & Hlat & Hh & Hrun). rewrite Hrun.
  set (p1 := {| nodes := _; strategy := _ |}).
  destruct (IH p1 e1) as (results & p' & e' & Hj & Hids & Hm & Hr & Hkeep & Hres).
  unfold bind. rewrite Hj.
  exists ((u_id (model node), lat, h) :: results), p', e'. split; [done|].
  split; [simpl; by rewrite Hids|]. split; [|split; [|split]].
  - rewrite Hm. unfold p1. simpl. by apply map_alter.
  - rewrite Hr. unfold p1. simpl. by apply map_alter.
  - intros j Hj'. rewrite Hkeep.
    + unfold p1. simpl. apply list_lookup_alter_ne. intros ->. apply (Hj' node). by left.
    + intros n Hn. apply (Hj' n). by right.
  - intros [|k] id latency healthy i' node'.
    + simpl. intros [= <- <- <-] [= <- <-]. by rewrite N.add_0_r.
    + intros Hk Ht. specialize (Hres k id latency healthy i' node' Hk Ht).
      replace (Resolver.net_calls e + N.of_nat (S k)) with (Resolver.net_calls e1 + N.of_nat k)
        by (unfold e1; cbn [Resolver.net_calls]; lia).
      exact Hres.
Qed.

(** A round of health checks reports exactly the nodes that have them enabled,
    each once, stores their latencies and leaves the other nodes, and all
    rows and resolvers, as they were.  A node counts as healthy exactly when
    its probe ended in time: what the lookup found does not matter, so an
    upstream that answers nothing but errors is reported healthy. *)
Theorem health_check_correct `{!RngDoc} p e :
  (forall m, to_vec m <> None) ->
  exists results p' e',
    health_check_all p e = (Ok (results, p'), e') /\
    Permutation (map (fun r => fst (fst r)) results)
      (map (fun n => u_id (model n)) (List.filter (fun n => u_health_check_enabled (model n)) (nodes p))) /\
    map model (nodes p') = map model (nodes p) /\
    map resolver (nodes p') = map resolver (nodes p) /\
    (forall j n, nodes p !! j = Some n -> u_health_check_enabled (model n) = false -> nodes p' !! j = Some n) /\
    forall id latency healthy, (id, latency, healthy) ∈ results ->
      exists n k, n ∈ nodes p /\ u_id (model n) = id /\
        let ms := lookup_ms (Resolver.net_calls e + k) in
        latency = Z.of_N (N.min ms (timeout_of (model n))) /\ healthy = (ms <=? timeout_of (model n)).
Proof.
  intros Henc. unfold health_check_all.
  set (spawned := List.filter _ (zip _ _)). set (tasks := shuffle _ spawned).
  set (e1 := {| Resolver.net_calls := _; Resolver.rng_calls := _ |}).
  assert (Hperm : Permutation tasks spawned) by apply shuffle_perm.
  assert (Hzip : forall i n, (i, n) ∈ tasks ->
    nodes p !! i = Some n /\ u_health_check_enabled (model n) = true).
  { intros i n. rewrite Hperm. unfold spawned. rewrite list_elem_of_In, filter_In, <- list_elem_of_In.
    intros [Hin He]. split; [|done]. apply list_elem_of_lookup in Hin as [j Hj].
    apply lookup_zip_with_Some in Hj as (x & y & [= -> ->] & Hx & Hy).
    apply lookup_seq in Hx as [-> _]. done. }
  assert (Hsnd : map snd spawned = List.filter (fun n => u_health_check_enabled (model n)) (nodes p)).
  { unfold spawned. assert (Hlen : length (seq 0 (length (nodes p))) = length (nodes p)) by apply length_seq.
    revert Hlen. generalize (seq 0 (length (nodes p))) as js. clear. intros js. revert js.
    induction (nodes p) as [|n l IH]; intros [|i js] Hlen; try done. simpl in *.
    destruct (u_health_check_enabled (model n)); simpl; [f_equal|]; apply IH; lia. }
  destruct (join_all_correct tasks p e1 Henc) as (results & p' & e' & Hj & Hids & Hm & Hr & Hkeep & Hres).
  exists results, p', e'. split; [exact Hj|]. split; [|split; [done|split; [done|split]]].
  - rewrite Hids, Hperm. by rewrite <- Hsnd, map_map.
  - intros j n Hn He. rewrite Hkeep; [done|]. intros n' Hin. apply Hzip in Hin as [Hn' He']. congruence.
  - intros id latency healthy Hin. apply list_elem_of_lookup in Hin as [k Hk].
    assert (Hid : map (fun t => u_id (model (snd t))) tasks !! k = Some id).
    { rewrite <- Hids. rewrite list_lookup_fmap. by rewrite Hk. }
    apply list_lookup_fmap_Some in Hid as ([i node] & Ht & Hnode).
    destruct (Hzip i node) as [Hn _]; [by eapply list_elem_of_lookup_2|].
    exists node, (N.of_nat k). split; [by eapply list_elem_of_lookup_2|]. split; [done|].
    by apply (Hres k id latency healthy i node).
Qed.

End pool.
End UpstreamPool.

Module RefRng.
(** A shuffle that reverses at every even call. *)
#[export] Instance rng : Rng := { shuffle A n l := if N.even n then rev l else l }.
#[export] Instance doc : RngDoc.
Proof. constructor. intros A n l. simpl. destruct (N.even n); [symmetry; apply Permutation_rev|done]. Qed.
End RefRng.

Module PoolWitness.
Import AsciiUnicode RefHickory RefResolver RefRng RefJson UpstreamPool.

Definition row (id addr : string) (prio : Z) (active : bool) (status : string) : Upstream :=
  {| u_id := lit id; u_name := lit id; u_addresses := if lit addr =s? "bad" then lit addr else json_of_strings [lit addr]; u_priority := prio; u_is_active := active;
     u_health_check_enabled := active; u_failover_enabled := true; u_health_check_interval := 30;
     u_health_check_timeout := 5; u_failover_threshold := 3; u_health_status := lit status;
     u_last_health_check_at := None; u_last_failover_at := None; u_created_at := 0; u_updated_at := 0 |}.
Definition rows : list Upstream :=
  [row "slow" "9.9.9.9" 2 true "healthy"; row "off" "8.8.8.8" 1 false "healthy"; row "dead" "8.8.8.8" 1 true "dead";
   row "bad" "bad" 1 true "unknown"; row "a" "1.1.1.1" 1 true "unknown"; row "b" "1.0.0.1" 1 true "healthy"].
Definition pool : UpstreamPool := new rows (lit "Priority") true 0.

Example pool_tests :
  (map (fun n => u_id (model n)) (nodes pool),
   map (fun s => map (fun n => u_id (model n)) (fst (nodes_to_try pool s))) [0; 1],
   map (fun s => from_string (lit s)) ["FASTEST"; "load_balance"; "loadbalance"; "x"]%string)
  = ([lit "a"; lit "b"; lit "slow"], [[lit "b"; lit "a"; lit "slow"]; [lit "a"; lit "b"; lit "slow"]],
     [Fastest; LoadBalance; LoadBalance; Priority]).
Proof. vm_compute. reflexivity. Qed.

Lemma pool_new_correct_witness :
  nodes (new [] (lit "fastest") true 7) <> [] /\ map model (nodes (new [] (lit "fastest") true 7)) = [fallback_model 7].
Proof.
  destruct (pool_new_correct [] (lit "fastest") true 7) as (Hne & _ & _ & _ & Hf & _).
  split; [exact Hne|apply Hf; reflexivity].
Defined.

Lemma nodes_to_try_correct_witness :
  Permutation (fst (nodes_to_try pool 4)) (nodes pool) /\
  StronglySorted (key_le node_priority) (fst (nodes_to_try pool 4)).
Proof.
  destruct (nodes_to_try_correct pool 4) as (Hp & Hs & _). split; [exact Hp|].
  apply Hs; [reflexivity|]. apply new_sorted.
Defined.

(** The upstreams all fail for [down.com]: the first one is asked, and its
    SERVFAIL is the reply. *)
Example no_failover :
  match resolve pool (lit "down.com.") 1 (ResolverWitness.question "down.com.") ResolverWitness.env0 with
  | (Ok (bytes, ttl, name), e) =>
      m_code <$> from_vec bytes = Some ServFail /\ ttl = None /\ name = Some (lit "b") /\ Resolver.net_calls e = 1
  | _ => False
  end.
Proof. vm_compute. done. Qed.

(** A codec that cannot encode a server failure: then every node is asked. *)
Module Narrow.
#[local] Instance narrow : DnsCodec := {|
  from_vec := from_vec;
  to_vec m := if bool_decide (m_code m = ServFail) then None else to_vec m
|}.
Example all_asked :
  match resolve pool (lit "down.com.") 1 (ResolverWitness.question "down.com.") ResolverWitness.env0 with
  | (Err (NodeFailed Resolver.EncodeError), e) => Resolver.net_calls e = 3
  | _ => False
  end.
Proof. vm_compute. done. Qed.
End Narrow.

Lemma pool_resolve_correct_witness :
  exists bytes ttl e', resolve pool (lit "down.com.") rtype_A (ResolverWitness.question "down.com.")
    ResolverWitness.env0 = (Ok (bytes, ttl, Some (lit "b")), e') /\ Resolver.net_calls e' = 1.
Proof.
  destruct (pool_resolve_correct pool (lit "down.com.") rtype_A (ResolverWitness.question "down.com.")
    ResolverWitness.env0) as [_ [(before & node & after & bytes & ttl & e' & Hl & _ & _ & _ & Hr & Hc & Hfirst)|[Hall _]]].
  - discriminate.
  - rewrite (Hfirst ltac:(discriminate)) in Hl, Hc. exists bytes, ttl, e'. split; [|exact Hc].
    rewrite Hr. do 4 f_equal. apply (f_equal (fun l => default [] (u_name <$> (model <$> head l)))) in Hl.
    symmetry. exact Hl.
  - exfalso. pose proof (Hall 0%nat) as Hall0. revert Hall0.
    destruct (fst (nodes_to_try pool _) !! 0%nat) as [m|] eqn:Hm; [|discriminate Hm].
    intros Hall0. discriminate (Hall0 m eq_refl).
Defined.

Definition example_name : @Name types := lit "example.com.".

Lemma health_check_correct_witness :
  exists results p' e', health_check_all (fun _ => 3) example_name pool ResolverWitness.env0
    = (Ok (results, p'), e') /\ forall id l h, (id, l, h) ∈ results -> h = true.
Proof.
  destruct (health_check_correct (fun _ => 3) example_name pool ResolverWitness.env0)
    as (results & p' & e' & Hr & _ & _ & _ & _ & Hres); [intros m; discriminate|].
  exists results, p', e'. split; [exact Hr|]. intros id l h Hin.
  destruct (Hres _ _ _ Hin) as (n & k & Hn & _ & _ & ->).
  revert Hn. change (nodes pool) with
    (sort_by_key node_priority (filter_map (node_of true) rows)). rewrite sort_by_key_perm.
  intros Hn. apply elem_of_filter_map in Hn as (m & Hm & Hn).
  repeat (apply elem_of_cons in Hm as [->|Hm]; [first [discriminate Hn|injection Hn as <-; reflexivity]|]).
  by apply not_elem_of_nil in Hm.
Defined.

End PoolWitness.
