(* ===== verification/Metrics.v ===== *)
(** * The query counters: src/metrics.rs

    Four 64-bit counters that wrap around, as [AtomicU64::fetch_add] does. *)
From S2P Require Import Prelude RustStr.
Local Open Scope N_scope.

Module Metrics.

Record DnsMetrics := {
  queries_total : N; queries_blocked : N; queries_allowed : N; queries_cached : N }.

Definition new : DnsMetrics :=
  {| queries_total := 0; queries_blocked := 0; queries_allowed := 0; queries_cached := 0 |}.

(** [fetch_add(1)] *)
Definition fetch_add (n : N) : N := (n + 1) mod 2 ^ 64.

Definition inc_blocked (m : DnsMetrics) : DnsMetrics :=
  {| queries_total := fetch_add (queries_total m); queries_blocked := fetch_add (queries_blocked m);
     queries_allowed := queries_allowed m; queries_cached := queries_cached m |}.
Definition inc_allowed (m : DnsMetrics) : DnsMetrics :=
  {| queries_total := fetch_add (queries_total m); queries_blocked := queries_blocked m;
     queries_allowed := fetch_add (queries_allowed m); queries_cached := queries_cached m |}.
Definition inc_cached (m : DnsMetrics) : DnsMetrics :=
  {| queries_total := fetch_add (queries_total m); queries_blocked := queries_blocked m;
     queries_allowed := queries_allowed m; queries_cached := fetch_add (queries_cached m) |}.

Definition sample (status : string) (n : N) : str :=
  lit "rust_dns_queries_total{status=" ++ [34] ++ lit status ++ [34] ++ lit "} " ++ show_N n ++ [10].

Definition to_prometheus_text (m : DnsMetrics) : str :=
  lit "# HELP rust_dns_queries_total Total DNS queries processed" ++ [10]
  ++ lit "# TYPE rust_dns_queries_total counter" ++ [10]
  ++ sample "blocked" (queries_blocked m) ++ sample "allowed" (queries_allowed m)
  ++ sample "cached" (queries_cached m) ++ sample "total" (queries_total m).

(** The total counts every query once. *)
Definition consistent (m : DnsMetrics) : Prop :=
  queries_total m = (queries_blocked m + queries_allowed m + queries_cached m) mod 2 ^ 64.

Lemma consistent_new : consistent new.
Proof. reflexivity. Qed.

Lemma consistent_step t x y :
  t = (x + y) mod 2 ^ 64 -> fetch_add t = (fetch_add x + y) mod 2 ^ 64.
Proof.
  intros ->. unfold fetch_add. rewrite N.Div0.add_mod_idemp_l, N.Div0.add_mod_idemp_l. f_equal. lia.
Qed.

Lemma consistent_inc m : consistent m ->
  consistent (inc_blocked m) /\ consistent (inc_allowed m) /\ consistent (inc_cached m).
Proof.
  unfold consistent. destruct m as [t b a c]. cbn. intros Ht. split; [|split].
  - rewrite <- N.add_assoc. apply consistent_step. rewrite Ht. f_equal. lia.
  - rewrite (N.add_comm b), <- N.add_assoc. apply consistent_step. rewrite Ht. f_equal. lia.
  - rewrite (N.add_comm _ (fetch_add c)). apply consistent_step. rewrite Ht. f_equal. lia.
Qed.

End Metrics.
