(* ===== verification/AppCatalog.v ===== *)
(** * The catalog of applications: src/db/app_catalog_cache.rs

    The map from domains to application identifiers a query is looked up in,
    first its own name, then its parents. *)
From S2P Require Import Prelude RustStr IpAddr Regex Rules Db.
Local Open Scope N_scope.

Module AppCatalog.

Record AppCatalogCache := { domains_to_app_id : gmap str Z }.

Definition new : AppCatalogCache := {| domains_to_app_id := ∅ |}.

Definition insert_domain (m : gmap str Z) (r : Z * str) : gmap str Z := <[snd r := fst r]> m.

(** [load_from_db]: the cache after the call; a failure leaves it. *)
Definition load_from_db {S} `{HasDb S} (c : AppCatalogCache) : M S DbError AppCatalogCache :=
  let! rows := catch (fetch_all (fun t => map (fun r => (ad_app_id r, ad_domain r)) (app_domains t))) in
  ret (match rows with
       | Ok mapped_domains => {| domains_to_app_id := fold_left insert_domain mapped_domains ∅ |}
       | Err _ => c
       end).

(** The loop on the labels: the first one is removed and the rest looked up. *)
Fixpoint match_parents (cache : gmap str Z) (parts : list str) : option Z :=
  match parts with
  | _ :: ((_ :: _) as parent) =>
      match cache !! join (lit ".") parent with
      | Some app_id => Some app_id
      | None => match_parents cache parent
      end
  | _ => None
  end.

Definition match_domain (c : AppCatalogCache) (domain : str) : option Z :=
  let cache := domains_to_app_id c in
  if decide (cache = ∅) then None
  else
    let clean_domain := trim_end_char domain dot in
    match cache !! clean_domain with
    | Some app_id => Some app_id
    | None => match_parents cache (split clean_domain dot)
    end.

(** ** The closest entry *)

Lemma split_app_dot a b : dot ∉ a -> split (a ++ dot :: b) dot = a :: split b dot.
Proof.
  intros Ha. unfold split. rewrite split_by_app; [done|by apply lacks_char|apply N.eqb_refl].
Qed.

Lemma match_parents_spec cache fuel q :
  (length q <= fuel)%nat ->
  match match_parents cache (split q dot) with
  | Some a => exists d, Rules.under q d /\ d <> q /\ cache !! d = Some a /\
      forall d', Rules.under q d' -> d' <> q -> (length d < length d')%nat -> cache !! d' = None
  | None => forall d, Rules.under q d -> d <> q -> cache !! d = None
  end.
Proof.
  revert q. induction fuel as [|fuel IH]; intros q Hq.
  { destruct q; [|simpl in Hq; lia]. simpl. intros d [->|[p Hp]] Hne; [done|]. by destruct p. }
  destruct (split_once q dot) as [[a b]|] eqn:Hs.
  2: { apply split_once_None in Hs. unfold split. rewrite split_by_lacks by by apply lacks_char.
       simpl. intros d Hd Hne. by apply Rules.under_no_dot in Hd. }
  apply split_once_Some in Hs as [-> Ha]. rewrite split_app_dot by done.
  assert (Hb : (length b <= fuel)%nat) by (rewrite length_app in Hq; simpl in Hq; lia).
  assert (Hlong : forall d, Rules.under b d -> (length d <= length b)%nat /\ d <> a ++ dot :: b).
  { intros d Hd. assert ((length d <= length b)%nat) as Hl.
    { destruct Hd as [->|[p ->]]; [lia|]. rewrite length_app. simpl. lia. }
    split; [done|]. intros ->. rewrite length_app in Hl. simpl in Hl. lia. }
  assert (Hsub : forall d, Rules.under (a ++ dot :: b) d -> d <> a ++ dot :: b -> Rules.under b d).
  { intros d Hd Hne. apply Rules.under_parent in Hd as [?|?]; done. }
  specialize (IH b Hb). cbn [match_parents].
  destruct (split b dot) as [|w ws] eqn:Hw; [by apply split_by_nonempty in Hw|].
  assert (join (lit ".") (w :: ws) = b) as Hj by (rewrite <- Hw; apply join_split). rewrite Hj.
  destruct (cache !! b) as [x|] eqn:Hx.
  - exists b. destruct (Hlong b (Rules.under_refl b)) as [_ Hne]. split; [|split; [done|split; [done|]]].
    + apply Rules.under_parent; [done|]. right. apply Rules.under_refl.
    + intros d' Hd' Hne' Hl. apply Hsub, Hlong in Hd' as [? _]; [lia|done].
  - destruct (match_parents cache (w :: ws)) as [x|].
    + destruct IH as (d & Hd & Hne & Hc & Hfar). destruct (Hlong d Hd) as [_ Hne'].
      exists d. split; [|split; [done|split; [done|]]].
      * apply Rules.under_parent; [done|]. by right.
      * intros d' Hd' Hd'' Hl. apply Hsub in Hd'; [|done].
        destruct (decide (d' = b)) as [->|Hdb]; [done|]. by apply Hfar.
    + intros d Hd Hne. apply Hsub in Hd; [|done]. destruct (decide (d = b)) as [->|Hdb]; [done|]. by apply IH.
Qed.

(** The application of a query is that of the closest entry at or above its
    name, trailing dots aside; there is none exactly when neither the name
    nor any parent is an entry. *)
Theorem match_domain_closest c domain :
  let q := trim_end_char domain dot in
  match match_domain c domain with
  | Some a => exists d, Rules.under q d /\ domains_to_app_id c !! d = Some a /\
      forall d', Rules.under q d' -> (length d < length d')%nat -> domains_to_app_id c !! d' = None
  | None => forall d, Rules.under q d -> domains_to_app_id c !! d = None
  end.
Proof.
  cbn zeta. unfold match_domain. set (q := trim_end_char domain dot). destruct (decide _) as [He|_].
  { intros d _. by rewrite He. }
  destruct (domains_to_app_id c !! q) as [a|] eqn:Hq.
  - exists q. split; [apply Rules.under_refl|]. split; [done|]. intros d' [->|[p Hp]] Hl; [lia|].
    apply (f_equal length) in Hp. rewrite length_app in Hp. simpl in Hp. lia.
  - pose proof (match_parents_spec (domains_to_app_id c) (length q) q ltac:(lia)) as Hm.
    destruct (match_parents _ _) as [a|].
    + destruct Hm as (d & Hd & _ & Hc & Hfar). exists d. split; [done|]. split; [done|].
      intros d' Hd' Hl. destruct (decide (d' = q)) as [->|Hne]; [done|]. by apply Hfar.
    + intros d Hd. destruct (decide (d = q)) as [->|Hne]; [done|]. by apply Hm.
Qed.

Example app_catalog_tests :
  let c := {| domains_to_app_id := {[ lit "youtube.com" := 1%Z; lit "music.youtube.com" := 2%Z ]} |} in
  map (match_domain c) [lit "www.youtube.com."; lit "a.music.youtube.com"; lit "YouTube.com"; lit "com"]
  = [Some 1%Z; Some 2%Z; None; None].
Proof. vm_compute. reflexivity. Qed.

End AppCatalog.
