(* ===== verification/QueryLogWriter.v ===== *)
(** * The batch writer of the query log: src/db/query_log_writer.rs

    The handler puts entries into a bounded channel; a background task takes
    them out, watches the blocked queries of every client, and writes the
    entries in batches.  The task is a step relation: at each turn of its loop
    either the channel or the ticker is ready.  Instants are in nanoseconds. *)
From S2P Require Import Prelude RustStr Db.
Local Open Scope N_scope.

Module QueryLogWriter.

Definition BATCH_SIZE : nat := 500.
Definition CHANNEL_CAPACITY : N := 32768.
Definition FIELDS_PER_ROW : N := 11.
Definition MAX_ROWS_PER_STMT : nat := N.to_nat (32766 / FIELDS_PER_ROW).

(** ** The channel *)

Record Channel := { queue : list QueryLogEntry; closed : bool }.

(** [try_send]: refused when the channel is full or closed. *)
Definition try_send (c : Channel) (entry : QueryLogEntry) : result Channel unit :=
  if closed c || (CHANNEL_CAPACITY <=? N.of_nat (length (queue c))) then Err tt
  else Ok {| queue := queue c ++ [entry]; closed := closed c |}.

(** ** The task *)

Record AlertEvent := { ae_client_id : str; ae_message : str }.

Record Writer := {
  batch : list QueryLogEntry;
  (** client_ip -> (block_count, first_block_time) *)
  block_counts : gmap str (N * N);
  broadcast : list AlertEvent;
  wdb : DbState;
}.
#[global] Instance Writer_HasDb : HasDb Writer := {
  db_of := wdb;
  with_db s d := {| batch := batch s; block_counts := block_counts s; broadcast := broadcast s; wdb := d |} }.
#[global] Instance Writer_HasDbLaws : HasDbLaws Writer.
Proof. constructor; try done. by intros []. Qed.

Definition set_batch (b : list QueryLogEntry) (s : Writer) : Writer :=
  {| batch := b; block_counts := block_counts s; broadcast := broadcast s; wdb := wdb s |}.
Definition set_block_counts (m : gmap str (N * N)) (s : Writer) : Writer :=
  {| batch := batch s; block_counts := m; broadcast := broadcast s; wdb := wdb s |}.
Definition send_alert (a : AlertEvent) (s : Writer) : Writer :=
  {| batch := batch s; block_counts := block_counts s; broadcast := broadcast s ++ [a]; wdb := wdb s |}.

(** [as_secs] of a duration *)
Definition as_secs (d : N) : N := d / 1000000000.

(** The [CHECK] of the column [status]. *)
Definition status_ok (e : QueryLogEntry) : bool :=
  (q_status e =s? "allowed") || (q_status e =s? "blocked") || (q_status e =s? "cached") || (q_status e =s? "error").

(** The statements of the transaction, one per chunk: they only become
    visible with the commit. *)
Fixpoint insert_chunks (cs : list (list QueryLogEntry)) : M Writer DbError unit :=
  match cs with
  | [] => ret tt
  | c :: cs' =>
      query (fun _ => if forallb status_ok c then Ok tt else Err CheckViolation) ;;;
      insert_chunks cs'
  end.

(** The rows of the entries, numbered from the sequence on.  (The numbers
    of a statement that is rolled back are lost; here they are given with the
    commit.) *)
Fixpoint numbered (n : Z) (b : list QueryLogEntry) : list QueryLogRow :=
  match b with
  | [] => []
  | e :: b' => {| ql_id := n + 1; ql_client_name := None; ql_entry := e |} :: numbered (n + 1) b'
  end.
Definition append_rows (b : list QueryLogEntry) (t : Db) : Db :=
  set_query_log_seq (set_query_log t (query_log t ++ numbered (query_log_seq t) b))
    (query_log_seq t + Z.of_nat (length b)).
Definition entries (t : Db) : list QueryLogEntry := map ql_entry (query_log t).

Definition write_batch (b : list QueryLogEntry) : M Writer DbError unit :=
  match b with
  | [] => ret tt
  | _ =>
      query (fun _ => Ok tt) ;;;  (* BEGIN *)
      insert_chunks (chunks MAX_ROWS_PER_STMT b) ;;;
      execute (fun t => Ok (tt, append_rows b t))  (* COMMIT *)
  end.

(** The error is logged and the batch cleared all the same. *)
Definition flush (s : Writer) : Writer := set_batch [] (snd (write_batch (batch s) s)).

Definition alert_message (client_ip : str) : str :=
  lit "Client " ++ client_ip ++
  lit " triggered 50 blocked queries within a minute. Potential malware activity.".

(** [INSERT INTO alerts]: a task of its own whose error is dropped. *)
Definition insert_alert (id created_at client_ip : str) (s : Writer) : Writer :=
  snd (execute (fun t => Ok (tt, set_alerts t (alerts t ++
    [{| a_id := id; a_type := lit "high_frequency_block"; a_client_id := Some client_ip;
        a_message := alert_message client_ip; a_is_read := 0; a_created_at := created_at |}]))) s).

(** Anomaly detection on an entry that arrives at [now]. *)
Definition detect (now : N) (id created_at : str) (entry : QueryLogEntry) (s : Writer) : Writer :=
  if q_status entry =s? "blocked" then
    let tracker := default (0, now) (block_counts s !! q_client_ip entry) in
    if 60 <? as_secs (now - snd tracker) then
      set_block_counts (<[q_client_ip entry := (1, now)]> (block_counts s)) s
    else
      let count := fst tracker + 1 in
      let s := set_block_counts (<[q_client_ip entry := (count, snd tracker)]> (block_counts s)) s in
      if count =? 50 then
        send_alert {| ae_client_id := q_client_ip entry; ae_message := alert_message (q_client_ip entry) |}
          (insert_alert id created_at (q_client_ip entry) s)
      else s
  else s.

(** [rx.recv()] gave an entry *)
Definition on_entry (now : N) (id created_at : str) (entry : QueryLogEntry) (s : Writer) : Writer :=
  let s := detect now id created_at entry s in
  let s := set_batch (batch s ++ [entry]) s in
  if (BATCH_SIZE <=? length (batch s))%nat then flush s else s.

(** The channel is closed and empty: the task ends. *)
Definition on_close (s : Writer) : Writer :=
  match batch s with [] => s | _ => flush s end.

(** The ticker. *)
Definition on_tick (now : N) (s : Writer) : Writer :=
  let s := match batch s with [] => s | _ => flush s end in
  set_block_counts (filter (fun kv => as_secs (now - snd (snd kv)) < 120) (block_counts s)) s.

(** ** The system: producers, channel and task *)

Record Sys := { chan : Channel; writer : Writer; running : bool; accepted : list QueryLogEntry }.

Inductive step : Sys -> Sys -> Prop :=
| StepSend s entry c :
    try_send (chan s) entry = Ok c ->
    step s {| chan := c; writer := writer s; running := running s; accepted := accepted s ++ [entry] |}
| StepDrop s entry : try_send (chan s) entry = Err tt -> step s s
| StepCloseSender s :
    step s {| chan := {| queue := queue (chan s); closed := true |}; writer := writer s;
              running := running s; accepted := accepted s |}
| StepRecv s now id created_at entry rest :
    running s = true -> queue (chan s) = entry :: rest ->
    step s {| chan := {| queue := rest; closed := closed (chan s) |};
              writer := on_entry now id created_at entry (writer s);
              running := true; accepted := accepted s |}
| StepExit s :
    running s = true -> queue (chan s) = [] -> closed (chan s) = true ->
    step s {| chan := chan s; writer := on_close (writer s); running := false; accepted := accepted s |}
| StepTick s now :
    running s = true ->
    step s {| chan := chan s; writer := on_tick now (writer s); running := true; accepted := accepted s |}.

Definition init (d : DbState) : Sys :=
  {| chan := {| queue := []; closed := false |};
     writer := {| batch := []; block_counts := ∅; broadcast := []; wdb := d |};
     running := true; accepted := [] |}.

Definition reachable (d : DbState) : Sys -> Prop := rtc step (init d).

(** *** Writing *)

Definition log_of (s : Writer) : list QueryLogEntry := entries (tables (wdb s)).

Lemma entries_numbered n b : map ql_entry (numbered n b) = b.
Proof. revert n. induction b as [|e b IH]; intros n; [done|]. cbn [numbered map ql_entry]. by rewrite IH. Qed.
Lemma entries_append b t : entries (append_rows b t) = entries t ++ b.
Proof. unfold entries, append_rows. cbn [query_log set_query_log set_query_log_seq]. by rewrite map_app, entries_numbered. Qed.

(** A writer that changed in nothing but the number of calls made. *)
Definition only_calls (s s' : Writer) : Prop :=
  exists n, s' = with_db s {| tables := tables (wdb s); calls := n; faults := faults (wdb s) |}.

Lemma only_calls_reads {A} (m : M Writer DbError A) s : reads_only m -> only_calls s (snd (m s)).
Proof. intros Hm. apply Hm. Qed.

Lemma reads_insert_chunks cs : reads_only (insert_chunks cs).
Proof.
  induction cs as [|c cs IH]; simpl; [apply reads_ret|]. apply reads_bind; [apply reads_query|]. by intros _.
Qed.

(** A batch is written as a whole or not at all. *)
Lemma write_batch_atomic b s r s' :
  write_batch b s = (r, s') ->
  batch s' = batch s /\ block_counts s' = block_counts s /\ broadcast s' = broadcast s /\
  faults (wdb s') = faults (wdb s) /\
  log_of s' = match r with Ok _ => log_of s ++ b | Err _ => log_of s end.
Proof.
  destruct b as [|e b]; [intros [= <- <-]; by rewrite app_nil_r|].
  unfold write_batch, bind. intros Hw.
  assert (H1 : only_calls s (snd (query (fun _ => Ok tt) s))) by apply only_calls_reads, reads_query.
  destruct (query (fun _ => Ok tt) s) as [[u|x] s1]; simpl in H1; destruct H1 as [n ->].
  2: { injection Hw as <- <-. done. }
  set (s1 := with_db s _) in *.
  assert (H2 : only_calls s1 (snd (insert_chunks (chunks MAX_ROWS_PER_STMT (e :: b)) s1)))
    by apply only_calls_reads, reads_insert_chunks.
  destruct (insert_chunks _ s1) as [[u'|x] s2]; simpl in H2; destruct H2 as [n2 ->].
  2: { injection Hw as <- <-. done. }
  unfold execute in Hw. destruct (faults _ _); injection Hw as <- <-; [done|].
  do 4 (split; [done|]). unfold log_of. cbn [wdb with_db Writer_HasDb store tables]. apply entries_append.
Qed.

Lemma insert_chunks_ok cs s :
  db_works s -> Forall (fun c => forallb status_ok c = true) cs -> fst (insert_chunks cs s) = Ok tt.
Proof.
  intros Hs Hcs. revert s Hs. induction Hcs as [|c cs Hc _ IH]; intros s Hs; [done|].
  simpl. unfold bind. rewrite query_run by done. rewrite Hc. apply IH. by apply db_works_tick.
Qed.

Lemma write_batch_ok b s : db_works s -> forallb status_ok b = true -> fst (write_batch b s) = Ok tt.
Proof.
  intros Hs Hb. destruct b as [|e b]; [done|]. unfold write_batch, bind. rewrite query_run by done.
  set (s1 := with_db s _). assert (Hs1 : db_works s1) by by apply db_works_tick.
  assert (Hcs : Forall (fun c => forallb status_ok c = true) (chunks MAX_ROWS_PER_STMT (e :: b))).
  { apply Forall_forall. intros c Hc. rewrite forallb_forall in Hb |- *. intros x Hx. apply Hb.
    rewrite <- (concat_chunks MAX_ROWS_PER_STMT (e :: b)) by (vm_compute; lia).
    apply in_concat. exists c. split; [by apply list_elem_of_In|done]. }
  pose proof (insert_chunks_ok _ s1 Hs1 Hcs) as Hok.
  destruct (reads_insert_chunks (chunks MAX_ROWS_PER_STMT (e :: b)) s1) as [n Hn].
  destruct (insert_chunks _ s1) as [r s2]. simpl in Hok, Hn. subst r s2.
  unfold execute. match goal with |- context [if ?b then _ else _] => assert (b = false) as -> by apply Hs1 end.
  done.
Qed.

Lemma flush_works s :
  db_works s -> forallb status_ok (batch s) = true ->
  batch (flush s) = [] /\ log_of (flush s) = log_of s ++ batch s /\ db_works (flush s).
Proof.
  intros Hs Hb. unfold flush. pose proof (write_batch_ok _ s Hs Hb) as Hok.
  destruct (write_batch (batch s) s) as [r s'] eqn:Hw. simpl in Hok. subst r.
  destruct (write_batch_atomic _ _ _ _ Hw) as (_ & _ & _ & Hf & Hl).
  split; [done|]. split; [exact Hl|]. unfold db_works. simpl. rewrite Hf. exact Hs.
Qed.

Lemma detect_frame now id ca e s :
  batch (detect now id ca e s) = batch s /\ log_of (detect now id ca e s) = log_of s /\
  faults (wdb (detect now id ca e s)) = faults (wdb s).
Proof.
  unfold detect, insert_alert, execute. destruct (q_status e =s? "blocked"); [|done].
  cbn zeta. destruct (60 <? _); [done|]. destruct (_ =? 50); [|done]. simpl. by destruct (faults _ _).
Qed.

Lemma on_tick_frame now s :
  let s1 := match batch s with [] => s | _ => flush s end in
  batch (on_tick now s) = batch s1 /\ log_of (on_tick now s) = log_of s1 /\ wdb (on_tick now s) = wdb s1.
Proof. done. Qed.

(** The entries on their way: taken from the channel, not yet written. *)
Definition pending (s : Sys) : list QueryLogEntry := batch (writer s) ++ queue (chan s).

(** The batches flushed so far, in order, and whether each was written. *)
Definition flushed : Type := list (list QueryLogEntry * bool).
Definition taken (bs : flushed) : list QueryLogEntry := concat (map fst bs).
Definition written (bs : flushed) : list QueryLogEntry := concat (map fst (List.filter snd bs)).
Lemma taken_snoc bs b ok : taken (bs ++ [(b, ok)]) = taken bs ++ b.
Proof. unfold taken. rewrite map_app, concat_app. simpl. by rewrite app_nil_r. Qed.
Lemma written_snoc bs b ok : written (bs ++ [(b, ok)]) = written bs ++ (if ok then b else []).
Proof.
  unfold written. rewrite List.filter_app, map_app, concat_app. cbn [List.filter snd]. by destruct ok; simpl; rewrite ?app_nil_r.
Qed.
Lemma written_all bs : Forall (fun x => snd x = true) bs -> written bs = taken bs.
Proof.
  intros Hbs. unfold written, taken. do 2 f_equal. induction Hbs as [|x bs Hx _ IH]; [done|]. simpl. by rewrite Hx, IH.
Qed.

(** The invariant of any run. *)
Definition sys_inv (d : DbState) (s : Sys) : Prop :=
  (exists bs,
     accepted s = taken bs ++ pending s /\
     log_of (writer s) = entries (tables d) ++ written bs /\
     Forall (fun x => (1 <= length (fst x) <= BATCH_SIZE)%nat) bs /\
     (db_works d -> Forall (fun e => status_ok e = true) (accepted s) -> Forall (fun x => snd x = true) bs)) /\
  (length (batch (writer s)) < BATCH_SIZE)%nat /\
  N.of_nat (length (queue (chan s))) <= CHANNEL_CAPACITY /\
  (running s = false -> batch (writer s) = [] /\ queue (chan s) = [] /\ closed (chan s) = true) /\
  faults (wdb (writer s)) = faults d.

Lemma flush_any s :
  batch (flush s) = [] /\ faults (wdb (flush s)) = faults (wdb s) /\
  exists ok : bool, log_of (flush s) = log_of s ++ (if ok then batch s else []) /\
    (db_works s -> forallb status_ok (batch s) = true -> ok = true).
Proof.
  unfold flush. destruct (write_batch (batch s) s) as [r s'] eqn:Hw.
  destruct (write_batch_atomic _ _ _ _ Hw) as (_ & _ & _ & Hf & Hl). simpl.
  split; [done|]. split; [exact Hf|]. change (log_of (set_batch [] s')) with (log_of s'). rewrite Hl. exists (is_ok r).
  split; [destruct r; [done|by rewrite app_nil_r]|].
  intros Hs Hb. pose proof (write_batch_ok _ s Hs Hb) as Hok. rewrite Hw in Hok. simpl in Hok. by subst r.
Qed.

(** A turn of the writer: it is left as it was, or has flushed its batch. *)
Definition flushes (s1 s2 : Writer) : Prop :=
  faults (wdb s2) = faults (wdb s1) /\
  ((batch s2 = batch s1 /\ log_of s2 = log_of s1) \/
   (batch s1 <> [] /\ batch s2 = [] /\ exists ok : bool,
      log_of s2 = log_of s1 ++ (if ok then batch s1 else []) /\
      (db_works s1 -> forallb status_ok (batch s1) = true -> ok = true))).

Lemma flushes_flush s : batch s <> [] -> flushes s (flush s).
Proof. intros Hne. destruct (flush_any s) as (Hb & Hf & Hl). split; [exact Hf|]. by right. Qed.

Lemma flushes_refl s1 s2 :
  batch s2 = batch s1 -> log_of s2 = log_of s1 -> faults (wdb s2) = faults (wdb s1) -> flushes s1 s2.
Proof. intros Hb Hl Hf. split; [exact Hf|]. left. by split. Qed.

(** The writer took [es] from the channel and then flushed or not. *)
Lemma inv_turn d s s2 es q cl run' :
  sys_inv d s -> queue (chan s) = es ++ q -> (length es <= 1)%nat ->
  flushes (set_batch (batch (writer s) ++ es) (writer s)) s2 ->
  (length (batch s2) < BATCH_SIZE)%nat ->
  (run' = false -> batch s2 = [] /\ q = [] /\ cl = true) ->
  sys_inv d {| chan := {| queue := q; closed := cl |}; writer := s2; running := run'; accepted := accepted s |}.
Proof.
  intros ((bs & Hacc & Hlog & Hbs & Hok) & Hlen0 & Hcap & _ & Hfaults) Hq Hes (Hf & Hfl) Hlen Hrun'.
  unfold sys_inv, pending in *. simpl. rewrite Hq in *.
  split; [|split; [exact Hlen|split; [rewrite length_app in Hcap; lia|split; [exact Hrun'|by rewrite Hf]]]].
  destruct Hfl as [[Hb Hl]|(Hne & Hb & ok & Hl & Hall)]; simpl in *; cbn in Hl; rewrite Hb.
  - exists bs. rewrite Hl, <- app_assoc. by split.
  - exists (bs ++ [(batch (writer s) ++ es, ok)]). rewrite taken_snoc, written_snoc.
    split; [rewrite Hacc; by rewrite <- !app_assoc|]. split; [rewrite Hl; by rewrite app_assoc, <- Hlog|]. split.
    + apply Forall_app_2; [done|]. constructor; [|done]. cbn [fst]. split.
      * destruct (batch (writer s) ++ es); [done|simpl; lia].
      * rewrite length_app. lia.
    + intros Hd Hst. apply Forall_app_2; [by apply Hok|]. constructor; [|done]. cbn [snd]. apply Hall.
      * intros n. change (faults (wdb (writer s)) n = false). rewrite Hfaults. apply Hd.
      * rewrite forallb_forall. intros e He. rewrite Forall_forall in Hst. apply Hst. rewrite Hacc.
        apply list_elem_of_In in He. rewrite !elem_of_app in *. tauto.
Qed.

Lemma inv_init d : sys_inv d (init d).
Proof.
  unfold sys_inv, pending, log_of. simpl. split.
  { exists []. split; [done|]. split; [unfold written; simpl; by rewrite app_nil_r|]. by split. }
  split; [vm_compute; lia|]. split; [vm_compute; discriminate|]. by split.
Qed.

Lemma surjective_chan c : c = {| queue := queue c; closed := closed c |}.
Proof. by destruct c. Qed.

Lemma inv_step d s s' : sys_inv d s -> step s s' -> sys_inv d s'.
Proof.
  intros Hinv Hstep. pose proof Hinv as (Hbs & Hlen & Hcap & Hrun & Hf0).
  destruct Hstep as [s e c Hsend|s e Hsend|s|s now id ca e rest Hr Hq|s Hr Hq Hcl|s now Hr].
  - unfold try_send in Hsend. destruct (closed (chan s) || _) eqn:Hc; [done|]. injection Hsend as <-.
    split_bools. destruct Hbs as (bs & Hacc & Hl & Hb & Hok). unfold sys_inv, pending in *. simpl.
    split; [|split; [exact Hlen|split; [rewrite length_app; simpl; lia|split; [|exact Hf0]]]].
    + exists bs. split; [rewrite Hacc; by rewrite <- !app_assoc|]. split; [exact Hl|]. split; [exact Hb|].
      intros Hd Hst. apply Forall_app in Hst as [Hst _]. by apply Hok.
    + intros Hr. destruct (Hrun Hr) as (_ & _ & ?). congruence.
  - exact Hinv.
  - unfold sys_inv, pending in *. simpl. split; [exact Hbs|]. split; [exact Hlen|]. split; [exact Hcap|].
    split; [|exact Hf0]. intros Hr. by destruct (Hrun Hr) as (? & ? & ?).
  - apply (inv_turn d s _ [e] rest); [exact Hinv|by rewrite Hq|done| | |done].
    + unfold on_entry. destruct (detect_frame now id ca e (writer s)) as (Hb & Hl & Hf).
      destruct (BATCH_SIZE <=? _)%nat; [|apply flushes_refl; [simpl; by rewrite Hb|exact Hl|exact Hf]].
      set (s1 := set_batch _ (detect _ _ _ _ _)).
      assert (Hb1 : batch s1 = batch (set_batch (batch (writer s) ++ [e]) (writer s))) by (simpl; by rewrite Hb).
      assert (Hl1 : log_of s1 = log_of (set_batch (batch (writer s) ++ [e]) (writer s))) by exact Hl.
      assert (Hne : batch s1 <> []) by (rewrite Hb1; simpl; by destruct (batch (writer s))).
      destruct (flushes_flush s1 Hne) as [Hf' Hfl]. split; [by rewrite Hf'|].
      rewrite <- Hb1, <- Hl1. destruct Hfl as [Hfl|(? & ? & ok & ? & Hok)]; [by left|right].
      split; [done|]. split; [done|]. exists ok. split; [done|]. intros Hd. apply Hok.
      unfold db_works in *. simpl. by rewrite Hf.
    + unfold on_entry. destruct (BATCH_SIZE <=? _)%nat eqn:Hbs'.
      * destruct (flush_any (set_batch (batch (detect now id ca e (writer s)) ++ [e]) (detect now id ca e (writer s))))
          as (-> & _). vm_compute. lia.
      * apply Nat.leb_gt in Hbs'. exact Hbs'.
  - rewrite (surjective_chan (chan s)). apply (inv_turn d s _ [] (queue (chan s))); [exact Hinv|done|simpl; lia| | |].
    + unfold on_close. rewrite app_nil_r. destruct (batch (writer s)) as [|e b] eqn:Hb.
      * apply flushes_refl; [by rewrite Hb|done|done].
      * rewrite <- Hb. destruct (flushes_flush (writer s)) as [Hf Hfl]; [by rewrite Hb|]. by split.
    + unfold on_close. destruct (batch (writer s)) eqn:Hb; [rewrite Hb; vm_compute; lia|].
      destruct (flush_any (writer s)) as (-> & _). vm_compute. lia.
    + intros _. unfold on_close. destruct (batch (writer s)) eqn:Hb; [done|].
      destruct (flush_any (writer s)) as (-> & _). done.
  - rewrite (surjective_chan (chan s)). apply (inv_turn d s _ [] (queue (chan s)) (closed (chan s))); [exact Hinv|done|simpl; lia| | |done].
    + rewrite app_nil_r. unfold on_tick. destruct (batch (writer s)) as [|e b] eqn:Hb; [by apply flushes_refl|].
      destruct (flushes_flush (writer s)) as [Hf Hfl]; [by rewrite Hb|]. rewrite Hb in Hfl. by split.
    + unfold on_tick. destruct (batch (writer s)) as [|e b] eqn:Hb; simpl; [rewrite Hb|]; vm_compute; lia.
Qed.

Lemma reachable_inv d s : reachable d s -> sys_inv d s.
Proof.
  intros Hr. unfold reachable in Hr. revert s Hr.
  apply (rtc_ind_r (sys_inv d)); [apply inv_init|]. intros s s' _ Hs Hi. by eapply inv_step.
Qed.

(** C10: However the senders, the receiver and the ticker interleave, and
    whichever statements fail: the entries accepted are, in order, those of
    the batches flushed so far, then those in the batch, then those in the
    channel, and the log holds exactly the entries of the flushed batches
    whose transaction succeeded, in order and once.  So what is lost is lost
    by whole batches, of 1 to 500 entries, whose transaction failed; when the
    database works and the statuses are ones the table accepts, nothing is.
    Fewer than 500 entries wait in the batch and at most 32768 in the channel,
    and once the task has ended, on the closing of the channel, none waits. *)
Theorem writer_correct d s :
  reachable d s ->
  (exists bs,
     accepted s = concat (map fst bs) ++ batch (writer s) ++ queue (chan s) /\
     log_of (writer s) = entries (tables d) ++ concat (map fst (List.filter snd bs)) /\
     Forall (fun x => (1 <= length (fst x) <= 500)%nat) bs /\
     (db_works d -> Forall (fun e => status_ok e = true) (accepted s) ->
        Forall (fun x => snd x = true) bs /\
        log_of (writer s) ++ pending s = entries (tables d) ++ accepted s)) /\
  (length (batch (writer s)) < 500)%nat /\ N.of_nat (length (queue (chan s))) <= 32768 /\
  (running s = false -> batch (writer s) = [] /\ queue (chan s) = []).
Proof.
  intros Hr. destruct (reachable_inv d s Hr) as ((bs & Hacc & Hl & Hlen0 & Hok) & Hlen & Hcap & Hrun & _).
  split; [|split; [exact Hlen|split; [exact Hcap|intros Hend; by destruct (Hrun Hend) as (? & ? & _)]]].
  exists bs. split; [exact Hacc|]. split; [exact Hl|]. split; [exact Hlen0|]. intros Hd Hst.
  pose proof (Hok Hd Hst) as Hall. split; [exact Hall|].
  rewrite Hl, (written_all _ Hall), Hacc. by rewrite <- !app_assoc.
Qed.

(** ** The anomaly detection *)

(** Blocked queries of one client, each at its instant, with no turn of the
    ticker in between. *)
Definition detect_all (times : list N) (id created_at : str) (e : QueryLogEntry) (s : Writer) : Writer :=
  fold_left (fun s now => detect now id created_at e s) times s.

Lemma detect_all_within times id ca e s n first :
  q_status e = lit "blocked" ->
  block_counts s !! q_client_ip e = Some (n, first) ->
  Forall (fun t => as_secs (t - first) <= 60) times ->
  let s' := detect_all times id ca e s in
  block_counts s' !! q_client_ip e = Some (n + N.of_nat (length times), first) /\
  broadcast s' = broadcast s ++
    (if (n <? 50) && (50 <=? n + N.of_nat (length times)) then
       [{| ae_client_id := q_client_ip e; ae_message := alert_message (q_client_ip e) |}] else []).
Proof.
  intros Hb Hn Ht. cbn zeta. revert s n Hn. induction Ht as [|t times Ht _ IH]; intros s n Hn.
  { simpl. rewrite N.add_0_r, Hn. split; [done|].
    destruct ((n <? 50) && (50 <=? n)) eqn:Hc; [split_bools; lia|by rewrite app_nil_r]. }
  simpl. set (s1 := detect t id ca e s).
  assert (Hs1 : block_counts s1 !! q_client_ip e = Some (n + 1, first) /\
    broadcast s1 = broadcast s ++ (if n + 1 =? 50 then
      [{| ae_client_id := q_client_ip e; ae_message := alert_message (q_client_ip e) |}] else [])).
  { unfold s1, detect. rewrite Hb, str_eqb_refl, Hn. cbn [from_option Datatypes.id fst snd].
    assert ((60 <? as_secs (t - first)) = false) as -> by lia.
    unfold insert_alert, execute. destruct (n + 1 =? 50); simpl.
    - destruct (faults _ _); simpl; by rewrite lookup_insert_eq.
    - rewrite lookup_insert_eq. by rewrite app_nil_r. }
  destruct Hs1 as [Hc Hbr]. destruct (IH s1 (n + 1) Hc) as [-> ->]. rewrite Hbr, <- app_assoc.
  split; [do 2 f_equal; lia|]. f_equal. cbn [length].
  replace (n + N.of_nat (S (length times))) with (n + 1 + N.of_nat (length times)) by lia.
  generalize (N.of_nat (length times)) as k. intros k.
  destruct (N.eqb_spec (n + 1) 50), (N.ltb_spec (n + 1) 50), (N.ltb_spec n 50), (N.leb_spec 50 (n + 1 + k));
    simpl; try done; lia.
Qed.

(** fifty blocked queries of a client within sixty seconds of the first
    raise the alert once, at the fiftieth, and fewer raise none; other
    clients' counts do not matter. *)
Theorem anomaly_alert_correct times id ca e s first :
  q_status e = lit "blocked" ->
  block_counts s !! q_client_ip e = None ->
  Forall (fun t => first <= t /\ t - first < 61 * 1000000000) times ->
  broadcast (detect_all (first :: times) id ca e s) = broadcast s ++
    (if (50 <=? length (first :: times))%nat then
       [{| ae_client_id := q_client_ip e; ae_message := alert_message (q_client_ip e) |}] else []).
Proof.
  intros Hb Hn Ht.
  assert ((50 <=? length (first :: times))%nat = (50 <=? 1 + N.of_nat (length times))) as ->.
  { apply eq_true_iff_eq. rewrite Nat.leb_le, N.leb_le. cbn [length]. lia. }
  unfold detect_all. cbn [fold_left]. set (s1 := detect first id ca e s). fold (detect_all times id ca e s1).
  assert (Hs1 : block_counts s1 !! q_client_ip e = Some (1, first) /\ broadcast s1 = broadcast s).
  { unfold s1, detect. rewrite Hb, str_eqb_refl, Hn. cbn [from_option Datatypes.id fst snd]. rewrite N.sub_diag. simpl.
    by rewrite lookup_insert_eq. }
  destruct Hs1 as [Hc Hbr].
  destruct (detect_all_within times id ca e s1 1 first Hb Hc) as [_ ->].
  - eapply Forall_impl; [exact Ht|]. intros t [_ Hlt]. unfold as_secs.
    assert (t - first < 1000000000 * 61) by lia. apply N.Div0.div_lt_upper_bound in H. lia.
  - by rewrite Hbr.
Qed.

End QueryLogWriter.

Module QueryLogWriterWitness.
Import QueryLogWriter.

Definition entry (status : string) : QueryLogEntry :=
  {| q_time := 0; q_client_ip := lit "10.0.0.7"; q_question := lit "ads.com."; q_qtype := lit "A";
     q_status := lit status; q_reason := None; q_answer := None; q_elapsed_ns := 1; q_upstream_ns := None;
     q_upstream_name := None; q_app_id := None |}.
Definition db0 (faults : N -> bool) : DbState := {| tables := empty_db; calls := 0; faults := faults |}.

(** One entry is sent and taken, the sender goes, and the task ends. *)
Definition end_state : Sys :=
  {| chan := {| queue := []; closed := true |};
     writer := on_close (on_entry 0 [] [] (entry "blocked") (writer (init (db0 (fun _ => false)))));
     running := false; accepted := [entry "blocked"] |}.

Lemma writer_correct_witness : log_of (writer end_state) = [entry "blocked"].
Proof.
  assert (Hr : reachable (db0 (fun _ => false)) end_state).
  { unfold reachable. eapply rtc_l; [by apply (StepSend _ (entry "blocked"))|].
    eapply rtc_l; [apply StepCloseSender|].
    eapply rtc_l; [by apply (StepRecv _ 0 [] [] (entry "blocked") [])|].
    eapply rtc_l; [by apply StepExit|]. apply rtc_refl. }
  destruct (writer_correct _ _ Hr) as ((bs & _ & _ & _ & Hok) & _ & _ & Hend).
  destruct Hok as [_ Hlog]; [intros n; reflexivity|repeat constructor|]. unfold pending in Hlog.
  destruct (Hend eq_refl) as [Hb Hq]. rewrite Hb, Hq, app_nil_r in Hlog. exact Hlog.
Defined.

Lemma anomaly_alert_correct_witness :
  length (broadcast (detect_all (0 :: repeat 1000000000 49) [] [] (entry "blocked") (writer (init (db0 (fun _ => true)))))) = 1%nat.
Proof.
  rewrite (anomaly_alert_correct (repeat 1000000000 49) [] [] (entry "blocked") (writer (init (db0 (fun _ => true)))) 0).
  - reflexivity.
  - reflexivity.
  - reflexivity.
  - repeat (apply Forall_cons_2; [split; [vm_compute; discriminate|vm_compute; reflexivity]|]). apply Forall_nil_2.
Defined.

(** A failing commit loses the batch. *)
Example failed_flush_loses :
  log_of (on_close (on_entry 0 [] [] (entry "allowed") (writer (init (db0 (fun _ => true)))))) = [].
Proof. vm_compute. reflexivity. Qed.

End QueryLogWriterWitness.
