(* ===== verification/Handler.v ===== *)
(** * The query handler: src/dns/handler.rs

    The path of a query: access list, header checks, the configuration of the
    client, rewrites, filtering, cache, upstreams.  The state is everything
    the handler holds, the database included; one call runs without another
    in between.  The instants and durations a call measures are given to it. *)
From S2P Require Import Prelude RustStr IpAddr Regex Rules Acl Moka Hickory Cache Db Filter Resolver.
From S2P Require Import UpstreamPool Metrics AppCatalog QueryLogWriter.
Local Open Scope N_scope.

(** What a call measures: the time it started, in nanoseconds, and the two
    durations it logs. *)
Record Timing := { t_now : N; t_elapsed : Z; t_upstream : Z }.

(** The event sent to the live view. *)
Record QueryEvent := {
  ev_time : N; ev_client_ip : str; ev_question : str; ev_qtype : str; ev_status : str;
  ev_reason : option str; ev_answer : option str; ev_elapsed_ns : Z; ev_upstream_ns : option Z;
  ev_upstream : option str }.

Module Handler.
Section handler.
Context `{RustUnicode, RegexEngine, SerdeJson, Collation, IpNetCrate, Moka, Rng,
  Hickory, !HickoryResolver, !DnsCodec}.

Definition CLIENT_CACHE_TTL : N := secs 60.

Record ClientConfig := {
  filter_enabled : bool;
  upstream_urls : option (list str);
  group_ruleset : option Rules.RuleSet;
  group_rewrites : option (gmap str str);
}.
Definition default_config : ClientConfig :=
  {| filter_enabled := true; upstream_urls := None; group_ruleset := None; group_rewrites := None |}.

Record DnsHandler := {
  filter : FilterEngine.FilterEngine;
  upstream_pool : UpstreamPool.UpstreamPool;
  prefer_ipv4 : bool;
  rewrite_ttl : N;
  acl : Acl.Acl;
  client_resolvers : moka Resolver.DnsResolver;
  cache : Cache.DnsCache;
  client_config_cache : moka ClientConfig;
  metrics : Metrics.DnsMetrics;
  query_log_tx : list QueryEvent;
  query_log_entry_tx : QueryLogWriter.Channel;
  app_catalog : AppCatalog.AppCatalogCache;
  env : Resolver.Env;
}.

Definition set_filter (x : FilterEngine.FilterEngine) (h : DnsHandler) : DnsHandler :=
  {| filter := x; upstream_pool := upstream_pool h; prefer_ipv4 := prefer_ipv4 h; rewrite_ttl := rewrite_ttl h;
     acl := acl h; client_resolvers := client_resolvers h; cache := cache h;
     client_config_cache := client_config_cache h; metrics := metrics h; query_log_tx := query_log_tx h;
     query_log_entry_tx := query_log_entry_tx h; app_catalog := app_catalog h; env := env h |}.
Definition set_pool (x : UpstreamPool.UpstreamPool) (h : DnsHandler) : DnsHandler :=
  {| filter := filter h; upstream_pool := x; prefer_ipv4 := prefer_ipv4 h; rewrite_ttl := rewrite_ttl h;
     acl := acl h; client_resolvers := client_resolvers h; cache := cache h;
     client_config_cache := client_config_cache h; metrics := metrics h; query_log_tx := query_log_tx h;
     query_log_entry_tx := query_log_entry_tx h; app_catalog := app_catalog h; env := env h |}.
Definition set_acl (x : Acl.Acl) (h : DnsHandler) : DnsHandler :=
  {| filter := filter h; upstream_pool := upstream_pool h; prefer_ipv4 := prefer_ipv4 h; rewrite_ttl := rewrite_ttl h;
     acl := x; client_resolvers := client_resolvers h; cache := cache h;
     client_config_cache := client_config_cache h; metrics := metrics h; query_log_tx := query_log_tx h;
     query_log_entry_tx := query_log_entry_tx h; app_catalog := app_catalog h; env := env h |}.
Definition set_client_resolvers (x : moka Resolver.DnsResolver) (h : DnsHandler) : DnsHandler :=
  {| filter := filter h; upstream_pool := upstream_pool h; prefer_ipv4 := prefer_ipv4 h; rewrite_ttl := rewrite_ttl h;
     acl := acl h; client_resolvers := x; cache := cache h;
     client_config_cache := client_config_cache h; metrics := metrics h; query_log_tx := query_log_tx h;
     query_log_entry_tx := query_log_entry_tx h; app_catalog := app_catalog h; env := env h |}.
Definition set_cache (x : Cache.DnsCache) (h : DnsHandler) : DnsHandler :=
  {| filter := filter h; upstream_pool := upstream_pool h; prefer_ipv4 := prefer_ipv4 h; rewrite_ttl := rewrite_ttl h;
     acl := acl h; client_resolvers := client_resolvers h; cache := x;
     client_config_cache := client_config_cache h; metrics := metrics h; query_log_tx := query_log_tx h;
     query_log_entry_tx := query_log_entry_tx h; app_catalog := app_catalog h; env := env h |}.
Definition set_client_config_cache (x : moka ClientConfig) (h : DnsHandler) : DnsHandler :=
  {| filter := filter h; upstream_pool := upstream_pool h; prefer_ipv4 := prefer_ipv4 h; rewrite_ttl := rewrite_ttl h;
     acl := acl h; client_resolvers := client_resolvers h; cache := cache h;
     client_config_cache := x; metrics := metrics h; query_log_tx := query_log_tx h;
     query_log_entry_tx := query_log_entry_tx h; app_catalog := app_catalog h; env := env h |}.
Definition set_metrics (x : Metrics.DnsMetrics) (h : DnsHandler) : DnsHandler :=
  {| filter := filter h; upstream_pool := upstream_pool h; prefer_ipv4 := prefer_ipv4 h; rewrite_ttl := rewrite_ttl h;
     acl := acl h; client_resolvers := client_resolvers h; cache := cache h;
     client_config_cache := client_config_cache h; metrics := x; query_log_tx := query_log_tx h;
     query_log_entry_tx := query_log_entry_tx h; app_catalog := app_catalog h; env := env h |}.
Definition set_log (x : list QueryEvent) (c : QueryLogWriter.Channel) (h : DnsHandler) : DnsHandler :=
  {| filter := filter h; upstream_pool := upstream_pool h; prefer_ipv4 := prefer_ipv4 h; rewrite_ttl := rewrite_ttl h;
     acl := acl h; client_resolvers := client_resolvers h; cache := cache h;
     client_config_cache := client_config_cache h; metrics := metrics h; query_log_tx := x;
     query_log_entry_tx := c; app_catalog := app_catalog h; env := env h |}.
Definition set_env (x : Resolver.Env) (h : DnsHandler) : DnsHandler :=
  {| filter := filter h; upstream_pool := upstream_pool h; prefer_ipv4 := prefer_ipv4 h; rewrite_ttl := rewrite_ttl h;
     acl := acl h; client_resolvers := client_resolvers h; cache := cache h;
     client_config_cache := client_config_cache h; metrics := metrics h; query_log_tx := query_log_tx h;
     query_log_entry_tx := query_log_entry_tx h; app_catalog := app_catalog h; env := x |}.

(** The handler and its filter hold the same connection. *)
#[global] Instance DnsHandler_HasDb : HasDb DnsHandler := {
  db_of h := FilterEngine.db (filter h);
  with_db h d := set_filter (with_db (filter h) d) h }.
#[global] Instance DnsHandler_HasDbLaws : HasDbLaws DnsHandler.
Proof. constructor; try done. by intros [[] ? ? ? ? ? ? ? ? ? ? ? ?]. Qed.

Inductive HandlerError :=
| Proto                                   (* the wire format cannot be read or written *)
| PoolFailed (e : UpstreamPool.PoolError)
| ResolverFailed (e : Resolver.ResolveFailure)
| BadAnswer                               (* the rewrite is no address of the type *)
| DbFailed (e : DbError).

(** A computation on the network, within the handler. *)
Definition on_env {E A} (m : M Resolver.Env E A) : M DnsHandler E A := fun h =>
  let '(r, e) := m (env h) in (r, set_env e h).

(** ** Replies *)

Definition encode (m : Message) : result (list N) HandlerError := ok_or (to_vec m) Proto.

Definition nxdomain (request : Message) : result (list N) HandlerError :=
  let response := set_id Message_new (m_id request) in
  let response := set_type response MtResponse in
  let response := set_code response NXDomain in
  let response := set_rd response (m_rd request) in
  let response := set_ra response true in
  encode (fold_left add_query (m_queries request) response).
Definition servfail (request : Message) : result (list N) HandlerError :=
  encode (set_code (set_type (set_id Message_new (m_id request)) MtResponse) ServFail).
Definition refused (request : Message) : result (list N) HandlerError :=
  encode (set_code (set_type (set_id Message_new (m_id request)) MtResponse) Refused).

(** [extract_answer]: at most five records. *)
Definition extract_answer (msg : Message) : option str :=
  match take 5 (filter_map (fun r => rdata_str <$> r_data r) (m_answers msg)) with
  | [] => None
  | parts => Some (join (lit ", ") parts)
  end.

Definition rewrite_response (h : DnsHandler) (request : Message) (answer : str) (qtype : RecordType)
    : result (list N) HandlerError :=
  try! ip := ok_or (parse_ip answer) BadAnswer in
  try! rdata :=
    (if is_ipv4 ip && bool_decide (qtype = rtype_A) then Ok (rdata_ip ip)
     else if is_ipv6 ip && bool_decide (qtype = rtype_AAAA) then Ok (rdata_ip ip)
     else Err BadAnswer) in
  try! query := ok_or (head (m_queries request)) BadAnswer in
  let record := {| r_name := q_name query; r_type := qtype; r_class := class_IN;
                   r_ttl := rewrite_ttl h; r_data := Some rdata |} in
  let response := set_id Message_new (m_id request) in
  let response := set_type response MtResponse in
  let response := set_code response NoError in
  let response := set_rd response (m_rd request) in
  let response := set_ra response true in
  let response := add_query response query in
  let response := add_answer response record in
  encode response.

(** ** Logging *)

Definition log_query (tm : Timing) (client_ip domain qtype status : str) (reason answer : option str)
    (upstream_ns : option Z) (upstream_name : option str) (app_id : option Z) (h : DnsHandler) : DnsHandler :=
  let entry := {|
    q_time := t_now tm; q_client_ip := client_ip; q_question := domain; q_qtype := qtype; q_status := status;
    q_reason := reason; q_answer := answer; q_elapsed_ns := t_elapsed tm; q_upstream_ns := upstream_ns;
    q_upstream_name := upstream_name; q_app_id := app_id |} in
  let chan :=
    match QueryLogWriter.try_send (query_log_entry_tx h) entry with
    | Ok c => c
    | Err _ => query_log_entry_tx h
    end in
  let event := {|
    ev_time := t_now tm; ev_client_ip := client_ip; ev_question := domain; ev_qtype := qtype; ev_status := status;
    ev_reason := reason; ev_answer := answer; ev_elapsed_ns := t_elapsed tm; ev_upstream_ns := upstream_ns;
    ev_upstream := upstream_name |} in
  set_log (query_log_tx h ++ [event]) chan h.

(** ** The configuration of a client *)

(** [identifiers.iter().any(..)] *)
Definition identifier_matches (client_ip : str) (id : option str) : bool :=
  let id_str := default [] id in
  if id_str =s? client_ip then true
  else match IpNet_from_str id_str with
       | Some network =>
           match parse_ip client_ip with
           | Some ip => IpNet_contains network ip
           | None => false
           end
       | None => false
       end.

(** [fe: i32], decoded from the column as [sqlx] does: only an integer
    column gives one. *)
Definition decode_i32 (v : sql_value) : result Z DbError :=
  match v with SqlInt z => Ok z | SqlBool _ => Err ColumnDecode end.

Fixpoint decode_clients (cs : list Client) : result (list (str * str * Z * option str)) DbError :=
  match cs with
  | [] => Ok []
  | c :: cs' =>
      try! fe := decode_i32 (c_filter_enabled c) in
      try! rest := decode_clients cs' in
      Ok ((c_id c, c_identifiers c, fe, c_upstreams c) :: rest)
  end.

(** The first client one of whose identifiers matches. *)
Fixpoint match_client (client_ip : str) (rows : list (str * str * Z * option str))
    : option (str * bool * option (list str)) :=
  match rows with
  | [] => None
  | (client_id, identifiers_json, fe, upstreams_json) :: rows' =>
      match json_values identifiers_json with
      | Some identifiers =>
          if existsb (identifier_matches client_ip) identifiers then
            Some (client_id, (fe =? 1)%Z,
                  match upstreams_json with
                  | Some s => match json_strings s with Some ((_ :: _) as v) => Some v | _ => None end
                  | None => None
                  end)
          else match_client client_ip rows'
      | None => match_client client_ip rows'
      end
  end.

(** The joins of the group queries: the rules of a type bound to the groups
    of the client, with the priority of the group. *)
Definition group_bindings (client_id rule_type : str) (t : Db) : list (Z * str) :=
  flat_map (fun m =>
    if cgm_client_id m =s? client_id then
      flat_map (fun cg =>
        if (cg_id cg =? cgm_group_id m)%Z then
          flat_map (fun cgr =>
            if (cgr_group_id cgr =? cgm_group_id m)%Z && (cgr_rule_type cgr =s? rule_type)
            then [(cg_priority cg, cgr_rule_id cgr)] else []) (client_group_rules t)
        else []) (client_groups t)
    else []) (client_group_memberships t).

(** [ORDER BY cg.priority ASC]; rows of one priority in the order of the
    join. *)
Definition group_rewrite_rows (client_id : str) (t : Db) : list (str * str) :=
  map snd (sort_by_key fst (flat_map (fun b =>
    flat_map (fun dr => if dr_id dr =s? snd b then [(fst b, (dr_domain dr, dr_answer dr))] else [])
      (dns_rewrites t)) (group_bindings client_id "rewrite" t))).
Definition group_rule_rows (client_id : str) (t : Db) : list str :=
  map snd (sort_by_key fst (flat_map (fun b =>
    flat_map (fun cr => if (cr_id cr =s? snd b) && cr_is_enabled cr then [(fst b, cr_rule cr)] else [])
      (custom_rules t)) (group_bindings client_id "custom_rule" t))).

Definition load_group_rewrites_for_client (client_id : str) : M DnsHandler HandlerError (option (gmap str str)) :=
  let! rows := catch (fetch_all (group_rewrite_rows client_id)) in
  ret (match rows with
       | Ok ((_ :: _) as rows) => Some (fold_left FilterEngine.insert_rewrite rows ∅)
       | _ => None
       end).

(** The rules are added but never compiled. *)
Definition load_group_rules_for_client (client_id : str) : M DnsHandler HandlerError (option Rules.RuleSet) :=
  let! rule_rows := catch (fetch_all (group_rule_rows client_id)) in
  ret (match rule_rows with
       | Ok ((_ :: _) as rows) => Some (fst (Rules.add_rules Rules.new rows))
       | _ => None
       end).

Definition resolve_client_config (client_ip : str) : M DnsHandler HandlerError ClientConfig :=
  let! full_rows := catch (query (fun t => decode_clients (clients t))) in
  match full_rows with
  | Err _ => ret default_config
  | Ok rows =>
      match match_client client_ip rows with
      | Some (cid, fe, upstreams) =>
          let! ruleset := load_group_rules_for_client cid in
          let! rewrites := load_group_rewrites_for_client cid in
          ret {| filter_enabled := fe; upstream_urls := upstreams;
                 group_ruleset := ruleset; group_rewrites := rewrites |}
      | None => ret default_config
      end
  end.

Definition get_client_config (now : N) (client_ip : str) : M DnsHandler HandlerError ClientConfig :=
  let! cached := gets (fun h => moka_get (client_config_cache h) now client_ip) in
  match cached with
  | Some c => ret c
  | None =>
      let! result := resolve_client_config client_ip in
      modify (fun h => set_client_config_cache (moka_insert (client_config_cache h) now client_ip result) h) ;;;
      ret result
  end.

Definition get_or_create_client_resolver (now : N) (upstreams : list str)
    : M DnsHandler HandlerError Resolver.DnsResolver :=
  let key := join (lit ",") (sort_strs upstreams) in
  let! cached := gets (fun h => moka_get (client_resolvers h) now key) in
  match cached with
  | Some r => ret r
  | None =>
      let! prefer := gets prefer_ipv4 in
      let resolver := Resolver.with_upstreams upstreams prefer in
      modify (fun h => set_client_resolvers (moka_insert (client_resolvers h) now key resolver) h) ;;;
      ret resolver
  end.

(** ** The stages of a query *)

(** [client_ip.parse::<IpAddr>()] and the access list *)
Definition acl_rejects (h : DnsHandler) (client_ip : str) : bool :=
  match parse_ip client_ip with
  | Some ip => negb (Acl.is_allowed (acl h) ip)
  | None => false
  end.

Definition rewrite_answer (h : DnsHandler) (config : ClientConfig) (domain_normalized : str) : option str :=
  match group_rewrites config with
  | Some rewrites =>
      match rewrites !! domain_normalized with
      | Some ans => Some ans
      | None => FilterEngine.check_rewrite (filter h) domain_normalized
      end
  | None => FilterEngine.check_rewrite (filter h) domain_normalized
  end.

(** The rewrite, when there is one that can be answered with. *)
Definition rewrite_stage (tm : Timing) (client_ip : str) (config : ClientConfig) (request : Message)
    (domain : str) (qtype : RecordType) : M DnsHandler HandlerError (option (list N)) := fun h =>
  let domain_normalized := trim_end_char domain dot in
  match rewrite_answer h config domain_normalized with
  | Some answer =>
      if bool_decide (qtype = rtype_A) || bool_decide (qtype = rtype_AAAA) then
        match rewrite_response h request answer qtype with
        | Ok response =>
            (Ok (Some response),
             log_query tm client_ip domain (rtype_debug qtype) "allowed" (Some (lit "rewrite")) (Some answer)
               None (Some (lit "rewrite")) (AppCatalog.match_domain (app_catalog h) domain_normalized)
               (set_metrics (Metrics.inc_allowed (metrics h)) h))
        | Err _ => (Ok None, h)
        end
      else (Ok None, h)
  | None => (Ok None, h)
  end.

Definition is_query_blocked (h : DnsHandler) (config : ClientConfig) (domain_normalized : str) : bool :=
  filter_enabled config &&
  match group_ruleset config with
  | Some ruleset =>
      match Rules.match_domain ruleset domain_normalized with
      | Blocked => true
      | Allowed => false
      | NoMatch => FilterEngine.is_blocked (filter h) domain_normalized
      end
  | None => FilterEngine.is_blocked (filter h) domain_normalized
  end.

(** The cached bytes with the identifier of the request. *)
Definition update_id (cached : list N) (i : N) : list N :=
  if (2 <=? length cached)%nat then patch_id cached i else cached.

(** The upstreams of the client, or the pool. *)
Definition forward (tm : Timing) (config : ClientConfig) (domain : str) (qtype : RecordType) (request : Message)
    : M DnsHandler HandlerError (list N * option N * option str) :=
  match upstream_urls config with
  | Some upstreams =>
      let! resolver := get_or_create_client_resolver (t_now tm) upstreams in
      let name := default (lit "custom") (head upstreams) in
      let! res := mmap_err ResolverFailed (on_env (Resolver.resolve resolver domain qtype request)) in
      let '(bytes, min_ttl, _) := res in
      ret (bytes, min_ttl, Some name)
  | None =>
      let! pool := gets upstream_pool in
      mmap_err PoolFailed (on_env (UpstreamPool.resolve pool domain qtype request))
  end.

Definition handle_query (tm : Timing) (client_ip : str) (request : Message) (query : Query)
    : M DnsHandler HandlerError (list N) :=
  let domain := name_str (q_name query) in
  let qtype := q_type query in
  let qtype_str := rtype_debug qtype in
  let domain_normalized := trim_end_char domain dot in
  let! config := get_client_config (t_now tm) client_ip in
  let! rewritten := rewrite_stage tm client_ip config request domain qtype in
  match rewritten with
  | Some response => ret response
  | None =>
  let! h := get in
  let app_id := AppCatalog.match_domain (app_catalog h) domain_normalized in
  if is_query_blocked h config domain_normalized then
    modify (fun h => set_metrics (Metrics.inc_blocked (metrics h)) h) ;;;
    modify (log_query tm client_ip domain qtype_str "blocked" (Some (lit "filter_rule")) None None None app_id) ;;;
    lift (nxdomain request)
  else
  match Cache.get (cache h) (t_now tm) domain qtype with
  | Some cached =>
      let updated_cached := update_id cached (m_id request) in
      modify (fun h => set_metrics (Metrics.inc_cached (metrics h)) h) ;;;
      modify (log_query tm client_ip domain qtype_str "cached" None None None None app_id) ;;;
      ret updated_cached
  | None =>
      let! res := forward tm config domain qtype request in
      let '(response, min_ttl, upstream_name) := res in
      let! response_msg := lift (ok_or (from_vec response) Proto) in
      let answer_str := extract_answer response_msg in
      modify (fun h => set_cache (Cache.set_with_ttl (cache h) (t_now tm) domain qtype response min_ttl) h) ;;;
      modify (fun h => set_metrics (Metrics.inc_allowed (metrics h)) h) ;;;
      modify (log_query tm client_ip domain qtype_str "allowed" None answer_str (Some (t_upstream tm))
                upstream_name app_id) ;;;
      ret response
  end
  end.

Definition handle_internal (tm : Timing) (data : list N) (client_ip : str) : M DnsHandler HandlerError (list N) :=
  let! request := lift (ok_or (from_vec data) Proto) in
  let! h := get in
  if acl_rejects h client_ip then lift (refused request)
  else if negb (bool_decide (m_type request = MtQuery)) || negb (bool_decide (m_op request = OpQuery)) then
    lift (servfail request)
  else match m_queries request with
       | [] => lift (servfail request)
       | query :: _ => handle_query tm client_ip request query
       end.

Definition handle := handle_internal.
Definition handle_bytes := handle_internal.

(** ** Administration *)

Definition reload_acl (allowed denied : list str) (h : DnsHandler) : DnsHandler :=
  set_acl (Acl.from_cidrs allowed denied) h.
Definition cache_stats (h : DnsHandler) : N * N := (Cache.entry_count (cache h), DNS_CACHE_MAX_CAPACITY).
Definition cache_flush (h : DnsHandler) : DnsHandler := set_cache (Cache.invalidate_all (cache h)) h.
Definition invalidate_client_cache (client_ip : str) (h : DnsHandler) : DnsHandler :=
  set_client_config_cache (moka_invalidate (client_config_cache h) client_ip) h.
Definition invalidate_all_client_cache (h : DnsHandler) : DnsHandler :=
  set_client_config_cache (moka_invalidate_all (client_config_cache h)) h.

Fixpoint insert_by_name (x : Upstream) (l : list Upstream) : list Upstream :=
  match l with
  | [] => [x]
  | y :: l' => if text_lt (u_name y) (u_name x) then y :: insert_by_name x l' else x :: l
  end.
(** [SELECT * FROM dns_upstreams ORDER BY priority ASC, name ASC] *)
Definition list_upstreams (t : Db) : list Upstream :=
  sort_by_key u_priority (fold_right insert_by_name [] (dns_upstreams t)).

(** The rows and the strategy, and the pool they make. *)
Definition load_pool {S} `{HasDb S} (prefer : bool) (now : Z) : M S DbError UpstreamPool.UpstreamPool :=
  let! upstreams := fetch_all list_upstreams in
  let! strategy := fetch_optional (setting "upstream_strategy") in
  ret (UpstreamPool.new upstreams (default (lit "priority") strategy) prefer now).

Definition reload_upstreams (now : Z) : M DnsHandler HandlerError unit :=
  let! prefer := gets prefer_ipv4 in
  let! new_pool := mmap_err DbFailed (load_pool prefer now) in
  modify (set_pool new_pool).

Definition update_upstream_latency (upstream_id : str) (latency_ms : Z) (h : DnsHandler) : DnsHandler :=
  set_pool (UpstreamPool.update_latency (upstream_pool h) upstream_id latency_ms) h.

Definition health_check_upstreams (lookup_ms : N -> N) (example_com : Name)
    : M DnsHandler unit (list (str * Z * bool)) :=
  let! pool := gets upstream_pool in
  let! res := on_env (UpstreamPool.health_check_all lookup_ms example_com pool) in
  let '(results, pool') := res in
  modify (set_pool pool') ;;;
  ret results.

(** A list of networks in the settings. *)
Definition acl_setting {S} `{HasDb S} (key : str) : M S DbError (list str) :=
  let! v := fetch_optional (setting key) in
  ret (default [] (v ≫= json_strings)).

(** [DnsHandler::new]; the filter holds the connection. *)
Definition new (prefer : bool) (ttl : N) (now : Z) (f : FilterEngine.FilterEngine) (m : Metrics.DnsMetrics)
    (catalog : AppCatalog.AppCatalogCache) : result DnsHandler DbError :=
  let '(r, f') := (let! pool := load_pool prefer now in
                   let! allowed := acl_setting "acl_allowed_networks" in
                   let! denied := acl_setting "acl_denied_networks" in
                   ret (pool, Acl.from_cidrs allowed denied)) f in
  try! pool_acl := r in
  Ok {| filter := f'; upstream_pool := fst pool_acl; prefer_ipv4 := prefer; rewrite_ttl := ttl;
        acl := snd pool_acl; client_resolvers := moka_build 64 (secs 3600);
        cache := Cache.new; client_config_cache := moka_build 4096 CLIENT_CACHE_TTL;
        metrics := m; query_log_tx := [];
        query_log_entry_tx := {| QueryLogWriter.queue := []; QueryLogWriter.closed := false |};
        app_catalog := catalog; env := {| Resolver.net_calls := 0; Resolver.rng_calls := 0 |} |}.

(** ** What holds of every call *)

(** The response to a request made of what some upstream answered for the
    name and type of its question. *)
Definition upstream_reply (request : Message) (q : Query) (outcome : result (list RRecord) ResolveErrorKind) : Prop :=
  head (m_queries request) = Some q /\
  exists n addrs, outcome = lookup n addrs (name_str (q_name q)) (q_type q).

(** What the cache holds are responses of upstreams for the names and types
    they are kept under, with the lowest TTLs of their answers. *)
Definition op_ok (o : Cache.op) : Prop :=
  match o with
  | Cache.Set_ _ domain qtype data min_ttl =>
      exists request q outcome, upstream_reply request q outcome /\
        from_vec data = Some (Resolver.reply_of request outcome) /\ min_ttl = Resolver.ttl_of outcome /\
        name_str (q_name q) = domain /\ q_type q = qtype
  | Cache.Flush => True
  end.
Definition cache_ok (c : Cache.DnsCache) : Prop := exists os, c = Cache.run os /\ Forall op_ok os.
Definition handler_inv (h : DnsHandler) : Prop :=
  cache_ok (cache h) /\ UpstreamPool.nodes (upstream_pool h) <> [].

Lemma cache_ok_step c o : cache_ok c -> op_ok o -> cache_ok (Cache.apply c o).
Proof.
  intros (os & -> & Hos) Ho. exists (os ++ [o]). split.
  - unfold Cache.run. by rewrite fold_left_app.
  - apply Forall_app_2; [done|by constructor].
Qed.

Lemma reads_client_config client_ip : reads_only (resolve_client_config client_ip).
Proof.
  unfold resolve_client_config. solve_reads. destruct a as [rows|]; [|solve_reads].
  destruct (match_client client_ip rows) as [[[cid fe] ups]|]; [|solve_reads].
  unfold load_group_rules_for_client, load_group_rewrites_for_client. solve_reads.
Qed.

Lemma client_config_total client_ip h : exists c, fst (resolve_client_config client_ip h) = Ok c.
Proof.
  unfold resolve_client_config, load_group_rules_for_client, load_group_rewrites_for_client, bind, catch, ret.
  destruct (query _ h) as [[rows|] h1]; [|by eexists].
  destruct (match_client client_ip rows) as [[[cid fe] ups]|]; [|by eexists].
  destruct (fetch_all _ h1) as [r1 h2]. destruct (fetch_all _ h2) as [r2 h3]. by eexists.
Qed.

(** Looking a client up touches the number of database calls and the cache of
    the configurations only. *)
Lemma get_client_config_frame now client_ip h :
  exists c n cc, get_client_config now client_ip h =
    (Ok c, set_client_config_cache cc
       (with_db h {| tables := tables (db_of h); calls := n; faults := faults (db_of h) |})).
Proof.
  unfold get_client_config, bind, gets. destruct (moka_get _ now client_ip) as [c|].
  - exists c, (calls (db_of h)), (client_config_cache h). unfold ret. f_equal.
    destruct h as [[? ? []] ? ? ? ? ? ? ? ? ? ? ? ?]. done.
  - destruct (reads_client_config client_ip h) as [n Hn].
    destruct (client_config_total client_ip h) as [c Hc].
    destruct (resolve_client_config client_ip h) as [r h1]. simpl in Hn, Hc. subst r h1.
    by eexists c, n, _.
Qed.

Lemma client_resolver_frame now us h :
  exists rs cr, get_or_create_client_resolver now us h = (Ok rs, set_client_resolvers cr h).
Proof.
  unfold get_or_create_client_resolver, bind, gets, modify, ret.
  destruct (moka_get _ now _) as [rs|]; [|by eexists _, _]. exists rs, (client_resolvers h). by destruct h.
Qed.

Lemma forward_frame `{!RngDoc, !HickoryDoc} tm config domain qtype request h r h' :
  UpstreamPool.nodes (upstream_pool h) <> [] -> m_id request < 65536 ->
  forward tm config domain qtype request h = (r, h') ->
  (exists e cr, h' = set_env e (set_client_resolvers cr h)) /\
  match r with
  | Ok (bytes, ttl, _) => exists outcome,
      from_vec bytes = Some (Resolver.reply_of request outcome) /\ ttl = Resolver.ttl_of outcome /\
      exists n addrs, outcome = lookup n addrs domain qtype /\
        (upstream_urls config = None -> exists node, node ∈ UpstreamPool.nodes (upstream_pool h) /\
           addrs = Resolver.inner (UpstreamPool.resolver node))
  | Err _ => exists m, to_vec m = None
  end.
Proof.
  intros Hne Hid. unfold forward. destruct (upstream_urls config) as [us|].
  - destruct (client_resolver_frame (t_now tm) us h) as (rs & cr & Hrs).
    unfold bind at 1. rewrite Hrs. unfold bind, mmap_err, on_env. rewrite Resolver.resolve_run. cbn zeta.
    set (outcome := lookup _ _ _ _). destruct (to_vec _) as [bytes|] eqn:Hv; intros [= <- <-].
    + split; [by eexists _, _|]. exists outcome. split; [by apply to_from_vec|]. split; [done|]. by eexists _, _.
    + split; [by eexists _, _|]. by eexists.
  - unfold bind, gets, mmap_err, on_env.
    destruct (UpstreamPool.pool_resolve_cases (upstream_pool h) domain qtype request (env h) Hne)
      as [(before & node & after & bytes & e' & Htry & _ & Hv & Hr & _)|(Hm & e' & Hr & _)]; rewrite Hr.
    + intros [= <- <-]. split; [exists e', (client_resolvers h); by destruct h|].
      eexists. split; [by apply to_from_vec; [|exact Hv]|]. split; [done|]. eexists _, _. split; [reflexivity|].
      intros _. exists node. split; [|done].
      rewrite <- (UpstreamPool.nodes_to_try_perm (upstream_pool h) (Resolver.rng_calls (env h))), Htry.
      apply elem_of_app. right. left.
    + intros [= <- <-]. split; [exists e', (client_resolvers h); by destruct h|].
      destruct Hm as (node & Hm). by eexists.
Qed.

(** Two states that differ only in what looking up, logging and counting
    touch: the database calls, the caches of the clients, the network, the
    log and the counters. *)
Definition same_service (h h' : DnsHandler) : Prop :=
  FilterEngine.rules (filter h') = FilterEngine.rules (filter h) /\
  FilterEngine.rewrites (filter h') = FilterEngine.rewrites (filter h) /\
  tables (db_of h') = tables (db_of h) /\
  upstream_pool h' = upstream_pool h /\ acl h' = acl h /\ prefer_ipv4 h' = prefer_ipv4 h /\
  rewrite_ttl h' = rewrite_ttl h /\ app_catalog h' = app_catalog h.

#[global] Instance same_service_preorder : PreOrder same_service.
Proof.
  split; [intros h; by repeat split|].
  intros h1 h2 h3 (? & ? & ? & ? & ? & ? & ? & ?) (? & ? & ? & ? & ? & ? & ? & ?).
  repeat split; etrans; eassumption.
Qed.

(** The reply to a rewritten query. *)
Definition rewrite_message (h : DnsHandler) (request : Message) (q : Query) (ip : IpAddr) : Message :=
  {| m_id := m_id request; m_type := MtResponse; m_op := OpQuery; m_rd := m_rd request; m_ra := true;
     m_code := NoError; m_queries := [q];
     m_answers := [{| r_name := q_name q; r_type := q_type q; r_class := class_IN; r_ttl := rewrite_ttl h;
                      r_data := Some (rdata_ip ip) |}] |}.
(** The address a rewrite gives a query of the type, if it is one. *)
Definition rewrite_ip (answer : str) (qtype : RecordType) : option IpAddr :=
  match parse_ip answer with
  | Some ip =>
      if (is_ipv4 ip && bool_decide (qtype = rtype_A)) || (is_ipv6 ip && bool_decide (qtype = rtype_AAAA))
      then Some ip else None
  | None => None
  end.

Lemma rewrite_response_alt h request q qs answer :
  m_queries request = q :: qs ->
  rewrite_response h request answer (q_type q) =
    match rewrite_ip answer (q_type q) with
    | Some ip => encode (rewrite_message h request q ip)
    | None => Err BadAnswer
    end.
Proof.
  intros Hq. unfold rewrite_response, rewrite_ip. rewrite Hq. cbn [head].
  destruct (parse_ip answer) as [ip|]; [|done]. cbn [ok_or].
  destruct (is_ipv4 ip && _); [done|]. by destruct (is_ipv6 ip && _).
Qed.

Lemma log_query_frame tm client_ip domain qt st reason answer un uname app h :
  let h' := log_query tm client_ip domain qt st reason answer un uname app h in
  same_service h h' /\ cache h' = cache h /\ env h' = env h /\ metrics h' = metrics h /\
  client_config_cache h' = client_config_cache h.
Proof. by repeat split. Qed.

Lemma rewrite_stage_frame tm client_ip config request q qs h :
  m_queries request = q :: qs ->
  exists h', (same_service h h' /\ cache h' = cache h /\ env h' = env h) /\
  match option_bind _ _ (fun a => rewrite_ip a (q_type q))
          (rewrite_answer h config (trim_end_char (name_str (q_name q)) dot)) with
  | Some ip =>
      match to_vec (rewrite_message h request q ip) with
      | Some bytes =>
          rewrite_stage tm client_ip config request (name_str (q_name q)) (q_type q) h = (Ok (Some bytes), h') /\
          metrics h' = Metrics.inc_allowed (metrics h)
      | None => rewrite_stage tm client_ip config request (name_str (q_name q)) (q_type q) h = (Ok None, h)
      end
  | None => rewrite_stage tm client_ip config request (name_str (q_name q)) (q_type q) h = (Ok None, h)
  end.
Proof.
  intros Hq. unfold rewrite_stage. destruct (rewrite_answer _ _ _) as [answer|] eqn:Ha; cbn [option_bind].
  2: { exists h. by repeat split. }
  rewrite (rewrite_response_alt h request q qs answer Hq). unfold encode.
  destruct (rewrite_ip answer (q_type q)) as [ip|] eqn:Hip.
  - assert (bool_decide (q_type q = rtype_A) || bool_decide (q_type q = rtype_AAAA) = true) as ->.
    { unfold rewrite_ip in Hip. destruct (parse_ip answer); [|done].
      destruct (bool_decide (q_type q = rtype_A)), (bool_decide (q_type q = rtype_AAAA)); try done.
      by rewrite !andb_false_r in Hip. }
    destruct (to_vec _) as [bytes|]; cbn [ok_or]; [|exists h; by repeat split].
    eexists. split; [|split; [reflexivity|done]]. by repeat split.
  - exists h. split; [by repeat split|]. by destruct (_ || _).
Qed.

(** The reply to a blocked query. *)
Definition nxdomain_message (request : Message) : Message :=
  {| m_id := m_id request; m_type := MtResponse; m_op := OpQuery; m_rd := m_rd request; m_ra := true;
     m_code := NXDomain; m_queries := m_queries request; m_answers := [] |}.
Lemma nxdomain_alt request : nxdomain request = encode (nxdomain_message request).
Proof. unfold nxdomain. by rewrite fold_add_query. Qed.

Lemma update_id_ok `{!HickoryDoc} data m i :
  from_vec data = Some m -> i < 65536 -> from_vec (update_id data i) = Some (set_id m i).
Proof.
  intros Hm Hi. destruct (wire_id _ _ Hm) as (_ & Hlen & Hp). unfold update_id.
  assert ((2 <=? length data)%nat = true) as -> by (apply Nat.leb_le; lia). by apply Hp.
Qed.

(** The reply answers the request: its identifier, a response, and the
    question up to the case of the name, which only a refusal or a server
    failure leaves out. *)
Definition answers (request m : Message) : Prop :=
  m_id m = m_id request /\ m_type m = MtResponse /\
  ((m_queries m = [] /\ (m_code m = Refused \/ m_code m = ServFail)) \/
   exists q q' qs qs', m_queries request = q :: qs /\ m_queries m = q' :: qs' /\
     to_lowercase (name_str (q_name q')) = to_lowercase (name_str (q_name q)) /\ q_type q' = q_type q).

Lemma answers_same request m :
  m_id m = m_id request -> m_type m = MtResponse -> m_queries m = m_queries request ->
  m_queries request <> [] -> answers request m.
Proof.
  intros Hi Ht Hq Hne. split; [done|]. split; [done|]. right.
  destruct (m_queries request) as [|q qs] eqn:Hr; [done|]. exists q, q, qs, qs. by rewrite Hq.
Qed.

(** The normalised name of the question. *)
Definition question_name (q : Query) : str := trim_end_char (name_str (q_name q)) dot.

Definition rewrite_target (h : DnsHandler) (config : ClientConfig) (q : Query) : option IpAddr :=
  match rewrite_answer h config (question_name q) with
  | Some a => rewrite_ip a (q_type q)
  | None => None
  end.

(** ** What a request is answered with *)

Definition code_message (request : Message) (c : ResponseCode) : Message :=
  {| m_id := m_id request; m_type := MtResponse; m_op := OpQuery; m_rd := false; m_ra := false;
     m_code := c; m_queries := []; m_answers := [] |}.

(** The replies to a query of a client with a configuration, by stage; each
    stage has passed the query on to the next. *)
Definition not_rewritten (h : DnsHandler) (request : Message) (q : Query) (config : ClientConfig) : Prop :=
  forall ip, rewrite_target h config q = Some ip -> to_vec (rewrite_message h request q ip) = None.
Inductive stage_reply (now : N) (h : DnsHandler) (request : Message) (q : Query) (config : ClientConfig) : Message -> Prop :=
| ReplyRewrite ip :
    rewrite_target h config q = Some ip ->
    stage_reply now h request q config (rewrite_message h request q ip)
| ReplyBlocked :
    not_rewritten h request q config ->
    is_query_blocked h config (question_name q) = true ->
    stage_reply now h request q config (nxdomain_message request)
| ReplyCached bytes request0 q0 outcome :
    not_rewritten h request q config ->
    is_query_blocked h config (question_name q) = false ->
    Cache.get (cache h) now (name_str (q_name q)) (q_type q) = Some bytes ->
    from_vec bytes = Some (Resolver.reply_of request0 outcome) ->
    upstream_reply request0 q0 outcome ->
    to_lowercase (name_str (q_name q0)) = to_lowercase (name_str (q_name q)) -> q_type q0 = q_type q ->
    stage_reply now h request q config (set_id (Resolver.reply_of request0 outcome) (m_id request))
| ReplyForwarded outcome n addrs :
    not_rewritten h request q config ->
    is_query_blocked h config (question_name q) = false ->
    Cache.get (cache h) now (name_str (q_name q)) (q_type q) = None ->
    outcome = lookup n addrs (name_str (q_name q)) (q_type q) ->
    (upstream_urls config = None -> exists node, node ∈ UpstreamPool.nodes (upstream_pool h) /\
       addrs = Resolver.inner (UpstreamPool.resolver node)) ->
    stage_reply now h request q config (Resolver.reply_of request outcome).

(** The replies to a request. *)
Inductive reply (now : N) (client_ip : str) (h : DnsHandler) (request : Message) : Message -> Prop :=
| ReplyRefused :
    acl_rejects h client_ip = true ->
    reply now client_ip h request (code_message request Refused)
| ReplyServFail :
    acl_rejects h client_ip = false ->
    m_type request <> MtQuery \/ m_op request <> OpQuery \/ m_queries request = [] ->
    reply now client_ip h request (code_message request ServFail)
| ReplyQuery q config m :
    acl_rejects h client_ip = false -> m_type request = MtQuery -> m_op request = OpQuery ->
    head (m_queries request) = Some q ->
    fst (get_client_config now client_ip h) = Ok config ->
    stage_reply now h request q config m ->
    reply now client_ip h request m.

Lemma hit_ok `{!HickoryDoc, !MokaDoc} c now domain qtype d :
  cache_ok c -> Cache.get c now domain qtype = Some d ->
  exists request q outcome, upstream_reply request q outcome /\
    from_vec d = Some (Resolver.reply_of request outcome) /\
    to_lowercase (name_str (q_name q)) = to_lowercase domain /\ q_type q = qtype.
Proof.
  intros (os & -> & Hos) Hget.
  destruct (Cache.get_run _ _ _ _ _ Hget) as [(before & t & dom' & m & after & -> & Hd & _) _].
  apply Forall_app in Hos as [_ Hos].
  apply Forall_cons in Hos as [(request & q & outcome & Hup & Hv & _ & Hn & Ht) _].
  exists request, q, outcome. by rewrite Hn.
Qed.

(** A query gets the reply of a stage, or a message cannot be encoded. *)
Lemma handle_query_ok `{!HickoryDoc, !MokaDoc, !RngDoc} tm client_ip request q qs h r h' :
  handler_inv h -> m_id request < 65536 -> m_queries request = q :: qs ->
  handle_query tm client_ip request q h = (r, h') ->
  handler_inv h' /\
  match r with
  | Ok bytes => exists config m, fst (get_client_config (t_now tm) client_ip h) = Ok config /\
      from_vec bytes = Some m /\ stage_reply (t_now tm) h request q config m
  | Err _ => exists m, to_vec m = None
  end.
Proof.
  intros [Hc Hp] Hid Hq. unfold handle_query, bind, gets, get, modify, lift, ret.
  destruct (get_client_config_frame (t_now tm) client_ip h) as (config & n & cc & ->).
  set (h1 := set_client_config_cache cc _).
  assert (Hinv1 : handler_inv h1) by done.
  destruct (rewrite_stage_frame tm client_ip config request q qs h1 Hq) as (h2 & (Hs2 & Hc2 & _) & Hrw).
  assert (Htarget : option_bind _ _ (fun a => rewrite_ip a (q_type q))
    (rewrite_answer h1 config (trim_end_char (name_str (q_name q)) dot)) = rewrite_target h config q) by done.
  assert (Hcases : (exists bytes ip, rewrite_target h config q = Some ip /\
      to_vec (rewrite_message h request q ip) = Some bytes /\
      rewrite_stage tm client_ip config request (name_str (q_name q)) (q_type q) h1 = (Ok (Some bytes), h2)) \/
    (not_rewritten h request q config /\
     rewrite_stage tm client_ip config request (name_str (q_name q)) (q_type q) h1 = (Ok None, h1))).
  { rewrite Htarget in Hrw. unfold not_rewritten. destruct (rewrite_target h config q) as [ip|]; [|by right].
    change (rewrite_message h1) with (rewrite_message h) in Hrw.
    destruct (to_vec _) as [bytes|] eqn:Hv; [left; exists bytes, ip; by destruct Hrw|right].
    split; [|exact Hrw]. by intros ip' [= <-]. }
  destruct Hcases as [(bytes & ip & Hip & Hv & Hst)|[Hno Hst]]; rewrite Hst; clear Hst Hrw.
  { intros [= <- <-]. split.
    - destruct Hs2 as (_ & _ & _ & Hpool & _). split; [by rewrite Hc2|by rewrite Hpool].
    - eexists config, _. split; [done|]. split; [by apply to_from_vec; [|exact Hv]|]. by apply ReplyRewrite. }
  change (is_query_blocked h1 config (trim_end_char (name_str (q_name q)) dot))
    with (is_query_blocked h config (question_name q)).
  destruct (is_query_blocked h config _) eqn:Hb.
  { intros [= <- <-]. split; [done|]. rewrite nxdomain_alt. unfold encode.
    destruct (to_vec (nxdomain_message request)) as [bytes|] eqn:Hv; [|by eexists].
    eexists config, _. split; [done|]. split; [by apply to_from_vec; [|exact Hv]|]. by apply ReplyBlocked. }
  change (cache h1) with (cache h).
  destruct (Cache.get (cache h) _ _ _) as [cached|] eqn:Hhit.
  { intros [= <- <-]. split; [done|].
    destruct (hit_ok _ _ _ _ _ Hc Hhit) as (request0 & q0 & outcome & Hup & Hm & Hn & Hty).
    eexists config, _. split; [done|]. split; [by apply update_id_ok|]. by eapply ReplyCached. }
  destruct (forward tm config _ _ request h1) as [[[[bytes ttl] name]|e] h3] eqn:Hf;
    destruct (forward_frame _ _ _ _ _ _ _ _ (proj2 Hinv1) Hid Hf) as [(en & cr & ->) Hr].
  2: { by intros [= <- <-]. }
  destruct Hr as (outcome & Hbytes & Httl & k & addrs & Hout & Hnode). rewrite Hbytes. cbn [ok_or]. intros [= <- <-]. split.
  - split; [|done]. apply (cache_ok_step _ (Cache.Set_ (t_now tm) (name_str (q_name q)) (q_type q) bytes ttl));
      [done|]. exists request, q, outcome. split; [|done]. split; [by rewrite Hq|by exists k, addrs].
  - exists config, (Resolver.reply_of request outcome). split; [done|]. split; [done|]. by eapply ReplyForwarded.
Qed.

Lemma stage_reply_answers now h request q config m :
  head (m_queries request) = Some q -> stage_reply now h request q config m -> answers request m.
Proof.
  intros Hq [ip ?|? ?|bytes request0 q0 outcome ? ? ? ? [Hq0 _] Hn Ht|outcome n addrs ? ? ? ? ?];
    destruct (m_queries request) as [|q' qs] eqn:Hqs; try done; injection Hq as ->;
    try (by apply answers_same; rewrite ?Hqs).
  - split; [done|]. split; [done|]. right. exists q, q, qs, []. by rewrite Hqs.
  - destruct (m_queries request0) as [|q0' qs0] eqn:Hqs0; [done|]. injection Hq0 as ->.
    split; [done|]. split; [done|]. right. exists q, q0, qs, qs0. by rewrite Hqs.
Qed.
Lemma reply_answers now client_ip h request m : reply now client_ip h request m -> answers request m.
Proof.
  intros [?|? ?|q config m' ? ? ? Hq ? Hm]; [..|by eapply stage_reply_answers];
    (split; [done|]; split; [done|]; left); auto.
Qed.

(** ** The life of a handler *)

Lemma handle_internal_ok `{!HickoryDoc, !MokaDoc, !RngDoc} tm data client_ip h r h' :
  handler_inv h ->
  handle_internal tm data client_ip h = (r, h') ->
  handler_inv h' /\
  match r with
  | Ok bytes => exists request m, from_vec data = Some request /\ from_vec bytes = Some m /\
      reply (t_now tm) client_ip h request m
  | Err _ => from_vec data = None \/ exists m, to_vec m = None
  end.
Proof.
  intros Hinv. unfold handle_internal, bind, lift, get.
  destruct (from_vec data) as [request|] eqn:Hreq; cbn [ok_or]; [|intros [= <- <-]; auto].
  destruct (wire_id _ _ Hreq) as (Hid & _ & _).
  assert (Hcode : forall c, reply (t_now tm) client_ip h request (code_message request c) ->
    match encode (set_code (set_type (set_id Message_new (m_id request)) MtResponse) c) with
    | Ok bytes => exists request' m, Some request = Some request' /\ from_vec bytes = Some m /\
        reply (t_now tm) client_ip h request' m
    | Err _ => Some request = None \/ exists m, to_vec m = None
    end).
  { intros c Hc. unfold encode. change (set_code _ c) with (code_message request c).
    destruct (to_vec _) as [bytes|] eqn:Hv; cbn [ok_or]; [|right; by eexists].
    eexists request, _. split; [done|]. split; [by apply to_from_vec; [|exact Hv]|exact Hc]. }
  destruct (acl_rejects h client_ip) eqn:Hacl.
  { intros [= <- <-]. split; [done|]. by apply (Hcode Refused), ReplyRefused. }
  destruct (_ || _) eqn:Hkind.
  { intros [= <- <-]. split; [done|]. apply (Hcode ServFail), ReplyServFail; [done|].
    apply orb_true_iff in Hkind as [Hk|Hk]; apply negb_true_iff, bool_decide_eq_false in Hk; auto. }
  apply orb_false_iff in Hkind as [Hk1%negb_false_iff%bool_decide_eq_true Hk2%negb_false_iff%bool_decide_eq_true].
  destruct (m_queries request) as [|q qs] eqn:Hq.
  { intros [= <- <-]. split; [done|]. apply (Hcode ServFail), ReplyServFail; auto. }
  intros Hh. destruct (handle_query_ok _ _ _ _ _ _ _ _ Hinv Hid Hq Hh) as [Hinv' Hr]. split; [done|].
  destruct r as [bytes|e]; [|by right]. destruct Hr as (config & m & Hcfg & Hm & Ha). exists request, m.
  split; [done|]. split; [done|]. by eapply ReplyQuery; rewrite ?Hq.
Qed.

(** What happens to a handler: queries, the calls of the API and of the
    background tasks, changes of the filter and the database, and the writer
    taking entries out of the channel. *)
Inductive hstep : DnsHandler -> DnsHandler -> Prop :=
| HHandle tm data client_ip h r h' : handle_internal tm data client_ip h = (r, h') -> hstep h h'
| HReloadAcl al de h : hstep h (reload_acl al de h)
| HFlush h : hstep h (cache_flush h)
| HInvalidate ip h : hstep h (invalidate_client_cache ip h)
| HInvalidateAll h : hstep h (invalidate_all_client_cache h)
| HReloadUpstreams now h r h' : reload_upstreams now h = (r, h') -> hstep h h'
| HLatency id ms h : hstep h (update_upstream_latency id ms h)
| HHealth ms name h r h' : health_check_upstreams ms name h = (r, h') -> hstep h h'
| HFilter f h : hstep h (set_filter f h)
| HLog evs c h : hstep h (set_log evs c h).

(** A handler some time after its start. *)
Definition serving (h : DnsHandler) : Prop :=
  exists prefer ttl now f m catalog h0, new prefer ttl now f m catalog = Ok h0 /\ rtc hstep h0 h.

Lemma reads_load_pool {S} `{HasDbLaws S} prefer now : reads_only (load_pool (S := S) prefer now).
Proof. unfold load_pool. solve_reads. Qed.

Lemma load_pool_nonempty {S} `{HasDb S} prefer now (s s' : S) p :
  load_pool prefer now s = (Ok p, s') -> UpstreamPool.nodes p <> [].
Proof.
  unfold load_pool, bind, ret. destruct (fetch_all _ s) as [[us|] s1]; [|done].
  destruct (fetch_optional _ s1) as [[st|] s2]; [|done]. intros [= <- _]. apply UpstreamPool.new_nonempty.
Qed.

Lemma new_inv prefer ttl now f m catalog h : new prefer ttl now f m catalog = Ok h -> handler_inv h.
Proof.
  unfold new, load_pool. unfold bind at 1.
  destruct (bind _ _ f) as [[pool|e] f1] eqn:Hp; [|done].
  destruct (bind _ _ f1) as [[[pool' a]|e] f2] eqn:Ha; [|done]. intros [= <-]. simpl. split.
  - exists []. by split.
  - assert (pool' = pool) as ->.
    { revert Ha. unfold acl_setting, bind, ret. destruct (fetch_optional _ f1) as [[v|] g1]; [|done].
      destruct (fetch_optional _ g1) as [[v'|] g2]; [|done]. congruence. }
    revert Hp. unfold bind, ret. destruct (fetch_all _ f) as [[us|] g1]; [|done].
    destruct (fetch_optional _ g1) as [[st|] g2]; [|done]. intros [= <- _]. apply UpstreamPool.new_nonempty.
Qed.

Lemma hstep_inv `{!HickoryDoc, !MokaDoc, !RngDoc} h h' : handler_inv h -> hstep h h' -> handler_inv h'.
Proof.
  intros [Hc Hp] Hs. destruct Hs as [tm data ip h r h' Hr|al de h|h|ip h|h|now h r h' Hr|id ms h|ms name h r h' Hr|f h|evs c h];
    try done.
  - by eapply handle_internal_ok.
  - split; [|done]. by apply (cache_ok_step _ Cache.Flush).
  - revert Hr. unfold reload_upstreams, bind, gets, mmap_err, modify.
    destruct (reads_load_pool (S := DnsHandler) (prefer_ipv4 h) now h) as [n Hn].
    destruct (load_pool (prefer_ipv4 h) now h) as [[p|e] h1] eqn:Hlp; simpl in Hn; subst h1; cbn [map_err].
    + intros [= _ <-]. split; [done|]. by eapply load_pool_nonempty.
    + by intros [= _ <-].
  - split; [done|]. unfold update_upstream_latency, UpstreamPool.update_latency. simpl.
    by destruct (UpstreamPool.nodes (upstream_pool h)).
  - revert Hr. unfold health_check_upstreams, bind, gets, on_env, modify, ret.
    destruct (UpstreamPool.health_check_all ms name (upstream_pool h) (env h)) as [[[rs p]|] e] eqn:Hh;
      [|by intros [= _ <-]].
    intros [= _ <-]. split; [done|]. simpl. unfold UpstreamPool.health_check_all in Hh.
    apply UpstreamPool.join_all_length in Hh. by destruct (UpstreamPool.nodes p), (UpstreamPool.nodes (upstream_pool h)).
Qed.

Lemma serving_inv `{!HickoryDoc, !MokaDoc, !RngDoc} h : serving h -> handler_inv h.
Proof.
  intros (prefer & ttl & now & f & m & catalog & h0 & Hn & Hr). apply new_inv in Hn.
  induction Hr as [h|h h1 h2 Hs _ IH]; [done|]. apply IH. by eapply hstep_inv.
Qed.


(** ** The stages one by one *)

(** C3: A query of a client the access list refuses gets the code REFUSED and
    nothing else happens: no lookup, no log entry, no count, no cache access;
    the state is the same. *)
Theorem acl_refusal `{!HickoryDoc} tm data client_ip a h request bytes :
  from_vec data = Some request ->
  parse_ip client_ip = Some a -> Acl.is_allowed (acl h) a = false ->
  to_vec {| m_id := m_id request; m_type := MtResponse; m_op := OpQuery; m_rd := false; m_ra := false;
            m_code := Refused; m_queries := []; m_answers := [] |} = Some bytes ->
  handle_internal tm data client_ip h = (Ok bytes, h) /\
  exists m, from_vec bytes = Some m /\ m_id m = m_id request /\ m_code m = Refused /\ m_answers m = [].
Proof.
  intros Hreq Ha Hacl Hv. destruct (wire_id _ _ Hreq) as (Hid & _ & _). split.
  - unfold handle_internal, bind, lift, get. rewrite Hreq. cbn [ok_or].
    unfold acl_rejects. rewrite Ha, Hacl. cbn [negb]. unfold refused, encode. f_equal.
    change (set_code _ _) with {| m_id := m_id request; m_type := MtResponse; m_op := OpQuery; m_rd := false;
      m_ra := false; m_code := Refused; m_queries := []; m_answers := [] |}. by rewrite Hv.
  - eexists. split; [apply to_from_vec; [|exact Hv]; exact Hid|done].
Qed.

(** A query the handler looks at. *)
Definition admitted (h : DnsHandler) (client_ip : str) (data : list N) (request : Message) (q : Query) : Prop :=
  from_vec data = Some request /\ acl_rejects h client_ip = false /\
  m_type request = MtQuery /\ m_op request = OpQuery /\ head (m_queries request) = Some q.

Lemma handle_admitted tm data client_ip h request q :
  admitted h client_ip data request q ->
  handle_internal tm data client_ip h = handle_query tm client_ip request q h.
Proof.
  intros (Hreq & Hacl & Ht & Ho & Hq). unfold handle_internal, bind, lift, get. rewrite Hreq. cbn [ok_or].
  rewrite Hacl, Ht, Ho, !bool_decide_eq_true_2 by done. cbn [negb orb].
  destruct (m_queries request) as [|q' qs]; [done|]. by injection Hq as ->.
Qed.

Lemma rewrite_run `{!HickoryDoc} tm data client_ip h request q config h1 ip bytes :
  admitted h client_ip data request q ->
  get_client_config (t_now tm) client_ip h = (Ok config, h1) ->
  rewrite_target h1 config q = Some ip ->
  to_vec (rewrite_message h1 request q ip) = Some bytes ->
  exists h', handle_internal tm data client_ip h = (Ok bytes, h') /\
    same_service h h' /\ cache h' = cache h /\ env h' = env h /\
    metrics h' = Metrics.inc_allowed (metrics h).
Proof.
  intros Hadm Hcfg Hip Hv. rewrite (handle_admitted _ _ _ _ _ _ Hadm).
  destruct Hadm as (Hreq & _ & _ & _ & Hq). destruct (wire_id _ _ Hreq) as (Hid & _ & _).
  assert (Hqs : exists qs, m_queries request = q :: qs).
  { destruct (m_queries request) as [|q' qs]; [done|]. injection Hq as ->. by exists qs. }
  destruct Hqs as [qs Hqs].
  unfold handle_query, bind. rewrite Hcfg.
  destruct (get_client_config_frame (t_now tm) client_ip h) as (c & n & cc & Hf).
  rewrite Hf in Hcfg. injection Hcfg as -> <-.
  set (h1 := set_client_config_cache cc _) in *.
  destruct (rewrite_stage_frame tm client_ip config request q qs h1 Hqs) as (h2 & (Hs & Hc & He) & Hrw).
  unfold rewrite_target, question_name in Hip. destruct (rewrite_answer h1 config _) as [a|]; [|done].
  cbn [option_bind] in Hrw. rewrite Hip, Hv in Hrw. destruct Hrw as [Hrw Hm]. rewrite Hrw. cbn [ret].
  exists h2. split; [done|]. split; [|split; [by rewrite Hc|split; [by rewrite He|by rewrite Hm]]].
  transitivity h1; [by repeat split|done].
Qed.

(** C8: A rewrite to an address of the type asked for is answered at once: one
    record with that address and the configured TTL under the name of the
    question, whether or not the name is blocked, without cache or network,
    and counted as allowed. *)
Theorem rewrite_query `{!HickoryDoc} tm data client_ip h request q config h1 ip bytes :
  admitted h client_ip data request q ->
  get_client_config (t_now tm) client_ip h = (Ok config, h1) ->
  rewrite_target h1 config q = Some ip ->
  to_vec (rewrite_message h1 request q ip) = Some bytes ->
  exists h', handle_internal tm data client_ip h = (Ok bytes, h') /\
    from_vec bytes = Some (rewrite_message h1 request q ip) /\
    same_service h h' /\ cache h' = cache h /\ env h' = env h /\
    metrics h' = Metrics.inc_allowed (metrics h).
Proof.
  intros Hadm Hcfg Hip Hv. destruct (rewrite_run _ _ _ _ _ _ _ _ _ _ Hadm Hcfg Hip Hv) as (h' & Hrun & Hrest).
  exists h'. split; [exact Hrun|]. split; [|exact Hrest]. destruct Hadm as (Hreq & _).
  apply to_from_vec; [|exact Hv]. by destruct (wire_id _ _ Hreq).
Qed.

Lemma blocked_run `{!HickoryDoc} tm data client_ip h request q config h1 bytes :
  admitted h client_ip data request q ->
  get_client_config (t_now tm) client_ip h = (Ok config, h1) ->
  rewrite_target h1 config q = None ->
  is_query_blocked h1 config (question_name q) = true ->
  to_vec (nxdomain_message request) = Some bytes ->
  exists h' ev, handle_internal tm data client_ip h = (Ok bytes, h') /\
    same_service h h' /\ cache h' = cache h /\ env h' = env h /\
    metrics h' = Metrics.inc_blocked (metrics h) /\
    query_log_tx h' = query_log_tx h ++ [ev] /\ ev_status ev = lit "blocked" /\
    ev_question ev = name_str (q_name q) /\ ev_client_ip ev = client_ip.
Proof.
  intros Hadm Hcfg Hip Hb Hv. rewrite (handle_admitted _ _ _ _ _ _ Hadm).
  destruct Hadm as (Hreq & _ & _ & _ & Hq). destruct (wire_id _ _ Hreq) as (Hid & _ & _).
  assert (Hqs : exists qs, m_queries request = q :: qs).
  { destruct (m_queries request) as [|q' qs]; [done|]. injection Hq as ->. by exists qs. }
  destruct Hqs as [qs Hqs].
  unfold handle_query, bind. rewrite Hcfg.
  destruct (get_client_config_frame (t_now tm) client_ip h) as (c & n & cc & Hf).
  rewrite Hf in Hcfg. injection Hcfg as -> <-.
  set (h1 := set_client_config_cache cc _) in *.
  destruct (rewrite_stage_frame tm client_ip config request q qs h1 Hqs) as (h2 & _ & Hrw).
  unfold rewrite_target, question_name in Hip, Hb.
  assert (Hnone : option_bind _ _ (fun a => rewrite_ip a (q_type q))
    (rewrite_answer h1 config (trim_end_char (name_str (q_name q)) dot)) = None).
  { destruct (rewrite_answer h1 config _); [exact Hip|done]. }
  rewrite Hnone in Hrw. rewrite Hrw. unfold get, modify, lift. rewrite Hb, nxdomain_alt. unfold encode. rewrite Hv.
  eexists _, _. split; [reflexivity|]. split; [by repeat split|]. repeat split.
Qed.

(** C7: A blocked name gets NXDOMAIN with its question, and no upstream is asked
    and nothing is put in the cache; it is counted and logged as blocked. *)
Theorem blocked_query `{!HickoryDoc} tm data client_ip h request q config h1 bytes :
  admitted h client_ip data request q ->
  get_client_config (t_now tm) client_ip h = (Ok config, h1) ->
  rewrite_target h1 config q = None ->
  is_query_blocked h1 config (question_name q) = true ->
  to_vec (nxdomain_message request) = Some bytes ->
  exists h' ev, handle_internal tm data client_ip h = (Ok bytes, h') /\
    from_vec bytes = Some (nxdomain_message request) /\
    same_service h h' /\ cache h' = cache h /\ env h' = env h /\
    metrics h' = Metrics.inc_blocked (metrics h) /\
    query_log_tx h' = query_log_tx h ++ [ev] /\ ev_status ev = lit "blocked" /\
    ev_question ev = name_str (q_name q) /\ ev_client_ip ev = client_ip.
Proof.
  intros Hadm Hcfg Hip Hb Hv. destruct (blocked_run _ _ _ _ _ _ _ _ _ Hadm Hcfg Hip Hb Hv) as (h' & ev & Hrun & Hrest).
  exists h', ev. split; [exact Hrun|]. split; [|exact Hrest]. destruct Hadm as (Hreq & _).
  apply to_from_vec; [|exact Hv]. by destruct (wire_id _ _ Hreq).
Qed.

(** The targets of safe search are host names, and a rewrite is answered only
    when its text is an address: with safe search on, the engine finds the
    rewrites of the search engines' names, but the handler answers none of
    them, and the query goes on as if there were none. *)
Theorem safe_search_inoperative tm client_ip config request h d target domain qtype :
  (d, target) ∈ FilterEngine.safe_search_rules ->
  group_rewrites config = None ->
  FilterEngine.check_rewrite (filter h) (trim_end_char domain dot) = Some target ->
  rewrite_stage tm client_ip config request domain qtype h = (Ok None, h).
Proof.
  intros Hin Hg Hr. unfold rewrite_stage, rewrite_answer. rewrite Hg, Hr.
  assert (Hp : parse_ip target = None).
  { clear -Hin. unfold FilterEngine.safe_search_rules in Hin.
    repeat (apply elem_of_cons in Hin as [Hin|Hin]; [injection Hin as _ ->; vm_compute; reflexivity|]).
    by apply not_elem_of_nil in Hin. }
  assert (rewrite_response h request target qtype = Err BadAnswer) as ->.
  { unfold rewrite_response. by rewrite Hp. }
  by destruct (_ || _).
Qed.

(** ** The configuration of a client *)

(** The columns the query for the configurations decodes. *)
Definition int_column (t : Db) : bool :=
  forallb (fun c => match c_filter_enabled c with SqlInt _ => true | SqlBool _ => false end) (clients t).
(** The client an address belongs to: the first one with a matching
    identifier. *)
Definition client_of (client_ip : str) (t : Db) : option Client :=
  find (fun c => match json_values (c_identifiers c) with
                 | Some ids => existsb (identifier_matches client_ip) ids
                 | None => false
                 end) (clients t).
Definition config_of (client_ip : str) (t : Db) : ClientConfig :=
  match client_of client_ip t with
  | Some c =>
      {| filter_enabled := match c_filter_enabled c with SqlInt z => (z =? 1)%Z | SqlBool b => b end;
         upstream_urls := match c_upstreams c ≫= json_strings with Some ((_ :: _) as v) => Some v | _ => None end;
         group_ruleset := match group_rule_rows (c_id c) t with
                          | [] => None | rows => Some (fst (Rules.add_rules Rules.new rows)) end;
         group_rewrites := match group_rewrite_rows (c_id c) t with
                           | [] => None | rows => Some (fold_left FilterEngine.insert_rewrite rows ∅) end |}
  | None => default_config
  end.

Lemma decode_clients_alt cs :
  decode_clients cs =
    if forallb (fun c => match c_filter_enabled c with SqlInt _ => true | SqlBool _ => false end) cs
    then Ok (map (fun c => (c_id c, c_identifiers c,
               match c_filter_enabled c with SqlInt z => z | SqlBool _ => 0%Z end, c_upstreams c)) cs)
    else Err ColumnDecode.
Proof.
  induction cs as [|c cs IH]; [done|]. simpl. destruct (c_filter_enabled c); [|done]. simpl. rewrite IH.
  by destruct (forallb _ cs).
Qed.

Lemma match_client_alt client_ip cs :
  match_client client_ip (map (fun c => (c_id c, c_identifiers c,
    match c_filter_enabled c with SqlInt z => z | SqlBool _ => 0%Z end, c_upstreams c)) cs) =
  match find (fun c => match json_values (c_identifiers c) with
                       | Some ids => existsb (identifier_matches client_ip) ids | None => false end) cs with
  | Some c => Some (c_id c, (match c_filter_enabled c with SqlInt z => z | SqlBool _ => 0%Z end =? 1)%Z,
      match c_upstreams c ≫= json_strings with Some ((_ :: _) as v) => Some v | _ => None end)
  | None => None
  end.
Proof.
  induction cs as [|c cs IH]; [done|]. simpl. destruct (json_values (c_identifiers c)) as [ids|]; [|done].
  destruct (existsb _ ids); [|done]. by destruct (c_upstreams c).
Qed.

(** What the tables say of a client's configuration. *)
Definition config_now (client_ip : str) (t : Db) : ClientConfig :=
  if int_column t then config_of client_ip t else default_config.
Lemma client_config_resolves client_ip h :
  db_works h ->
  fst (resolve_client_config client_ip h) = Ok (config_now client_ip (tables (db_of h))).
Proof.
  intros Hh. assert (Hc : computes (resolve_client_config client_ip)
    (fun t => Ok (if int_column t then config_of client_ip t else default_config))).
  { unfold resolve_client_config. eapply computes_ext.
    2: { eapply computes_bind; [solve_computes|]. intros a.
         instantiate (1 := fun a t => match a with
           | Ok rows => match match_client client_ip rows with
             | Some (cid, fe, ups) => Ok {| filter_enabled := fe; upstream_urls := ups;
                 group_ruleset := match group_rule_rows cid t with
                          | [] => None | rows => Some (fst (Rules.add_rules Rules.new rows)) end;
                 group_rewrites := match group_rewrite_rows cid t with
                           | [] => None | rows => Some (fold_left FilterEngine.insert_rewrite rows ∅) end |}
             | None => Ok default_config end
           | Err _ => Ok default_config end). cbn beta.
         destruct a as [rows|]; [|apply computes_ret].
         destruct (match_client client_ip rows) as [[[cid fe] ups]|]; [|apply computes_ret].
         unfold load_group_rules_for_client, load_group_rewrites_for_client.
         eapply computes_ext; [|solve_computes]. intros t. cbn beta iota.
         by destruct (group_rule_rows cid t), (group_rewrite_rows cid t). }
    intros t. cbn beta iota. rewrite decode_clients_alt. unfold int_column, config_of, client_of.
    destruct (forallb _ (clients t)) eqn:Hall; [|done]. rewrite match_client_alt.
    destruct (find _ (clients t)) as [c|] eqn:Hf; [|done].
    apply find_some in Hf as [Hin _]. rewrite forallb_forall in Hall. specialize (Hall c Hin).
    by destruct (c_filter_enabled c). }
  destruct (Hc h Hh) as [n ->]. done.
Qed.

(** The settings of the first client with a matching identifier apply, with
    the rules and rewrites of its groups, provided the column filter_enabled
    is an integer column.  Migration 028 makes it a boolean one: then no
    row decodes and every client gets the default configuration, whatever
    its settings and groups. *)
Theorem client_config_correct client_ip h :
  db_works h ->
  fst (resolve_client_config client_ip h) =
    Ok (if int_column (tables (db_of h)) then config_of client_ip (tables (db_of h)) else default_config).
Proof. apply client_config_resolves. Qed.

(** Every client is served under the configuration of the tables. *)
Definition current (h : DnsHandler) : Prop :=
  forall now client_ip, fst (get_client_config now client_ip h) = Ok (config_now client_ip (tables (db_of h))).
(** The cache of configurations has seen nothing but insertions and
    invalidations. *)
Definition configs_built (h : DnsHandler) : Prop :=
  exists os, client_config_cache h = moka_run (moka_build 4096 CLIENT_CACHE_TTL) os.
Lemma emptied_miss `{!MokaDoc} h h' now client_ip :
  configs_built h -> client_config_cache h' = moka_invalidate_all (client_config_cache h) ->
  moka_get (client_config_cache h') now client_ip = None.
Proof.
  intros [os Hos] ->. rewrite Hos. destruct (moka_get _ now client_ip) as [c|] eqn:Hg; [|done]. exfalso.
  change (moka_invalidate_all (moka_run (moka_build 4096 CLIENT_CACHE_TTL) os)) with
    (moka_apply (moka_run (moka_build 4096 CLIENT_CACHE_TTL) os) (@MInvalidateAll ClientConfig)) in Hg.
  assert (Hr : moka_apply (moka_run (moka_build 4096 CLIENT_CACHE_TTL) os) (@MInvalidateAll ClientConfig) =
    moka_run (moka_build 4096 CLIENT_CACHE_TTL) (os ++ [MInvalidateAll])) by (unfold moka_run; by rewrite fold_left_app).
  rewrite Hr in Hg. apply moka_hit in Hg as (before & t & after & Heq & Hno & _).
  destruct after as [|o after _] using rev_ind.
  - apply app_inj_tail in Heq as [_ Heq]. discriminate.
  - rewrite app_comm_cons, app_assoc in Heq. apply app_inj_tail in Heq as [_ <-].
    rewrite existsb_app in Hno. simpl in Hno. by rewrite orb_true_r in Hno.
Qed.
Lemma current_same h h' :
  client_config_cache h' = client_config_cache h -> db_works h' ->
  (forall ip, config_now ip (tables (db_of h')) = config_now ip (tables (db_of h))) -> current h -> current h'.
Proof.
  intros He Hw Hsame Hc now client_ip. specialize (Hc now client_ip). unfold get_client_config, bind, gets in *. rewrite He.
  destruct (moka_get (client_config_cache h) now client_ip) as [c|]; [by rewrite Hsame|].
  pose proof (client_config_resolves client_ip h' Hw) as Hr.
  destruct (resolve_client_config client_ip h') as [r h1]. cbn [fst] in Hr. by subst r.
Qed.
Lemma emptied_current `{!MokaDoc} h h' :
  configs_built h -> client_config_cache h' = moka_invalidate_all (client_config_cache h) -> db_works h' -> current h'.
Proof.
  intros Hb He Hw now client_ip. unfold get_client_config, bind, gets.
  rewrite (emptied_miss h h' now client_ip Hb He).
  pose proof (client_config_resolves client_ip h' Hw) as Hc.
  destruct (resolve_client_config client_ip h') as [r h1]. cbn [fst] in Hc. by subst r.
Qed.

(** The rules of a client's groups are added to a set that is never built, so
    wildcard rules of a group match nothing: a client whose group rules are
    wildcards is filtered as if it had none. *)
Theorem group_wildcards_inert client_id ps domain h config :
  db_works h ->
  group_rule_rows client_id (tables (db_of h)) = map (fun p => lit "||" ++ p ++ lit "^") ps ->
  ps <> [] -> Forall Rules.wildcard_pattern ps ->
  group_ruleset config = None ->
  exists rs, fst (load_group_rules_for_client client_id h) = Ok (Some rs) /\
    Rules.match_domain rs domain = NoMatch /\
    forall h', is_query_blocked h'
      {| filter_enabled := filter_enabled config; upstream_urls := upstream_urls config;
         group_ruleset := Some rs; group_rewrites := group_rewrites config |} domain
      = is_query_blocked h' config domain.
Proof.
  intros Hh Hrows Hne Hps Hg.
  exists (fst (Rules.add_rules Rules.new (map (fun p => lit "||" ++ p ++ lit "^") ps))).
  assert (Hno : Rules.match_domain (fst (Rules.add_rules Rules.new (map (fun p => lit "||" ++ p ++ lit "^") ps))) domain
    = NoMatch).
  { rewrite (Rules.load_wildcards ps Hps). rewrite Rules.match_domain_alt. cbn zeta.
    cbn [Rules.set_wildcard_blocked Rules.new Rules.blocked Rules.allowed Rules.block_all
         Rules.wildcard_blocked_set Rules.wildcard_allowed_set].
    assert (Rules.matches_set (Rules.query_name domain) ∅ = false) as ->; [|done].
    apply not_true_iff_false. rewrite Rules.matches_set_alt. set_solver. }
  split; [|split; [done|]].
  - unfold load_group_rules_for_client, bind, catch, fetch_all, ret. rewrite query_run by done. rewrite Hrows.
    destruct ps; [done|]. reflexivity.
  - intros h'. unfold is_query_blocked. cbn [group_ruleset filter_enabled]. by rewrite Hno, Hg.
Qed.

(** C9: Otherwise, when the cache has no answer, the upstreams decide: the reply
    to one lookup is passed on unchanged, and it is what the cache is given
    for the name and type, with the lowest TTL of its answers. *)
Theorem forwarded_query `{!HickoryDoc, !RngDoc} tm data client_ip h request q config h1 bytes ttl name h2 :
  admitted h client_ip data request q ->
  UpstreamPool.nodes (upstream_pool h) <> [] ->
  get_client_config (t_now tm) client_ip h = (Ok config, h1) ->
  rewrite_target h1 config q = None ->
  is_query_blocked h1 config (question_name q) = false ->
  Cache.get (cache h) (t_now tm) (name_str (q_name q)) (q_type q) = None ->
  forward tm config (name_str (q_name q)) (q_type q) request h1 = (Ok (bytes, ttl, name), h2) ->
  exists h' outcome, handle_internal tm data client_ip h = (Ok bytes, h') /\
    from_vec bytes = Some (Resolver.reply_of request outcome) /\ ttl = Resolver.ttl_of outcome /\
    cache h' = Cache.set_with_ttl (cache h) (t_now tm) (name_str (q_name q)) (q_type q) bytes ttl /\
    env h' = env h2 /\ same_service h h' /\ metrics h' = Metrics.inc_allowed (metrics h).
Proof.
  intros Hadm Hne Hcfg Hip Hb Hmiss Hfw. rewrite (handle_admitted _ _ _ _ _ _ Hadm).
  destruct Hadm as (Hreq & _ & _ & _ & Hq). destruct (wire_id _ _ Hreq) as (Hid & _ & _).
  assert (Hqs : exists qs, m_queries request = q :: qs).
  { destruct (m_queries request) as [|q' qs]; [done|]. injection Hq as ->. by exists qs. }
  destruct Hqs as [qs Hqs].
  unfold handle_query, bind. rewrite Hcfg.
  destruct (get_client_config_frame (t_now tm) client_ip h) as (c & n & cc & Hf).
  rewrite Hf in Hcfg. injection Hcfg as -> <-.
  set (h1 := set_client_config_cache cc _) in *.
  destruct (rewrite_stage_frame tm client_ip config request q qs h1 Hqs) as (h3 & _ & Hrw).
  unfold rewrite_target, question_name in Hip, Hb.
  assert (Hnone : option_bind _ _ (fun a => rewrite_ip a (q_type q))
    (rewrite_answer h1 config (trim_end_char (name_str (q_name q)) dot)) = None).
  { destruct (rewrite_answer h1 config _); [exact Hip|done]. }
  rewrite Hnone in Hrw. rewrite Hrw. unfold get, modify, lift, ret. rewrite Hb.
  change (cache h1) with (cache h). rewrite Hmiss, Hfw.
  destruct (forward_frame _ _ _ _ _ _ _ _ (Hne : UpstreamPool.nodes (upstream_pool h1) <> []) Hid Hfw)
    as [(en & cr & ->) (outcome & Hbytes & Httl & _)].
  rewrite Hbytes. cbn [ok_or]. eexists _, outcome. split; [reflexivity|]. split; [done|]. split; [done|].
  split; [done|]. split; [done|]. split; [by repeat split|done].
Qed.

End handler.
End Handler.
