(* ===== verification/HandlerTests.v ===== *)
(** * Concrete queries to the DNS handler

    A small server: one global block rule, a client with its filter off, a
    client in a group with its own rules and a group rewrite, one rewrite and
    one safe search entry.  The examples run [Handler.handle_internal] on
    queries in wire format; the witnesses apply the theorems of [Handler] to
    the same server. *)

From S2P Require Import Prelude RustStr IpAddr Regex Rules Acl Moka Hickory Cache Db Filter Resolver.
From S2P Require Import UpstreamPool Metrics AppCatalog QueryLogWriter Handler.
Local Open Scope N_scope.

Module HandlerWitness.
Import AsciiUnicode RefRegex RefJson RefIpNet RefMoka RefRng RefHickory RefResolver Handler.

Definition msg (id : N) (name : string) (t : N) : Message :=
  {| m_id := id; m_type := MtQuery; m_op := OpQuery; m_rd := true; m_ra := false; m_code := NoError;
     m_queries := [{| q_name := lit name; q_type := t; q_class := tt |}]; m_answers := [] |}.
Definition wire (m : Message) : list N := default [] (to_vec m).
Definition tm (now : N) : Timing := {| t_now := now; t_elapsed := 10; t_upstream := 5 |}.

(** A client with its filter off, one in a group with a block rule, a
    wildcard rule and a rewrite. *)
Definition group_rule (id kind : string) : ClientGroupRule :=
  {| cgr_id := 1; cgr_group_id := 7; cgr_rule_id := lit id; cgr_rule_type := lit kind; cgr_priority := 0;
     cgr_created_at := [] |}.
Definition client_row (id ip : string) (fe : sql_value) : Client :=
  {| c_id := lit id; c_name := lit id; c_identifiers := json_of_strings [lit ip]; c_upstreams := None;
     c_filter_enabled := fe; c_tags := None; c_created_at := []; c_updated_at := [] |}.
Definition rule (id r : string) : CustomRule :=
  {| cr_id := lit id; cr_rule := lit r; cr_comment := None; cr_is_enabled := true; cr_created_by := [];
     cr_created_at := []; cr_expires_at := None |}.
Definition tables0 (bool_column : bool) : Db :=
  let v z := if bool_column then SqlBool (z =? 1)%Z else SqlInt z in
  set_custom_rules
    (set_dns_rewrites
      (set_clients
        (set_client_groups
          (set_client_group_memberships
            (set_client_group_rules empty_db
              [group_rule "r1" "custom_rule"; group_rule "r2" "custom_rule"; group_rule "w1" "rewrite"])
            [{| cgm_id := 1; cgm_client_id := lit "kid"; cgm_group_id := 7; cgm_created_at := [] |}])
          [{| cg_id := 7; cg_name := []; cg_color := []; cg_description := None; cg_priority := 0;
              cg_created_at := []; cg_updated_at := [] |}])
        [client_row "adult" "10.0.0.1" (v 0%Z); client_row "kid" "10.0.0.0/24" (v 1%Z)])
      [{| dr_id := lit "w1"; dr_domain := lit "Home.lan"; dr_answer := lit "10.0.0.99"; dr_created_by := []; dr_created_at := [] |}])
    [rule "r1" "||games.com^"; rule "r2" "||ad-*.x.com^"].
Definition engine (t : Db) : FilterEngine.FilterEngine :=
  {| FilterEngine.rules := Rules.build (fst (Rules.add_rules Rules.new [lit "||ads.com^"]));
     FilterEngine.rewrites := {[ lit "router.lan" := lit "10.0.0.254"; lit "www.google.com" := lit "forcesafesearch.google.com" ]};
     FilterEngine.db := {| tables := t; calls := 0; faults := fun _ => false |} |}.
Definition start (t : Db) : option DnsHandler :=
  match new true 300 0 (engine t) Metrics.new AppCatalog.new with Ok h => Some h | Err _ => None end.
Definition dummy : DnsHandler :=
  {| filter := engine empty_db; upstream_pool := {| UpstreamPool.nodes := []; UpstreamPool.strategy := Priority |};
     prefer_ipv4 := true; rewrite_ttl := 300; acl := Acl.new; client_resolvers := moka_build 0 0;
     cache := Cache.new; client_config_cache := moka_build 4096 CLIENT_CACHE_TTL; metrics := Metrics.new;
     query_log_tx := []; query_log_entry_tx := {| QueryLogWriter.queue := []; QueryLogWriter.closed := false |};
     app_catalog := AppCatalog.new; env := {| Resolver.net_calls := 0; Resolver.rng_calls := 0 |} |}.
Definition handler (b : bool) : DnsHandler := default dummy (start (tables0 b)).
Definition ask (h : DnsHandler) (now id : N) (ip name : string) (t : N) : result (list N) HandlerError * DnsHandler :=
  handle_internal (tm now) (wire (msg id name t)) (lit ip) h.
Definition reply_code (r : result (list N) HandlerError * DnsHandler) : option (N * ResponseCode) :=
  match fst r with Ok b => (fun m => (m_id m, m_code m)) <$> from_vec b | Err _ => None end.

(** With an integer column the settings of the clients apply; the wildcard
    rule of the group does not. *)
Example handler_tests_int :
  map (fun '(ip, name) => reply_code (ask (handler false) 0 5 ip name 1))
    [("10.0.0.9", "ads.com."); ("10.0.0.1", "ads.com."); ("10.0.0.9", "play.games.com."); ("10.0.0.9", "ad-1.x.com.");
     ("10.9.9.9", "play.games.com.")]%string
  = [Some (5, NXDomain); Some (5, NoError); Some (5, NXDomain); Some (5, NoError); Some (5, NoError)].
Proof. vm_compute. reflexivity. Qed.
(** With a boolean column none does. *)
Example handler_tests_bool :
  map (fun '(ip, name) => reply_code (ask (handler true) 0 5 ip name 1))
    [("10.0.0.9", "ads.com."); ("10.0.0.1", "ads.com."); ("10.0.0.9", "play.games.com.")]%string
  = [Some (5, NXDomain); Some (5, NXDomain); Some (5, NoError)].
Proof. vm_compute. reflexivity. Qed.
(** The second query is answered from the cache, under its own identifier,
    without a lookup. *)
Example cache_test :
  let '(_, h1) := ask (handler true) 0 5 "10.0.0.9" "a.com." 1 in
  let r := ask h1 1000 6 "10.0.0.9" "A.com." 1 in
  (reply_code r, Resolver.net_calls (env (snd r)), Metrics.queries_cached (metrics (snd r)))
  = (Some (6, NoError), 1, 1).
Proof. vm_compute. reflexivity. Qed.
(** A group rewrite is kept under the lowercased name but looked up with the
    name as asked. *)
Example group_rewrite_case :
  map (fun name => match fst (ask (handler false) 0 5 "10.0.0.9" name 1) with
                   | Ok b => map r_ttl <$> (m_answers <$> from_vec b) | Err _ => None end)
    ["home.lan."; "Home.lan."]%string = [Some [300]; Some [60; 30]].
Proof. vm_compute. reflexivity. Qed.

(** Evaluation that compares the two sides without printing normal forms. *)
Ltac vm_refl := intros; match goal with |- ?x = ?y => vm_cast_no_check (eq_refl y) end.

Lemma serving_handler : serving (handler true).
Proof.
  destruct (new true 300 0 (engine (tables0 true)) Metrics.new AppCatalog.new) as [h|e] eqn:Hn.
  - assert (handler true = h) as ->; [|by exists true, 300, 0%Z, (engine (tables0 true)), Metrics.new, AppCatalog.new, h; split; [exact Hn|apply rtc_refl]].
    unfold handler, start. by rewrite Hn.
  - exfalso. apply (f_equal is_ok) in Hn. revert Hn. vm_compute. discriminate.
Qed.


Definition acl_handler : DnsHandler := reload_acl [] [lit "10.0.0.0/8"] (handler true).
Lemma acl_refusal_witness : snd (ask acl_handler 0 5 "10.0.0.9" "a.com." 1) = acl_handler.
Proof.
  assert (Hw : from_vec (wire (msg 5 "a.com." 1)) = Some (msg 5 "a.com." 1)) by (vm_refl).
  assert (Ha : Acl.is_allowed (acl acl_handler) (V4 10 0 0 9) = false) by (vm_refl).
  destruct (acl_refusal (tm 0) (wire (msg 5 "a.com." 1)) (lit "10.0.0.9") (V4 10 0 0 9) acl_handler _
    (default [] (to_vec {| m_id := 5; m_type := MtResponse; m_op := OpQuery; m_rd := false; m_ra := false;
               m_code := Refused; m_queries := []; m_answers := [] |})) Hw) as [H _].
  - vm_refl.
  - exact Ha.
  - vm_refl.
  - unfold ask. by rewrite H.
Defined.

Definition question (name : string) (t : N) : Query := {| q_name := lit name; q_type := t; q_class := tt |}.
Lemma admitted_ask h ip id name t :
  acl_rejects h ip = false -> from_vec (wire (msg id name t)) = Some (msg id name t) ->
  admitted h ip (wire (msg id name t)) (msg id name t) (question name t).
Proof. intros Ha Hw. by repeat split. Qed.

Lemma rewrite_query_witness :
  exists bytes h', ask (handler true) 0 5 "10.9.9.9" "Router.lan." 1 = (Ok bytes, h') /\
    from_vec bytes = Some (rewrite_message (handler true) (msg 5 "Router.lan." 1) (question "Router.lan." 1) (V4 10 0 0 254)).
Proof.
  destruct (get_client_config 0 (lit "10.9.9.9") (handler true)) as [[config|e] h1] eqn:Hc.
  - destruct (rewrite_query (tm 0) _ _ _ _ _ config h1 (V4 10 0 0 254)
      (wire (rewrite_message (handler true) (msg 5 "Router.lan." 1) (question "Router.lan." 1) (V4 10 0 0 254)))
      (admitted_ask (handler true) (lit "10.9.9.9") 5 "Router.lan." 1 eq_refl ltac:(vm_refl)) Hc)
      as (h' & Hh & Hb & _).
    + apply (f_equal (fun r => match fst r with Ok c => rewrite_target (snd r) c (question "Router.lan." 1) | Err _ => None end)) in Hc.
      cbn [fst snd] in Hc. rewrite <- Hc. vm_refl.
    + apply (f_equal (fun r => rewrite_ttl (snd r))) in Hc. cbn [snd] in Hc.
      unfold rewrite_message. rewrite <- Hc. vm_refl.
    + eexists _, h'. split; [exact Hh|]. rewrite Hb. f_equal. unfold rewrite_message.
      apply (f_equal (fun r => rewrite_ttl (snd r))) in Hc. cbn [snd] in Hc. rewrite <- Hc. vm_refl.
  - exfalso. apply (f_equal (fun r => is_ok (fst r))) in Hc. revert Hc. vm_compute. discriminate.
Defined.

Lemma blocked_query_witness :
  exists bytes h', ask (handler true) 0 5 "10.9.9.9" "x.ads.com." 1 = (Ok bytes, h') /\ env h' = env (handler true).
Proof.
  destruct (get_client_config 0 (lit "10.9.9.9") (handler true)) as [[config|e] h1] eqn:Hc.
  - destruct (blocked_query (tm 0) _ _ _ _ _ config h1 (wire (nxdomain_message (msg 5 "x.ads.com." 1)))
      (admitted_ask (handler true) (lit "10.9.9.9") 5 "x.ads.com." 1 eq_refl ltac:(vm_refl)) Hc)
      as (h' & ev & Hh & _ & _ & _ & He & _).
    + apply (f_equal (fun r => match fst r with Ok c => rewrite_target (snd r) c (question "x.ads.com." 1) | Err _ => None end)) in Hc.
      cbn [fst snd] in Hc. rewrite <- Hc. vm_refl.
    + apply (f_equal (fun r => match fst r with Ok c => is_query_blocked (snd r) c (lit "x.ads.com") | Err _ => true end)) in Hc.
      cbn [fst snd] in Hc. change (question_name (question "x.ads.com." 1)) with (lit "x.ads.com").
      rewrite <- Hc. vm_refl.
    + vm_refl.
    + eexists _, h'. split; [exact Hh|exact He].
  - exfalso. apply (f_equal (fun r => is_ok (fst r))) in Hc. revert Hc. vm_compute. discriminate.
Defined.

Lemma forwarded_query_witness :
  exists bytes h', ask (handler true) 0 5 "10.9.9.9" "a.com." 1 = (Ok bytes, h') /\
    exists ttl, cache h' = Cache.set_with_ttl (cache (handler true)) 0 (lit "a.com.") rtype_A bytes ttl.
Proof.
  destruct (get_client_config 0 (lit "10.9.9.9") (handler true)) as [[config|e] h1] eqn:Hc.
  - destruct (forward (tm 0) config (lit "a.com.") rtype_A (msg 5 "a.com." 1) h1) as [[[[bytes ttl] name]|e] h2] eqn:Hf.
    + destruct (forwarded_query (tm 0) _ _ _ _ _ config h1 bytes ttl name h2
        (admitted_ask (handler true) (lit "10.9.9.9") 5 "a.com." 1 eq_refl ltac:(vm_refl)))
        as (h' & outcome & Hh & _ & _ & Hcache & _).
      * intros Hn. apply (f_equal length) in Hn. revert Hn. vm_compute. discriminate.
      * exact Hc.
      * apply (f_equal (fun r => match fst r with Ok c => rewrite_target (snd r) c (question "a.com." 1) | Err _ => None end)) in Hc.
        cbn [fst snd] in Hc. rewrite <- Hc. vm_refl.
      * apply (f_equal (fun r => match fst r with Ok c => is_query_blocked (snd r) c (lit "a.com") | Err _ => true end)) in Hc.
        cbn [fst snd] in Hc. change (question_name (question "a.com." 1)) with (lit "a.com").
        rewrite <- Hc. vm_refl.
      * vm_refl.
      * exact Hf.
      * exists bytes, h'. split; [exact Hh|]. exists ttl. exact Hcache.
    + exfalso. apply (f_equal (fun r => match fst r with
        | Ok c => is_ok (fst (forward (tm 0) c (lit "a.com.") rtype_A (msg 5 "a.com." 1) (snd r))) | Err _ => true end)) in Hc.
      cbn [fst snd] in Hc. rewrite Hf in Hc. revert Hc. vm_compute. discriminate.
  - exfalso. apply (f_equal (fun r => is_ok (fst r))) in Hc. revert Hc. vm_compute. discriminate.
Defined.

Lemma safe_search_inoperative_witness :
  rewrite_stage (tm 0) (lit "10.9.9.9") default_config (msg 5 "www.Google.com." 1) (lit "www.Google.com.") rtype_A (handler true)
  = (Ok None, handler true).
Proof.
  apply (safe_search_inoperative _ _ _ _ _ (lit "www.google.com") (lit "forcesafesearch.google.com")).
  - left.
  - reflexivity.
  - vm_refl.
Defined.

Lemma client_config_correct_witness :
  fst (resolve_client_config (lit "10.0.0.9") (handler true)) = Ok default_config /\
  fst (resolve_client_config (lit "10.0.0.9") (handler false)) = Ok (config_of (lit "10.0.0.9") (tables0 false)).
Proof.
  split.
  - rewrite (client_config_correct (lit "10.0.0.9") (handler true)); [vm_refl|].
    intros n. vm_refl.
  - rewrite (client_config_correct (lit "10.0.0.9") (handler false)); [vm_refl|].
    intros n. vm_refl.
Defined.

(** A client whose only group rule is a wildcard. *)
Definition wildcard_handler : DnsHandler :=
  default dummy (start (set_client_group_rules (tables0 false) [group_rule "r2" "custom_rule"])).
Lemma group_wildcards_inert_witness :
  exists rs, fst (load_group_rules_for_client (lit "kid") wildcard_handler) = Ok (Some rs) /\
    Rules.match_domain rs (lit "ad-1.x.com") = NoMatch.
Proof.
  destruct (group_wildcards_inert (lit "kid") [lit "ad-*.x.com"] (lit "ad-1.x.com") wildcard_handler default_config)
    as (rs & Hrs & Hm & _).
  - intros n. vm_refl.
  - vm_refl.
  - discriminate.
  - apply Forall_cons_2; [|apply Forall_nil_2].
    split; [vm_refl|]. split; [apply contains_char_true; vm_refl|].
    split; [apply contains_char_true; vm_refl|vm_refl].
  - reflexivity.
  - exists rs. split; [exact Hrs|exact Hm].
Defined.

End HandlerWitness.
