(* ===== verification/Server.v ===== *)
(** * The DNS server: src/dns/server.rs

    The UDP and TCP loops around the handler, as a step relation: datagrams
    and connections are tasks of their own that take their steps in any
    order; a call of the handler is one step.  What a socket gives, and
    whether a write succeeds, comes from outside. *)
From S2P Require Import Prelude RustStr IpAddr Regex Rules Acl Moka Hickory Cache Db Filter Resolver.
From S2P Require Import UpstreamPool Metrics AppCatalog QueryLogWriter Handler HandlerTests.
Local Open Scope N_scope.

(** [timeout(.., stream.read_exact(&mut buf)).await]: all bytes, an error
    (the end of the stream) after some of them, or the timeout. *)
Inductive ReadOutcome := ReadAll (bytes : list N) | ReadError (partial : list N) | ReadTimeout.

(** Where the task of a TCP connection stands. *)
Inductive Phase := ReadingLength | ReadingBody (msg_len : N) | Handling (data : list N).
Record Conn := { conn_peer : IpAddr; conn_phase : Phase }.
(** A datagram being handled. *)
Record Datagram := { dg_peer : IpAddr; dg_data : list N }.

Inductive Reply := UdpReply (peer : IpAddr) (payload : list N) | TcpReply (peer : IpAddr) (payload : list N).

Module Server.
Section server.
Context `{RustUnicode, RegexEngine, SerdeJson, Collation, IpNetCrate, Moka, Rng,
  Hickory, !HickoryResolver, !DnsCodec}.

Definition MAX_TCP_CONNECTIONS : N := 256.
Definition max_concurrent (physical_cores : N) : N := N.max (N.max physical_cores 4 * 64) 512.

(** The buffer of [n] zeros after the read; only the timeout is tested for,
    an error leaves what was read in it. *)
Definition read_exact (n : N) (o : ReadOutcome) : option (list N) :=
  match o with
  | ReadAll bytes => Some bytes
  | ReadError partial => Some (take (N.to_nat n) (partial ++ repeat 0 (N.to_nat n)))
  | ReadTimeout => None
  end.

Definition be16 (bytes : list N) : N := match bytes with [a; b] => 256 * a + b | _ => 0 end.
(** [(response.len() as u16).to_be_bytes()] and the response *)
Definition frame (response : list N) : list N :=
  let len := N.of_nat (length response) mod 65536 in
  [len / 256; len mod 256] ++ response.

Record Server := {
  handler : Handler.DnsHandler;
  conns : gmap N Conn; tcp_permits : N; active_tcp_connections : N;
  datagrams : gmap N Datagram; udp_permits : N;
  listening : bool;
  replies : list Reply }.

Definition start (cores : N) (h : Handler.DnsHandler) : Server :=
  {| handler := h; conns := ∅; tcp_permits := MAX_TCP_CONNECTIONS; active_tcp_connections := 0;
     datagrams := ∅; udp_permits := max_concurrent cores; listening := true; replies := [] |}.

(** [fetch_add] and [fetch_sub] of a 64-bit counter *)
Definition fetch_add (n : N) : N := (n + 1) mod 2 ^ 64.
Definition fetch_sub (n : N) : N := if n =? 0 then 2 ^ 64 - 1 else n - 1.

Definition set_handler (h : Handler.DnsHandler) (s : Server) : Server :=
  {| handler := h; conns := conns s; tcp_permits := tcp_permits s;
     active_tcp_connections := active_tcp_connections s; datagrams := datagrams s; udp_permits := udp_permits s;
     listening := listening s; replies := replies s |}.
Definition send (r : list Reply) (s : Server) : Server :=
  {| handler := handler s; conns := conns s; tcp_permits := tcp_permits s;
     active_tcp_connections := active_tcp_connections s; datagrams := datagrams s; udp_permits := udp_permits s;
     listening := listening s; replies := replies s ++ r |}.
Definition set_phase (id : N) (c : Conn) (p : Phase) (s : Server) : Server :=
  {| handler := handler s; conns := <[id := {| conn_peer := conn_peer c; conn_phase := p |}]> (conns s);
     tcp_permits := tcp_permits s; active_tcp_connections := active_tcp_connections s; datagrams := datagrams s;
     udp_permits := udp_permits s; listening := listening s; replies := replies s |}.

(** A connection is accepted: without a permit it is closed at once. *)
Definition tcp_accept (id : N) (peer : IpAddr) (s : Server) : Server :=
  if tcp_permits s =? 0 then s
  else {| handler := handler s; conns := <[id := {| conn_peer := peer; conn_phase := ReadingLength |}]> (conns s);
          tcp_permits := tcp_permits s - 1; active_tcp_connections := fetch_add (active_tcp_connections s);
          datagrams := datagrams s; udp_permits := udp_permits s; listening := listening s; replies := replies s |}.

(** The end of the task: the counter goes down and the permit is dropped. *)
Definition tcp_close (id : N) (s : Server) : Server :=
  {| handler := handler s; conns := delete id (conns s); tcp_permits := tcp_permits s + 1;
     active_tcp_connections := fetch_sub (active_tcp_connections s); datagrams := datagrams s;
     udp_permits := udp_permits s; listening := listening s; replies := replies s |}.

(** The next read of a connection. *)
Definition tcp_read (id : N) (c : Conn) (o : ReadOutcome) (s : Server) : Server :=
  match conn_phase c with
  | ReadingLength =>
      match read_exact 2 o with
      | None => tcp_close id s
      | Some len_buf =>
          let msg_len := be16 len_buf in
          if (msg_len =? 0) || (65535 <? msg_len) then tcp_close id s
          else set_phase id c (ReadingBody msg_len) s
      end
  | ReadingBody msg_len =>
      match read_exact msg_len o with
      | None => tcp_close id s
      | Some data => set_phase id c (Handling data) s
      end
  | Handling _ => s
  end.

(** The call of the handler, the reply and the end of the connection; what is
    written is what the peer received when no write failed. *)
Definition tcp_handle (tm : Timing) (id : N) (c : Conn) (data : list N) (written : bool) (s : Server) : Server :=
  let '(r, h') := Handler.handle tm data (show_ip (conn_peer c)) (handler s) in
  let reply := match r with
               | Ok response => if written : bool then [TcpReply (conn_peer c) (frame response)] else []
               | Err _ => []
               end in
  tcp_close id (send reply (set_handler h' s)).

(** A datagram arrives: without a permit it is dropped. *)
Definition udp_receive (id : N) (peer : IpAddr) (data : list N) (s : Server) : Server :=
  if udp_permits s =? 0 then s
  else {| handler := handler s; conns := conns s; tcp_permits := tcp_permits s;
          active_tcp_connections := active_tcp_connections s;
          datagrams := <[id := {| dg_peer := peer; dg_data := data |}]> (datagrams s);
          udp_permits := udp_permits s - 1; listening := listening s; replies := replies s |}.
Definition udp_handle (tm : Timing) (id : N) (g : Datagram) (sent : bool) (s : Server) : Server :=
  let '(r, h') := Handler.handle_bytes tm (dg_data g) (show_ip (dg_peer g)) (handler s) in
  let reply := match r with
               | Ok response => if sent : bool then [UdpReply (dg_peer g) response] else []
               | Err _ => []
               end in
  {| handler := h'; conns := conns s; tcp_permits := tcp_permits s;
     active_tcp_connections := active_tcp_connections s; datagrams := delete id (datagrams s);
     udp_permits := udp_permits s + 1; listening := listening s; replies := replies s ++ reply |}.

(** The shutdown signal ends both loops; the tasks go on. *)
Definition shutdown (s : Server) : Server :=
  {| handler := handler s; conns := conns s; tcp_permits := tcp_permits s;
     active_tcp_connections := active_tcp_connections s; datagrams := datagrams s; udp_permits := udp_permits s;
     listening := false; replies := replies s |}.
(** The drain ends when no connection is active, or after five seconds. *)
Definition drained (elapsed_secs : N) (s : Server) : bool :=
  (active_tcp_connections s =? 0) || (5 <=? elapsed_secs).

(** One step of any task.  The numbers tell tasks apart; [SvHandler] is any
    other use of the shared handler. *)
Inductive step : Server -> Server -> Prop :=
| SvAccept s id peer : listening s = true -> conns s !! id = None -> step s (tcp_accept id peer s)
| SvRead s id c o : conns s !! id = Some c -> step s (tcp_read id c o s)
| SvTcp s id c data tm written :
    conns s !! id = Some c -> conn_phase c = Handling data -> step s (tcp_handle tm id c data written s)
| SvReceive s id peer data :
    listening s = true -> datagrams s !! id = None -> step s (udp_receive id peer data s)
| SvUdp s id g tm sent : datagrams s !! id = Some g -> step s (udp_handle tm id g sent s)
| SvHandler s h : Handler.hstep (handler s) h -> step s (set_handler h s)
| SvShutdown s : step s (shutdown s).

(** ** What holds of every run *)

(** A reply carries what some call of the handler answered. *)
Definition answered (r : Reply) : Prop :=
  exists tm data ip h response h', Handler.serving h /\ Handler.handle tm data ip h = (Ok response, h') /\
    match r with
    | UdpReply peer payload => ip = show_ip peer /\ payload = response
    | TcpReply peer payload => ip = show_ip peer /\ payload = frame response
    end.

Definition inv (cores : N) (s : Server) : Prop :=
  tcp_permits s + N.of_nat (size (conns s)) = MAX_TCP_CONNECTIONS /\
  active_tcp_connections s = N.of_nat (size (conns s)) /\
  udp_permits s + N.of_nat (size (datagrams s)) = max_concurrent cores /\
  Handler.serving (handler s) /\ Forall answered (replies s).

Lemma serving_step h h' : Handler.serving h -> Handler.hstep h h' -> Handler.serving h'.
Proof.
  intros (prefer & ttl & now & f & m & c & h0 & Hn & Hr) Hs. exists prefer, ttl, now, f, m, c, h0.
  split; [done|]. by eapply rtc_r.
Qed.

Lemma size_delete_Some {A} (m : gmap N A) i x : m !! i = Some x -> size m = S (size (delete i m)).
Proof.
  intros Hi. rewrite <- (insert_delete_id m i x Hi) at 1. rewrite map_size_insert_None; [done|]. apply lookup_delete_eq.
Qed.

Lemma server_inv_close cores id c s : inv cores s -> conns s !! id = Some c -> inv cores (tcp_close id s).
Proof.
  intros (Ht & Ha & Hu & Hs & Hr) Hc. apply size_delete_Some in Hc.
  unfold inv, tcp_close. cbn [tcp_permits conns active_tcp_connections udp_permits datagrams handler replies].
  unfold fetch_sub. rewrite Ha, Hc in *. split; [lia|]. split; [|done].
  assert ((N.of_nat (S (size (delete id (conns s)))) =? 0) = false) as -> by lia. lia.
Qed.

Lemma server_inv_phase cores id c p s : inv cores s -> conns s !! id = Some c -> inv cores (set_phase id c p s).
Proof.
  intros Hi Hc. unfold inv, set_phase. cbn [tcp_permits conns active_tcp_connections udp_permits datagrams handler replies].
  rewrite map_size_insert_Some by (by exists c). exact Hi.
Qed.

Lemma server_inv_step cores s s' : inv cores s -> step s s' -> inv cores s'.
Proof.
  intros Hi Hstep. destruct Hstep as [s id peer _ Hn|s id c o Hc|s id c data tm w Hc Hp|s id peer data _ Hn|s id g tm w Hg|s h Hh|s].
  - unfold tcp_accept. destruct (N.eqb_spec (tcp_permits s) 0) as [|Hne]; [done|].
    destruct Hi as (Ht & Ha & Hu & Hs & Hr). unfold inv.
    cbn [tcp_permits conns active_tcp_connections udp_permits datagrams handler replies].
    rewrite map_size_insert_None by done. unfold fetch_add, MAX_TCP_CONNECTIONS in *. rewrite Ha.
    split; [lia|]. split; [rewrite N.mod_small by lia; lia|done].
  - unfold tcp_read. destruct (conn_phase c) as [|n|d]; [| |done].
    + destruct (read_exact 2 o) as [b|]; [|by eapply server_inv_close]. destruct (_ || _); [by eapply server_inv_close|by apply server_inv_phase].
    + destruct (read_exact n o) as [b|]; [by apply server_inv_phase|by eapply server_inv_close].
  - unfold tcp_handle. destruct (Handler.handle tm data (show_ip (conn_peer c)) (handler s)) as [r h'] eqn:Hh.
    apply (server_inv_close cores id c); [|exact Hc]. destruct Hi as (Ht & Ha & Hu & Hs & Hr).
    split; [exact Ht|]. split; [exact Ha|]. split; [exact Hu|]. cbn [handler send set_handler replies].
    split; [eapply serving_step; [exact Hs|by eapply Handler.HHandle]|]. apply Forall_app. split; [done|].
    destruct r as [b|e]; [|constructor]. destruct w; [|constructor]. constructor; [|constructor].
    by exists tm, data, (show_ip (conn_peer c)), (handler s), b, h'.
  - unfold udp_receive. destruct (N.eqb_spec (udp_permits s) 0) as [|Hne]; [done|].
    destruct Hi as (Ht & Ha & Hu & Hs & Hr). unfold inv.
    cbn [tcp_permits conns active_tcp_connections udp_permits datagrams handler replies].
    rewrite map_size_insert_None by done. split; [done|]. split; [done|]. split; [lia|done].
  - unfold udp_handle. destruct (Handler.handle_bytes tm (dg_data g) (show_ip (dg_peer g)) (handler s)) as [r h'] eqn:Hh.
    destruct Hi as (Ht & Ha & Hu & Hs & Hr). apply size_delete_Some in Hg. unfold inv.
    cbn [tcp_permits conns active_tcp_connections udp_permits datagrams handler replies].
    split; [done|]. split; [done|]. split; [lia|].
    split; [eapply serving_step; [exact Hs|by eapply Handler.HHandle]|]. apply Forall_app. split; [done|].
    destruct r as [b|e]; [|constructor]. destruct w; [|constructor]. constructor; [|constructor].
    by exists tm, (dg_data g), (show_ip (dg_peer g)), (handler s), b, h'.
  - destruct Hi as (Ht & Ha & Hu & Hs & Hr). split; [done|]. split; [done|]. split; [done|]. split; [by eapply serving_step|done].
  - exact Hi.
Qed.

(** What a client reads: the length prefix and that many bytes. *)
Definition unframe (bytes : list N) : list N :=
  match bytes with a :: b :: rest => take (N.to_nat (256 * a + b)) rest | _ => [] end.
Definition len16 (response : list N) : nat := N.to_nat (N.of_nat (length response) mod 65536).
Lemma unframe_frame response : unframe (frame response) = take (len16 response) response.
Proof. unfold unframe, frame, len16. cbn [app]. by rewrite <- N.div_mod. Qed.

(** C14: over any run of the server, whatever its peers send and however the
    tasks interleave: at most 256 TCP connections and the permitted number of
    datagrams are in work, the counter the shutdown waits for is the number
    of open connections, and every reply carries what a call of the handler,
    in a state the running server can be in, answered for that peer; over TCP
    the client reads it whole when it has less than 65536 bytes, and
    otherwise its first bytes, as many as the length modulo 65536. *)
Theorem server_correct cores h s :
  Handler.serving h -> rtc step (start cores h) s ->
  N.of_nat (size (conns s)) <= 256 /\ N.of_nat (size (datagrams s)) <= max_concurrent cores /\
  active_tcp_connections s = N.of_nat (size (conns s)) /\
  (conns s = ∅ -> drained 0 s = true) /\
  Forall (fun r => exists tm data ip h0 response h1, Handler.serving h0 /\ Handler.handle tm data ip h0 = (Ok response, h1) /\
    match r with
    | UdpReply peer payload => ip = show_ip peer /\ payload = response
    | TcpReply peer payload => ip = show_ip peer /\ unframe payload = take (len16 response) response
    end) (replies s).
Proof.
  intros Hh Hr. assert (Hi : inv cores s).
  { assert (Hi0 : inv cores (start cores h)).
    { unfold inv, start. cbn [tcp_permits conns active_tcp_connections udp_permits datagrams handler replies].
      rewrite !map_size_empty. split; [done|]. split; [done|]. split; [lia|]. by split. }
    clear Hh. induction Hr as [|s0 s1 s2 Hs _ IH]; [done|]. by eapply IH, server_inv_step. }
  destruct Hi as (Ht & Ha & Hu & Hs & Hrep). unfold MAX_TCP_CONNECTIONS in Ht.
  split; [lia|]. split; [lia|]. split; [exact Ha|]. split.
  - intros He. unfold drained. rewrite Ha, He, map_size_empty. done.
  - eapply Forall_impl; [exact Hrep|]. intros r (tm & data & ip & h0 & resp & h1 & Hs0 & Hh0 & Hm).
    exists tm, data, ip, h0, resp, h1. split; [done|]. split; [done|].
    destruct r as [peer payload|peer payload]; destruct Hm as [? ->]; split; try done. apply unframe_frame.
Qed.

(** One datagram is received and answered. *)
Lemma one_datagram cores h id peer data tm sent :
  rtc step (start cores h)
    (udp_handle tm id {| dg_peer := peer; dg_data := data |} sent (udp_receive id peer data (start cores h))).
Proof.
  eapply rtc_l; [apply (SvReceive (start cores h) id peer data); [done|apply lookup_empty]|].
  eapply rtc_l; [|apply rtc_refl]. apply SvUdp. unfold udp_receive.
  assert ((udp_permits (start cores h) =? 0) = false) as ->.
  { cbn [start udp_permits]. unfold max_concurrent. lia. }
  cbn [datagrams]. apply lookup_insert_eq.
Qed.

End server.
End Server.

(** ** Concrete inputs *)

Module ServerWitness.
Import AsciiUnicode RefRegex RefJson RefIpNet RefMoka RefRng RefHickory RefResolver HandlerWitness Server.

Definition received : Server :=
  udp_receive 1 (V4 10 0 0 9) (wire (msg 5 "ads.com." 1)) (start 4 (HandlerWitness.handler true)).
Definition datagram : Datagram := {| dg_peer := V4 10 0 0 9; dg_data := wire (msg 5 "ads.com." 1) |}.
Definition answered_state : Server := udp_handle (tm 0) 1 datagram true received.

Lemma server_correct_witness :
  N.of_nat (size (datagrams answered_state)) <= max_concurrent 4 /\
  Forall (fun r => match r with
    | UdpReply peer payload => exists tm data h0 h1, Handler.serving h0 /\ Handler.handle tm data (show_ip peer) h0 = (Ok payload, h1)
    | TcpReply _ _ => True
    end) (replies answered_state).
Proof.
  destruct (server_correct 4 (HandlerWitness.handler true) answered_state serving_handler
    (one_datagram 4 (HandlerWitness.handler true) 1 (V4 10 0 0 9) (wire (msg 5 "ads.com." 1)) (tm 0) true))
    as (_ & Hd & _ & _ & Hf).
  split; [exact Hd|]. eapply Forall_impl; [exact Hf|]. intros r (t & data & ip & h0 & resp & h1 & Hs & Hh & Hm).
  destruct r as [peer payload|]; [|exact I]. destruct Hm as [-> ->]. exists t, data, h0, h1. exact (conj Hs Hh).
Defined.
Example one_reply : length (replies answered_state) = 1%nat.
Proof. vm_compute. reflexivity. Qed.

(** A stream that ends early is not noticed: the handler gets the rest of the
    buffer as zeros. *)
Definition slow_conn (p : Phase) : Conn := {| conn_peer := V4 10 0 0 9; conn_phase := p |}.
Example truncated_tcp_message :
  let s := tcp_read 1 (slow_conn (ReadingBody 4)) (ReadError [171]) (start 4 (HandlerWitness.handler true)) in
  conn_phase <$> conns s !! 1 = Some (Handling [171; 0; 0; 0]).
Proof. vm_compute. reflexivity. Qed.
(** A reply of 65536 bytes is announced with the length zero. *)
Example long_tcp_reply : take 2 (frame (repeat 7 (N.to_nat 65536))) = [0; 0].
Proof. vm_compute. reflexivity. Qed.
End ServerWitness.
