(* ===== verification/Subscription.v ===== *)
(** * Filter list subscriptions: src/dns/subscription.rs

    Downloading a remote list, reading it in AdGuard or hosts syntax, and
    storing its rules.  The [url] and [reqwest] crates and the captures of
    the [regex] crate are parameters. *)
From S2P Require Import Prelude RustStr IpAddr Regex Rules Db.
Local Open Scope N_scope.

(** [url::Url] *)
Class UrlCrate := {
  Url : Type;
  url_parse : str -> option Url;
  url_scheme : Url -> str;
  url_host_str : Url -> option str;
}.

(** The answer of a server to a GET: whether its status is a success, the
    Content-Length, and the body unless reading it failed. *)
Record Response := { rs_success : bool; rs_content_length : option N; rs_bytes : option (list N) }.
(** [reqwest]: the answer may depend on the requests sent before. *)
Class HttpClient := { http_get : list str -> str -> option Response }.

(** [Regex::new(p).captures(s)] and the first group *)
Class RegexCaptures := { captures1 : str -> str -> option str }.

(** The state of a download: the requests that were sent. *)
Record SyncState := { requests : list str; sync_db : DbState }.
#[global] Instance SyncState_HasDb : HasDb SyncState :=
  { db_of := sync_db; with_db s d := {| requests := requests s; sync_db := d |} }.
#[global] Instance SyncState_HasDbLaws : HasDbLaws SyncState.
Proof. constructor; [done|done|by intros []]. Qed.

Inductive UrlRejected := InvalidUrl | DisallowedScheme | NoHost | PrivateIp.
Inductive FetchError := Rejected (e : UrlRejected) | SendFailed | HttpStatus | TooLarge | BodyFailed | NotUtf8.
Inductive SyncError := FetchFailed (e : FetchError) | StoreFailed (e : DbError) | MetadataFailed (e : DbError).

Module Subscription.
Section subscription.
Context `{RustUnicode, RegexEngine, UrlCrate, HttpClient, RegexCaptures}.

Definition MAX_RESPONSE_SIZE : N := 10 * 1024 * 1024.

Definition is_private_ip (ip : IpAddr) : bool :=
  match ip with
  | V4 a b c d =>
      v4_is_loopback a b c d || v4_is_private a b c d || v4_is_link_local a b c d
      || v4_is_broadcast a b c d || v4_is_documentation a b c d || v4_is_unspecified a b c d
  | V6 s0 _ _ _ _ _ _ _ =>
      v6_is_loopback ip || v6_is_unspecified ip
      || (N.land s0 65024 =? 64512) || (N.land s0 65472 =? 65152)
  end.

Definition validate_filter_url (url : str) : result unit UrlRejected :=
  try! parsed := ok_or (url_parse url) InvalidUrl in
  if (url_scheme parsed =s? "http") || (url_scheme parsed =s? "https") then
    try! host := ok_or (url_host_str parsed) NoHost in
    match parse_ip host with
    | Some ip => if is_private_ip ip then Err PrivateIp else Ok tt
    | None => Ok tt
    end
  else Err DisallowedScheme.

(** [client.get(url).send()] *)
Definition send (url : str) : M SyncState FetchError Response := fun s =>
  (ok_or (http_get (requests s) url) SendFailed,
   {| requests := requests s ++ [url]; sync_db := sync_db s |}).

Definition fetch_remote_filter (url : str) : M SyncState FetchError str :=
  lift (map_err Rejected (validate_filter_url url)) ;;;
  let! response := send url in
  if negb (rs_success response) then fail HttpStatus
  else if (match rs_content_length response with Some len => MAX_RESPONSE_SIZE <? len | None => false end) then
    fail TooLarge
  else
    let! bytes := lift (ok_or (rs_bytes response) BodyFailed) in
    if MAX_RESPONSE_SIZE <? N.of_nat (length bytes) then fail TooLarge
    else lift (ok_or (from_utf8 bytes) NotUtf8).

(** ** Reading a list *)

Definition ADGUARD_DOMAIN_RULE : str :=
  lit "^\|\|([a-zA-Z0-9][a-zA-Z0-9_.-]*[a-zA-Z0-9])(?:[\^$].*)?$".
Definition ADGUARD_EXCEPTION : str :=
  lit "^@@\|\|([a-zA-Z0-9][a-zA-Z0-9_.-]*[a-zA-Z0-9])(?:[\^$].*)?$".

Inductive line_rule := BlockRule (r : str) | AllowRule (r : str) | NoRule.

Definition block_domain (d : str) : str := lit "||" ++ d ++ lit "^".
Definition allow_domain (d : str) : str := lit "@@||" ++ d ++ lit "^".

(** One trimmed line. *)
Definition adguard_line (line : str) : line_rule :=
  if is_empty line || starts_with_char line bang || starts_with_char line hash then NoRule
  else if contains_str line "##" || contains_str line "#@#" || contains_str line "#%#" then NoRule
  else if starts_with_char line slash && ends_with_char line slash then NoRule
  else if starts_with_char line dot && (1 <? len line) then
    let inner := tl line in
    let domain_str := trim_end_char (split_first (split_first inner caret) dollar) dot in
    if contains_char domain_str dot && negb (is_empty domain_str) then BlockRule (block_domain domain_str)
    else NoRule
  else match captures1 ADGUARD_EXCEPTION line with
  | Some domain => AllowRule (allow_domain domain)
  | None =>
  match captures1 ADGUARD_DOMAIN_RULE line with
  | Some domain => BlockRule (block_domain domain)
  | None =>
      if starts_with line "@@||" && contains_char line star then AllowRule line
      else if starts_with line "||" && contains_char line star then BlockRule line
      else if negb (contains_any line (fun c => (c =? slash) || (c =? colon) || (c =? star) || (c =? bar))) then
        let stripped := trim_end_by (fun c => (c =? caret) || (c =? dollar)) line in
        if negb (contains_char stripped caret) && contains_char stripped dot
           && negb (starts_with_char stripped dot) && negb (ends_with_char stripped dot)
        then BlockRule (block_domain stripped)
        else NoRule
      else NoRule
  end
  end.

(** The loop over the lines, with the two vectors it pushes to. *)
Definition push_rule (acc : list str * list str) (r : line_rule) : list str * list str :=
  match r with
  | BlockRule r => (fst acc ++ [r], snd acc)
  | AllowRule r => (fst acc, snd acc ++ [r])
  | NoRule => acc
  end.
Definition parse_adguard_rules (content : str) : list str * list str :=
  fold_left (fun acc line => push_rule acc (adguard_line (trim line))) (lines content) ([], []).

Definition hosts_line (line : str) : option str :=
  if is_empty line || starts_with_char line hash then None
  else match split_whitespace line with
  | _ :: domain :: _ =>
      if contains_char domain dot && negb (starts_with_char domain dot) && negb (ends_with_char domain dot)
         && forallb (fun c => is_alphanumeric c || (c =? dot) || (c =? hyphen) || (c =? underscore)) domain
      then Some (block_domain domain) else None
  | _ => None
  end.
Definition parse_hosts_rules (content : str) : list str :=
  filter_map (fun line => hosts_line (trim line)) (lines content).

(** More than half of the first hundred lines that are not blank and no
    comment begin with an address.  The quotient of two counts up to 100 is
    above 0.5 in floating point exactly when it is. *)
Definition is_hosts_format (content : str) : bool :=
  let counted := List.filter (fun line => negb (is_empty line || starts_with_char line hash))
                   (map trim (take 100 (lines content))) in
  let hosts_lines := length (List.filter (fun line =>
    match split_whitespace line with
    | first :: _ :: _ => match parse_ip first with Some _ => true | None => false end
    | _ => false
    end) counted) in
  (0 <? length counted)%nat && (length counted <? 2 * hosts_lines)%nat.

(** ** Storing *)

(** [INSERT .. ON CONFLICT (id) DO NOTHING] *)
Definition insert_row (rows : list CustomRule) (r : CustomRule) : list CustomRule :=
  if existsb (fun r' => cr_id r' =s? cr_id r) rows then rows else rows ++ [r].

Definition BATCH_SIZE : nat := 200.
Definition new_row (prefix now id rule : str) : CustomRule :=
  {| cr_id := id; cr_rule := rule; cr_comment := None; cr_is_enabled := true;
     cr_created_by := prefix; cr_created_at := now; cr_expires_at := None |}.

(** The rows of the rules from number [i] on; [uuid] gives the identifiers in
    the order they are drawn. *)
Fixpoint new_rows (prefix now : str) (uuid : nat -> str) (i : nat) (rules : list str) : list CustomRule :=
  match rules with
  | [] => []
  | r :: rules' => new_row prefix now (uuid i) r :: new_rows prefix now uuid (S i) rules'
  end.
Fixpoint insert_batches (prefix now : str) (uuid : nat -> str) (i : nat) (cs : list (list str))
    : M SyncState DbError unit :=
  match cs with
  | [] => ret tt
  | chunk :: cs' =>
      execute (fun t => Ok (tt, set_custom_rules t
        (fold_left insert_row (new_rows prefix now uuid i chunk) (custom_rules t)))) ;;;
      insert_batches prefix now uuid (i + length chunk) cs'
  end.

Definition rules_of (content : str) : list str :=
  let '(block_rules, allow_rules) :=
    if is_hosts_format content then (parse_hosts_rules content, []) else parse_adguard_rules content in
  block_rules ++ allow_rules.

Definition delete_rules (prefix : str) (t : Db) : Db :=
  set_custom_rules t (List.filter (fun r => negb (cr_created_by r =s? prefix)) (custom_rules t)).
Definition update_list (filter_id now : str) (n : Z) (t : Db) : Db :=
  set_filter_lists t (map (fun f =>
    if fl_id f =s? filter_id then
      {| fl_id := fl_id f; fl_name := fl_name f; fl_url := fl_url f; fl_is_enabled := fl_is_enabled f;
         fl_rule_count := n; fl_last_updated := Some now; fl_created_at := fl_created_at f;
         fl_update_interval_hours := fl_update_interval_hours f |}
    else f) (filter_lists t)).

Definition sync_filter_list (uuid : nat -> str) (now filter_id url : str) : M SyncState SyncError Z :=
  let! content := mmap_err FetchFailed (fetch_remote_filter url) in
  let all_rules := rules_of content in
  let filter_prefix := lit "filter:" ++ filter_id in
  mmap_err StoreFailed (transaction (
    execute (fun t => Ok (tt, delete_rules filter_prefix t)) ;;;
    insert_batches filter_prefix now uuid 0 (chunks BATCH_SIZE all_rules))) ;;;
  let inserted := Z.of_nat (length all_rules) in
  mmap_err MetadataFailed (execute (fun t => Ok (tt, update_list filter_id now inserted t))) ;;;
  ret inserted.

(** ** The guard of the download *)

(** [url::Host], and what the documentation says of [host_str]: the text of
    the host, where an IPv6 address stands in brackets. *)
Inductive Host := HDomain (d : str) | HIpv4 (a b c d : N) | HIpv6 (ip : IpAddr).
Class UrlDoc := {
  url_host : Url -> option Host;
  host_str_doc : forall u, url_host_str u =
    match url_host u with
    | Some (HDomain d) => Some d
    | Some (HIpv4 a b c d) => Some (show_v4 a b c d)
    | Some (HIpv6 ip) => Some (lit "[" ++ show_ip ip ++ lit "]")
    | None => None
    end;
  domain_doc : forall u d, url_host u = Some (HDomain d) -> parse_ip d = None;
  ipv4_doc : forall u a b c d, url_host u = Some (HIpv4 a b c d) -> a < 256 /\ b < 256 /\ c < 256 /\ d < 256;
}.

Lemma parse_ip_bracket s : parse_ip (lbracket :: s) = None.
Proof. reflexivity. Qed.

Lemma validate_alt `{!UrlDoc} url :
  is_ok (validate_filter_url url) = true <->
  exists u, url_parse url = Some u /\ (url_scheme u = lit "http" \/ url_scheme u = lit "https") /\
    match url_host u with
    | Some (HIpv4 a b c d) => is_private_ip (V4 a b c d) = false
    | Some _ => True
    | None => False
    end.
Proof.
  unfold validate_filter_url. destruct (url_parse url) as [u|]; simpl.
  2: { split; [done|]. by intros (u & ? & _). }
  destruct ((url_scheme u =s? "http") || (url_scheme u =s? "https")) eqn:Hs.
  2: { split; [done|]. apply orb_false_iff in Hs as [Hnot1%str_eqb_neq Hnot2%str_eqb_neq].
       intros (v & [= <-] & [?|?] & _); done. }
  assert (Hs' : url_scheme u = lit "http" \/ url_scheme u = lit "https").
  { apply orb_true_iff in Hs as [?%str_eqb_eq|?%str_eqb_eq]; auto. }
  rewrite host_str_doc. transitivity
    (match url_host u with Some (HIpv4 a b c d) => is_private_ip (V4 a b c d) = false | Some _ => True | None => False end).
  2: { split; [intros Hh; by exists u|]. by intros (v & [= <-] & _ & Hh). }
  destruct (url_host u) as [[d|a b c d|ip]|] eqn:Hh; cbn [ok_or].
  - by rewrite (domain_doc u d Hh).
  - destruct (ipv4_doc u a b c d Hh) as (? & ? & ? & ?). rewrite parse_show_v4 by done.
    by destruct (is_private_ip _).
  - change (lit "[" ++ show_ip ip ++ lit "]") with (lbracket :: show_ip ip ++ lit "]").
    by rewrite parse_ip_bracket.
  - done.
Qed.

(** C28: nothing is requested for a URL the guard rejects, one GET for any
    other.  The guard admits exactly the http and https URLs with a host that
    is not an IPv4 address of a private, loopback, link-local, broadcast,
    documentation or unspecified kind: the range checks for IPv6 never apply,
    since the host text of an IPv6 address carries brackets, so [::1] passes.
    A content that is accepted came with a success status, has at most 10 MB
    and is its UTF-8 decoding. *)
Theorem fetch_guarded `{!UrlDoc} url s r s' :
  fetch_remote_filter url s = (r, s') ->
  (is_ok (validate_filter_url url) = true <->
    exists u, url_parse url = Some u /\ (url_scheme u = lit "http" \/ url_scheme u = lit "https") /\
      match url_host u with
      | Some (HIpv4 a b c d) => is_private_ip (V4 a b c d) = false
      | Some _ => True
      | None => False
      end) /\
  requests s' = requests s ++ (if is_ok (validate_filter_url url) then [url] else []) /\
  sync_db s' = sync_db s /\
  forall content, r = Ok content ->
    is_ok (validate_filter_url url) = true /\
    exists resp bytes, http_get (requests s) url = Some resp /\ rs_success resp = true /\
      rs_bytes resp = Some bytes /\ N.of_nat (length bytes) <= MAX_RESPONSE_SIZE /\ from_utf8 bytes = Some content.
Proof.
  intros Hr. split; [apply validate_alt|]. revert Hr. unfold fetch_remote_filter, lift, bind, send, fail.
  destruct (validate_filter_url url) as [[]|e]; cbn [map_err is_ok].
  2: { intros [= <- <-]. rewrite app_nil_r. by split. }
  destruct (http_get (requests s) url) as [resp|]; cbn [ok_or]; [|intros [= <- <-]; by split].
  destruct (rs_success resp) eqn:Hsuc; cbn [negb]; [|intros [= <- <-]; by split].
  destruct (match rs_content_length resp with Some _ => _ | None => _ end); [intros [= <- <-]; by split|].
  destruct (rs_bytes resp) as [bytes|] eqn:Hbytes; cbn [ok_or]; [|intros [= <- <-]; by split].
  destruct (MAX_RESPONSE_SIZE <? N.of_nat (length bytes)) eqn:Hlen; intros [= <- <-]; [by split|].
  split; [done|]. split; [done|]. intros content Hc. split; [done|]. exists resp, bytes.
  destruct (from_utf8 bytes) as [t|]; [|done]. injection Hc as ->.
  by apply N.ltb_ge in Hlen.
Qed.

(** ** Reading back a written list *)

Definition rule_char (c : char) : bool :=
  is_ascii_digit c || is_ascii_alpha c || (c =? underscore) || (c =? dot) || (c =? hyphen).
Definition ascii_alnum (c : char) : bool := is_ascii_digit c || is_ascii_alpha c.

(** What the two patterns capture in a line: after the prefix, all characters
    of the class, of which the first and the last are letters or digits, up
    to the end or a separator. *)
Definition rule_domain (prefix line : str) : option str :=
  match strip_prefix line prefix with
  | Some r =>
      let d := take_while rule_char r in
      if (2 <=? length d)%nat
         && match d with c :: _ => ascii_alnum c | [] => false end
         && match rev d with c :: _ => ascii_alnum c | [] => false end
         && match drop_while rule_char r with [] => true | c :: _ => (c =? caret) || (c =? dollar) end
      then Some d else None
  | None => None
  end.

(** The documented meaning of the two patterns; the lines hold no line feed,
    which the dot does not match. *)
Class CapturesDoc := {
  captures_block : forall line, 10 ∉ line -> captures1 ADGUARD_DOMAIN_RULE line = rule_domain (lit "||") line;
  captures_allow : forall line, 10 ∉ line -> captures1 ADGUARD_EXCEPTION line = rule_domain (lit "@@||") line;
}.

(** A line of a list; the options of a rule begin with their separator. *)
Inductive entry :=
| EComment (t : str)
| EBlock (d opts : str)
| EAllow (d opts : str)
| ESubdomains (d : str)
| EPlain (d : str)
| EWildBlock (a b : str)
| EWildAllow (a b : str).

Definition entry_text (e : entry) : str :=
  match e with
  | EComment t => bang :: t
  | EBlock d opts => lit "||" ++ d ++ opts
  | EAllow d opts => lit "@@||" ++ d ++ opts
  | ESubdomains d => dot :: d ++ lit "^"
  | EPlain d => d
  | EWildBlock a b => lit "||" ++ a ++ star :: b
  | EWildAllow a b => lit "@@||" ++ a ++ star :: b
  end.
Definition entry_rule (e : entry) : line_rule :=
  match e with
  | EComment _ => NoRule
  | EBlock d _ | ESubdomains d | EPlain d => BlockRule (block_domain d)
  | EAllow d _ => AllowRule (allow_domain d)
  | EWildBlock _ _ => BlockRule (entry_text e)
  | EWildAllow _ _ => AllowRule (entry_text e)
  end.

Definition name (d : str) : Prop := str_is_ascii d = true /\ Rules.is_valid_domain d = true /\ dot ∈ d.
(** A text within a line that starts no cosmetic rule. *)
Definition inline (t : str) : Prop := lacks is_whitespace t /\ (hash ∉ t).
Definition options (t : str) : Prop :=
  inline t /\ match t with [] => True | c :: _ => c = caret \/ c = dollar end.
Definition entry_ok (e : entry) : Prop :=
  match e with
  | EComment t => (10 ∉ t) /\ (13 ∉ t)
  | EBlock d opts | EAllow d opts => name d /\ options opts
  | ESubdomains d | EPlain d => name d
  | EWildBlock a b | EWildAllow a b => forallb rule_char a = true /\ inline b
  end.

(** The text of a list, every line ended by a line feed. *)
Definition unlines (ls : list str) : str := concat (map (fun l => l ++ [10]) ls).

Lemma split_unlines ls : Forall (fun l => 10 ∉ l) ls -> split (unlines ls) 10 = ls ++ [[]].
Proof.
  induction 1 as [|l ls Hl _ IH]; [done|]. unfold unlines in *. cbn [map concat].
  rewrite <- app_assoc. cbn [app]. unfold split in *. rewrite split_by_app by (done || by apply lacks_char). rewrite IH.
  done.
Qed.

Lemma strip_cr_id l : 13 ∉ l -> strip_cr l = l.
Proof.
  intros Hl. unfold strip_cr. destruct (rev l) as [|c r] eqn:Hr; [done|].
  assert (c <> 13).
  { intros ->. apply Hl. rewrite <- (rev_involutive l), Hr. simpl. apply elem_of_app. right. by left. }
  by repeat case_match.
Qed.

Lemma lines_unlines ls : Forall (fun l => (10 ∉ l) /\ (13 ∉ l)) ls -> lines (unlines ls) = ls.
Proof.
  intros Hls. unfold lines. rewrite split_unlines by (eapply Forall_impl; [exact Hls|naive_solver]).
  induction Hls as [|l ls [_ Hcr] _ IH]; [done|].
  assert (lines_go ((l :: ls) ++ [[]]) = strip_cr l :: lines_go (ls ++ [[]])) as -> by (by destruct ls).
  by rewrite IH, strip_cr_id.
Qed.

Lemma contains_str_lacks s p c : c ∈ p -> c ∉ s -> contains_str s p = false.
Proof.
  intros Hp. induction s as [|d s IH]; intros Hs.
  - cbn [contains_str]. by destruct p; [apply not_elem_of_nil in Hp|].
  - cbn [contains_str]. rewrite IH by set_solver. rewrite orb_false_r.
    apply not_true_iff_false. rewrite starts_with_true. intros [r Hr]. apply Hs. rewrite Hr. set_solver.
Qed.

Lemma not_cosmetic line :
  hash ∉ line -> contains_str line "##" || contains_str line "#@#" || contains_str line "#%#" = false.
Proof. intros Hl. by rewrite !(contains_str_lacks _ _ hash) by (done || by left). Qed.

Lemma take_while_app {A} (p : A -> bool) l c r :
  forallb p l = true -> p c = false -> take_while p (l ++ c :: r) = l /\ drop_while p (l ++ c :: r) = c :: r.
Proof.
  intros Hl Hc. induction l as [|a l IH]; simpl in *; [by rewrite Hc|].
  apply andb_true_iff in Hl as [-> Hl]. destruct (IH Hl) as [-> ->]. done.
Qed.
Lemma take_while_all {A} (p : A -> bool) l : forallb p l = true -> take_while p l = l /\ drop_while p l = [].
Proof.
  induction l as [|a l IH]; simpl; [done|]. intros [-> Hl]%andb_true_iff. by destruct (IH Hl) as [-> ->].
Qed.

Lemma split_ends d c k :
  d = k ++ [c] -> c <> dot -> exists w, (w ++ [c]) ∈ split d dot.
Proof.
  intros -> Hc. induction k as [|a k [w Hw]].
  - exists []. unfold split. cbn [app split_by]. rewrite (proj2 (N.eqb_neq dot c)) by done. by left.
  - unfold split in *. cbn [app split_by]. destruct (dot =? a); [exists w; by right|].
    destruct (split_by (N.eqb dot) (k ++ [c])) as [|w' ws]; [by apply not_elem_of_nil in Hw|].
    apply elem_of_cons in Hw as [<-|Hw]; [exists (a :: w); by left|exists w; by right].
Qed.

Section names.
Variable d : str.
Hypothesis Hd : name d.

Lemma name_special : lacks Rules.special d.
Proof. destruct Hd as (Ha & Hv & _). by apply Rules.valid_domain_plain. Qed.
Lemma name_whitespace : lacks is_whitespace d.
Proof. apply Rules.special_whitespace, name_special. Qed.
Lemma name_not_in c : Rules.special c = true -> c ∉ d.
Proof. apply Rules.special_not_elem, name_special. Qed.

Lemma name_char c : c ∈ d -> c = dot \/ ascii_alnum c = true \/ c = hyphen.
Proof.
  destruct Hd as (Ha & Hv & _). intros Hc.
  destruct (Rules.valid_domain_chars d c Hv Hc) as [->|Hal]; [by left|right].
  apply orb_true_iff in Hal as [Hal|?%N.eqb_eq]; [left|by right].
  unfold is_alphanumeric in Hal. rewrite (str_is_ascii_elem d c Ha Hc) in Hal. exact Hal.
Qed.

Lemma name_rule_chars : forallb rule_char d = true.
Proof.
  rewrite forallb_forall. intros c Hc. apply list_elem_of_In in Hc. unfold rule_char.
  destruct (name_char c Hc) as [->|[Hal| ->]]; [done| |done]. unfold ascii_alnum in Hal. by rewrite Hal.
Qed.

Lemma name_nonempty : exists c r, d = c :: r.
Proof. destruct Hd as (_ & _ & Hdot). apply nonempty_cons. intros Hnil. by rewrite Hnil in Hdot; apply not_elem_of_nil in Hdot. Qed.

Lemma name_head : exists c r, d = c :: r /\ ascii_alnum c = true.
Proof.
  destruct name_nonempty as (c & r & Hcr). exists c, r. split; [done|].
  destruct Hd as (_ & Hv & _). rewrite Hcr in Hv.
  destruct (Rules.valid_domain_no_front c r Hv) as [Hnd Hnh].
  destruct (name_char c) as [?|[?|?]]; try done. rewrite Hcr. by left.
Qed.

Lemma name_last : exists c r, rev d = c :: r /\ ascii_alnum c = true.
Proof.
  destruct Hd as (Ha & Hv & Hdot). destruct (rev d) as [|c r] eqn:Heq.
  { exfalso. destruct name_nonempty as (c & r & Hcr). apply (f_equal (@rev _)) in Heq.
    by rewrite rev_involutive, Hcr in Heq. }
  assert (Hdc : d = rev r ++ [c]) by (by rewrite <- (rev_involutive d), Heq).
  exists c, r. split; [done|].
  destruct (name_char c) as [->|[?| ->]]; [rewrite Hdc; apply elem_of_app; right; by left| |done|].
  - exfalso. by eapply Rules.valid_domain_no_end_dot.
  - exfalso. destruct (split_ends d hyphen (rev r) Hdc ltac:(done)) as [w Hw].
    pose proof (Rules.valid_domain_labels d _ Hv Hw) as Hl. unfold Rules.is_valid_label in Hl. split_bools.
    match goal with Hn : context [ends_with_char _ hyphen] |- _ =>
      unfold ends_with_char in Hn; rewrite rev_app_distr in Hn; done end.
Qed.

Lemma name_long : (2 <=? length d)%nat = true.
Proof.
  destruct name_head as (c & r & Hcr & Hc). destruct Hd as (_ & _ & Hdot). rewrite Hcr in *.
  destruct r; [|done]. apply list_elem_of_singleton in Hdot. by subst c.
Qed.

Lemma rule_domain_name prefix opts :
  options opts -> rule_domain prefix (prefix ++ d ++ opts) = Some d.
Proof.
  intros [_ Ho]. unfold rule_domain. rewrite strip_prefix_app.
  assert (take_while rule_char (d ++ opts) = d /\ drop_while rule_char (d ++ opts) = opts) as [-> ->].
  { destruct opts as [|o opts].
    - rewrite app_nil_r. apply take_while_all, name_rule_chars.
    - apply take_while_app; [apply name_rule_chars|]. by destruct Ho as [->| ->]. }
  destruct name_head as (c & r & Hcr & Hc), name_last as (c' & r' & Hcr' & Hc').
  rewrite name_long, Hcr', Hc'. rewrite Hcr at 1. rewrite Hc. cbn [andb].
  destruct opts as [|o opts]; [done|]. by destruct Ho as [->| ->].
Qed.

End names.

Lemma drop_while_snoc {A} (p : A -> bool) l c : p c = false -> exists k, drop_while p (l ++ [c]) = k ++ [c].
Proof.
  intros Hc. induction l as [|a l [k IH]]; simpl; [rewrite Hc; by exists []|].
  destruct (p a); [by exists k|by exists (a :: l)].
Qed.
Lemma trim_cons c s : is_whitespace c = false -> exists k, trim (c :: s) = c :: k.
Proof.
  intros Hc. unfold trim, trim_start_by, trim_end_by. cbn [drop_while]. rewrite Hc. cbn [rev].
  destruct (drop_while_snoc is_whitespace (rev s) c Hc) as [k ->]. rewrite rev_app_distr. by eexists.
Qed.

Lemma alnum_neqb c k : ascii_alnum c = true -> ascii_alnum k = false -> (c =? k) = false.
Proof. intros Hc Hk. apply N.eqb_neq. intros ->. congruence. Qed.

Lemma rule_char_plain c :
  rule_char c = true -> is_whitespace c = false /\ c <> hash /\ c <> star.
Proof.
  unfold rule_char, is_whitespace, is_ascii_alpha, is_ascii_digit, is_ascii_upper, is_ascii_lower. intros Hc.
  split; [lia|]. split; intros ->; done.
Qed.
Lemma rule_chars_plain a : forallb rule_char a = true -> inline a.
Proof.
  rewrite forallb_forall. intros Ha. split.
  - intros c Hc. by apply rule_char_plain, Ha, list_elem_of_In.
  - intros Hin. apply list_elem_of_In, Ha in Hin. done.
Qed.

Lemma inline_app s t : inline s -> inline t -> inline (s ++ t).
Proof. intros [Hs Hs'] [Ht Ht']. split; [by apply lacks_app|]. rewrite elem_of_app. tauto. Qed.
Lemma inline_cons c s : is_whitespace c = false -> c <> hash -> inline s -> inline (c :: s).
Proof. intros Hc Hh [Hs Hs']. split; [by apply lacks_cons|]. rewrite elem_of_cons. intros [?|?]; [by subst c|done]. Qed.
Lemma inline_name d : name d -> inline d.
Proof. intros Hd. split; [by apply name_whitespace|by apply (name_not_in d Hd)]. Qed.
Lemma inline_no_feed s : inline s -> 10 ∉ s.
Proof. intros [Hs _] Hin. by apply Hs in Hin. Qed.
Lemma inline_no_return s : inline s -> 13 ∉ s.
Proof. intros [Hs _] Hin. by apply Hs in Hin. Qed.

Lemma entry_inline e : entry_ok e -> match e with EComment _ => True | _ => inline (entry_text e) end.
Proof.
  assert (Hb : inline (lit "||")) by (split; [by apply lacks_forallb|by apply contains_char_false]).
  assert (Ha : inline (lit "@@||")) by (split; [by apply lacks_forallb|by apply contains_char_false]).
  destruct e as [t|d o|d o|d|d|a b|a b]; cbn [entry_ok entry_text]; [done|..].
  - intros [Hd [Ho _]]. by repeat apply inline_app; [|apply inline_name|].
  - intros [Hd [Ho _]]. by repeat apply inline_app; [|apply inline_name|].
  - intros Hd. apply inline_cons; [done|done|]. apply inline_app; [by apply inline_name|].
    split; [by apply lacks_forallb|by apply contains_char_false].
  - apply inline_name.
  - intros [Hr Hb']. apply inline_app; [done|]. apply inline_app; [by apply rule_chars_plain|]. by apply inline_cons.
  - intros [Hr Hb']. apply inline_app; [done|]. apply inline_app; [by apply rule_chars_plain|]. by apply inline_cons.
Qed.

Lemma rule_domain_star prefix a b :
  forallb rule_char a = true -> rule_domain prefix (prefix ++ a ++ star :: b) = None.
Proof.
  intros Ha. unfold rule_domain. rewrite strip_prefix_app.
  destruct (take_while_app rule_char a star b Ha eq_refl) as [-> ->]. by rewrite !andb_false_r.
Qed.

(** The tests before the captures, on a line that begins with neither. *)
Lemma adguard_line_rules line :
  inline line ->
  match line with c :: _ => c <> bang /\ c <> slash /\ c <> dot | [] => False end ->
  adguard_line line =
  match captures1 ADGUARD_EXCEPTION line with
  | Some domain => AllowRule (allow_domain domain)
  | None =>
  match captures1 ADGUARD_DOMAIN_RULE line with
  | Some domain => BlockRule (block_domain domain)
  | None =>
      if starts_with line "@@||" && contains_char line star then AllowRule line
      else if starts_with line "||" && contains_char line star then BlockRule line
      else if negb (contains_any line (fun c => (c =? slash) || (c =? colon) || (c =? star) || (c =? bar))) then
        let stripped := trim_end_by (fun c => (c =? caret) || (c =? dollar)) line in
        if negb (contains_char stripped caret) && contains_char stripped dot
           && negb (starts_with_char stripped dot) && negb (ends_with_char stripped dot)
        then BlockRule (block_domain stripped)
        else NoRule
      else NoRule
  end
  end.
Proof.
  intros [_ Hh] Hc. unfold adguard_line. rewrite not_cosmetic by done.
  destruct line as [|c r]; [done|]. destruct Hc as (Hb & Hs & Hd).
  cbn [is_empty starts_with_char]. rewrite (proj2 (N.eqb_neq c bang) Hb), (proj2 (N.eqb_neq c slash) Hs), (proj2 (N.eqb_neq c dot) Hd).
  rewrite (proj2 (N.eqb_neq c hash)) by (intros ->; apply Hh; by left). reflexivity.
Qed.

Lemma adguard_dots d : name d -> adguard_line (dot :: d ++ lit "^") = BlockRule (block_domain d).
Proof.
  intros Hd. unfold adguard_line.
  rewrite not_cosmetic.
  2: { intros [?|[Hin|?%list_elem_of_singleton]%elem_of_app]%elem_of_cons; try done. by apply (name_not_in d Hd) in Hin. }
  cbn [is_empty starts_with_char tl]. change (lit "^") with [caret].
  assert ((1 <? len (dot :: d ++ [caret])) = true) as ->.
  { unfold len. cbn [fold_right]. destruct (name_nonempty d Hd) as (c & r & ->). cbn [app fold_right].
    change (len_utf8 dot) with 1. assert (1 <= len_utf8 c) by (unfold len_utf8; repeat case_match; lia).
    apply N.ltb_lt. lia. }
  cbn [N.eqb Pos.eqb andb orb].
  rewrite split_first_app by (by apply (name_not_in d Hd)). rewrite split_first_id by (by apply (name_not_in d Hd)).
  destruct Hd as (_ & Hv & Hdot). rewrite Rules.valid_domain_trim_dots by done.
  apply contains_char_true in Hdot. rewrite Hdot.
  destruct (is_empty d) eqn:He; [|done]. apply is_empty_true in He as ->. done.
Qed.

Section captures.
Context `{!CapturesDoc}.

Lemma adguard_plain d : name d -> adguard_line d = BlockRule (block_domain d).
Proof.
  intros Hd. pose proof (inline_name d Hd) as Hi. destruct (name_head d Hd) as (c & r & Hcr & Hc).
  rewrite adguard_line_rules; [|done|].
  2: { rewrite Hcr. repeat split; intros ->; done. }
  rewrite captures_allow, captures_block by (by apply inline_no_feed).
  assert (strip_prefix d (lit "||") = None) as Hbar.
  { rewrite Hcr. apply strip_prefix_lit_ne. by intros ->. }
  assert (strip_prefix d (lit "@@||") = None) as Hat.
  { rewrite Hcr. apply strip_prefix_lit_ne. by intros ->. }
  unfold rule_domain, starts_with. rewrite Hat, Hbar. cbn [andb].
  assert (contains_any d (fun c => (c =? slash) || (c =? colon) || (c =? star) || (c =? bar)) = false) as ->.
  { apply not_true_iff_false. unfold contains_any. rewrite existsb_exists. intros (x & Hx & Hxx).
    apply list_elem_of_In in Hx. revert Hx. apply (name_not_in d Hd). revert Hxx. unfold Rules.special. cbn [existsb]. lia. }
  cbn [negb]. rewrite trim_end_by_lacks.
  2: { intros x Hx. apply not_true_iff_false. intros Hxx. revert Hx. apply (name_not_in d Hd).
       revert Hxx. unfold Rules.special. cbn [existsb]. lia. }
  rewrite (proj2 (contains_char_false d caret)) by (by apply (name_not_in d Hd)).
  rewrite (proj2 (contains_char_true d dot)) by apply Hd.
  assert (starts_with_char d dot = false) as ->.
  { rewrite Hcr. cbn [starts_with_char]. by apply alnum_neqb. }
  assert (ends_with_char d dot = false) as ->; [|done].
  { unfold ends_with_char. destruct (name_last d Hd) as (c' & r' & -> & Hc'). cbn [starts_with_char]. by apply alnum_neqb. }
Qed.

(** Every entry is read as the rule it is meant to be. *)
Lemma adguard_entry e : entry_ok e -> adguard_line (trim (entry_text e)) = entry_rule e.
Proof.
  intros He. pose proof (entry_inline e He) as Hi.
  destruct e as [t|d o|d o|d|d|a b|a b]; cbn [entry_ok entry_text entry_rule] in *.
  - destruct (trim_cons bang t eq_refl) as [k ->]. reflexivity.
  - destruct He as [Hd Ho]. rewrite trim_lacks by apply Hi. rewrite adguard_line_rules by done.
    rewrite captures_allow, captures_block by (by apply inline_no_feed).
    rewrite (rule_domain_name d Hd (lit "||") o Ho). reflexivity.
  - destruct He as [Hd Ho]. rewrite trim_lacks by apply Hi. rewrite adguard_line_rules by done.
    rewrite captures_allow by (by apply inline_no_feed).
    by rewrite (rule_domain_name d Hd (lit "@@||") o Ho).
  - rewrite trim_lacks by apply Hi. by apply adguard_dots.
  - rewrite trim_lacks by apply Hi. by apply adguard_plain.
  - destruct He as [Ha Hb]. rewrite trim_lacks by apply Hi. rewrite adguard_line_rules by done.
    rewrite captures_allow, captures_block by (by apply inline_no_feed).
    rewrite (rule_domain_star (lit "||") a b Ha).
    assert (contains_char (lit "||" ++ a ++ star :: b) star = true) as Hst.
    { apply contains_char_true. rewrite !elem_of_app. right. right. by left. }
    rewrite Hst.
    assert (rule_domain (lit "@@||") (lit "||" ++ a ++ star :: b) = None) as -> by reflexivity.
    assert (starts_with (lit "||" ++ a ++ star :: b) (lit "@@||") = false) as -> by reflexivity.
    assert (starts_with (lit "||" ++ a ++ star :: b) (lit "||") = true) as -> by (apply starts_with_true; by eexists).
    reflexivity.
  - destruct He as [Ha Hb]. rewrite trim_lacks by apply Hi. rewrite adguard_line_rules by done.
    rewrite captures_allow, captures_block by (by apply inline_no_feed).
    rewrite (rule_domain_star (lit "@@||") a b Ha).
    assert (contains_char (lit "@@||" ++ a ++ star :: b) star = true) as Hst.
    { apply contains_char_true. rewrite !elem_of_app. right. right. by left. }
    rewrite Hst.
    assert (rule_domain (lit "||") (lit "@@||" ++ a ++ star :: b) = None) as -> by reflexivity.
    assert (starts_with (lit "@@||" ++ a ++ star :: b) (lit "@@||") = true) as -> by (apply starts_with_true; by eexists).
    reflexivity.
Qed.

Definition block_part (r : line_rule) : option str := match r with BlockRule r => Some r | _ => None end.
Definition allow_part (r : line_rule) : option str := match r with AllowRule r => Some r | _ => None end.

Lemma push_all rs acc :
  fold_left push_rule rs acc = (fst acc ++ filter_map block_part rs, snd acc ++ filter_map allow_part rs).
Proof.
  revert acc. induction rs as [|r rs IH]; intros [b a]; cbn [fold_left filter_map fst snd]; [by rewrite !app_nil_r|].
  rewrite IH. destruct r; cbn [push_rule block_part allow_part fst snd]; by rewrite <- ?app_assoc.
Qed.

Lemma parse_written es :
  Forall entry_ok es ->
  parse_adguard_rules (unlines (map entry_text es))
  = (filter_map block_part (map entry_rule es), filter_map allow_part (map entry_rule es)).
Proof.
  intros Hes. unfold parse_adguard_rules. rewrite lines_unlines.
  2: { apply Forall_forall. intros l [e [-> He]]%list_elem_of_fmap. rewrite Forall_forall in Hes. specialize (Hes e He).
       pose proof (entry_inline e Hes) as Hi. destruct e as [t| | | | | |]; simpl in Hi, Hes |- *.
       1: { rewrite !elem_of_cons. destruct Hes. naive_solver. }
       all: split; [by apply inline_no_feed|by apply inline_no_return]. }
  assert (Hfold : forall es acc, Forall entry_ok es ->
    fold_left (fun acc line => push_rule acc (adguard_line (trim line))) (map entry_text es) acc
    = fold_left push_rule (map entry_rule es) acc).
  { clear es Hes. induction es as [|e es IH]; intros acc; [done|]. intros [He Hes]%Forall_cons.
    cbn [map fold_left]. by rewrite adguard_entry, IH. }
  by rewrite Hfold, push_all.
Qed.

(** *** The rules in a rule set *)

Definition blocked_names (es : list entry) : list str :=
  filter_map (fun e => match e with EBlock d _ | ESubdomains d | EPlain d => Some d | _ => None end) es.
Definition allowed_names (es : list entry) : list str :=
  filter_map (fun e => match e with EAllow d _ => Some d | _ => None end) es.
Definition no_wildcard (e : entry) : Prop :=
  match e with EWildBlock _ _ | EWildAllow _ _ => False | _ => True end.

Definition lowered (ds : list str) : gset str := list_to_set (map to_lowercase ds).

Lemma load_blocks ds rs n :
  Forall name ds ->
  exists m, fold_left Rules.add_step (map block_domain ds) (rs, n)
    = (Rules.set_blocked rs (lowered ds ∪ Rules.blocked rs), m).
Proof.
  intros Hds. revert rs n. induction Hds as [|d ds (Ha & Hv & _) _ IH]; intros rs n.
  - exists n. simpl. unfold lowered. simpl. rewrite (left_id_L ∅ (∪)). by destruct rs.
  - cbn [map fold_left]. unfold block_domain at 2. unfold Rules.add_step at 2. rewrite Rules.add_rule_caret by done.
    destruct (IH (Rules.insert_blocked rs (to_lowercase d)) (n + 1)) as [m ->]. exists m. f_equal.
    unfold Rules.insert_blocked, Rules.set_blocked, lowered. simpl. f_equal. set_solver.
Qed.

Lemma load_allows ds rs n :
  Forall name ds ->
  exists m, fold_left Rules.add_step (map allow_domain ds) (rs, n)
    = (Rules.set_allowed rs (lowered ds ∪ Rules.allowed rs), m).
Proof.
  intros Hds. revert rs n. induction Hds as [|d ds (Ha & Hv & _) _ IH]; intros rs n.
  - exists n. simpl. unfold lowered. simpl. rewrite (left_id_L ∅ (∪)). by destruct rs.
  - cbn [map fold_left]. unfold allow_domain at 2. unfold Rules.add_step at 2. rewrite Rules.add_rule_allow by done.
    destruct (IH (Rules.set_allowed rs ({[to_lowercase d]} ∪ Rules.allowed rs)) (n + 1)) as [m ->]. exists m. f_equal.
    unfold Rules.set_allowed, lowered. simpl. f_equal. set_solver.
Qed.

Lemma rules_no_wildcard es :
  Forall no_wildcard es ->
  filter_map block_part (map entry_rule es) = map block_domain (blocked_names es) /\
  filter_map allow_part (map entry_rule es) = map allow_domain (allowed_names es).
Proof.
  unfold blocked_names, allowed_names. induction 1 as [|e es He _ [IHb IHa]]; [done|].
  destruct e; cbn [map filter_map entry_rule block_part allow_part]; try done; rewrite IHb, IHa; by split.
Qed.

Lemma names_ok es : Forall entry_ok es -> Forall name (blocked_names es) /\ Forall name (allowed_names es).
Proof.
  unfold blocked_names, allowed_names. induction 1 as [|e es He _ [IHb IHa]]; [by split|].
  destruct e; cbn [filter_map entry_ok] in *; split; try assumption; (constructor; [apply He|assumption]).
Qed.

Lemma matches_lowered q ds : Rules.matches_set q (lowered ds) = true <->
  exists d, d ∈ ds /\ Rules.under q (to_lowercase d).
Proof.
  rewrite Rules.matches_set_alt. unfold lowered. setoid_rewrite elem_of_list_to_set. setoid_rewrite list_elem_of_fmap.
  naive_solver.
Qed.

(** a list written of comments, block and exception rules with options,
    leading-dot rules, plain names and wildcard rules is read back as exactly
    their rules, in order; and the rule set built of them, when none is a
    wildcard, allows exactly the names under an exception, and blocks exactly
    the others under a blocked name. *)
Theorem subscription_effect es :
  Forall entry_ok es ->
  parse_adguard_rules (unlines (map entry_text es))
    = (filter_map block_part (map entry_rule es), filter_map allow_part (map entry_rule es)) /\
  forall q, Forall no_wildcard es ->
    let parsed := parse_adguard_rules (unlines (map entry_text es)) in
    let rs := Rules.build (fst (Rules.add_rules Rules.new (fst parsed ++ snd parsed))) in
    let covered ds := exists d, d ∈ ds /\ Rules.under (Rules.query_name q) (to_lowercase d) in
    (Rules.match_domain rs q = Allowed <-> covered (allowed_names es)) /\
    (Rules.match_domain rs q = Blocked <-> ~ covered (allowed_names es) /\ covered (blocked_names es)).
Proof.
  intros Hes. split; [by apply parse_written|]. intros q Hno. cbn zeta. rewrite parse_written by done.
  destruct (rules_no_wildcard es Hno) as [-> ->]. destruct (names_ok es Hes) as [Hb Ha]. cbn [fst snd].
  unfold Rules.add_rules. rewrite fold_left_app.
  destruct (load_blocks _ Rules.new 0 Hb) as [n ->].
  destruct (load_allows _ (Rules.set_blocked Rules.new (lowered (blocked_names es) ∪ Rules.blocked Rules.new)) n Ha) as [m ->].
  cbn [fst]. rewrite Rules.match_domain_alt. cbn zeta.
  cbn [Rules.build Rules.set_wildcard_blocked Rules.set_wildcard_allowed Rules.set_allowed Rules.set_blocked Rules.new
       Rules.blocked Rules.allowed Rules.wildcard_blocked_patterns Rules.wildcard_allowed_patterns
       Rules.wildcard_blocked_set Rules.wildcard_allowed_set Rules.block_all Rules.compile Rules.matches_wildcard_set].
  rewrite !(right_id_L ∅ (∪)), !orb_false_r. rewrite <- !matches_lowered. cbn [orb].
  destruct (Rules.matches_set _ (lowered (allowed_names es))), (Rules.matches_set _ (lowered (blocked_names es))); naive_solver.
Qed.

End captures.

(** ** Storing *)

Lemma fetch_state url s :
  snd (fetch_remote_filter url s)
  = {| requests := requests s ++ (if is_ok (validate_filter_url url) then [url] else []); sync_db := sync_db s |}.
Proof.
  unfold fetch_remote_filter, lift, bind, send, fail.
  destruct (validate_filter_url url) as [[]|e]; cbn [map_err is_ok].
  - destruct (http_get (requests s) url) as [resp|]; cbn [ok_or]; [|done].
    destruct (rs_success resp); [|done]. cbn [negb].
    destruct (match rs_content_length resp with Some _ => _ | None => _ end); [done|].
    destruct (rs_bytes resp) as [bytes|]; cbn [ok_or]; [|done]. by destruct (_ <? _).
  - rewrite app_nil_r. by destruct s.
Qed.

Lemma new_rows_app prefix now uuid i l1 l2 :
  new_rows prefix now uuid i (l1 ++ l2)
  = new_rows prefix now uuid i l1 ++ new_rows prefix now uuid (i + length l1)%nat l2.
Proof.
  revert i. induction l1 as [|r l1 IH]; intros i; cbn [app new_rows length]; [by rewrite Nat.add_0_r|].
  by rewrite IH, Nat.add_succ_comm.
Qed.

Lemma new_rows_ids prefix now uuid i rules :
  map cr_id (new_rows prefix now uuid i rules) = map uuid (seq i (length rules)).
Proof. revert i. induction rules as [|r rules IH]; intros i; [done|]. simpl. by rewrite IH. Qed.

Lemma insert_rows_fresh rows old :
  NoDup (map cr_id rows) -> (forall r, r ∈ rows -> cr_id r ∉ map cr_id old) ->
  fold_left insert_row rows old = old ++ rows.
Proof.
  revert old. induction rows as [|r rows IH]; intros old Hnd Hf; [by rewrite app_nil_r|].
  simpl in Hnd. apply NoDup_cons in Hnd as [Hr Hnd]. cbn [fold_left]. unfold insert_row at 2.
  assert (existsb (fun r' => cr_id r' =s? cr_id r) old = false) as ->.
  { apply not_true_iff_false. rewrite existsb_exists. intros (r' & Hin & Heq%str_eqb_eq).
    apply (Hf r); [by left|]. rewrite <- Heq. apply list_elem_of_fmap. exists r'. split; [done|]. by apply list_elem_of_In. }
  rewrite IH; [by rewrite <- app_assoc|done|]. intros r' Hin. rewrite map_app, elem_of_app.
  intros [Hold|Hnew%list_elem_of_singleton]; [by apply (Hf r'); [right|]|].
  apply Hr. rewrite <- Hnew. apply list_elem_of_fmap. by exists r'.
Qed.

Lemma set_custom_rules_id t : set_custom_rules t (custom_rules t) = t.
Proof. by destruct t. Qed.

Lemma batches_Ok prefix now uuid i cs s u s' :
  insert_batches prefix now uuid i cs s = (Ok u, s') ->
  tables (db_of s') = set_custom_rules (tables (db_of s))
    (fold_left insert_row (new_rows prefix now uuid i (concat cs)) (custom_rules (tables (db_of s)))).
Proof.
  revert i s. induction cs as [|c cs IH]; intros i s; cbn [insert_batches concat].
  - intros [= _ <-]. by rewrite set_custom_rules_id.
  - intros (u' & s1 & He & Hb)%bind_Ok. apply execute_Ok in He as [[= _ He] _].
    apply IH in Hb. rewrite Hb. cbn [db_of SyncState_HasDb] in *. rewrite <- He. cbn [custom_rules set_custom_rules].
    by rewrite new_rows_app, fold_left_app.
Qed.

Lemma batches_frames prefix now uuid i cs : frames (insert_batches prefix now uuid i cs).
Proof.
  revert i. induction cs as [|c cs IH]; intros i; cbn [insert_batches].
  - apply frames_reads, reads_ret.
  - apply frames_bind; [apply frames_execute|done].
Qed.

Lemma batches_works prefix now uuid i cs s :
  db_works s -> exists t, runs (insert_batches prefix now uuid i cs) s (Ok tt) t.
Proof.
  revert i s. induction cs as [|c cs IH]; intros i s Hs; cbn [insert_batches].
  - eexists. apply runs_ret.
  - destruct (runs_execute (fun t => Ok (tt, set_custom_rules t
      (fold_left insert_row (new_rows prefix now uuid i c) (custom_rules t)))) s Hs) as [n Hn].
    unfold runs at 1. unfold bind. rewrite Hn. set (s1 := with_db s _).
    destruct (IH (i + length c)%nat s1) as (t & n' & Hn').
    { intros k. apply Hs. }
    exists t, n'. rewrite Hn'. done.
Qed.

(** The rules of every other origin. *)
Definition kept_rules (prefix : str) (t : Db) : list CustomRule :=
  List.filter (fun r => negb (cr_created_by r =s? prefix)) (custom_rules t).
(** The rules of a content are stored in place of those of the list. *)
Definition stored (filter_id content : str) (t t' : Db) : Prop :=
  let prefix := lit "filter:" ++ filter_id in
  exists rows, t' = set_custom_rules t (kept_rules prefix t ++ rows) /\ map cr_rule rows = rules_of content /\
    Forall (fun r => cr_created_by r = prefix /\ cr_is_enabled r = true /\ cr_expires_at r = None) rows.
(** A list row with its count and time. *)
Definition counted (n : Z) (now : str) (f : FilterList) : FilterList :=
  {| fl_id := fl_id f; fl_name := fl_name f; fl_url := fl_url f; fl_is_enabled := fl_is_enabled f;
     fl_rule_count := n; fl_last_updated := Some now; fl_created_at := fl_created_at f;
     fl_update_interval_hours := fl_update_interval_hours f |}.

Lemma new_rows_rules prefix now uuid i rules :
  map cr_rule (new_rows prefix now uuid i rules) = rules /\
  Forall (fun r => cr_created_by r = prefix /\ cr_is_enabled r = true /\ cr_expires_at r = None)
    (new_rows prefix now uuid i rules).
Proof.
  revert i. induction rules as [|r rules IH]; intros i; [by split|]. destruct (IH (S i)) as [Hr Hf].
  cbn [new_rows map]. split; [by rewrite Hr|by constructor].
Qed.

(** The identifiers drawn for [n] rows are new and different. *)
Definition fresh_ids (uuid : nat -> str) (n : nat) (rows : list CustomRule) : Prop :=
  NoDup (map uuid (seq 0 n)) /\ forall r, r ∈ rows -> cr_id r ∉ map uuid (seq 0 n).

Lemma fresh_rows prefix now uuid rules old :
  fresh_ids uuid (length rules) old ->
  fold_left insert_row (new_rows prefix now uuid 0 rules) old = old ++ new_rows prefix now uuid 0 rules.
Proof.
  intros [Hnd Hf]. apply insert_rows_fresh; rewrite ?new_rows_ids; [done|].
  intros r Hr [r' [Heq Hr']]%list_elem_of_fmap. apply (Hf r' Hr'). rewrite <- Heq, <- (new_rows_ids prefix now).
  apply list_elem_of_fmap. by exists r.
Qed.

Lemma store_Ok uuid now filter_id content s u s' :
  let prefix := lit "filter:" ++ filter_id in
  fresh_ids uuid (length (rules_of content)) (kept_rules prefix (tables (db_of s))) ->
  transaction (execute (fun t => Ok (tt, delete_rules prefix t)) ;;;
    insert_batches prefix now uuid 0 (chunks BATCH_SIZE (rules_of content))) s = (Ok u, s') ->
  stored filter_id content (tables (db_of s)) (tables (db_of s')).
Proof.
  intros prefix Hids (s1 & s2 & Ht1 & Hm & Ht2)%transaction_Ok.
  apply bind_Ok in Hm as (u1 & s3 & He & Hb). apply execute_Ok in He as [He _]. apply batches_Ok in Hb.
  injection He as _ He. cbn [db_of SyncState_HasDb] in *. rewrite Ht2, Hb, <- He, Ht1.
  rewrite concat_chunks by (unfold BATCH_SIZE; lia).
  exists (new_rows prefix now uuid 0 (rules_of content)). split; [|apply new_rows_rules].
  cbn [delete_rules custom_rules set_custom_rules]. by rewrite fresh_rows.
Qed.

Lemma store_works uuid now prefix cs s :
  db_works s ->
  exists t, runs (transaction (execute (fun t => Ok (tt, delete_rules prefix t)) ;;; insert_batches prefix now uuid 0 cs))
    s (Ok tt) t.
Proof.
  intros Hs.
  destruct (runs_execute (fun t => Ok (tt, delete_rules prefix t)) (with_db s (tick (db_of s)))
    (db_works_tick s Hs)) as [n Hn].
  match type of Hn with _ = (_, ?s1) => destruct (batches_works prefix now uuid 0 cs s1) as (t & n' & Hn') end.
  { intros k. exact (Hs k). }
  exists t. unfold runs, transaction. rewrite query_run by done. unfold bind. rewrite Hn, Hn'.
  rewrite query_run by (intros k; exact (Hs k)). exists (n' + 1). done.
Qed.

(** C11: a synchronisation stores exactly the rules of the content that was
    fetched: those of the list before are gone, those of every other origin
    stay, and the list carries their number.  If the download or any
    statement of the transaction fails the database is as it was; if only the
    last update fails the rules are stored and the list is not updated.  It
    succeeds when the content is fetched and the database works. *)
Theorem sync_correct uuid now filter_id url s r s' :
  (forall content, fst (fetch_remote_filter url s) = Ok content ->
     fresh_ids uuid (length (rules_of content)) (kept_rules (lit "filter:" ++ filter_id) (tables (db_of s)))) ->
  sync_filter_list uuid now filter_id url s = (r, s') ->
  let t := tables (db_of s) in
  let fetched := fst (fetch_remote_filter url s) in
  match r with
  | Err (FetchFailed _) | Err (StoreFailed _) => tables (db_of s') = t
  | Err (MetadataFailed _) => exists content, fetched = Ok content /\ stored filter_id content t (tables (db_of s'))
  | Ok n => exists content t', fetched = Ok content /\ n = Z.of_nat (length (rules_of content)) /\
      stored filter_id content t t' /\
      tables (db_of s') = set_filter_lists t' (map (fun f => if decide (fl_id f = filter_id) then counted n now f else f)
                                                (filter_lists t'))
  end /\
  (db_works s -> is_ok fetched = true -> is_ok r = true).
Proof.
  intros Hids Hr. cbn zeta. revert Hr. unfold sync_filter_list, bind at 1, mmap_err at 1.
  pose proof (fetch_state url s) as Hst. destruct (fetch_remote_filter url s) as [[content|e] s1]; simpl in Hst.
  2: { intros [= <- <-]. subst s1. by split. }
  specialize (Hids content eq_refl). cbn [map_err fst] in *. assert (Hdb : db_of s1 = db_of s) by (by subst s1).
  clear Hst. unfold bind at 1. unfold mmap_err at 1.
  match goal with |- context [transaction ?m s1] => destruct (transaction m s1) as [[u|e] s2] eqn:Htx end; cbn [map_err].
  - rewrite <- Hdb in Hids. pose proof (store_Ok _ _ _ _ _ _ _ Hids Htx) as Ht2. rewrite Hdb in Ht2.
    unfold bind, mmap_err, ret.
    match goal with |- context [execute ?f s2] => destruct (execute f s2) as [[v|e] s3] eqn:He end; cbn [map_err].
    + intros [= <- <-]. apply execute_Ok in He as [He _]. injection He as _ He. split; [|done].
      exists content, (tables (db_of s2)). split; [done|]. split; [done|]. split; [exact Ht2|].
      cbn [db_of SyncState_HasDb] in *. rewrite <- He. unfold update_list. f_equal. apply map_ext. intros f. unfold str_eqb. case_bool_decide; [by rewrite decide_True|by rewrite decide_False].
    + intros [= <- <-]. pose proof (execute_Err _ _ _ _ He) as He'. split; [exists content; by rewrite He'|].
      intros Hw _. exfalso. destruct (store_works uuid now (lit "filter:" ++ filter_id) (chunks BATCH_SIZE (rules_of content)) s1)
        as (t & n & Hn); [unfold db_works; by rewrite Hdb|].
      rewrite Hn in Htx. injection Htx as _ <-. revert He. unfold execute. cbn [tick tables].
      destruct (faults _ _) eqn:Hf; [|done]. intros _. cbn in Hf.
      assert (faults (sync_db s1) n = false) by (change (sync_db s1) with (db_of s1); rewrite Hdb; apply Hw). congruence.
  - intros [= <- <-]. split.
    + rewrite <- Hdb. apply (transaction_atomic _ _ _ _) in Htx; [done|].
      apply frames_bind; [apply frames_execute|intros _; apply batches_frames].
    + intros Hw _. exfalso. destruct (store_works uuid now (lit "filter:" ++ filter_id) (chunks BATCH_SIZE (rules_of content)) s1)
        as (t & n & Hn); [unfold db_works; by rewrite Hdb|].
      rewrite Hn in Htx. done.
Qed.

End subscription.
End Subscription.

(** ** Concrete inputs *)

Module SubscriptionWitness.
Import AsciiUnicode RefRegex Subscription.

(** The hosts of the examples, and the pattern engine for the two rules. *)
#[export] Instance url : UrlCrate := {|
  Url := str * Host;
  url_parse s :=
    match strip_prefix s "http://" with
    | Some r =>
        if starts_with_char r lbracket then Some (lit "http", HIpv6 (V6 0 0 0 0 0 0 0 1))
        else match parse_ip r with
             | Some (V4 a b c d) =>
                 if (a <? 256) && (b <? 256) && (c <? 256) && (d <? 256) then Some (lit "http", HIpv4 a b c d) else None
             | Some _ => None
             | None => Some (lit "http", HDomain r)
             end
    | None => if starts_with s "file://" then Some (lit "file", HDomain []) else None
    end;
  url_scheme u := fst u;
  url_host_str u := match snd u with
                    | HDomain d => match parse_ip d with Some _ => None | None => Some d end
                    | HIpv4 a b c d =>
                        if (a <? 256) && (b <? 256) && (c <? 256) && (d <? 256) then Some (show_v4 a b c d) else None
                    | HIpv6 ip => Some (lit "[" ++ show_ip ip ++ lit "]")
                    end;
|}.
#[export] Instance url_doc : UrlDoc.
Proof.
  refine {| url_host u := match snd u with
    | HDomain d => match parse_ip d with Some _ => None | None => Some (HDomain d) end
    | HIpv4 a b c d => if (a <? 256) && (b <? 256) && (c <? 256) && (d <? 256) then Some (HIpv4 a b c d) else None
    | h => Some h end |}.
  - intros [s [d|a b c d|ip]]; cbn [url_host_str url snd]; by repeat case_match.
  - intros [s [d|a b c d|ip]] d'; cbn [snd]; repeat case_match; by intros [= <-].
  - intros [s [d|a b c d|ip]] a' b' c' d'; cbn [snd]; [by case_match| |done].
    destruct ((a <? 256) && _ && _ && _) eqn:Hb; [|done]. intros [= <- <- <- <-]. split_bools. lia.
Defined.
#[export] Instance captures : RegexCaptures :=
  { captures1 p line := if p =s? ADGUARD_DOMAIN_RULE then rule_domain (lit "||") line else rule_domain (lit "@@||") line }.
#[export] Instance captures_doc : CapturesDoc.
Proof. constructor; intros line _; reflexivity. Qed.

Definition list_text : str := unlines [lit "! Title"; lit "||ads.com^$important"; lit "@@||ok.ads.com^"].
#[export] Instance http : HttpClient :=
  { http_get _ _ := Some {| rs_success := true; rs_content_length := None; rs_bytes := Some list_text |} }.

Definition old_rule (id by_ r : string) : CustomRule := new_row (lit by_) [] (lit id) (lit r).
Definition state0 (faults : N -> bool) : SyncState :=
  {| requests := [];
     sync_db := {| tables := set_custom_rules empty_db [old_rule "1" "filter:f" "||old.com^"; old_rule "2" "admin" "||x.com^"];
                   calls := 0; faults := faults |} |}.
Definition uuid (n : nat) : str := lit "uuid-" ++ show_N (N.of_nat n).

(** The guard stops a private IPv4 address and lets the IPv6 loopback pass. *)
Example guard_test :
  map (fun u => is_ok (validate_filter_url (lit u)))
    ["http://lists.org"; "http://127.0.0.1"; "http://[::1]"; "file://etc"]%string = [true; false; true; false].
Proof. vm_compute. reflexivity. Qed.
Example hosts_format_test :
  let text := unlines [lit "# hosts"; lit "0.0.0.0 ads.com"; lit "::1 bad..name. x"; lit "word"] in
  (is_hosts_format text, rules_of text) = (true, [lit "||ads.com^"]).
Proof. vm_compute. reflexivity. Qed.

Lemma fetch_guarded_witness :
  requests (snd (fetch_remote_filter (lit "http://127.0.0.1") (state0 (fun _ => false)))) = [].
Proof.
  destruct (fetch_remote_filter (lit "http://127.0.0.1") (state0 (fun _ => false))) as [r s'] eqn:Hr.
  destruct (fetch_guarded _ _ _ _ Hr) as (_ & Hreq & _). cbn [snd]. rewrite Hreq. vm_compute. reflexivity.
Defined.

Definition entries : list entry :=
  [EComment (lit " list"); EBlock (lit "Ads.com") (lit "^$third-party"); EAllow (lit "ok.ads.com") [];
   ESubdomains (lit "t.net"); EPlain (lit "plain.org")].
Lemma entries_ok : Forall entry_ok entries.
Proof.
  unfold entries. repeat apply Forall_cons_2; try apply Forall_nil_2;
    repeat split; try (by apply contains_char_true); try (by apply contains_char_false);
    try (by apply lacks_forallb); try (vm_compute; reflexivity); by left.
Qed.
Lemma subscription_effect_witness :
  let parsed := parse_adguard_rules (unlines (map entry_text entries)) in
  let rs := Rules.build (fst (Rules.add_rules Rules.new (fst parsed ++ snd parsed))) in
  Rules.match_domain rs (lit "x.ads.com") = Blocked /\ Rules.match_domain rs (lit "x.ok.ads.com") = Allowed.
Proof.
  destruct (subscription_effect entries entries_ok) as [_ H]. cbn zeta in *. split.
  - apply (proj2 (H (lit "x.ads.com") ltac:(by repeat constructor))). split.
    + intros (d & Hd & Hu). cbn in Hd. apply list_elem_of_singleton in Hd as ->.
      destruct Hu as [Hu|[p Hu]]; [done|]. apply (f_equal (@length _)) in Hu. rewrite length_app in Hu.
      assert (length (Rules.query_name (lit "x.ads.com")) = 9%nat) as Hn by (vm_compute; reflexivity).
      assert (length (dot :: to_lowercase (lit "ok.ads.com")) = 11%nat) as Hm by (vm_compute; reflexivity).
      rewrite Hn, Hm in Hu. lia.
    + exists (lit "Ads.com"). split; [left|]. right. by exists (lit "x").
  - apply (proj1 (H (lit "x.ok.ads.com") ltac:(by repeat constructor))).
    exists (lit "ok.ads.com"). split; [left|]. right. by exists (lit "x").
Defined.

Lemma sync_correct_witness :
  fst (sync_filter_list uuid (lit "now") (lit "f") (lit "http://lists.org") (state0 (fun _ => false))) = Ok 2%Z.
Proof.
  destruct (sync_filter_list uuid (lit "now") (lit "f") (lit "http://lists.org") (state0 (fun _ => false))) as [r s'] eqn:Hr.
  destruct (fun H => sync_correct _ _ _ _ _ _ _ H Hr) as [Hok Hworks].
  - intros content Hc. assert (content = list_text) as ->.
    { apply (f_equal (fun r => match r with Ok c => c | Err _ => [] end)) in Hc. rewrite <- Hc. vm_compute. reflexivity. }
    split.
    + apply (bool_decide_unpack _). vm_compute. done.
    + intros r0 Hr0. assert (r0 = old_rule "2" "admin" "||x.com^") as -> by (by apply list_elem_of_singleton in Hr0).
      apply (bool_decide_unpack _). vm_compute. done.
  - destruct r as [n|e].
    + destruct Hok as (content & t' & Hc & -> & _). cbn [fst]. do 2 f_equal.
      apply (f_equal (fun r => match r with Ok c => length (rules_of c) | Err _ => 0%nat end)) in Hc. rewrite <- Hc.
      vm_compute. reflexivity.
    + exfalso. assert (is_ok (Err e : result Z SyncError) = true); [|done]. apply Hworks; [by intros n|vm_compute; reflexivity].
Defined.
End SubscriptionWitness.
