(* ===== verification/Api.v ===== *)
(** * The management API: what its handlers share

    Errors (src/error.rs), the extractors of src/api/middleware (the address
    of the client, the authenticated user, the administrator), tokens and
    passwords (src/auth), and the audit log (src/db/audit.rs).  The handlers
    run on any state that holds the database connection and the
    authentication state, the classes [HasDb] and [HasAuth]. *)
From S2P Require Import Prelude RustStr IpAddr Db.
Local Open Scope N_scope.

(** ** Errors: src/error.rs *)

Inductive AppError :=
| Database (e : DbError)
| AuthFailed
| Unauthorized (m : str)
| NotFound (m : str)
| Conflict (m : str)
| Validation (m : str)
| Internal (m : str)
| JsonError (m : str)
| Anyhow (m : str)
| TooManyRequests.

(** [IntoResponse]: the status code and the message. *)
Definition into_response (e : AppError) : N * str :=
  match e with
  | AuthFailed => (401, lit "Authentication failed")
  | Unauthorized m => (403, lit "Unauthorized: " ++ m)
  | NotFound m => (404, lit "Not found: " ++ m)
  | Conflict m => (409, lit "Conflict: " ++ m)
  | Validation m => (400, lit "Validation error: " ++ m)
  | TooManyRequests => (429, lit "Too many requests")
  | Database _ | Internal _ | JsonError _ | Anyhow _ => (500, lit "Internal server error")
  end.

(** ** Outside values *)

(** What one call draws: the clock (in seconds, as text and as an instant in
    nanoseconds), an identifier, the next number of a serial column, a salt. *)
Record Draws := { d_utc : N; d_text : str; d_instant : N; d_uuid : str; d_serial : Z; d_salt : str }.

(** The parts of a request the extractors read: the headers whose value is
    text, and the address of the TCP peer. *)
Record Parts := {
  h_authorization : option str; h_forwarded_for : option str; h_real_ip : option str;
  peer : option IpAddr }.

(** ** Tokens: src/auth/jwt.rs *)

Record Claims := { sub : str; username : str; role : str; exp : N; iat : N; jti : str }.

(** [jsonwebtoken]: signing, and checking a token at a time. *)
Class Jwt := {
  jwt_encode : Claims -> str -> option str;
  jwt_decode : N -> str -> str -> option Claims;
}.
(** Its documented behaviour with the default validation: a token decodes to
    the claims it was signed over while it has not expired for more than the
    leeway of 60 seconds, and not after. *)
Class JwtDoc `{Jwt} := {
  jwt_roundtrip : forall c secret token now,
    jwt_encode c secret = Some token -> now <= exp c + 60 -> jwt_decode now token secret = Some c;
  jwt_expired : forall c secret token now,
    jwt_decode now token secret = Some c -> now <= exp c + 60;
  (** the signed claims are those of the token *)
  jwt_unique : forall c c' secret token now now',
    jwt_decode now token secret = Some c -> jwt_decode now' token secret = Some c' -> c = c';
}.

(** ** Passwords: src/auth/password.rs *)

(** [argon2] *)
Class Argon2 := {
  PasswordHash : Type;
  PasswordHash_new : str -> option PasswordHash;
  verify_password : str -> PasswordHash -> bool;
  hash_password : str -> str -> option str;  (* password, salt *)
}.
Class Argon2Doc `{Argon2} := {
  hash_verifies : forall password salt hash,
    hash_password password salt = Some hash ->
    exists h, PasswordHash_new hash = Some h /\ verify_password password h = true;
}.

Module Password.
Section password.
Context `{Argon2}.
Definition hash (password salt : str) : option str := hash_password password salt.
Definition verify (password hash : str) : bool :=
  match PasswordHash_new hash with
  | Some parsed => verify_password password parsed
  | None => false
  end.
Lemma verify_hash `{!Argon2Doc} password salt h : hash password salt = Some h -> verify password h = true.
Proof. unfold verify. intros (p & -> & Hp)%hash_verifies. exact Hp. Qed.
End password.
End Password.

(** ** The authentication state: a part of [AppState] of src/api/mod.rs *)

Record AuthState := {
  jwt_secret : str;
  jwt_expiry_hours : N;
  allow_default_password : bool;
  login_attempts : gmap str (N * N);
  ws_tickets : gmap str N;
  token_blacklist : gset str }.

Definition set_attempts (m : gmap str (N * N)) (a : AuthState) : AuthState :=
  {| jwt_secret := jwt_secret a; jwt_expiry_hours := jwt_expiry_hours a;
     allow_default_password := allow_default_password a; login_attempts := m;
     ws_tickets := ws_tickets a; token_blacklist := token_blacklist a |}.
Definition set_tickets (m : gmap str N) (a : AuthState) : AuthState :=
  {| jwt_secret := jwt_secret a; jwt_expiry_hours := jwt_expiry_hours a;
     allow_default_password := allow_default_password a; login_attempts := login_attempts a;
     ws_tickets := m; token_blacklist := token_blacklist a |}.
Definition set_blacklist (x : gset str) (a : AuthState) : AuthState :=
  {| jwt_secret := jwt_secret a; jwt_expiry_hours := jwt_expiry_hours a;
     allow_default_password := allow_default_password a; login_attempts := login_attempts a;
     ws_tickets := ws_tickets a; token_blacklist := x |}.

Class HasAuth (S : Type) := { auth_of : S -> AuthState; with_auth : S -> AuthState -> S }.
(** The two parts of the state are apart. *)
Class HasAuthLaws (S : Type) `{HasDb S, HasAuth S} := {
  auth_of_with : forall s a, auth_of (with_auth s a) = a;
  db_of_with_auth : forall s a, db_of (with_auth s a) = db_of s;
  auth_of_with_db : forall s d, auth_of (with_db s d) = auth_of s;
  with_auth_of : forall s, with_auth s (auth_of s) = s;
  with_auth_with : forall s a a', with_auth (with_auth s a) a' = with_auth s a';
  with_auth_with_db : forall s a d, with_auth (with_db s d) a = with_db (with_auth s a) d }.

(** The state of the handlers of this development. *)
Record AppState := { app_db : DbState; app_auth : AuthState }.
#[global] Instance AppState_HasDb : HasDb AppState :=
  { db_of := app_db; with_db s d := {| app_db := d; app_auth := app_auth s |} }.
#[global] Instance AppState_HasDbLaws : HasDbLaws AppState.
Proof. constructor; [done|done|by intros []]. Qed.
#[global] Instance AppState_HasAuth : HasAuth AppState :=
  { auth_of := app_auth; with_auth s a := {| app_db := app_db s; app_auth := a |} }.
#[global] Instance AppState_HasAuthLaws : HasAuthLaws AppState.
Proof. constructor; try done. by intros []. Qed.

Module Api.

(** [jwt::generate] and [jwt::verify] *)
Definition generate `{Jwt} (d : Draws) (user_id username role secret : str) (expiry_hours : N) : option str :=
  jwt_encode {| sub := user_id; username := username; role := role;
                exp := d_utc d + expiry_hours * 3600; iat := d_utc d; jti := d_uuid d |} secret.
Definition verify `{Jwt} (now : N) (token secret : str) : option Claims := jwt_decode now token secret.

(** ** The extractors *)

(** src/api/middleware/client_ip.rs *)
Definition is_trusted_peer (ip : IpAddr) : bool :=
  match ip with
  | V4 a b c d => v4_is_loopback a b c d || v4_is_private a b c d
  | V6 _ _ _ _ _ _ _ _ => v6_is_loopback ip
  end.

(** A header that names an address: its first entry, without spaces. *)
Definition first_forwarded (s : str) : option str :=
  let ip := trim (split_first s comma) in if is_empty ip then None else Some ip.
Definition real_ip (s : str) : option str :=
  let ip := trim s in if is_empty ip then None else Some ip.

Definition ClientIp (p : Parts) : str :=
  let from_headers :=
    match peer p with
    | Some a =>
        if is_trusted_peer a then
          match h_forwarded_for p ≫= first_forwarded with
          | Some ip => Some ip
          | None => h_real_ip p ≫= real_ip
          end
        else None
    | None => None
    end in
  match from_headers with
  | Some ip => ip
  | None => match peer p with Some a => show_ip a | None => lit "unknown" end
  end.

(** [extract_ip] of src/api/middleware/audit.rs *)
Definition extract_ip (p : Parts) : str :=
  match h_forwarded_for p ≫= first_forwarded with
  | Some ip => ip
  | None =>
      match h_real_ip p ≫= real_ip with
      | Some ip => ip
      | None => match peer p with Some a => show_ip a | None => lit "unknown" end
      end
  end.

Definition octets_ok (ip : IpAddr) : Prop :=
  match ip with V4 a b c d => a < 256 /\ b < 256 /\ c < 256 /\ d < 256 | V6 _ _ _ _ _ _ _ _ => False end.
Lemma show_v4_inj x y : octets_ok x -> octets_ok y -> show_ip x = show_ip y -> x = y.
Proof.
  destruct x as [a b c d|]; [|done]. destruct y as [a' b' c' d'|]; [|done].
  intros (? & ? & ? & ?) (? & ? & ? & ?) Heq. cbn [show_ip] in Heq.
  apply (f_equal parse_ip) in Heq. rewrite !parse_show_v4 in Heq by done. congruence.
Qed.

Lemma ClientIp_untrusted p a : peer p = Some a -> is_trusted_peer a = false -> ClientIp p = show_ip a.
Proof. intros Hp Ha. unfold ClientIp. by rewrite Hp, Ha. Qed.

(** the headers of a client that is no trusted proxy have no say in the
    address it is counted and logged under: two requests from untrusted IPv4
    peers have the same address exactly when their peers are the same.  Only
    a loopback or private peer can name another. *)
Theorem client_ip_identity p p' x y :
  peer p = Some x -> peer p' = Some y -> octets_ok x -> octets_ok y ->
  is_trusted_peer x = false -> is_trusted_peer y = false ->
  (ClientIp p = ClientIp p' <-> x = y) /\
  (forall q ip, peer q = Some x -> ClientIp q = ip -> parse_ip ip = Some x).
Proof.
  intros Hp Hp' Hx Hy Htx Hty. rewrite (ClientIp_untrusted p x), (ClientIp_untrusted p' y) by done. split.
  - split; [by apply show_v4_inj|by intros ->].
  - intros q ip Hq <-. rewrite (ClientIp_untrusted q x) by done. destruct x as [a b c d|]; [|done].
    by apply parse_show_v4; apply Hx.
Qed.

Section handlers.
Context {S : Type} `{HasDb S, HasAuth S, Jwt}.

(** src/api/middleware/auth.rs *)
Definition AuthUser (d : Draws) (p : Parts) : M S AppError Claims :=
  let! a := gets auth_of in
  let! auth_header := lift (ok_or (h_authorization p) AuthFailed) in
  let! token := lift (ok_or (strip_prefix auth_header "Bearer ") AuthFailed) in
  let! claims := lift (ok_or (verify (d_utc d) token (jwt_secret a)) AuthFailed) in
  if bool_decide (jti claims ∈ token_blacklist a) then fail AuthFailed else ret claims.

(** src/api/middleware/rbac.rs *)
Definition AdminUser (d : Draws) (p : Parts) : M S AppError Claims :=
  let! claims := AuthUser d p in
  if (role claims =s? "admin") || (role claims =s? "super_admin") then ret claims
  else fail (Unauthorized "Admin or super_admin role required").

(** [log_action]: a task of its own whose error is dropped; it runs at once
    here. *)
Definition log_action (d : Draws) (user_id user action resource : str) (resource_id detail : option str)
    (ip : str) : M S AppError unit := fun s =>
  (Ok tt, snd (execute (fun t => Ok (tt, set_audit_log t (audit_log t ++
    [{| al_id := d_serial d; al_time := d_text d; al_user_id := user_id; al_username := user;
        al_action := action; al_resource := resource; al_resource_id := resource_id;
        al_detail := detail; al_ip := ip |}]))) s)).

(** A call of the database whose error the handler passes on with [?]. *)
Definition db {A} (m : M S DbError A) : M S AppError A := mmap_err Database m.

Definition modify_auth (f : AuthState -> AuthState) : M S AppError unit :=
  modify (fun s => with_auth s (f (auth_of s))).

(** ** What a computation does to the authentication state *)

Context `{!HasDbLaws S, !HasAuthLaws S}.

Definition auth_keeps (R : relation AuthState) {E A} (m : M S E A) : Prop :=
  forall s, R (auth_of s) (auth_of (snd (m s))).

Section keeps.
Context (R : relation AuthState) `{!PreOrder R}.

Lemma keeps_bind {E A B} (m : M S E A) (k : A -> M S E B) :
  auth_keeps R m -> (forall a, auth_keeps R (k a)) -> auth_keeps R (bind m k).
Proof.
  intros Hm Hk s. unfold bind. specialize (Hm s). destruct (m s) as [[a|e] s1]; [|exact Hm].
  transitivity (auth_of s1); [exact Hm|apply Hk].
Qed.
Lemma keeps_ret {E A} (a : A) : auth_keeps R (ret (E:=E) a).
Proof. intros s. reflexivity. Qed.
Lemma keeps_fail {E A} (e : E) : auth_keeps R (fail (A:=A) e).
Proof. intros s. reflexivity. Qed.
Lemma keeps_lift {E A} (r : result A E) : auth_keeps R (lift r).
Proof. intros s. reflexivity. Qed.
Lemma keeps_gets {E A} (f : S -> A) : auth_keeps R (gets (E:=E) f).
Proof. intros s. reflexivity. Qed.
Lemma keeps_frames {E A} (m : M S E A) : frames m -> auth_keeps R m.
Proof. intros Hm s. destruct (Hm s) as (d & _ & ->). by rewrite auth_of_with_db. Qed.
Lemma keeps_db {A} (m : M S DbError A) : frames m -> auth_keeps R (db m).
Proof.
  intros Hm s. unfold db, mmap_err. specialize (Hm s). destruct (m s) as [r s1].
  cbn [snd] in *. destruct Hm as (d & _ & ->). by rewrite auth_of_with_db.
Qed.
Lemma keeps_log d uid un ac re ri de ip : auth_keeps R (log_action d uid un ac re ri de ip).
Proof.
  intros s. unfold log_action. cbn [snd].
  match goal with |- context [execute ?f s] => destruct (frames_execute f s) as (d' & _ & ->) end.
  by rewrite auth_of_with_db.
Qed.
Lemma keeps_modify f : (forall a, R a (f a)) -> auth_keeps R (modify_auth f).
Proof. intros Hf s. unfold modify_auth, modify. cbn [snd]. rewrite auth_of_with. apply Hf. Qed.
End keeps.

(** The extractors only read. *)
Lemma AuthUser_state d p s : snd (AuthUser d p s) = s.
Proof.
  unfold AuthUser, bind, gets, lift. destruct (h_authorization p) as [h|]; [|done]. cbn [ok_or].
  destruct (strip_prefix h _); [|done]. cbn [ok_or]. destruct (verify _ _ _) as [c|]; [|done]. cbn [ok_or].
  by destruct (bool_decide _).
Qed.
Lemma AdminUser_state d p s : snd (AdminUser d p s) = s.
Proof.
  unfold AdminUser, bind. pose proof (AuthUser_state d p s) as Hs. destruct (AuthUser d p s) as [[c|e] s1]; [|exact Hs].
  cbn [snd] in Hs. subst s1. by destruct (_ || _).
Qed.

End handlers.

Ltac solve_keeps := repeat first
  [ assumption
  | lazymatch goal with
    | |- PreOrder _ => apply _
    | |- forall _, auth_keeps _ _ => intros ?
    | |- auth_keeps _ (bind _ _) => apply keeps_bind
    | |- auth_keeps _ (ret _) => apply keeps_ret
    | |- auth_keeps _ (fail _) => apply keeps_fail
    | |- auth_keeps _ (lift _) => apply keeps_lift
    | |- auth_keeps _ (gets _) => apply keeps_gets
    | |- auth_keeps _ (log_action _ _ _ _ _ _ _ _) => apply keeps_log
    | |- auth_keeps _ (db (execute _)) => apply keeps_db, frames_execute
    | |- auth_keeps _ (db _) => apply keeps_db, frames_reads, reads_query
    | |- auth_keeps _ (modify_auth _) => apply keeps_modify
    | |- auth_keeps _ (if ?b then _ else _) => destruct b
    | |- auth_keeps _ (match ?x with _ => _ end) => destruct x
    end ].
End Api.

(** ** Concrete inputs *)

Module ApiWitness.
Import Api.
Definition from (ip : IpAddr) (forwarded : option str) : Parts :=
  {| h_authorization := None; h_forwarded_for := forwarded; h_real_ip := None; peer := Some ip |}.
Lemma client_ip_identity_witness :
  ClientIp (from (V4 8 8 8 8) (Some (lit "1.2.3.4"))) = ClientIp (from (V4 8 8 8 8) (Some (lit "5.6.7.8"))).
Proof.
  apply (client_ip_identity (from (V4 8 8 8 8) (Some (lit "1.2.3.4"))) (from (V4 8 8 8 8) (Some (lit "5.6.7.8")))
    (V4 8 8 8 8) (V4 8 8 8 8)); try reflexivity; repeat split.
Defined.
Example proxy_test : ClientIp (from (V4 10 0 0 2) (Some (lit " 1.2.3.4, 10.0.0.3"))) = lit "1.2.3.4".
Proof. reflexivity. Qed.
Example status_test : map fst (map into_response [AuthFailed; Unauthorized []; TooManyRequests; Database DbFault]) = [401; 403; 429; 500].
Proof. reflexivity. Qed.
End ApiWitness.
