(* ===== verification/Auth.v ===== *)
(** * Login, logout and passwords: src/api/handlers/auth.rs

    A handler runs without another in between; the instants it reads are one
    instant. *)
From S2P Require Import Prelude RustStr IpAddr Db Api.
Local Open Scope N_scope.

Record LoginRequest := { lr_username : str; lr_password : str }.
Record ChangePasswordRequest := { current_password : str; new_password : str }.
(** The JSON of the answer. *)
Record LoginResponse := { token : str; expires_in : N; lrole : str; requires_password_change : bool }.

Module Auth.
Section auth.
Context {S : Type} `{HasDb S, HasAuth S, Jwt, Argon2}.
Import Api.

Definition MAX_LOGIN_FAILURES : N := 5.
Definition FAILURE_WINDOW : N := 15 * 60 * 1000000000.

(** The check of the counter of an address. *)
Definition login_guard (now : N) (ip : str) : M S AppError unit :=
  let! a := gets auth_of in
  match login_attempts a !! ip with
  | Some (count, window_start) =>
      if FAILURE_WINDOW <? now - window_start then
        modify_auth (set_attempts (<[ip := (0, now)]> (login_attempts a)))
      else if MAX_LOGIN_FAILURES <=? count then fail TooManyRequests
      else ret tt
  | None => ret tt
  end.

Definition record_login_failure (now : N) (ip : str) (a : AuthState) : AuthState :=
  let '(count, window_start) := default (0, now) (login_attempts a !! ip) in
  let entry := if FAILURE_WINDOW <? now - window_start then (1, now)
               else ((count + 1) mod 2 ^ 32, window_start) in
  set_attempts (<[ip := entry]> (login_attempts a)) a.

Definition login_failed {A} (now : N) (ip : str) : M S AppError A :=
  modify_auth (record_login_failure now ip) ;;;
  fail AuthFailed.

Definition user_named (name : str) (t : Db) : option User := find (fun u => usr_username u =s? name) (users t).

(** The rest of a login, after the check. *)
Definition login_verify (d : Draws) (ip : str) (req : LoginRequest) : M S AppError LoginResponse :=
  let! row := db (fetch_optional (user_named (lr_username req))) in
  match row with
  | None => login_failed (d_instant d) ip
  | Some u =>
      if negb (usr_is_active u) then login_failed (d_instant d) ip
      else if negb (Password.verify (lr_password req) (usr_password u)) then login_failed (d_instant d) ip
      else
        modify_auth (fun a => set_attempts (delete ip (login_attempts a)) a) ;;;
        let! a := gets auth_of in
        let is_default_password := lr_password req =s? "admin" in
        let expiry_hours := N.min (jwt_expiry_hours a) 168 in
        let! token := lift (ok_or (generate d (usr_id u) (lr_username req) (usr_role u) (jwt_secret a) expiry_hours)
                              (Internal [])) in
        log_action d (usr_id u) (lr_username req) "login" "session" None None ip ;;;
        ret {| token := token; expires_in := jwt_expiry_hours a * 3600; lrole := usr_role u;
               requires_password_change := is_default_password && negb (allow_default_password a) |}
  end.

Definition login (d : Draws) (ip : str) (req : LoginRequest) : M S AppError LoginResponse :=
  login_guard (d_instant d) ip ;;;
  login_verify d ip req.

Definition logout (d : Draws) (p : Parts) : M S AppError unit :=
  let! a := gets auth_of in
  match h_authorization p ≫= (fun v => strip_prefix v "Bearer ") with
  | Some bearer =>
      match verify (d_utc d) bearer (jwt_secret a) with
      | Some claims => modify_auth (fun a => set_blacklist ({[ jti claims ]} ∪ token_blacklist a) a)
      | None => ret tt
      end
  | None => ret tt
  end.

Definition user_by_id (id : str) (t : Db) : option User := find (fun u => usr_id u =s? id) (users t).
Definition set_password (id hash now : str) (t : Db) : Db :=
  set_users t (map (fun u =>
    if usr_id u =s? id then
      {| usr_id := usr_id u; usr_username := usr_username u; usr_password := hash; usr_role := usr_role u;
         usr_is_active := usr_is_active u; usr_created_at := usr_created_at u; usr_updated_at := now |}
    else u) (users t)).

Definition change_password (d : Draws) (p : Parts) (req : ChangePasswordRequest) : M S AppError unit :=
  let ip := ClientIp p in
  let! claims := AuthUser d p in
  if len (new_password req) <? 8 then fail (Validation "New password must be at least 8 characters")
  else if new_password req =s? "admin" then fail (Validation "New password cannot be the default password")
  else
    let! row := db (fetch_optional (user_by_id (sub claims))) in
    let! u := lift (ok_or row (NotFound "User not found")) in
    if negb (Password.verify (current_password req) (usr_password u)) then
      fail (Validation "Current password is incorrect")
    else
      let! new_password_hash := lift (ok_or (Password.hash (new_password req) (d_salt d)) (Internal [])) in
      db (execute (fun t => Ok (tt, set_password (usr_id u) new_password_hash (d_text d) t))) ;;;
      log_action d (usr_id u) (username claims) "password_change" "user" (Some (usr_id u)) None ip.

(** ** A login, branch by branch *)

Context `{!HasDbLaws S, !HasAuthLaws S}.

Definition credentials_ok (req : LoginRequest) (t : Db) : option User :=
  match user_named (lr_username req) t with
  | Some u => if usr_is_active u && Password.verify (lr_password req) (usr_password u) then Some u else None
  | None => None
  end.

(** The counter of an address after one more failure. *)
Definition failures (now : N) (ip : str) (a : AuthState) : N * N :=
  let '(count, start) := default (0, now) (login_attempts a !! ip) in
  if FAILURE_WINDOW <? now - start then (1, now) else ((count + 1) mod 2 ^ 32, start).

Definition locked (now : N) (ip : str) (a : AuthState) : bool :=
  match login_attempts a !! ip with
  | Some (count, start) => (now - start <=? FAILURE_WINDOW) && (MAX_LOGIN_FAILURES <=? count)
  | None => false
  end.

(** The guard, which rejects or leaves the counter so that one more failure
    counts as the window says. *)
Lemma login_guard_run now ip s :
  login_guard now ip s = (Err TooManyRequests, s) /\ locked now ip (auth_of s) = true \/
  locked now ip (auth_of s) = false /\ exists a', login_guard now ip s = (Ok tt, with_auth s a') /\
    (a' = auth_of s \/ exists e, a' = set_attempts (<[ip := e]> (login_attempts (auth_of s))) (auth_of s)) /\
    failures now ip a' = failures now ip (auth_of s).
Proof.
  unfold login_guard, locked, bind, gets, modify_auth, modify, ret, fail.
  destruct (login_attempts (auth_of s) !! ip) as [[count start]|] eqn:He.
  - destruct (FAILURE_WINDOW <? now - start) eqn:Hw; [right|destruct (MAX_LOGIN_FAILURES <=? count) eqn:Hc; [left|right]].
    + split; [lia|]. eexists. split; [reflexivity|]. split; [right; by eexists|].
      unfold failures. cbn [login_attempts set_attempts]. rewrite lookup_insert_eq, He. cbn [from_option id].
      rewrite Hw.
      assert ((FAILURE_WINDOW <? now - now) = false) as -> by (unfold FAILURE_WINDOW in *; lia). done.
    + split; [done|]. by assert ((now - start <=? FAILURE_WINDOW) = true) as -> by lia.
    + split; [by rewrite andb_false_r|]. exists (auth_of s). rewrite with_auth_of. auto.
  - right. split; [done|]. exists (auth_of s). rewrite with_auth_of. auto.
Qed.

(** What a call leaves: its authentication state, the tables, and that the
    connection works as before. *)
Definition leaves (s' : S) (s : S) (a : AuthState) (t : Db) : Prop :=
  auth_of s' = a /\ tables (db_of s') = t /\ faults (db_of s') = faults (db_of s).

Lemma record_failure_alt now ip a :
  record_login_failure now ip a = set_attempts (<[ip := failures now ip a]> (login_attempts a)) a.
Proof. unfold record_login_failure, failures. by destruct (default _ _). Qed.

Lemma failures_written a a' ip now e :
  a' = a \/ a' = set_attempts (<[ip := e]> (login_attempts a)) a ->
  failures now ip a' = failures now ip a ->
  record_login_failure now ip a' = set_attempts (<[ip := failures now ip a]> (login_attempts a)) a /\
  set_attempts (delete ip (login_attempts a')) a' = set_attempts (delete ip (login_attempts a)) a.
Proof.
  intros Ha' Hf. rewrite record_failure_alt, Hf. destruct Ha' as [->| ->]; [done|].
  cbn [login_attempts set_attempts]. by rewrite insert_insert_eq, delete_insert_eq.
Qed.

Lemma log_action_leaves d uid un ac re ri de ip s :
  db_works s -> exists s', log_action d uid un ac re ri de ip s = (Ok tt, s') /\
    leaves s' s (auth_of s) (set_audit_log (tables (db_of s)) (audit_log (tables (db_of s)) ++
      [{| al_id := d_serial d; al_time := d_text d; al_user_id := uid; al_username := un; al_action := ac;
          al_resource := re; al_resource_id := ri; al_detail := de; al_ip := ip |}])).
Proof.
  intros Hs. eexists. split; [reflexivity|]. unfold execute, leaves. cbn [tick tables].
  assert (faults (tick (db_of s)) (calls (db_of s)) = false) as -> by apply Hs.
  cbn [snd]. by rewrite auth_of_with_db, db_of_with.
Qed.

Lemma login_verify_bad d ip req s :
  db_works s -> credentials_ok req (tables (db_of s)) = None ->
  exists s', login_verify d ip req s = (Err AuthFailed, s') /\
    leaves s' s (record_login_failure (d_instant d) ip (auth_of s)) (tables (db_of s)).
Proof.
  intros Hs Hc. unfold login_verify, bind, db, mmap_err, fetch_optional. rewrite query_run by done. cbn [map_err].
  unfold credentials_ok in Hc. set (s1 := with_db s _).
  assert (Hfail : exists s', @login_failed LoginResponse (d_instant d) ip s1 = (Err AuthFailed, s') /\
    leaves s' s (record_login_failure (d_instant d) ip (auth_of s)) (tables (db_of s))).
  { eexists. split; [reflexivity|]. unfold leaves, s1. by rewrite auth_of_with, db_of_with_auth, auth_of_with_db, db_of_with. }
  destruct (user_named _ _) as [u|]; [|exact Hfail]. destruct (usr_is_active u); [|exact Hfail].
  cbn [negb]. by destruct (Password.verify _ _).
Qed.

(** The claims a login signs. *)
Definition login_token (d : Draws) (req : LoginRequest) (u : User) (a : AuthState) : option str :=
  generate d (usr_id u) (lr_username req) (usr_role u) (jwt_secret a) (N.min (jwt_expiry_hours a) 168).

Lemma login_verify_good d ip req s u tok :
  db_works s -> credentials_ok req (tables (db_of s)) = Some u -> login_token d req u (auth_of s) = Some tok ->
  exists s', login_verify d ip req s =
      (Ok {| token := tok; expires_in := jwt_expiry_hours (auth_of s) * 3600; lrole := usr_role u;
             requires_password_change :=
               (lr_password req =s? "admin") && negb (allow_default_password (auth_of s)) |}, s') /\
    leaves s' s (set_attempts (delete ip (login_attempts (auth_of s))) (auth_of s))
      (set_audit_log (tables (db_of s)) (audit_log (tables (db_of s)) ++
        [{| al_id := d_serial d; al_time := d_text d; al_user_id := usr_id u; al_username := lr_username req;
            al_action := lit "login"; al_resource := lit "session"; al_resource_id := None; al_detail := None;
            al_ip := ip |}])).
Proof.
  intros Hs Hc Htok. unfold login_verify, bind, db, mmap_err, fetch_optional. rewrite query_run by done. cbn [map_err].
  unfold credentials_ok in Hc. destruct (user_named _ _) as [u'|]; [|done].
  destruct (usr_is_active u') eqn:Hact; [|done]. destruct (Password.verify _ _) eqn:Hpw; [|done].
  injection Hc as ->. cbn [negb]. unfold modify_auth, modify, gets.
  set (s1 := with_db s _). set (s2 := with_auth s1 _).
  assert (Ha2 : auth_of s2 = set_attempts (delete ip (login_attempts (auth_of s))) (auth_of s)).
  { unfold s2, s1. by rewrite auth_of_with, auth_of_with_db. }
  assert (Hd2 : db_of s2 = tick (db_of s)) by (unfold s2, s1; by rewrite db_of_with_auth, db_of_with).
  rewrite Ha2. cbn [jwt_secret jwt_expiry_hours set_attempts allow_default_password]. unfold login_token in Htok.
  rewrite Htok. cbn [ok_or]. unfold lift.
  destruct (log_action_leaves d (usr_id u) (lr_username req) (lit "login") (lit "session") None None ip s2)
    as (s3 & -> & Ha3 & Ht3 & Hf3).
  { unfold db_works. rewrite Hd2. exact Hs. }
  eexists. split; [reflexivity|]. split; [by rewrite Ha3|]. rewrite Ht3, Hf3, Hd2. done.
Qed.

(** Past the guard: the counter may have been reset, which changes nothing of
    what follows. *)
Lemma login_unlocked d ip req s :
  locked (d_instant d) ip (auth_of s) = false ->
  exists s1, login d ip req s = login_verify d ip req s1 /\ db_of s1 = db_of s /\
    record_login_failure (d_instant d) ip (auth_of s1)
      = set_attempts (<[ip := failures (d_instant d) ip (auth_of s)]> (login_attempts (auth_of s))) (auth_of s) /\
    set_attempts (delete ip (login_attempts (auth_of s1))) (auth_of s1)
      = set_attempts (delete ip (login_attempts (auth_of s))) (auth_of s) /\
    exists m, auth_of s1 = set_attempts m (auth_of s).
Proof.
  intros Hl. unfold login, bind at 1.
  destruct (login_guard_run (d_instant d) ip s) as [[_ Hl']|(_ & a' & -> & Ha' & Hf)]; [congruence|].
  exists (with_auth s a'). split; [done|]. split; [by rewrite db_of_with_auth|]. rewrite auth_of_with.
  assert (Hw : exists e, a' = auth_of s \/ a' = set_attempts (<[ip := e]> (login_attempts (auth_of s))) (auth_of s)).
  { destruct Ha' as [->|[e ->]]; [exists (0, 0); by left|exists e; by right]. }
  destruct Hw as [e Hw]. destruct (failures_written (auth_of s) a' ip (d_instant d) e Hw Hf) as [Hrec Hdel].
  split; [exact Hrec|]. split; [exact Hdel|].
  destruct Hw as [->| ->]; eexists; [|done]. by instantiate (1 := login_attempts (auth_of s)); destruct (auth_of s).
Qed.

Lemma login_locked d ip req s :
  locked (d_instant d) ip (auth_of s) = true -> login d ip req s = (Err TooManyRequests, s).
Proof.
  intros Hl. unfold login, bind. destruct (login_guard_run (d_instant d) ip s) as [[-> _]|(Hl' & _)]; [done|congruence].
Qed.

Lemma login_bad d ip req s :
  db_works s -> locked (d_instant d) ip (auth_of s) = false -> credentials_ok req (tables (db_of s)) = None ->
  exists s', login d ip req s = (Err AuthFailed, s') /\
    leaves s' s (set_attempts (<[ip := failures (d_instant d) ip (auth_of s)]> (login_attempts (auth_of s))) (auth_of s))
      (tables (db_of s)).
Proof.
  intros Hs Hl Hc. destruct (login_unlocked d ip req s Hl) as (s1 & -> & Hd1 & Hrec & _).
  destruct (login_verify_bad d ip req s1) as (s' & -> & Ha & Ht & Hf); [unfold db_works; by rewrite Hd1|by rewrite Hd1|].
  exists s'. split; [done|]. unfold leaves. by rewrite Ha, Ht, Hf, Hrec, Hd1.
Qed.

(** on a working database, when tokens can be signed: a locked address is
    refused whatever it sends and nothing changes; otherwise wrong
    credentials, an unknown name or an inactive user fail alike and count one
    more failure of the address within its window; and good ones clear the
    counter, leave one audit entry and give a token for at most 168 hours,
    with the configured lifetime as [expires_in] even when that is longer. *)
Theorem login_correct d ip req s :
  db_works s ->
  (forall u, credentials_ok req (tables (db_of s)) = Some u -> login_token d req u (auth_of s) <> None) ->
  let a := auth_of s in
  let t := tables (db_of s) in
  exists s', match fst (login d ip req s) with
  | Err TooManyRequests => locked (d_instant d) ip a = true /\ s' = s
  | Err AuthFailed => locked (d_instant d) ip a = false /\ credentials_ok req t = None /\
      leaves s' s (set_attempts (<[ip := failures (d_instant d) ip a]> (login_attempts a)) a) t
  | Ok resp => locked (d_instant d) ip a = false /\ exists u, credentials_ok req t = Some u /\
      jwt_encode {| sub := usr_id u; username := lr_username req; role := usr_role u;
                    exp := d_utc d + N.min (jwt_expiry_hours a) 168 * 3600; iat := d_utc d; jti := d_uuid d |}
        (jwt_secret a) = Some (token resp) /\
      expires_in resp = jwt_expiry_hours a * 3600 /\
      leaves s' s (set_attempts (delete ip (login_attempts a)) a)
        (set_audit_log t (audit_log t ++
          [{| al_id := d_serial d; al_time := d_text d; al_user_id := usr_id u; al_username := lr_username req;
              al_action := lit "login"; al_resource := lit "session"; al_resource_id := None; al_detail := None;
              al_ip := ip |}]))
  | Err _ => False
  end /\ snd (login d ip req s) = s'.
Proof.
  intros Hs Htok a t. exists (snd (login d ip req s)). split; [|done].
  destruct (locked (d_instant d) ip a) eqn:Hl; [by rewrite login_locked by done|].
  destruct (credentials_ok req t) as [u|] eqn:Hc.
  - specialize (Htok u Hc). destruct (login_token d req u a) as [tok|] eqn:Ht; [|done].
    destruct (login_unlocked d ip req s Hl) as (s1 & -> & Hd1 & _ & Hdel & m & Ha1).
    assert (Htok1 : login_token d req u (auth_of s1) = Some tok) by (by rewrite Ha1).
    destruct (login_verify_good d ip req s1 u tok) as (s' & -> & Ha & Ht' & Hf');
      [unfold db_works; by rewrite Hd1|by rewrite Hd1|done|].
    cbn [fst snd]. split; [done|]. exists u. split; [done|]. split; [exact Ht|].
    split; [cbn [expires_in]; by rewrite Ha1|]. unfold leaves. by rewrite Ha, Ht', Hf', Hdel, Hd1.
  - destruct (login_bad d ip req s Hs Hl Hc) as (s' & -> & Hlv). by split.
Qed.

(** Attempts from one address, one after the other. *)
Fixpoint logins (ip : str) (l : list (Draws * LoginRequest)) (s : S) : list (result LoginResponse AppError) * S :=
  match l with
  | [] => ([], s)
  | (d, req) :: l' =>
      let '(r, s') := login d ip req s in
      let '(rs, s'') := logins ip l' s' in
      (r :: rs, s'')
  end.

Lemma logins_locked ip l s start k :
  login_attempts (auth_of s) !! ip = Some (k, start) -> MAX_LOGIN_FAILURES <= k ->
  Forall (fun x => d_instant (fst x) - start <= FAILURE_WINDOW) l ->
  logins ip l s = (repeat (Err TooManyRequests) (length l), s).
Proof.
  intros He Hk. induction 1 as [|[d req] l Hx _ IH]; [done|]. cbn [logins]. rewrite login_locked.
  - by rewrite IH.
  - unfold locked. rewrite He. cbn [fst] in Hx. lia.
Qed.

Lemma logins_counting ip l s start k :
  db_works s -> login_attempts (auth_of s) !! ip = Some (k, start) -> k <= MAX_LOGIN_FAILURES ->
  Forall (fun x => d_instant (fst x) - start <= FAILURE_WINDOW) l ->
  Forall (fun x => credentials_ok (snd x) (tables (db_of s)) = None) (take (N.to_nat (MAX_LOGIN_FAILURES - k)) l) ->
  fst (logins ip l s) = repeat (Err AuthFailed) (min (N.to_nat (MAX_LOGIN_FAILURES - k)) (length l))
    ++ repeat (Err TooManyRequests) (length l - N.to_nat (MAX_LOGIN_FAILURES - k)) /\
  tables (db_of (snd (logins ip l s))) = tables (db_of s).
Proof.
  revert s k. induction l as [|[d req] l IH]; intros s k Hs He Hk Hw Hbad.
  - rewrite Nat.min_0_r. done.
  - destruct (N.eq_dec k MAX_LOGIN_FAILURES) as [->|Hne].
    { rewrite (logins_locked ip _ s start MAX_LOGIN_FAILURES He) by (done || lia).
      rewrite N.sub_diag. cbn [N.to_nat Nat.min repeat app fst snd]. by rewrite Nat.sub_0_r. }
    unfold MAX_LOGIN_FAILURES in *. apply Forall_cons in Hw as [Hx Hw]. cbn [fst] in Hx.
    assert (Hn : N.to_nat (5 - k) = Datatypes.S (N.to_nat (5 - (k + 1)))) by lia. rewrite Hn in *.
    cbn [firstn] in Hbad. apply Forall_cons in Hbad as [Hc Hbad]. cbn [snd] in Hc.
    destruct (login_bad d ip req s Hs) as (s1 & Hr & Ha1 & Ht1 & Hf1); [|exact Hc|].
    { unfold locked, MAX_LOGIN_FAILURES. rewrite He. assert ((5 <=? k) = false) as -> by lia. apply andb_false_r. }
    assert (Hfail : failures (d_instant d) ip (auth_of s) = (k + 1, start)).
    { unfold failures. rewrite He. cbn [from_option id].
      assert ((FAILURE_WINDOW <? d_instant d - start) = false) as -> by lia. f_equal. apply N.mod_small. lia. }
    destruct (IH s1 (k + 1)) as [Hrs Ht].
    + unfold db_works. by rewrite Hf1.
    + rewrite Ha1, Hfail. cbn [login_attempts set_attempts]. by rewrite lookup_insert_eq.
    + lia.
    + exact Hw.
    + rewrite Ht1. exact Hbad.
    + cbn [logins]. rewrite Hr. destruct (logins ip l s1) as [rs s2]. cbn [fst snd length Nat.min repeat app Nat.sub] in *.
      rewrite Hrs, Ht. by rewrite Ht1.
Qed.

(** C19: within fifteen minutes of its first failure an address gets at most
    five tries: after five failed logins in a row every further one is
    refused, with good credentials too, and no login of the run changes the
    database. *)
Theorem login_rate_limit ip l d0 req0 s :
  db_works s -> login_attempts (auth_of s) !! ip = None ->
  Forall (fun x => d_instant (fst x) - d_instant d0 <= FAILURE_WINDOW) l ->
  Forall (fun x => credentials_ok (snd x) (tables (db_of s)) = None) (take 5 ((d0, req0) :: l)) ->
  fst (logins ip ((d0, req0) :: l) s)
    = repeat (Err AuthFailed) (min 5 (Datatypes.S (length l))) ++ repeat (Err TooManyRequests) (length l - 4) /\
  tables (db_of (snd (logins ip ((d0, req0) :: l) s))) = tables (db_of s).
Proof.
  intros Hs Hnone Hw Hbad. cbn [firstn] in Hbad. apply Forall_cons in Hbad as [Hc Hbad]. cbn [snd] in Hc.
  destruct (login_bad d0 ip req0 s Hs) as (s1 & Hr & Ha1 & Ht1 & Hf1); [unfold locked; by rewrite Hnone|exact Hc|].
  assert (Hfail : failures (d_instant d0) ip (auth_of s) = (1, d_instant d0)).
  { unfold failures. rewrite Hnone. cbn [from_option id]. rewrite N.sub_diag. done. }
  destruct (logins_counting ip l s1 (d_instant d0) 1) as [Hrs Ht].
  - unfold db_works. by rewrite Hf1.
  - rewrite Ha1, Hfail. cbn [login_attempts set_attempts]. by rewrite lookup_insert_eq.
  - unfold MAX_LOGIN_FAILURES. lia.
  - exact Hw.
  - rewrite Ht1. exact Hbad.
  - cbn [logins]. rewrite Hr. destruct (logins ip l s1) as [rs s2].
    change (N.to_nat (MAX_LOGIN_FAILURES - 1)) with 4%nat in Hrs. cbn [fst snd Nat.min repeat app] in *.
    rewrite Hrs, Ht. by rewrite Ht1.
Qed.

(** ** Sessions *)

(** The secret stays and no token leaves the blacklist. *)
Definition tokens_kept (a a' : AuthState) : Prop :=
  jwt_secret a' = jwt_secret a /\ token_blacklist a ⊆ token_blacklist a'.
#[global] Instance tokens_kept_preorder : PreOrder tokens_kept.
Proof. split; [done|]. intros a b c [H1a H1b] [H2a H2b]. split; [congruence|set_solver]. Qed.

(** One call of the API: these handlers, and any other, which leave the
    tokens alone. *)
Inductive api_step : S -> S -> Prop :=
| StepLogin d ip req s : api_step s (snd (login d ip req s))
| StepLogout d p s : api_step s (snd (logout d p s))
| StepChangePassword d p req s : api_step s (snd (change_password d p req s))
| StepOther s s' : tokens_kept (auth_of s) (auth_of s') -> api_step s s'.

Lemma login_tokens d ip req : auth_keeps tokens_kept (login d ip req).
Proof.
  unfold login, login_guard, login_verify, login_failed.
  solve_keeps; intros a'; try done; unfold record_login_failure; by destruct (default _ _).
Qed.
Lemma logout_tokens d p : auth_keeps tokens_kept (logout d p).
Proof. unfold logout. solve_keeps. intros a'. split; [done|]. cbn [token_blacklist set_blacklist]. set_solver. Qed.
Lemma change_password_tokens d p req : auth_keeps tokens_kept (change_password d p req).
Proof.
  unfold change_password. apply keeps_bind; [apply _| |].
  - intros s. by rewrite AuthUser_state.
  - intros c. solve_keeps.
Qed.

Lemma api_steps_tokens s s' : rtc api_step s s' -> tokens_kept (auth_of s) (auth_of s').
Proof.
  induction 1 as [s|s s1 s2 Hstep _ IH]; [done|]. transitivity (auth_of s1); [|exact IH].
  destruct Hstep as [d ip req s|d p s|d p req s|s s1 Hs];
    [apply login_tokens|apply logout_tokens|apply change_password_tokens|exact Hs].
Qed.

Definition bearer (token : str) (p : Parts) : Prop := h_authorization p = Some (lit "Bearer " ++ token).

Lemma AuthUser_run `{!JwtDoc} d p s c token :
  bearer token p -> jwt_encode c (jwt_secret (auth_of s)) = Some token ->
  AuthUser d p s =
    (if (d_utc d <=? exp c + 60) && negb (bool_decide (jti c ∈ token_blacklist (auth_of s)))
     then Ok c else Err AuthFailed, s).
Proof.
  intros Hp He. unfold AuthUser, bind, gets, lift, verify. rewrite Hp. cbn [ok_or]. rewrite strip_prefix_app. cbn [ok_or].
  destruct (d_utc d <=? exp c + 60) eqn:Hexp.
  - rewrite (jwt_roundtrip c _ _ _ He) by lia. cbn [ok_or andb]. by destruct (bool_decide _).
  - destruct (jwt_decode _ _ _) as [c'|] eqn:Hd; [|done]. exfalso.
    pose proof (jwt_roundtrip c _ _ 0 He ltac:(lia)) as H0'.
    pose proof (jwt_unique _ _ _ _ _ _ Hd H0') as ->. apply jwt_expired in Hd. lia.
Qed.

(** C17: a signed token identifies its user exactly until a minute after its
    expiry and while its identifier is not on the blacklist, whatever has
    become of the account since; it opens the administration exactly when its
    role is admin or super_admin; and after a logout with it, however the API
    is used from then on, it is refused for ever. *)
Theorem session_correct `{!JwtDoc} p s c token :
  bearer token p -> jwt_encode c (jwt_secret (auth_of s)) = Some token ->
  (forall d, fst (AuthUser d p s) = Ok c <->
     d_utc d <= exp c + 60 /\ jti c ∉ token_blacklist (auth_of s)) /\
  (forall d c', fst (AdminUser d p s) = Ok c' <->
     c' = c /\ fst (AuthUser d p s) = Ok c /\ (role c = lit "admin" \/ role c = lit "super_admin")) /\
  (forall d, d_utc d <= exp c + 60 -> forall s2 d2, rtc api_step (snd (logout d p s)) s2 ->
     fst (AuthUser d2 p s2) = Err AuthFailed).
Proof.
  intros Hp He. split; [|split].
  - intros d. rewrite (AuthUser_run d p s c token Hp He). cbn [fst].
    destruct (d_utc d <=? exp c + 60) eqn:Hexp, (bool_decide_reflect (jti c ∈ token_blacklist (auth_of s)));
      cbn [andb negb]; split; naive_solver lia.
  - intros d c'. unfold AdminUser, bind. rewrite (AuthUser_run d p s c token Hp He). cbn [fst].
    destruct ((d_utc d <=? exp c + 60) && _); [|naive_solver].
    destruct (role c =s? "admin") eqn:Hr1; [apply str_eqb_eq in Hr1; cbn [orb]; unfold ret; cbn [fst]; naive_solver|].
    destruct (role c =s? "super_admin") eqn:Hr2; cbn [orb]; unfold ret, fail; cbn [fst];
      apply str_eqb_neq in Hr1; [apply str_eqb_eq in Hr2|apply str_eqb_neq in Hr2]; naive_solver.
  - intros d Hd s2 d2 Hsteps. apply api_steps_tokens in Hsteps as [Hsec Hbl].
    unfold logout, bind, gets, verify in Hsec, Hbl. rewrite Hp in Hsec, Hbl. cbn [option_bind mbind] in Hsec, Hbl.
    rewrite strip_prefix_app, (jwt_roundtrip c _ _ _ He Hd) in Hsec, Hbl.
    unfold modify_auth, modify in Hsec, Hbl. cbn [snd] in Hsec, Hbl. rewrite auth_of_with in Hsec, Hbl.
    cbn [jwt_secret token_blacklist set_blacklist] in Hsec, Hbl.
    rewrite (AuthUser_run d2 p s2 c token Hp) by (by rewrite Hsec). cbn [fst].
    rewrite bool_decide_true by set_solver. by rewrite andb_false_r.
Qed.

End auth.
End Auth.

(** ** Concrete inputs *)

(** Tokens and hashes for the witnesses: a token is the encoding of the
    secret and the claims, a hash is the password. *)
Module RefCrypto.
Definition claims_tuple (c : Claims) : str * str * str * N * N * str :=
  (sub c, username c, role c, exp c, iat c, jti c).
Definition tuple_claims (x : str * str * str * N * N * str) : Claims :=
  let '(a, b, c, d, e, f) := x in {| sub := a; username := b; role := c; exp := d; iat := e; jti := f |}.
#[export] Instance jwt : Jwt := {|
  jwt_encode c secret := Some [Npos (encode (secret, claims_tuple c))];
  jwt_decode now token secret :=
    match token with
    | [Npos p] =>
        match decode p : option (str * (str * str * str * N * N * str)) with
        | Some (k, x) =>
            let c := tuple_claims x in
            if bool_decide (k = secret) && (now <=? exp c + 60) then Some c else None
        | None => None
        end
    | _ => None
    end;
|}.
#[export] Instance jwt_doc : JwtDoc.
Proof.
  constructor.
  - intros c secret token now [= <-] Hn. cbn [jwt_decode jwt]. rewrite decode_encode.
    rewrite bool_decide_true by done. destruct c as [a b c d e f]. cbn [tuple_claims claims_tuple sub username role exp iat jti] in *.
    by rewrite (proj2 (N.leb_le _ _) Hn).
  - intros c secret token now. cbn [jwt_decode jwt]. destruct token as [|[|p] [|]]; try done.
    destruct (decode p) as [[k x]|]; [|done]. destruct (bool_decide _); [|done]. cbn [andb].
    destruct (N.leb_spec now (exp (tuple_claims x) + 60)) as [Hle|]; [|done]. by intros [= <-].
  - intros c c' secret token now now'. cbn [jwt_decode jwt]. destruct token as [|[|p] [|]]; try done.
    destruct (decode p) as [[k x]|]; [|done]. destruct (bool_decide _ && _); [|done].
    destruct (bool_decide _ && _); [|done]. by intros [= <-] [= <-].
Qed.
#[export] Instance argon2 : Argon2 := {|
  PasswordHash := str; PasswordHash_new := Some; verify_password p h := p =s? h;
  hash_password p _ := Some p;
|}.
End RefCrypto.

Module AuthWitness.
Import RefCrypto Api Auth.

Definition user (id name pw r : string) (active : bool) : User :=
  {| usr_id := lit id; usr_username := lit name; usr_password := lit pw; usr_role := lit r;
     usr_is_active := active; usr_created_at := []; usr_updated_at := [] |}.
Definition draws (utc instant : N) (id : string) : Draws :=
  {| d_utc := utc; d_text := lit "now"; d_instant := instant; d_uuid := lit id; d_serial := 1; d_salt := [] |}.
Definition state0 : AppState :=
  {| app_db := {| tables := set_users empty_db [user "1" "ann" "secret-pw" "admin" true; user "2" "bob" "pw" "operator" false];
                  calls := 0; faults := fun _ => false |};
     app_auth := {| jwt_secret := lit "key"; jwt_expiry_hours := 500; allow_default_password := false;
                    login_attempts := ∅; ws_tickets := ∅; token_blacklist := ∅ |} |}.
Definition req (name pw : string) : LoginRequest := {| lr_username := lit name; lr_password := lit pw |}.

Lemma login_correct_witness :
  match fst (login (draws 1000 0 "t1") (lit "10.0.0.1") (req "ann" "secret-pw") state0) with
  | Ok resp => expires_in resp = 500 * 3600
  | Err _ => False
  end.
Proof.
  destruct (login_correct (draws 1000 0 "t1") (lit "10.0.0.1") (req "ann" "secret-pw") state0) as (s' & H & _);
    [by intros n|done|].
  destruct (fst (login _ _ _ state0)) as [resp|e] eqn:Hr.
  - destruct H as (_ & u & _ & _ & He & _). exact He.
  - apply (f_equal is_ok) in Hr. revert Hr. vm_compute. discriminate.
Defined.

Lemma login_rate_limit_witness :
  fst (logins (lit "10.0.0.1")
    ((draws 0 7 "a", req "ann" "x") :: map (fun n => (draws n n "a", req "ann" "x")) [8; 9; 10; 11]
      ++ [(draws 12 12 "a", req "ann" "secret-pw")]) state0)
  = repeat (Err AuthFailed) 5 ++ [Err TooManyRequests].
Proof.
  destruct (login_rate_limit (lit "10.0.0.1")
    (map (fun n => (draws n n "a", req "ann" "x")) [8; 9; 10; 11] ++ [(draws 12 12 "a", req "ann" "secret-pw")])
    (draws 0 7 "a") (req "ann" "x") state0) as [H _].
  - by intros n.
  - done.
  - repeat (apply Forall_cons_2; [vm_compute; discriminate|]). apply Forall_nil_2.
  - repeat (apply Forall_cons_2; [vm_compute; reflexivity|]). apply Forall_nil_2.
  - exact H.
Defined.

Definition ann : Claims :=
  {| sub := lit "1"; username := lit "ann"; role := lit "admin"; exp := 1000 + 168 * 3600; iat := 1000; jti := lit "t1" |}.
Definition with_token : Parts :=
  {| h_authorization := Some (lit "Bearer " ++ default [] (jwt_encode ann (lit "key")));
     h_forwarded_for := None; h_real_ip := None; peer := None |}.
Lemma session_correct_witness :
  fst (AuthUser (draws 2000 0 "x") with_token state0) = Ok ann /\
  fst (AuthUser (draws 2002 0 "z") with_token (snd (logout (draws 2001 0 "y") with_token state0))) = Err AuthFailed.
Proof.
  assert (He : jwt_encode ann (jwt_secret (auth_of state0)) = Some (default [] (jwt_encode ann (lit "key")))).
  { vm_compute. reflexivity. }
  destruct (session_correct with_token state0 ann (default [] (jwt_encode ann (lit "key"))) eq_refl He) as (Hok & _ & Hout).
  split.
  - apply Hok. split; [vm_compute; discriminate|]. apply not_elem_of_empty.
  - apply (Hout (draws 2001 0 "y")); [vm_compute; discriminate|apply rtc_refl].
Defined.

End AuthWitness.
