(* ===== verification/Users.v ===== *)
(** * User management: src/api/handlers/users.rs

    The change of a role is two parts, the checks and the statements that
    follow; they run one after the other, but nothing ties them into a
    transaction. *)
From S2P Require Import Prelude RustStr IpAddr Db Api Auth.
Local Open Scope N_scope.

Record CreateUserRequest := { cu_username : str; cu_password : str; cu_role : str }.
(** The JSON of a user, without the password. *)
Record UserJson := {
  uj_id : str; uj_username : str; uj_role : str; uj_is_active : bool; uj_created_at : str; uj_updated_at : str }.

(** The roles of src/db/models/user.rs.  The code keeps them as texts:
    [can_write] and [can_manage_users] are called nowhere. *)
Inductive Role := SuperAdmin | AdminRole | Operator | ReadOnly.
#[global] Instance Role_dec : EqDecision Role.
Proof. solve_decision. Defined.
Definition role_str (r : Role) : str :=
  match r with
  | SuperAdmin => lit "super_admin" | AdminRole => lit "admin" | Operator => lit "operator" | ReadOnly => lit "read_only"
  end.
Definition can_write (r : Role) : bool := bool_decide (r ∈ [SuperAdmin; AdminRole; Operator]).
Definition can_manage_users (r : Role) : bool := bool_decide (r ∈ [SuperAdmin; AdminRole]).

Module Users.
Section users.
Context {S : Type} `{HasDb S, HasAuth S, Jwt, Argon2, Collation}.
Import Api.

Definition validate_role (role : str) : result unit AppError :=
  if (role =s? "super_admin") || (role =s? "admin") || (role =s? "operator") || (role =s? "read_only") then Ok tt
  else Err (Validation (lit "Invalid role: " ++ role
              ++ lit ". Must be one of: super_admin, admin, operator, read_only")).

(** The accepted texts are those of the roles, and the extractor of the
    administrators lets pass the roles that manage users. *)
Lemma validate_role_roles role : validate_role role = Ok tt <-> exists r, role = role_str r.
Proof.
  unfold validate_role. split.
  - destruct (_ || _) eqn:Hr; [|done]. intros _. rewrite !orb_true_iff, !(str_eqb_eq role) in Hr.
    destruct Hr as [[[->| ->]| ->]| ->];
      [exists SuperAdmin|exists AdminRole|exists Operator|exists ReadOnly]; reflexivity.
  - by intros [[] ->].
Qed.
Lemma AdminUser_roles d p s c r : fst (AuthUser d p s) = Ok c -> Api.role c = role_str r ->
  fst (AdminUser d p s) = if can_manage_users r then Ok c else Err (Unauthorized "Admin or super_admin role required").
Proof.
  intros Hc Hr. unfold AdminUser, bind. destruct (AuthUser d p s) as [[c'|e] s1]; [|done].
  injection Hc as ->. rewrite Hr. by destruct r.
Qed.

(** [ORDER BY created_at DESC] *)
Fixpoint insert_newest (u : User) (l : list User) : list User :=
  match l with
  | [] => [u]
  | v :: l' => if text_lt (usr_created_at v) (usr_created_at u) then u :: l else v :: insert_newest u l'
  end.
Definition user_json (u : User) : UserJson :=
  {| uj_id := usr_id u; uj_username := usr_username u; uj_role := usr_role u; uj_is_active := usr_is_active u;
     uj_created_at := usr_created_at u; uj_updated_at := usr_updated_at u |}.
Definition list_users (d : Draws) (p : Parts) : M S AppError (list UserJson) :=
  AdminUser d p ;;;
  let! rows := db (fetch_all (fun t => fold_left (fun l u => insert_newest u l) (users t) [])) in
  ret (map user_json rows).

(** [INSERT INTO users]: the keys and the check of the table. *)
Definition insert_user (u : User) (t : Db) : result (unit * Db) DbError :=
  if existsb (fun v => (usr_id v =s? usr_id u) || (usr_username v =s? usr_username u)) (users t) then Err UniqueViolation
  else if is_ok (validate_role (usr_role u)) then Ok (tt, set_users t (users t ++ [u]))
  else Err CheckViolation.

Definition create (d : Draws) (p : Parts) (body : CreateUserRequest) : M S AppError UserJson :=
  let ip := ClientIp p in
  let! admin := AdminUser d p in
  lift (validate_role (cu_role body)) ;;;
  let name := trim (cu_username body) in
  if is_empty name then fail (Validation "Username cannot be empty")
  else if len (cu_password body) <? 8 then fail (Validation "Password must be at least 8 characters")
  else
    let! existing := db (fetch_optional (Auth.user_named name)) in
    match existing with
    | Some _ => fail (Validation (lit "Username '" ++ name ++ lit "' already exists"))
    | None =>
        let! password_hash := lift (ok_or (Password.hash (cu_password body) (d_salt d)) (Internal [])) in
        let u := {| usr_id := d_uuid d; usr_username := name; usr_password := password_hash; usr_role := cu_role body;
                    usr_is_active := true; usr_created_at := d_text d; usr_updated_at := d_text d |} in
        db (execute (insert_user u)) ;;;
        log_action d (sub admin) (username admin) "create" "user" (Some (usr_id u))
          (Some (lit "username=" ++ name ++ lit ", role=" ++ cu_role body)) ip ;;;
        ret (user_json u)
    end.

Definition is_super (u : User) : bool := usr_role u =s? "super_admin".
(** [SELECT COUNT( * ) FROM users WHERE role = 'super_admin' AND is_active] *)
Definition super_admins (t : Db) : nat := length (List.filter (fun u => is_super u && usr_is_active u) (users t)).

(** The checks of [update_role]: the administrator and the user to change. *)
Definition update_role_check (d : Draws) (p : Parts) (id new_role : str) : M S AppError (Claims * User) :=
  let! admin := AdminUser d p in
  lift (validate_role new_role) ;;;
  let! existing := db (fetch_optional (Auth.user_by_id id)) in
  let! u := lift (ok_or existing (NotFound (lit "User " ++ id ++ lit " not found"))) in
  if is_super u && negb (new_role =s? "super_admin") then
    let! super_admin_count := db (fetch_one (fun t => Some (super_admins t))) in
    if (super_admin_count <=? 1)%nat then
      fail (Validation "Cannot change role: at least one super_admin must remain")
    else ret (admin, u)
  else ret (admin, u).

Definition change_role (new_role now : str) (u : User) : User :=
  {| usr_id := usr_id u; usr_username := usr_username u; usr_password := usr_password u; usr_role := new_role;
     usr_is_active := usr_is_active u; usr_created_at := usr_created_at u; usr_updated_at := now |}.
Definition set_role (id new_role now : str) (t : Db) : Db :=
  set_users t (map (fun u => if usr_id u =s? id then change_role new_role now u else u) (users t)).

(** The statements of [update_role]. *)
Definition update_role_commit (d : Draws) (ip : str) (admin : Claims) (id new_role : str) (u : User)
    : M S AppError UserJson :=
  db (execute (fun t => Ok (tt, set_role id new_role (d_text d) t))) ;;;
  log_action d (sub admin) (username admin) "update_role" "user" (Some id)
    (Some (lit "username=" ++ usr_username u ++ lit ", role=" ++ usr_role u ++ lit "->" ++ new_role)) ip ;;;
  ret {| uj_id := id; uj_username := usr_username u; uj_role := new_role; uj_is_active := usr_is_active u;
         uj_created_at := usr_created_at u; uj_updated_at := d_text d |}.

Definition update_role (d : Draws) (p : Parts) (id new_role : str) : M S AppError UserJson :=
  let! checked := update_role_check d p id new_role in
  update_role_commit d (ClientIp p) (fst checked) id new_role (snd checked).

(** ** The users after each call *)

Context `{!HasDbLaws S, !HasAuthLaws S}.

Definition users_of (s : S) : list User := users (tables (db_of s)).

Lemma log_users d uid un ac re ri de ip s : users_of (snd (log_action d uid un ac re ri de ip s)) = users_of s.
Proof.
  unfold log_action, execute, users_of. cbn [snd tick tables]. destruct (faults _ _); cbn [snd]; by rewrite db_of_with.
Qed.

Lemma AdminUser_cases d p s :
  (exists c, AdminUser d p s = (Ok c, s)) \/ exists e, AdminUser d p s = (Err e, s).
Proof.
  pose proof (AdminUser_state d p s) as Hs. destruct (AdminUser d p s) as [[c|e] s1]; cbn [snd] in Hs; subst s1; eauto.
Qed.

Lemma query_users {A} (q : Db -> result A DbError) s : users_of (snd (query q s)) = users_of s.
Proof. unfold users_of, query. cbn [snd]. by rewrite db_of_with. Qed.

(** A call that reads, then goes on. *)
Lemma bind_query {A B} (q : Db -> result A DbError) (k : A -> M S AppError B) s :
  exists s1, users_of s1 = users_of s /\ tables (db_of s1) = tables (db_of s) /\
    ((exists a, q (tables (db_of s)) = Ok a /\ bind (db (query q)) k s = k a s1) \/
     exists e, bind (db (query q)) k s = (Err e, s1)).
Proof.
  exists (snd (query q s)). split; [apply query_users|]. split; [unfold query; cbn [snd]; by rewrite db_of_with|].
  unfold bind, db, mmap_err, query. cbn zeta. destruct (faults _ _); cbn [map_err snd]; [right; by eexists|].
  destruct (q _) as [a|e]; cbn [map_err]; [left|right]; by eexists.
Qed.

Lemma update_role_check_run d p id new_role s r s' :
  update_role_check d p id new_role s = (r, s') ->
  users_of s' = users_of s /\
  forall c u, r = Ok (c, u) -> Auth.user_by_id id (tables (db_of s)) = Some u /\
    (is_super u = true -> (new_role =s? "super_admin") = false -> (2 <= super_admins (tables (db_of s)))%nat).
Proof.
  unfold update_role_check, fetch_optional, fetch_one. unfold bind at 1.
  destruct (AdminUser_cases d p s) as [[c ->]|[e ->]]; [|intros [= <- <-]; by split].
  unfold bind at 1, lift at 1. destruct (validate_role new_role); [|intros [= <- <-]; by split].
  match goal with |- context [bind (db (query ?q)) ?k s] =>
    destruct (bind_query q k s) as (s1 & Hu1 & Ht1 & [(row & Hq & ->)|[e' ->]]) end; [|intros [= <- <-]; by split].
  unfold bind at 1, lift. destruct row as [u|]; cbn [ok_or]; [|intros [= <- <-]; by split].
  destruct (is_super u && negb (new_role =s? "super_admin")) eqn:Hc.
  - match goal with |- context [bind (db (query ?q)) ?k s1] =>
      destruct (bind_query q k s1) as (s2 & Hu2 & Ht2 & [(n & Hn & ->)|[e' ->]]) end.
    + injection Hn as <-. rewrite Ht1.
      destruct (super_admins (tables (db_of s)) <=? 1)%nat eqn:Hle; intros [= <- <-]; (split; [congruence|]); [done|].
      intros c' u' [= <- <-]. split; [by injection Hq|]. intros _ _. apply Nat.leb_gt in Hle. lia.
    + intros [= <- <-]. split; [congruence|done].
  - intros [= <- <-]. split; [exact Hu1|]. intros c' u' [= <- <-]. split; [by injection Hq|].
    intros Hs Hn. by rewrite Hs, Hn in Hc.
Qed.

Lemma update_role_commit_users d ip c id new_role u s :
  users_of (snd (update_role_commit d ip c id new_role u s)) = users_of s \/
  users_of (snd (update_role_commit d ip c id new_role u s))
    = map (fun u => if usr_id u =s? id then change_role new_role (d_text d) u else u) (users_of s).
Proof.
  unfold update_role_commit, bind, db, mmap_err.
  destruct (execute (fun t => Ok (tt, set_role id new_role (d_text d) t)) s) as [[[]|e] s1] eqn:He; cbn [map_err].
  - right. unfold ret.
    match goal with |- context [log_action ?a ?b ?c ?d ?e ?f ?g ?h ?s] => pose proof (log_users a b c d e f g h s) as Hl;
      destruct (log_action a b c d e f g h s) as [[[]|] s2]; cbn [snd] in * end; rewrite Hl.
    all: apply execute_Ok in He as [He _]; injection He as He; unfold users_of; by rewrite <- He.
  - left. cbn [snd]. unfold users_of. by rewrite (execute_Err _ _ _ _ He).
Qed.

Lemma create_users d p body s r s' :
  create d p body s = (r, s') ->
  users_of s' = users_of s \/
  exists u, users_of s' = users_of s ++ [u] /\ usr_id u ∉ map usr_id (users_of s).
Proof.
  unfold create, fetch_optional. unfold bind at 1.
  destruct (AdminUser_cases d p s) as [[c ->]|[e ->]]; [|intros [= _ <-]; by left].
  unfold bind at 1, lift at 1. destruct (validate_role _); [|intros [= _ <-]; by left].
  destruct (is_empty _); [intros [= _ <-]; by left|]. destruct (_ <? 8); [intros [= _ <-]; by left|].
  match goal with |- context [bind (db (query ?q)) ?k s] =>
    destruct (bind_query q k s) as (s1 & Hu1 & Ht1 & [(row & Hq & ->)|[e' ->]]) end; [|intros [= _ <-]; by left].
  destruct row; [intros [= _ <-]; by left|]. unfold bind at 1, lift.
  destruct (Password.hash _ _); cbn [ok_or]; [|intros [= _ <-]; by left]. cbn zeta.
  match goal with |- context [insert_user ?u] => set (v := u) end.
  unfold bind at 1, db, mmap_err.
  destruct (execute (insert_user v) s1) as [[[]|e] s2] eqn:He; cbn [map_err].
  - apply execute_Ok in He as [He _]. unfold insert_user in He.
    destruct (existsb _ _) eqn:Hex; [done|]. destruct (is_ok _); [|done]. injection He as He.
    unfold bind, ret. match goal with |- context [log_action ?a ?b ?c ?d ?e ?f ?g ?h ?s] =>
      pose proof (log_users a b c d e f g h s) as Hl; destruct (log_action a b c d e f g h s) as [[[]|] s3]; cbn [snd] in * end;
      intros [= _ <-]; right; exists v; rewrite Hl.
    all: unfold users_of in *; rewrite <- He; cbn [users set_users]; rewrite Ht1; split; [done|].
    all: intros [u' [Hid Hin]]%list_elem_of_fmap; apply not_true_iff_false in Hex; apply Hex;
      apply existsb_exists; exists u'; rewrite Ht1; split; [by apply list_elem_of_In|];
      by rewrite <- Hid, str_eqb_refl.
  - intros [= _ <-]. left. unfold users_of in *. by rewrite (execute_Err _ _ _ _ He).
Qed.

Lemma find_unique {A} (f : A -> str) l u v id :
  find (fun x => f x =s? id) l = Some u -> v ∈ l -> f v = id -> NoDup (map f l) -> v = u.
Proof.
  induction l as [|x l IH]; [done|]. cbn [find map]. intros Hf Hv Hid [Hx Hnd]%NoDup_cons.
  destruct (f x =s? id) eqn:He.
  - injection Hf as <-. apply elem_of_cons in Hv as [->|Hv]; [done|]. exfalso. apply Hx.
    apply str_eqb_eq in He. rewrite He, <- Hid. apply list_elem_of_fmap. by exists v.
  - apply elem_of_cons in Hv as [->|Hv]; [by rewrite Hid, str_eqb_refl in He|]. by apply IH.
Qed.

(** ** A super administrator remains *)

(** The users one call after the other: these handlers, and any other, which
    leave identifiers, roles and activity alone. *)
Definition privileges (u : User) : str * str * bool := (usr_id u, usr_role u, usr_is_active u).
Inductive user_step : S -> S -> Prop :=
| StepCreate d p body s : user_step s (snd (create d p body s))
| StepUpdateRole d p id new_role s : user_step s (snd (update_role d p id new_role s))
| StepElse s s' : map privileges (users_of s') = map privileges (users_of s) -> user_step s s'.

Definition admin_row (x : str * str * bool) : bool := (snd (fst x) =s? "super_admin") && snd x.
Lemma super_admins_alt t : super_admins t = length (List.filter admin_row (map privileges (users t))).
Proof.
  unfold super_admins. induction (users t) as [|u l IH]; [done|]. cbn [map List.filter].
  change (admin_row (privileges u)) with (is_super u && usr_is_active u).
  destruct (is_super u && usr_is_active u); cbn [length]; by rewrite IH.
Qed.

Definition user_inv (l : list (str * str * bool)) : Prop :=
  NoDup (map (fun x => fst (fst x)) l) /\ (1 <= length (List.filter admin_row l))%nat.

(** The change of one row takes away one super administrator at most. *)
Lemma set_role_count id new_role l :
  NoDup (map (fun x => fst (fst x)) l) ->
  (length (List.filter admin_row l)
   <= 1 + length (List.filter admin_row (map (fun x => if fst (fst x) =s? id then (id, new_role, snd x) else x) l)))%nat.
Proof.
  induction l as [|[[i r] b] l IH]; cbn [map]; [simpl; lia|]. intros [Hi Hnd]%NoDup_cons. cbn [fst snd].
  destruct (i =s? id) eqn:Hid.
  - apply str_eqb_eq in Hid as ->.
    assert (map (fun x => if fst (fst x) =s? id then (id, new_role, snd x) else x) l = l) as ->.
    { rewrite <- (map_id l) at 2. apply map_ext_in. intros x Hx. destruct (fst (fst x) =s? id) eqn:Hx'; [|done].
      exfalso. apply Hi. apply str_eqb_eq in Hx' as <-. apply list_elem_of_fmap. exists x. split; [done|]. by apply list_elem_of_In. }
    cbn [List.filter]. destruct (admin_row _), (admin_row _); cbn [length]; lia.
  - specialize (IH Hnd). cbn [List.filter]. destruct (admin_row _); cbn [length]; lia.
Qed.

Lemma set_role_keep id new_role l :
  (new_role =s? "super_admin") = true ->
  (length (List.filter admin_row l)
   <= length (List.filter admin_row (map (fun x => if fst (fst x) =s? id then (id, new_role, snd x) else x) l)))%nat.
Proof.
  intros Hn. induction l as [|[[i r] b] l IH]; cbn [map]; [simpl; lia|]. cbn [fst snd].
  destruct (i =s? id); cbn [List.filter];
    repeat match goal with |- context [admin_row (?x, ?y, ?z)] =>
      change (admin_row (x, y, z)) with ((y =s? "super_admin") && z) end;
    rewrite ?Hn; destruct (r =s? "super_admin"), b; cbn [andb length]; lia.
Qed.

(** One changed role among rows with different identifiers. *)
Lemma changed_privileges id new_role now l :
  map privileges (map (fun u => if usr_id u =s? id then change_role new_role now u else u) l)
  = map (fun x => if fst (fst x) =s? id then (id, new_role, snd x) else x) (map privileges l).
Proof.
  rewrite !map_map. apply map_ext. intros u. cbn [privileges fst snd].
  destruct (usr_id u =s? id) eqn:Hid; [|done]. apply str_eqb_eq in Hid. unfold privileges, change_role. cbn. by rewrite Hid.
Qed.

Lemma changed_ids id new_role (l : list (str * str * bool)) :
  map (fun x => fst (fst x)) (map (fun x => if fst (fst x) =s? id then (id, new_role, snd x) else x) l)
  = map (fun x => fst (fst x)) l.
Proof.
  rewrite map_map. apply map_ext. intros x. destruct (fst (fst x) =s? id) eqn:Hid; [|done].
  by apply str_eqb_eq in Hid as ->.
Qed.

(** The only row that counts less is one that was a super administrator. *)
Lemma set_role_other id new_role l :
  (forall x, x ∈ l -> fst (fst x) = id -> (snd (fst x) =s? "super_admin") = false) ->
  (length (List.filter admin_row l)
   <= length (List.filter admin_row (map (fun x => if fst (fst x) =s? id then (id, new_role, snd x) else x) l)))%nat.
Proof.
  induction l as [|[[i r] b] l IH]; cbn [map]; [simpl; lia|]. intros Hx.
  specialize (IH (fun x Hin => Hx x (list_elem_of_further _ _ _ Hin))). cbn [fst snd].
  destruct (i =s? id) eqn:Hid.
  - apply str_eqb_eq in Hid. pose proof (Hx (i, r, b) (list_elem_of_here _ _) Hid) as Hr. cbn [fst snd] in Hr.
    cbn [List.filter]. change (admin_row (i, r, b)) with ((r =s? "super_admin") && b). rewrite Hr. cbn [andb].
    destruct (admin_row _); cbn [length]; lia.
  - cbn [List.filter]. destruct (admin_row _); cbn [length]; lia.
Qed.

Lemma update_role_inv d p id new_role s :
  user_inv (map privileges (users_of s)) -> user_inv (map privileges (users_of (snd (update_role d p id new_role s)))).
Proof.
  intros [Hnd Hsuper]. unfold update_role, bind.
  destruct (update_role_check d p id new_role s) as [[[c u]|e] s1] eqn:Hc; cbn [snd].
  2: { destruct (update_role_check_run _ _ _ _ _ _ _ Hc) as [-> _]. by split. }
  destruct (update_role_check_run _ _ _ _ _ _ _ Hc) as [Hu1 Hcount]. cbn [fst snd].
  destruct (update_role_commit_users d (ClientIp p) c id new_role u s1) as [->| ->]; rewrite Hu1; [by split|].
  rewrite changed_privileges. split; [by rewrite changed_ids|].
  destruct (Hcount c u eq_refl) as [Hfind Htwo].
  destruct (new_role =s? "super_admin") eqn:Hn.
  - etransitivity; [exact Hsuper|]. by apply set_role_keep.
  - destruct (is_super u) eqn:Hs.
    + specialize (Htwo eq_refl eq_refl). rewrite super_admins_alt in Htwo.
      pose proof (set_role_count id new_role _ Hnd). unfold users_of in *. lia.
    + etransitivity; [exact Hsuper|]. apply set_role_other.
      intros x [v [-> Hv]]%list_elem_of_fmap Hid. rewrite map_map in Hnd.
      assert (v = u) as -> by (by eapply find_unique). exact Hs.
Qed.

Lemma user_step_inv s s' :
  user_step s s' -> user_inv (map privileges (users_of s)) -> user_inv (map privileges (users_of s')).
Proof.
  intros Hstep Hinv. destruct Hstep as [d p body s|d p id new_role s|s s' Heq].
  - destruct (create d p body s) as [r s'] eqn:Hc. cbn [snd].
    destruct (create_users _ _ _ _ _ _ Hc) as [->|(u & -> & Hu)]; [done|]. destruct Hinv as [Hnd Hsuper].
    rewrite map_app. split.
    + rewrite map_app. apply NoDup_app. split; [done|]. split.
      * intros x Hx Heq%list_elem_of_singleton. apply Hu. rewrite map_map in Hx. by rewrite Heq in Hx.
      * apply NoDup_singleton.
    + rewrite List.filter_app, length_app. lia.
  - by apply update_role_inv.
  - by rewrite Heq.
Qed.

(** however the users are created and their roles changed, one call after
    the other, and whatever statements fail: identifiers stay unique and an
    active super administrator remains.  A caller without an administrator's
    token changes nothing. *)
Theorem super_admin_remains s s' :
  user_inv (map privileges (users_of s)) -> rtc user_step s s' ->
  user_inv (map privileges (users_of s')) /\ (1 <= super_admins (tables (db_of s')))%nat /\
  forall d p e, fst (AdminUser d p s') = Err e ->
    (forall body, create d p body s' = (Err e, s')) /\ (forall id new_role, update_role d p id new_role s' = (Err e, s')).
Proof.
  intros Hinv Hsteps. assert (Hinv' : user_inv (map privileges (users_of s'))).
  { induction Hsteps as [s|s s1 s' Hstep _ IH]; [done|]. by eapply IH, user_step_inv. }
  split; [done|]. split; [rewrite super_admins_alt; apply Hinv'|].
  intros d p e He. destruct (AdminUser_cases d p s') as [[c Hc]|[e' Hc]]; rewrite Hc in He; [done|].
  injection He as ->. split; intros.
  - unfold create, bind at 1. by rewrite Hc.
  - unfold update_role, update_role_check, bind. by rewrite Hc.
Qed.

End users.
End Users.

(** ** Concrete inputs *)

Module UsersWitness.
Import RefCrypto RefJson Api Users AuthWitness.

Definition two_admins : AppState :=
  {| app_db := {| tables := set_users empty_db [user "1" "ann" "pw" "super_admin" true; user "2" "bob" "pw" "super_admin" true;
                                                user "3" "eve" "pw" "super_admin" false];
                  calls := 0; faults := fun _ => false |};
     app_auth := app_auth state0 |}.
Definition d0 : Draws := draws 2000 0 "u".

Lemma super_admin_remains_witness :
  super_admins (tables (db_of (snd (update_role d0 with_token (lit "2") (lit "operator")
    (snd (update_role d0 with_token (lit "1") (lit "operator") two_admins)))))) <> 0%nat.
Proof.
  destruct (super_admin_remains two_admins (snd (update_role d0 with_token (lit "2") (lit "operator")
    (snd (update_role d0 with_token (lit "1") (lit "operator") two_admins))))) as (_ & Hs & _).
  - split; [apply (bool_decide_unpack _); vm_compute; done|vm_compute; lia].
  - eapply rtc_l; [apply StepUpdateRole|]. eapply rtc_l; [apply StepUpdateRole|]. apply rtc_refl.
  - lia.
Defined.

(** Two demotions whose checks both run before the first statement: no super
    administrator remains. *)
Example demotion_race :
  match update_role_check d0 with_token (lit "1") (lit "operator") two_admins with
  | (Ok (c1, u1), s1) =>
      match update_role_check d0 with_token (lit "2") (lit "operator") s1 with
      | (Ok (c2, u2), s2) =>
          super_admins (tables (db_of (snd (update_role_commit d0 [] c2 (lit "2") (lit "operator") u2
            (snd (update_role_commit d0 [] c1 (lit "1") (lit "operator") u1 s2)))))) = 0%nat
      | _ => False
      end
  | _ => False
  end.
Proof. vm_compute. reflexivity. Qed.
End UsersWitness.
