(* ===== verification/Ws.v ===== *)
(** * WebSocket tickets: src/api/handlers/ws.rs

    The ticket a client draws with its token and opens the live view with.
    The cleanup task of src/api/mod.rs works on its own copy of the map. *)
From S2P Require Import Prelude RustStr IpAddr Db Api Auth.
Local Open Scope N_scope.

Inductive WsResponse := Upgrade | TicketExpired | TicketInvalid.

Module Ws.
Section ws.
Context {S : Type} `{HasDb S, HasAuth S, Jwt}.
Import Api.

Definition WS_TICKET_TTL : N := 30 * 1000000000.

Definition retain_tickets (now : N) (m : gmap str N) : gmap str N :=
  filter (fun kv => now - snd kv < WS_TICKET_TTL) m.

Definition issue_ticket (d : Draws) (p : Parts) : M S AppError str :=
  AuthUser d p ;;;
  modify_auth (fun a => set_tickets (retain_tickets (d_instant d) (ws_tickets a)) a) ;;;
  let ticket := d_uuid d in
  modify_auth (fun a => set_tickets (<[ticket := d_instant d]> (ws_tickets a)) a) ;;;
  ret ticket.

(** [remove] takes the ticket whatever its age. *)
Definition query_log_ws (now : N) (ticket : str) (s : S) : WsResponse * S :=
  let removed := ws_tickets (auth_of s) !! ticket in
  let s' := with_auth s (set_tickets (delete ticket (ws_tickets (auth_of s))) (auth_of s)) in
  match removed with
  | Some issued_at => (if now - issued_at <? WS_TICKET_TTL then Upgrade else TicketExpired, s')
  | None => (TicketInvalid, s')
  end.

(** The cleanup task: [ws_tickets.clone()] copies the map when the task is
    started, and every tick prunes the copy. *)
Definition cleanup_spawn (s : S) : gmap str N := ws_tickets (auth_of s).
Definition cleanup_tick (now : N) (copy : gmap str N) : gmap str N :=
  filter (fun kv => now - 120 * 1000000000 < snd kv) copy.

(** ** Tickets over a run *)

Inductive event := Issued (ticket : str) (at_ : N) | Opened (ticket : str) (at_ : N).

Definition issued_event (d : Draws) (r : result str AppError) : list event :=
  match r with Ok ticket => [Issued ticket (d_instant d)] | Err _ => [] end.
Definition opened_event (now : N) (ticket : str) (r : WsResponse) : list event :=
  match r with Upgrade => [Opened ticket now] | _ => [] end.

Inductive run (s0 : S) : list event -> S -> Prop :=
| RunStart : run s0 [] s0
| RunIssue tr s d p r s' :
    run s0 tr s -> issue_ticket d p s = (r, s') -> run s0 (tr ++ issued_event d r) s'
| RunConnect tr s now ticket r s' :
    run s0 tr s -> query_log_ws now ticket s = (r, s') -> run s0 (tr ++ opened_event now ticket r) s'
| RunOther tr s s' :
    run s0 tr s -> ws_tickets (auth_of s') = ws_tickets (auth_of s) -> run s0 tr s'.

Definition is_issued (k : str) (e : event) : bool := match e with Issued k' _ => k' =s? k | _ => false end.
Definition is_opened (k : str) (e : event) : bool := match e with Opened k' _ => k' =s? k | _ => false end.
Definition count (f : event -> bool) (tr : list event) : nat := length (List.filter f tr).
Lemma count_app f tr1 tr2 : count f (tr1 ++ tr2) = (count f tr1 + count f tr2)%nat.
Proof. unfold count. by rewrite List.filter_app, length_app. Qed.

Lemma count_one f e : count f [e] = if f e then 1%nat else 0%nat.
Proof. unfold count. cbn [List.filter]. by destruct (f e). Qed.

Context `{!HasDbLaws S, !HasAuthLaws S}.

Lemma issue_ticket_run d p s r s' :
  issue_ticket d p s = (r, s') ->
  match r with
  | Ok k => k = d_uuid d /\ is_ok (fst (AuthUser d p s)) = true /\
      ws_tickets (auth_of s') = <[d_uuid d := d_instant d]> (retain_tickets (d_instant d) (ws_tickets (auth_of s)))
  | Err e => fst (AuthUser d p s) = Err e /\ s' = s
  end.
Proof.
  unfold issue_ticket, bind. pose proof (AuthUser_state d p s) as Hs.
  destruct (AuthUser d p s) as [[c|e] s1]; cbn [snd fst] in *; subst s1; intros [= <- <-]; [|done].
  split; [done|]. split; [done|]. by rewrite !auth_of_with.
Qed.

(** The tickets that are kept were issued, and each stands for an issue that
    has not been used. *)
Definition held (o : option N) : nat := match o with Some _ => 1 | None => 0 end.
Definition ticket_inv (tr : list event) (m : gmap str N) : Prop :=
  (forall k t, m !! k = Some t -> Issued k t ∈ tr) /\
  (forall k, (count (is_opened k) tr + held (m !! k) <= count (is_issued k) tr)%nat) /\
  (forall tr1 tr2 k now, tr = tr1 ++ Opened k now :: tr2 -> exists t, Issued k t ∈ tr1 /\ now - t < WS_TICKET_TTL).

Lemma split_snoc_event (tr : list event) e tr1 x tr2 :
  tr ++ [e] = tr1 ++ x :: tr2 -> (x = e /\ tr1 = tr) \/ exists tr2', tr = tr1 ++ x :: tr2'.
Proof.
  destruct tr2 as [|y tr2 _] using rev_ind.
  - intros [-> [= ->]]%app_inj_tail. by left.
  - intros Heq. right. rewrite app_comm_cons, app_assoc in Heq. apply app_inj_tail in Heq as [-> _]. by exists tr2.
Qed.

Lemma ticket_inv_run s0 tr s : ws_tickets (auth_of s0) = ∅ -> run s0 tr s -> ticket_inv tr (ws_tickets (auth_of s)).
Proof.
  intros H0'. induction 1 as [|tr s d p r s' _ IH Hi|tr s now k r s' _ IH Hc|tr s s' _ IH Ht].
  - rewrite H0'. split; [intros k t Hk; by rewrite lookup_empty in Hk|]. split.
    + intros k. by rewrite lookup_empty.
    + intros [|] ? ? ? [=].
  - apply issue_ticket_run in Hi. destruct r as [k|e]; cbn [issued_event].
    2: { destruct Hi as [_ ->]. by rewrite app_nil_r. }
    destruct Hi as (-> & _ & ->). destruct IH as (Hin & Hcnt & Hadm). split; [|split].
    + intros k t. destruct (decide (k = d_uuid d)) as [->|Hne].
      * rewrite lookup_insert_eq. intros [= <-]. apply elem_of_app. right. by left.
      * rewrite lookup_insert_ne by done. intros [Hk _]%map_lookup_filter_Some. apply elem_of_app. left. by apply Hin.
    + intros k. rewrite !count_app. rewrite !count_one. cbn [is_issued is_opened]. specialize (Hcnt k).
      destruct (decide (k = d_uuid d)) as [->|Hne].
      * rewrite lookup_insert_eq. rewrite str_eqb_refl. cbn [held]. destruct (ws_tickets _ !! _); cbn [held] in *; lia.
      * rewrite lookup_insert_ne by done. unfold retain_tickets.
        destruct (filter _ (ws_tickets (auth_of s)) !! k) as [t|] eqn:Hk; cbn [held]; [|lia].
        apply map_lookup_filter_Some in Hk as [Hk _]. rewrite Hk in Hcnt. cbn [held] in Hcnt. lia.
    + intros tr1 tr2 k now Heq. apply split_snoc_event in Heq as [[[=] _]|[tr2' ->]]. by eapply Hadm.
  - unfold query_log_ws in Hc. destruct IH as (Hin & Hcnt & Hadm).
    destruct (ws_tickets (auth_of s) !! k) as [t|] eqn:Hk.
    + injection Hc as <- <-. rewrite auth_of_with. cbn [ws_tickets set_tickets].
      destruct (now - t <? WS_TICKET_TTL) eqn:Hlt; cbn [opened_event]; rewrite ?app_nil_r.
      * split; [|split].
        -- intros k' t' [_ Hk']%lookup_delete_Some. apply elem_of_app. left. by apply Hin.
        -- intros k'. rewrite !count_app, !count_one. cbn [is_issued is_opened]. specialize (Hcnt k'). destruct (decide (k' = k)) as [->|Hne].
           ++ rewrite lookup_delete_eq. rewrite Hk in Hcnt. rewrite str_eqb_refl. cbn [held] in *. lia.
           ++ rewrite lookup_delete_ne by done. rewrite (proj2 (str_eqb_neq k k')) by done. lia.
        -- intros tr1 tr2 k' now' Heq. apply split_snoc_event in Heq as [[[= -> ->] ->]|[tr2' ->]].
           ++ exists t. split; [by apply Hin|lia].
           ++ by eapply Hadm.
      * split; [intros k' t' [_ Hk']%lookup_delete_Some; by apply Hin|]. split; [|exact Hadm].
        intros k'. specialize (Hcnt k'). destruct (decide (k' = k)) as [->|Hne].
        -- rewrite lookup_delete_eq. cbn [held]. lia.
        -- by rewrite lookup_delete_ne.
    + injection Hc as <- <-. rewrite auth_of_with. cbn [ws_tickets set_tickets opened_event]. rewrite app_nil_r.
      by rewrite delete_id.
  - by rewrite Ht.
Qed.

(** over any run of the server, a ticket opens the live view at most as
    often as it was issued, never more than once per issue, and only within
    thirty seconds of an issue before; and it is issued to callers with a
    valid token only. *)
Theorem ws_ticket_once s0 tr s :
  ws_tickets (auth_of s0) = ∅ -> run s0 tr s ->
  (forall k, (count (is_opened k) tr <= count (is_issued k) tr)%nat) /\
  (forall tr1 tr2 k now, tr = tr1 ++ Opened k now :: tr2 -> exists t, Issued k t ∈ tr1 /\ now - t < WS_TICKET_TTL) /\
  (forall d p, is_ok (fst (issue_ticket d p s)) = is_ok (fst (AuthUser d p s))).
Proof.
  intros Hs Hr. destruct (ticket_inv_run _ _ _ Hs Hr) as (_ & Hcnt & Hadm). split; [|split; [exact Hadm|]].
  - intros k. specialize (Hcnt k). lia.
  - intros d p. destruct (issue_ticket d p s) as [r s'] eqn:Hi. apply issue_ticket_run in Hi. cbn [fst].
    destruct r as [k|e]; [by destruct Hi as (_ & -> & _)|]. by destruct Hi as [-> _].
Qed.

End ws.
End Ws.

(** ** Concrete inputs *)

Module WsWitness.
Import RefCrypto Api Ws AuthWitness.

Definition issued : AppState := snd (issue_ticket (draws 2000 5 "k") with_token state0).
Definition used : AppState := snd (query_log_ws 6 (lit "k") issued).
Lemma ws_ticket_once_witness :
  fst (query_log_ws 6 (lit "k") issued) = Upgrade /\ fst (query_log_ws 7 (lit "k") used) = TicketInvalid /\
  exists t, Issued (lit "k") t ∈ [Issued (lit "k") 5] /\ 6 - t < WS_TICKET_TTL.
Proof.
  split; [vm_compute; reflexivity|]. split; [vm_compute; reflexivity|].
  assert (Hr : run state0 [Issued (lit "k") 5; Opened (lit "k") 6] used).
  { apply (RunConnect state0 [Issued (lit "k") 5] issued 6 (lit "k") Upgrade).
    - apply (RunIssue state0 [] state0 (draws 2000 5 "k") with_token (Ok (lit "k"))); [apply RunStart|].
      vm_compute. reflexivity.
    - vm_compute. reflexivity. }
  assert (Hnone : ws_tickets (auth_of state0) = ∅) by reflexivity.
  destruct (ws_ticket_once state0 _ used Hnone Hr) as (_ & Hadm & _).
  apply (Hadm [Issued (lit "k") 5] [] (lit "k") 6 eq_refl).
Defined.

(** The cleanup prunes its copy; the map of the server keeps a ticket that was
    never used until the next one is issued. *)
Example cleanup_is_a_copy :
  let copy := cleanup_tick (1000 * 1000000000) (cleanup_spawn issued) in
  (size copy, size (ws_tickets (auth_of issued))) = (0%nat, 1%nat).
Proof. vm_compute. reflexivity. Qed.
End WsWitness.
