(* ===== verification/AuditTrail.v ===== *)
(** * The audit middleware: src/api/middleware/audit.rs

    The middleware passes every request on and its response back; what it
    derives from a write request that succeeded only goes to the log. *)
From S2P Require Import Prelude RustStr IpAddr Regex Db Api.
Local Open Scope N_scope.

(** [http::Method] *)
Inductive Method := GET | HEAD | OPTIONS | POST | PUT | PATCH | DELETE | OtherMethod (name : str).
#[global] Instance Method_eq_dec : EqDecision Method.
Proof. solve_decision. Defined.
Definition method_str (m : Method) : str :=
  match m with
  | GET => lit "GET" | HEAD => lit "HEAD" | OPTIONS => lit "OPTIONS" | POST => lit "POST"
  | PUT => lit "PUT" | PATCH => lit "PATCH" | DELETE => lit "DELETE" | OtherMethod n => n
  end.

Record AuditTrace := {
  at_resource : str; at_action : str; at_user_id : str; at_username : str; at_ip : str; at_status : N }.

Module Audit.
Section audit.
Context `{RustUnicode}.

Definition method_to_action (m : Method) : str :=
  match m with
  | POST => lit "create"
  | PUT | PATCH => lit "update"
  | DELETE => lit "delete"
  | _ => to_lowercase (method_str m)
  end.

(** A UUID or a number, no name of an action. *)
Definition is_id_segment (s : str) : bool :=
  is_empty s
  || forallb is_ascii_digit s
  || (forallb (fun c => is_ascii_hexdigit c || (c =? hyphen)) s
      && (contains_char s hyphen || existsb is_ascii_digit s)).

Definition underscores (s : str) : str := replace_char s hyphen underscore.

Definition sub_action (m : Method) (sub : str) : str :=
  if sub =s? "bulk" then (if bool_decide (m = DELETE) then lit "bulk_delete" else lit "bulk_create")
  else if sub =s? "health" then lit "health_check"
  else if sub =s? "password" then lit "change_password"
  else if existsb (fun w => sub =s? w)
            [lit "refresh"; lit "toggle"; lit "failover"; lit "test"; lit "flush"; lit "ticket"; lit "login";
             lit "logout"; lit "import"; lit "export"; lit "restore"; lit "enable"; lit "disable"]
  then sub
  else method_to_action m ++ lit "_" ++ sub.

Definition derive_resource_action (path : str) (m : Method) : str * str :=
  let stripped :=
    match strip_prefix path "/api/v1/" with
    | Some r => r
    | None => match strip_prefix path "/api/v1" with Some r => r | None => path end
    end in
  let segments := List.filter (fun s => negb (is_empty s)) (split stripped slash) in
  let resource := match segments with s :: _ => underscores s | [] => lit "unknown" end in
  let sub_segments := List.filter (fun s => negb (is_id_segment s)) (tl segments) in
  let action := match sub_segments with [] => method_to_action m | s :: _ => sub_action m (underscores s) end in
  (resource, action).

Context `{Jwt}.

(** The user of the token, empty without a valid one. *)
Definition extract_user (now : N) (p : Parts) (secret : str) : str * str :=
  match h_authorization p ≫= (fun s => strip_prefix s "Bearer ") with
  | Some t =>
      match Api.verify now t secret with
      | Some claims => (sub claims, username claims)
      | None => ([], [])
      end
  | None => ([], [])
  end.

(** [next] gives the response, of which the status matters. *)
Definition audit_middleware {S R} (status : R -> N) (now : N) (secret path : str) (m : Method) (p : Parts)
    (next : S -> R * S) (s : S) : R * S * option AuditTrace :=
  if bool_decide (m = GET) || bool_decide (m = HEAD) || bool_decide (m = OPTIONS) then (next s, None)
  else
    let ip := Api.extract_ip p in
    let '(user_id, user) := extract_user now p secret in
    let '(response, s') := next s in
    if (200 <=? status response) && (status response <? 300) then
      let '(resource, action) := derive_resource_action path m in
      (response, s', Some {| at_resource := resource; at_action := action; at_user_id := user_id; at_username := user;
                             at_ip := ip; at_status := status response |})
    else (response, s', None).

Lemma audit_transparent {S R} (status : R -> N) now secret path m p (next : S -> R * S) s :
  fst (audit_middleware status now secret path m p next s) = next s.
Proof.
  unfold audit_middleware. destruct (_ || _); [done|]. destruct (extract_user _ _ _), (next s).
  destruct (_ && _); [|done]. by destruct (derive_resource_action _ _).
Qed.
End audit.
End Audit.
