(* ===== verification/Validators.v ===== *)
(** * The input validators: src/api/validators, src/api/handlers/rule_validation.rs

    The checks of domains, addresses and rules the API offers before a rule
    is stored, and the endpoint that answers them from a cache. *)
From S2P Require Import Prelude RustStr IpAddr Regex Rules Moka Db Api Auth.
Local Open Scope N_scope.

Record ValidationError := {
  code : str; message : str; field : str; line : option N; column : option N; suggestion : option str }.
(** [ValidationError { line: None, .. }] *)
Definition verr (code : string) (message : str) (field : string) (column : option N) (suggestion : string) : ValidationError :=
  {| code := lit code; message := message; field := lit field; line := None; column := column;
     suggestion := Some (lit suggestion) |}.
(** [map_err(|mut e| { e.field = "rule".to_string(); e })] *)
Definition in_rule (e : ValidationError) : ValidationError :=
  {| code := code e; message := message e; field := lit "rule"; line := line e; column := column e;
     suggestion := suggestion e |}.

Module Validators.
Section validators.
Context `{RustUnicode, RegexEngine}.

Definition is_valid_label_char (c : char) : bool := is_alphanumeric c || (c =? hyphen).

(** The loop over the labels, from the label [i] on. *)
Fixpoint check_labels (domain_len i : N) (labels : list str) : result unit ValidationError :=
  match labels with
  | [] => Ok tt
  | label :: rest =>
      if is_empty label then
        Err (verr "E003" "Domain contains empty label" "domain" (Some (domain_len - i)) "Ensure domain has no consecutive dots")
      else if 63 <? len label then
        Err (verr "E003" (lit "Label '" ++ label ++ lit "' exceeds 63 characters") "domain" None
          "Use shorter labels in the domain")
      else if label =s? "*" then check_labels domain_len (i + 1) rest
      else if negb (forallb is_valid_label_char label) then
        Err (verr "E004" (lit "Label '" ++ label ++ lit "' contains invalid characters") "domain" None
          "Labels can only contain letters, digits, and hyphens")
      else if starts_with_char label hyphen || ends_with_char label hyphen then
        Err (verr "E005" (lit "Label '" ++ label ++ lit "' cannot start or end with hyphen") "domain" None
          "Remove leading/trailing hyphens")
      else check_labels domain_len (i + 1) rest
  end.

Definition validate_domain (input : str) : result unit ValidationError :=
  let s := trim input in
  if is_empty s then
    Err (verr "E001" "Domain cannot be empty" "domain" None "Provide a valid domain like example.com")
  else if 253 <? len s then
    Err (verr "E002" (lit "Domain exceeds 253 characters (got " ++ show_N (len s) ++ lit ")") "domain" None
      "Use a shorter domain name")
  else
    let domain := trim_end_char s dot in
    try! labels :=
      match strip_prefix domain "*." with
      | Some rest =>
          if is_empty rest then
            Err (verr "E003" "Wildcard domain missing target domain" "domain" (Some 1) "Use *.example.com format")
          else Ok (lit "*" :: split rest dot)
      | None => Ok (split domain dot)
      end in
    try! _ := check_labels (len domain) 0 labels in
    if (length labels <? 2)%nat then
      Err (verr "E004" "Domain must have at least 2 labels (e.g., example.com)" "domain" None "Use a fully qualified domain name")
    else Ok tt.

Definition validate_ip (input : str) : result unit ValidationError :=
  let s := trim input in
  if is_empty s then
    Err (verr "E006" "IP address cannot be empty" "ip" None "Provide a valid IPv4 or IPv6 address")
  else if bool_decide (is_Some (parse_ipv4 s)) then Ok tt
  else if bool_decide (is_Some (parse_ipv6 s)) then Ok tt
  else Err (verr "E007" (lit "Invalid IP address format: " ++ s) "ip" None
              "Use IPv4 (e.g., 192.168.1.1) or IPv6 (e.g., 2001:db8::1)").

Definition validate_filter_rule (rule : str) : result unit ValidationError :=
  if starts_with rule "||" then
    map_err in_rule (validate_domain (trim_end_char (trim_start_str rule "||") caret))
  else if starts_with rule "@@||" then
    map_err in_rule (validate_domain (trim_end_char (trim_start_str rule "@@||") caret))
  else
    let plain := map_err in_rule (validate_domain rule) in
    if contains_any rule is_whitespace then
      match split_whitespace rule with
      | ip :: domain :: _ =>
          try! _ := validate_ip ip in
          map_err in_rule (validate_domain domain)
      | _ => plain
      end
    else plain.

(** [rule.find("->")], the position in bytes *)
Definition find_arrow (rule : str) : option N :=
  match split_str2 hyphen 62 rule with
  | before :: _ :: _ => Some (len before)
  | _ => None
  end.

Definition validate_rewrite_rule (rule : str) : result unit ValidationError :=
  match split_str2 hyphen 62 rule with
  | [p0; p1] =>
      let domain := trim p0 in
      let ip := trim p1 in
      if is_empty domain || is_empty ip then
        Err (verr "E010" "Domain and IP cannot be empty in rewrite rule" "rule"
          (Some (match find_arrow rule with Some pos => pos + 2 | None => 0 end)) "Example: myapp.local -> 192.168.1.100")
      else
        try! _ := map_err in_rule (validate_domain domain) in
        map_err in_rule (validate_ip ip)
  | _ =>
      Err (verr "E009" "Rewrite rule must be in format: domain -> IP" "rule"
        (Some (match find_arrow rule with Some pos => pos | None => len rule end)) "Example: myapp.local -> 192.168.1.100")
  end.

Definition validate_rule (rule_type rule : str) : result unit ValidationError :=
  let rule := trim rule in
  if is_empty rule then
    Err (verr "E008" "Rule cannot be empty" "rule" None "Provide a valid rule")
  else if rule_type =s? "filter" then validate_filter_rule rule
  else if rule_type =s? "rewrite" then validate_rewrite_rule rule
  else Err (verr "E011" (lit "Unknown rule type: " ++ rule_type) "type" None "Use 'filter' or 'rewrite' as rule type").

(** ** What the checks accept *)

Definition label_ok (w : str) : bool := (w =s? "*") || Rules.is_valid_label w.

Lemma check_labels_Ok n i ws : check_labels n i ws = Ok tt <-> forallb label_ok ws = true.
Proof.
  revert i. induction ws as [|w ws IH]; intros i; [done|]. cbn [check_labels forallb].
  unfold label_ok at 1, Rules.is_valid_label.
  destruct (is_empty w) eqn:He; [by apply is_empty_true in He as ->|].
  destruct (N.ltb_spec 63 (len w)) as [Hl|Hl].
  { split; [done|]. rewrite (proj2 (N.leb_gt (len w) 63) Hl).
    destruct (w =s? "*")%dns eqn:Hs; [|done]. apply str_eqb_eq in Hs. subst w. done. }
  rewrite (proj2 (N.leb_le (len w) 63) Hl).
  destruct (w =s? "*")%dns eqn:Hs; [cbn [orb andb]; apply IH|]. cbn [orb negb andb].
  change (fun c => is_alphanumeric c || (c =? hyphen)) with is_valid_label_char.
  destruct (forallb is_valid_label_char w); [|done]. cbn [negb andb].
  destruct (starts_with_char w hyphen); [done|]. destruct (ends_with_char w hyphen); [done|]. apply IH.
Qed.

(** The labels of the loop are those between the dots, wildcards included. *)
Lemma split_star rest : split (lit "*." ++ rest) dot = lit "*" :: split rest dot.
Proof. apply (split_by_app _ (lit "*") dot rest); [|done]. by apply lacks_forallb. Qed.

Lemma validate_domain_Ok input :
  let s := trim input in let labels := split (trim_end_char s dot) dot in
  validate_domain input = Ok tt <->
  s <> [] /\ len s <= 253 /\ forallb label_ok labels = true /\ (2 <= length labels)%nat.
Proof.
  cbn zeta. unfold validate_domain. set (s := trim input). destruct (is_empty s) eqn:He.
  { apply is_empty_true in He as ->. naive_solver. }
  apply is_empty_false in He. destruct (N.ltb_spec 253 (len s)) as [Hl|Hl]; [split; [done|lia]|].
  set (D := trim_end_char s dot).
  assert (Hlab : forall ws, ws = split D dot ->
    match check_labels (len D) 0 ws with
    | Ok _ => if (length ws <? 2)%nat
              then Err (verr "E004" "Domain must have at least 2 labels (e.g., example.com)" "domain" None "Use a fully qualified domain name")
              else Ok tt
    | Err e => Err e end = Ok tt <->
    s <> [] /\ len s <= 253 /\ forallb label_ok (split D dot) = true /\ (2 <= length (split D dot))%nat).
  { intros ws ->. pose proof (check_labels_Ok (len D) 0 (split D dot)) as Hc.
    destruct (check_labels (len D) 0 (split D dot)) as [[]|e].
    - destruct (Nat.ltb_spec (length (split D dot)) 2); [split; [done|lia]|].
      split; [intros _; tauto|done].
    - split; [done|]. intros (_ & _ & Hf & _). by apply Hc in Hf. }
  destruct (strip_prefix D "*.") as [rest|] eqn:Hp; [|by apply Hlab].
  apply strip_prefix_Some in Hp. destruct rest as [|c rest].
  - exfalso. assert (Hd : (dot =? dot) = false); [|done].
    apply (trim_end_by_last (N.eqb dot) s dot (lit "*")). exact Hp.
  - cbn [is_empty]. apply Hlab. by rewrite Hp, split_star.
Qed.

(** The position given for an empty label does not wrap around. *)
Lemma column_no_wrap D i w : split D dot !! i = Some w -> N.of_nat i <= len D.
Proof. intros Hi%lookup_lt_Some. pose proof (split_length D dot). pose proof (len_length D). lia. Qed.

(** ** What an accepted rule is to the rule set *)

(** The forms the rule set reads as the validator does: a domain in one word
    with at most one prefix, wildcards inside only after a prefix, and hosts
    lines of a domain outside [.local]. *)
Definition single_prefix (r p : str) : bool :=
  match strip_prefix r p with Some rest => negb (starts_with rest p) | None => true end.
Definition loadable (r : str) : bool :=
  if starts_with r "||" then negb (contains_any r is_whitespace) && single_prefix r "||"
  else if starts_with r "@@||" then negb (contains_any r is_whitespace) && single_prefix r "@@||"
  else if contains_any r is_whitespace then
    match split_whitespace r with
    | _ :: domain :: _ => negb (contains_char domain star) && negb (ends_with domain ".local")
    | _ => false
    end
  else negb (contains_char (default r (strip_prefix r "*.")) star).

Lemma validate_ip_Ok s : validate_ip s = Ok tt -> is_Some (parse_ip (trim s)).
Proof.
  unfold validate_ip. cbn zeta. destruct (is_empty (trim s)); [done|]. intros Hv. apply parse_ip_either.
  destruct (bool_decide (is_Some (parse_ipv4 (trim s)))) eqn:H4; [left; by apply bool_decide_eq_true in H4|].
  destruct (bool_decide (is_Some (parse_ipv6 (trim s)))) eqn:H6; [right; by apply bool_decide_eq_true in H6|done].
Qed.
Lemma map_err_Ok {A E F} (f : E -> F) (r : result A E) a : map_err f r = Ok a -> r = Ok a.
Proof. destruct r; [|done]. by intros [= ->]. Qed.

(** A text in one word the domain check accepts. *)
Section accepted.
Context (p : str) (Ha : str_is_ascii p = true) (Hw : lacks is_whitespace p) (Hv : validate_domain p = Ok tt).
Definition stem : str := trim_end_char p dot.

Lemma accepted_labels : forallb label_ok (split stem dot) = true /\ (2 <= length (split stem dot))%nat /\ len p <= 253.
Proof.
  pose proof (validate_domain_Ok p) as Hok. cbn zeta in Hok. rewrite trim_lacks in Hok by done.
  apply Hok in Hv as (_ & Hl & Hf & Hn). done.
Qed.

Lemma stem_dots : exists k, p = stem ++ k /\ forall c, c ∈ k -> c = dot.
Proof. apply trim_end_char_tail. Qed.

Lemma accepted_char c : c ∈ p -> c = dot \/ c = star \/ Rules.special c = false.
Proof.
  destruct stem_dots as (k & Hp & Hk). destruct accepted_labels as (Hf & _ & _). intros Hc.
  assert (Hac : is_ascii c = true) by (by eapply str_is_ascii_elem).
  rewrite Hp in Hc. apply elem_of_app in Hc as [Hc|Hc]; [|left; auto].
  destruct (elem_of_split stem dot c Hc) as [->|(w & Hin & Hcw)]; [by left|]. right.
  rewrite forallb_forall in Hf. apply list_elem_of_In, Hf in Hin. unfold label_ok in Hin.
  apply orb_true_iff in Hin as [Hs|Hl].
  - apply str_eqb_eq in Hs as ->. left. by apply list_elem_of_singleton in Hcw.
  - right. unfold Rules.is_valid_label in Hl. split_bools.
    match goal with H : forallb _ w = true |- _ => rewrite forallb_forall in H; apply list_elem_of_In, H in Hcw end.
    by apply Rules.domain_char_plain.
Qed.

Lemma accepted_lacks c : Rules.special c = true -> c <> star -> c ∉ p.
Proof. intros Hs Hc [->|[->|Hin]]%accepted_char; [done|done|congruence]. Qed.

Lemma stem_ascii : str_is_ascii stem = true.
Proof. by apply trim_end_char_ascii. Qed.
Lemma stem_has_dot : contains_char stem dot = true.
Proof.
  destruct (contains_char stem dot) eqn:Hc; [done|]. apply contains_char_false in Hc.
  destruct accepted_labels as (_ & Hn & _). unfold split in Hn.
  rewrite split_by_lacks in Hn by (by apply lacks_char). cbn [length] in Hn. clear -Hn. lia.
Qed.
Lemma stem_star : star ∈ p -> contains_char stem star = true.
Proof.
  destruct stem_dots as (k & Hp & Hk). rewrite Hp at 1. intros [Hs|Hs]%elem_of_app; [by apply contains_char_true|].
  by apply Hk in Hs.
Qed.
Lemma stem_char c : c ∈ stem -> c ∈ p.
Proof. destruct stem_dots as (k & Hp & _). intros Hc. rewrite Hp. apply elem_of_app. by left. Qed.

Lemma stem_valid : star ∉ p -> Rules.is_valid_domain stem = true.
Proof.
  intros Hs. destruct accepted_labels as (Hf & Hn & Hl). unfold Rules.is_valid_domain. rewrite stem_has_dot. cbn [negb andb].
  destruct (is_empty stem) eqn:He.
  { apply is_empty_true in He. pose proof stem_has_dot as Hd. by rewrite He in Hd. }
  destruct stem_dots as (k & Hp & _). rewrite Hp, len_app in Hl.
  rewrite (proj2 (N.ltb_ge 253 (len stem))) by lia. cbn [orb].
  rewrite forallb_forall in Hf |- *. intros w Hin. specialize (Hf w Hin). unfold label_ok in Hf.
  apply orb_true_iff in Hf as [->%str_eqb_eq|Hf]; [|exact Hf]. exfalso. apply Hs, stem_char.
  rewrite <- (join_split stem dot). apply list_elem_of_In in Hin. revert Hin. generalize (split stem dot) as ws.
  induction ws as [|w ws IH]; [by intros ?%not_elem_of_nil|]. intros [<-|Hin]%elem_of_cons.
  - destruct ws; cbn [join]; [by left|]. apply elem_of_app. left. by left.
  - destruct ws as [|w' ws]; [by apply not_elem_of_nil in Hin|]. cbn [join]. apply elem_of_app. right.
    apply elem_of_app. right. by apply IH.
Qed.

Lemma normalize_accepted : Rules.normalize_domain p = to_lowercase stem.
Proof. unfold Rules.normalize_domain. by rewrite trim_lacks. Qed.
Lemma normalize_accepted_valid : star ∉ p -> Rules.is_valid_domain (Rules.normalize_domain p) = true.
Proof.
  intros Hs. rewrite normalize_accepted. apply Rules.valid_domain_lower; [apply stem_ascii|by apply stem_valid].
Qed.

Lemma strip_options_accepted tail : tail = [] \/ (exists r, tail = caret :: r) -> Rules.strip_options (p ++ tail) = p.
Proof.
  intros Ht. unfold Rules.strip_options.
  assert (caret ∉ p) by (by apply accepted_lacks). assert (dollar ∉ p) by (by apply accepted_lacks).
  destruct Ht as [->|(r & ->)].
  - rewrite app_nil_r, (split_first_id p caret) by done. by apply split_first_id.
  - rewrite split_first_app by done. by apply split_first_id.
Qed.

(** After [||] it is a domain or a wildcard pattern of the rule set. *)
Lemma parse_accepted tail :
  tail = [] \/ (exists r, tail = caret :: r) ->
  (exists d, Rules.parse_adguard_domain (lit "||" ++ p ++ tail) = Some d) \/
  (Rules.parse_adguard_domain (lit "||" ++ p ++ tail) = None /\
   exists w, Rules.parse_adguard_wildcard_pattern (lit "||" ++ p ++ tail) = Some w).
Proof.
  intros Ht. unfold Rules.parse_adguard_domain, Rules.parse_adguard_wildcard_pattern.
  rewrite strip_prefix_app, strip_options_accepted by done. cbn zeta.
  assert (Htr : trim_end_char (trim_end_char (trim_end_char p bar) slash) dot = stem).
  { rewrite (trim_end_char_lacks p bar) by (by apply accepted_lacks).
    by rewrite (trim_end_char_lacks p slash) by (by apply accepted_lacks). }
  rewrite Htr. destruct (Rules.is_valid_domain (Rules.normalize_domain stem)) eqn:Hn; [left; by eexists|].
  right. split; [done|].
  destruct (decide (star ∈ p)) as [Hs|Hs].
  - rewrite (to_lowercase_ascii stem stem_ascii). rewrite !contains_char_lower by (done || apply stem_ascii).
    rewrite (stem_star Hs), stem_has_dot. by eexists.
  - exfalso. pose proof (stem_valid Hs) as Hval.
    rewrite Rules.normalize_valid in Hn by (done || apply stem_ascii).
    by rewrite Rules.valid_domain_lower in Hn by (done || apply stem_ascii).
Qed.
End accepted.

(** A rule after [||] or [@@||], the domain with its carets. *)
Lemma adguard_part r q rest :
  q <> [] -> strip_prefix r q = Some rest -> single_prefix r q = true ->
  trim_start_str r q = rest.
Proof.
  intros Hq Hs H1. unfold single_prefix in H1. rewrite Hs in H1. apply negb_true_iff in H1.
  unfold trim_start_str. pose proof (proj1 (strip_prefix_Some _ _ _) Hs) as Hr.
  destruct q as [|c q]; [done|]. rewrite Hr. cbn [app length trim_start_str_fuel].
  change (c :: q ++ rest) with ((c :: q) ++ rest). rewrite strip_prefix_app.
  destruct (length (q ++ rest)); cbn [trim_start_str_fuel]; [done|].
  unfold starts_with in H1. by destruct (strip_prefix rest (c :: q)).
Qed.

Lemma adguard_accepted r q rest :
  (q = lit "||" \/ q = lit "@@||") ->
  str_is_ascii r = true -> contains_any r is_whitespace = false -> single_prefix r q = true ->
  strip_prefix r q = Some rest ->
  validate_domain (trim_end_char (trim_start_str r q) caret) = Ok tt ->
  (exists d, Rules.parse_adguard_domain (lit "||" ++ rest) = Some d) \/
  (Rules.parse_adguard_domain (lit "||" ++ rest) = None /\
   exists w, Rules.parse_adguard_wildcard_pattern (lit "||" ++ rest) = Some w).
Proof.
  intros Hq Ha Hw H1 Hs Hv. rewrite (adguard_part r q rest) in Hv by (done || by destruct Hq as [-> | ->]).
  apply strip_prefix_Some in Hs. apply no_white_space in Hw. rewrite Hs in Ha, Hw.
  rewrite str_is_ascii_app in Ha. apply andb_true_iff in Ha as [_ Ha]. apply lacks_app in Hw as [_ Hw].
  destruct (trim_end_char_tail rest caret) as (k & Hk & Hcs).
  assert (Hap : str_is_ascii (trim_end_char rest caret) = true) by (by apply trim_end_char_ascii).
  assert (Hwp : lacks is_whitespace (trim_end_char rest caret)) by (rewrite Hk in Hw; by apply lacks_app in Hw as [Hw _]).
  revert Hv Hk Hap Hwp. generalize (trim_end_char rest caret) as d. intros d Hv -> Hap Hwp.
  apply parse_accepted; [done|done|done|].
  destruct k as [|c k]; [by left|right]. exists k. by rewrite (Hcs c) by left.
Qed.

Lemma accepted_bar rs r :
  str_is_ascii r = true -> trim r = r -> starts_with r "||" = true -> loadable r = true ->
  validate_filter_rule r = Ok tt -> snd (Rules.add_rule rs r) = true.
Proof.
  intros Ha Ht Hs Hl Hv. unfold loadable in Hl. unfold validate_filter_rule in Hv. rewrite Hs in Hl, Hv.
  apply andb_true_iff in Hl as [Hw%negb_true_iff H1]. apply map_err_Ok in Hv.
  apply starts_with_true in Hs as [rest ->].
  pose proof (adguard_accepted _ _ rest (or_introl eq_refl) Ha Hw H1 (strip_prefix_app _ _) Hv) as Hp.
  unfold Rules.add_rule. rewrite Ht. change (lit "||" ++ rest) with (bar :: bar :: rest) in *.
  cbn [is_empty starts_with_char orb andb N.eqb Pos.eqb].
  destruct ((bar :: bar :: rest =s? lit "||*^") || (bar :: bar :: rest =s? lit "||*")); [done|].
  rewrite strip_prefix_lit_ne by done.
  destruct Hp as [[d ->]|[-> [w ->]]]; done.
Qed.

Lemma accepted_at rs r :
  str_is_ascii r = true -> trim r = r -> starts_with r "||" = false -> starts_with r "@@||" = true ->
  loadable r = true -> validate_filter_rule r = Ok tt -> snd (Rules.add_rule rs r) = true.
Proof.
  intros Ha Ht Hb Hs Hl Hv. unfold loadable in Hl. unfold validate_filter_rule in Hv. rewrite Hb, Hs in Hl, Hv.
  apply andb_true_iff in Hl as [Hw%negb_true_iff H1]. apply map_err_Ok in Hv.
  apply starts_with_true in Hs as [rest ->].
  pose proof (adguard_accepted _ _ rest (or_intror eq_refl) Ha Hw H1 (strip_prefix_app _ _) Hv) as Hp.
  unfold Rules.add_rule. rewrite Ht. change (lit "@@||" ++ rest) with (64 :: 64 :: bar :: bar :: rest) in *.
  cbn [is_empty starts_with_char orb andb N.eqb Pos.eqb].
  assert (forall t, (64 :: 64 :: bar :: bar :: rest =s? lit (String (Ascii.ascii_of_N bar) t)) = false) as Hne.
  { intros t. by apply str_eqb_neq. }
  rewrite !Hne. cbn [orb]. change (64 :: 64 :: bar :: bar :: rest) with (lit "@@" ++ (lit "||" ++ rest)).
  rewrite strip_prefix_app. destruct Hp as [[d ->]|[-> [w ->]]]; done.
Qed.

(** A hosts line. *)
Lemma accepted_hosts rs c r ip w ws :
  str_is_ascii (c :: r) = true -> trim (c :: r) = c :: r ->
  split_whitespace (c :: r) = ip :: w :: ws ->
  contains_char w star = false -> ends_with w ".local" = false ->
  validate_ip ip = Ok tt -> validate_domain w = Ok tt -> snd (Rules.add_rule rs (c :: r)) = true.
Proof.
  intros Ha Ht Hs Hst Hlo Hip Hv. assert (Hc : is_whitespace c = false) by (by eapply trim_head).
  assert (Hwip : lacks is_whitespace ip) by (eapply split_whitespace_lacks; rewrite Hs; by left).
  assert (Hww : lacks is_whitespace w) by (eapply split_whitespace_lacks; rewrite Hs; right; by left).
  assert (Haw : str_is_ascii w = true) by (eapply split_whitespace_ascii; [exact Ha|]; rewrite Hs; right; by left).
  apply validate_ip_Ok in Hip. rewrite trim_lacks in Hip by done.
  destruct (split_whitespace_head c r Hc) as (v & vs & Hh). rewrite Hs in Hh. injection Hh as -> _.
  destruct (parse_ip_front _ _ Hip) as (? & ? & ? & ? & ? & ?).
  rewrite Rules.add_rule_plain_line by done. rewrite (strip_prefix_lit_ne c r) by done.
  assert (exists d, Rules.parse_hosts_line (c :: r) = Some d) as [d ->]; [|done].
  unfold Rules.parse_hosts_line. rewrite Hs. destruct Hip as [a ->]. rewrite Hlo, orb_false_r.
  apply contains_char_false in Hst. cbn zeta.
  rewrite (normalize_accepted_valid w Haw Hww Hv Hst).
  destruct (str_eqb_neq w "localhost") as [_ ->]; [by eexists|]. intros ->. by vm_compute in Hv.
Qed.

Section plain.
Context (r : str) (Ha : str_is_ascii r = true) (Hw : lacks is_whitespace r) (Hv : validate_domain r = Ok tt).

Lemma accepted_front : exists c k, r = c :: k /\ c <> dot.
Proof.
  destruct (accepted_labels r Hw Hv) as (Hf & _ & _). destruct (stem_dots r) as (k & Hr & _).
  destruct (stem r) as [|c x]; [done|]. exists c, (x ++ k). split; [exact Hr|]. intros ->.
  unfold split in Hf. cbn [split_by] in Hf. by rewrite N.eqb_refl in Hf.
Qed.

Lemma hosts_word : Rules.parse_hosts_line r = None.
Proof.
  unfold Rules.parse_hosts_line. destruct accepted_front as (c & k & Hr & _).
  rewrite split_whitespace_word by (done || by rewrite Hr). by destruct (parse_ip r).
Qed.

Lemma accepted_star rest : r = lit "*." ++ rest -> is_empty (Rules.normalize_domain rest) = false.
Proof.
  intros Hr. assert (Hd : trim_end_char rest dot <> []).
  { intros Hd. destruct (trim_end_char_tail rest dot) as (k & Hk & Hdots). rewrite Hd in Hk. cbn [app] in Hk.
    pose proof (stem_has_dot r Hw Hv) as Hs. unfold stem in Hs. rewrite Hr in Hs.
    change (lit "*." ++ rest) with ([star] ++ (dot :: rest)) in Hs.
    rewrite trim_end_char_all in Hs; [done|]. intros c [->|Hc]%elem_of_cons; [done|]. apply Hdots. by rewrite <- Hk. }
  unfold Rules.normalize_domain. rewrite Hr in Ha, Hw. rewrite str_is_ascii_app in Ha. apply andb_true_iff in Ha as [_ Har].
  apply lacks_app in Hw as [_ Hwr]. rewrite trim_lacks by done. rewrite to_lowercase_ascii by (by apply trim_end_char_ascii).
  by destruct (trim_end_char rest dot).
Qed.

Lemma accepted_plain rs :
  starts_with r "||" = false -> starts_with r "@@||" = false ->
  contains_char (default r (strip_prefix r "*.")) star = false -> snd (Rules.add_rule rs r) = true.
Proof.
  intros _ _ Hs%contains_char_false. destruct accepted_front as (c & k & Hr & Hdot).
  assert (Hin : c ∈ r) by (rewrite Hr; by left).
  assert (Hc : c = star \/ Rules.special c = false) by (destruct (accepted_char r Ha Hw Hv c Hin) as [?|?]; [done|done]).
  assert (Hsp : Rules.special c = true -> c = star) by (intros Ht; destruct Hc; [done|congruence]).
  assert (Hneq : forall d, Rules.special d = true -> d <> star -> c <> d) by (intros d Hd Hd' ->; by apply Hd', Hsp).
  rewrite Hr. rewrite Rules.add_rule_plain_line; [|by rewrite <- Hr; apply trim_lacks|by apply Hneq..].
  rewrite (strip_prefix_lit_ne c k) by done. rewrite <- Hr, hosts_word. cbn zeta.
  destruct (strip_prefix r "*.") as [rest|] eqn:Hp.
  - apply strip_prefix_Some in Hp. by rewrite (accepted_star rest Hp).
  - by rewrite (normalize_accepted_valid r Ha Hw Hv Hs).
Qed.
End plain.

Lemma accepted_filter_rule rs rule :
  str_is_ascii rule = true -> loadable (trim rule) = true -> validate_filter_rule (trim rule) = Ok tt ->
  snd (Rules.add_rule rs rule) = true.
Proof.
  intros Ha Hl Hv.
  assert (Rules.add_rule rs rule = Rules.add_rule rs (trim rule)) as -> by (unfold Rules.add_rule; by rewrite trim_idem).
  apply trim_ascii in Ha. pose proof (trim_idem rule) as Ht. revert Ha Ht Hl Hv. generalize (trim rule) as r. intros r Ha Ht Hl Hv.
  destruct (starts_with r "||") eqn:Hb; [by apply accepted_bar|].
  destruct (starts_with r "@@||") eqn:Hat; [by apply accepted_at|].
  unfold loadable in Hl. unfold validate_filter_rule in Hv. rewrite Hb, Hat in Hl, Hv.
  destruct (contains_any r is_whitespace) eqn:Hw.
  - destruct (split_whitespace r) as [|ip [|w ws]] eqn:Hs; [done|done|]. apply andb_true_iff in Hl as [H1%negb_true_iff H2%negb_true_iff].
    destruct (validate_ip ip) as [[]|] eqn:Hip; [|done]. apply map_err_Ok in Hv.
    destruct r as [|c r]; [done|]. by eapply accepted_hosts.
  - apply map_err_Ok in Hv. apply negb_true_iff in Hl. apply accepted_plain; auto using no_white_space.
Qed.

(** A rewrite rule is a domain, the arrow and an address. *)

Lemma accepted_rewrite_rule r :
  validate_rewrite_rule r = Ok tt ->
  exists d ip, r = d ++ lit "->" ++ ip /\ validate_domain (trim d) = Ok tt /\ is_Some (parse_ip (trim ip)).
Proof.
  unfold validate_rewrite_rule. pose proof (split_str2_join hyphen 62 r) as Hj.
  destruct (split_str2 hyphen 62 r) as [|d [|ip [|? ?]]]; [done|done| |done]. cbn zeta. intros Hv.
  exists d, ip. split; [by rewrite <- Hj|]. destruct (_ || _); [done|].
  destruct (validate_domain (trim d)) as [[]|]; [|done]. cbn [map_err] in Hv. split; [done|].
  apply map_err_Ok, validate_ip_Ok in Hv. by rewrite trim_idem in Hv.
Qed.

(** ** The endpoint: src/api/handlers/rule_validation.rs *)

Record RuleValidationRequest := { rule_type : str; rule : str }.
Record RuleValidationResponse := { valid : bool; error : option ValidationError }.

Definition response_of (r : result unit ValidationError) : RuleValidationResponse :=
  match r with
  | Ok _ => {| valid := true; error := None |}
  | Err e => {| valid := false; error := Some e |}
  end.
Definition cache_key (req : RuleValidationRequest) : str := rule_type req ++ lit ":" ++ rule req.

Section endpoint.
Context `{Moka, Jwt}.

(** The parts of the state of the API it uses. *)
Record ValidationState := { v_auth : AuthState; v_db : DbState; rule_validation_cache : moka RuleValidationResponse }.
#[local] Instance ValidationState_HasDb : HasDb ValidationState :=
  { db_of := v_db;
    with_db s d := {| v_auth := v_auth s; v_db := d; rule_validation_cache := rule_validation_cache s |} }.
#[local] Instance ValidationState_HasAuth : HasAuth ValidationState :=
  { auth_of := v_auth;
    with_auth s a := {| v_auth := a; v_db := v_db s; rule_validation_cache := rule_validation_cache s |} }.

(** [Cache::builder().max_capacity(1000).time_to_live(300 s)] *)
Definition new_cache : moka RuleValidationResponse := moka_build 1000 (300 * 10 ^ 9).

Definition validate_rule_handler (d : Draws) (p : Parts) (req : RuleValidationRequest) :
    M ValidationState AppError RuleValidationResponse :=
  let! _ := Api.AuthUser d p in
  let! cache := gets rule_validation_cache in
  match moka_get cache (d_instant d) (cache_key req) with
  | Some cached => ret cached
  | None =>
      let response := response_of (validate_rule (rule_type req) (rule req)) in
      let! _ := modify (fun s => {| v_auth := v_auth s; v_db := v_db s;
        rule_validation_cache := moka_insert (rule_validation_cache s) (d_instant d) (cache_key req) response |}) in
      ret response
  end.

(** The calls of a running server: requests, and what else changes the other
    parts of the state. *)
Inductive vrun : list RuleValidationRequest -> ValidationState -> Prop :=
| VStart a db : vrun [] {| v_auth := a; v_db := db; rule_validation_cache := new_cache |}
| VRequest reqs s d p req r s' : vrun reqs s -> validate_rule_handler d p req s = (r, s') -> vrun (req :: reqs) s'
| VOther reqs s a db : vrun reqs s ->
    vrun reqs {| v_auth := a; v_db := db; rule_validation_cache := rule_validation_cache s |}.

Definition answer (q : RuleValidationRequest) : RuleValidationResponse := response_of (validate_rule (rule_type q) (rule q)).
Definition cached_ok (reqs : list RuleValidationRequest) (o : moka_op RuleValidationResponse) : Prop :=
  exists t q, q ∈ reqs /\ o = MInsert t (cache_key q) (answer q).

Lemma handler_cases d p req s r s' :
  validate_rule_handler d p req s = (r, s') ->
  (s' = s /\ ((exists e, r = Err e) \/
    exists v, r = Ok v /\ moka_get (rule_validation_cache s) (d_instant d) (cache_key req) = Some v)) \/
  (r = Ok (answer req) /\
   rule_validation_cache s' = moka_insert (rule_validation_cache s) (d_instant d) (cache_key req) (answer req)).
Proof.
  unfold validate_rule_handler, bind, gets, ret, modify.
  pose proof (Api.AuthUser_state (S := ValidationState) d p s) as Hs.
  destruct (Api.AuthUser d p s) as [[c|e] s1]; cbn [snd] in Hs; subst s1.
  - destruct (moka_get _ _ _) as [v|] eqn:Hg; intros [= <- <-]; [left; eauto|right; done].
  - intros [= <- <-]. left. eauto.
Qed.

Lemma vrun_cache reqs s :
  vrun reqs s -> exists os, rule_validation_cache s = moka_run new_cache os /\ Forall (cached_ok reqs) os.
Proof.
  induction 1 as [a db|reqs s d p req r s' _ (os & Hos & Hf) Hh|reqs s a db _ IH]; [by exists []| |exact IH].
  assert (Hf' : Forall (cached_ok (req :: reqs)) os).
  { eapply Forall_impl; [exact Hf|]. intros o (t & q & Hq & Ho). exists t, q. split; [by right|done]. }
  destruct (handler_cases _ _ _ _ _ _ Hh) as [[-> _]|[_ Hc]]; [by exists os|].
  exists (os ++ [MInsert (d_instant d) (cache_key req) (answer req)]). split.
  - rewrite Hc, Hos. unfold moka_run. by rewrite fold_left_app.
  - apply Forall_app. split; [done|]. constructor; [|done]. exists (d_instant d), req. split; [by left|done].
Qed.

Lemma request_key_inj q q' : colon ∉ rule_type q -> colon ∉ rule_type q' -> cache_key q = cache_key q' -> q = q'.
Proof.
  destruct q as [t1 r1], q' as [t2 r2]. unfold cache_key. cbn [rule_type rule]. intros Ht1 Ht2 Heq.
  pose proof (split_once_app t1 r1 colon Ht1) as Hs. change (t1 ++ colon :: r1) with (t1 ++ lit ":" ++ r1) in Hs.
  rewrite Heq in Hs. change (t2 ++ lit ":" ++ r2) with (t2 ++ colon :: r2) in Hs. rewrite split_once_app in Hs by done.
  by injection Hs as -> ->.
Qed.

Lemma cached_answer `{!MokaDoc} reqs s d p req resp s' :
  vrun reqs s -> validate_rule_handler d p req s = (Ok resp, s') ->
  exists q, q ∈ req :: reqs /\ cache_key q = cache_key req /\ resp = answer q.
Proof.
  intros Hr Hh. destruct (handler_cases _ _ _ _ _ _ Hh) as [[_ [[e He]|[v [[= <-] Hg]]]]|[[= ->] _]]; [done| |].
  - destruct (vrun_cache reqs s Hr) as (os & Hos & Hf). rewrite Hos in Hg.
    apply moka_hit in Hg as (before & t & after & -> & _ & _).
    apply Forall_app in Hf as [_ Hf]. apply Forall_cons in Hf as [(t' & q & Hq & [= -> Hk ->]) _].
    exists q. split; [by right|]. by split.
  - exists req. split; [by left|done].
Qed.

(** whatever was asked before, the endpoint answers a request as the
    validators do, as long as no rule type in use contains a colon (the cache
    joins type and rule with one); a filter rule it calls valid is a rule for
    every rule set (of the forms in [loadable]), and a rewrite rule it calls
    valid is a domain, the arrow and an address. *)
Theorem endpoint_correct `{!MokaDoc} reqs s d p req resp s' :
  vrun reqs s -> validate_rule_handler d p req s = (Ok resp, s') ->
  Forall (fun q => colon ∉ rule_type q) (req :: reqs) ->
  resp = response_of (validate_rule (rule_type req) (rule req)) /\
  (valid resp = true ->
    (rule_type req = lit "filter" /\
      (str_is_ascii (rule req) = true -> loadable (trim (rule req)) = true ->
       forall rs, snd (Rules.add_rule rs (rule req)) = true)) \/
    (rule_type req = lit "rewrite" /\
      exists name ip, trim (rule req) = name ++ lit "->" ++ ip /\
        validate_domain (trim name) = Ok tt /\ is_Some (parse_ip (trim ip)))).
Proof.
  intros Hr Hh Hc. destruct (cached_answer _ _ _ _ _ _ _ Hr Hh) as (q & Hq & Hk & ->).
  rewrite Forall_forall in Hc. apply request_key_inj in Hk as ->; [|by apply Hc|apply Hc; by left].
  split; [done|]. unfold answer, validate_rule. cbn zeta.
  destruct (is_empty (trim (rule req))); [done|].
  destruct (rule_type req =s? "filter") eqn:Hf.
  - intros Hv. left. split; [by apply str_eqb_eq|]. intros Ha Hl rs. apply accepted_filter_rule; [done|done|].
    by destruct (validate_filter_rule _) as [[]|].
  - destruct (rule_type req =s? "rewrite") eqn:Hw; [|done]. intros Hv. right. split; [by apply str_eqb_eq|].
    apply accepted_rewrite_rule. by destruct (validate_rewrite_rule _) as [[]|].
Qed.
End endpoint.
End validators.
End Validators.

(** ** Concrete inputs *)

Module ValidatorsWitness.
Import AsciiUnicode RefRegex RefMoka RefCrypto Validators AuthWitness.

Definition start : ValidationState :=
  {| v_auth := auth_of state0; v_db := db_of state0; rule_validation_cache := new_cache |}.
Definition request (t r : string) : RuleValidationRequest := {| rule_type := lit t; rule := lit r |}.
Definition ask (t r : string) (s : ValidationState) : result RuleValidationResponse AppError * ValidationState :=
  validate_rule_handler (draws 2000 5 "k") with_token (request t r) s.
Definition told (r : result RuleValidationResponse AppError * ValidationState) : option (bool * option str) :=
  match fst r with Ok v => Some (valid v, code <$> error v) | Err _ => None end.

Definition valid_answer : RuleValidationResponse := {| valid := true; error := None |}.
Lemma endpoint_correct_witness :
  fst (ask "filter" "||ads.example.com^" start) = Ok valid_answer /\
  snd (Rules.add_rule Rules.new (lit "||ads.example.com^")) = true.
Proof.
  assert (Hr : fst (ask "filter" "||ads.example.com^" start) = Ok valid_answer) by (vm_compute; reflexivity).
  split; [exact Hr|].
  destruct (endpoint_correct [] start (draws 2000 5 "k") with_token (request "filter" "||ads.example.com^") valid_answer
    (snd (ask "filter" "||ads.example.com^" start))) as (_ & Hv).
  - apply VStart.
  - change (validate_rule_handler _ _ _ _) with (ask "filter" "||ads.example.com^" start). rewrite <- Hr.
    apply surjective_pairing.
  - constructor; [|constructor]. apply contains_char_false. reflexivity.
  - destruct (Hv eq_refl) as [(_ & Hl)|(Hw & _)]; [|discriminate].
    apply (Hl eq_refl). vm_compute. reflexivity.
Defined.

(** The unit tests of src/api/validators. *)
Definition codes (l : list (result unit ValidationError)) : list (option str) :=
  map (fun r => match r with Ok _ => None | Err e => Some (code e) end) l.
Example domain_tests :
  codes (map (fun s => validate_domain (lit s))
    ["example.com"; "my-sub.example.org"; "*.example.com"; "example.com."; ""; "example..com"; "ex@mple.com";
     "-example.com"; "example-.com"; "**.example.com"; "*."]%string)
  = [None; None; None; None; Some (lit "E001"); Some (lit "E003"); Some (lit "E004"); Some (lit "E005");
     Some (lit "E005"); Some (lit "E004"); Some (lit "E004")].
Proof. vm_compute. reflexivity. Qed.
Example rule_tests :
  codes (map (fun '(t, r) => validate_rule (lit t) (lit r))
    [("filter", "@@||example.com^"); ("filter", "127.0.0.1 ads.example.com"); ("filter", "");
     ("filter", "999.999.999.999 example.com"); ("rewrite", "  myapp.local  ->  192.168.1.100  ");
     ("rewrite", "example.com -> ::1"); ("rewrite", "a.b -> IP -> 1.2.3.4"); ("rewrite", " -> 192.168.1.100");
     ("unknown", "example.com")]%string)
  = [None; None; Some (lit "E008"); Some (lit "E007"); None; None; Some (lit "E009"); Some (lit "E010"); Some (lit "E011")].
Proof. vm_compute. reflexivity. Qed.

(** The cache joins the type and the rule with a colon: what one request of
    an unknown type is told is told to another about its valid rule. *)
Example cache_collision :
  told (ask "filter" "::1 example.com" start) = Some (true, None) /\
  told (ask "filter" "::1 example.com" (snd (ask "filter:" ":1 example.com" start))) = Some (false, Some (lit "E011")).
Proof. split; vm_compute; reflexivity. Qed.

(** Rules the validator accepts and the rule set ignores. *)
Example accepted_but_ignored :
  forallb (fun r => is_ok (validate_rule (lit "filter") (lit r)) && negb (snd (Rules.add_rule Rules.new (lit r))))
    ["ads.*.com"; "||||example.com^"; "127.0.0.1 printer.local"]%string = true.
Proof. vm_compute. reflexivity. Qed.
(** A rule the rule set takes and the validator refuses. *)
Example refused_but_loaded :
  is_ok (validate_rule (lit "filter") (lit "||ads.com^$third-party")) = false /\
  snd (Rules.add_rule Rules.new (lit "||ads.com^$third-party")) = true.
Proof. split; vm_compute; reflexivity. Qed.
End ValidatorsWitness.
