(* ===== verification/App.v ===== *)
(** * The state of the API server: [AppState] of src/api/mod.rs

    The handlers of the API share the DNS handler, which holds the filter
    engine, the caches and the connection, the authentication state, and the
    results of the health checks.  The calls below are the ones they make on
    the DNS handler. *)
From S2P Require Import Prelude RustStr IpAddr Regex Rules Acl Moka Hickory Cache Db DbLogic Filter Resolver.
From S2P Require Import UpstreamPool Metrics AppCatalog QueryLogWriter Handler Api.
Local Open Scope N_scope.

Record UpstreamHealthResult := { uh_status : str; uh_latency_ms : Z; uh_last_check_at : str }.

Section app.
Import Api.
Context `{RustUnicode, RegexEngine, SerdeJson, Collation, IpNetCrate, Moka, Rng,
  Hickory, !HickoryResolver, !DnsCodec, Jwt}.

Record App := {
  dns_handler : Handler.DnsHandler;
  auth_state : AuthState;
  upstream_health : gmap str UpstreamHealthResult }.

Definition set_dns_handler (h : Handler.DnsHandler) (s : App) : App :=
  {| dns_handler := h; auth_state := auth_state s; upstream_health := upstream_health s |}.
Definition set_upstream_health (m : gmap str UpstreamHealthResult) (s : App) : App :=
  {| dns_handler := dns_handler s; auth_state := auth_state s; upstream_health := m |}.

#[global] Instance App_HasDb : HasDb App :=
  { db_of s := db_of (dns_handler s); with_db s d := set_dns_handler (with_db (dns_handler s) d) s }.
#[global] Instance App_HasDbLaws : HasDbLaws App.
Proof. constructor; try done. by intros [[[] ? ? ? ? ? ? ? ? ? ? ? ?]]. Qed.
#[global] Instance App_HasAuth : HasAuth App :=
  { auth_of := auth_state;
    with_auth s a := {| dns_handler := dns_handler s; auth_state := a; upstream_health := upstream_health s |} }.
#[global] Instance App_HasAuthLaws : HasAuthLaws App.
Proof. constructor; try done. by intros []. Qed.

(** A call on the DNS handler. *)
Definition on_handler {E A} (m : M Handler.DnsHandler E A) : M App E A := fun s =>
  let '(r, h) := m (dns_handler s) in (r, set_dns_handler h s).
Definition update_handler (f : Handler.DnsHandler -> Handler.DnsHandler) : M App AppError unit :=
  modify (fun s => set_dns_handler (f (dns_handler s)) s).

(** [state.filter.reload()] *)
Definition reload_engine (d : Draws) : M App DbError unit :=
  on_handler (fun h =>
    let '(r, f) := FilterEngine.reload (d_text d) (Handler.filter h) in (r, Handler.set_filter f h)).
(** With its error as [AppError::Internal], whose text only goes to the log. *)
Definition reload_filter (d : Draws) : M App AppError unit := mmap_err (fun _ => Internal []) (reload_engine d).
(** Where a failed reload is only logged. *)
Definition try_reload_filter (d : Draws) : M App AppError unit := catch (E:=DbError) (reload_engine d) ;;; ret tt.
(** [invalidate_all_client_cache]: the next query of every client reads its
    configuration again. *)
Definition forget_clients : M App AppError unit := update_handler Handler.invalidate_all_client_cache.
Definition try_reload_upstreams (d : Draws) : M App AppError unit :=
  catch (on_handler (Handler.reload_upstreams (Z.of_N (d_utc d)))) ;;; ret tt.

(** ** What the calls do *)

Definition engine (s : App) : FilterEngine.FilterEngine := Handler.filter (dns_handler s).

(** The engine as a reload at the time would leave it. *)
Definition loaded (now : str) (t : Db) (f : FilterEngine.FilterEngine) : FilterEngine.FilterEngine :=
  {| FilterEngine.rules := Rules.build (fst (Rules.add_rules Rules.new
       (FilterEngine.active_rules now t ++ FilterEngine.parental_lines t)));
     FilterEngine.rewrites := FilterEngine.rewrites_table t; FilterEngine.db := FilterEngine.db f |}.
Definition reloaded (d : Draws) (s : App) : App :=
  set_dns_handler (Handler.set_filter (loaded (d_text d) (tables (db_of s)) (engine s)) (dns_handler s)) s.

(** The engine filters and rewrites as a reload at the time would leave it. *)
Definition filter_live (now : str) (s : App) : Prop :=
  FilterEngine.rules (engine s) = FilterEngine.rules (loaded now (tables (db_of s)) (engine s)) /\
  FilterEngine.rewrites (engine s) = FilterEngine.rewrites_table (tables (db_of s)).

Lemma does_reload_engine d s : db_works s -> does (reload_engine d) s (Ok tt) (reloaded d s).
Proof.
  intros Hs n. unfold reload_engine, on_handler. cbn zeta.
  destruct (FilterEngine.reload_works (d_text d) (engine (with_calls n s))) as [n' Hn']; [exact Hs|].
  exists n'. unfold engine in Hn'. by rewrite Hn'.
Qed.
Lemma does_reload_filter d s : db_works s -> does (reload_filter d) s (Ok tt) (reloaded d s).
Proof. intros Hs. apply (does_map_err _ _ s (Ok tt)). by apply does_reload_engine. Qed.
Lemma does_try_reload_filter d s : db_works s -> does (try_reload_filter d) s (Ok tt) (reloaded d s).
Proof. intros Hs. eapply does_bind; [eapply does_catch; by apply does_reload_engine|apply does_ret]. Qed.

Lemma does_on_handler {E A} (m : M Handler.DnsHandler E A) s r h :
  does m (dns_handler s) r h -> does (on_handler m) s r (set_dns_handler h s).
Proof.
  intros Hm n. destruct (Hm n) as [n' Hn']. exists n'. unfold on_handler.
  change (dns_handler (with_calls n s)) with (with_calls n (dns_handler s)). by rewrite Hn'.
Qed.
(** The pool of the rows and the strategy at the time. *)
Definition repooled (d : Draws) (s : App) : App :=
  set_dns_handler (Handler.set_pool (UpstreamPool.new (Handler.list_upstreams (tables (db_of s)))
    (default (lit "priority") (setting "upstream_strategy" (tables (db_of s)))) (Handler.prefer_ipv4 (dns_handler s))
    (Z.of_N (d_utc d))) (dns_handler s)) s.
Lemma does_reload_upstreams d h :
  db_works h ->
  does (Handler.reload_upstreams (Z.of_N (d_utc d))) h (Ok tt)
    (Handler.set_pool (UpstreamPool.new (Handler.list_upstreams (tables (db_of h)))
      (default (lit "priority") (setting "upstream_strategy" (tables (db_of h)))) (Handler.prefer_ipv4 h)
      (Z.of_N (d_utc d))) h).
Proof.
  intros Hh. unfold Handler.reload_upstreams. eapply does_bind; [by apply does_gets|].
  assert (Hp : does (Handler.load_pool (Handler.prefer_ipv4 h) (Z.of_N (d_utc d))) h
    (Ok (UpstreamPool.new (Handler.list_upstreams (tables (db_of h)))
      (default (lit "priority") (setting "upstream_strategy" (tables (db_of h)))) (Handler.prefer_ipv4 h) (Z.of_N (d_utc d)))) h).
  { unfold Handler.load_pool. eapply does_bind; [exact (does_query (fun t => Ok (Handler.list_upstreams t)) h Hh)|].
    eapply does_bind; [exact (does_query (fun t => Ok (setting "upstream_strategy" t)) h Hh)|]. apply does_ret. }
  eapply does_bind; [exact (does_map_err Handler.DbFailed _ _ _ _ Hp)|]. by apply does_modify.
Qed.
Lemma does_try_reload_upstreams d s : db_works s -> does (try_reload_upstreams d) s (Ok tt) (repooled d s).
Proof.
  intros Hs. eapply does_bind; [eapply does_catch, does_on_handler; by apply does_reload_upstreams|apply does_ret].
Qed.

Lemma does_update_handler f s :
  (forall h d, f (with_db h d) = with_db (f h) d) -> (forall h, db_of (f h) = db_of h) ->
  does (update_handler f) s (Ok tt) (set_dns_handler (f (dns_handler s)) s).
Proof.
  intros Hf Hd. apply (does_modify (fun s => set_dns_handler (f (dns_handler s)) s)). intros n.
  unfold with_calls. cbn [with_db db_of App_HasDb set_dns_handler dns_handler auth_state upstream_health].
  by rewrite Hf, Hd.
Qed.
Lemma does_invalidate_all s :
  does forget_clients s (Ok tt)
    (set_dns_handler (Handler.invalidate_all_client_cache (dns_handler s)) s).
Proof. by apply does_update_handler. Qed.

(** The entry of the audit log of a call. *)
Definition log_entry (d : Draws) (user_id user action resource : str) (resource_id detail : option str) (ip : str)
    (t : Db) : Db :=
  set_audit_log t (audit_log t ++
    [{| al_id := d_serial d; al_time := d_text d; al_user_id := user_id; al_username := user;
        al_action := action; al_resource := resource; al_resource_id := resource_id;
        al_detail := detail; al_ip := ip |}]).
Lemma does_log d uid un ac re ri de ip s :
  db_works s ->
  does (log_action d uid un ac re ri de ip) s (Ok tt)
    (with_tables (log_entry d uid un ac re ri de ip (tables (db_of s))) s).
Proof.
  intros Hs n. unfold log_action.
  destruct (does_execute (fun t => Ok (tt, log_entry d uid un ac re ri de ip t)) s tt _ Hs eq_refl n) as [n' Hn'].
  exists n'. unfold log_entry in Hn'. rewrite Hn'. done.
Qed.

(** The state after the entry. *)
Definition logged (d : Draws) (c : Claims) (action resource : str) (id detail : option str) (p : Parts) (s : App) : App :=
  with_tables (log_entry d (sub c) (username c) action resource id detail (ClientIp p) (tables (db_of s))) s.
Lemma does_logged d c action resource id detail p s :
  db_works s ->
  does (log_action d (sub c) (username c) action resource id detail (ClientIp p)) s (Ok tt)
    (logged d c action resource id detail p s).
Proof. apply does_log. Qed.
Lemma reloaded_live d s : filter_live (d_text d) (reloaded d s).
Proof. done. Qed.
Lemma logged_live now d c action resource id detail p s :
  filter_live now s -> filter_live now (logged d c action resource id detail p s).
Proof. done. Qed.

Lemma AuthUser_same d p s s' : auth_of s' = auth_of s -> fst (AuthUser d p s') = fst (AuthUser (S := App) d p s).
Proof.
  intros Ha. unfold AuthUser, bind, gets, lift. rewrite Ha. destruct (ok_or _ _); [|done].
  destruct (ok_or _ _); [|done]. destruct (ok_or _ _); [|done]. by destruct (bool_decide _).
Qed.
Lemma AdminUser_same d p s s' : auth_of s' = auth_of s -> fst (AdminUser d p s') = fst (AdminUser (S := App) d p s).
Proof.
  intros Ha. unfold AdminUser, bind. pose proof (AuthUser_same d p s s' Ha) as Hs.
  destruct (AuthUser d p s') as [r s1], (AuthUser d p s) as [r' s2]. cbn [fst] in Hs. subst r'.
  destruct r; [|done]. by destruct (_ || _).
Qed.
Lemma does_reading {E A} (m : M App E A) s :
  (forall s, snd (m s) = s) -> (forall s', auth_of s' = auth_of s -> fst (m s') = fst (m s)) -> does m s (fst (m s)) s.
Proof.
  intros Hm Hf n. exists n. rewrite <- (Hf (with_calls n s)) by done.
  specialize (Hm (with_calls n s)). destruct (m (with_calls n s)). cbn [fst snd] in *. by subst.
Qed.
Lemma does_AuthUser d p s : does (AuthUser d p) s (fst (AuthUser d p s)) s.
Proof. apply does_reading; [apply AuthUser_state|]. intros s'. apply AuthUser_same. Qed.
Lemma does_AdminUser d p s : does (AdminUser d p) s (fst (AdminUser d p s)) s.
Proof. apply does_reading; [apply AdminUser_state|]. intros s'. apply AdminUser_same. Qed.

(** ** What no call breaks *)

Section keeps.
Context (I : Db -> Prop).
Lemma preserves_on_handler {E A} (m : M Handler.DnsHandler E A) : preserves I m -> preserves I (on_handler m).
Proof. intros Hm s Hs. specialize (Hm (dns_handler s) Hs). unfold on_handler. by destruct (m (dns_handler s)). Qed.
Lemma preserves_reload_engine d : preserves I (reload_engine d).
Proof.
  apply preserves_on_handler. intros h Hh. pose proof (FilterEngine.reload_tables (d_text d) (Handler.filter h)) as [Ht _].
  destruct (FilterEngine.reload _ _) as [r f]. cbn [snd] in *. change (I (tables (FilterEngine.db f))). by rewrite Ht.
Qed.
Lemma preserves_update_handler f : (forall h, db_of (f h) = db_of h) -> preserves I (update_handler f).
Proof.
  intros Hf s Hs. unfold update_handler, modify. cbn [snd]. change (I (tables (db_of (f (dns_handler s))))).
  by rewrite Hf.
Qed.
Lemma preserves_log {S} `{HasDbLaws S} d uid un ac re ri de ip :
  (forall t x, I t -> I (set_audit_log t x)) -> preserves (S := S) I (log_action d uid un ac re ri de ip).
Proof.
  intros HI s Hs. unfold log_action. cbn [snd].
  match goal with |- context [execute ?f s] => assert (Hk : statement_keeps I f) by (intros t a t' [= _ <-]; auto) end.
  exact (preserves_execute I _ Hk s Hs).
Qed.
Lemma preserves_try_upstreams d : preserves I (try_reload_upstreams d).
Proof.
  unfold try_reload_upstreams. apply preserves_bind; [|intros; apply preserves_ret]. apply preserves_catch.
  apply preserves_on_handler. unfold Handler.reload_upstreams. solve_preserves.
  - apply preserves_reads, Handler.reads_load_pool.
  - by intros h Hh.
Qed.
Lemma preserves_forget : preserves I forget_clients.
Proof. by apply preserves_update_handler. Qed.
Lemma preserves_AuthUser d p : preserves (S := App) I (AuthUser d p).
Proof. intros s. by rewrite AuthUser_state. Qed.
Lemma preserves_AdminUser d p : preserves (S := App) I (AdminUser d p).
Proof. intros s. by rewrite AdminUser_state. Qed.
End keeps.
End app.

(** The calls of the handlers, decomposed. *)
Ltac solve_keeps := repeat first
  [ progress solve_preserves
  | lazymatch goal with
    | |- preserves _ (Api.AuthUser _ _) => apply preserves_AuthUser
    | |- preserves _ (Api.AdminUser _ _) => apply preserves_AdminUser
    | |- preserves _ (Api.db _) => unfold Api.db
    | |- preserves _ (reload_engine _) => apply preserves_reload_engine
    | |- preserves _ (reload_filter _) => unfold reload_filter
    | |- preserves _ (try_reload_filter _) => unfold try_reload_filter
    | |- preserves _ (try_reload_upstreams _) => apply preserves_try_upstreams
    | |- preserves _ forget_clients => apply preserves_forget
    | |- preserves _ (Api.log_action _ _ _ _ _ _ _ _) => apply preserves_log; [apply _|let Ht := fresh in intros ? ? Ht; exact Ht]
    end ].

(** ** Running a handler on a working connection *)

Section exec.
Context `{RustUnicode, RegexEngine, SerdeJson, Collation, IpNetCrate, Moka, Rng,
  Hickory, !HickoryResolver, !DnsCodec, Jwt}.
Lemma does_db_query {A} (q : Db -> result A DbError) (s : App) a :
  db_works s -> q (tables (db_of s)) = Ok a -> does (Api.db (query q)) s (Ok a) s.
Proof. intros Hs Hq. apply (does_map_err Api.Database _ s (Ok a)). rewrite <- Hq. by apply does_query. Qed.
Lemma does_db_query_err {A} (q : Db -> result A DbError) (s : App) e :
  db_works s -> q (tables (db_of s)) = Err e -> does (Api.db (query q)) s (Err (Api.Database e)) s.
Proof. intros Hs Hq. apply (does_map_err Api.Database _ s (Err e)). rewrite <- Hq. by apply does_query. Qed.
Lemma does_db_optional {A} (q : Db -> option A) (s : App) a :
  db_works s -> q (tables (db_of s)) = a -> does (Api.db (fetch_optional q)) s (Ok a) s.
Proof. intros Hs Hq. apply does_db_query; [done|]. by rewrite Hq. Qed.
Lemma does_db_execute {A} (f : Db -> result (A * Db) DbError) (s : App) a t :
  db_works s -> f (tables (db_of s)) = Ok (a, t) -> does (Api.db (execute f)) s (Ok a) (with_tables t s).
Proof. intros Hs Hf. apply (does_map_err Api.Database _ s (Ok a)). by apply does_execute. Qed.
Lemma does_db_execute_err {A} (f : Db -> result (A * Db) DbError) (s : App) e :
  db_works s -> f (tables (db_of s)) = Err e -> does (Api.db (execute f)) s (Err (Api.Database e)) s.
Proof. intros Hs Hf. apply (does_map_err Api.Database _ s (Err e)). by apply does_execute_err. Qed.
Lemma does_optional {A} (q : Db -> option A) (s : App) a :
  db_works s -> q (tables (db_of s)) = a -> does (fetch_optional q) s (Ok a) s.
Proof. intros Hs <-. exact (does_query (fun t => Ok (q t)) s Hs). Qed.
Lemma does_lift_ok {S} `{HasDbLaws S} {E A} (r : result A E) (s : S) a : r = Ok a -> does (lift r) s (Ok a) s.
Proof. intros ->. apply does_lift. Qed.
Lemma does_lift_err {S} `{HasDbLaws S} {E A} (r : result A E) (s : S) e : r = Err e -> does (lift r) s (Err e) s.
Proof. intros ->. apply does_lift. Qed.
Definition forgotten (s : App) : App :=
  set_dns_handler (Handler.invalidate_all_client_cache (dns_handler s)) s.
Lemma does_forget s : does forget_clients s (Ok tt) (forgotten s).
Proof. apply does_invalidate_all. Qed.
End exec.

(** One call whose premises are at hand: [Hs] says that the connection
    works. *)
Ltac exec_call Hs :=
  lazymatch goal with
  | |- does (ret _) _ _ _ => apply does_ret
  | |- does (fail _) _ _ _ => apply does_fail
  | |- does (lift _) _ _ _ => first [eapply does_lift_ok; first [eassumption|reflexivity] | eapply does_lift_err; first [eassumption|reflexivity]]
  | |- does (Api.db (fetch_optional _)) _ _ _ => eapply does_db_optional; [exact Hs|first [eassumption|reflexivity]]
  | |- does (Api.db (fetch_all _)) _ _ _ => eapply does_db_query; [exact Hs|reflexivity]
  | |- does (Api.db (fetch_one _)) _ _ _ => eapply does_db_query; [exact Hs|first [eassumption|reflexivity]]
  | |- does (Api.db (query _)) _ _ _ =>
      first [eapply does_db_query; [exact Hs|first [eassumption|reflexivity]]
            |eapply does_db_query_err; [exact Hs|first [eassumption|reflexivity]]]
  | |- does (Api.db (execute _)) _ _ _ =>
      first [eapply does_db_execute; [exact Hs|first [eassumption|reflexivity]]
            |eapply does_db_execute_err; [exact Hs|first [eassumption|reflexivity]]]
  | |- does (fetch_optional _) _ _ _ => eapply does_optional; [exact Hs|first [eassumption|reflexivity]]
  | |- does (execute _) _ _ _ => eapply does_execute; [exact Hs|first [eassumption|reflexivity]]
  | |- does forget_clients _ _ _ => apply does_forget
  | |- does (reload_filter _) _ _ _ => apply does_reload_filter; exact Hs
  | |- does (try_reload_filter _) _ _ _ => apply does_try_reload_filter; exact Hs
  | |- does (try_reload_upstreams _) _ _ _ => apply does_try_reload_upstreams; exact Hs
  | |- does (Api.log_action _ _ _ _ _ _ _ _) _ _ _ => apply does_logged; exact Hs
  | |- does _ _ _ _ => eassumption
  end.
(** A handler whose conditions are decided by hypotheses, up to the first
    call that is not. *)
Ltac exec Hs := repeat (cbn beta zeta; lazymatch goal with
  | |- does (bind _ _) _ _ _ => first [eapply does_bind; [solve [exec_call Hs]|] | eapply does_bind_err; solve [exec_call Hs]
                                      | eapply does_bind; [solve [exec Hs]|] | eapply does_bind_err; solve [exec Hs]]
  | |- does (if bool_decide ?P then _ else _) _ _ _ =>
      first [ rewrite (bool_decide_eq_true_2 P) by first [reflexivity|assumption|eexists; reflexivity]
            | rewrite (bool_decide_eq_false_2 P) by first [discriminate|assumption|intros [? ?]; discriminate] ]
  | |- does (if ?b then _ else _) _ _ _ =>
      first [match goal with H : b = _ |- _ => rewrite H end | progress cbn iota]
  | |- does (match ?x with _ => _ end) _ _ _ =>
      first [match goal with H : x = _ |- _ => rewrite H end | progress cbn iota]
  | |- does _ _ _ _ => exec_call Hs
  end).
