(* ===== verification/AppTests.v ===== *)
(** * A small server with an API

    The concrete state the examples and witnesses of the handlers start from:
    the crates' reference instances, any tables, an administrator with a
    session, and a request that carries its token. *)
From S2P Require Import Prelude RustStr IpAddr Regex Rules Acl Moka Hickory Cache Db DbLogic Filter Resolver.
From S2P Require Import UpstreamPool Metrics AppCatalog QueryLogWriter Handler HandlerTests Api App Auth.
Local Open Scope N_scope.

Module AppWitness.
Import AsciiUnicode RefRegex RefJson RefIpNet RefMoka RefRng RefHickory RefResolver RefCrypto Api.

Definition app_with (f : N -> bool) (t : Db) : App :=
  {| dns_handler := Handler.set_filter
       {| FilterEngine.rules := Rules.new; FilterEngine.rewrites := ∅;
          FilterEngine.db := {| tables := t; calls := 0; faults := f |} |} HandlerWitness.dummy;
     auth_state := app_auth AuthWitness.state0; upstream_health := ∅ |}.
Definition app : Db -> App := app_with (fun _ => false).
Lemma app_works t : db_works (app t).
Proof. by intros n. Qed.
Definition today : Draws := AuthWitness.draws 2000 0 "n1".
Definition admin : Parts := AuthWitness.with_token.
Lemma admin_ok t : fst (AuthUser today admin (app t)) = Ok AuthWitness.ann.
Proof. vm_compute. reflexivity. Qed.
Lemma admin_admin t : fst (AdminUser today admin (app t)) = Ok AuthWitness.ann.
Proof. vm_compute. reflexivity. Qed.
Lemma anonymous_refused t : fst (AuthUser today (ApiWitness.from (V4 8 8 8 8) None) (app t)) = Err AuthFailed.
Proof. vm_compute. reflexivity. Qed.
End AppWitness.
