(* ===== verification/Rewrites.v ===== *)
(** * The rewrites of the API: src/api/handlers/rewrites.rs

    A rewrite is stored, changed and deleted in the table the filter engine
    reads, and every such call reloads the engine. *)
From S2P Require Import Prelude RustStr IpAddr Regex Rules Acl Moka Hickory Cache Db DbLogic Filter Resolver.
From S2P Require Import UpstreamPool HandlerTests Handler Api App Auth AppTests Listing Tables.
Local Open Scope N_scope.

(** src/db/models/rewrite.rs *)
Record CreateRewriteRequest := { crr_domain : str; crr_answer : str }.
Record UpdateRewriteRequest := { urr_domain : option str; urr_answer : option str }.

Module Rewrites.
Section rewrites.
Context `{RustUnicode, RegexEngine, SerdeJson, Collation, IpNetCrate, Moka, Rng,
  Hickory, !HickoryResolver, !DnsCodec, Jwt}.
Import Api.

(** ** The statements, with the primary key and the unique index on [domain] *)

Definition insert_row (row : DnsRewrite) (t : Db) : result (unit * Db) DbError :=
  if existsb (fun r => (dr_id r =s? dr_id row) || (dr_domain r =s? dr_domain row)) (dns_rewrites t) then Err UniqueViolation
  else Ok (tt, set_dns_rewrites t (dns_rewrites t ++ [row])).
Definition change_row (domain answer : str) (r : DnsRewrite) : DnsRewrite :=
  {| dr_id := dr_id r; dr_domain := domain; dr_answer := answer; dr_created_by := dr_created_by r;
     dr_created_at := dr_created_at r |}.
Definition update_row (id domain answer : str) (t : Db) : result (unit * Db) DbError :=
  let rows := dns_rewrites t in
  if existsb (fun r => dr_id r =s? id) rows && existsb (fun r => negb (dr_id r =s? id) && (dr_domain r =s? domain)) rows
  then Err UniqueViolation
  else Ok (tt, set_dns_rewrites t (change_named dr_id id (change_row domain answer) rows)).
Definition delete_row (id : str) (t : Db) : result (nat * Db) DbError :=
  Ok (count_named dr_id id (dns_rewrites t), set_dns_rewrites t (without dr_id id (dns_rewrites t))).
Definition row_by_id (id : str) (t : Db) : option DnsRewrite := row_named dr_id id (dns_rewrites t).

(** [dr.domain LIKE $1 OR dr.answer LIKE $1], the queries a rewrite answered,
    and a row with their number. *)
Definition found (pattern : str) (r : DnsRewrite) : bool :=
  Listing.like pattern (dr_domain r) || Listing.like pattern (dr_answer r).
Definition hit_count (t : Db) (r : DnsRewrite) : nat :=
  length (List.filter (fun q : QueryLogRow => (sql_lower (q_question q) =s? dr_domain r) &&
    match q_reason q with Some x => x =s? "rewrite" | None => false end) (query_log t)).
Definition matching (p : Listing.ListParams) (t : Db) : list DnsRewrite :=
  let s := Listing.search p in
  if is_empty s then dns_rewrites t else List.filter (found (Listing.search_pattern s)) (dns_rewrites t).

(** ** The handlers *)

Record ListResponse := { lr_data : list (DnsRewrite * nat); lr_total : nat; lr_page : N; lr_per_page : Z }.

Definition list_rewrites (d : Draws) (q : Parts) (p : Listing.ListParams) : M App AppError ListResponse :=
  AuthUser d q ;;;
  let! total := db (fetch_one (fun t => Some (length (matching p t)))) in
  let! rows := db (fetch_all (fun t =>
    map (fun r => (r, hit_count t r)) (Listing.page_of p (Listing.order_asc dr_domain (matching p t))))) in
  ret {| lr_data := rows; lr_total := total; lr_page := Listing.page p; lr_per_page := Listing.per_page p |}.

(** What the error of a statement is answered with. *)
Definition conflict (domain : str) (e : DbError) : AppError :=
  match e with
  | UniqueViolation => Validation (lit "Domain '" ++ domain ++ lit "' already has a rewrite rule")
  | _ => Internal []
  end.

Definition create (d : Draws) (p : Parts) (body : CreateRewriteRequest) : M App AppError DnsRewrite :=
  let ip := ClientIp p in
  let! auth := AuthUser d p in
  let domain := to_lowercase (trim (crr_domain body)) in
  let answer := trim (crr_answer body) in
  if is_empty domain then fail (Validation "Domain cannot be empty")
  else if is_empty answer then fail (Validation "Answer (target IP) cannot be empty")
  else
    match parse_ip answer with
    | None => fail (Validation "Invalid IP address format")
    | Some _ =>
        let row := {| dr_id := d_uuid d; dr_domain := domain; dr_answer := answer;
                      dr_created_by := username auth; dr_created_at := d_text d |} in
        mmap_err (conflict domain) (execute (insert_row row)) ;;;
        reload_filter d ;;;
        log_action d (sub auth) (username auth) "create" "rewrite" (Some (d_uuid d))
          (Some (domain ++ lit "=" ++ answer)) ip ;;;
        ret row
    end.

Definition update (d : Draws) (p : Parts) (id : str) (body : UpdateRewriteRequest) : M App AppError DnsRewrite :=
  let ip := ClientIp p in
  let! auth := AuthUser d p in
  let! existing := db (fetch_optional (row_by_id id)) in
  let! old := lift (ok_or existing (NotFound (lit "Rewrite rule " ++ id ++ lit " not found"))) in
  let domain := match urr_domain body with Some n => to_lowercase (trim n) | None => dr_domain old end in
  let answer := default (dr_answer old) (urr_answer body) in
  match parse_ip answer with
  | None => fail (Validation "Invalid IP address format")
  | Some _ =>
      mmap_err (conflict domain) (execute (update_row id domain answer)) ;;;
      reload_filter d ;;;
      log_action d (sub auth) (username auth) "update" "rewrite" (Some id) (Some (domain ++ lit "=" ++ answer)) ip ;;;
      ret (change_row domain answer old)
  end.

Definition delete (d : Draws) (p : Parts) (id : str) : M App AppError unit :=
  let ip := ClientIp p in
  let! auth := AuthUser d p in
  let! rows_affected := db (execute (delete_row id)) in
  if (rows_affected =? 0)%nat then fail (NotFound (lit "Rewrite rule " ++ id ++ lit " not found"))
  else
    reload_filter d ;;;
    log_action d (sub auth) (username auth) "delete" "rewrite" (Some id) None ip.

(** The calls that write. *)
Inductive Call :=
| Create (body : CreateRewriteRequest)
| Update (id : str) (body : UpdateRewriteRequest)
| Delete (id : str).
Definition run (d : Draws) (p : Parts) (c : Call) : M App AppError unit :=
  match c with
  | Create body => create d p body ;;; ret tt
  | Update id body => update d p id body ;;; ret tt
  | Delete id => delete d p id
  end.

(** ** What the table always is *)

(** One row per identifier and per domain, and every answer an address. *)
Definition rewrites_ok (t : Db) : Prop :=
  NoDup (map dr_id (dns_rewrites t)) /\ NoDup (map dr_domain (dns_rewrites t)) /\
  forall r, r ∈ dns_rewrites t -> parse_ip (dr_answer r) <> None.

Lemma insert_taken row t :
  existsb (fun r => (dr_id r =s? dr_id row) || (dr_domain r =s? dr_domain row)) (dns_rewrites t) = false <->
  forall r, r ∈ dns_rewrites t -> dr_id r <> dr_id row /\ dr_domain r <> dr_domain row.
Proof.
  rewrite existsb_none. split; intros Hall r Hr; specialize (Hall r Hr);
    rewrite ?orb_false_iff, ?str_eqb_neq in *; exact Hall.
Qed.
Lemma update_taken id domain t :
  existsb (fun r => negb (dr_id r =s? id) && (dr_domain r =s? domain)) (dns_rewrites t) = false <->
  forall r, r ∈ dns_rewrites t -> dr_id r <> id -> dr_domain r <> domain.
Proof.
  rewrite existsb_none. split; intros Hall r Hr; specialize (Hall r Hr).
  - intros Hid. apply str_eqb_neq in Hid. rewrite Hid in Hall. by apply str_eqb_neq.
  - destruct (dr_id r =s? id) eqn:Hid; [done|]. apply str_eqb_neq in Hid. apply str_eqb_neq. by apply Hall.
Qed.

Lemma rw_insert_ok row : parse_ip (dr_answer row) <> None -> statement_keeps rewrites_ok (insert_row row).
Proof.
  intros Hp t [] t' Hi (Hid & Hd & Ha). unfold insert_row in Hi. destruct (existsb _ _) eqn:He; [done|].
  injection Hi as <-. rewrite insert_taken in He. repeat split; cbn [dns_rewrites set_dns_rewrites].
  - apply unique_snoc; [done|]. intros r Hr. by apply He.
  - apply unique_snoc; [done|]. intros r Hr. by apply He.
  - intros r [Hr| ->%list_elem_of_singleton]%elem_of_app; [by apply Ha|done].
Qed.
Lemma rw_update_ok id domain answer : parse_ip answer <> None -> statement_keeps rewrites_ok (update_row id domain answer).
Proof.
  intros Hp t [] t' Hu (Hid & Hd & Ha). unfold update_row in Hu. cbn zeta in Hu.
  destruct (existsb (fun r => dr_id r =s? id) (dns_rewrites t)) eqn:Hex; cbn [andb] in Hu.
  - destruct (existsb (fun r => negb (dr_id r =s? id) && (dr_domain r =s? domain)) (dns_rewrites t)) eqn:He; [done|].
    injection Hu as <-. rewrite update_taken in He. repeat split; cbn [dns_rewrites set_dns_rewrites].
    + unfold change_named. by rewrite same_column.
    + apply unique_change; [done|done|]. intros r r' _ _ Hr' Hne. by apply He.
    + intros r [(r0 & _ & _ & ->)|[Hr _]]%elem_of_change; [done|by apply Ha].
  - injection Hu as <-. rewrite change_nothing; [done|]. apply row_named_None.
    rewrite existsb_none in Hex. intros r Hr. by apply str_eqb_neq, Hex.
Qed.
Lemma rw_delete_ok id : statement_keeps rewrites_ok (delete_row id).
Proof.
  intros t n t' [= _ <-] (Hid & Hd & Ha). repeat split; cbn [dns_rewrites set_dns_rewrites].
  - by apply unique_filter.
  - by apply unique_filter.
  - intros r [Hr _]%elem_of_without. by apply Ha.
Qed.

Lemma run_preserves d p c : preserves rewrites_ok (run d p c).
Proof.
  destruct c as [body|id body|id]; cbn [run]; unfold create, update, delete; cbn zeta; App.solve_keeps.
  - apply rw_insert_ok. cbn [dr_answer]. congruence.
  - apply rw_update_ok. congruence.
  - apply rw_delete_ok.
Qed.

(** ** What a call does *)

(** The table as a store: for every identifier its domain and answer. *)
Definition store_of (t : Db) : gmap str (str * str) := view dr_id (fun r => (dr_domain r, dr_answer r)) (dns_rewrites t).

Definition taken (domain : str) (besides : option str) (m : gmap str (str * str)) : Prop :=
  map_Exists (fun id v => v.1 = domain /\ besides <> Some id) m.
#[local] Instance taken_dec domain besides m : Decision (taken domain besides m).
Proof. unfold taken. apply _. Defined.
Definition already (domain : str) : AppError := Validation (lit "Domain '" ++ domain ++ lit "' already has a rewrite rule").
Definition no_rewrite (id : str) : AppError := NotFound (lit "Rewrite rule " ++ id ++ lit " not found").

(** The store after a call, or why the call is rw_refused. *)
Definition spec (new_id : str) (c : Call) (m : gmap str (str * str)) : result (gmap str (str * str)) AppError :=
  match c with
  | Create body =>
      let domain := to_lowercase (trim (crr_domain body)) in
      let answer := trim (crr_answer body) in
      if is_empty domain then Err (Validation "Domain cannot be empty")
      else if is_empty answer then Err (Validation "Answer (target IP) cannot be empty")
      else if bool_decide (parse_ip answer = None) then Err (Validation "Invalid IP address format")
      else if bool_decide (taken domain None m \/ is_Some (m !! new_id)) then Err (already domain)
      else Ok (<[new_id := (domain, answer)]> m)
  | Update id body =>
      match m !! id with
      | None => Err (no_rewrite id)
      | Some (old_domain, old_answer) =>
          let domain := default old_domain ((fun n => to_lowercase (trim n)) <$> urr_domain body) in
          let answer := default old_answer (urr_answer body) in
          if bool_decide (parse_ip answer = None) then Err (Validation "Invalid IP address format")
          else if bool_decide (taken domain (Some id) m) then Err (already domain)
          else Ok (<[id := (domain, answer)]> m)
      end
  | Delete id => match m !! id with None => Err (no_rewrite id) | Some _ => Ok (base.delete id m) end
  end.

(** The engine answers as the table and the settings say, whatever the name. *)
Definition live (s : App) : Prop :=
  forall name, FilterEngine.check_rewrite (engine s) name = FilterEngine.rewrite_of (tables (db_of s)) name.
(** Nothing but the table, the audit log and the engine has changed. *)
Definition stored (t t' : Db) : Prop := t' = set_audit_log (set_dns_rewrites t (dns_rewrites t')) (audit_log t').

Lemma store_by_id id t r : row_by_id id t = Some r -> store_of t !! id = Some (dr_domain r, dr_answer r).
Proof. intros Hr. unfold store_of. rewrite lookup_view. unfold row_by_id in Hr. by rewrite Hr. Qed.
Lemma store_by_id_none id t : row_by_id id t = None -> store_of t !! id = None.
Proof. intros Hr. unfold store_of. rewrite lookup_view. unfold row_by_id in Hr. by rewrite Hr. Qed.
Lemma taken_rows domain besides t :
  NoDup (map dr_id (dns_rewrites t)) ->
  taken domain besides (store_of t) <-> exists r, r ∈ dns_rewrites t /\ dr_domain r = domain /\ besides <> Some (dr_id r).
Proof. intros Hn. unfold taken, store_of. by rewrite view_Exists. Qed.

(** The reload and the entry of the log that end every call. *)
Definition finish (d : Draws) (c : Claims) (action : str) (id : str) (detail : option str) (p : Parts) (s : App) : App :=
  let s1 := reloaded d s in
  with_tables (log_entry d (sub c) (username c) action "rewrite" (Some id) detail (ClientIp p) (tables (db_of s1))) s1.
Lemma finish_live d c action id detail p s : live (finish d c action id detail p s).
Proof.
  intros name. transitivity (FilterEngine.rewrite_of (tables (db_of s)) name); [|done].
  apply FilterEngine.rewrites_table_lookup.
Qed.
Lemma does_finish {A} d c action id detail p s (a : A) :
  db_works s ->
  does (reload_filter d ;;; log_action d (sub c) (username c) action "rewrite" (Some id) detail (ClientIp p) ;;; ret a)
    s (Ok a) (finish d c action id detail p s).
Proof.
  intros Hs. eapply does_bind; [by apply does_reload_filter|]. eapply does_bind; [by apply does_log|]. apply does_ret.
Qed.

(** What the statement of a call on the table did, when the call is one the
    specification takes. *)
Definition wrote (c : Call) (d : Draws) (t : Db) (rows : list DnsRewrite) : Prop :=
  spec (d_uuid d) c (store_of t) = Ok (store_of (set_dns_rewrites t rows)).

Lemma insert_spec row t :
  NoDup (map dr_id (dns_rewrites t)) ->
  if bool_decide (taken (dr_domain row) None (store_of t) \/ is_Some (store_of t !! dr_id row))
  then insert_row row t = Err UniqueViolation
  else insert_row row t = Ok (tt, set_dns_rewrites t (dns_rewrites t ++ [row])) /\
       store_of (set_dns_rewrites t (dns_rewrites t ++ [row])) = <[dr_id row := (dr_domain row, dr_answer row)]> (store_of t).
Proof.
  intros Hn. unfold insert_row.
  assert (Hiff : existsb (fun r => (dr_id r =s? dr_id row) || (dr_domain r =s? dr_domain row)) (dns_rewrites t) = true <->
    (taken (dr_domain row) None (store_of t) \/ is_Some (store_of t !! dr_id row))).
  { rewrite existsb_some, taken_rows by done. unfold store_of. rewrite lookup_view, fmap_is_Some. split.
    - intros (r & Hr & [Hi|Hd]%orb_true_iff); [right|left].
      + apply str_eqb_eq in Hi. exists r. by apply row_named_unique.
      + apply str_eqb_eq in Hd. by exists r.
    - intros [(r & Hr & Hd & _)|[r [Hr Hi]%row_named_Some]]; (exists r; split; [done|]).
      + by rewrite Hd, str_eqb_refl, orb_true_r.
      + by rewrite Hi, str_eqb_refl. }
  case_bool_decide as Hb.
  - by rewrite (proj2 Hiff Hb).
  - destruct (existsb _ _) eqn:He; [by destruct Hb; apply Hiff|]. split; [done|].
    unfold store_of. cbn [dns_rewrites set_dns_rewrites]. apply (view_snoc dr_id (fun r => (dr_domain r, dr_answer r))). apply row_named_None.
    rewrite insert_taken in He. intros r Hr. by apply He.
Qed.

Lemma update_spec id domain answer t old :
  NoDup (map dr_id (dns_rewrites t)) -> row_by_id id t = Some old ->
  let rows := change_named dr_id id (change_row domain answer) (dns_rewrites t) in
  if bool_decide (taken domain (Some id) (store_of t))
  then update_row id domain answer t = Err UniqueViolation
  else update_row id domain answer t = Ok (tt, set_dns_rewrites t rows) /\
       store_of (set_dns_rewrites t rows) = <[id := (domain, answer)]> (store_of t).
Proof.
  intros Hn Hold rows. unfold update_row. cbn zeta.
  assert (existsb (fun r => dr_id r =s? id) (dns_rewrites t) = true) as ->.
  { apply existsb_some. apply row_named_Some in Hold as [Hr Hi]. exists old. by rewrite Hi, str_eqb_refl. }
  assert (Hiff : existsb (fun r => negb (dr_id r =s? id) && (dr_domain r =s? domain)) (dns_rewrites t) = true <->
    taken domain (Some id) (store_of t)).
  { rewrite existsb_some, taken_rows by done. split.
    - intros (r & Hr & [Hi Hd]%andb_true_iff). apply negb_true_iff, str_eqb_neq in Hi. apply str_eqb_eq in Hd.
      exists r. split; [done|]. split; [done|congruence].
    - intros (r & Hr & Hd & Hi). exists r. split; [done|]. rewrite Hd, str_eqb_refl, andb_true_r.
      apply negb_true_iff, str_eqb_neq. congruence. }
  case_bool_decide as Hb.
  - by rewrite (proj2 Hiff Hb).
  - cbn [andb]. destruct (existsb _ _) eqn:He; [by destruct Hb; apply Hiff|]. split; [done|].
    unfold store_of. cbn [dns_rewrites set_dns_rewrites]. by apply (view_change dr_id (fun r => (dr_domain r, dr_answer r)) _ _ (change_row domain answer) old).
Qed.

(** What a call does, given what the specification says. *)
Definition implements (d : Draws) (p : Parts) (c : Call) (s : App) : Prop :=
  exists r s', does (run d p c) s r s' /\
    match spec (d_uuid d) c (store_of (tables (db_of s))) with
    | Err e => r = Err e /\ s' = s
    | Ok m => r = Ok tt /\ store_of (tables (db_of s')) = m /\ live s' /\ stored (tables (db_of s)) (tables (db_of s'))
    end.
Lemma rw_refused d p c s e :
  spec (d_uuid d) c (store_of (tables (db_of s))) = Err e -> does (run d p c) s (Err e) s -> implements d p c s.
Proof. intros He Hr. exists (Err e), s. by rewrite He. Qed.
Lemma rw_accepted d p c auth action id detail rows s :
  spec (d_uuid d) c (store_of (tables (db_of s))) = Ok (store_of (set_dns_rewrites (tables (db_of s)) rows)) ->
  does (run d p c) s (Ok tt)
    (finish d auth action id detail p (with_tables (set_dns_rewrites (tables (db_of s)) rows) s)) ->
  implements d p c s.
Proof.
  intros He Hr. eexists (Ok tt), _. split; [exact Hr|]. rewrite He. split; [done|]. split; [done|].
  split; [apply finish_live|done].
Qed.

Lemma rw_create_does d p auth body s :
  db_works s -> rewrites_ok (tables (db_of s)) -> fst (AuthUser d p s) = Ok auth -> implements d p (Create body) s.
Proof.
  intros Hs (Hid & _) Hauth. pose proof (does_AuthUser d p s) as Ha. rewrite Hauth in Ha. clear Hauth.
  set (domain := to_lowercase (trim (crr_domain body))). set (answer := trim (crr_answer body)).
  destruct (is_empty domain) eqn:E1; [|destruct (is_empty answer) eqn:E2; [|destruct (parse_ip answer) as [ip|] eqn:E3]].
  1,2,4: eapply rw_refused; cbn [spec run]; fold domain answer; rewrite ?E1, ?E2, ?E3; [done|]; apply does_bind_err;
    eapply does_bind; [exact Ha|]; cbn beta zeta; fold domain answer; rewrite ?E1, ?E2, ?E3; apply does_fail.
  set (row := {| dr_id := d_uuid d; dr_domain := domain; dr_answer := answer; dr_created_by := username auth;
                 dr_created_at := d_text d |}).
  pose proof (insert_spec row _ Hid) as Hi. cbn [row dr_domain dr_answer dr_id] in Hi.
  case_bool_decide as Hb; [|destruct Hi as [Hi Hm]].
  - eapply rw_refused; cbn [spec run]; fold domain answer; rewrite ?E1, ?E2, ?E3.
    + rewrite (bool_decide_eq_false_2 (Some ip = None)) by done. by rewrite bool_decide_eq_true_2.
    + apply does_bind_err. eapply does_bind; [exact Ha|]. cbn beta zeta. fold domain answer. rewrite E1, E2, E3.
      apply does_bind_err. apply (does_map_err (conflict domain) _ _ (Err UniqueViolation)). by apply does_execute_err.
  - eapply rw_accepted; cbn [spec run]; fold domain answer; rewrite ?E1, ?E2, ?E3.
    + rewrite !bool_decide_eq_false_2 by done. by rewrite Hm.
    + eapply does_bind; [|apply does_ret]. eapply does_bind; [exact Ha|]. cbn beta zeta. fold domain answer. rewrite E1, E2, E3.
      eapply does_bind; [apply (does_map_err (conflict domain) _ _ (Ok tt)); by apply does_execute|].
      apply does_finish. by apply works_with_tables.
Qed.

Lemma rw_update_does d p auth id body s :
  db_works s -> rewrites_ok (tables (db_of s)) -> fst (AuthUser d p s) = Ok auth -> implements d p (Update id body) s.
Proof.
  intros Hs (Hid & _) Hauth. pose proof (does_AuthUser d p s) as Ha. rewrite Hauth in Ha. clear Hauth.
  pose proof (does_map_err Database _ s _ _ (does_query (fun t => Ok (row_by_id id t)) s Hs)) as Hq. cbn [map_err] in Hq.
  destruct (row_by_id id (tables (db_of s))) as [old|] eqn:Hold.
  2: { eapply rw_refused; cbn [spec run]; [by rewrite store_by_id_none|]. apply does_bind_err. eapply does_bind; [exact Ha|].
       cbn beta zeta. eapply does_bind; [exact Hq|]. apply does_bind_err. apply does_lift. }
  pose proof (store_by_id _ _ _ Hold) as Hst.
  assert (Hd : match urr_domain body with Some n => to_lowercase (trim n) | None => dr_domain old end =
    default (dr_domain old) ((fun n => to_lowercase (trim n)) <$> urr_domain body)) by (by destruct (urr_domain body)).
  set (domain := default (dr_domain old) _) in Hd. set (answer := default (dr_answer old) (urr_answer body)).
  assert (Hrun : forall r s', does (match parse_ip answer with
      | None => fail (Validation "Invalid IP address format")
      | Some _ =>
          mmap_err (conflict domain) (execute (update_row id domain answer)) ;;;
          reload_filter d ;;;
          log_action d (sub auth) (username auth) "update" "rewrite" (Some id) (Some (domain ++ lit "=" ++ answer)) (ClientIp p) ;;;
          ret (change_row domain answer old)
      end) s r s' -> does (update d p id body) s r s').
  { intros r s' Hr. eapply does_bind; [exact Ha|]. eapply does_bind; [exact Hq|].
    eapply does_bind; [apply does_lift|]. cbn beta zeta. rewrite Hd. exact Hr. }
  destruct (parse_ip answer) as [ip|] eqn:E3.
  2: { eapply rw_refused; cbn [spec run]; [rewrite Hst; fold domain answer; by rewrite E3|].
       apply does_bind_err, Hrun, does_fail. }
  pose proof (update_spec id domain answer _ old Hid Hold) as Hu. cbn zeta in Hu.
  case_bool_decide as Hb; [|destruct Hu as [Hu Hm]].
  - eapply rw_refused; cbn [spec run].
    + rewrite Hst. fold domain answer. rewrite E3, (bool_decide_eq_false_2 (Some ip = None)) by done.
      by rewrite bool_decide_eq_true_2.
    + apply does_bind_err, Hrun. apply does_bind_err.
      apply (does_map_err (conflict domain) _ _ (Err UniqueViolation)). by apply does_execute_err.
  - eapply rw_accepted; cbn [spec run].
    + rewrite Hst. fold domain answer. rewrite E3, !bool_decide_eq_false_2 by done. by rewrite Hm.
    + eapply does_bind; [|apply does_ret]. apply Hrun.
      eapply does_bind; [apply (does_map_err (conflict domain) _ _ (Ok tt)); by apply does_execute|].
      apply does_finish. by apply works_with_tables.
Qed.

Lemma rw_delete_does d p auth id s :
  db_works s -> fst (AuthUser d p s) = Ok auth -> implements d p (Delete id) s.
Proof.
  intros Hs Hauth. pose proof (does_AuthUser d p s) as Ha. rewrite Hauth in Ha. clear Hauth.
  set (t := tables (db_of s)).
  pose proof (does_map_err Database _ s _ _ (does_execute (delete_row id) s _ _ Hs eq_refl)) as He. cbn [map_err] in He.
  pose proof (count_named_0 dr_id id (dns_rewrites t)) as Hc.
  assert (Hm : store_of (set_dns_rewrites t (without dr_id id (dns_rewrites t))) = base.delete id (store_of t))
    by apply view_without.
  destruct (row_named dr_id id (dns_rewrites t)) as [old|] eqn:Hold.
  - eapply rw_accepted; cbn [spec run]; fold t.
    + rewrite (store_by_id _ _ old) by done. by rewrite Hm.
    + eapply does_bind; [exact Ha|]. cbn beta zeta. eapply does_bind; [exact He|]. fold t.
      rewrite (proj2 (Nat.eqb_neq _ _)) by (intros Heq; by apply Hc in Heq).
      eapply does_bind; [by apply does_reload_filter|]. by apply does_log.
  - eapply rw_refused; cbn [spec run]; fold t.
    + by rewrite (store_by_id_none _ _ Hold).
    + eapply does_bind; [exact Ha|]. cbn beta zeta. eapply does_bind; [exact He|]. fold t.
      rewrite (proj2 (Nat.eqb_eq _ _)) by (by apply Hc).
      rewrite without_unchanged by done. replace (with_tables _ s) with s; [apply does_fail|].
      change (s = with_tables (set_dns_rewrites t (dns_rewrites t)) s). rewrite <- (with_tables_same s) at 1.
      f_equal. unfold t. by destruct (tables (db_of s)).
Qed.

(** The calls one after the other. *)
Fixpoint run_all (cs : list (Draws * Parts * Call)) (s : App) : App :=
  match cs with [] => s | (d, p, c) :: cs' => run_all cs' (snd (run d p c s)) end.

(** Whatever calls come in, in any order, by any user, and whatever statement
    or reload of them fails, the table keeps one rewrite per domain, and every
    answer in it is an IP address. *)
Theorem rewrites_invariant cs s : rewrites_ok (tables (db_of s)) -> rewrites_ok (tables (db_of (run_all cs s))).
Proof.
  revert s. induction cs as [|[[d p] c] cs IH]; intros s Hs; [done|]. apply IH. by apply run_preserves.
Qed.

(** The rewrites of the API are a store of domains and answers under
    identifiers, one answer per domain: on a working connection each call does
    to the table what [spec] says, or is rw_refused with the error it says and
    changes nothing at all.  After a call that is not rw_refused the filter
    engine answers every name by the new table (and safe search), so that the
    change holds for the next query; no other table but the audit log
    changes. *)
Theorem rewrites_correct d p auth c s :
  db_works s -> rewrites_ok (tables (db_of s)) -> fst (AuthUser d p s) = Ok auth ->
  exists r s', does (run d p c) s r s' /\
    match spec (d_uuid d) c (store_of (tables (db_of s))) with
    | Err e => r = Err e /\ s' = s
    | Ok m => r = Ok tt /\ store_of (tables (db_of s')) = m /\ live s' /\ stored (tables (db_of s)) (tables (db_of s'))
    end.
Proof.
  intros Hs Hok Hauth. destruct c as [body|id body|id].
  - by eapply rw_create_does.
  - by eapply rw_update_does.
  - by eapply rw_delete_does.
Qed.

(** ** The listing *)

Definition numbered (per : N) (search : option str) (k : nat) : Listing.ListParams :=
  {| Listing.lp_page := Some (N.of_nat (Datatypes.S k)); Listing.lp_per_page := Some per; Listing.lp_search := search |}.
Definition response (t : Db) (p : Listing.ListParams) : ListResponse :=
  {| lr_data := map (fun r => (r, hit_count t r)) (Listing.page_of p (Listing.order_asc dr_domain (matching p t)));
     lr_total := length (matching p t); lr_page := Listing.page p; lr_per_page := Listing.per_page p |}.

Lemma does_list d q p auth s :
  db_works s -> fst (AuthUser d q s) = Ok auth ->
  does (list_rewrites d q p) s (Ok (response (tables (db_of s)) p)) s.
Proof.
  intros Hs Hauth. pose proof (does_AuthUser d q s) as Ha. rewrite Hauth in Ha. unfold list_rewrites.
  eapply does_bind; [exact Ha|]. eapply does_bind; [by apply (does_map_err _ _ _ (Ok _)), (does_query (fun t => Ok _))|].
  eapply does_bind; [by apply (does_map_err _ _ _ (Ok _)), (does_query (fun t => Ok _))|]. apply does_ret.
Qed.

Lemma elem_matching p t r :
  Listing.plain (Listing.search p) = true ->
  r ∈ matching p t <-> r ∈ dns_rewrites t /\
    (Listing.contains (dr_domain r) (Listing.search p) \/ Listing.contains (dr_answer r) (Listing.search p)).
Proof.
  intros Hp. unfold matching. cbn zeta. destruct (is_empty (Listing.search p)) eqn:He.
  - apply is_empty_true in He. rewrite He. split; [|by intros [? _]]. intros Hr. split; [done|]. left. by exists [], (dr_domain r).
  - rewrite elem_of_bfilter. unfold found. by rewrite orb_true_iff, !Listing.like_contains.
Qed.

(** The pages of the listing: walking through them gives every rewrite that
    matches the search once, in the order of their domains, at most 200 to a
    page, each page with the full number; the offset of any page a 32-bit
    number can name fits in 64 bits.  A search of plain characters finds the
    rewrites whose domain or answer contains it. *)
Theorem listing_correct d q auth per search s :
  db_works s -> fst (AuthUser d q s) = Ok auth -> (1 <= per < 2 ^ 32)%N ->
  let t := tables (db_of s) in
  let found := matching (numbered per search 0) t in
  exists pages : nat -> ListResponse,
    (forall k, does (list_rewrites d q (numbered per search k)) s (Ok (pages k)) s /\
      (length (lr_data (pages k)) <= 200)%nat /\ lr_total (pages k) = length found /\
      (N.of_nat (Datatypes.S k) < 2 ^ 32 -> (0 <= Listing.offset (numbered per search k) < 2 ^ 63)%Z)) /\
    (forall n, (length found <= n)%nat ->
      concat (map (fun k => map fst (lr_data (pages k))) (seq 0 n)) = Listing.order_asc dr_domain found) /\
    Permutation (Listing.order_asc dr_domain found) found /\
    (Listing.plain (trim (default [] search)) = true -> forall r,
      r ∈ found <-> r ∈ dns_rewrites t /\
        (Listing.contains (dr_domain r) (trim (default [] search)) \/ Listing.contains (dr_answer r) (trim (default [] search)))).
Proof.
  intros Hs Hauth Hper t found. exists (fun k => response t (numbered per search k)). split; [|split; [|split]].
  - intros k. split; [by eapply does_list|]. split; [|split; [done|]].
    + cbn [response lr_data]. rewrite length_map. unfold Listing.page_of.
      pose proof (Listing.limit_length (Listing.per_page (numbered per search k)) (Listing.offset (numbered per search k))
        (Listing.order_asc dr_domain (matching (numbered per search k) t))).
      pose proof (Listing.per_page_bounds (numbered per search k)). lia.
    + intros Hk. apply Listing.offset_bounds. unfold Listing.u32_params. cbn [numbered Listing.lp_page Listing.lp_per_page default from_option id].
      unfold default, from_option. lia.
  - intros n Hn. cbn [response lr_data]. set (rows := Listing.order_asc dr_domain found).
    set (m := N.to_nat (N.min per 200)).
    rewrite (map_ext _ (fun k => Listing.limit (Z.of_nat m) (Z.of_nat k * Z.of_nat m) rows)).
    + rewrite Listing.limit_pages. apply take_ge. unfold rows. rewrite (Listing.order_asc_perm dr_domain found).
      assert (1 <= m)%nat by lia. nia.
    + intros k. rewrite map_map, map_id. apply Listing.page_of_number.
  - apply Listing.order_asc_perm.
  - intros Hp r. by apply (elem_matching (numbered per search 0)).
Qed.

End rewrites.
End Rewrites.

(** ** Concrete calls *)

Module RewritesWitness.
Import AsciiUnicode RefRegex RefJson RefIpNet RefMoka RefRng RefHickory RefResolver RefCrypto Api AppWitness Rewrites.

Definition row (id domain answer : string) : DnsRewrite :=
  {| dr_id := lit id; dr_domain := lit domain; dr_answer := lit answer; dr_created_by := []; dr_created_at := [] |}.
Definition tables1 : Db := set_dns_rewrites empty_db [row "1" "nas.lan" "10.0.0.2"; row "2" "tv.lan" "10.0.0.3"].
Definition body (domain answer : string) : CreateRewriteRequest := {| crr_domain := lit domain; crr_answer := lit answer |}.
Definition names := map (fun n : string => lit n) ["NAS.lan"; "tv.lan"; "new.lan"]%string.
Definition answers_after (c : Call) : list (option str) :=
  map (FilterEngine.check_rewrite (App.engine (snd (run today admin c (app tables1))))) names.

Example rw_calls_test :
  (answers_after (Create (body " New.LAN " "10.0.0.9")), answers_after (Create (body "TV.lan" "10.0.0.9")),
   answers_after (Update (lit "2") {| urr_domain := Some (lit "new.lan"); urr_answer := None |}), answers_after (Delete (lit "1")))
  = ([Some (lit "10.0.0.2"); Some (lit "10.0.0.3"); Some (lit "10.0.0.9")], [None; None; None],
     [Some (lit "10.0.0.2"); None; Some (lit "10.0.0.3")], [None; Some (lit "10.0.0.3"); None]).
Proof. vm_compute. reflexivity. Qed.

Lemma rw_tables1_ok : rewrites_ok tables1.
Proof.
  repeat split.
  - apply (bool_decide_unpack _). vm_compute. exact I.
  - apply (bool_decide_unpack _). vm_compute. exact I.
  - intros r Hr. assert (Hall : Forall (fun r => is_Some (parse_ip (dr_answer r))) (dns_rewrites tables1)).
    { repeat constructor; vm_compute; eauto. }
    rewrite Forall_forall in Hall. destruct (Hall r Hr) as [ip ->]. done.
Qed.

Lemma rewrites_correct_witness :
  exists s', does (run today admin (Create (body " New.LAN " "10.0.0.9"))) (app tables1) (Ok tt) s' /\
    store_of (tables (db_of s')) !! lit "n1" = Some (lit "new.lan", lit "10.0.0.9").
Proof.
  destruct (rewrites_correct today admin AuthWitness.ann (Create (body " New.LAN " "10.0.0.9")) (app tables1))
    as (r & s' & Hr & Hm).
  - apply app_works.
  - exact rw_tables1_ok.
  - apply admin_ok.
  - exists s'.
    assert (Hspec : spec (lit "n1") (Create (body " New.LAN " "10.0.0.9")) (store_of tables1) =
      Ok (<[lit "n1" := (lit "new.lan", lit "10.0.0.9")]> (store_of tables1))) by (vm_compute; reflexivity).
    change (d_uuid today) with (lit "n1") in Hm. change (tables (db_of (app tables1))) with tables1 in Hm.
    rewrite Hspec in Hm. destruct Hm as (-> & Hst & _). split; [exact Hr|]. rewrite Hst. apply lookup_insert_eq.
Defined.

Lemma rewrites_invariant_witness :
  rewrites_ok (tables (db_of (run_all [(today, admin, Create (body "tv.lan" "10.0.0.9")); (today, admin, Delete (lit "2"))]
    (app_with (N.eqb 3) tables1)))).
Proof. apply (rewrites_invariant [(today, admin, _); (today, admin, _)] (app_with (N.eqb 3) tables1)). exact rw_tables1_ok. Defined.

Lemma listing_correct_witness :
  exists pages : nat -> ListResponse,
    concat (map (fun k => map fst (lr_data (pages k))) (seq 0 2)) = [row "1" "nas.lan" "10.0.0.2"; row "2" "tv.lan" "10.0.0.3"].
Proof.
  destruct (listing_correct today admin AuthWitness.ann 1 (Some (lit " lan ")) (app tables1)) as (pages & _ & Hp & _).
  - apply app_works.
  - apply admin_ok.
  - lia.
  - exists pages. rewrite Hp; [vm_compute; reflexivity|vm_compute; lia].
Defined.
End RewritesWitness.
