(* ===== verification/RulesApi.v ===== *)
(** * The rules of the API: src/api/handlers/rules.rs

    Custom rules live in one table with the rules of the filter lists, which
    their creator tells apart.  The handlers store, change and delete the
    rules of the users, export them, and import files of rules. *)
From S2P Require Import Prelude RustStr IpAddr Regex Rules Acl Moka Hickory Cache Db DbLogic Filter Resolver.
From S2P Require Import UpstreamPool Handler HandlerTests Api App Auth AppTests Listing Tables.
Local Open Scope N_scope.

Record CreateRuleRequest := { crq_rule : str; crq_comment : option str; crq_expires_at : option str }.
Record UpdateRuleRequest := {
  urq_rule : option str; urq_comment : option str; urq_is_enabled : option bool;
  urq_expires_at : option (option str) }.
Record BulkActionRequest := { baq_ids : list str; baq_action : str }.

(** What the extractor [Multipart] gives: the fields, or an error that ends
    them; a field's bytes can fail to arrive. *)
Record Field := { f_name : option str; f_filename : option str; f_content_type : option str; f_bytes : option (list N) }.
Definition Multipart := list (option Field).

Module RulesApi.
Section rules.
Context `{RustUnicode, RegexEngine, SerdeJson, Collation, IpNetCrate, Moka, Rng,
  Hickory, !HickoryResolver, !DnsCodec, Jwt, SqlTime, SerdeValue}.
Import Api.

(** ** The statements *)

(** [created_by LIKE 'filter:%'] *)
Definition from_list (r : CustomRule) : bool := Listing.like (lit "filter:%") (cr_created_by r).
Definition user_rules (t : Db) : list CustomRule := List.filter (fun r => negb (from_list r)) (custom_rules t).
Definition in_ids (ids : list str) (r : CustomRule) : bool := existsb (fun id => cr_id r =s? id) ids.
Definition set_enabled (b : bool) (r : CustomRule) : CustomRule :=
  {| cr_id := cr_id r; cr_rule := cr_rule r; cr_comment := cr_comment r; cr_is_enabled := b;
     cr_created_by := cr_created_by r; cr_created_at := cr_created_at r; cr_expires_at := cr_expires_at r |}.

Definition insert_row (row : CustomRule) (t : Db) : result (unit * Db) DbError :=
  if existsb (fun r => cr_id r =s? cr_id row) (custom_rules t) then Err UniqueViolation
  else Ok (tt, set_custom_rules t (custom_rules t ++ [row])).
Definition delete_row (id : str) (t : Db) : result (nat * Db) DbError :=
  Ok (count_named cr_id id (custom_rules t), set_custom_rules t (without cr_id id (custom_rules t))).
(** The rows a statement names, changed or deleted, and their number. *)
Definition update_where (p : CustomRule -> bool) (g : CustomRule -> CustomRule) (t : Db) : result (nat * Db) DbError :=
  Ok (length (List.filter p (custom_rules t)),
      set_custom_rules t (map (fun r => if p r then g r else r) (custom_rules t))).
Definition delete_where (p : CustomRule -> bool) (t : Db) : result (nat * Db) DbError :=
  Ok (length (List.filter p (custom_rules t)),
      set_custom_rules t (List.filter (fun r => negb (p r)) (custom_rules t))).
Definition row_by_id (id : str) (t : Db) : option CustomRule := row_named cr_id id (custom_rules t).

(** ** Listing *)

Definition found (pattern : str) (r : CustomRule) : bool :=
  Listing.like pattern (cr_rule r) || Listing.opt_like pattern (cr_comment r).
Definition matching (p : Listing.ListParams) (t : Db) : list CustomRule :=
  let s := Listing.search p in
  if is_empty s then user_rules t else List.filter (found (Listing.search_pattern s)) (user_rules t).
Record ListResponse := { lr_data : list CustomRule; lr_total : nat; lr_page : N; lr_per_page : Z }.
Definition list_rules (d : Draws) (q : Parts) (p : Listing.ListParams) : M App AppError ListResponse :=
  AuthUser d q ;;;
  let! total := db (fetch_one (fun t => Some (length (matching p t)))) in
  let! rows := db (fetch_all (fun t => Listing.page_of p (Listing.order_desc cr_created_at (matching p t)))) in
  ret {| lr_data := rows; lr_total := total; lr_page := Listing.page p; lr_per_page := Listing.per_page p |}.

(** [get_expiring_rules]: a text that is no time fails the statement. *)
Fixpoint cast_expiry (rows : list CustomRule) : result (list (CustomRule * Z)) DbError :=
  match rows with
  | [] => Ok []
  | r :: rows' =>
      match cr_expires_at r with
      | None => cast_expiry rows'
      | Some e =>
          try! at_ := ok_or (timestamptz e) DatatypeMismatch in
          try! rest := cast_expiry rows' in
          Ok ((r, at_) :: rest)
      end
  end.
Definition get_expiring_rules (d : Draws) (q : Parts) (minutes : option Z) : M App AppError (list CustomRule * Z) :=
  AuthUser d q ;;;
  let minutes := Z.min (Z.max (default 5%Z minutes) 1) 60 in
  let now := Z.of_N (d_utc d) in
  let! rows := db (query (fun t =>
    try! rows := cast_expiry (user_rules t) in
    Ok (Listing.order_asc (fun r => default [] (cr_expires_at r))
      (map fst (List.filter (fun r => (now <? snd r)%Z && (snd r <=? now + 60 * minutes)%Z) rows))))) in
  ret (rows, minutes).

(** ** One rule *)

Definition create (d : Draws) (p : Parts) (body : CreateRuleRequest) : M App AppError CustomRule :=
  let ip := ClientIp p in
  let! auth := AuthUser d p in
  let rule := trim (crq_rule body) in
  if is_empty rule then fail (Validation "Rule cannot be empty")
  else
    let row := {| cr_id := d_uuid d; cr_rule := rule; cr_comment := crq_comment body; cr_is_enabled := true;
                  cr_created_by := username auth; cr_created_at := d_text d; cr_expires_at := crq_expires_at body |} in
    db (execute (insert_row row)) ;;;
    reload_filter d ;;;
    log_action d (sub auth) (username auth) "create" "rule" (Some (d_uuid d)) (Some rule) ip ;;;
    ret row.

Definition rule_not_found (id : str) : AppError := NotFound (lit "Rule " ++ id ++ lit " not found").

Definition delete (d : Draws) (p : Parts) (id : str) : M App AppError unit :=
  let ip := ClientIp p in
  let! auth := AuthUser d p in
  let! rows_affected := db (execute (delete_row id)) in
  if (rows_affected =? 0)%nat then fail (rule_not_found id)
  else
    reload_filter d ;;;
    log_action d (sub auth) (username auth) "delete" "rule" (Some id) None ip.

Definition toggle (d : Draws) (p : Parts) (id : str) (is_enabled : bool) : M App AppError bool :=
  let ip := ClientIp p in
  let! auth := AuthUser d p in
  let! rows_affected := db (execute (update_where (fun r => (cr_id r =s? id) && negb (from_list r)) (set_enabled is_enabled))) in
  if (rows_affected =? 0)%nat
  then fail (NotFound (lit "Rule " ++ id ++ lit " not found or is a filter list rule"))
  else
    reload_filter d ;;;
    log_action d (sub auth) (username auth) "toggle" "rule" (Some id)
      (Some (lit "is_enabled=" ++ show_bool is_enabled)) ip ;;;
    ret is_enabled.

Definition bulk_action (d : Draws) (p : Parts) (req : BulkActionRequest) : M App AppError nat :=
  let ip := ClientIp p in
  let! auth := AuthUser d p in
  if bool_decide (baq_ids req = []) then ret 0%nat
  else
    let named r := in_ids (baq_ids req) r && negb (from_list r) in
    let! affected :=
      (if baq_action req =s? "enable" then db (execute (update_where named (set_enabled true)))
       else if baq_action req =s? "disable" then db (execute (update_where named (set_enabled false)))
       else if baq_action req =s? "delete" then db (execute (delete_where named))
       else fail (Validation "action must be enable, disable, or delete")) in
    reload_filter d ;;;
    log_action d (sub auth) (username auth) "bulk_action" "rule" None
      (Some (lit "action=" ++ baq_action req ++ lit ", count=" ++ show_N (N.of_nat affected))) ip ;;;
    ret affected.

(** *** The update: its text with numbered parameters *)

(** [pg_numbered]: every round replaces the first question mark, so the
    length of the text is enough fuel. *)
Fixpoint pg_loop (fuel : nat) (n : N) (result : str) : option str :=
  match split_once result 63 with
  | None => Some result
  | Some (before, after) =>
      match fuel with
      | O => None
      | Datatypes.S fuel' => pg_loop fuel' (n + 1) (before ++ 36 :: show_N (n + 1) ++ after)
      end
  end.
Definition pg_numbered (sql : str) : option str := pg_loop (length sql) 0 sql.

(** A column the statement sets, with the value bound to it. *)
Inductive Assign :=
| SetRule (v : str) | SetComment (v : str) | SetEnabled (b : bool) | SetExpiresAt (v : option str).
Definition assign_sql (a : Assign) : str :=
  match a with
  | SetRule _ => lit "rule = ?" | SetComment _ => lit "comment = ?"
  | SetEnabled _ => lit "is_enabled = ?" | SetExpiresAt _ => lit "expires_at = ?"
  end.
Definition apply_assign (r : CustomRule) (a : Assign) : CustomRule :=
  {| cr_id := cr_id r;
     cr_rule := match a with SetRule v => v | _ => cr_rule r end;
     cr_comment := match a with SetComment v => Some v | _ => cr_comment r end;
     cr_is_enabled := match a with SetEnabled b => b | _ => cr_is_enabled r end;
     cr_created_by := cr_created_by r; cr_created_at := cr_created_at r;
     cr_expires_at := match a with SetExpiresAt v => v | _ => cr_expires_at r end |}.
Definition opt_list {A B} (f : A -> B) (o : option A) : list B := match o with Some a => [f a] | None => [] end.
Definition updates (body : UpdateRuleRequest) : list Assign :=
  opt_list (fun r => SetRule (trim r)) (urq_rule body) ++ opt_list SetComment (urq_comment body)
  ++ opt_list SetEnabled (urq_is_enabled body) ++ opt_list SetExpiresAt (urq_expires_at body).
Definition update_text (us : list Assign) : str :=
  lit "UPDATE custom_rules SET " ++ join (lit ", ") (map assign_sql us) ++ lit " WHERE id = ?".
(** The statement: the text assigns the parameters to the columns in the
    order of [us] and compares the last one with the identifier. *)
Definition update_row (id : str) (us : list Assign) (t : Db) : result (nat * Db) DbError :=
  Ok (count_named cr_id id (custom_rules t),
      set_custom_rules t (change_named cr_id id (fun r => fold_left apply_assign us r) (custom_rules t))).

Definition needs_reload (body : UpdateRuleRequest) (existing_is_enabled : bool) : bool :=
  match urq_is_enabled body with Some b => negb (Bool.eqb existing_is_enabled b) | None => false end
  || bool_decide (is_Some (urq_expires_at body)) || bool_decide (is_Some (urq_rule body)).

(** [None]: nothing to update. *)
Definition update (d : Draws) (p : Parts) (id : str) (body : UpdateRuleRequest) : M App AppError (option CustomRule) :=
  let ip := ClientIp p in
  let! auth := AuthUser d p in
  let! row := db (fetch_optional (row_by_id id)) in
  let! existing := lift (ok_or row (rule_not_found id)) in
  if starts_with (cr_created_by existing) "filter:"
  then fail (Unauthorized "Cannot edit rules imported from filter lists")
  else if match urq_rule body with Some rule => is_empty (trim rule) | None => false end
  then fail (Validation "Rule cannot be empty")
  else if bool_decide (updates body = []) then ret None
  else
    let! rows_affected := db (execute (update_row id (updates body))) in
    if (rows_affected =? 0)%nat then fail (rule_not_found id)
    else
      (if needs_reload body (cr_is_enabled existing) then reload_filter d else ret tt) ;;;
      let! updated := db (fetch_one (row_by_id id)) in
      log_action d (sub auth) (username auth) "update" "rule" (Some id) None ip ;;;
      ret (Some updated).

(** The text with its parameters numbered: the pieces between the question
    marks, with the numbers between them. *)
Fixpoint number_pieces (n : N) (pieces : list str) : str :=
  match pieces with
  | [] => []
  | [w] => w
  | w :: ws => w ++ 36 :: show_N n ++ number_pieces (n + 1) ws
  end.
Lemma show_no_mark n : 63 ∉ show_N n.
Proof. intros Hin%show_N_digits. discriminate. Qed.
Lemma pg_loop_pieces fuel n pre s :
  63 ∉ pre -> (length s <= fuel)%nat -> pg_loop fuel n (pre ++ s) = Some (pre ++ number_pieces (n + 1) (split s 63)).
Proof.
  revert n pre s. induction fuel as [|fuel IH]; intros n pre s Hpre Hs.
  - destruct s; [|simpl in Hs; lia]. rewrite app_nil_r. cbn [pg_loop].
    by rewrite (proj2 (split_once_None pre 63) Hpre), app_nil_r.
  - cbn [pg_loop]. destruct (split_once s 63) as [[a b]|] eqn:Hso.
    + apply split_once_Some in Hso as [-> Ha]. rewrite app_assoc, split_once_app.
      2: { rewrite elem_of_app. tauto. }
      unfold split. rewrite split_by_app; [|by apply lacks_char|done]. fold (split b 63).
      replace ((pre ++ a) ++ 36 :: show_N (n + 1) ++ b) with ((pre ++ a ++ 36 :: show_N (n + 1)) ++ b)
        by (by rewrite <- !app_assoc).
      rewrite IH.
      * destruct (split b 63) as [|w ws] eqn:Hb; [by apply split_by_nonempty in Hb|].
        cbn [number_pieces]. by rewrite <- !app_assoc.
      * rewrite !elem_of_app, elem_of_cons. intros [?|[?|[?|Hn]]]; [done|done|done|by apply show_no_mark in Hn].
      * rewrite length_app in Hs. simpl in Hs. lia.
    + apply split_once_None in Hso. rewrite (proj2 (split_once_None (pre ++ s) 63)).
      * unfold split. by rewrite split_by_lacks by (by apply lacks_char).
      * rewrite elem_of_app. tauto.
Qed.

Lemma number_app n a b : 63 ∉ a -> number_pieces n (split (a ++ b) 63) = a ++ number_pieces n (split b 63).
Proof.
  intros Ha. destruct (split_once b 63) as [[x y]|] eqn:Hso.
  - apply split_once_Some in Hso as [-> Hx]. rewrite app_assoc. unfold split.
    rewrite !split_by_app by (done || (apply lacks_char; rewrite ?elem_of_app; tauto)). fold (split y 63).
    destruct (split y 63) as [|w ws] eqn:Hy; [by apply split_by_nonempty in Hy|]. cbn [number_pieces]. by rewrite <- app_assoc.
  - apply split_once_None in Hso. unfold split.
    by rewrite !split_by_lacks by (apply lacks_char; rewrite ?elem_of_app; tauto).
Qed.
Lemma number_mark n b : number_pieces n (split (63 :: b) 63) = 36 :: show_N n ++ number_pieces (n + 1) (split b 63).
Proof.
  change (split (63 :: b) 63) with ([] :: split b 63).
  destruct (split b 63) as [|w ws] eqn:Hb; [by apply split_by_nonempty in Hb|]. done.
Qed.
(** The assignment up to its question mark. *)
Definition column_is (a : Assign) : str := take (length (assign_sql a) - 1) (assign_sql a).
Lemma assign_mark a : assign_sql a = column_is a ++ [63] /\ 63 ∉ column_is a.
Proof. destruct a; (split; [done|]); apply (bool_decide_unpack _); vm_compute; exact I. Qed.
Lemma number_assigns us k tail :
  us <> [] ->
  number_pieces (N.of_nat (Datatypes.S k)) (split (join (lit ", ") (map assign_sql us) ++ tail) 63) =
  join (lit ", ") (imap (fun i a => column_is a ++ 36 :: show_N (N.of_nat (Datatypes.S (k + i)))) us)
  ++ number_pieces (N.of_nat (Datatypes.S (k + length us))) (split tail 63).
Proof.
  revert k. induction us as [|a us IH]; intros k Hus; [done|]. destruct (assign_mark a) as [Ha Hno].
  assert (Hn : N.of_nat (Datatypes.S k) + 1 = N.of_nat (Datatypes.S (Datatypes.S k))) by lia.
  destruct us as [|b us].
  - cbn [map join imap length]. rewrite Ha, <- app_assoc. cbn [app]. rewrite number_app, number_mark, Hn by done.
    rewrite Nat.add_0_r, Nat.add_1_r. by rewrite <- app_assoc.
  - change (join (lit ", ") (map assign_sql (a :: b :: us))) with
      (assign_sql a ++ lit ", " ++ join (lit ", ") (map assign_sql (b :: us))).
    rewrite Ha, <- !app_assoc. cbn [app]. rewrite number_app, number_mark, Hn by done.
    rewrite (number_app _ (lit ", ")) by (apply (bool_decide_unpack _); vm_compute; exact I).
    rewrite IH by done.
    change (imap (fun i a => column_is a ++ 36 :: show_N (N.of_nat (Datatypes.S (k + i)))) (a :: b :: us)) with
      ((column_is a ++ 36 :: show_N (N.of_nat (Datatypes.S (k + 0)))) ::
       imap (fun i a => column_is a ++ 36 :: show_N (N.of_nat (Datatypes.S (k + Datatypes.S i)))) (b :: us)).
    rewrite Nat.add_0_r. cbn [length]. rewrite Nat.add_succ_r.
    assert (Hi : imap (fun i a => column_is a ++ 36 :: show_N (N.of_nat (Datatypes.S (k + Datatypes.S i)))) (b :: us) =
      imap (fun i a => column_is a ++ 36 :: show_N (N.of_nat (Datatypes.S (Datatypes.S k + i)))) (b :: us)).
    { apply imap_ext. intros i x _. by rewrite Nat.add_succ_r. }
    rewrite Hi. cbn [join imap]. rewrite <- !app_assoc. cbn [app length Nat.add]. rewrite ?Nat.add_succ_r. done.
Qed.

(** C40: The loop that numbers the parameters of a statement ends on every text,
    within as many rounds as the text has characters, and gives the text with
    its question marks replaced by $1, $2, .. from left to right.  So the
    statement of an update names its columns and its row by the numbers of
    the values bound to them. *)
Theorem pg_numbered_correct sql :
  pg_numbered sql = Some (number_pieces 1 (split sql 63)) /\
  (forall us, us <> [] -> pg_numbered (update_text us) =
    Some (lit "UPDATE custom_rules SET " ++
      join (lit ", ") (imap (fun i a => column_is a ++ 36 :: show_N (N.of_nat (Datatypes.S i))) us)
      ++ lit " WHERE id = $" ++ show_N (N.of_nat (Datatypes.S (length us))))).
Proof.
  assert (Hp : forall s, pg_numbered s = Some (number_pieces 1 (split s 63))).
  { intros s. apply (pg_loop_pieces _ 0 []); [apply not_elem_of_nil|done]. }
  split; [apply Hp|]. intros us Hus. rewrite Hp. f_equal.
  unfold update_text. rewrite number_app by (apply (bool_decide_unpack _); vm_compute; exact I).
  change (0 + 1) with (N.of_nat 1). rewrite (number_assigns us 0) by done. do 2 f_equal.
  rewrite (number_app _ (lit " WHERE id = ")  (lit "?")) by (apply (bool_decide_unpack _); vm_compute; exact I).
  change (lit "?") with [63]. rewrite number_mark. change (split [] 63) with [@nil char]. cbn [number_pieces].
  by rewrite app_nil_r.
Qed.

(** The calls that write. *)
Inductive Call :=
| Create (body : CreateRuleRequest)
| Delete (id : str)
| Toggle (id : str) (is_enabled : bool)
| Bulk (req : BulkActionRequest)
| Update (id : str) (body : UpdateRuleRequest).
Definition run (d : Draws) (p : Parts) (c : Call) : M App AppError unit :=
  match c with
  | Create body => create d p body ;;; ret tt
  | Delete id => delete d p id
  | Toggle id b => toggle d p id b ;;; ret tt
  | Bulk req => bulk_action d p req ;;; ret tt
  | Update id body => update d p id body ;;; ret tt
  end.

(** ** The rules of the lists are safe *)

Lemma from_list_prefix r : from_list r = starts_with (cr_created_by r) "filter:".
Proof.
  unfold from_list. apply eq_true_iff_eq. rewrite starts_with_true.
  change (lit "filter:%") with (lit "filter:" ++ [37]). by apply Listing.like_plain.
Qed.
Definition list_rules_are (l : list CustomRule) (t : Db) : Prop := List.filter from_list (custom_rules t) = l.

Lemma insert_keeps_lists l row : from_list row = false -> statement_keeps (list_rules_are l) (insert_row row).
Proof.
  intros Hrow t [] t' Hi Hl. unfold insert_row in Hi. destruct (existsb _ _); [done|]. injection Hi as <-.
  unfold list_rules_are in *. cbn [custom_rules set_custom_rules]. rewrite List.filter_app, Hl. cbn [List.filter].
  by rewrite Hrow, app_nil_r.
Qed.
Lemma filter_map_other {A} (q : A -> bool) (h : A -> A) l :
  (forall x, x ∈ l -> q (h x) = q x /\ (q x = true -> h x = x)) -> List.filter q (map h l) = List.filter q l.
Proof.
  induction l as [|x l IH]; [done|]. intros Hh. cbn [map List.filter]. destruct (Hh x) as [-> Hx]; [by left|].
  rewrite IH by (intros y Hy; apply Hh; by right). destruct (q x); [by rewrite Hx|done].
Qed.
Lemma filter_filter_other {A} (q p : A -> bool) l :
  (forall x, q x = true -> p x = true) -> List.filter q (List.filter p l) = List.filter q l.
Proof.
  intros Hqp. induction l as [|x l IH]; [done|]. cbn [List.filter]. destruct (p x) eqn:Hp; cbn [List.filter]; rewrite IH; [done|].
  destruct (q x) eqn:Hq; [|done]. by rewrite Hqp in Hp.
Qed.
Lemma where_keeps_lists l p b :
  (forall r, p r = true -> from_list r = false) -> statement_keeps (list_rules_are l) (update_where p (set_enabled b)).
Proof.
  intros Hp t n t' [= _ <-] Hl. unfold list_rules_are in *. cbn [custom_rules set_custom_rules].
  rewrite filter_map_other; [done|]. intros r _. specialize (Hp r). destruct (p r); [|done].
  change (from_list (set_enabled b r)) with (from_list r). split; [done|]. by rewrite Hp.
Qed.
Lemma delete_where_keeps_lists l p :
  (forall r, p r = true -> from_list r = false) -> statement_keeps (list_rules_are l) (delete_where p).
Proof.
  intros Hp t n t' [= _ <-] Hl. unfold list_rules_are in *. cbn [custom_rules set_custom_rules].
  rewrite filter_filter_other; [done|]. intros r Hr. destruct (p r) eqn:Hpr; [|done]. apply Hp in Hpr. congruence.
Qed.

Definition rules_ok (t : Db) : Prop := NoDup (map cr_id (custom_rules t)).
Lemma insert_ok row : statement_keeps rules_ok (insert_row row).
Proof.
  intros t [] t' Hi Hn. unfold insert_row in Hi. destruct (existsb _ _) eqn:He; [done|]. injection Hi as <-.
  apply unique_snoc; [done|]. intros r Hr. rewrite existsb_none in He. by apply str_eqb_neq, He.
Qed.
Lemma update_where_ok p b : statement_keeps rules_ok (update_where p (set_enabled b)).
Proof. intros t n t' [= _ <-] Hn. unfold rules_ok. cbn [custom_rules set_custom_rules]. by rewrite same_column. Qed.
Lemma delete_where_ok p : statement_keeps rules_ok (delete_where p).
Proof. intros t n t' [= _ <-] Hn. by apply unique_filter. Qed.
Lemma apply_assigns_id us r : cr_id (fold_left apply_assign us r) = cr_id r /\
  cr_created_by (fold_left apply_assign us r) = cr_created_by r.
Proof. revert r. induction us as [|a us IH]; intros r; [done|]. cbn [fold_left]. by destruct (IH (apply_assign r a)) as [-> ->]. Qed.
Lemma update_row_ok id us : statement_keeps rules_ok (update_row id us).
Proof.
  intros t n t' [= _ <-] Hn. unfold rules_ok, change_named. cbn [custom_rules set_custom_rules].
  rewrite same_column; [done|]. intros r. apply apply_assigns_id.
Qed.
Lemma update_keeps_lists l id us t old :
  rules_ok t -> row_by_id id t = Some old -> from_list old = false -> list_rules_are l t ->
  list_rules_are l (set_custom_rules t (change_named cr_id id (fun r => fold_left apply_assign us r) (custom_rules t))).
Proof.
  intros Hn [Hin Hid]%row_named_Some Hold Hl. unfold list_rules_are, change_named in *. cbn [custom_rules set_custom_rules].
  rewrite filter_map_other; [done|]. intros r Hr. destruct (cr_id r =s? id) eqn:He; [|done].
  apply str_eqb_eq in He. assert (r = old) as -> by (apply (unique_elem cr_id (custom_rules t)); [exact Hn|exact Hr|exact Hin|congruence]).
  split; [|congruence]. unfold from_list. by destruct (apply_assigns_id us old) as [_ ->].
Qed.

(** Identifiers stay unique and the rules of the lists as they are. *)
Definition safe (l : list CustomRule) (t : Db) : Prop := rules_ok t /\ list_rules_are l t.
(** The callers whose rules are not taken for rules of a list. *)
Definition no_list_name (p : Parts) (c : Call) : Prop :=
  match c with
  | Create _ => forall d (s : App) auth, fst (AuthUser d p s) = Ok auth -> starts_with (username auth) "filter:" = false
  | Delete _ => False
  | _ => True
  end.
Lemma statement_and {A} (I J : Db -> Prop) (f : Db -> result (A * Db) DbError) :
  statement_keeps I f -> statement_keeps J f -> statement_keeps (fun t => I t /\ J t) f.
Proof. intros Hi Hj t a t' Hf [H1' H2']. split; [by eapply Hi|by eapply Hj]. Qed.

Lemma create_safe l d p body :
  no_list_name p (Create body) -> preserves (safe l) (create d p body).
Proof.
  intros Hp s Hs. unfold create. cbn zeta. unfold bind at 1.
  pose proof (AuthUser_state d p s) as Hst. specialize (Hp d s).
  destruct (AuthUser d p s) as [[auth|e] s1]; cbn [fst snd] in *; [|by subst]. subst s1. specialize (Hp auth eq_refl).
  revert s Hs. match goal with |- forall s, _ -> safe l (tables (db_of (snd (?m s)))) => change (preserves (safe l) m) end.
  App.solve_keeps. apply statement_and; [apply insert_ok|]. apply insert_keeps_lists. by rewrite from_list_prefix.
Qed.
Lemma update_safe l d p id body : preserves (safe l) (update d p id body).
Proof.
  unfold update. cbn zeta. apply preserves_bind; [apply preserves_AuthUser|]. intros auth. unfold db at 1.
  apply preserves_read. intros row s [= Hrow] Hs. unfold bind at 1, lift. destruct row as [old|]; cbn [ok_or]; [|exact Hs].
  rewrite <- from_list_prefix. destruct (from_list old) eqn:Hold; [exact Hs|].
  destruct (match urq_rule body with Some rule => is_empty (trim rule) | None => false end); [exact Hs|].
  case_bool_decide; [exact Hs|]. unfold bind at 1, db at 1, mmap_err, execute. cbn [tick tables].
  destruct (faults _ _); [exact Hs|]. cbn [update_row map_err].
  match goal with |- safe l (tables (db_of (snd (?m ?s')))) =>
    assert (Hm : preserves (safe l) m) by App.solve_keeps; apply (Hm s') end.
  change (safe l (set_custom_rules (tables (db_of s)) (change_named cr_id id (fun r => fold_left apply_assign (updates body) r)
    (custom_rules (tables (db_of s)))))).
  destruct Hs as [Hn Hl]. split; [by eapply (update_row_ok id (updates body) (tables (db_of s)))|].
  by apply (update_keeps_lists _ _ _ _ old).
Qed.

(** The rules of the filter lists are out of reach of the calls that create,
    switch, change or delete rules in bulk: whatever they are asked, by any
    user, and whatever statement fails, the rules of the lists stay as they
    are, and identifiers unique.  (A user whose name starts with "filter:"
    would create rules of a list.  The call that deletes one rule is the
    exception: it deletes any.) *)
Theorem lists_untouched l d p c s :
  no_list_name p c -> safe l (tables (db_of s)) -> safe l (tables (db_of (snd (run d p c s)))).
Proof.
  intros Hp Hs. revert s Hs. change (preserves (safe l) (run d p c)). destruct c as [body|id|id b|req|id body].
  - apply preserves_bind; [by apply create_safe|]. intros. apply preserves_ret.
  - destruct Hp.
  - cbn [run]. unfold toggle. cbn zeta. App.solve_keeps. apply statement_and; [apply update_where_ok|].
    apply where_keeps_lists. intros r [_ Hr]%andb_true_iff. by apply negb_true_iff.
  - cbn [run]. unfold bulk_action. cbn zeta. App.solve_keeps.
    all: apply statement_and; [apply update_where_ok || apply delete_where_ok|].
    all: (apply where_keeps_lists || apply delete_where_keeps_lists); intros r [_ Hr]%andb_true_iff; by apply negb_true_iff.
  - apply preserves_bind; [by apply update_safe|]. intros. apply preserves_ret.
Qed.

(** ** What a call does *)

Definition store_of (t : Db) : gmap str CustomRule := view cr_id (fun r => r) (custom_rules t).
Definition named (req : BulkActionRequest) (r : CustomRule) : bool := in_ids (baq_ids req) r && negb (from_list r).
Definition switched (b : bool) (req : BulkActionRequest) (r : CustomRule) : CustomRule :=
  if named req r then set_enabled b r else r.

(** The rules after a call of the user, or why the call is refused. *)
Definition spec (d : Draws) (user : str) (c : Call) (m : gmap str CustomRule) : result (gmap str CustomRule) AppError :=
  match c with
  | Create body =>
      let rule := trim (crq_rule body) in
      if is_empty rule then Err (Validation "Rule cannot be empty")
      else match m !! d_uuid d with
           | Some _ => Err (Database UniqueViolation)
           | None => Ok (<[d_uuid d := {| cr_id := d_uuid d; cr_rule := rule; cr_comment := crq_comment body;
                            cr_is_enabled := true; cr_created_by := user; cr_created_at := d_text d;
                            cr_expires_at := crq_expires_at body |}]> m)
           end
  | Delete id => match m !! id with None => Err (rule_not_found id) | Some _ => Ok (base.delete id m) end
  | Toggle id b =>
      match m !! id with
      | Some r => if from_list r then Err (NotFound (lit "Rule " ++ id ++ lit " not found or is a filter list rule"))
                  else Ok (<[id := set_enabled b r]> m)
      | None => Err (NotFound (lit "Rule " ++ id ++ lit " not found or is a filter list rule"))
      end
  | Bulk req =>
      if bool_decide (baq_ids req = []) then Ok m
      else if baq_action req =s? "enable" then Ok (switched true req <$> m)
      else if baq_action req =s? "disable" then Ok (switched false req <$> m)
      else if baq_action req =s? "delete" then Ok (omap (fun r => if named req r then None else Some r) m)
      else Err (Validation "action must be enable, disable, or delete")
  | Update id body =>
      match m !! id with
      | None => Err (rule_not_found id)
      | Some r =>
          if from_list r then Err (Unauthorized "Cannot edit rules imported from filter lists")
          else if match urq_rule body with Some rule => is_empty (trim rule) | None => false end
          then Err (Validation "Rule cannot be empty")
          else Ok (<[id := fold_left apply_assign (updates body) r]> m)
      end
  end.

(** Nothing but the table, the audit log and the engine has changed. *)
Definition stored (t t' : Db) : Prop := t' = set_audit_log (set_custom_rules t (custom_rules t')) (audit_log t').
Definition implements (d : Draws) (p : Parts) (user : str) (c : Call) (s : App) : Prop :=
  exists r s', does (run d p c) s r s' /\
    match spec d user c (store_of (tables (db_of s))) with
    | Err e => r = Err e /\ s' = s
    | Ok m => r = Ok tt /\ store_of (tables (db_of s')) = m /\ filter_live (d_text d) s' /\
        stored (tables (db_of s)) (tables (db_of s'))
    end.

Lemma set_same t : set_custom_rules t (custom_rules t) = t.
Proof. by destruct t. Qed.

Section calls.
Context (d : Draws) (p : Parts) (auth : Claims) (s : App).
Notation t := (tables (db_of s)).
Context (Hworks : db_works s) (Hunique : rules_ok t) (Hauth : fst (AuthUser d p s) = Ok auth).

Lemma refused c e : spec d (username auth) c (store_of t) = Err e -> does (run d p c) s (Err e) s ->
  implements d p (username auth) c s.
Proof. intros He Hr. exists (Err e), s. by rewrite He. Qed.
(** The table is written, the engine reloaded, the log written. *)
Lemma accepted c rows action id detail :
  spec d (username auth) c (store_of t) = Ok (store_of (set_custom_rules t rows)) ->
  does (run d p c) s (Ok tt) (logged d auth action "rule" id detail p (reloaded d (with_tables (set_custom_rules t rows) s))) ->
  implements d p (username auth) c s.
Proof. intros He Hr. eexists (Ok tt), _. split; [exact Hr|]. by rewrite He. Qed.
Lemma authorized : does (AuthUser d p) s (Ok auth) s.
Proof. pose proof (does_AuthUser d p s) as Ha. by rewrite Hauth in Ha. Qed.
Lemma does_reload_log {A} rows action id detail (a : A) :
  does (reload_filter d ;;; log_action d (sub auth) (username auth) action "rule" id detail (ClientIp p) ;;; ret a)
    (with_tables (set_custom_rules t rows) s) (Ok a)
    (logged d auth action "rule" id detail p (reloaded d (with_tables (set_custom_rules t rows) s))).
Proof.
  eapply does_bind; [by apply does_reload_filter|]. eapply does_bind; [by apply does_log|]. apply does_ret.
Qed.
Lemma does_statement {A} (f : Db -> result (A * Db) DbError) a t' :
  f t = Ok (a, t') -> does (db (execute f)) s (Ok a) (with_tables t' s).
Proof. intros Hf. apply (does_map_err Database _ s (Ok a)). by apply does_execute. Qed.

Lemma lookup_store id : store_of t !! id = row_by_id id t.
Proof. unfold store_of. rewrite lookup_view. by destruct (row_by_id id t) eqn:Hr; unfold row_by_id in Hr; rewrite Hr. Qed.

Lemma create_does body : implements d p (username auth) (Create body) s.
Proof.
  set (row := {| cr_id := d_uuid d; cr_rule := trim (crq_rule body); cr_comment := crq_comment body;
                 cr_is_enabled := true; cr_created_by := username auth; cr_created_at := d_text d;
                 cr_expires_at := crq_expires_at body |}).
  destruct (is_empty (trim (crq_rule body))) eqn:E1.
  { eapply refused; cbn [spec run]; rewrite ?E1; [done|]. apply does_bind_err. eapply does_bind; [apply authorized|].
    cbn beta zeta. rewrite E1. apply does_fail. }
  assert (Hins : insert_row row t = match row_by_id (d_uuid d) t with
    | Some _ => Err UniqueViolation | None => Ok (tt, set_custom_rules t (custom_rules t ++ [row])) end).
  { unfold insert_row. destruct (row_by_id (d_uuid d) t) as [r|] eqn:Hr.
    - apply row_named_Some in Hr as [Hr Hi]. by rewrite (proj2 (existsb_some _ _)); [|exists r; split; [|apply str_eqb_eq]].
    - rewrite (proj2 (existsb_none _ _)); [done|]. intros r Hin. apply str_eqb_neq. by apply (proj1 (row_named_None _ _ _) Hr). }
  destruct (row_by_id (d_uuid d) t) as [r|] eqn:Hr.
  - eapply refused; cbn [spec run]; rewrite ?E1, ?lookup_store, ?Hr; [done|]. apply does_bind_err.
    eapply does_bind; [apply authorized|]. cbn beta zeta. rewrite E1. apply does_bind_err.
    apply (does_map_err Database _ s (Err UniqueViolation)). by apply does_execute_err.
  - eapply accepted; cbn [spec run]; rewrite ?E1, ?lookup_store, ?Hr.
    + f_equal. symmetry. apply (view_snoc cr_id (fun r => r) _ row). exact Hr.
    + eapply does_bind; [|apply does_ret]. eapply does_bind; [apply authorized|]. cbn beta zeta. rewrite E1.
      eapply does_bind; [apply does_statement; exact Hins|]. apply does_reload_log.
Qed.

(** A statement that finds no row leaves the state as it is. *)
Lemma unchanged rows : rows = custom_rules t -> with_tables (set_custom_rules t rows) s = s.
Proof.
  intros ->. rewrite set_same. apply with_tables_same.
Qed.
Lemma delete_does id : implements d p (username auth) (Delete id) s.
Proof.
  pose proof (does_statement (delete_row id) _ _ eq_refl) as He. pose proof (count_named_0 cr_id id (custom_rules t)) as Hc.
  pose proof (lookup_store id) as Hl. unfold row_by_id in Hl. destruct (row_named cr_id id (custom_rules t)) as [old|] eqn:Hold.
  - eapply accepted; cbn [spec run]; rewrite ?Hl.
    + f_equal. symmetry. apply (view_without cr_id (fun r => r)).
    + eapply does_bind; [apply authorized|]. cbn beta zeta. eapply does_bind; [exact He|].
      rewrite (proj2 (Nat.eqb_neq _ _)) by (intros Heq; by apply Hc in Heq).
      eapply does_bind; [by apply does_reload_filter|]. by apply does_log.
  - eapply refused; cbn [spec run]; rewrite ?Hl; [done|]. eapply does_bind; [apply authorized|]. cbn beta zeta.
    eapply does_bind; [exact He|]. rewrite (proj2 (Nat.eqb_eq _ _)) by (by apply Hc).
    rewrite unchanged by (by apply without_unchanged). apply does_fail.
Qed.

Lemma where_store (q : CustomRule -> bool) g :
  (forall r, cr_id (g r) = cr_id r) ->
  forall x, store_of (set_custom_rules t (map (fun r => if q r then g r else r) (custom_rules t))) !! x =
    (fun r => if q r then g r else r) <$> store_of t !! x.
Proof.
  intros Hg x. unfold store_of. cbn [custom_rules set_custom_rules].
  rewrite (view_map cr_id (fun r => r) (fun r => if q r then g r else r)), lookup_view; [by destruct (row_named _ _ _)|].
  intros r. by destruct (q r).
Qed.
Lemma found_one id (q : CustomRule -> bool) :
  (length (List.filter (fun r => (cr_id r =s? id) && q r) (custom_rules t)) = 0)%nat <->
  match row_by_id id t with Some r => q r = false | None => True end.
Proof.
  rewrite length_zero_iff_nil. split.
  - intros Hnil. destruct (row_by_id id t) as [r|] eqn:Hr; [|done]. apply row_named_Some in Hr as [Hin Hid].
    apply not_true_iff_false. intros Hq. assert (Hx : r ∈ List.filter (fun r => (cr_id r =s? id) && q r) (custom_rules t)).
    { apply elem_of_bfilter. by rewrite Hid, str_eqb_refl. }
    rewrite Hnil in Hx. by apply not_elem_of_nil in Hx.
  - intros Hr. destruct (List.filter _ _) as [|r l] eqn:Hf; [done|].
    assert (Hx : r ∈ List.filter (fun r => (cr_id r =s? id) && q r) (custom_rules t)) by (rewrite Hf; left).
    apply elem_of_bfilter in Hx as [Hin [Hid Hq]%andb_true_iff]. apply str_eqb_eq in Hid.
    unfold row_by_id in Hr. rewrite (row_named_unique cr_id id _ r Hunique Hin Hid) in Hr. congruence.
Qed.
Lemma where_nothing (q : CustomRule -> bool) g :
  (length (List.filter q (custom_rules t)) = 0)%nat -> map (fun r => if q r then g r else r) (custom_rules t) = custom_rules t.
Proof.
  rewrite length_zero_iff_nil. intros Hnil. rewrite <- (map_id (custom_rules t)) at 2. apply map_ext_in. intros r Hr%list_elem_of_In.
  destruct (q r) eqn:Hq; [|done]. assert (Hx : r ∈ List.filter q (custom_rules t)) by (by apply elem_of_bfilter).
  rewrite Hnil in Hx. by apply not_elem_of_nil in Hx.
Qed.

Lemma toggle_does id b : implements d p (username auth) (Toggle id b) s.
Proof.
  set (q := fun r => (cr_id r =s? id) && negb (from_list r)).
  pose proof (does_statement (update_where q (set_enabled b)) _ _ eq_refl) as He.
  pose proof (found_one id (fun r => negb (from_list r))) as Hf. fold q in Hf.
  pose proof (lookup_store id) as Hl.
  assert (Hrefused : (length (List.filter q (custom_rules t)) = 0)%nat ->
    does (run d p (Toggle id b)) s (Err (NotFound (lit "Rule " ++ id ++ lit " not found or is a filter list rule"))) s).
  { intros H0l. apply does_bind_err. eapply does_bind; [apply authorized|]. cbn beta zeta. eapply does_bind; [exact He|].
    rewrite (proj2 (Nat.eqb_eq _ _) H0l), unchanged by (by apply where_nothing). apply does_fail. }
  destruct (row_by_id id t) as [r|] eqn:Hr.
  2: { eapply refused; cbn [spec]; [by rewrite Hl|]. by apply Hrefused, Hf. }
  destruct (from_list r) eqn:Hlist.
  { eapply refused; cbn [spec]; [by rewrite Hl, Hlist|]. apply Hrefused, Hf. done. }
  eapply accepted; cbn [spec run].
  - rewrite Hl, Hlist. f_equal. symmetry. apply map_eq. intros x. rewrite (where_store q (set_enabled b)) by done. unfold q.
    destruct (decide (x = id)) as [->|Hx].
    + rewrite lookup_insert_eq, Hl. apply row_named_Some in Hr as [_ Hid]. cbn [fmap option_fmap option_map]. by rewrite Hid, str_eqb_refl, Hlist.
    + rewrite lookup_insert_ne, lookup_store by done. destruct (row_by_id x t) as [r'|] eqn:Hr'; [|done].
      apply row_named_Some in Hr' as [_ Hid]. cbn [fmap option_fmap option_map]. by rewrite Hid, (proj2 (str_eqb_neq x id)).
  - eapply does_bind; [|apply does_ret]. eapply does_bind; [apply authorized|]. cbn beta zeta.
    eapply does_bind; [exact He|]. rewrite (proj2 (Nat.eqb_neq _ _)) by (intros H0l; by apply Hf in H0l).
    apply does_reload_log.
Qed.

Context (Hlive : filter_live (d_text d) s).

(** Nothing is asked for. *)
Lemma idle c : spec d (username auth) c (store_of t) = Ok (store_of t) -> does (run d p c) s (Ok tt) s ->
  implements d p (username auth) c s.
Proof. intros He Hr. exists (Ok tt), s. rewrite He. repeat split; [exact Hr|apply Hlive..|]. by destruct (tables (db_of s)). Qed.

Lemma store_map h :
  (forall r, cr_id (h r) = cr_id r) -> store_of (set_custom_rules t (map h (custom_rules t))) = h <$> store_of t.
Proof.
  intros Hh. apply map_eq. intros x. unfold store_of. cbn [custom_rules set_custom_rules].
  rewrite (view_map cr_id (fun r => r) h), lookup_fmap, lookup_view by done. by destruct (row_named _ _ _).
Qed.
Lemma store_filter q :
  store_of (set_custom_rules t (List.filter (fun r => negb (q r)) (custom_rules t))) =
  omap (fun r => if q r then None else Some r) (store_of t).
Proof.
  apply map_eq. intros x. unfold store_of. cbn [custom_rules set_custom_rules].
  rewrite lookup_omap, !lookup_view, row_named_filter by done. destruct (row_named _ _ _) as [r|]; [|done].
  cbn [fmap option_fmap option_map mbind option_bind]. by destruct (q r).
Qed.
Lemma bulk_does req : implements d p (username auth) (Bulk req) s.
Proof.
  destruct (decide (baq_ids req = [])) as [Hi|Hi].
  { apply idle; cbn [spec run]; [by rewrite bool_decide_eq_true_2|]. eapply does_bind; [|apply does_ret].
    eapply does_bind; [apply authorized|]. cbn beta zeta. rewrite bool_decide_eq_true_2 by done. apply does_ret. }
  set (q := fun r => in_ids (baq_ids req) r && negb (from_list r)).
  pose proof (fun b => does_statement (update_where q (set_enabled b)) _ _ eq_refl) as Hu.
  pose proof (does_statement (delete_where q) _ _ eq_refl) as Hd.
  destruct (baq_action req =s? "enable") eqn:E1; [|destruct (baq_action req =s? "disable") eqn:E2;
    [|destruct (baq_action req =s? "delete") eqn:E3]].
  4: { eapply refused; cbn [spec run]; rewrite ?bool_decide_eq_false_2, ?E1, ?E2, ?E3 by done; [done|]. apply does_bind_err.
       eapply does_bind; [apply authorized|]. cbn beta zeta. rewrite bool_decide_eq_false_2, E1, E2, E3 by done.
       apply does_bind_err, does_fail. }
  all: eapply accepted; cbn [spec run];
    [rewrite bool_decide_eq_false_2, ?E1, ?E2, ?E3 by done; f_equal; symmetry; first [exact (store_map (switched _ req) ltac:(intros r; unfold switched; by destruct (named req r)))|exact (store_filter (named req))]|
     eapply does_bind; [|apply does_ret]; eapply does_bind; [apply authorized|]; cbn beta zeta;
     rewrite bool_decide_eq_false_2, ?E1, ?E2, ?E3 by done; eapply does_bind; [apply Hu || exact Hd|]; apply does_reload_log].
Qed.

(** A change that leaves the texts of the active rules. *)
Lemma active_same now rows h :
  (forall r, r ∈ custom_rules t -> FilterEngine.rule_active now (h r) = FilterEngine.rule_active now r /\ cr_rule (h r) = cr_rule r) ->
  rows = map h (custom_rules t) ->
  FilterEngine.active_rules now (set_custom_rules t rows) = FilterEngine.active_rules now t.
Proof.
  intros Hh ->. unfold FilterEngine.active_rules. cbn [custom_rules set_custom_rules].
  induction (custom_rules t) as [|r l IH]; [done|]. cbn [map List.filter].
  destruct (Hh r) as [-> Ht]; [by left|]. destruct (FilterEngine.rule_active now r); cbn [map]; rewrite IH.
  2,4: intros r' Hr'; apply Hh; by right. 1: by rewrite Ht. done.
Qed.
Lemma quiet_update body old now :
  needs_reload body (cr_is_enabled old) = false ->
  FilterEngine.rule_active now (fold_left apply_assign (updates body) old) = FilterEngine.rule_active now old /\
  cr_rule (fold_left apply_assign (updates body) old) = cr_rule old.
Proof.
  unfold needs_reload. destruct body as [[r|] c e [x|]]; rewrite ?orb_false_iff; intros Hn;
    destruct Hn as [[He Hx] Hr]; try (by rewrite bool_decide_eq_true_2 in Hr); try (by rewrite bool_decide_eq_true_2 in Hx).
  destruct c, e as [b|]; cbn in *; try done; unfold FilterEngine.rule_active; cbn;
    apply negb_false_iff, eqb_prop in He; by subst b.
Qed.

Lemma update_does id body : implements d p (username auth) (Update id body) s.
Proof.
  pose proof (does_map_err Database _ s _ _ (does_query (fun t => Ok (row_by_id id t)) s Hworks)) as Hq. cbn [map_err] in Hq.
  pose proof (lookup_store id) as Hl. destruct (row_by_id id t) as [old|] eqn:Hold.
  2: { eapply refused; cbn [spec run]; rewrite ?Hl; [done|]. apply does_bind_err. eapply does_bind; [apply authorized|].
       cbn beta zeta. eapply does_bind; [exact Hq|]. apply does_bind_err. apply does_lift. }
  assert (Hrun : forall r s', does (
      if from_list old then fail (Unauthorized "Cannot edit rules imported from filter lists")
      else if match urq_rule body with Some rule => is_empty (trim rule) | None => false end
      then fail (Validation "Rule cannot be empty")
      else if bool_decide (updates body = []) then ret None
      else let! rows_affected := db (execute (update_row id (updates body))) in
        if (rows_affected =? 0)%nat then fail (rule_not_found id)
        else (if needs_reload body (cr_is_enabled old) then reload_filter d else ret tt) ;;;
          let! updated := db (fetch_one (row_by_id id)) in
          log_action d (sub auth) (username auth) "update" "rule" (Some id) None (ClientIp p) ;;;
          ret (Some updated)) s r s' -> does (update d p id body) s r s').
  { intros r s' Hr. eapply does_bind; [apply authorized|]. cbn beta zeta. eapply does_bind; [exact Hq|].
    eapply does_bind; [apply does_lift|]. cbn [ok_or]. rewrite <- from_list_prefix. exact Hr. }
  destruct (from_list old) eqn:E1.
  { eapply refused; cbn [spec run]; rewrite ?Hl, ?E1; [done|]. apply does_bind_err, Hrun, does_fail. }
  destruct (match urq_rule body with Some rule => is_empty (trim rule) | None => false end) eqn:E2.
  { eapply refused; cbn [spec run]; rewrite ?Hl, ?E1, ?E2; [done|]. apply does_bind_err, Hrun, does_fail. }
  destruct (decide (updates body = [])) as [Hu|Hu].
  { apply idle; cbn [spec run]; rewrite ?Hl, ?E1, ?E2; rewrite ?Hu; cbn [fold_left]; [by rewrite insert_id|].
    eapply does_bind; [|apply does_ret]. apply Hrun. rewrite bool_decide_eq_true_2 by done. apply does_ret. }
  rewrite bool_decide_eq_false_2 in Hrun by done.
  set (h := fun r => fold_left apply_assign (updates body) r) in *.
  pose proof (does_statement (update_row id (updates body)) _ _ eq_refl) as He. fold h in He.
  set (rows := change_named cr_id id h (custom_rules t)) in *.
  assert (Hspec : spec d (username auth) (Update id body) (store_of t) = Ok (store_of (set_custom_rules t rows))).
  { cbn [spec]. rewrite Hl, E1, E2. f_equal. symmetry. apply (view_change cr_id (fun r => r) _ id h old); [exact Hold|].
    intros r. apply apply_assigns_id. }
  assert (Hc : (count_named cr_id id (custom_rules t) =? 0)%nat = false).
  { apply Nat.eqb_neq. intros H0c. apply count_named_0 in H0c. unfold row_by_id in Hold. congruence. }
  assert (Hnew : row_by_id id (set_custom_rules t rows) = Some (h old)).
  { unfold row_by_id, rows, change_named. cbn [custom_rules set_custom_rules].
    rewrite (row_named_map cr_id id (fun r => if cr_id r =s? id then h r else r)).
    - unfold row_by_id in Hold. rewrite Hold. cbn [fmap option_fmap option_map]. apply row_named_Some in Hold as [_ Hid].
      by rewrite Hid, str_eqb_refl.
    - intros r. destruct (cr_id r =s? id); [apply apply_assigns_id|done]. }
  set (s1 := with_tables (set_custom_rules t rows) s) in *.
  set (s2 := if needs_reload body (cr_is_enabled old) then reloaded d s1 else s1).
  exists (Ok tt), (logged d auth "update" "rule" (Some id) None p s2). rewrite Hspec. split.
  - cbn [run]. eapply does_bind; [|apply does_ret]. apply Hrun. eapply does_bind; [exact He|]. rewrite Hc.
    eapply does_bind with (s1 := s2).
    { unfold s2. destruct (needs_reload _ _); [by apply does_reload_filter|apply does_ret]. }
    assert (Hw2 : db_works s2 /\ tables (db_of s2) = set_custom_rules t rows).
    { unfold s2. destruct (needs_reload _ _); done. }
    destruct Hw2 as [Hw2 Ht2].
    eapply does_bind; [apply (does_map_err Database _ s2 (Ok (h old)))|].
    { pose proof (does_query (fun t => ok_or (row_by_id id t) RowNotFound) s2 Hw2) as Hq2. by rewrite Ht2, Hnew in Hq2. }
    eapply does_bind; [by apply does_log|]. apply does_ret.
  - split; [done|]. unfold s2. destruct (needs_reload body (cr_is_enabled old)) eqn:Hn; [done|].
    split; [done|]. split; [|done]. apply logged_live. destruct Hlive as [Hlr Hlw]. split; [|exact Hlw].
    change (FilterEngine.rules (engine s1)) with (FilterEngine.rules (engine s)). rewrite Hlr. unfold loaded.
    cbn [FilterEngine.rules]. change (tables (db_of s1)) with (set_custom_rules t rows).
    rewrite (active_same (d_text d) rows (fun r => if cr_id r =s? id then h r else r)); [done| |done].
    intros r Hr. destruct (cr_id r =s? id) eqn:Hid; [|done]. apply str_eqb_eq in Hid.
    assert (r = old) as ->.
    { unfold row_by_id in Hold. rewrite (row_named_unique cr_id id _ r Hunique Hr Hid) in Hold. congruence. }
    by apply quiet_update.
Qed.
End calls.

(** C21: The custom rules are a store under identifiers: on a working connection
    each call that creates, deletes, switches, changes or handles rules in
    bulk does to the table what [spec] says, or is refused with the error it
    says and changes nothing.  If the filter engine was up to date before the
    call it is up to date after it: also when the call skips the reload
    because it only changed a comment.  Nothing else but the audit log
    changes. *)
Theorem rules_correct d p auth c s :
  db_works s -> rules_ok (tables (db_of s)) -> fst (AuthUser d p s) = Ok auth -> filter_live (d_text d) s ->
  exists r s', does (run d p c) s r s' /\
    match spec d (username auth) c (store_of (tables (db_of s))) with
    | Err e => r = Err e /\ s' = s
    | Ok m => r = Ok tt /\ store_of (tables (db_of s')) = m /\ filter_live (d_text d) s' /\
        stored (tables (db_of s)) (tables (db_of s'))
    end.
Proof.
  intros Hs Hok Hauth Hlive. destruct c as [body|id|id b|req|id body].
  - by apply create_does.
  - by apply delete_does.
  - by apply toggle_does.
  - by apply bulk_does.
  - by apply update_does.
Qed.
End rules.
End RulesApi.

(** ** Concrete calls *)

Module RulesApiWitness.
Import AsciiUnicode RefRegex RefJson RefIpNet RefMoka RefRng RefHickory RefResolver RefCrypto Api AppWitness RulesApi.

Definition row (id rule by_ : string) : CustomRule :=
  {| cr_id := lit id; cr_rule := lit rule; cr_comment := None; cr_is_enabled := true; cr_created_by := lit by_;
     cr_created_at := []; cr_expires_at := None |}.
Definition tables1 : Db :=
  set_custom_rules empty_db [row "1" "||ads.com^" "ann"; row "2" "||track.com^" "filter:7"; row "3" "||spam.com^" "bob"].
(** The server just after a reload. *)
Definition server : App := snd (reload_filter today (app tables1)).
Definition blocked_after (s : App) : list bool :=
  map (fun n => FilterEngine.is_blocked (App.engine s) (lit n)) ["ads.com"; "track.com"; "spam.com"; "new.com"]%string.
Definition change (r c : option string) (e : option bool) : UpdateRuleRequest :=
  {| urq_rule := lit <$> r; urq_comment := lit <$> c; urq_is_enabled := e; urq_expires_at := None |}.
Definition calls : list Call :=
  [Create {| crq_rule := lit " ||new.com^ "; crq_comment := None; crq_expires_at := None |};
   Delete (lit "2"); Toggle (lit "1") false; Toggle (lit "2") false;
   Bulk {| baq_ids := [lit "1"; lit "2"; lit "3"]; baq_action := lit "delete" |};
   Update (lit "3") (change (Some "||new.com^"%string) None None)].
Example calls_test :
  map (fun c => blocked_after (snd (run today admin c server))) calls =
  [[true; true; true; true]; [true; false; true; false]; [false; true; true; false]; [true; true; true; false];
   [false; true; false; false]; [true; true; false; true]].
Proof. vm_compute. reflexivity. Qed.
Example update_text_test :
  pg_numbered (update_text (updates {| urq_rule := Some []; urq_comment := None; urq_is_enabled := Some true; urq_expires_at := Some None |}))
  = Some (lit "UPDATE custom_rules SET rule = $1, is_enabled = $2, expires_at = $3 WHERE id = $4").
Proof. vm_compute. reflexivity. Qed.

Lemma tables1_ok : rules_ok tables1.
Proof. apply (bool_decide_unpack _). vm_compute. exact I. Qed.
Lemma server_works : db_works server.
Proof. by intros n. Qed.
Lemma rules_correct_witness :
  exists s', does (run today admin (Toggle (lit "1") false)) server (Ok tt) s' /\ filter_live (d_text today) s'.
Proof.
  destruct (rules_correct today admin AuthWitness.ann (Toggle (lit "1") false) server) as (r & s' & Hr & Hm).
  - exact server_works.
  - exact tables1_ok.
  - vm_compute. reflexivity.
  - vm_compute. split; reflexivity.
  - exists s'. assert (Hs : is_ok (spec today (username AuthWitness.ann) (Toggle (lit "1") false) (store_of tables1)) = true)
      by (vm_compute; reflexivity).
    change (tables (db_of server)) with tables1 in Hm.
    destruct (spec today (username AuthWitness.ann) (Toggle (lit "1") false) (store_of tables1)) as [m|e]; [|discriminate Hs].
    destruct Hm as (-> & _ & Hl & _). split; [exact Hr|exact Hl].
Defined.
Lemma lists_untouched_witness :
  List.filter from_list (custom_rules (tables (db_of (snd (run today admin
    (Bulk {| baq_ids := [lit "1"; lit "2"; lit "3"]; baq_action := lit "delete" |}) (app_with (N.eqb 2) tables1))))))
  = [row "2" "||track.com^" "filter:7"].
Proof.
  apply (lists_untouched [row "2" "||track.com^" "filter:7"] today admin
    (Bulk {| baq_ids := [lit "1"; lit "2"; lit "3"]; baq_action := lit "delete" |}) (app_with (N.eqb 2) tables1)).
  - exact I.
  - split; [exact tables1_ok|vm_compute; reflexivity].
Defined.
End RulesApiWitness.
