(* ===== verification/RulesTransfer.v ===== *)
(** * Export and import of rules: src/api/handlers/rules.rs

    The rules of the users as a file of comma separated values, a list of
    lines or an array of JSON objects, and the import of such a file. *)
From S2P Require Import Prelude RustStr IpAddr Regex Rules Acl Moka Hickory Cache Db DbLogic Filter Resolver.
From S2P Require Import UpstreamPool Handler HandlerTests Api App Auth AppTests Listing Tables RulesApi.
Local Open Scope N_scope.

Module RulesTransfer.
Section transfer.
Context `{RustUnicode, RegexEngine, SerdeJson, Collation, IpNetCrate, Moka, Rng,
  Hickory, !HickoryResolver, !DnsCodec, Jwt, SerdeValue}.
Import Api RulesApi.

(** ** Export *)

Definition quote : char := 34.
Definition escape_csv_field (s : str) : str :=
  if contains_char s 44 || contains_char s quote || contains_char s 10
  then quote :: flat_map (fun c => if c =? quote then [quote; quote] else [c]) s ++ [quote]
  else s.
Definition csv_header : str := lit "id,rule,comment,is_enabled,created_by,created_at,expires_at".
Definition csv_columns (r : CustomRule) : list str :=
  [cr_id r; cr_rule r; default [] (cr_comment r); show_bool (cr_is_enabled r); cr_created_by r; cr_created_at r;
   default [] (cr_expires_at r)].
Definition csv_row (r : CustomRule) : str :=
  escape_csv_field (cr_id r) ++ 44 :: escape_csv_field (cr_rule r) ++ 44 :: escape_csv_field (default [] (cr_comment r))
  ++ 44 :: (if cr_is_enabled r then lit "true" else lit "false") ++ 44 :: escape_csv_field (cr_created_by r)
  ++ 44 :: escape_csv_field (cr_created_at r) ++ 44 :: escape_csv_field (default [] (cr_expires_at r)) ++ [10].
Definition export_csv (rows : list CustomRule) : str := csv_header ++ 10 :: concat (map csv_row rows).

Definition txt_row (r : CustomRule) : str :=
  match cr_comment r with
  | Some c => if is_empty c then [] else lit "# " ++ c ++ [10]
  | None => []
  end ++
  (if cr_is_enabled r then cr_rule r ++ [10] else lit "# (disabled) " ++ cr_rule r ++ [10]).
Definition export_txt (now : str) (rows : list CustomRule) : str :=
  (lit "# Rust DNS " ++ [8212] ++ lit " custom rules export") ++ (10 :: (lit "# Exported: " ++ now ++ [10; 10]
  ++ concat (map txt_row rows))).

Definition opt_value (o : option str) : Value := match o with Some s => VString s | None => VNull end.
Definition rule_value (r : CustomRule) : Value :=
  VObject [(lit "id", VString (cr_id r)); (lit "rule", VString (cr_rule r)); (lit "comment", opt_value (cr_comment r));
           (lit "is_enabled", VBool (cr_is_enabled r)); (lit "created_by", VString (cr_created_by r));
           (lit "created_at", VString (cr_created_at r)); (lit "expires_at", opt_value (cr_expires_at r))].
Definition export_json (rows : list CustomRule) : str := to_string_pretty (VArray (map rule_value rows)).

(** The answer: a file with its type and name, or the status 500. *)
Inductive ExportResponse :=
| ExportFailed
| Exported (content_type filename : str) (body : str).

Definition export_rules (d : Draws) (p : Parts) (format : option str) : M App AppError ExportResponse :=
  AuthUser d p ;;;
  let! rows := catch (E:=DbError) (fetch_all (fun t => Listing.order_desc cr_created_at (user_rules t))) in
  ret (match rows with
       | Err _ => ExportFailed
       | Ok rows =>
           let f := default (lit "json") format in
           if f =s? "csv" then Exported "text/csv; charset=utf-8" "rules_export.csv" (export_csv rows)
           else if f =s? "txt" then Exported "text/plain; charset=utf-8" "rules_export.txt" (export_txt (d_text d) rows)
           else Exported "application/json" "rules_export.json" (export_json rows)
       end).

(** ** Import *)

Definition MAX_IMPORT_SIZE : N := 5 * 1024 * 1024.

(** What the handler answers when it does not import: a status, with the
    message (without the text of the error of a crate it may end with); 500
    when a statement of the transaction fails, with a message that names it. *)
Inductive ImportError :=
| NotAuthorized (e : AppError)
| PayloadTooLarge
| BadRequest (m : str)
| ServerError (e : DbError).
Record ImportResponse := { imported : nat; skipped : nat; total : nat }.

(** The first field named "file": its file name in lower case, its content
    type and its bytes. *)
Fixpoint read_field (m : Multipart) : result (option (option str * option str * list N)) ImportError :=
  match m with
  | [] => Ok None
  | None :: _ => Err (BadRequest "Multipart error")
  | Some f :: m' =>
      if bool_decide (f_name f <> Some (lit "file")) then read_field m'
      else match f_bytes f with
           | None => Err (BadRequest "Failed to read file")
           | Some bytes =>
               if MAX_IMPORT_SIZE <? N.of_nat (length bytes) then Err PayloadTooLarge
               else Ok (Some (to_lowercase <$> f_filename f, f_content_type f, bytes))
           end
  end.

Record RuleEntry := { re_rule : str; re_comment : option str }.

Definition looks_like_json (filename content_type : option str) (content : str) : bool :=
  let start := trim_start_by is_whitespace content in
  match content_type with Some ct => contains_str ct (lit "application/json") | None => false end
  || match filename with Some f => ends_with f (lit ".json") | None => false end
  || starts_with_char start 91 || starts_with_char start 123.

Definition json_entry (v : Value) : option RuleEntry :=
  match v with
  | VString s => let r := trim s in if is_empty r then None else Some {| re_rule := r; re_comment := None |}
  | VObject fields =>
      let rule := default [] (trim <$> (value_get (lit "rule") fields ≫= as_str)) in
      if is_empty rule then None
      else Some {| re_rule := rule; re_comment := value_get (lit "comment") fields ≫= as_str |}
  | _ => None
  end.
Definition text_entry (line : str) : option RuleEntry :=
  let line := trim line in
  if is_empty line || starts_with_char line 35 then None else Some {| re_rule := line; re_comment := None |}.
Definition parse_entries (is_json : bool) (content : str) : result (list RuleEntry) ImportError :=
  if is_json then
    match value_from_str (trim content) with
    | Some (VArray arr) => Ok (filter_map json_entry arr)
    | Some _ => Err (BadRequest "JSON must be an array of strings or objects.")
    | None => Err (BadRequest "Invalid JSON")
    end
  else Ok (filter_map text_entry (lines content)).

(** The entries of the file of a request. *)
Definition read_entries (m : Multipart) : result (list RuleEntry) ImportError :=
  try! file := read_field m in
  match file with
  | Some (filename, content_type, (_ :: _) as bytes) =>
      match from_utf8 bytes with
      | None => Err (BadRequest "File is not valid UTF-8 text.")
      | Some content =>
          try! entries := parse_entries (looks_like_json filename content_type content) content in
          match entries with
          | [] => Err (BadRequest "No valid rules found in the uploaded file.")
          | _ => Ok entries
          end
      end
  | _ => Err (BadRequest "No file uploaded or file is empty.")
  end.

(** [SELECT id FROM custom_rules WHERE rule = $1] *)
Definition rule_exists (rule : str) (t : Db) : option str :=
  cr_id <$> find (fun r => cr_rule r =s? rule) (custom_rules t).
Definition imported_row (now user id : str) (e : RuleEntry) (rule : str) : CustomRule :=
  {| cr_id := id; cr_rule := rule; cr_comment := re_comment e; cr_is_enabled := true; cr_created_by := user;
     cr_created_at := now; cr_expires_at := None |}.

(** The loop over the entries; [uuids] are the identifiers it draws. *)
Fixpoint import_loop (now user : str) (uuids : nat -> str) (imported skipped : nat) (entries : list RuleEntry)
    : M App DbError (nat * nat) :=
  match entries with
  | [] => ret (imported, skipped)
  | e :: es =>
      let rule := trim (re_rule e) in
      if is_empty rule then import_loop now user uuids imported (skipped + 1) es
      else
        let! exists_ := fetch_optional (rule_exists rule) in
        match exists_ with
        | Some _ => import_loop now user uuids imported (skipped + 1) es
        | None =>
            execute (insert_row (imported_row now user (uuids imported) e rule)) ;;;
            import_loop now user uuids (imported + 1) skipped es
        end
  end.

Definition import_rules (d : Draws) (uuids : nat -> str) (p : Parts) (m : Multipart) : M App ImportError ImportResponse :=
  let ip := ClientIp p in
  let! auth := mmap_err NotAuthorized (AuthUser d p) in
  let! entries := lift (read_entries m) in
  let total := length entries in
  let! counts := mmap_err ServerError
    (transaction (import_loop (d_text d) (username auth) uuids 0 0 entries)) in
  let '(imported, skipped) := counts in
  mmap_err NotAuthorized
    ((if (0 <? imported)%nat then try_reload_filter d else ret tt) ;;;
     log_action d (sub auth) (username auth) "import" "rule" None
       (Some (lit "imported=" ++ show_N (N.of_nat imported) ++ lit ", skipped=" ++ show_N (N.of_nat skipped)
              ++ lit ", total=" ++ show_N (N.of_nat total))) ip) ;;;
  ret {| imported := imported; skipped := skipped; total := total |}.

(** ** The file of comma separated values *)

(** A reader: a line feed ends a record, a comma a field; in quotes both are
    text, and a doubled quote is a quote. *)
Inductive Mode := Start | Plain | InQuotes | AfterQuote.
Fixpoint csv_read (m : Mode) (field : str) (record : list str) (s : str) : option (list (list str)) :=
  match s with
  | [] =>
      match m with
      | InQuotes => None
      | Start => match record with [] => Some [] | _ => Some [record ++ [field]] end
      | _ => Some [record ++ [field]]
      end
  | c :: s' =>
      match m with
      | InQuotes => if c =? quote then csv_read AfterQuote field record s' else csv_read InQuotes (field ++ [c]) record s'
      | _ =>
          if c =? 44 then csv_read Start [] (record ++ [field]) s'
          else if c =? 10 then cons (record ++ [field]) <$> csv_read Start [] [] s'
          else if c =? quote then
            match m with
            | Start => csv_read InQuotes [] record s'
            | AfterQuote => csv_read InQuotes (field ++ [quote]) record s'
            | _ => None
            end
          else match m with AfterQuote => None | _ => csv_read Plain (field ++ [c]) record s' end
      end
  end.

(** What follows a field. *)
Definition csv_next (field : str) (record : list str) (c : char) (s : str) : option (list (list str)) :=
  if c =? 44 then csv_read Start [] (record ++ [field]) s else cons (record ++ [field]) <$> csv_read Start [] [] s.

Lemma read_plain f acc record c s m :
  contains_char f 44 = false -> contains_char f quote = false -> contains_char f 10 = false ->
  c = 44 \/ c = 10 -> m = Plain \/ (m = Start /\ acc = []) ->
  csv_read m acc record (f ++ c :: s) = csv_next (acc ++ f) record c s.
Proof.
  revert acc m. induction f as [|d f IH]; intros acc m H1' H2' H3' Hc Hm.
  - rewrite app_nil_r. cbn [app csv_read]. unfold csv_next.
    destruct Hm as [->|[-> ->]]; destruct Hc as [->| ->]; done.
  - unfold contains_char in H1', H2', H3'. cbn [existsb] in H1', H2', H3'. apply orb_false_iff in H1' as [Hd1 H1'], H2' as [Hd2 H2'], H3' as [Hd3 H3'].
    rewrite N.eqb_sym in Hd1, Hd2, Hd3. cbn [app csv_read].
    assert (Hs : csv_read Plain (acc ++ [d]) record (f ++ c :: s) = csv_next (acc ++ d :: f) record c s).
    { rewrite IH; [by rewrite <- app_assoc|done..|by left]. }
    destruct Hm as [->|[-> ->]]; rewrite Hd1, Hd3, Hd2; exact Hs.
Qed.
Lemma read_quoted f acc record c s :
  c = 44 \/ c = 10 ->
  csv_read InQuotes acc record (flat_map (fun c => if c =? quote then [quote; quote] else [c]) f ++ quote :: c :: s) =
  csv_next (acc ++ f) record c s.
Proof.
  intros Hc. revert acc. induction f as [|d f IH]; intros acc.
  - rewrite app_nil_r. cbn [flat_map app csv_read]. rewrite N.eqb_refl. unfold csv_next. by destruct Hc as [->| ->].
  - cbn [flat_map]. destruct (d =? quote) eqn:Hd; cbn [app csv_read].
    + apply N.eqb_eq in Hd as ->. rewrite N.eqb_refl. change (quote =? 44) with false. change (quote =? 10) with false.
      cbn iota. rewrite IH. by rewrite <- app_assoc.
    + rewrite Hd, IH. by rewrite <- app_assoc.
Qed.
Lemma csv_read_escaped f record c s :
  c = 44 \/ c = 10 -> csv_read Start [] record (escape_csv_field f ++ c :: s) = csv_next f record c s.
Proof.
  intros Hc. unfold escape_csv_field. destruct (_ || _) eqn:He.
  - cbn [app csv_read]. change (quote =? 44) with false. change (quote =? 10) with false. rewrite N.eqb_refl.
    cbn iota. rewrite <- app_assoc. by apply read_quoted.
  - apply orb_false_iff in He as [[Hq Hc']%orb_false_iff Hn]. apply read_plain; auto.
Qed.
Lemma read_row r s : csv_read Start [] [] (csv_row r ++ s) = cons (csv_columns r) <$> csv_read Start [] [] s.
Proof.
  assert (Hb : (if cr_is_enabled r return list N then lit "true" else lit "false") = escape_csv_field (show_bool (cr_is_enabled r)))
    by (by destruct (cr_is_enabled r)).
  unfold csv_row. rewrite Hb. repeat rewrite <- ?app_assoc, <- ?app_comm_cons.
  do 7 (rewrite csv_read_escaped by auto; unfold csv_next at 1; cbn [N.eqb Pos.eqb app]). done.
Qed.

(** The export as comma separated values can be read back: whatever texts the
    rules and their comments hold, commas, quotes and line feeds too, a reader
    of the format gets the header and, rule by rule, the seven columns as they
    were. *)
Theorem csv_roundtrip rows :
  csv_read Start [] [] (export_csv rows) =
  Some ([lit "id"; lit "rule"; lit "comment"; lit "is_enabled"; lit "created_by"; lit "created_at"; lit "expires_at"]
        :: map csv_columns rows).
Proof.
  unfold export_csv.
  assert (Hrows : csv_read Start [] [] (concat (map csv_row rows)) = Some (map csv_columns rows)).
  { induction rows as [|r rows IH]; [done|]. cbn [map concat]. by rewrite read_row, IH. }
  change (csv_read Start [] [] (csv_header ++ 10 :: concat (map csv_row rows))) with
    (cons [lit "id"; lit "rule"; lit "comment"; lit "is_enabled"; lit "created_by"; lit "created_at"; lit "expires_at"]
       <$> csv_read Start [] [] (concat (map csv_row rows))).
  by rewrite Hrows.
Qed.

(** ** What an import does *)

Definition texts (t : Db) : list str := map cr_rule (custom_rules t).
Definition entry_texts (es : list RuleEntry) : list str := map re_rule es.
(** An entry as the parsers make it. *)
Definition entry_ok (e : RuleEntry) : Prop := trim (re_rule e) = re_rule e /\ is_empty (re_rule e) = false.

Lemma json_entry_ok v e : json_entry v = Some e -> entry_ok e.
Proof.
  destruct v as [| | |s| |fields]; try done; cbn [json_entry]; cbn zeta.
  - destruct (is_empty (trim s)) eqn:He; [done|]. intros [= <-]. split; [apply trim_idem|done].
  - destruct (value_get (lit "rule") fields ≫= as_str) as [s|]; cbn [fmap option_fmap option_map default from_option id]; [|done].
    destruct (is_empty (trim s)) eqn:He; [done|]. intros [= <-]. split; [apply trim_idem|done].
Qed.
Lemma text_entry_ok l e : text_entry l = Some e -> entry_ok e.
Proof.
  unfold text_entry. cbn zeta. destruct (is_empty (trim l)) eqn:He; [done|]. cbn [orb].
  destruct (starts_with_char _ _); [done|]. intros [= <-]. split; [apply trim_idem|done].
Qed.
Lemma read_entries_ok m es : read_entries m = Ok es -> Forall entry_ok es.
Proof.
  unfold read_entries. destruct (read_field m) as [[[[fn ct] [|b bs]]|]|e]; try done.
  destruct (from_utf8 (b :: bs)) as [content|]; [|done]. intros Hp.
  assert (Hes : parse_entries (looks_like_json fn ct content) content = Ok es).
  { destruct (parse_entries _ _) as [[|e es']|]; [done|congruence|done]. }
  revert Hes. unfold parse_entries. destruct (looks_like_json fn ct content).
  - destruct (value_from_str _) as [[| | | |arr|]|]; try done. intros [= <-]. apply Forall_forall.
    intros e (v & _ & Hv)%elem_of_filter_map. by eapply json_entry_ok.
  - intros [= <-]. apply Forall_forall. intros e (l & _ & Hl)%elem_of_filter_map. by eapply text_entry_ok.
Qed.

Lemma rule_exists_spec rule t : rule_exists rule t = None <-> rule ∉ texts t.
Proof.
  unfold rule_exists, texts. destruct (find _ (custom_rules t)) as [r|] eqn:Hf; cbn [fmap option_fmap option_map].
  - split; [done|]. intros Hno. exfalso. apply Hno. apply find_some in Hf as [Hin Hr%str_eqb_eq]. rewrite <- Hr.
    apply list_elem_of_fmap_2. by apply list_elem_of_In.
  - split; [|done]. intros _ (r & -> & Hr)%list_elem_of_fmap. apply list_elem_of_In in Hr.
    pose proof (find_none _ _ Hf r Hr) as Hne. cbn beta in Hne. by rewrite str_eqb_refl in Hne.
Qed.

(** The rows an import adds: each enabled, without expiry, of the user, with
    a text of the file that the table did not have, every such text once. *)
Definition import_adds (now user : str) (es : list RuleEntry) (t t' : Db) (added : list CustomRule) : Prop :=
  t' = set_custom_rules t (custom_rules t ++ added) /\
  NoDup (map cr_rule added) /\
  (forall x, x ∈ map cr_rule added <-> x ∈ entry_texts es /\ x ∉ texts t) /\
  Forall (fun r => cr_is_enabled r = true /\ cr_expires_at r = None /\ cr_created_by r = user /\ cr_created_at r = now) added.

Lemma frames_loop now user uuids i k es : frames (import_loop now user uuids i k es).
Proof.
  revert i k. induction es as [|e es IH]; intros i k; [apply frames_reads, reads_ret|]. cbn [import_loop]. cbn zeta.
  destruct (is_empty _); [apply IH|]. apply frames_bind; [apply frames_reads, reads_query|]. intros [x|]; [apply IH|].
  apply frames_bind; [apply frames_execute|]. intros _. apply IH.
Qed.

Lemma adds_skip now user e es t t' added :
  re_rule e ∈ texts t -> import_adds now user es t t' added -> import_adds now user (e :: es) t t' added.
Proof.
  intros Hin (Ht & Hn & Hx & Hf). split; [done|]. split; [done|]. split; [|done]. intros x. rewrite Hx.
  unfold entry_texts. cbn [map]. rewrite elem_of_cons. split; [tauto|]. intros [[->|?] ?]; done.
Qed.
Lemma adds_one now user e es t t' added row :
  cr_rule row = re_rule e -> re_rule e ∉ texts t ->
  cr_is_enabled row = true /\ cr_expires_at row = None /\ cr_created_by row = user /\ cr_created_at row = now ->
  import_adds now user es (set_custom_rules t (custom_rules t ++ [row])) t' added ->
  import_adds now user (e :: es) t t' (row :: added).
Proof.
  intros Hrow Hnew Hr (Ht & Hn & Hx & Hf).
  assert (Htexts : forall x, x ∈ texts (set_custom_rules t (custom_rules t ++ [row])) <-> x ∈ texts t \/ x = re_rule e).
  { intros x. unfold texts. cbn [custom_rules set_custom_rules]. rewrite map_app, elem_of_app.
    cbn [map]. by rewrite list_elem_of_singleton, Hrow. }
  split; [|split; [|split]].
  - rewrite Ht. cbn [custom_rules set_custom_rules]. by rewrite <- app_assoc.
  - cbn [map]. apply NoDup_cons. split; [|done]. rewrite Hx, Htexts, Hrow. tauto.
  - intros x. cbn [map entry_texts]. rewrite !elem_of_cons, Hx, Htexts, Hrow. split.
    + intros [->|[? ?]]; [by split; [left|]|]. tauto.
    + intros [[->|?] ?]; [by left|]. destruct (decide (x = re_rule e)) as [->|]; [by left|]. right. tauto.
  - by constructor.
Qed.

(** Whatever fails before: a loop that ends well has added what is new. *)
Lemma loop_adds now user uuids es i k s i' k' s' :
  Forall entry_ok es -> import_loop now user uuids i k es s = (Ok (i', k'), s') ->
  exists added, import_adds now user es (tables (db_of s)) (tables (db_of s')) added /\
    i' = (i + length added)%nat /\ (i' + k' = i + k + length es)%nat.
Proof.
  intros Hes. revert i k s. induction Hes as [|e es [Htrim Hne] Hes IH]; intros i k s.
  - intros [= <- <- <-]. exists []. split; [|cbn [length]; lia]. split; [|split; [constructor|split; [|constructor]]].
    + rewrite app_nil_r. by rewrite set_same.
    + intros x. cbn [map entry_texts]. rewrite elem_of_nil. tauto.
  - cbn [import_loop]. cbn zeta. rewrite Htrim, Hne. intros Hrun. apply bind_Ok in Hrun as (ex & s1 & Hq & Hrun).
    apply query_Ok in Hq as (Hq & Ht1 & _). assert (Hex : rule_exists (re_rule e) (tables (db_of s)) = ex) by congruence. clear Hq.
    destruct ex as [x|].
    + destruct (IH _ _ _ Hrun) as (added & Hadd & Hi & Hk). exists added. rewrite Ht1 in Hadd. split; [|cbn [length]; lia].
      apply adds_skip; [|done]. destruct (decide (re_rule e ∈ texts (tables (db_of s)))) as [|Hno]; [done|].
      apply rule_exists_spec in Hno. congruence.
    + apply bind_Ok in Hrun as ([] & s2 & Hx & Hrun). apply execute_Ok in Hx as [Hx _]. rewrite Ht1 in Hx.
      unfold insert_row in Hx. destruct (existsb _ _); [done|].
      assert (Hx' : tables (db_of s2) = set_custom_rules (tables (db_of s)) (custom_rules (tables (db_of s)) ++
        [imported_row now user (uuids i) e (re_rule e)])) by congruence.
      destruct (IH _ _ _ Hrun) as (added & Hadd & Hi & Hk). rewrite Hx' in Hadd. eexists (_ :: added).
      split; [eapply adds_one; [..|exact Hadd]; [done|by apply rule_exists_spec|done]|cbn [length]; lia].
Qed.

Lemma set_audit_same t : set_audit_log t (audit_log t) = t.
Proof. by destruct t. Qed.
(** What follows the transaction never fails. *)
Lemma import_end d c action de ip (b : bool) (s : App) :
  exists s', ((if b then try_reload_filter d else ret tt) ;;; log_action d (sub c) (username c) action "rule" None de ip) s
      = (Ok tt, s') /\
    tables (db_of s') = set_audit_log (tables (db_of s)) (audit_log (tables (db_of s'))) /\
    (db_works s -> b = true -> filter_live (d_text d) s').
Proof.
  assert (Hreload : exists s1, (if b then try_reload_filter d else ret tt) s = (Ok tt, s1) /\
    tables (db_of s1) = tables (db_of s) /\ (db_works s -> db_works s1 /\ (b = true -> filter_live (d_text d) s1))).
  { destruct b; [|by exists s]. unfold try_reload_filter, bind, catch.
    pose proof (preserves_reload_engine (fun t => t = tables (db_of s)) d s eq_refl) as Ht.
    assert (Hw : db_works s -> exists n, reload_engine d s = (Ok tt, with_calls n (reloaded d s))).
    { intros Hs. apply does_run. by apply does_reload_engine. }
    destruct (reload_engine d s) as [r s1]. cbn [snd] in Ht. exists s1. split; [done|]. split; [done|]. intros Hs.
    destruct (Hw Hs) as [n [= _ ->]]. done. }
  destruct Hreload as (s1 & Hr & Ht1 & Hl1). unfold bind at 1. rewrite Hr. unfold log_action. eexists. split; [reflexivity|].
  unfold execute. cbn zeta. cbn [tick tables faults]. destruct (faults _ _) eqn:Hf; cbn [snd]; rewrite db_of_with; cbn [tick store tables].
  - rewrite Ht1, set_audit_same. split; [done|]. intros Hs _. destruct (Hl1 Hs) as [Hw _]. by rewrite Hw in Hf.
  - rewrite Ht1. split; [done|]. intros Hs Hb. destruct (Hl1 Hs) as [_ Hl]. specialize (Hl Hb). destruct Hl as [Hlr Hlw].
    rewrite Ht1 in Hlw. unfold loaded in Hlr. rewrite Ht1 in Hlr. split; [exact Hlr|exact Hlw].
Qed.

(** C20: An import happens as a whole or not at all, whatever the request and
    whatever statement fails.  When the answer is an error the tables are as
    they were.  When it is not, the file was read, and the table has got
    exactly the rules of the file it did not have, each text once, enabled,
    without expiry, in the name of the user; the numbers of the answer add up,
    and nothing else changed but the audit log.  So importing a file again
    adds nothing.  On a working connection the filter is reloaded when
    something was added. *)
Theorem import_correct d uuids p m s :
  let '(r, s') := import_rules d uuids p m s in
  let t := tables (db_of s) in
  match r with
  | Err _ => tables (db_of s') = t
  | Ok resp =>
      exists auth entries added t1,
        fst (AuthUser d p s) = Ok auth /\ read_entries m = Ok entries /\
        import_adds (d_text d) (username auth) entries t t1 added /\
        tables (db_of s') = set_audit_log t1 (audit_log (tables (db_of s'))) /\
        (forall x, x ∈ entry_texts entries -> x ∈ texts (tables (db_of s'))) /\
        imported resp = length added /\ total resp = length entries /\
        (imported resp + skipped resp = total resp)%nat /\
        (db_works s -> added <> [] -> filter_live (d_text d) s')
  end.
Proof.
  unfold import_rules. cbn zeta. unfold bind at 1, mmap_err at 1.
  pose proof (AuthUser_state d p s) as Hst. destruct (AuthUser d p s) as [[auth|e] s0]; cbn [fst snd map_err] in *; subst s0; [|done].
  unfold bind at 1, lift. destruct (read_entries m) as [entries|e] eqn:Hread; [|done].
  pose proof (read_entries_ok _ _ Hread) as Hes. unfold bind at 1, mmap_err at 1.
  pose proof (frames_transaction _ (frames_loop (d_text d) (username auth) uuids 0 0 entries) s) as (db1 & Hf1 & Hdb1).
  destruct (transaction _ s) as [[[i k]|e] s1] eqn:Htx; cbn [map_err].
  2: { eapply transaction_atomic; [apply frames_loop|exact Htx]. }
  apply transaction_Ok in Htx as (s2 & s3 & Ht2 & Hloop & Ht3).
  apply loop_adds in Hloop as (added & Hadd & Hi & Hk); [|done]. rewrite Ht2 in Hadd. rewrite <- Ht3 in Hadd.
  cbn [snd] in Hdb1. assert (Hw1 : db_works s -> db_works s1) by (intros Hs n; subst s1; by rewrite db_of_with, Hf1).
  unfold bind at 1, mmap_err.
  match goal with |- context [(bind (if ?b then _ else _) (fun _ => log_action _ _ _ ?ac _ _ ?de ?ip)) s1] =>
    destruct (import_end d auth ac de ip b s1) as (s4 & Hend & Ht4 & Hl4) end.
  rewrite Hend. cbn [map_err]. unfold ret. exists auth, entries, added, (tables (db_of s1)).
  split; [done|]. split; [done|]. split; [done|]. split; [done|]. split.
  { intros x Hx. rewrite Ht4. destruct Hadd as (-> & _ & Hx' & _). unfold texts.
    cbn [custom_rules set_audit_log set_custom_rules]. rewrite map_app, elem_of_app.
    destruct (decide (x ∈ texts (tables (db_of s)))) as [|Hno]; [by left|]. right. by apply Hx'. }
  cbn [imported skipped total]. split; [lia|]. split; [done|]. split; [lia|]. intros Hs Hne. apply Hl4; [by apply Hw1|].
  apply Nat.ltb_lt. destruct added; [done|]. cbn [length] in Hi. lia.
Qed.

(** ** Exported files read back *)

Lemma lines_cons w s : 10 ∉ w -> lines (w ++ 10 :: s) = strip_cr w :: lines s.
Proof.
  intros Hw. unfold lines, split. rewrite split_by_app by (done || by apply lacks_char).
  destruct (split_by (N.eqb 10) s) as [|x xs] eqn:Hs; [by apply split_by_nonempty in Hs|]. done.
Qed.
Lemma trim_strip_cr w : trim (strip_cr w) = trim w.
Proof.
  unfold strip_cr. destruct (rev w) as [|c r] eqn:Hr; [done|]. destruct (decide (c = 13)) as [->|Hc].
  - assert (w = rev r ++ [13]) as -> by (rewrite <- (rev_involutive w), Hr; done).
    unfold trim, trim_start_by. assert (Hd : drop_while is_whitespace (rev r ++ [13]) =
      match drop_while is_whitespace (rev r) with [] => [] | l => l ++ [13] end).
    { generalize (rev r) as l. induction l as [|x l IH]; [done|]. cbn [app drop_while]. by destruct (is_whitespace x). }
    rewrite Hd. destruct (drop_while is_whitespace (rev r)) as [|x l]; [done|].
    unfold trim_end_by. by rewrite rev_app_distr.
  - destruct c as [|q]; [done|]. do 4 (destruct q; try done).
Qed.
Lemma entries_line w s :
  10 ∉ w -> filter_map text_entry (lines (w ++ 10 :: s)) =
    (match text_entry w with Some e => [e] | None => [] end) ++ filter_map text_entry (lines s).
Proof.
  intros Hw. rewrite lines_cons by done. cbn [filter_map].
  assert (text_entry (strip_cr w) = text_entry w) as -> by (unfold text_entry; by rewrite trim_strip_cr).
  by destruct (text_entry w).
Qed.
Lemma trim_end_keeps p c w : p c = false -> trim_end_by p (c :: w) = c :: trim_end_by p w.
Proof.
  intros Hc. unfold trim_end_by. cbn [rev].
  assert (Hd : drop_while p (rev w ++ [c]) = drop_while p (rev w) ++ [c]).
  { generalize (rev w) as l. induction l as [|x l IH]; cbn [app drop_while]; [by rewrite Hc|]. by destruct (p x). }
  by rewrite Hd, rev_app_distr.
Qed.
Lemma comment_line w : starts_with_char w 35 = true -> text_entry w = None.
Proof.
  intros Hw. unfold text_entry. cbn zeta.
  assert (Ht : starts_with_char (trim w) 35 = true).
  { destruct w as [|c w]; [done|]. cbn [starts_with_char] in Hw. apply N.eqb_eq in Hw as ->.
    change (trim (35 :: w)) with (trim_end_by is_whitespace (35 :: w)). by rewrite trim_end_keeps. }
  by rewrite Ht, orb_true_r.
Qed.

(** A rule that is one line of text. *)
Definition line_ok (r : CustomRule) : Prop :=
  trim (cr_rule r) = cr_rule r /\ is_empty (cr_rule r) = false /\ starts_with_char (cr_rule r) 35 = false /\
  10 ∉ cr_rule r /\ 10 ∉ default [] (cr_comment r).

Lemma txt_row_entries r s :
  line_ok r ->
  filter_map text_entry (lines (txt_row r ++ s)) =
    ((if cr_is_enabled r then [{| re_rule := cr_rule r; re_comment := None |}] else []) ++ filter_map text_entry (lines s)).
Proof.
  intros (Htrim & Hne & Hhash & Hnl & Hcnl). unfold txt_row. rewrite <- app_assoc.
  assert (Hrule : filter_map text_entry (lines ((if cr_is_enabled r then cr_rule r ++ [10] else lit "# (disabled) " ++ cr_rule r ++ [10]) ++ s)) =
    (if cr_is_enabled r then [{| re_rule := cr_rule r; re_comment := None |}] else []) ++ filter_map text_entry (lines s)).
  { destruct (cr_is_enabled r).
    - rewrite <- app_assoc. cbn [app]. rewrite entries_line by done. unfold text_entry at 1. cbn zeta.
      by rewrite Htrim, Hne, Hhash.
    - replace ((lit "# (disabled) " ++ cr_rule r ++ [10]) ++ s) with ((lit "# (disabled) " ++ cr_rule r) ++ 10 :: s)
        by (by rewrite <- !app_assoc).
      rewrite entries_line; [by rewrite comment_line|]. rewrite elem_of_app. intros [Hin|Hin]; [|done].
      revert Hin. apply (bool_decide_unpack _). vm_compute. exact I. }
  destruct (cr_comment r) as [c|]; [|exact Hrule]. destruct (is_empty c); [exact Hrule|].
  replace ((lit "# " ++ c ++ [10]) ++ (if cr_is_enabled r then cr_rule r ++ [10] else lit "# (disabled) " ++ cr_rule r ++ [10]) ++ s)
    with ((lit "# " ++ c) ++ 10 :: (if cr_is_enabled r then cr_rule r ++ [10] else lit "# (disabled) " ++ cr_rule r ++ [10]) ++ s)
    by (by rewrite <- !app_assoc).
  rewrite entries_line; [by rewrite comment_line, Hrule|]. rewrite elem_of_app. intros [Hin|Hin]; [|done].
  revert Hin. apply (bool_decide_unpack _). vm_compute. exact I.
Qed.

(** What is exported can be imported, and what that loses.  A text export of
    rules that are one line each is read back as the enabled rules, in their
    order: comments and disabled rules are lines the import skips.  A JSON
    export is read back as all the rules with their comments, the disabled
    and the expiring ones too; an import enables every rule and gives none an
    expiry ([import_correct]). *)
Theorem reimport_correct now rows :
  10 ∉ now -> Forall line_ok rows ->
  parse_entries false (export_txt now rows) =
    Ok (map (fun r => {| re_rule := cr_rule r; re_comment := None |}) (List.filter cr_is_enabled rows)) /\
  (value_from_str (trim (export_json rows)) = Some (VArray (map rule_value rows)) ->
   parse_entries true (export_json rows) = Ok (map (fun r => {| re_rule := cr_rule r; re_comment := cr_comment r |}) rows)).
Proof.
  intros Hnow Hrows. split.
  - unfold parse_entries, export_txt. f_equal.
    rewrite entries_line by (apply (bool_decide_unpack _); vm_compute; exact I). rewrite comment_line by done. cbn [app].
    change (lit "# Exported: " ++ now ++ 10 :: 10 :: concat (map txt_row rows)) with
      (lit "# Exported: " ++ now ++ 10 :: ([] ++ 10 :: concat (map txt_row rows))).
    rewrite app_assoc, entries_line.
    2: { rewrite elem_of_app. intros [Hin|Hin]; [|done]. revert Hin. apply (bool_decide_unpack _). vm_compute. exact I. }
    rewrite comment_line, entries_line by (done || apply not_elem_of_nil).
    change (text_entry []) with (@None RuleEntry). cbn [app].
    induction Hrows as [|r rows Hr Hrows IH]; [done|]. cbn [map concat List.filter]. rewrite txt_row_entries, IH by done.
    by destruct (cr_is_enabled r).
  - intros Hv. unfold parse_entries. rewrite Hv. f_equal. clear Hv. induction Hrows as [|r rows Hr Hrows IH]; [done|].
    cbn [map filter_map]. destruct Hr as (Htrim & Hne & _).
    assert (Hj : json_entry (rule_value r) = Some {| re_rule := cr_rule r; re_comment := cr_comment r |}).
    { unfold json_entry, rule_value. cbn zeta.
      assert (Hget : value_get (lit "rule") [(lit "id", VString (cr_id r)); (lit "rule", VString (cr_rule r)); (lit "comment", opt_value (cr_comment r));
           (lit "is_enabled", VBool (cr_is_enabled r)); (lit "created_by", VString (cr_created_by r));
           (lit "created_at", VString (cr_created_at r)); (lit "expires_at", opt_value (cr_expires_at r))] = Some (VString (cr_rule r))) by done.
      rewrite Hget. cbn [mbind option_bind as_str fmap option_fmap option_map default from_option id]. rewrite Htrim, Hne.
      by destruct (cr_comment r). }
    by rewrite Hj, IH.
Qed.

End transfer.
End RulesTransfer.

(** ** Concrete files *)

Module TransferWitness.
Import AsciiUnicode RefRegex RefJson RefIpNet RefMoka RefRng RefHickory RefResolver RefCrypto RefValue.
Import Api AppWitness RulesApi RulesTransfer.

Definition upload (name : string) (content : str) : Multipart :=
  [Some {| f_name := Some (lit "file"); f_filename := Some (lit name); f_content_type := None; f_bytes := Some content |}].
Definition rule (id text : string) (comment : option string) (enabled : bool) (expires : option string) : CustomRule :=
  {| cr_id := lit id; cr_rule := lit text; cr_comment := lit <$> comment; cr_is_enabled := enabled; cr_created_by := lit "ann";
     cr_created_at := lit "now"; cr_expires_at := lit <$> expires |}.
Definition rules1 : list CustomRule :=
  [rule "1" "||ads.com^" None true None; rule "2" "||old.com^" (Some "a, b"%string) false (Some "2020"%string)].
Definition uuids (n : nat) : str := lit "u" ++ show_N (N.of_nat n).
Definition lines_of (l : list string) : str := join [10] (map (fun s : string => lit s) l).

(** A file of lines: the comment, the empty line, the known rule and the
    second copy are skipped. *)
Definition file1 : str := lines_of ["# mine"; " ||new.com^ "; ""; "||ads.com^"; "||new.com^"; "@@||ok.com^"]%string.
Definition import1 := import_rules today uuids admin (upload "my.txt" file1).
Example import_test :
  let '(r, s) := import1 (app (set_custom_rules empty_db rules1)) in
  (r, map cr_rule (custom_rules (tables (db_of s)))) =
  (Ok {| imported := 2; skipped := 2; total := 4 |}, map (fun s : string => lit s) ["||ads.com^"; "||old.com^"; "||new.com^"; "@@||ok.com^"]%string).
Proof. vm_compute. reflexivity. Qed.
(** The list header of ad blockers is taken for JSON. *)
Example adblock_header_test :
  fst (import_rules today uuids admin (upload "list.txt" (lines_of ["[Adblock Plus 2.0]"; "||ads.com^"]%string)) (app empty_db))
  = Err (BadRequest "Invalid JSON").
Proof. vm_compute. reflexivity. Qed.
(** A disabled and expired rule comes back enabled and without expiry. *)
Example json_test :
  let '(r, s) := import_rules today uuids admin (upload "rules_export.json" (export_json
    [rule "2" "||old.com^" None false (Some "2020"%string)])) (app empty_db) in
  map (fun r => (cr_rule r, cr_is_enabled r, cr_expires_at r)) (custom_rules (tables (db_of s))) = [(lit "||old.com^", true, None)].
Proof. vm_compute. reflexivity. Qed.

Lemma import_correct_witness :
  let s := app_with (N.eqb 4) (set_custom_rules empty_db rules1) in
  is_ok (fst (import1 s)) = false /\ tables (db_of (snd (import1 s))) = tables (db_of s).
Proof.
  cbv zeta. split; [vm_compute; reflexivity|].
  pose proof (import_correct today uuids admin (upload "my.txt" file1) (app_with (N.eqb 4) (set_custom_rules empty_db rules1))) as H.
  assert (Hr : is_ok (fst (import1 (app_with (N.eqb 4) (set_custom_rules empty_db rules1)))) = false) by (vm_compute; reflexivity).
  unfold import1 in *. destruct (import_rules _ _ _ _ _) as [[resp|e] s']; [discriminate Hr|exact H].
Defined.

Lemma reimport_correct_witness :
  parse_entries true (export_json [rule "1" "||ads.com^" (Some "why"%string) false None]) =
  Ok [{| re_rule := lit "||ads.com^"; re_comment := Some (lit "why") |}].
Proof.
  apply (reimport_correct (lit "now") [rule "1" "||ads.com^" (Some "why"%string) false None]).
  - apply (bool_decide_unpack _). vm_compute. exact I.
  - constructor; [|constructor]. repeat split; try (vm_compute; reflexivity); apply (bool_decide_unpack _); vm_compute; exact I.
  - vm_compute. reflexivity.
Defined.
End TransferWitness.
