(* ===== verification/Clients.v ===== *)
(** * The clients of the API: src/api/handlers/clients.rs, src/utils/arp.rs

    A client is a row of addresses with settings; the DNS handler keeps the
    configuration it makes of the row for a minute, so every call that writes
    empties that cache. *)
From S2P Require Import Prelude RustStr IpAddr Regex Rules Acl Moka Hickory Cache Db DbLogic Filter Resolver.
From S2P Require Import UpstreamPool Handler HandlerTests Api App Auth AppTests Listing Tables.
Local Open Scope N_scope.

Record CreateClientRequest := {
  ccr_name : str; ccr_identifiers : Value; ccr_upstreams : option Value; ccr_filter_enabled : bool;
  ccr_tags : option Value }.
Record UpdateClientRequest := {
  ucr_name : option str; ucr_identifiers : option Value; ucr_upstreams : option Value;
  ucr_filter_enabled : option bool; ucr_tags : option Value }.

(** ** The addresses of the network: src/utils/arp.rs *)

Module Arp.
(** The entry of a line of /proc/net/arp. *)
Definition arp_entry (line : str) : option (str * str) :=
  match split_whitespace line with
  | ip :: _ :: _ :: mac :: _ =>
      if negb (mac =s? "00:00:00:00:00:00") && negb (is_empty mac) then Some (ip, mac) else None
  | _ => None
  end.
(** What [fs::read_to_string] gave; later lines replace earlier ones. *)
Definition get_arp_map (contents : option str) : gmap str str :=
  match contents with
  | Some text =>
      fold_left (fun m line => match arp_entry line with Some (ip, mac) => <[ip := mac]> m | None => m end)
        (drop 1 (lines text)) ∅
  | None => ∅
  end.
Example arp_test :
  let row s := lit s ++ [10] in
  let m := get_arp_map (Some (row "IP address HW type Flags HW address Mask Device" ++
    row "10.0.0.2  0x1  0x2  aa:bb:cc:dd:ee:ff  *  eth0" ++ row "10.0.0.3 0x1 0x0 00:00:00:00:00:00 * eth0")) in
  (m !! lit "10.0.0.2", m !! lit "10.0.0.3", get_arp_map None !! lit "10.0.0.2") = (Some (lit "aa:bb:cc:dd:ee:ff"), None, None).
Proof. vm_compute. reflexivity. Qed.
End Arp.

Module Clients.
Section clients.
Context `{RustUnicode, RegexEngine, SerdeJson, Collation, IpNetCrate, Moka, Rng,
  Hickory, !HickoryResolver, !DnsCodec, Jwt, SqlTime, SqlJson, SerdeValue}.
Import Api.

Definition validate_json_array (value : Value) : result unit AppError :=
  match as_array value with
  | Some arr => if bool_decide (length arr = 0%nat) then Err (Validation "Array cannot be empty") else Ok tt
  | None => Err (Validation "Must be a JSON array")
  end.
Definition parse_json_value (value : option str) : option Value := value ≫= value_from_str.

(** ** The statements *)

Definition decode_bool (v : sql_value) : result bool DbError :=
  match v with SqlBool b => Ok b | SqlInt _ => Err ColumnDecode end.
(** [SELECT value FROM json_array_elements_text(c.identifiers::json)]: a text
    that is no array fails the statement. *)
Definition element_texts (identifiers : str) : result (list str) DbError :=
  match json_array_elements_text identifiers with
  | Some l => Ok (filter_map id l)
  | None => Err DatatypeMismatch
  end.
Definition asked_by (ips : list str) (q : QueryLogRow) : bool := existsb (str_eqb (q_client_ip q)) ips.
(** A row as [ClientRow]: [filter_enabled] and [query_count] besides the
    texts. *)
Definition client_row (t : Db) (c : Client) : result (Client * bool * nat) DbError :=
  try! ips := element_texts (c_identifiers c) in
  try! fe := decode_bool (c_filter_enabled c) in
  Ok (c, fe, length (List.filter (asked_by ips) (query_log t))).
Fixpoint try_map {A B E} (f : A -> result B E) (l : list A) : result (list B) E :=
  match l with
  | [] => Ok []
  | x :: l' => try! y := f x in try! ys := try_map f l' in Ok (y :: ys)
  end.
Definition static_rows (t : Db) : result (list (Client * bool * nat)) DbError :=
  try_map (client_row t) (Listing.order_desc c_created_at (clients t)).
(** The addresses of the log no client names, each with its number of
    queries and the time of the last one. *)
Definition dynamic_rows (t : Db) : result (list (str * nat * str)) DbError :=
  try! named := try_map (fun c => element_texts (c_identifiers c)) (clients t) in
  let rest := List.filter (fun q => negb (existsb (fun ips => asked_by ips q) named)) (query_log t) in
  let group ip :=
    let rows := List.filter (fun q : QueryLogRow => q_client_ip q =s? ip) rest in
    (ip, length rows, timestamptz_text (fold_right N.max 0 (map (fun q : QueryLogRow => q_time q) rows))) in
  Ok (Listing.order_desc snd (map group (remove_dups (map (fun q : QueryLogRow => q_client_ip q) rest)))).

Definition insert_row (row : Client) (t : Db) : result (unit * Db) DbError :=
  if existsb (fun r => c_id r =s? c_id row) (clients t) then Err UniqueViolation
  else Ok (tt, set_clients t (clients t ++ [row])).
Definition row_by_id (id : str) (t : Db) : result (option (Client * bool)) DbError :=
  match row_named c_id id (clients t) with
  | Some c => try! row := client_row t c in Ok (Some (row.1))
  | None => Ok None
  end.
Definition change_row (name identifiers : str) (upstreams : option str) (fe : bool) (tags : option str) (now : str)
    (c : Client) : Client :=
  {| c_id := c_id c; c_name := name; c_identifiers := identifiers; c_upstreams := upstreams;
     c_filter_enabled := SqlBool fe; c_tags := tags; c_created_at := c_created_at c; c_updated_at := now |}.
Definition update_row (id : str) (g : Client -> Client) (t : Db) : result (unit * Db) DbError :=
  Ok (tt, set_clients t (change_named c_id id g (clients t))).
Definition delete_row (id : str) (t : Db) : result (nat * Db) DbError :=
  Ok (count_named c_id id (clients t), set_clients t (without c_id id (clients t))).

(** ** The handlers *)

(** The pattern of a MAC address, [^([0-9a-fA-F]{2}[:-]){5}[0-9a-fA-F]{2}$]. *)
Definition mac_pattern : str := lit "^([0-9a-fA-F]{2}[:-]){5}[0-9a-fA-F]{2}$".
Definition is_mac (s : str) : bool :=
  match RegexSet_new [mac_pattern] with Some re => RegexSet_is_match re s | None => false end.

Record Row := {
  cl_id : str; cl_name : str; cl_identifiers : list str; cl_upstreams : option Value; cl_filter_enabled : bool;
  cl_tags : option Value; cl_created_at : str; cl_updated_at : str; cl_query_count : nat; cl_is_static : bool }.
(** The identifiers of a client, with the MAC address of its first address
    when none is stored. *)
Definition with_mac (arp_map : gmap str str) (idents : list str) : list str :=
  if existsb is_mac idents then idents
  else match find (fun i => negb (is_mac i)) idents with
       | Some ip => match arp_map !! ip with Some mac => idents ++ [mac] | None => idents end
       | None => idents
       end.
Definition static_row (arp_map : gmap str str) (r : Client * bool * nat) : Row :=
  let '(c, fe, n) := r in
  {| cl_id := c_id c; cl_name := c_name c; cl_identifiers := with_mac arp_map (default [] (json_strings (c_identifiers c)));
     cl_upstreams := parse_json_value (c_upstreams c); cl_filter_enabled := fe; cl_tags := parse_json_value (c_tags c);
     cl_created_at := c_created_at c; cl_updated_at := c_updated_at c; cl_query_count := n; cl_is_static := true |}.
Definition dynamic_row (arp_map : gmap str str) (r : str * nat * str) : Row :=
  let '(ip, n, last_seen) := r in
  {| cl_id := lit "dynamic-" ++ ip; cl_name := lit "Unknown " ++ ip;
     cl_identifiers := ip :: match arp_map !! ip with Some mac => [mac] | None => [] end;
     cl_upstreams := None; cl_filter_enabled := true; cl_tags := None; cl_created_at := last_seen;
     cl_updated_at := last_seen; cl_query_count := n; cl_is_static := false |}.
(** [data.sort_by(date_b.cmp(date_a))], which keeps the order of equal
    dates. *)
Fixpoint insert_newest (x : Row) (l : list Row) : list Row :=
  match l with
  | [] => [x]
  | y :: l' => if str_leb (cl_updated_at y) (cl_updated_at x) then x :: l else y :: insert_newest x l'
  end.
Definition list_clients (d : Draws) (q : Parts) (arp : option str) : M App AppError (list Row) :=
  AuthUser d q ;;;
  let! static := db (query static_rows) in
  let! dynamic := db (query dynamic_rows) in
  let arp_map := Arp.get_arp_map arp in
  ret (fold_right insert_newest [] (map (static_row arp_map) static ++ map (dynamic_row arp_map) dynamic)).

Record ClientResponse := {
  cp_id : str; cp_name : str; cp_identifiers : option Value; cp_upstreams : option Value; cp_filter_enabled : bool;
  cp_tags : option Value; cp_created_at : str; cp_updated_at : str }.

Definition create (d : Draws) (p : Parts) (body : CreateClientRequest) : M App AppError ClientResponse :=
  let ip := ClientIp p in
  let! auth := AuthUser d p in
  let name := trim (ccr_name body) in
  if is_empty name then fail (Validation "Client name cannot be empty")
  else
    lift (validate_json_array (ccr_identifiers body)) ;;;
    let row := {| c_id := d_uuid d; c_name := name; c_identifiers := to_string (ccr_identifiers body);
                  c_upstreams := to_string <$> ccr_upstreams body;
                  c_filter_enabled := SqlBool (ccr_filter_enabled body);
                  c_tags := to_string <$> ccr_tags body; c_created_at := d_text d; c_updated_at := d_text d |} in
    db (execute (insert_row row)) ;;;
    forget_clients ;;;
    log_action d (sub auth) (username auth) "create" "client" (Some (d_uuid d)) (Some name) ip ;;;
    ret {| cp_id := d_uuid d; cp_name := name; cp_identifiers := Some (ccr_identifiers body);
           cp_upstreams := ccr_upstreams body; cp_filter_enabled := ccr_filter_enabled body; cp_tags := ccr_tags body;
           cp_created_at := d_text d; cp_updated_at := d_text d |}.

Definition client_not_found (id : str) : AppError := NotFound (lit "Client " ++ id ++ lit " not found").
Definition new_identifiers (body : UpdateClientRequest) (old : str) : result str AppError :=
  match ucr_identifiers body with
  | Some v => try! _ := validate_json_array v in Ok (to_string v)
  | None => Ok old
  end.
Definition or_old (v : option Value) (old : option str) : option str :=
  match v with Some v => Some (to_string v) | None => old end.

Definition update (d : Draws) (p : Parts) (id : str) (body : UpdateClientRequest) : M App AppError ClientResponse :=
  let ip := ClientIp p in
  let! auth := AuthUser d p in
  let! existing := db (query (row_by_id id)) in
  let! old := lift (ok_or existing (client_not_found id)) in
  let name := default (c_name old.1) (ucr_name body) in
  let! identifiers := lift (new_identifiers body (c_identifiers old.1)) in
  let upstreams := or_old (ucr_upstreams body) (c_upstreams old.1) in
  let tags := or_old (ucr_tags body) (c_tags old.1) in
  let filter_enabled := default old.2 (ucr_filter_enabled body) in
  db (execute (update_row id (change_row name identifiers upstreams filter_enabled tags (d_text d)))) ;;;
  forget_clients ;;;
  log_action d (sub auth) (username auth) "update" "client" (Some id) (Some name) ip ;;;
  ret {| cp_id := id; cp_name := name; cp_identifiers := parse_json_value (Some identifiers);
         cp_upstreams := parse_json_value upstreams; cp_filter_enabled := filter_enabled;
         cp_tags := parse_json_value tags; cp_created_at := c_created_at old.1; cp_updated_at := d_text d |}.

Definition delete (d : Draws) (p : Parts) (id : str) : M App AppError unit :=
  let ip := ClientIp p in
  let! auth := AuthUser d p in
  let! rows_affected := db (execute (delete_row id)) in
  if (rows_affected =? 0)%nat then fail (client_not_found id)
  else
    forget_clients ;;;
    log_action d (sub auth) (username auth) "delete" "client" (Some id) None ip.

(** The calls that write. *)
Inductive Call :=
| Create (body : CreateClientRequest)
| Update (id : str) (body : UpdateClientRequest)
| Delete (id : str).
Definition run (d : Draws) (p : Parts) (c : Call) : M App AppError unit :=
  match c with
  | Create body => create d p body ;;; ret tt
  | Update id body => update d p id body ;;; ret tt
  | Delete id => delete d p id
  end.

(** ** What a call does *)

(** The settings of a client, as a store by identifier. *)
Record Settings := {
  s_name : str; s_identifiers : str; s_upstreams : option str; s_filter_enabled : sql_value; s_tags : option str }.
Definition settings_of (c : Client) : Settings :=
  {| s_name := c_name c; s_identifiers := c_identifiers c; s_upstreams := c_upstreams c;
     s_filter_enabled := c_filter_enabled c; s_tags := c_tags c |}.
Definition store_of (t : Db) : gmap str Settings := view c_id settings_of (clients t).

(** The store after a call, or why the call is refused. *)
Definition spec (new_id : str) (c : Call) (m : gmap str Settings) : result (gmap str Settings) AppError :=
  match c with
  | Create body =>
      let name := trim (ccr_name body) in
      if is_empty name then Err (Validation "Client name cannot be empty")
      else
        try! _ := validate_json_array (ccr_identifiers body) in
        if bool_decide (is_Some (m !! new_id)) then Err (Database UniqueViolation)
        else Ok (<[new_id := {| s_name := name; s_identifiers := to_string (ccr_identifiers body);
                   s_upstreams := to_string <$> ccr_upstreams body; s_filter_enabled := SqlBool (ccr_filter_enabled body);
                   s_tags := to_string <$> ccr_tags body |}]> m)
  | Update id body =>
      match m !! id with
      | None => Err (client_not_found id)
      | Some old =>
          try! identifiers := new_identifiers body (s_identifiers old) in
          Ok (<[id := {| s_name := default (s_name old) (ucr_name body); s_identifiers := identifiers;
                s_upstreams := or_old (ucr_upstreams body) (s_upstreams old);
                s_filter_enabled := match ucr_filter_enabled body with Some b => SqlBool b | None => s_filter_enabled old end;
                s_tags := or_old (ucr_tags body) (s_tags old) |}]> m)
      end
  | Delete id => match m !! id with None => Err (client_not_found id) | Some _ => Ok (base.delete id m) end
  end.

(** Every row has an identifier of its own and the columns the handlers read:
    a flag and an array. *)
Definition clients_ok (t : Db) : Prop :=
  NoDup (map c_id (clients t)) /\
  forall c, c ∈ clients t -> is_ok (decode_bool (c_filter_enabled c)) = true /\ is_ok (element_texts (c_identifiers c)) = true.

(** Nothing but the table and the audit log has changed. *)
Definition stored (t t' : Db) : Prop := t' = set_audit_log (set_clients t (clients t')) (audit_log t').
(** The state a call ends in that stored new rows. *)
Definition finish (d : Draws) (auth : Claims) (action id : str) (detail : option str) (p : Parts) (rows : list Client)
    (s : App) : App :=
  logged d auth action "client" (Some id) detail p
    (forgotten (with_tables (set_clients (tables (db_of s)) rows) s)).

Lemma cl_row_readable t id c :
  clients_ok t -> row_named c_id id (clients t) = Some c ->
  exists fe, c_filter_enabled c = SqlBool fe /\ row_by_id id t = Ok (Some (c, fe)).
Proof.
  intros [_ Hall] Hc. pose proof (row_named_Some _ _ _ _ Hc) as [Hin _]. destruct (Hall c Hin) as [Hf He].
  unfold row_by_id. rewrite Hc. unfold client_row. destruct (element_texts _); [|done]. cbn [bind].
  destruct (c_filter_enabled c) as [z|fe]; [done|]. by exists fe.
Qed.

Definition implements (d : Draws) (p : Parts) (c : Call) (s : App) : Prop :=
  exists r s', does (run d p c) s r s' /\
    match spec (d_uuid d) c (store_of (tables (db_of s))) with
    | Err e => r = Err e /\ s' = s
    | Ok m => r = Ok tt /\ store_of (tables (db_of s')) = m /\ stored (tables (db_of s)) (tables (db_of s')) /\
              (Handler.configs_built (dns_handler s) -> Handler.current (dns_handler s'))
    end.
Lemma cl_refused d p c s e :
  spec (d_uuid d) c (store_of (tables (db_of s))) = Err e -> does (run d p c) s (Err e) s -> implements d p c s.
Proof. intros He Hr. exists (Err e), s. by rewrite He. Qed.
Lemma cl_accepted `{!MokaDoc} d p c auth action id detail rows s :
  db_works s ->
  spec (d_uuid d) c (store_of (tables (db_of s))) = Ok (view c_id settings_of rows) ->
  does (run d p c) s (Ok tt) (finish d auth action id detail p rows s) -> implements d p c s.
Proof.
  intros Hs He Hr. eexists (Ok tt), _. split; [exact Hr|]. rewrite He. split; [done|]. split; [done|]. split; [done|].
  intros Hb. apply (Handler.emptied_current (dns_handler s)); [exact Hb|done|exact Hs].
Qed.

Lemma cl_insert_taken row t :
  is_Some (store_of t !! c_id row) -> insert_row row t = Err UniqueViolation.
Proof.
  unfold store_of. rewrite lookup_view. intros [x Hx]. destruct (row_named _ _ _) as [r|] eqn:Hr; [|done].
  apply row_named_Some in Hr as [Hr Hi]. unfold insert_row. rewrite (proj2 (existsb_some _ _)); [done|].
  exists r. by rewrite Hi, str_eqb_refl.
Qed.
Lemma cl_insert_free row t :
  store_of t !! c_id row = None ->
  insert_row row t = Ok (tt, set_clients t (clients t ++ [row])) /\
  view c_id settings_of (clients t ++ [row]) = <[c_id row := settings_of row]> (store_of t).
Proof.
  unfold store_of. rewrite lookup_view. intros Hn%fmap_None. split; [|by apply view_snoc]. unfold insert_row.
  rewrite (proj2 (existsb_none _ _)); [done|]. intros r Hr. apply str_eqb_neq. by apply (proj1 (row_named_None c_id _ _) Hn).
Qed.

Lemma cl_create_does `{!MokaDoc} d p auth body s :
  db_works s -> does (AuthUser d p) s (Ok auth) s -> implements d p (Create body) s.
Proof.
  intros Hs Ha. set (name := trim (ccr_name body)).
  destruct (is_empty name) eqn:E1; [|destruct (validate_json_array (ccr_identifiers body)) as [[]|e] eqn:E2].
  1,3: eapply cl_refused; cbn [spec run]; unfold create; fold name; rewrite ?E1, ?E2; [done|]; exec Hs.
  set (row := {| c_id := d_uuid d; c_name := name; c_identifiers := to_string (ccr_identifiers body);
                 c_upstreams := to_string <$> ccr_upstreams body; c_filter_enabled := SqlBool (ccr_filter_enabled body);
                 c_tags := to_string <$> ccr_tags body; c_created_at := d_text d; c_updated_at := d_text d |}).
  destruct (store_of (tables (db_of s)) !! c_id row) as [x|] eqn:E3.
  - pose proof (cl_insert_taken row (tables (db_of s)) (mk_is_Some _ _ E3)) as Hi.
    eapply cl_refused; cbn [spec run]; unfold create; fold name; rewrite ?E1, ?E2; fold row.
    + by rewrite bool_decide_eq_true_2 by (change (d_uuid d) with (c_id row); rewrite E3; eauto).
    + exec Hs.
  - destruct (cl_insert_free row (tables (db_of s)) E3) as [Hi Hv].
    eapply cl_accepted; [exact Hs| |]; cbn [spec run]; unfold create; fold name; rewrite ?E1, ?E2; fold row.
    + rewrite bool_decide_eq_false_2; [by rewrite Hv|].
      change (d_uuid d) with (c_id row). rewrite E3. by intros [? ?].
    + exec Hs.
Qed.

Lemma cl_update_does `{!MokaDoc} d p auth id body s :
  db_works s -> clients_ok (tables (db_of s)) -> does (AuthUser d p) s (Ok auth) s -> implements d p (Update id body) s.
Proof.
  intros Hs Hok Ha. destruct (row_named c_id id (clients (tables (db_of s)))) as [c|] eqn:Hc.
  - destruct (cl_row_readable _ _ _ Hok Hc) as (fe & Hfe & Hr).
    destruct (new_identifiers body (c_identifiers c)) as [ids|e] eqn:E.
    + eapply cl_accepted; [exact Hs| |]; cbn [spec run]; unfold update; [|exec Hs].
      * unfold store_of. rewrite lookup_view, Hc. cbn [fmap option_fmap option_map settings_of s_identifiers]. rewrite E.
        f_equal. symmetry. rewrite (view_change c_id settings_of _ id _ c Hc) by done. f_equal.
        unfold settings_of, change_row. cbn. rewrite Hfe. by destruct (ucr_filter_enabled body).
    + eapply cl_refused; cbn [spec run]; unfold update.
      * unfold store_of. rewrite lookup_view, Hc. cbn [fmap option_fmap option_map settings_of s_identifiers]. by rewrite E.
      * exec Hs.
  - eapply cl_refused; cbn [spec run]; unfold update.
    + unfold store_of. by rewrite lookup_view, Hc.
    + assert (Hr : row_by_id id (tables (db_of s)) = Ok None) by (unfold row_by_id; by rewrite Hc). exec Hs.
Qed.

Lemma cl_delete_does `{!MokaDoc} d p auth id s :
  db_works s -> does (AuthUser d p) s (Ok auth) s -> implements d p (Delete id) s.
Proof.
  intros Hs Ha. destruct (count_named c_id id (clients (tables (db_of s))) =? 0)%nat eqn:E.
  - pose proof (proj1 (Nat.eqb_eq _ _) E) as Hn. apply count_named_0 in Hn.
    eapply cl_refused; cbn [spec run]; unfold delete.
    + unfold store_of. by rewrite lookup_view, Hn.
    + eapply does_bind; [exact Ha|]. 
      assert (Hsame : delete_row id (tables (db_of s)) = Ok (0%nat, tables (db_of s))).
      { unfold delete_row. rewrite without_unchanged by done. rewrite (proj1 (Nat.eqb_eq _ _) E). by destruct (tables (db_of s)). }
      eapply does_bind; [eapply does_db_execute; [exact Hs|exact Hsame]|]. rewrite with_tables_same. apply does_fail.
  - eapply cl_accepted; [exact Hs| |]; cbn [spec run]; unfold delete; [|exec Hs].
    + unfold store_of at 1. rewrite lookup_view. destruct (row_named _ _ _) as [c|] eqn:Hc.
      * cbn [fmap option_fmap option_map]. f_equal. symmetry. apply view_without.
      * apply count_named_0 in Hc. by rewrite Hc in E.
Qed.

(** On a working connection each call that writes clients does to the
    table what an abstract store of settings by identifier does: a creation
    with a name and a non-empty array of identifiers adds a client, an update
    keeps what it does not name, a deletion removes one.  After it every
    client is served under the configuration of the new tables, whatever the
    DNS handler had cached before.  A refused call changes nothing. *)
Theorem clients_correct `{!MokaDoc} d p auth c s :
  db_works s -> clients_ok (tables (db_of s)) -> fst (AuthUser d p s) = Ok auth ->
  exists r s', does (run d p c) s r s' /\
    match spec (d_uuid d) c (store_of (tables (db_of s))) with
    | Err e => r = Err e /\ s' = s
    | Ok m => r = Ok tt /\ store_of (tables (db_of s')) = m /\ stored (tables (db_of s)) (tables (db_of s')) /\
              (Handler.configs_built (dns_handler s) -> Handler.current (dns_handler s'))
    end.
Proof.
  intros Hs Hok Hauth. pose proof (does_AuthUser d p s) as Ha. rewrite Hauth in Ha.
  destruct c as [body|id body|id].
  - by apply (cl_create_does d p auth).
  - by apply (cl_update_does d p auth).
  - by apply (cl_delete_does d p auth).
Qed.

End clients.
End Clients.

(** ** Concrete calls *)

Module ClientsWitness.
Import AsciiUnicode RefRegex RefJson RefValue RefIpNet RefMoka RefRng RefHickory RefResolver RefCrypto Api AppWitness Clients.

Definition ips (l : list string) : Value := VArray (map (fun s : string => VString (lit s)) l).
Definition client (id name : string) (ids : list string) (fe : bool) : Client :=
  {| c_id := lit id; c_name := lit name; c_identifiers := to_string (ips ids); c_upstreams := None;
     c_filter_enabled := SqlBool fe; c_tags := None; c_created_at := lit id; c_updated_at := lit id |}.
Definition tables1 : Db := set_clients empty_db [client "1" "tv" ["10.0.0.2"]%string true].
Definition new_client : CreateClientRequest :=
  {| ccr_name := lit " phone "; ccr_identifiers := ips ["10.0.0.3"; "10.0.0.4"]; ccr_upstreams := None;
     ccr_filter_enabled := false; ccr_tags := Some (ips ["kids"]) |}.

Definition query_of (ip : string) (t : N) : QueryLogRow :=
  {| ql_id := 1; ql_client_name := None; ql_entry :=
  {| q_time := t; q_client_ip := lit ip; q_question := lit "a."; q_qtype := lit "A"; q_status := lit "allowed";
     q_reason := None; q_answer := None; q_elapsed_ns := 0; q_upstream_ns := None; q_upstream_name := None; q_app_id := None |} |}.
(** The known client with its queries, and the address nobody has named. *)
Example cl_list_test :
  match fst (list_clients today admin None
    (app (set_query_log tables1 [query_of "10.0.0.2" 1; query_of "10.0.0.9" 5; query_of "10.0.0.9" 7]))) with
  | Ok rows => map (fun r => (cl_id r, cl_query_count r, cl_updated_at r, cl_is_static r)) rows
  | Err _ => []
  end = [(lit "dynamic-10.0.0.9", 2%nat, lit "7", false); (lit "1", 1%nat, lit "1", true)].
Proof. vm_compute. reflexivity. Qed.

Lemma clients_correct_witness :
  exists s', does (run today admin (Create new_client)) (app tables1) (Ok tt) s' /\
    (exists st, store_of (tables (db_of s')) !! lit "n1" = Some st /\ s_name st = lit "phone") /\
    (Handler.configs_built (dns_handler (app tables1)) -> Handler.current (dns_handler s')).
Proof.
  destruct (clients_correct today admin AuthWitness.ann (Create new_client) (app tables1)) as (r & s' & Hr & Hm).
  - apply app_works.
  - split.
    + apply (bool_decide_unpack _). vm_compute. exact I.
    + intros c ->%list_elem_of_singleton. split; vm_compute; reflexivity.
  - apply admin_ok.
  - exists s'. set (st := {| s_name := lit "phone"; s_identifiers := to_string (ccr_identifiers new_client);
      s_upstreams := None; s_filter_enabled := SqlBool false; s_tags := Some (to_string (ips ["kids"%string])) |}).
    assert (Hspec : spec (lit "n1") (Create new_client) (store_of tables1) = Ok (<[lit "n1" := st]> (store_of tables1)))
      by (vm_compute; reflexivity).
    change (d_uuid today) with (lit "n1") in Hm. change (tables (db_of (app tables1))) with tables1 in Hm.
    rewrite Hspec in Hm. destruct Hm as (-> & Hst & _ & Hc). split; [exact Hr|]. split; [|exact Hc].
    exists st. split; [|done]. rewrite Hst. apply lookup_insert_eq.
Defined.
End ClientsWitness.
