(* ===== verification/Groups.v ===== *)
(** * The client groups of the API: src/api/handlers/client_groups.rs

    A group has members, which are clients, and bindings, which are custom
    rules and rewrites; the DNS handler reads all three when it makes the
    configuration of a client.  The properties are in GroupsProps. *)
From S2P Require Import Prelude RustStr IpAddr Regex Rules Acl Moka Hickory Cache Db DbLogic Filter Resolver.
From S2P Require Import UpstreamPool Handler Api App Listing Tables Clients.
Local Open Scope N_scope.

(** src/db/models/client_group.rs *)
Record CreateClientGroupRequest := {
  cgq_name : str; cgq_color : option str; cgq_description : option str; cgq_priority : option Z }.
Record UpdateClientGroupRequest := {
  ugq_name : option str; ugq_color : option str; ugq_description : option str; ugq_priority : option Z }.
Record BatchMoveClientsRequest := { bmr_client_ids : list str; bmr_from_group_id : option Z; bmr_to_group_id : option Z }.
Record BindRuleRequest := { brr_rule_id : str; brr_rule_type : str; brr_priority : option Z }.
Record BatchUnbindRulesRequest := { bur_rule_ids : list str; bur_rule_type : str }.

Module Groups.
Section groups.
Context `{RustUnicode, RegexEngine, SerdeJson, Collation, IpNetCrate, Moka, Rng,
  Hickory, !HickoryResolver, !DnsCodec, Jwt, SqlTime, SqlJson, SerdeValue}.
Import Api.

(** ** The statements *)

Definition group_by_id (id : Z) (t : Db) : option ClientGroup := find (fun g => (cg_id g =? id)%Z) (client_groups t).
Definition group_by_name (name : str) (t : Db) : option ClientGroup := find (fun g => cg_name g =s? name) (client_groups t).
Definition other_by_name (name : str) (id : Z) (t : Db) : option ClientGroup :=
  find (fun g => (cg_name g =s? name) && negb (cg_id g =? id)%Z) (client_groups t).
(** With the primary key and the unique index on [name]. *)
Definition insert_group (row : ClientGroup) (t : Db) : result (Z * Db) DbError :=
  if existsb (fun g => (cg_id g =? cg_id row)%Z || (cg_name g =s? cg_name row)) (client_groups t) then Err UniqueViolation
  else Ok (cg_id row, set_client_groups t (client_groups t ++ [row])).
Definition change_group (name color : str) (description : option str) (priority : Z) (now : str) (g : ClientGroup) : ClientGroup :=
  {| cg_id := cg_id g; cg_name := name; cg_color := color; cg_description := description; cg_priority := priority;
     cg_created_at := cg_created_at g; cg_updated_at := now |}.
Definition update_group_row (id : Z) (name color : str) (description : option str) (priority : Z) (now : str) (t : Db)
    : result (unit * Db) DbError :=
  let rows := client_groups t in
  if existsb (fun g => (cg_id g =? id)%Z) rows && existsb (fun g => negb (cg_id g =? id)%Z && (cg_name g =s? name)) rows
  then Err UniqueViolation
  else Ok (tt, set_client_groups t
         (map (fun g => if (cg_id g =? id)%Z then change_group name color description priority now g else g) rows)).

Definition in_group (id : Z) (m : ClientGroupMembership) : bool := (cgm_group_id m =? id)%Z.
Definition is_member (client_id : str) (id : Z) (m : ClientGroupMembership) : bool :=
  (cgm_client_id m =s? client_id) && (cgm_group_id m =? id)%Z.
Definition of_group (id : Z) (r : ClientGroupRule) : bool := (cgr_group_id r =? id)%Z.
Definition is_binding (id : Z) (rule_id rule_type : str) (r : ClientGroupRule) : bool :=
  (cgr_group_id r =? id)%Z && (cgr_rule_id r =s? rule_id) && (cgr_rule_type r =s? rule_type).

(** [COUNT(DISTINCT client_id)] and [COUNT( * )] of a group. *)
Definition client_count (id : Z) (t : Db) : nat :=
  length (remove_dups (map cgm_client_id (List.filter (in_group id) (client_group_memberships t)))).
Definition rule_count (id : Z) (t : Db) : nat := length (List.filter (of_group id) (client_group_rules t)).

(** With the unique indexes on [(client_id, group_id)] and
    [(group_id, rule_id, rule_type)]. *)
Definition insert_member (row : ClientGroupMembership) (t : Db) : result (unit * Db) DbError :=
  if existsb (fun m => (cgm_id m =? cgm_id row)%Z || is_member (cgm_client_id row) (cgm_group_id row) m)
      (client_group_memberships t)
  then Err UniqueViolation
  else Ok (tt, set_client_group_memberships t (client_group_memberships t ++ [row])).
Definition delete_member (client_id : str) (id : Z) (t : Db) : result (nat * Db) DbError :=
  Ok (length (List.filter (is_member client_id id) (client_group_memberships t)),
      set_client_group_memberships t (List.filter (fun m => negb (is_member client_id id m)) (client_group_memberships t))).
(** [ON CONFLICT (client_id, group_id) DO UPDATE SET created_at = $3] *)
Definition upsert_member (row : ClientGroupMembership) (t : Db) : result (unit * Db) DbError :=
  let same := is_member (cgm_client_id row) (cgm_group_id row) in
  if existsb same (client_group_memberships t) then
    Ok (tt, set_client_group_memberships t (map (fun m => if same m then
      {| cgm_id := cgm_id m; cgm_client_id := cgm_client_id m; cgm_group_id := cgm_group_id m;
         cgm_created_at := cgm_created_at row |} else m) (client_group_memberships t)))
  else insert_member row t.
Definition insert_binding (row : ClientGroupRule) (t : Db) : result (unit * Db) DbError :=
  if existsb (fun r => (cgr_id r =? cgr_id row)%Z ||
      is_binding (cgr_group_id row) (cgr_rule_id row) (cgr_rule_type row) r) (client_group_rules t)
  then Err UniqueViolation
  else Ok (tt, set_client_group_rules t (client_group_rules t ++ [row])).
Definition delete_binding (id : Z) (rule_id rule_type : str) (t : Db) : result (nat * Db) DbError :=
  Ok (length (List.filter (is_binding id rule_id rule_type) (client_group_rules t)),
      set_client_group_rules t (List.filter (fun r => negb (is_binding id rule_id rule_type r)) (client_group_rules t))).

(** ** Groups *)

Record GroupView := {
  gv_id : Z; gv_name : str; gv_color : str; gv_description : option str; gv_priority : Z;
  gv_client_count : nat; gv_rule_count : nat; gv_created_at : str; gv_updated_at : str }.
(** The counts of the listing are of distinct clients and of distinct
    bindings. *)
Definition group_view (t : Db) (g : ClientGroup) : GroupView :=
  {| gv_id := cg_id g; gv_name := cg_name g; gv_color := cg_color g; gv_description := cg_description g;
     gv_priority := cg_priority g; gv_client_count := client_count (cg_id g) t;
     gv_rule_count := length (remove_dups (map cgr_id (List.filter (of_group (cg_id g)) (client_group_rules t))));
     gv_created_at := cg_created_at g; gv_updated_at := cg_updated_at g |}.
Definition list_groups (d : Draws) (q : Parts) : M App AppError (list GroupView) :=
  AuthUser d q ;;;
  db (fetch_all (fun t => map (group_view t) (sort_by_key cg_priority (client_groups t)))).

Definition name_taken (name : str) : AppError := Conflict (lit "Group name '" ++ name ++ lit "' already exists").
Definition group_not_found (id : Z) : AppError := NotFound (lit "Client group " ++ show_Z id ++ lit " not found").
Definition empty_name : AppError := Validation "Group name cannot be empty".

(** [serial]: the next number of the sequence of the table. *)
Definition create_group (d : Draws) (p : Parts) (serial : Z) (body : CreateClientGroupRequest) : M App AppError GroupView :=
  let ip := ClientIp p in
  let! auth := AdminUser d p in
  let name := trim (cgq_name body) in
  if is_empty name then fail empty_name
  else
    let! existing := db (fetch_optional (group_by_name name)) in
    if bool_decide (is_Some existing) then fail (name_taken name)
    else
      let row := {| cg_id := serial; cg_name := name; cg_color := default (lit "#6366f1") (cgq_color body);
                    cg_description := cgq_description body; cg_priority := default 0%Z (cgq_priority body);
                    cg_created_at := d_text d; cg_updated_at := d_text d |} in
      let! id := db (execute (insert_group row)) in
      log_action d (sub auth) (username auth) "create" "client_group" (Some (show_Z id)) (Some name) ip ;;;
      ret {| gv_id := id; gv_name := name; gv_color := cg_color row; gv_description := cg_description row;
             gv_priority := cg_priority row; gv_client_count := 0; gv_rule_count := 0;
             gv_created_at := d_text d; gv_updated_at := d_text d |}.

(** A count whose error is answered as 0. *)
Definition count_or_0 (q : Db -> nat) : M App AppError nat :=
  let! r := catch (E := DbError) (fetch_one (fun t => Some (q t))) in
  ret (match r with Ok n => n | Err _ => 0%nat end).

(** The name a group gets, when it can have it. *)
Definition new_name (id : Z) (wanted : option str) (old_name : str) : M App AppError str :=
  match wanted with
  | None => ret old_name
  | Some new_name =>
      let new_name := trim new_name in
      if is_empty new_name then fail empty_name
      else if new_name =s? old_name then ret new_name
      else
        let! existing := db (fetch_optional (other_by_name new_name id)) in
        if bool_decide (is_Some existing) then fail (name_taken new_name) else ret new_name
  end.

Definition update_group (d : Draws) (p : Parts) (id : Z) (body : UpdateClientGroupRequest) : M App AppError GroupView :=
  let ip := ClientIp p in
  let! auth := AdminUser d p in
  let! existing := db (fetch_optional (group_by_id id)) in
  let! old := lift (ok_or existing (group_not_found id)) in
  let! name := new_name id (ugq_name body) (cg_name old) in
  let color := default (cg_color old) (ugq_color body) in
  let description := match ugq_description body with Some x => Some x | None => cg_description old end in
  let priority := default (cg_priority old) (ugq_priority body) in
  db (execute (update_group_row id name color description priority (d_text d))) ;;;
  forget_clients ;;;
  let! clients := count_or_0 (client_count id) in
  let! rules := count_or_0 (rule_count id) in
  log_action d (sub auth) (username auth) "update" "client_group" (Some (show_Z id)) (Some name) ip ;;;
  ret {| gv_id := id; gv_name := name; gv_color := color; gv_description := description; gv_priority := priority;
         gv_client_count := clients; gv_rule_count := rules; gv_created_at := cg_created_at old;
         gv_updated_at := d_text d |}.

Definition delete_rows_of (id : Z) : M App DbError unit :=
  execute (fun t => Ok (tt, set_client_group_memberships t
    (List.filter (fun m => negb (in_group id m)) (client_group_memberships t)))) ;;;
  execute (fun t => Ok (tt, set_client_group_rules t
    (List.filter (fun r => negb (of_group id r)) (client_group_rules t)))) ;;;
  execute (fun t => Ok (tt, set_client_groups t
    (List.filter (fun g => negb (cg_id g =? id)%Z) (client_groups t)))).

Definition delete_group (d : Draws) (p : Parts) (id : Z) : M App AppError (str * nat * nat) :=
  let ip := ClientIp p in
  let! auth := AdminUser d p in
  let! existing := db (fetch_optional (group_by_id id)) in
  let! old := lift (ok_or existing (group_not_found id)) in
  let name := cg_name old in
  let! clients := count_or_0 (client_count id) in
  let! rules := count_or_0 (rule_count id) in
  forget_clients ;;;
  db (transaction (delete_rows_of id)) ;;;
  log_action d (sub auth) (username auth) "delete" "client_group" (Some (show_Z id))
    (Some (lit "name=" ++ name ++ lit ", clients=" ++ show_N (N.of_nat clients) ++ lit ", rules=" ++ show_N (N.of_nat rules))) ip ;;;
  ret (name, clients, rules).

(** What the other handlers begin with. *)
Definition require_group (id : Z) : M App AppError unit :=
  let! existing := db (fetch_optional (group_by_id id)) in
  if bool_decide (existing = None) then fail (group_not_found id) else ret tt.

(** ** Members *)

Record PageParams := { pp_page : option Z; pp_page_size : option Z }.
(** 64-bit arithmetic of a release build. *)
Definition wrap_i64 (z : Z) : Z := ((z + 2 ^ 63) mod 2 ^ 64 - 2 ^ 63)%Z.
(** [LIMIT n OFFSET k] with parameters the statement can refuse. *)
Definition checked_limit {A} (n k : Z) (l : list A) : result (list A) DbError :=
  if (n <? 0)%Z || (k <? 0)%Z then Err InvalidRowCount else Ok (Listing.limit n k l).

(** The clients of a group, and the names of all groups of a client joined
    with [', ']. *)
Definition members_of (id : Z) (t : Db) : list Client :=
  List.filter (fun c => existsb (is_member (c_id c) id) (client_group_memberships t)) (clients t).
Definition group_names_str (t : Db) (c : Client) : str :=
  join (lit ", ") (flat_map (fun g => flat_map (fun m => if is_member (c_id c) (cg_id g) m then [cg_name g] else [])
    (client_group_memberships t)) (client_groups t)).
Definition member_row (t : Db) (c : Client) : result (Client * bool * str) DbError :=
  try! fe := Clients.decode_bool (c_filter_enabled c) in Ok (c, fe, group_names_str t c).

Record MemberView := {
  mv_id : str; mv_name : str; mv_ip : str; mv_mac : str; mv_identifiers : list str; mv_filter_enabled : bool;
  mv_query_count : nat; mv_group_ids : list Z; mv_group_names : list str; mv_last_seen : str }.
Definition dash : str := lit "-".
Definition member_view (arp_map : gmap str str) (query_counts : gmap str nat) (id : Z) (r : Client * bool * str) : MemberView :=
  let '(c, fe, names) := r in
  let idents := default [] (json_strings (c_identifiers c)) in
  let ip := default dash (find (fun i => negb (Clients.is_mac i)) idents) in
  let mac := default dash (find Clients.is_mac idents) in
  let resolved := if (mac =s? dash) && negb (ip =s? dash) then arp_map !! ip else None in
  {| mv_id := c_id c; mv_name := c_name c; mv_ip := ip; mv_mac := default mac resolved;
     mv_identifiers := idents ++ match resolved with Some m => [m] | None => [] end; mv_filter_enabled := fe;
     mv_query_count := default 0%nat (query_counts !! c_id c); mv_group_ids := [id];
     mv_group_names := if is_empty names then [] else split_str2 44 32 names; mv_last_seen := c_created_at c |}.
(** The counts are asked of a column [client_id] that [query_log] does not
    have: the error is taken for no counts. *)
Definition query_counts (client_ids : list str) : M App AppError (gmap str nat) :=
  if bool_decide (client_ids = []) then ret ∅
  else
    let! r := catch (E := DbError) (query (fun _ => @Err (gmap str nat) DbError UndefinedColumn)) in
    ret (match r with Ok m => m | Err _ => ∅ end).

Definition get_group_members (d : Draws) (q : Parts) (arp : option str) (id : Z) (params : PageParams)
    : M App AppError (list MemberView * nat * Z * Z) :=
  AuthUser d q ;;;
  let page := Z.max (default 1%Z (pp_page params)) 1 in
  let page_size := Z.min (default 20%Z (pp_page_size params)) 100 in
  let offset := wrap_i64 ((page - 1) * page_size) in
  require_group id ;;;
  let! rows := db (query (fun t =>
    try! rows := checked_limit page_size offset (Listing.order_desc c_created_at (members_of id t)) in
    Clients.try_map (member_row t) rows)) in
  let! total := db (fetch_one (fun t => Some (length (members_of id t)))) in
  let! counts := query_counts (map (fun r => c_id (fst (fst r))) rows) in
  ret (map (member_view (Arp.get_arp_map arp) counts id) rows, total, page, page_size).

(** The numbers of the rows a call inserts come from the sequence of the
    table. *)
Definition membership (now : str) (serial : Z) (client_id : str) (id : Z) : ClientGroupMembership :=
  {| cgm_id := serial; cgm_client_id := client_id; cgm_group_id := id; cgm_created_at := now |}.
Definition client_exists (client_id : str) (t : Db) : option Client := row_named c_id client_id (clients t).
Definition member_row_of (client_id : str) (id : Z) (t : Db) : option ClientGroupMembership :=
  find (is_member client_id id) (client_group_memberships t).

(** The loop of [batch_add_clients]: the clients added and those skipped. *)
Fixpoint add_loop (now : str) (serials : nat -> Z) (id : Z) (added : nat) (skipped : list str) (client_ids : list str)
    : M App DbError (nat * list str) :=
  match client_ids with
  | [] => ret (added, skipped)
  | client_id :: rest =>
      let! known := fetch_optional (client_exists client_id) in
      if bool_decide (known = None) then add_loop now serials id added (skipped ++ [client_id]) rest
      else
        let! present := fetch_optional (member_row_of client_id id) in
        if bool_decide (is_Some present) then add_loop now serials id added (skipped ++ [client_id]) rest
        else
          execute (insert_member (membership now (serials added) client_id id)) ;;;
          add_loop now serials id (Datatypes.S added) skipped rest
  end.
Definition batch_add_clients (d : Draws) (p : Parts) (serials : nat -> Z) (id : Z) (client_ids : list str)
    : M App AppError (nat * list str) :=
  AdminUser d p ;;;
  require_group id ;;;
  let! r := db (transaction (add_loop (d_text d) serials id 0 [] client_ids)) in
  (if (0 <? fst r)%nat then forget_clients else ret tt) ;;;
  ret r.

Fixpoint remove_loop (id : Z) (removed : nat) (client_ids : list str) : M App DbError nat :=
  match client_ids with
  | [] => ret removed
  | client_id :: rest =>
      let! rows_affected := execute (delete_member client_id id) in
      remove_loop id (if (0 <? rows_affected)%nat then Datatypes.S removed else removed) rest
  end.
Definition batch_remove_clients (d : Draws) (p : Parts) (id : Z) (client_ids : list str) : M App AppError nat :=
  AdminUser d p ;;;
  require_group id ;;;
  let! removed := db (transaction (remove_loop id 0 client_ids)) in
  (if (0 <? removed)%nat then forget_clients else ret tt) ;;;
  ret removed.

(** The enabled custom rules bound to a group. *)
Definition applied_rules (id : Z) (t : Db) : list (str * str * option str) :=
  flat_map (fun cr => flat_map (fun gr =>
    if is_binding id (cr_id cr) (lit "custom_rule") gr && cr_is_enabled cr then [(cr_id cr, cr_rule cr, cr_comment cr)] else [])
    (client_group_rules t)) (custom_rules t).
(** [state.client_config_cache] is a cache of its own, not the one of the DNS
    handler: nothing under src/ ever stores in it, so to remove an entry
    leaves it as it is. *)
Definition invalidate_entry (client_id : str) : M App AppError unit := ret tt.

Fixpoint move_loop (now : str) (serials : nat -> Z) (from to : option Z) (moved : nat)
    (rules : list (str * str * option str)) (client_ids : list str) : M App AppError (nat * list (str * str * option str)) :=
  match client_ids with
  | [] => ret (moved, rules)
  | client_id :: rest =>
      let! known := db (fetch_optional (client_exists client_id)) in
      if bool_decide (known = None) then move_loop now serials from to moved rules rest
      else
        match from with
        | Some from_group_id => db (execute (delete_member client_id from_group_id)) ;;; ret tt
        | None => ret tt
        end ;;;
        match to with
        | Some to_group_id =>
            let! group_exists := db (fetch_optional (group_by_id to_group_id)) in
            if bool_decide (is_Some group_exists) then
              db (execute (upsert_member (membership now (serials moved) client_id to_group_id))) ;;;
              invalidate_entry client_id ;;;
              let! applied := db (fetch_all (applied_rules to_group_id)) in
              move_loop now serials from to (Datatypes.S moved) (rules ++ applied) rest
            else move_loop now serials from to moved rules rest
        | None => move_loop now serials from to moved rules rest
        end
  end.
Definition batch_move_clients (d : Draws) (p : Parts) (serials : nat -> Z) (body : BatchMoveClientsRequest)
    : M App AppError (nat * list (str * str * option str)) :=
  AdminUser d p ;;;
  move_loop (d_text d) serials (bmr_from_group_id body) (bmr_to_group_id body) 0 [] (bmr_client_ids body).

(** ** Rules *)

Inductive GroupRule :=
| CustomRuleOf (r : CustomRule) (priority : Z)
| RewriteOf (r : DnsRewrite) (priority : Z).
Definition rule_priority (r : GroupRule) : Z := match r with CustomRuleOf _ n | RewriteOf _ n => n end.
(** [ORDER BY gr.priority ASC] of the rows a table joined with the bindings of
    the group gives. *)
Definition bound_rows {R} (id : Z) (rule_type : str) (key : R -> str) (view : R -> Z -> GroupRule) (rows : list R) (t : Db)
    : list GroupRule :=
  sort_by_key rule_priority (flat_map (fun r => flat_map (fun gr =>
    if is_binding id (key r) rule_type gr then [view r (cgr_priority gr)] else []) (client_group_rules t)) rows).
Definition get_group_rules (d : Draws) (q : Parts) (id : Z) (rule_type : option str) : M App AppError (list GroupRule) :=
  AuthUser d q ;;;
  require_group id ;;;
  let rule_type := default (lit "all") rule_type in
  if rule_type =s? "custom_rule" then
    db (fetch_all (fun t => bound_rows id (lit "custom_rule") cr_id CustomRuleOf (custom_rules t) t))
  else if rule_type =s? "rewrite" then
    db (fetch_all (fun t => bound_rows id (lit "rewrite") dr_id RewriteOf (dns_rewrites t) t))
  else ret [].

Definition valid_type (rule_type : str) : bool := (rule_type =s? "custom_rule") || (rule_type =s? "rewrite").
Definition invalid_type (rule_type : str) : AppError :=
  Validation (lit "Invalid rule type: " ++ rule_type ++ lit " (must be 'custom_rule' or 'rewrite')").
Definition rule_exists (rule_id rule_type : str) (t : Db) : option str :=
  if rule_type =s? "custom_rule" then cr_id <$> row_named cr_id rule_id (custom_rules t)
  else dr_id <$> row_named dr_id rule_id (dns_rewrites t).
Definition binding_row_of (id : Z) (rule_id rule_type : str) (t : Db) : option ClientGroupRule :=
  find (is_binding id rule_id rule_type) (client_group_rules t).
Definition binding (now : str) (serial id : Z) (r : BindRuleRequest) : ClientGroupRule :=
  {| cgr_id := serial; cgr_group_id := id; cgr_rule_id := brr_rule_id r; cgr_rule_type := brr_rule_type r;
     cgr_priority := default 0%Z (brr_priority r); cgr_created_at := now |}.

(** The rules skipped, with the reason. *)
Fixpoint bind_loop (now : str) (serials : nat -> Z) (id : Z) (bound : nat) (skipped : list (str * str * str))
    (rules : list BindRuleRequest) : M App AppError (nat * list (str * str * str)) :=
  match rules with
  | [] => ret (bound, skipped)
  | rule :: rest =>
      if negb (valid_type (brr_rule_type rule)) then fail (invalid_type (brr_rule_type rule))
      else
        let! known := db (fetch_optional (rule_exists (brr_rule_id rule) (brr_rule_type rule))) in
        if bool_decide (known = None) then
          bind_loop now serials id bound (skipped ++ [(brr_rule_id rule, brr_rule_type rule, lit "Rule not found")]) rest
        else
          let! present := db (fetch_optional (binding_row_of id (brr_rule_id rule) (brr_rule_type rule))) in
          if bool_decide (is_Some present) then
            bind_loop now serials id bound (skipped ++ [(brr_rule_id rule, brr_rule_type rule, lit "Already bound")]) rest
          else
            db (execute (insert_binding (binding now (serials bound) id rule))) ;;;
            bind_loop now serials id (Datatypes.S bound) skipped rest
  end.
Definition batch_bind_rules (d : Draws) (p : Parts) (serials : nat -> Z) (id : Z) (rules : list BindRuleRequest)
    : M App AppError (nat * list (str * str * str)) :=
  AdminUser d p ;;;
  require_group id ;;;
  let! r := bind_loop (d_text d) serials id 0 [] rules in
  (if (0 <? fst r)%nat then forget_clients else ret tt) ;;;
  ret r.

Fixpoint unbind_loop (id : Z) (rule_type : str) (unbound : nat) (rule_ids : list str) : M App AppError nat :=
  match rule_ids with
  | [] => ret unbound
  | rule_id :: rest =>
      let! rows_affected := db (execute (delete_binding id rule_id rule_type)) in
      unbind_loop id rule_type (if (0 <? rows_affected)%nat then Datatypes.S unbound else unbound) rest
  end.
(** The type is the parameter of the query; the one of the body is not
    read. *)
Definition batch_unbind_rules (d : Draws) (p : Parts) (id : Z) (rule_type : option str) (body : BatchUnbindRulesRequest)
    : M App AppError nat :=
  AdminUser d p ;;;
  require_group id ;;;
  let! unbound := unbind_loop id (default (lit "filter") rule_type) 0 (bur_rule_ids body) in
  (if (0 <? unbound)%nat then forget_clients else ret tt) ;;;
  ret unbound.

End groups.
End Groups.
