(* ===== verification/GroupsProps.v ===== *)
(** * What holds of the client groups

    No call, whatever statement of it fails, leaves a group, member or binding
    twice or one of a group that does not exist; on a working connection the
    calls do what an abstract store of groups, members and bindings does; and
    which of them leave the DNS handler with configurations it read before. *)
From S2P Require Import Prelude RustStr IpAddr Regex Rules Acl Moka Hickory Cache Db DbLogic Filter Resolver.
From S2P Require Import UpstreamPool HandlerTests Handler Api App Auth AppTests Listing Tables Clients Groups.
Local Open Scope N_scope.

Module GroupsProps.
Import Api Groups.
Section props.
Context `{RustUnicode, RegexEngine, SerdeJson, Collation, IpNetCrate, Moka, Rng,
  Hickory, !HickoryResolver, !DnsCodec, Jwt, SqlTime, SqlJson, SerdeValue}.

(** The calls that write, with what they answer as a count. *)
Inductive Call :=
| CreateGroup (body : CreateClientGroupRequest)
| UpdateGroup (id : Z) (body : UpdateClientGroupRequest)
| DeleteGroup (id : Z)
| AddClients (id : Z) (client_ids : list str)
| RemoveClients (id : Z) (client_ids : list str)
| MoveClients (body : BatchMoveClientsRequest)
| BindRules (id : Z) (rules : list BindRuleRequest)
| UnbindRules (id : Z) (rule_type : option str) (body : BatchUnbindRulesRequest).
Definition run (d : Draws) (p : Parts) (serials : nat -> Z) (c : Call) : M App AppError nat :=
  match c with
  | CreateGroup body => create_group d p (serials 0%nat) body ;;; ret 0%nat
  | UpdateGroup id body => update_group d p id body ;;; ret 0%nat
  | DeleteGroup id => delete_group d p id ;;; ret 0%nat
  | AddClients id l => let! r := batch_add_clients d p serials id l in ret (fst r)
  | RemoveClients id l => batch_remove_clients d p id l
  | MoveClients body => let! r := batch_move_clients d p serials body in ret (fst r)
  | BindRules id l => let! r := batch_bind_rules d p serials id l in ret (fst r)
  | UnbindRules id ty body => batch_unbind_rules d p id ty body
  end.

(** ** What the tables always are *)

Definition pair_of (m : ClientGroupMembership) : str * Z := (cgm_client_id m, cgm_group_id m).
Definition key_of (r : ClientGroupRule) : Z * str * str := (cgr_group_id r, cgr_rule_id r, cgr_rule_type r).
Definition group_exists (id : Z) (t : Db) : Prop := exists g, g ∈ client_groups t /\ cg_id g = id.
(** One group to an identifier and to a name, a client in a group and a rule
    bound to one once, and both of groups that exist. *)
Record groups_ok (t : Db) : Prop := {
  ids_unique : NoDup (map cg_id (client_groups t));
  names_unique : NoDup (map cg_name (client_groups t));
  pairs_unique : NoDup (map pair_of (client_group_memberships t));
  keys_unique : NoDup (map key_of (client_group_rules t));
  members_of_groups : forall m, m ∈ client_group_memberships t -> group_exists (cgm_group_id m) t;
  rules_of_groups : forall r, r ∈ client_group_rules t -> group_exists (cgr_group_id r) t;
  types_valid : forall r, r ∈ client_group_rules t -> valid_type (cgr_rule_type r) = true }.

Lemma is_member_true c id m : is_member c id m = true <-> pair_of m = (c, id).
Proof.
  unfold is_member, pair_of. rewrite andb_true_iff, str_eqb_eq, Z.eqb_eq. split; [by intros [-> ->]|by intros [= -> ->]].
Qed.
Lemma is_binding_true id rid ty r : is_binding id rid ty r = true <-> key_of r = (id, rid, ty).
Proof.
  unfold is_binding, key_of. rewrite !andb_true_iff, !str_eqb_eq, Z.eqb_eq.
  split; [by intros [[-> ->] ->]|by intros [= -> -> ->]].
Qed.
Lemma group_by_id_Some id t g : group_by_id id t = Some g -> g ∈ client_groups t /\ cg_id g = id.
Proof. intros [Hg Hi%Z.eqb_eq]%find_some. split; [by apply list_elem_of_In|done]. Qed.
Lemma group_by_id_None id t : group_by_id id t = None -> ~ group_exists id t.
Proof.
  intros Hn (g & Hg & <-). apply list_elem_of_In in Hg. pose proof (find_none _ _ Hn g Hg) as Hf.
  cbn beta in Hf. by rewrite Z.eqb_refl in Hf.
Qed.

Lemma keeps_insert_group row : statement_keeps groups_ok (insert_group row).
Proof.
  intros t a t' Hi [H1' H2' H3' H4' H5' H6' H7']. unfold insert_group in Hi. destruct (existsb _ _) eqn:He; [done|].
  injection Hi as _ <-. rewrite existsb_none in He.
  assert (Hne : forall g, g ∈ client_groups t -> cg_id g <> cg_id row /\ cg_name g <> cg_name row).
  { intros g Hg. specialize (He g Hg). apply orb_false_iff in He as [Hi Hn]. split; [by apply Z.eqb_neq|by apply str_eqb_neq]. }
  assert (Hex : forall id, group_exists id t -> group_exists id (set_client_groups t (client_groups t ++ [row]))).
  { intros id (g & Hg & Hid). exists g. split; [|done]. apply elem_of_app. by left. }
  split; try done; cbn [set_client_groups client_groups client_group_memberships client_group_rules].
  - apply unique_snoc; [done|]. intros g Hg. by apply Hne.
  - apply unique_snoc; [done|]. intros g Hg. by apply Hne.
  - intros m Hm. by apply Hex, H5'.
  - intros r Hr. by apply Hex, H6'.
Qed.
Lemma keeps_update_group id name color de pr now : statement_keeps groups_ok (update_group_row id name color de pr now).
Proof.
  intros t a t' Hu [H1' H2' H3' H4' H5' H6' H7']. unfold update_group_row in Hu. cbn zeta in Hu.
  match type of Hu with (if ?b then _ else _) = _ => destruct b eqn:He; [done|] end. injection Hu as _ <-.
  assert (Hcol : map cg_id (client_groups (set_client_groups t (map (fun g => if (cg_id g =? id)%Z then
    change_group name color de pr now g else g) (client_groups t)))) = map cg_id (client_groups t)) by (by apply same_column).
  assert (Hex : forall i, group_exists i t -> group_exists i (set_client_groups t (map (fun g => if (cg_id g =? id)%Z then
    change_group name color de pr now g else g) (client_groups t)))).
  { intros i (g & Hg & Hi). assert (Hin : cg_id g ∈ map cg_id (client_groups t)) by (by apply list_elem_of_fmap_2).
    rewrite <- Hcol in Hin. apply list_elem_of_fmap in Hin as (g' & Hg' & Hin). exists g'. split; [done|congruence]. }
  split; try done; cbn [set_client_groups client_groups client_group_memberships client_group_rules].
  - exact (eq_ind_r (fun l => NoDup l) H1' Hcol).
  - apply (unique_change_where cg_name cg_id); [done|done| |].
    + intros r r' Hr%Z.eqb_eq Hr'%Z.eqb_eq. congruence.
    + intros r r' Hr Hrp Hr' Hrp'. cbn [change_group cg_name]. apply andb_false_iff in He as [He|He]; rewrite existsb_none in He.
      * specialize (He r Hr). cbn beta in He. congruence.
      * specialize (He r' Hr'). cbn beta in He. rewrite Hrp' in He. by apply str_eqb_neq in He.
  - intros m Hm. by apply Hex, H5'.
  - intros r Hr. by apply Hex, H6'.
Qed.

(** The tables while a call on a group that exists runs. *)
Definition with_group (id : Z) (t : Db) : Prop := groups_ok t /\ group_exists id t.
Lemma keeps_insert_member row : statement_keeps (with_group (cgm_group_id row)) (insert_member row).
Proof.
  intros t a t' Hi [[H1' H2' H3' H4' H5' H6' H7'] Hg]. unfold insert_member in Hi. destruct (existsb _ _) eqn:He; [done|].
  injection Hi as _ <-. rewrite existsb_none in He. split; [|exact Hg].
  split; try done; cbn [set_client_group_memberships client_group_memberships].
  - apply unique_snoc; [done|]. intros m Hm Heq. specialize (He m Hm). apply orb_false_iff in He as [_ He].
    assert (is_member (cgm_client_id row) (cgm_group_id row) m = true) by (by apply is_member_true). congruence.
  - intros m [Hm| ->%list_elem_of_singleton]%elem_of_app; [by apply H5'|exact Hg].
Qed.
Lemma keeps_members_filter (P : Db -> Prop) (p : ClientGroupMembership -> bool) (n : Db -> nat) :
  P = groups_ok \/ (exists id, P = with_group id) ->
  statement_keeps P (fun t => Ok (n t, set_client_group_memberships t (List.filter p (client_group_memberships t)))).
Proof.
  assert (Hok : forall t, groups_ok t -> groups_ok (set_client_group_memberships t (List.filter p (client_group_memberships t)))).
  { intros t [H1' H2' H3' H4' H5' H6' H7']. split; try done; cbn [set_client_group_memberships client_group_memberships].
    - by apply unique_filter.
    - intros m [Hm _]%elem_of_bfilter. by apply H5'. }
  intros [->|[id ->]] t a t' [= _ <-]; [apply Hok|]. intros [Ht Hg]. split; [by apply Hok|exact Hg].
Qed.
Lemma keeps_rules_filter (P : Db -> Prop) (p : ClientGroupRule -> bool) (n : Db -> nat) :
  P = groups_ok \/ (exists id, P = with_group id) ->
  statement_keeps P (fun t => Ok (n t, set_client_group_rules t (List.filter p (client_group_rules t)))).
Proof.
  assert (Hok : forall t, groups_ok t -> groups_ok (set_client_group_rules t (List.filter p (client_group_rules t)))).
  { intros t [H1' H2' H3' H4' H5' H6' H7']. split; try done; cbn [set_client_group_rules client_group_rules].
    - by apply unique_filter.
    - intros m [Hm _]%elem_of_bfilter. by apply H6'.
    - intros m [Hm _]%elem_of_bfilter. by apply H7'. }
  intros [->|[id ->]] t a t' [= _ <-]; [apply Hok|]. intros [Ht Hg]. split; [by apply Hok|exact Hg].
Qed.
Lemma keeps_upsert_member row : statement_keeps (with_group (cgm_group_id row)) (upsert_member row).
Proof.
  intros t a t' Hi Ht. unfold upsert_member in Hi. cbn zeta in Hi.
  match type of Hi with (if ?b then _ else _) = _ => destruct b eqn:He end; [|by apply (keeps_insert_member row t a t')].
  injection Hi as _ <-. destruct Ht as [[H1' H2' H3' H4' H5' H6' H7'] Hg]. split; [|exact Hg].
  split; try done; cbn [set_client_group_memberships client_group_memberships].
  - by rewrite same_column.
  - intros m (m0 & -> & Hm0)%list_elem_of_fmap. destruct (is_member _ _ m0); by apply (H5' m0).
Qed.
Lemma keeps_insert_binding row :
  valid_type (cgr_rule_type row) = true -> statement_keeps (with_group (cgr_group_id row)) (insert_binding row).
Proof.
  intros Hv t a t' Hi [[H1' H2' H3' H4' H5' H6' H7'] Hg]. unfold insert_binding in Hi. destruct (existsb _ _) eqn:He; [done|].
  injection Hi as _ <-. rewrite existsb_none in He. split; [|exact Hg].
  split; try done; cbn [set_client_group_rules client_group_rules].
  - apply unique_snoc; [done|]. intros r Hr Heq. specialize (He r Hr). apply orb_false_iff in He as [_ He].
    assert (is_binding (cgr_group_id row) (cgr_rule_id row) (cgr_rule_type row) r = true) by (by apply is_binding_true). congruence.
  - intros r [Hr| ->%list_elem_of_singleton]%elem_of_app; [by apply H6'|exact Hg].
  - intros r [Hr| ->%list_elem_of_singleton]%elem_of_app; [by apply H7'|done].
Qed.
(** *** Every run keeps them *)

Lemma weaken_with_group {A} id (m : M App AppError A) s :
  preserves (with_group id) m -> with_group id (tables (db_of s)) -> groups_ok (tables (db_of (snd (m s)))).
Proof. intros Hm Hs. exact (proj1 (Hm s Hs)). Qed.
Lemma preserves_require {A} id (k : M App AppError A) :
  preserves (with_group id) k -> preserves groups_ok (require_group id ;;; k).
Proof.
  intros Hk s Hs. unfold require_group, bind. unfold Api.db, mmap_err, fetch_optional, query.
  destruct (faults (db_of s) _); cbn [map_err snd]; [by rewrite db_of_with|].
  destruct (group_by_id id (tables (db_of s))) as [g|] eqn:Hg.
  - rewrite bool_decide_eq_false_2 by done. cbn [ret map_err]. apply (weaken_with_group id); [done|]. rewrite db_of_with.
    split; [exact Hs|]. apply group_by_id_Some in Hg as [Hg Hi]. by exists g.
  - rewrite bool_decide_eq_true_2 by done. cbn [fail snd]. by rewrite db_of_with.
Qed.

Lemma preserves_delete_rows id : preserves groups_ok (transaction (delete_rows_of id)).
Proof.
  apply preserves_transaction_whole. intros s [] [H1' H2' H3' H4' H5' H6' H7']. unfold delete_rows_of, bind, execute.
  cbn [tick tables faults]. destruct (faults (db_of s) _); [done|]. rewrite !db_of_with. cbn [store tick tables faults calls].
  destruct (faults (db_of s) _); [done|]. rewrite !db_of_with. cbn [store tick tables faults calls].
  destruct (faults (db_of s) _); [done|]. intros _. cbn [snd]. rewrite !db_of_with. cbn [store tables].
  assert (Hex : forall i, i <> id -> group_exists i (tables (db_of s)) -> exists g,
    g ∈ List.filter (fun g => negb (cg_id g =? id)%Z) (client_groups (tables (db_of s))) /\ cg_id g = i).
  { intros i Hi (g & Hg & Hgi). exists g. split; [|done]. apply elem_of_bfilter. split; [done|].
    apply negb_true_iff, Z.eqb_neq. congruence. }
  split; cbn [set_client_groups set_client_group_rules set_client_group_memberships client_groups client_group_rules
    client_group_memberships].
  - by apply unique_filter.
  - by apply unique_filter.
  - by apply unique_filter.
  - by apply unique_filter.
  - intros m [Hm Hi]%elem_of_bfilter. apply negb_true_iff, Z.eqb_neq in Hi. by apply Hex; [|apply H5'].
  - intros r [Hr Hi]%elem_of_bfilter. apply negb_true_iff, Z.eqb_neq in Hi. by apply Hex; [|apply H6'].
  - intros r [Hr _]%elem_of_bfilter. by apply H7'.
Qed.

Lemma preserves_add_loop now serials id added skipped l : preserves (with_group id) (add_loop now serials id added skipped l).
Proof.
  revert added skipped. induction l as [|c l IH]; intros added skipped; cbn [add_loop]; [apply preserves_ret|].
  App.solve_keeps; try apply IH. apply (keeps_insert_member (membership now (serials added) c id)).
Qed.
Lemma preserves_remove_loop id n l : preserves (with_group id) (remove_loop id n l).
Proof.
  revert n. induction l as [|c l IH]; intros n; cbn [remove_loop]; [apply preserves_ret|].
  App.solve_keeps; try apply IH. apply (keeps_members_filter (with_group id)). by eauto.
Qed.
Lemma preserves_unbind_loop id ty n l : preserves (with_group id) (unbind_loop id ty n l).
Proof.
  revert n. induction l as [|c l IH]; intros n; cbn [unbind_loop]; [apply preserves_ret|].
  App.solve_keeps; try apply IH. apply (keeps_rules_filter (with_group id)). by eauto.
Qed.
Lemma preserves_bind_loop now serials id n sk l : preserves (with_group id) (bind_loop now serials id n sk l).
Proof.
  revert n sk. induction l as [|r l IH]; intros n sk; cbn [bind_loop]; [apply preserves_ret|].
  destruct (valid_type (brr_rule_type r)) eqn:Hv; cbn [negb]; [|apply preserves_fail].
  App.solve_keeps; try apply IH. by apply (keeps_insert_binding (binding now (serials n) id r)).
Qed.
(** A move leaves the groups. *)
Definition with_groups (gs : list ClientGroup) (t : Db) : Prop := groups_ok t /\ client_groups t = gs.
Lemma keeps_upsert_with gs row :
  (exists g, g ∈ gs /\ cg_id g = cgm_group_id row) -> statement_keeps (with_groups gs) (upsert_member row).
Proof.
  intros Hg t a t' Hu [Ht Hgs]. split.
  - apply (keeps_upsert_member row t a t' Hu). split; [done|]. destruct Hg as (g & Hg & Hi). exists g. by rewrite Hgs.
  - unfold upsert_member, insert_member in Hu. cbn zeta in Hu. destruct (existsb _ _) in Hu; [by injection Hu as _ <-|].
    destruct (existsb _ _) in Hu; [done|]. by injection Hu as _ <-.
Qed.
Lemma keeps_delete_with gs c id : statement_keeps (with_groups gs) (delete_member c id).
Proof.
  intros t a t' Hd [Ht Hgs]. split.
  - exact (keeps_members_filter groups_ok (fun m => negb (is_member c id m))
      (fun t => length (List.filter (is_member c id) (client_group_memberships t))) (or_introl eq_refl) t a t' Hd Ht).
  - by injection Hd as _ <-.
Qed.
Lemma preserves_move_loop gs now serials from to n rs l :
  preserves (with_groups gs) (move_loop now serials from to n rs l).
Proof.
  revert n rs. induction l as [|c l IH]; intros n rs; cbn [move_loop]; [apply preserves_ret|].
  apply preserves_bind; [App.solve_keeps|]. intros known. destruct (bool_decide (known = None)); [apply IH|].
  apply preserves_bind; [App.solve_keeps; apply keeps_delete_with|].
  intros _. destruct to as [to|]; [|apply IH].
  apply preserves_read. intros g s [= <-] Hs.
  destruct (group_by_id to (tables (db_of s))) as [g|] eqn:Hg.
  - rewrite bool_decide_eq_true_2 by eauto. revert s Hg Hs. intros s Hg Hs.
    assert (Hin : exists g, g ∈ gs /\ cg_id g = to).
    { apply group_by_id_Some in Hg as [Hg Hi]. exists g. destruct Hs as [_ <-]. done. }
    match goal with |- with_groups _ (tables (db_of (snd (?m s)))) => assert (Hm : preserves (with_groups gs) m) end; [|by apply Hm].
    App.solve_keeps; try apply IH; [|apply preserves_ret]. by apply (keeps_upsert_with gs (membership now (serials n) c to)).
  - rewrite bool_decide_eq_false_2; [by apply IH|]. intros [g Hx].
    assert (Heq : None = Some g) by (rewrite <- Hg; exact Hx). done.
Qed.

Lemma preserves_group_log d uid un ac re ri de ip : preserves (S := App) groups_ok (log_action d uid un ac re ri de ip).
Proof. apply preserves_log; [apply _|]. intros t x []. by split. Qed.
Ltac keeps := App.solve_keeps; try apply preserves_group_log; try apply preserves_ret.

Lemma gr_run_preserves d p serials c : preserves groups_ok (run d p serials c).
Proof.
  destruct c as [body|id body|id|id l|id l|body|id l|id ty body]; cbn [run];
    unfold create_group, update_group, delete_group, batch_add_clients, batch_remove_clients, batch_move_clients,
      batch_bind_rules, batch_unbind_rules, count_or_0, new_name; cbn zeta.
  - keeps. apply keeps_insert_group.
  - keeps; apply keeps_update_group.
  - pose proof (preserves_delete_rows id). keeps.
  - apply preserves_bind; [|intros; apply preserves_ret]. apply preserves_bind; [apply preserves_AdminUser|]. intros _.
    apply preserves_require. keeps. apply preserves_add_loop.
  - apply preserves_bind; [apply preserves_AdminUser|]. intros _.
    apply preserves_require. keeps. apply preserves_remove_loop.
  - apply preserves_bind; [|intros; apply preserves_ret]. apply preserves_bind; [apply preserves_AdminUser|]. intros _ s Hs.
    exact (proj1 (preserves_move_loop _ _ _ _ _ _ _ _ s (conj Hs eq_refl))).
  - apply preserves_bind; [|intros; apply preserves_ret]. apply preserves_bind; [apply preserves_AdminUser|]. intros _.
    apply preserves_require. keeps. apply preserves_bind_loop.
  - apply preserves_bind; [apply preserves_AdminUser|]. intros _.
    apply preserves_require. keeps. apply preserves_unbind_loop.
Qed.

(** Calls one after the other, each with what it draws and the numbers of its
    rows. *)
Definition run_all (calls : list (Draws * Parts * (nat -> Z) * Call)) (s : App) : App :=
  fold_left (fun s '(d, p, serials, c) => snd (run d p serials c s)) calls s.

(** Whatever calls of the groups API come in, with whatever bodies, and
    whatever statements of them fail, the tables keep one group to an
    identifier and to a name, a client at most once in a group, a rule at most
    once bound to one, only with one of the two types, and no member or
    binding of a group that does not exist: the three deletions of a group
    happen together or not at all. *)
Theorem groups_invariant calls s :
  groups_ok (tables (db_of s)) -> groups_ok (tables (db_of (run_all calls s))).
Proof.
  revert s. induction calls as [|[[[d p] serials] c] calls IH]; intros s Hs; [done|]. apply IH. by apply gr_run_preserves.
Qed.

End props.
End GroupsProps.
