(* ===== verification/GroupsSpec.v ===== *)
(** * The client groups against an abstract store

    Groups by identifier, members as a set of pairs, bindings by group, rule
    and type: what every call of the groups API answers and does to them on a
    working connection, and what it leaves in the DNS handler's cache of
    configurations. *)
From S2P Require Import Prelude RustStr IpAddr Regex Rules Acl Moka Hickory Cache Db DbLogic Filter Resolver.
From S2P Require Import UpstreamPool HandlerTests Handler Api App Auth AppTests Listing Tables Clients Groups GroupsProps.
Local Open Scope N_scope.

Module GroupsSpec.
Import Api Groups GroupsProps.
Section spec.
Context `{RustUnicode, RegexEngine, SerdeJson, Collation, IpNetCrate, Moka, Rng,
  Hickory, !HickoryResolver, !DnsCodec, Jwt, SqlTime, SqlJson, SerdeValue}.

(** ** The abstract store *)

Record Info := { i_name : str; i_color : str; i_description : option str; i_priority : Z }.
Definition info_of (g : ClientGroup) : Info :=
  {| i_name := cg_name g; i_color := cg_color g; i_description := cg_description g; i_priority := cg_priority g |}.
Record Store := {
  groups : gmap Z Info;
  members : gset (str * Z);
  bindings : gmap (Z * str * str) Z }.
Definition pairs (rows : list ClientGroupMembership) : gset (str * Z) := list_to_set (map pair_of rows).
Definition bound_map : list ClientGroupRule -> gmap (Z * str * str) Z := keyed key_of cgr_priority.
Definition store_of (t : Db) : Store :=
  {| groups := keyed cg_id info_of (client_groups t); members := pairs (client_group_memberships t);
     bindings := bound_map (client_group_rules t) |}.

(** A name some other group has. *)
Definition named (name : str) (besides : option Z) (m : gmap Z Info) : Prop :=
  map_Exists (fun id v => i_name v = name /\ besides <> Some id) m.
#[local] Instance named_dec name besides m : Decision (named name besides m).
Proof. unfold named. apply _. Defined.

Definition new_info (body : CreateClientGroupRequest) : Info :=
  {| i_name := trim (cgq_name body); i_color := default (lit "#6366f1") (cgq_color body);
     i_description := cgq_description body; i_priority := default 0%Z (cgq_priority body) |}.
Definition changed_info (body : UpdateClientGroupRequest) (old : Info) : Info :=
  {| i_name := default (i_name old) (trim <$> ugq_name body); i_color := default (i_color old) (ugq_color body);
     i_description := match ugq_description body with Some x => Some x | None => i_description old end;
     i_priority := default (i_priority old) (ugq_priority body) |}.

(** The clients and rules a call can name. *)
Definition client_known (t : Db) (c : str) : bool := bool_decide (is_Some (client_exists c t)).
Definition rule_known (t : Db) (r : BindRuleRequest) : bool :=
  bool_decide (is_Some (rule_exists (brr_rule_id r) (brr_rule_type r) t)).
Definition in_pairs (id : Z) (l : list str) : gset (str * Z) := list_to_set (map (fun c => (c, id)) l).
Definition request_key (id : Z) (r : BindRuleRequest) : Z * str * str := (id, brr_rule_id r, brr_rule_type r).
Definition bind_one (t : Db) (id : Z) (m : gmap (Z * str * str) Z) (r : BindRuleRequest) : gmap (Z * str * str) Z :=
  if rule_known t r && bool_decide (m !! request_key id r = None)
  then <[request_key id r := default 0%Z (brr_priority r)]> m else m.
Definition bad_type (r : BindRuleRequest) : bool := negb (valid_type (brr_rule_type r)).

(** What a call answers and the store after it. *)
Definition spec (t : Db) (serial : Z) (c : Call) (a : Store) : result nat AppError * Store :=
  let on_group id (k : Info -> result nat AppError * Store) :=
    match groups a !! id with None => (Err (group_not_found id), a) | Some old => k old end in
  let with_members m := {| groups := groups a; members := m; bindings := bindings a |} in
  let with_bindings m := {| groups := groups a; members := members a; bindings := m |} in
  let with_info id v := {| groups := <[id := v]> (groups a); members := members a; bindings := bindings a |} in
  match c with
  | CreateGroup body =>
      if is_empty (trim (cgq_name body)) then (Err empty_name, a)
      else if bool_decide (named (trim (cgq_name body)) None (groups a)) then (Err (name_taken (trim (cgq_name body))), a)
      else (Ok 0%nat, with_info serial (new_info body))
  | UpdateGroup id body => on_group id (fun old =>
      let new := changed_info body old in
      if bool_decide (is_Some (ugq_name body)) && is_empty (i_name new) then (Err empty_name, a)
      else if bool_decide (is_Some (ugq_name body)) && bool_decide (named (i_name new) (Some id) (groups a))
      then (Err (name_taken (i_name new)), a)
      else (Ok 0%nat, with_info id new))
  | DeleteGroup id => on_group id (fun _ =>
      (Ok 0%nat, {| groups := base.delete id (groups a); members := filter (fun x => x.2 <> id) (members a);
                    bindings := filter (fun x => x.1.1.1 <> id) (bindings a) |}))
  | AddClients id l => on_group id (fun _ =>
      let new := in_pairs id (List.filter (client_known t) l) ∖ members a in
      (Ok (size new), with_members (members a ∪ new)))
  | RemoveClients id l => on_group id (fun _ =>
      let gone := members a ∩ in_pairs id l in (Ok (size gone), with_members (members a ∖ gone)))
  | MoveClients body =>
      let kept := List.filter (client_known t) (bmr_client_ids body) in
      let left := match bmr_from_group_id body with Some f => members a ∖ in_pairs f kept | None => members a end in
      match bmr_to_group_id body with
      | Some g => if bool_decide (is_Some (groups a !! g)) then (Ok (length kept), with_members (left ∪ in_pairs g kept))
                  else (Ok 0%nat, with_members left)
      | None => (Ok 0%nat, with_members left)
      end
  | BindRules id l => on_group id (fun _ =>
      let after := fold_left (bind_one t id) (take_while (fun r => negb (bad_type r)) l) (bindings a) in
      (match find bad_type l with
       | Some r => Err (invalid_type (brr_rule_type r))
       | None => Ok (size after - size (bindings a))%nat
       end, with_bindings after))
  | UnbindRules id ty body => on_group id (fun _ =>
      let after := fold_left (fun m rid => base.delete (id, rid, default (lit "filter") ty) m) (bur_rule_ids body) (bindings a) in
      (Ok (size (bindings a) - size after)%nat, with_bindings after))
  end.

(** ** What a call leaves of the DNS handler's cache *)

(** The calls that change what a configuration is made of and let the ones
    read before stand: every move, and a binding one of whose later rules has
    no valid type. *)
Definition leaves_stale (c : Call) : Prop :=
  match c with MoveClients _ => True | BindRules _ l => exists r, find bad_type l = Some r | _ => False end.
Definition same_configs (t t' : Db) : Prop := forall ip, Handler.config_now ip t' = Handler.config_now ip t.
Definition cache_effect (c : Call) (s s' : App) : Prop :=
  Handler.client_config_cache (dns_handler s') = moka_invalidate_all (Handler.client_config_cache (dns_handler s)) \/
  Handler.client_config_cache (dns_handler s') = Handler.client_config_cache (dns_handler s) /\
    (same_configs (tables (db_of s)) (tables (db_of s')) \/ leaves_stale c).
(** Nothing but the three tables and the audit log changed. *)
Definition stored (t t' : Db) : Prop :=
  t' = set_audit_log (set_client_group_rules (set_client_group_memberships (set_client_groups t (client_groups t'))
         (client_group_memberships t')) (client_group_rules t')) (audit_log t').

Definition implements (d : Draws) (p : Parts) (serials : nat -> Z) (c : Call) (s : App) : Prop :=
  exists s', does (run d p serials c) s (fst (spec (tables (db_of s)) (serials 0%nat) c (store_of (tables (db_of s))))) s' /\
    store_of (tables (db_of s')) = snd (spec (tables (db_of s)) (serials 0%nat) c (store_of (tables (db_of s)))) /\
    stored (tables (db_of s)) (tables (db_of s')) /\ cache_effect c s s' /\ faults (db_of s') = faults (db_of s).

(** ** Members as a set *)

Lemma elem_of_pairs x rows : x ∈ pairs rows <-> exists m, m ∈ rows /\ pair_of m = x.
Proof.
  unfold pairs. rewrite elem_of_list_to_set, list_elem_of_fmap. split; intros (m & H1' & H2'); exists m; by subst.
Qed.
Lemma elem_of_in_pairs id l x : x ∈ in_pairs id l <-> x.1 ∈ l /\ x.2 = id.
Proof.
  unfold in_pairs. rewrite elem_of_list_to_set, list_elem_of_fmap. destruct x as [c i]. cbn [fst snd]. split.
  - by intros (c' & [= -> ->] & Hc).
  - intros [Hc ->]. by exists c.
Qed.
Lemma in_pairs_cons id c l : in_pairs id (c :: l) = {[(c, id)]} ∪ in_pairs id l.
Proof. done. Qed.
Lemma pairs_app a b : pairs (a ++ b) = pairs a ∪ pairs b.
Proof. unfold pairs. by rewrite map_app, list_to_set_app_L. Qed.
Lemma pairs_delete c id rows : pairs (List.filter (fun m => negb (is_member c id m)) rows) = pairs rows ∖ {[(c, id)]}.
Proof.
  apply set_eq. intros x. rewrite elem_of_difference, elem_of_singleton, !elem_of_pairs. split.
  - intros (m & [Hm Hn]%elem_of_bfilter & <-). apply negb_true_iff in Hn. split; [by exists m|].
    intros Heq%is_member_true. congruence.
  - intros [(m & Hm & <-) Hne]. exists m. split; [|done]. apply elem_of_bfilter. split; [done|].
    apply negb_true_iff. apply not_true_iff_false. by rewrite is_member_true.
Qed.
Lemma pairs_delete_group id rows : pairs (List.filter (fun m => negb (in_group id m)) rows) = filter (fun x => x.2 <> id) (pairs rows).
Proof.
  apply set_eq. intros x. rewrite elem_of_filter, !elem_of_pairs. split.
  - intros (m & [Hm Hn]%elem_of_bfilter & <-). apply negb_true_iff, Z.eqb_neq in Hn. split; [done|by exists m].
  - intros [Hne (m & Hm & <-)]. exists m. split; [|done]. apply elem_of_bfilter. split; [done|]. by apply negb_true_iff, Z.eqb_neq.
Qed.
Lemma member_found c id rows : is_Some (find (is_member c id) rows) <-> (c, id) ∈ pairs rows.
Proof.
  rewrite elem_of_pairs. split.
  - intros [m [Hm Hi]%find_some]. exists m. split; [by apply list_elem_of_In|by apply is_member_true].
  - intros (m & Hm%list_elem_of_In & Hi%is_member_true). destruct (find _ rows) eqn:Hf; [eauto|].
    pose proof (find_none _ _ Hf m Hm). congruence.
Qed.
Lemma member_count c id rows : (0 <? length (List.filter (is_member c id) rows))%nat = bool_decide ((c, id) ∈ pairs rows).
Proof.
  apply eq_true_iff_eq. rewrite bool_decide_eq_true, Nat.ltb_lt, elem_of_pairs. split.
  - destruct (List.filter _ rows) as [|m l] eqn:Hf; [simpl; lia|]. intros _.
    assert (Hm : m ∈ List.filter (is_member c id) rows) by (rewrite Hf; by left).
    apply elem_of_bfilter in Hm as [Hm Hi%is_member_true]. by exists m.
  - intros (m & Hm & Hi%is_member_true). assert (Hin : m ∈ List.filter (is_member c id) rows) by (by apply elem_of_bfilter).
    destruct (List.filter _ rows); [by apply not_elem_of_nil in Hin|simpl; lia].
Qed.
Lemma no_member_kept c id rows :
  (c, id) ∉ pairs rows -> List.filter (fun m => negb (is_member c id m)) rows = rows.
Proof.
  intros Hno. apply List.forallb_filter_id, forallb_forall. intros m Hm%list_elem_of_In. apply negb_true_iff, not_true_iff_false.
  rewrite is_member_true. intros Heq. apply Hno, elem_of_pairs. by exists m.
Qed.

(** Adding and removing one client before the others. *)
Lemma new_cons (x : str * Z) (l m : gset (str * Z)) : x ∉ m ->
  ({[x]} ∪ l) ∖ m = {[x]} ∪ l ∖ (m ∪ {[x]}) /\ size (({[x]} ∪ l) ∖ m) = Datatypes.S (size (l ∖ (m ∪ {[x]}))).
Proof.
  intros Hx. assert (Heq : ({[x]} ∪ l) ∖ m = {[x]} ∪ l ∖ (m ∪ {[x]})).
  { apply set_eq. intros y. destruct (decide (y = x)); set_solver. }
  split; [done|]. rewrite Heq, size_union by set_solver. by rewrite size_singleton.
Qed.
Lemma new_cons_old (x : str * Z) (l m : gset (str * Z)) : x ∈ m -> ({[x]} ∪ l) ∖ m = l ∖ m.
Proof. set_solver. Qed.
Lemma gone_cons (x : str * Z) (l m : gset (str * Z)) : x ∈ m -> size (m ∩ ({[x]} ∪ l)) = Datatypes.S (size ((m ∖ {[x]}) ∩ l)).
Proof.
  intros Hx. assert (Heq : m ∩ ({[x]} ∪ l) = {[x]} ∪ (m ∖ {[x]}) ∩ l).
  { apply set_eq. intros y. destruct (decide (y = x)); set_solver. }
  rewrite Heq, size_union by set_solver. by rewrite size_singleton.
Qed.
Lemma gone_cons_other (x : str * Z) (l m : gset (str * Z)) : x ∉ m -> m ∩ ({[x]} ∪ l) = m ∩ l.
Proof. set_solver. Qed.

(** Numbers a sequence still has to give. *)
Definition unused (serials : nat -> Z) (from : nat) (used : list Z) : Prop :=
  (forall n, (from <= n)%nat -> serials n ∉ used) /\ (forall n n', serials n = serials n' -> n = n').
Lemma unused_next serials from used : unused serials from used -> unused serials (Datatypes.S from) (used ++ [serials from]).
Proof.
  intros [Hu Hi]. split; [|done]. intros n Hn [Hin|Hin%list_elem_of_singleton]%elem_of_app; [apply (Hu n); [lia|done]|].
  apply Hi in Hin. lia.
Qed.

Lemma insert_member_free row t :
  cgm_id row ∉ map cgm_id (client_group_memberships t) -> pair_of row ∉ pairs (client_group_memberships t) ->
  insert_member row t = Ok (tt, set_client_group_memberships t (client_group_memberships t ++ [row])).
Proof.
  intros Hid Hp. unfold insert_member. rewrite (proj2 (existsb_none _ _)); [done|]. intros m Hm. apply orb_false_iff. split.
  - apply Z.eqb_neq. intros Heq. apply Hid. rewrite <- Heq. by apply list_elem_of_fmap_2.
  - apply not_true_iff_false. rewrite is_member_true. intros Heq. apply Hp, elem_of_pairs. by exists m.
Qed.

Lemma client_known_alt t c : client_known t c = negb (bool_decide (client_exists c t = None)).
Proof.
  unfold client_known. destruct (client_exists c t); [|done]. by rewrite bool_decide_eq_true_2 by eauto.
Qed.

Lemma same_members t : set_client_group_memberships t (client_group_memberships t) = t.
Proof. by destruct t. Qed.
Lemma same_bindings t : set_client_group_rules t (client_group_rules t) = t.
Proof. by destruct t. Qed.
Lemma add_loop_does now serials id ids added skipped s :
  db_works s -> unused serials added (map cgm_id (client_group_memberships (tables (db_of s)))) ->
  let rows := client_group_memberships (tables (db_of s)) in
  let new := in_pairs id (List.filter (client_known (tables (db_of s))) ids) ∖ pairs rows in
  exists sk rows', does (add_loop now serials id added skipped ids) s (Ok ((added + size new)%nat, sk))
    (with_tables (set_client_group_memberships (tables (db_of s)) rows') s) /\
    pairs rows' = pairs rows ∪ new /\ (size new = 0%nat -> rows' = rows).
Proof.
  revert added skipped s. induction ids as [|c ids IH]; intros added skipped s Hs Hu rows new.
  - exists skipped, rows. assert (Hnew : new = ∅) by (unfold new; cbn; set_solver). rewrite Hnew, size_empty, Nat.add_0_r.
    split; [|split; [set_solver|done]].
    assert (Ht : with_tables (set_client_group_memberships (tables (db_of s)) rows) s = s).
    { unfold rows. rewrite same_members. apply with_tables_same. }
    rewrite Ht. apply does_ret.
  - cbn [add_loop]. subst new. cbn [List.filter]. rewrite client_known_alt.
    destruct (client_exists c (tables (db_of s))) as [cl|] eqn:Hc; cbn [negb].
    2: { destruct (IH added (skipped ++ [c]) s Hs Hu) as (sk & rows' & Hr & Hp & Hz). exists sk, rows'.
         split; [|done]. exec Hs. }
    rewrite bool_decide_eq_false_2 by done. cbn [negb]. rewrite in_pairs_cons.
    destruct (member_row_of c id (tables (db_of s))) as [m|] eqn:Hm.
    + assert (Hin : (c, id) ∈ pairs rows) by (apply member_found; exists m; exact Hm).
      rewrite new_cons_old by done. destruct (IH added (skipped ++ [c]) s Hs Hu) as (sk & rows' & Hr & Hp & Hz).
      exists sk, rows'. split; [|done]. exec Hs.
    + assert (Hno : (c, id) ∉ pairs rows).
      { rewrite <- member_found. intros [m Hx]. unfold member_row_of in Hm. fold rows in Hm. congruence. }
      set (row := membership now (serials added) c id).
      pose proof (insert_member_free row (tables (db_of s)) (proj1 Hu added (Nat.le_refl _)) Hno) as Hins.
      set (t1 := set_client_group_memberships (tables (db_of s)) (rows ++ [row])).
      destruct (IH (Datatypes.S added) skipped (with_tables t1 s)) as (sk & rows' & Hr & Hp & Hz).
      { exact Hs. }
      { change (tables (db_of (with_tables t1 s))) with t1. cbn [t1 client_group_memberships set_client_group_memberships].
        rewrite map_app. apply unused_next, Hu. }
      change (tables (db_of (with_tables t1 s))) with t1 in *. rewrite with_tables_tables in Hr.
      cbn [t1 client_group_memberships set_client_group_memberships] in Hr, Hp, Hz.
      change (client_known t1) with (client_known (tables (db_of s))) in *.
      rewrite pairs_app in Hr, Hp. change (pairs [row]) with ({[(c, id)]} ∪ ∅ : gset (str * Z)) in Hr, Hp.
      rewrite union_empty_r_L in Hr, Hp.
      destruct (new_cons (c, id) (in_pairs id (List.filter (client_known (tables (db_of s))) ids)) (pairs rows) Hno) as [Hnew Hsize].
      exists sk, rows'. rewrite Hsize, Hnew, Nat.add_succ_r. split; [|split; [rewrite Hp; set_solver|done]].
      exec Hs.
Qed.

Lemma remove_loop_does id ids n s :
  db_works s ->
  let rows := client_group_memberships (tables (db_of s)) in
  let gone := pairs rows ∩ in_pairs id ids in
  exists rows', does (remove_loop id n ids) s (Ok (n + size gone)%nat)
    (with_tables (set_client_group_memberships (tables (db_of s)) rows') s) /\
    pairs rows' = pairs rows ∖ gone /\ (size gone = 0%nat -> rows' = rows).
Proof.
  revert n s. induction ids as [|c ids IH]; intros n s Hs rows gone.
  - exists rows. assert (Hg : gone = ∅) by (unfold gone; cbn; set_solver). rewrite Hg, size_empty, Nat.add_0_r.
    split; [|split; [set_solver|done]]. unfold rows. rewrite same_members, with_tables_same. apply does_ret.
  - cbn [remove_loop]. subst gone. rewrite in_pairs_cons.
    set (rows1 := List.filter (fun m => negb (is_member c id m)) rows).
    set (t1 := set_client_group_memberships (tables (db_of s)) rows1).
    destruct (IH (if (0 <? length (List.filter (is_member c id) rows))%nat then Datatypes.S n else n) (with_tables t1 s) (proj2 (works_with_tables t1 s) Hs))
      as (rows' & Hr & Hp & Hz).
    change (tables (db_of (with_tables t1 s))) with t1 in *. rewrite with_tables_tables in Hr.
    cbn [t1 client_group_memberships set_client_group_memberships] in Hr, Hp, Hz.
    unfold rows1 in Hr, Hp, Hz. rewrite pairs_delete in Hr, Hp, Hz. rewrite member_count in Hr.
    exists rows'. case_bool_decide as Hin.
    + rewrite gone_cons by done. rewrite Nat.add_succ_r. split; [|split; [rewrite Hp; set_solver|done]].
      eapply does_bind; [by apply does_execute|]. cbn beta. fold rows. rewrite member_count, bool_decide_eq_true_2 by done. exact Hr.
    + assert (Hd : pairs rows ∖ {[(c, id)]} = pairs rows) by set_solver. rewrite Hd in Hr, Hp, Hz.
      rewrite gone_cons_other by done. split; [|split; [done|]].
      * eapply does_bind; [by apply does_execute|]. cbn beta. fold rows. rewrite member_count, bool_decide_eq_false_2 by done. exact Hr.
      * intros Hz0. rewrite (Hz Hz0). by apply no_member_kept.
Qed.

(** ** Bindings as a map *)

Lemma bound_None rows k : bound_map rows !! k = None <-> forall r, r ∈ rows -> key_of r <> k.
Proof. apply keyed_None. Qed.
Lemma binding_found id rid ty rows :
  NoDup (map key_of rows) -> find (is_binding id rid ty) rows = None <-> bound_map rows !! (id, rid, ty) = None.
Proof.
  intros Hn. rewrite bound_None. split.
  - intros Hf r Hr%list_elem_of_In Hk%is_binding_true. pose proof (find_none _ _ Hf r Hr). congruence.
  - intros Hall. destruct (find _ rows) as [r|] eqn:Hf; [|done]. apply find_some in Hf as [Hr%list_elem_of_In Hk%is_binding_true].
    by destruct (Hall r Hr).
Qed.
Lemma binding_count id rid ty rows :
  (0 <? length (List.filter (is_binding id rid ty) rows))%nat = bool_decide (is_Some (bound_map rows !! (id, rid, ty))).
Proof.
  apply eq_true_iff_eq. rewrite bool_decide_eq_true, Nat.ltb_lt, <- not_eq_None_Some, bound_None. split.
  - destruct (List.filter _ rows) as [|m l] eqn:Hf; [simpl; lia|]. intros _ Hall.
    assert (Hm : m ∈ List.filter (is_binding id rid ty) rows) by (rewrite Hf; by left).
    apply elem_of_bfilter in Hm as [Hm Hi%is_binding_true]. by apply (Hall m).
  - intros Hn. destruct (List.filter _ rows) as [|m l] eqn:Hf; [|simpl; lia]. destruct Hn. intros r Hr Hk%is_binding_true.
    assert (Hm : r ∈ List.filter (is_binding id rid ty) rows) by (by apply elem_of_bfilter).
    rewrite Hf in Hm. by apply not_elem_of_nil in Hm.
Qed.
Lemma bound_delete id rid ty rows :
  NoDup (map key_of rows) ->
  bound_map (List.filter (fun r => negb (is_binding id rid ty r)) rows) = base.delete (id, rid, ty) (bound_map rows).
Proof.
  intros Hn. unfold bound_map. rewrite (keyed_filter key_of cgr_priority rows _ (fun x => x.1 <> (id, rid, ty))); [|done|].
  - apply map_eq. intros k. apply option_eq. intros v. rewrite map_lookup_filter_Some, lookup_delete_Some. cbn [fst].
    split; intros [? ?]; split; (done || congruence).
  - intros r _. rewrite negb_true_iff, <- not_true_iff_false, is_binding_true. done.
Qed.
Lemma no_binding_kept id rid ty rows :
  bound_map rows !! (id, rid, ty) = None -> List.filter (fun r => negb (is_binding id rid ty r)) rows = rows.
Proof.
  rewrite bound_None. intros Hno. apply List.forallb_filter_id, forallb_forall. intros m Hm%list_elem_of_In.
  apply negb_true_iff, not_true_iff_false. rewrite is_binding_true. by apply Hno.
Qed.

Definition unbind_all (id : Z) (ty : str) (ids : list str) (m : gmap (Z * str * str) Z) : gmap (Z * str * str) Z :=
  fold_left (fun m rid => base.delete (id, rid, ty) m) ids m.
Lemma unbind_size id ty ids m : (size (unbind_all id ty ids m) <= size m)%nat.
Proof.
  unfold unbind_all. revert m. induction ids as [|rid ids IH]; intros m; [done|]. cbn [fold_left].
  etransitivity; [apply IH|]. rewrite map_size_delete. destruct (m !! _); [apply Nat.le_pred_l|done].
Qed.
Lemma size_delete_found (m : gmap (Z * str * str) Z) k : is_Some (m !! k) -> size m = Datatypes.S (size (base.delete k m)).
Proof.
  intros [v Hv]. rewrite map_size_delete, Hv. assert (Hpos : size m <> 0%nat); [|lia].
  intros Hempty. apply map_size_empty_iff in Hempty. by rewrite Hempty in Hv.
Qed.
Lemma unbind_loop_does id ty ids n s :
  db_works s -> NoDup (map key_of (client_group_rules (tables (db_of s)))) ->
  let rows := client_group_rules (tables (db_of s)) in
  let after := unbind_all id ty ids (bound_map rows) in
  exists rows', does (unbind_loop id ty n ids) s (Ok (n + (size (bound_map rows) - size after))%nat)
    (with_tables (set_client_group_rules (tables (db_of s)) rows') s) /\
    bound_map rows' = after /\ ((size (bound_map rows) - size after = 0)%nat -> rows' = rows).
Proof.
  revert n s. induction ids as [|rid ids IH]; intros n s Hs Hn rows after.
  - exists rows. unfold after. cbn [unbind_all fold_left]. rewrite Nat.sub_diag, Nat.add_0_r. split; [|done].
    unfold rows. rewrite same_bindings, with_tables_same. apply does_ret.
  - cbn [unbind_loop]. unfold after. change (unbind_all id ty (rid :: ids) (bound_map rows)) with
      (unbind_all id ty ids (base.delete (id, rid, ty) (bound_map rows))). clear after.
    set (t1 := set_client_group_rules (tables (db_of s)) (List.filter (fun r => negb (is_binding id rid ty r)) rows)).
    destruct (IH (if (0 <? length (List.filter (is_binding id rid ty) rows))%nat then Datatypes.S n else n)
      (with_tables t1 s) (proj2 (works_with_tables t1 s) Hs)) as (rows' & Hr & Hp & Hz); [by apply unique_filter|].
    change (tables (db_of (with_tables t1 s))) with t1 in *. rewrite with_tables_tables in Hr.
    cbn [t1 client_group_rules set_client_group_rules] in Hr, Hp, Hz.
    rewrite bound_delete in Hr, Hp, Hz by done.
    pose proof (unbind_size id ty ids (base.delete (id, rid, ty) (bound_map rows))) as Hsz.
    assert (Hgo : forall r s', does (unbind_loop id ty
        (if (0 <? length (List.filter (is_binding id rid ty) rows))%nat then Datatypes.S n else n) ids) (with_tables t1 s) r s' ->
      does (bind (db (execute (delete_binding id rid ty)))
        (fun rows_affected => unbind_loop id ty (if (0 <? rows_affected)%nat then Datatypes.S n else n) ids)) s r s').
    { intros r s' Hd. eapply does_bind; [eapply does_db_execute; [exact Hs|reflexivity]|exact Hd]. }
    exists rows'. rewrite binding_count in Hgo, Hr. case_bool_decide as Hin.
    + apply size_delete_found in Hin. split; [|split; [done|lia]]. apply Hgo.
      replace (n + (size (bound_map rows) - size (unbind_all id ty ids (base.delete (id, rid, ty) (bound_map rows)))))%nat
        with (Datatypes.S n + (size (base.delete (id, rid, ty) (bound_map rows)) -
                               size (unbind_all id ty ids (base.delete (id, rid, ty) (bound_map rows)))))%nat by lia.
      exact Hr.
    + rewrite <- eq_None_not_Some in Hin. rewrite (delete_id _ _ Hin) in Hr, Hp, Hz |- *.
      split; [by apply Hgo|]. split; [done|]. intros Hz0. rewrite Hz by exact Hz0. by apply no_binding_kept.
Qed.

(** ** The loops of the moves and the bindings *)

Lemma upsert_member_does row t :
  cgm_id row ∉ map cgm_id (client_group_memberships t) ->
  exists rows', upsert_member row t = Ok (tt, set_client_group_memberships t rows') /\
    pairs rows' = pairs (client_group_memberships t) ∪ {[pair_of row]} /\
    forall x, x ∈ map cgm_id rows' -> x ∈ map cgm_id (client_group_memberships t) \/ x = cgm_id row.
Proof.
  intros Hid. unfold upsert_member. cbn zeta. set (same := is_member (cgm_client_id row) (cgm_group_id row)).
  destruct (existsb same (client_group_memberships t)) eqn:He.
  - eexists. split; [reflexivity|]. split; [|intros x Hx; left; by rewrite same_column in Hx].
    assert (Hsame : pairs (map (fun m => if same m then {| cgm_id := cgm_id m; cgm_client_id := cgm_client_id m;
        cgm_group_id := cgm_group_id m; cgm_created_at := cgm_created_at row |} else m) (client_group_memberships t)) =
      pairs (client_group_memberships t)) by (unfold pairs; by rewrite same_column).
    rewrite Hsame. apply existsb_some in He as (m & Hm & Hs%is_member_true).
    assert (pair_of row ∈ pairs (client_group_memberships t)) by (apply elem_of_pairs; by exists m). set_solver.
  - exists (client_group_memberships t ++ [row]). split.
    + apply insert_member_free; [done|]. rewrite elem_of_pairs. intros (m & Hm & Heq%is_member_true).
      rewrite existsb_none in He. specialize (He m Hm). unfold same in He. cbn in Heq. congruence.
    + split; [|intros x; rewrite map_app, elem_of_app; intros [?|Hx%list_elem_of_singleton]; [by left|by right]].
      rewrite pairs_app. unfold pairs at 2. cbn. set_solver.
Qed.
Lemma unused_sub serials n used used' :
  unused serials n used -> (forall x, x ∈ used' -> x ∈ used) -> unused serials n used'.
Proof. intros [Hu Hi] Hsub. split; [|done]. intros k Hk Hin. by apply (Hu k Hk), Hsub. Qed.
Lemma unused_later serials n used used' :
  unused serials n used -> (forall x, x ∈ used' -> x ∈ used \/ x = serials n) -> unused serials (Datatypes.S n) used'.
Proof.
  intros Hu Hsub. apply (unused_sub serials _ (used ++ [serials n])); [by apply unused_next|].
  intros x [Hx| ->]%Hsub; apply elem_of_app; [by left|right; by left].
Qed.

(** The members without those a move takes away. *)
Definition minus_from (from : option Z) (kept : list str) (m : gset (str * Z)) : gset (str * Z) :=
  match from with Some f => m ∖ in_pairs f kept | None => m end.
Lemma leave_does from c s :
  db_works s ->
  let rows := client_group_memberships (tables (db_of s)) in
  exists rows', does (match from with
      | Some from_group_id => db (execute (delete_member c from_group_id)) ;;; ret tt
      | None => ret tt
      end) s (Ok tt) (with_tables (set_client_group_memberships (tables (db_of s)) rows') s) /\
    pairs rows' = minus_from from [c] (pairs rows) /\ forall x, x ∈ map cgm_id rows' -> x ∈ map cgm_id rows.
Proof.
  intros Hs rows. destruct from as [f|].
  - exists (List.filter (fun m => negb (is_member c f m)) rows). split; [|split].
    + eapply does_bind; [eapply does_db_execute; [exact Hs|reflexivity]|]. apply does_ret.
    + rewrite pairs_delete. cbn [minus_from]. rewrite in_pairs_cons. unfold in_pairs. cbn. set_solver.
    + intros x (m & -> & [Hm _]%elem_of_bfilter)%list_elem_of_fmap. by apply list_elem_of_fmap_2.
  - exists rows. unfold rows. rewrite same_members, with_tables_same. split; [apply does_ret|done].
Qed.
Lemma minus_from_cons from c kept m : minus_from from kept (minus_from from [c] m) = minus_from from (c :: kept) m.
Proof. destruct from as [f|]; [|done]. cbn [minus_from]. rewrite !in_pairs_cons. unfold in_pairs at 2. cbn. set_solver. Qed.
Lemma moved_cons from g c kept m :
  minus_from from kept (minus_from from [c] m ∪ {[(c, g)]}) ∪ in_pairs g kept =
  minus_from from (c :: kept) m ∪ in_pairs g (c :: kept).
Proof.
  rewrite <- (minus_from_cons from c kept m). apply set_eq. intros x. destruct from as [f|]; cbn [minus_from].
  - rewrite (in_pairs_cons g c kept), !elem_of_union, !elem_of_difference, !elem_of_union, !elem_of_difference, elem_of_singleton, !elem_of_in_pairs, list_elem_of_singleton.
    destruct (decide (x = (c, g))) as [->|]; cbn [fst snd]; [|intuition congruence].
    destruct (decide (c ∈ kept)), (decide (g = f)); subst; intuition congruence.
  - rewrite in_pairs_cons. set_solver.
Qed.

Definition target_exists (t : Db) (to : option Z) : bool :=
  match to with Some g => bool_decide (is_Some (group_by_id g t)) | None => false end.
Definition joined (to : option Z) (kept : list str) : gset (str * Z) :=
  match to with Some g => in_pairs g kept | None => ∅ end.
Lemma minus_from_nil from m : minus_from from [] m = m.
Proof. destruct from; [|done]. unfold minus_from, in_pairs. cbn. set_solver. Qed.
Lemma joined_nil to : joined to [] = ∅.
Proof. by destruct to. Qed.
Lemma move_loop_does now serials from to ids n rs s :
  db_works s -> unused serials n (map cgm_id (client_group_memberships (tables (db_of s)))) ->
  let t := tables (db_of s) in
  let kept := List.filter (client_known t) ids in
  let left := minus_from from kept (pairs (client_group_memberships t)) in
  exists rs' rows', does (move_loop now serials from to n rs ids) s
      (Ok ((n + if target_exists t to then length kept else 0)%nat, rs'))
      (with_tables (set_client_group_memberships t rows') s) /\
    pairs rows' = if target_exists t to then left ∪ joined to kept else left.
Proof.
  revert n rs s. induction ids as [|c ids IH]; intros n rs s Hs Hu t kept left.
  - exists rs, (client_group_memberships t). unfold kept, left. cbn [List.filter length].
    rewrite minus_from_nil, joined_nil, union_empty_r_L.
    replace (n + (if target_exists t to then 0 else 0))%nat with n by (destruct (target_exists _ _); lia).
    split; [|by destruct (target_exists t to)].
    rewrite same_members. unfold t. rewrite with_tables_same. apply does_ret.
  - cbn [move_loop]. subst kept left. cbn [List.filter]. rewrite client_known_alt.
    destruct (client_exists c t) as [cl|] eqn:Hc.
    2: { destruct (IH n rs s Hs Hu) as (rs' & rows' & Hr & Hp). exists rs', rows'. split; [|exact Hp].
         unfold t in Hc. exec Hs. }
    rewrite bool_decide_eq_false_2 by done. cbn [negb].
    destruct (leave_does from c s Hs) as (rows1 & Hd & Hp1 & Hid1). fold t in Hd, Hp1, Hid1.
    set (s1 := with_tables (set_client_group_memberships t rows1) s) in *.
    assert (Hu1 : unused serials n (map cgm_id rows1)) by (by eapply unused_sub).
    assert (Hgo : forall (k : M App AppError (nat * list (str * str * option str))) r s', does k s1 r s' -> does (
      let! known := db (fetch_optional (client_exists c)) in
      if bool_decide (known = None) then move_loop now serials from to n rs ids
      else
        match from with
        | Some from_group_id => db (execute (delete_member c from_group_id)) ;;; ret tt
        | None => ret tt
        end ;;; k) s r s').
    { intros k r s' Hk. eapply does_bind; [apply does_db_optional; [exact Hs|exact Hc]|].
      rewrite bool_decide_eq_false_2 by done. eapply does_bind; [exact Hd|exact Hk]. }
    assert (Hs1 : db_works s1) by exact Hs.
    assert (Ht1 : tables (db_of s1) = set_client_group_memberships t rows1) by done.
    destruct (target_exists t to) eqn:Hto.
    + destruct to as [g|]; [|done]. cbn [target_exists] in Hto. apply bool_decide_eq_true in Hto as [gr Hgr].
      set (row := membership now (serials n) c g).
      destruct (upsert_member_does row (set_client_group_memberships t rows1)) as (rows2 & Hup & Hp2 & Hid2).
      { by apply (proj1 Hu1). }
      cbn [set_client_group_memberships client_group_memberships] in Hp2, Hid2.
      set (t2 := set_client_group_memberships t rows2).
      destruct (IH (Datatypes.S n) (rs ++ applied_rules g t2) (with_tables t2 s) (proj2 (works_with_tables t2 s) Hs))
        as (rs' & rows' & Hr & Hp).
      { by eapply unused_later. }
      change (tables (db_of (with_tables t2 s))) with t2 in *. rewrite with_tables_tables in Hr.
      change (target_exists t2 (Some g)) with (bool_decide (is_Some (group_by_id g t))) in Hr, Hp.
      rewrite bool_decide_eq_true_2 in Hr, Hp by eauto.
      exists rs', rows'. split.
      * cbn [length]. rewrite Nat.add_succ_r. apply Hgo. clear Hgo.
        assert (Hg1 : group_by_id g (tables (db_of s1)) = Some gr) by exact Hgr.
        assert (Hup1 : upsert_member row (tables (db_of s1)) = Ok (tt, t2)) by exact Hup.
        eapply does_bind; [apply does_db_optional; [exact Hs1|exact Hg1]|]. rewrite bool_decide_eq_true_2 by eauto.
        eapply does_bind; [eapply does_db_execute; [exact Hs1|exact Hup1]|].
        eapply does_bind; [apply does_ret|]. eapply does_bind; [eapply does_db_query; [exact Hs1|reflexivity]|].
        unfold s1. rewrite with_tables_tables. exact Hr.
      * rewrite Hp. cbn [t2 client_group_memberships set_client_group_memberships joined]. rewrite Hp2, Hp1. apply moved_cons.
    + set (t2 := set_client_group_memberships t rows1).
      destruct (IH n rs s1 Hs1) as (rs' & rows' & Hr & Hp); [exact Hu1|].
      rewrite Ht1 in Hr, Hp. change (target_exists (set_client_group_memberships t rows1) to) with (target_exists t to) in Hr, Hp.
      rewrite Hto in Hr, Hp. exists rs', rows'. split.
      * apply Hgo. unfold s1 in Hr at 2. rewrite with_tables_tables in Hr. destruct to as [g|]; [|exact Hr].
        cbn [target_exists] in Hto. apply bool_decide_eq_false in Hto.
        eapply does_bind; [apply does_db_optional; [exact Hs1|reflexivity]|].
        rewrite bool_decide_eq_false_2 by exact Hto. exact Hr.
      * rewrite Hp. cbn [client_group_memberships set_client_group_memberships]. rewrite Hp1. apply minus_from_cons.
Qed.

Definition bind_all (t : Db) (id : Z) (l : list BindRuleRequest) (m : gmap (Z * str * str) Z) : gmap (Z * str * str) Z :=
  fold_left (bind_one t id) (take_while (fun r => negb (bad_type r)) l) m.
Lemma bind_size t id l m : (size m <= size (bind_all t id l m))%nat.
Proof.
  unfold bind_all. revert m. induction (take_while _ l) as [|r rs IH]; intros m; [done|]. cbn [fold_left].
  etransitivity; [|apply IH]. unfold bind_one. destruct (_ && _) eqn:Hb; [|done].
  apply andb_true_iff in Hb as [_ Hb%bool_decide_eq_true]. rewrite map_size_insert, Hb. lia.
Qed.
Lemma insert_binding_free row t :
  cgr_id row ∉ map cgr_id (client_group_rules t) -> bound_map (client_group_rules t) !! key_of row = None ->
  insert_binding row t = Ok (tt, set_client_group_rules t (client_group_rules t ++ [row])).
Proof.
  intros Hid Hp. rewrite bound_None in Hp. unfold insert_binding.
  rewrite (proj2 (existsb_none _ _)); [done|]. intros m Hm. apply orb_false_iff. split.
  - apply Z.eqb_neq. intros Heq. apply Hid. rewrite <- Heq. by apply list_elem_of_fmap_2.
  - apply not_true_iff_false. rewrite is_binding_true. by apply Hp.
Qed.
Lemma rule_known_alt t r :
  rule_known t r = negb (bool_decide (rule_exists (brr_rule_id r) (brr_rule_type r) t = None)).
Proof. unfold rule_known. destruct (rule_exists _ _ t); [|done]. by rewrite bool_decide_eq_true_2 by eauto. Qed.

Definition bind_answer {X} (l : list BindRuleRequest) (n : nat) (sk : X) : result (nat * X) AppError :=
  match find bad_type l with Some r => Err (invalid_type (brr_rule_type r)) | None => Ok (n, sk) end.
Lemma bind_loop_does now serials id l n sk s :
  db_works s -> NoDup (map key_of (client_group_rules (tables (db_of s)))) ->
  unused serials n (map cgr_id (client_group_rules (tables (db_of s)))) ->
  let t := tables (db_of s) in
  let rows := client_group_rules t in
  let after := bind_all t id l (bound_map rows) in
  exists sk' rows', does (bind_loop now serials id n sk l) s (bind_answer l (n + (size after - size (bound_map rows)))%nat sk')
      (with_tables (set_client_group_rules t rows') s) /\
    bound_map rows' = after /\ (size after = size (bound_map rows) -> rows' = rows).
Proof.
  revert n sk s. induction l as [|r l IH]; intros n sk s Hs Hn Hu t rows after.
  - exists sk, rows. unfold after, bind_answer. cbn [bind_all take_while fold_left find]. rewrite Nat.sub_diag, Nat.add_0_r.
    split; [|done]. unfold rows. rewrite same_bindings. unfold t. rewrite with_tables_same. apply does_ret.
  - cbn [bind_loop]. unfold after, bind_all, bind_answer. cbn [take_while find]. change (negb (valid_type (brr_rule_type r))) with (bad_type r).
    destruct (bad_type r) eqn:Hbad; cbn [negb].
    { exists sk, rows. cbn [fold_left]. split; [|done]. unfold rows. rewrite same_bindings. unfold t. rewrite with_tables_same.
      apply does_fail. }
    cbn [fold_left]. fold (bind_all t id l (bind_one t id (bound_map rows) r)).
    destruct (rule_exists (brr_rule_id r) (brr_rule_type r) t) as [x|] eqn:Hx.
    2: { assert (bind_one t id (bound_map rows) r = bound_map rows) as ->.
         { unfold bind_one. by rewrite rule_known_alt, Hx. }
         destruct (IH n (sk ++ [(brr_rule_id r, brr_rule_type r, lit "Rule not found")]) s Hs Hn Hu) as (sk' & rows' & Hr & Hp).
         exists sk', rows'. split; [|exact Hp]. unfold t in Hx. exec Hs. }
    destruct (binding_row_of id (brr_rule_id r) (brr_rule_type r) t) as [b|] eqn:Hb.
    { assert (bind_one t id (bound_map rows) r = bound_map rows) as ->.
      { unfold bind_one. rewrite bool_decide_eq_false_2; [by rewrite andb_false_r|]. unfold request_key.
        rewrite <- binding_found by done. unfold binding_row_of in Hb. unfold rows. congruence. }
      destruct (IH n (sk ++ [(brr_rule_id r, brr_rule_type r, lit "Already bound")]) s Hs Hn Hu) as (sk' & rows' & Hr & Hp).
      exists sk', rows'. split; [|exact Hp]. unfold t in Hx, Hb. exec Hs. }
    assert (Hnone : bound_map rows !! request_key id r = None) by (by apply binding_found).
    assert (Hone : bind_one t id (bound_map rows) r = <[request_key id r := default 0%Z (brr_priority r)]> (bound_map rows)).
    { unfold bind_one. by rewrite rule_known_alt, Hx, bool_decide_eq_false_2, bool_decide_eq_true_2. }
    set (row := binding now (serials n) id r).
    pose proof (insert_binding_free row t (proj1 Hu n (Nat.le_refl _)) Hnone) as Hins.
    pose proof (proj1 (bound_None _ _) Hnone) as Hfresh.
    set (t1 := set_client_group_rules t (rows ++ [row])).
    destruct (IH (Datatypes.S n) sk (with_tables t1 s) (proj2 (works_with_tables t1 s) Hs)) as (sk' & rows' & Hr & Hp & Hz).
    { by apply unique_snoc. }
    { change (tables (db_of (with_tables t1 s))) with t1. cbn [t1 client_group_rules set_client_group_rules].
      rewrite map_app. apply unused_next, Hu. }
    change (tables (db_of (with_tables t1 s))) with t1 in *. rewrite with_tables_tables in Hr.
    cbn [t1 client_group_rules set_client_group_rules] in Hr, Hp, Hz.
    assert (Hsnoc : bound_map (rows ++ [row]) = bind_one t id (bound_map rows) r).
    { rewrite Hone. by apply (keyed_snoc key_of cgr_priority). }
    rewrite Hsnoc in Hr, Hp, Hz. change (bind_all t1) with (bind_all t) in Hr, Hp, Hz.
    assert (Hsize : size (bind_one t id (bound_map rows) r) = Datatypes.S (size (bound_map rows))).
    { by rewrite Hone, map_size_insert, Hnone. }
    pose proof (bind_size t id l (bind_one t id (bound_map rows) r)) as Hle.
    exists sk', rows'. split; [|split; [exact Hp|lia]].
    replace (n + (size (bind_all t id l (bind_one t id (bound_map rows) r)) - size (bound_map rows)))%nat with
      (Datatypes.S n + (size (bind_all t id l (bind_one t id (bound_map rows) r)) - size (bind_one t id (bound_map rows) r)))%nat by lia.
    unfold t in Hx, Hb, Hins. unfold bind_answer in Hr. exec Hs.
Qed.

(** ** The calls *)

Lemma groups_lookup t id : groups_ok t -> groups (store_of t) !! id = info_of <$> group_by_id id t.
Proof.
  intros [Hn _ _ _ _ _ _]. cbn [store_of groups]. destruct (group_by_id id t) as [g|] eqn:Hid; cbn [fmap option_fmap option_map].
  - apply group_by_id_Some in Hid as [Hg Hi]. apply keyed_Some; [done|]. by exists g.
  - apply keyed_None. intros g Hg Hi. apply (group_by_id_None _ _ Hid). by exists g.
Qed.
Lemma named_rows name besides t :
  groups_ok t -> named name besides (groups (store_of t)) <->
    exists g, g ∈ client_groups t /\ cg_name g = name /\ besides <> Some (cg_id g).
Proof.
  intros [Hn _ _ _ _ _ _]. unfold named, map_Exists. cbn [store_of groups]. split.
  - intros (id & v & Hv & Hname & Hb). apply keyed_Some in Hv as (g & Hg & <- & <-); [|done]. by exists g.
  - intros (g & Hg & Hname & Hb). exists (cg_id g), (info_of g). split; [|done]. apply keyed_Some; [done|]. by exists g.
Qed.
Lemma by_name_named name t :
  groups_ok t -> is_Some (group_by_name name t) <-> named name None (groups (store_of t)).
Proof.
  intros Hok. rewrite named_rows by done. unfold group_by_name. split.
  - intros [g [Hg Hn%str_eqb_eq]%find_some]. exists g. split; [by apply list_elem_of_In|done].
  - intros (g & Hg%list_elem_of_In & Hn & _). destruct (find _ _) eqn:Hf; [eauto|].
    pose proof (find_none _ _ Hf g Hg) as Hx. cbn beta in Hx. by apply str_eqb_neq in Hx.
Qed.
Lemma other_by_name_named name id t :
  groups_ok t -> is_Some (other_by_name name id t) <-> named name (Some id) (groups (store_of t)).
Proof.
  intros Hok. rewrite named_rows by done. unfold other_by_name. split.
  - intros [g [Hg [Hn%str_eqb_eq Hi%negb_true_iff%Z.eqb_neq]%andb_true_iff]%find_some]. exists g.
    split; [by apply list_elem_of_In|]. split; [done|congruence].
  - intros (g & Hg%list_elem_of_In & Hn & Hi). destruct (find _ _) eqn:Hf; [eauto|].
    pose proof (find_none _ _ Hf g Hg) as Hx. cbn beta in Hx. rewrite Hn, str_eqb_refl in Hx. cbn [andb] in Hx.
    apply negb_false_iff, Z.eqb_eq in Hx. congruence.
Qed.
Lemma stored_same t : stored t t.
Proof. by destruct t. Qed.
Lemma require_found id g s : db_works s -> group_by_id id (tables (db_of s)) = Some g -> does (require_group id) s (Ok tt) s.
Proof. intros Hs Hg. unfold require_group. exec Hs. Qed.
Lemma require_missing id s :
  db_works s -> group_by_id id (tables (db_of s)) = None -> does (require_group id) s (Err (group_not_found id)) s.
Proof. intros Hs Hg. unfold require_group. exec Hs. Qed.

Lemma does_fst {A B} (m : M App AppError (A * B)) s a b s' :
  does m s (Ok (a, b)) s' -> does (let! r := m in ret (fst r)) s (Ok a) s'.
Proof. intros Hm. eapply does_bind; [exact Hm|apply does_ret]. Qed.

(** A call refused before it changed anything. *)
Lemma gr_refused d p serials c s e :
  spec (tables (db_of s)) (serials 0%nat) c (store_of (tables (db_of s))) = (Err e, store_of (tables (db_of s))) ->
  does (run d p serials c) s (Err e) s -> implements d p serials c s.
Proof.
  intros He Hr. exists s. rewrite He. cbn [fst snd]. split; [exact Hr|]. split; [done|]. split; [apply stored_same|].
  split; [|done]. right. split; [done|]. by left.
Qed.
(** A call that empties the cache when it changed something. *)
Lemma gr_counted d p serials c s n (t' : Db) st :
  spec (tables (db_of s)) (serials 0%nat) c (store_of (tables (db_of s))) = (Ok n, st) ->
  does (run d p serials c) s (Ok n) (if (0 <? n)%nat then forgotten (with_tables t' s) else with_tables t' s) ->
  store_of t' = st -> stored (tables (db_of s)) t' -> (n = 0%nat -> t' = tables (db_of s)) -> implements d p serials c s.
Proof.
  intros He Hr Hst Hstored Hz. eexists. rewrite He. cbn [fst snd]. split; [exact Hr|].
  destruct (0 <? n)%nat eqn:Hn; (split; [exact Hst|]; split; [exact Hstored|]; split; [|done]); [by left|].
  right. split; [done|]. left. intros ip. apply Nat.ltb_ge in Hn. change (tables (db_of (with_tables t' s))) with t'.
  by rewrite Hz by lia.
Qed.
(** A statement of a transaction, and what follows it when rows were
    counted. *)
Lemma does_db_transaction {A} (m : M App DbError A) s a t' :
  db_works s -> does m s (Ok a) (with_tables t' s) -> does (db (transaction m)) s (Ok a) (with_tables t' s).
Proof.
  intros Hs Hm. apply (does_map_err Database _ s (Ok a)). apply does_transaction; [exact Hs|exact Hs|exact Hm].
Qed.
Lemma does_forget_if {A} n (a : A) s :
  does ((if (0 <? n)%nat then forget_clients else ret tt) ;;; ret a) s (Ok a) (if (0 <? n)%nat then forgotten s else s).
Proof.
  destruct (0 <? n)%nat; (eapply does_bind; [|apply does_ret]); [apply does_forget|apply does_ret].
Qed.

Lemma store_bindings t rows : store_of (set_client_group_rules t rows) =
  {| groups := groups (store_of t); members := members (store_of t); bindings := bound_map rows |}.
Proof. done. Qed.

Lemma store_groups t gs : store_of (set_client_groups t gs) =
  {| groups := keyed cg_id info_of gs; members := members (store_of t); bindings := bindings (store_of t) |}.
Proof. done. Qed.

Section on_group.
Context (d : Draws) (p : Parts) (serials : nat -> Z) (auth : Claims) (s : App).
Context (Hs : db_works s) (Hok : groups_ok (tables (db_of s))) (Ha : does (AdminUser d p) s (Ok auth) s).

Lemma gr_missing id c :
  group_by_id id (tables (db_of s)) = None ->
  match c with
  | AddClients i _ | RemoveClients i _ | BindRules i _ | UnbindRules i _ _ | UpdateGroup i _ | DeleteGroup i => i = id
  | _ => False
  end -> implements d p serials c s.
Proof.
  intros Hg Hc. pose proof (require_missing id s Hs Hg) as Hreq.
  eapply gr_refused; destruct c; try done; subst; cbn [spec run].
  all: try (by rewrite groups_lookup, Hg).
  all: unfold update_group, delete_group, batch_add_clients, batch_remove_clients, batch_bind_rules, batch_unbind_rules; exec Hs.
Qed.

Lemma gr_add id l :
  unused serials 0 (map cgm_id (client_group_memberships (tables (db_of s)))) -> implements d p serials (AddClients id l) s.
Proof.
  intros Hu. destruct (group_by_id id (tables (db_of s))) as [g|] eqn:Hg; [|by apply (gr_missing id)].
  pose proof (require_found id g s Hs Hg) as Hreq.
  destruct (add_loop_does (d_text d) serials id l 0 [] s Hs Hu) as (sk & rows' & Hr & Hp & Hz).
  eapply (gr_counted d p serials _ s _ (set_client_group_memberships (tables (db_of s)) rows')).
  - cbn [spec]. by rewrite groups_lookup, Hg.
  - cbn [run]. apply (does_fst _ _ _ sk). unfold batch_add_clients. eapply does_bind; [exact Ha|].
    eapply does_bind; [exact Hreq|]. eapply does_bind; [apply does_db_transaction; [exact Hs|exact Hr]|]. apply does_forget_if.
  - cbn [store_of members groups bindings]. by rewrite <- Hp.
  - done.
  - intros Hn. rewrite Hz by exact Hn. apply same_members.
Qed.
Lemma gr_remove id l : implements d p serials (RemoveClients id l) s.
Proof.
  destruct (group_by_id id (tables (db_of s))) as [g|] eqn:Hg; [|by apply (gr_missing id)].
  pose proof (require_found id g s Hs Hg) as Hreq.
  destruct (remove_loop_does id l 0 s Hs) as (rows' & Hr & Hp & Hz).
  eapply (gr_counted d p serials _ s _ (set_client_group_memberships (tables (db_of s)) rows')).
  - cbn [spec]. by rewrite groups_lookup, Hg.
  - cbn [run]. unfold batch_remove_clients. eapply does_bind; [exact Ha|].
    eapply does_bind; [exact Hreq|]. eapply does_bind; [apply does_db_transaction; [exact Hs|exact Hr]|]. apply does_forget_if.
  - cbn [store_of members groups bindings]. by rewrite <- Hp.
  - done.
  - intros Hn. rewrite Hz by exact Hn. apply same_members.
Qed.
Lemma gr_unbind id ty body : implements d p serials (UnbindRules id ty body) s.
Proof.
  destruct (group_by_id id (tables (db_of s))) as [g|] eqn:Hg; [|by apply (gr_missing id)].
  pose proof (require_found id g s Hs Hg) as Hreq.
  destruct (unbind_loop_does id (default (lit "filter") ty) (bur_rule_ids body) 0 s Hs (keys_unique _ Hok)) as (rows' & Hr & Hp & Hz).
  eapply (gr_counted d p serials _ s _ (set_client_group_rules (tables (db_of s)) rows')).
  - cbn [spec]. by rewrite groups_lookup, Hg.
  - cbn [run]. unfold batch_unbind_rules. eapply does_bind; [exact Ha|].
    eapply does_bind; [exact Hreq|]. eapply does_bind; [exact Hr|]. apply does_forget_if.
  - by rewrite store_bindings, Hp.
  - done.
  - intros Hn. rewrite Hz by exact Hn. apply same_bindings.
Qed.
Lemma gr_bind id l :
  unused serials 0 (map cgr_id (client_group_rules (tables (db_of s)))) -> implements d p serials (BindRules id l) s.
Proof.
  intros Hu. destruct (group_by_id id (tables (db_of s))) as [g|] eqn:Hg; [|by apply (gr_missing id)].
  pose proof (require_found id g s Hs Hg) as Hreq.
  destruct (bind_loop_does (d_text d) serials id l 0 [] s Hs (keys_unique _ Hok) Hu) as (sk & rows' & Hr & Hp & Hz).
  unfold bind_answer in Hr. destruct (find bad_type l) as [r|] eqn:Hbad.
  - exists (with_tables (set_client_group_rules (tables (db_of s)) rows') s). cbn [spec]. rewrite groups_lookup, Hg by done.
    cbn [fmap option_fmap option_map]. rewrite Hbad. cbn [fst snd]. rewrite tables_with_tables.
    split; [|split; [|split; [|split]]]; [| |done| |done].
    + cbn [run]. unfold batch_bind_rules. apply does_bind_err. exec Hs.
    + by rewrite store_bindings, Hp.
    + right. split; [done|]. right. by exists r.
  - eapply (gr_counted d p serials _ s _ (set_client_group_rules (tables (db_of s)) rows')).
    + cbn [spec]. rewrite groups_lookup, Hg by done. cbn [fmap option_fmap option_map]. by rewrite Hbad.
    + cbn [run]. apply (does_fst _ _ _ sk). unfold batch_bind_rules. eapply does_bind; [exact Ha|].
      eapply does_bind; [exact Hreq|]. eapply does_bind; [exact Hr|]. apply does_forget_if.
    + by rewrite store_bindings, Hp.
    + done.
    + intros Hn. pose proof (bind_size (tables (db_of s)) id l (bound_map (client_group_rules (tables (db_of s))))) as Hle.
      rewrite Hz by (unfold bind_all in *; cbn [store_of bindings] in Hn; lia). apply same_bindings.
Qed.
Lemma gr_move body :
  unused serials 0 (map cgm_id (client_group_memberships (tables (db_of s)))) -> implements d p serials (MoveClients body) s.
Proof.
  intros Hu. destruct (move_loop_does (d_text d) serials (bmr_from_group_id body) (bmr_to_group_id body) (bmr_client_ids body)
    0 [] s Hs Hu) as (rs' & rows' & Hr & Hp).
  exists (with_tables (set_client_group_memberships (tables (db_of s)) rows') s).
  assert (Hspec : spec (tables (db_of s)) (serials 0%nat) (MoveClients body) (store_of (tables (db_of s))) =
    (Ok (0 + if target_exists (tables (db_of s)) (bmr_to_group_id body)
         then length (List.filter (client_known (tables (db_of s))) (bmr_client_ids body)) else 0)%nat,
     {| groups := groups (store_of (tables (db_of s))); members := pairs rows'; bindings := bindings (store_of (tables (db_of s))) |})).
  { rewrite Hp. cbn [spec]. unfold target_exists, minus_from, joined. destruct (bmr_to_group_id body) as [g|]; [|done].
    rewrite groups_lookup by done. cbn [store_of members].
    destruct (group_by_id g (tables (db_of s))); cbn [fmap option_fmap option_map].
    - by rewrite !bool_decide_eq_true_2 by eauto.
    - by rewrite !bool_decide_eq_false_2 by (by intros [? ?]). }
  rewrite Hspec. cbn [fst snd]. split; [|split; [done|split; [done|split; [|done]]]].
  - cbn [run]. apply (does_fst _ _ _ rs'). unfold batch_move_clients. exec Hs.
  - right. split; [done|]. by right.
Qed.
Lemma insert_group_free row t :
  cg_id row ∉ map cg_id (client_groups t) -> (forall g, g ∈ client_groups t -> cg_name g <> cg_name row) ->
  insert_group row t = Ok (cg_id row, set_client_groups t (client_groups t ++ [row])).
Proof.
  intros Hid Hname. unfold insert_group. rewrite (proj2 (existsb_none _ _)); [done|]. intros g Hg. apply orb_false_iff. split.
  - apply Z.eqb_neq. intros Heq. apply Hid. rewrite <- Heq. by apply list_elem_of_fmap_2.
  - apply str_eqb_neq. by apply Hname.
Qed.
(** A new group has no member yet, so no configuration changes. *)
Lemma new_group_configs row t :
  groups_ok t -> cg_id row ∉ map cg_id (client_groups t) -> same_configs t (set_client_groups t (client_groups t ++ [row])).
Proof.
  intros Hok' Hid ip. unfold Handler.config_now, Handler.config_of, Handler.client_of, Handler.int_column.
  cbn [clients set_client_groups]. destruct (forallb _ _); [|done]. destruct (find _ _) as [c|]; [|done].
  assert (Hb : forall cid ty, Handler.group_bindings cid ty (set_client_groups t (client_groups t ++ [row])) =
    Handler.group_bindings cid ty t).
  { intros cid ty. unfold Handler.group_bindings. cbn [client_group_memberships set_client_groups client_groups client_group_rules].
    rewrite !flat_map_concat_map. f_equal. apply map_ext_in. intros m Hm%list_elem_of_In.
    destruct (cgm_client_id m =s? cid); [|done]. rewrite flat_map_app. cbn [flat_map].
    destruct (members_of_groups _ Hok' m Hm) as (g & Hg & Hi).
    rewrite (proj2 (Z.eqb_neq (cg_id row) (cgm_group_id m))); [by rewrite !app_nil_r|].
    rewrite <- Hi. intros Heq. apply Hid. rewrite Heq. by apply list_elem_of_fmap_2. }
  unfold Handler.group_rule_rows, Handler.group_rewrite_rows. rewrite !Hb. done.
Qed.
Lemma gr_create body :
  serials 0%nat ∉ map cg_id (client_groups (tables (db_of s))) -> implements d p serials (CreateGroup body) s.
Proof.
  intros Hid. set (name := trim (cgq_name body)). destruct (is_empty name) eqn:E1.
  { eapply gr_refused; cbn [spec run]; unfold create_group; fold name; rewrite ?E1; [done|]. exec Hs. }
  destruct (group_by_name name (tables (db_of s))) as [g|] eqn:Hg.
  { eapply gr_refused; cbn [spec run]; unfold create_group; fold name; rewrite ?E1.
    - by rewrite bool_decide_eq_true_2 by (apply by_name_named; [done|rewrite Hg; eauto]).
    - exec Hs. }
  assert (Hno : ~ named name None (groups (store_of (tables (db_of s))))).
  { rewrite <- by_name_named by done. rewrite Hg. by intros [? ?]. }
  set (row := {| cg_id := serials 0%nat; cg_name := name; cg_color := default (lit "#6366f1") (cgq_color body);
                 cg_description := cgq_description body; cg_priority := default 0%Z (cgq_priority body);
                 cg_created_at := d_text d; cg_updated_at := d_text d |}).
  assert (Hins : insert_group row (tables (db_of s)) =
    Ok (cg_id row, set_client_groups (tables (db_of s)) (client_groups (tables (db_of s)) ++ [row]))).
  { apply insert_group_free; [done|]. intros g' Hg' Hname. apply Hno. apply named_rows; [done|]. by exists g'. }
  eexists. cbn [spec]. fold name. rewrite E1, bool_decide_eq_false_2 by done. cbn [fst snd].
  split; [|split; [|split; [|split]]].
  - cbn [run]. unfold create_group. fold name. rewrite E1. fold row. exec Hs.
  - change (store_of (set_client_groups (tables (db_of s)) (client_groups (tables (db_of s)) ++ [row])) =
      {| groups := <[cg_id row := info_of row]> (groups (store_of (tables (db_of s))));
         members := members (store_of (tables (db_of s))); bindings := bindings (store_of (tables (db_of s))) |}).
    rewrite store_groups. f_equal. apply (keyed_snoc cg_id info_of _ row). intros g' Hg' Heq.
    apply Hid. change (serials 0%nat) with (cg_id row). rewrite <- Heq. by apply list_elem_of_fmap_2.
  - done.
  - right. split; [done|]. left. by apply (new_group_configs row).
  - done.
Qed.

Lemma does_count q s' : db_works s' -> does (count_or_0 q) s' (Ok (q (tables (db_of s')))) s'.
Proof.
  intros Hs'. unfold count_or_0.
  eapply does_bind; [apply (does_catch _ _ (Ok (q (tables (db_of s')))))|apply does_ret].
  exact (does_query (fun t => Ok (q t)) s' Hs').
Qed.
Definition without_group (id : Z) (t : Db) : Db :=
  set_client_groups (set_client_group_rules (set_client_group_memberships t
    (List.filter (fun m => negb (in_group id m)) (client_group_memberships t)))
    (List.filter (fun r => negb (of_group id r)) (client_group_rules t)))
    (List.filter (fun g => negb (cg_id g =? id)%Z) (client_groups t)).
Lemma delete_rows_does id s' :
  db_works s' -> does (delete_rows_of id) s' (Ok tt) (with_tables (without_group id (tables (db_of s'))) s').
Proof.
  intros Hs'. unfold delete_rows_of. eapply does_bind; [eapply does_execute; [exact Hs'|reflexivity]|].
  eapply does_bind; [eapply does_execute; [exact Hs'|reflexivity]|].
  match goal with |- does _ ?s1 _ _ => assert (Hs1 : db_works s1) by exact Hs' end.
  pose proof (does_execute (fun t => Ok (tt, set_client_groups t
    (List.filter (fun g => negb (cg_id g =? id)%Z) (client_groups t)))) _ _ _ Hs1 eq_refl) as Hd.
  rewrite !with_tables_tables in Hd |- *. exact Hd.
Qed.
Lemma without_group_store id t :
  groups_ok t -> store_of (without_group id t) =
    {| groups := base.delete id (groups (store_of t)); members := filter (fun x => x.2 <> id) (members (store_of t));
       bindings := filter (fun x => x.1.1.1 <> id) (bindings (store_of t)) |}.
Proof.
  intros [Hn1 _ _ Hn4 _ _ _]. unfold without_group.
  change ({| groups := keyed cg_id info_of (List.filter (fun g => negb (cg_id g =? id)%Z) (client_groups t));
    members := pairs (List.filter (fun m => negb (in_group id m)) (client_group_memberships t));
    bindings := keyed key_of cgr_priority (List.filter (fun r => negb (of_group id r)) (client_group_rules t)) |} =
    {| groups := base.delete id (keyed cg_id info_of (client_groups t));
       members := filter (fun x => x.2 <> id) (pairs (client_group_memberships t));
       bindings := filter (fun x => x.1.1.1 <> id) (keyed key_of cgr_priority (client_group_rules t)) |}).
  f_equal.
  - rewrite (keyed_filter cg_id info_of _ _ (fun x => x.1 <> id)); [|done|].
    + apply map_eq. intros k. apply option_eq. intros v. rewrite map_lookup_filter_Some, lookup_delete_Some. cbn [fst].
      split; intros [? ?]; split; (done || congruence).
    + intros g _. by rewrite negb_true_iff, Z.eqb_neq.
  - apply pairs_delete_group.
  - apply (keyed_filter key_of cgr_priority); [done|]. intros r _. unfold of_group. by rewrite negb_true_iff, Z.eqb_neq.
Qed.
Lemma gr_delete id : implements d p serials (DeleteGroup id) s.
Proof.
  destruct (group_by_id id (tables (db_of s))) as [g|] eqn:Hg; [|by apply (gr_missing id)].
  assert (Hs1 : db_works (forgotten s)) by exact Hs.
  pose proof (delete_rows_does id (forgotten s) Hs1) as Hdel.
  eexists. cbn [spec]. rewrite groups_lookup, Hg by done. cbn [fmap option_fmap option_map fst snd].
  split; [|split; [|split; [|split]]].
  - cbn [run]. unfold delete_group. eapply does_bind; [|apply does_ret].
    eapply does_bind; [exact Ha|]. eapply does_bind; [apply does_db_optional; [exact Hs|exact Hg]|].
    eapply does_bind; [apply does_lift_ok; reflexivity|]. eapply does_bind; [by apply does_count|].
    eapply does_bind; [by apply does_count|]. eapply does_bind; [apply does_forget|].
    eapply does_bind; [apply does_db_transaction; [exact Hs1|exact Hdel]|]. exec Hs1.
  - change (store_of (without_group id (tables (db_of s))) = {| groups := base.delete id (groups (store_of (tables (db_of s))));
      members := filter (fun x => x.2 <> id) (members (store_of (tables (db_of s))));
      bindings := filter (fun x => x.1.1.1 <> id) (bindings (store_of (tables (db_of s)))) |}).
    by apply without_group_store.
  - done.
  - by left.
  - done.
Qed.

Lemma new_name_does id g wanted :
  group_by_id id (tables (db_of s)) = Some g ->
  let n := default (cg_name g) (trim <$> wanted) in
  does (new_name id wanted (cg_name g)) s
    (if bool_decide (is_Some wanted) && is_empty n then Err empty_name
     else if bool_decide (is_Some wanted) && bool_decide (named n (Some id) (groups (store_of (tables (db_of s)))))
     then Err (name_taken n) else Ok n) s.
Proof.
  intros Hg n. destruct wanted as [w|]; cbn [fmap option_fmap option_map default from_option] in n.
  2: { rewrite bool_decide_eq_false_2 by (by intros [? ?]). cbn [andb]. apply does_ret. }
  rewrite bool_decide_eq_true_2 by eauto. cbn [andb new_name]. change (trim w) with n. cbn zeta.
  destruct (is_empty n) eqn:E1; [apply does_fail|]. destruct (n =s? cg_name g) eqn:E2.
  - apply str_eqb_eq in E2. rewrite bool_decide_eq_false_2; [apply does_ret|]. rewrite named_rows by done.
    intros (g' & Hg' & Hn & Hi). apply group_by_id_Some in Hg as [Hg Hid].
    assert (g' = g) as -> by (apply (unique_elem cg_name (client_groups (tables (db_of s)))); [apply Hok|done|done|congruence]).
    congruence.
  - destruct (other_by_name n id (tables (db_of s))) as [g'|] eqn:Ho.
    + rewrite bool_decide_eq_true_2 by (apply other_by_name_named; [done|rewrite Ho; eauto]). exec Hs.
    + rewrite bool_decide_eq_false_2; [exec Hs|]. rewrite <- other_by_name_named by done. rewrite Ho. by intros [? ?].
Qed.
Lemma update_group_free id g n color de pr now :
  group_by_id id (tables (db_of s)) = Some g -> ~ named n (Some id) (groups (store_of (tables (db_of s)))) ->
  update_group_row id n color de pr now (tables (db_of s)) = Ok (tt, set_client_groups (tables (db_of s))
    (map (fun g => if (cg_id g =? id)%Z then change_group n color de pr now g else g) (client_groups (tables (db_of s))))).
Proof.
  intros Hg Hno. unfold update_group_row. cbn zeta.
  assert (existsb (fun g => negb (cg_id g =? id)%Z && (cg_name g =s? n)) (client_groups (tables (db_of s))) = false) as ->;
    [|by rewrite andb_false_r].
  apply existsb_none. intros g' Hg'. apply not_true_iff_false. intros [Hi%negb_true_iff%Z.eqb_neq Hn%str_eqb_eq]%andb_true_iff.
  apply Hno. apply named_rows; [done|]. exists g'. split; [done|]. split; [done|congruence].
Qed.
Lemma gr_update id body : implements d p serials (UpdateGroup id body) s.
Proof.
  destruct (group_by_id id (tables (db_of s))) as [g|] eqn:Hg; [|by apply (gr_missing id)].
  pose proof (new_name_does id g (ugq_name body) Hg) as Hname. cbn zeta in Hname.
  set (n := default (cg_name g) (trim <$> ugq_name body)) in *.
  assert (Hspec : groups (store_of (tables (db_of s))) !! id = Some (info_of g)) by (by rewrite groups_lookup, Hg).
  destruct (bool_decide (is_Some (ugq_name body)) && is_empty n) eqn:E1.
  { eapply gr_refused; cbn [spec run]; [|unfold update_group; exec Hs]. rewrite Hspec. cbn [changed_info i_name info_of]. fold n. by rewrite E1. }
  destruct (bool_decide (is_Some (ugq_name body)) && bool_decide (named n (Some id) (groups (store_of (tables (db_of s)))))) eqn:E2.
  { eapply gr_refused; cbn [spec run]; [|unfold update_group; exec Hs]. rewrite Hspec. cbn [changed_info i_name info_of]. fold n. by rewrite E1, E2. }
  assert (Hno : ~ named n (Some id) (groups (store_of (tables (db_of s))))).
  { apply andb_false_iff in E2 as [E2|E2]; [|by apply bool_decide_eq_false in E2].
    apply bool_decide_eq_false in E2. assert (Hnone : ugq_name body = None) by (destruct (ugq_name body); [destruct E2; eauto|done]).
    unfold n. rewrite Hnone. cbn [fmap option_fmap option_map default from_option]. rewrite named_rows by done.
    intros (g' & Hg' & Hn & Hi). apply group_by_id_Some in Hg as [Hg Hid].
    assert (g' = g) as -> by (by apply (unique_elem cg_name (client_groups (tables (db_of s)))); [apply Hok|..]). congruence. }
  pose proof (fun color de pr now => update_group_free id g n color de pr now Hg Hno) as Hup.
  eexists. cbn [spec]. rewrite Hspec. cbn [changed_info i_name info_of i_color i_description i_priority]. fold n.
  rewrite E1, E2. cbn [fst snd]. split; [|split; [|split; [|split]]].
  - cbn [run]. unfold update_group. eapply does_bind; [|apply does_ret].
    eapply does_bind; [exact Ha|]. eapply does_bind; [apply does_db_optional; [exact Hs|exact Hg]|].
    eapply does_bind; [apply does_lift_ok; reflexivity|]. eapply does_bind; [exact Hname|].
    eapply does_bind; [eapply does_db_execute; [exact Hs|apply Hup]|]. eapply does_bind; [apply does_forget|].
    eapply does_bind; [apply does_count; exact Hs|]. eapply does_bind; [apply does_count; exact Hs|]. exec Hs.
  - match goal with |- store_of (tables (db_of (logged _ _ _ _ _ _ _ (forgotten (with_tables (set_client_groups _ ?gs) _))))) = _ =>
      change (store_of (set_client_groups (tables (db_of s)) gs) = {| groups := <[id := changed_info body (info_of g)]>
        (groups (store_of (tables (db_of s)))); members := members (store_of (tables (db_of s)));
        bindings := bindings (store_of (tables (db_of s))) |}) end.
    rewrite store_groups. f_equal. apply group_by_id_Some in Hg as [Hg Hid].
    exact (keyed_change cg_id info_of _ (fun g => (cg_id g =? id)%Z) (change_group n _ _ _ _) id (ids_unique _ Hok)
      (fun r => Z.eqb_eq _ _) (fun r => eq_refl) g Hg Hid).
  - done.
  - by left.
  - done.
Qed.
End on_group.

(** The numbers the sequences of the three tables still give. *)
Definition sequences (serials : nat -> Z) (t : Db) : Prop :=
  unused serials 0 (map cg_id (client_groups t)) /\ unused serials 0 (map cgm_id (client_group_memberships t)) /\
  unused serials 0 (map cgr_id (client_group_rules t)).
Lemma call_does d p serials auth c s :
  db_works s -> groups_ok (tables (db_of s)) -> sequences serials (tables (db_of s)) -> fst (AdminUser d p s) = Ok auth ->
  implements d p serials c s.
Proof.
  intros Hs Hok (Hu1 & Hu2 & Hu3) Hauth. pose proof (does_AdminUser d p s) as Ha. rewrite Hauth in Ha.
  destruct c as [body|id body|id|id l|id l|body|id l|id ty body].
  - apply (gr_create d p serials auth); [done|done|done|]. by apply (proj1 Hu1).
  - by apply (gr_update d p serials auth).
  - by apply (gr_delete d p serials auth).
  - by apply (gr_add d p serials auth).
  - by apply (gr_remove d p serials auth).
  - by apply (gr_move d p serials auth).
  - by apply (gr_bind d p serials auth).
  - by apply (gr_unbind d p serials auth).
Qed.

(** C27: On a working connection every call of the groups API answers and does
    what the abstract store of groups, members and bindings says: names are
    trimmed and unique, a deleted group takes its members and bindings with
    it, adding counts the known clients that were not members, removing those
    that were, a move takes the clients out of the one group and into the
    other if that exists, binding stops at the first rule without a valid
    type, unbinding goes by the type of the query.  Nothing else changes. *)
Theorem groups_correct d p serials auth c s :
  db_works s -> groups_ok (tables (db_of s)) -> sequences serials (tables (db_of s)) -> fst (AdminUser d p s) = Ok auth ->
  exists s', does (run d p serials c) s (fst (spec (tables (db_of s)) (serials 0%nat) c (store_of (tables (db_of s))))) s' /\
    store_of (tables (db_of s')) = snd (spec (tables (db_of s)) (serials 0%nat) c (store_of (tables (db_of s)))) /\
    stored (tables (db_of s)) (tables (db_of s')).
Proof.
  intros Hs Hok Hseq Hauth. destruct (call_does d p serials auth c s Hs Hok Hseq Hauth) as (s' & Hr & Hst & Hsto & _).
  by exists s'.
Qed.

(** C22: When every client is served under the configuration the tables give,
    this stays so over every call of the groups API but two: moves, and
    bindings one of whose later rules has no valid type, which store their
    part and leave the DNS handler with what it read before. *)
Theorem configs_current `{!MokaDoc} d p serials auth c s :
  db_works s -> groups_ok (tables (db_of s)) -> sequences serials (tables (db_of s)) -> fst (AdminUser d p s) = Ok auth ->
  Handler.configs_built (dns_handler s) -> ~ leaves_stale c -> Handler.current (dns_handler s) ->
  exists r s', does (run d p serials c) s r s' /\ Handler.current (dns_handler s').
Proof.
  intros Hs Hok Hseq Hauth Hb Hno Hcur.
  destruct (call_does d p serials auth c s Hs Hok Hseq Hauth) as (s' & Hr & _ & _ & Hcache & Hf).
  assert (Hs' : db_works (dns_handler s')) by (intros n; change (faults (db_of s') n = false); by rewrite Hf).
  eexists _, s'. split; [exact Hr|]. destruct Hcache as [He|[He [Hsame|Hst]]].
  - by apply (Handler.emptied_current (dns_handler s)).
  - by apply (Handler.current_same (dns_handler s)).
  - done.
Qed.

End spec.
End GroupsSpec.

(** ** Concrete calls *)

Module GroupsWitness.
Import AsciiUnicode RefRegex RefJson RefValue RefIpNet RefMoka RefRng RefHickory RefResolver RefCrypto.
Import Api AppWitness Groups GroupsProps GroupsSpec.

(** A client, a group with a rule, and the client's table with the integer
    column the DNS handler reads. *)
Definition tv : Client :=
  {| c_id := lit "c1"; c_name := lit "tv"; c_identifiers := to_string (ClientsWitness.ips ["10.0.0.2"%string]);
     c_upstreams := None; c_filter_enabled := SqlInt 1; c_tags := None; c_created_at := []; c_updated_at := [] |}.
Definition kids : ClientGroup :=
  {| cg_id := 7; cg_name := lit "kids"; cg_color := []; cg_description := None; cg_priority := 0;
     cg_created_at := []; cg_updated_at := [] |}.
Definition rule1 : CustomRule :=
  {| cr_id := lit "r1"; cr_rule := lit "||games.com^"; cr_comment := None; cr_is_enabled := true; cr_created_by := [];
     cr_created_at := []; cr_expires_at := None |}.
Definition bound1 : ClientGroupRule :=
  {| cgr_id := 3; cgr_group_id := 7; cgr_rule_id := lit "r1"; cgr_rule_type := lit "custom_rule"; cgr_priority := 0;
     cgr_created_at := [] |}.
Definition tables1 : Db :=
  set_client_group_rules (set_client_groups (set_custom_rules (set_clients empty_db [tv]) [rule1]) [kids]) [bound1].
Definition serials (n : nat) : Z := (Z.of_nat n + 10)%Z.

Lemma gr_tables1_ok : groups_ok tables1.
Proof.
  constructor.
  1-4: apply (bool_decide_unpack _); vm_compute; exact I.
  - intros m Hm%not_elem_of_nil. done.
  - intros r ->%list_elem_of_singleton. exists kids. split; [by left|done].
  - intros r ->%list_elem_of_singleton. done.
Qed.
Lemma serials_unused used : forallb (fun z => (z <? 10)%Z) used = true -> unused serials 0 used.
Proof.
  intros Hall. split.
  - intros n _ Hin%list_elem_of_In. rewrite forallb_forall in Hall. specialize (Hall _ Hin). unfold serials in Hall. lia.
  - unfold serials. lia.
Qed.
Lemma tables1_sequences : sequences serials tables1.
Proof. split; [|split]; apply serials_unused; reflexivity. Qed.

Definition add : Call := AddClients 7 [lit "c1"; lit "nobody"; lit "c1"].
(** Adding counts the one client that exists, once; the bindings stay; a
    binding without a valid type stops the rest. *)
Example gr_calls_test :
  (fst (run today admin serials add (app tables1)),
   fst (run today admin serials (RemoveClients 7 [lit "c1"]) (snd (run today admin serials add (app tables1)))),
   fst (run today admin serials (CreateGroup {| cgq_name := lit " kids "; cgq_color := None; cgq_description := None; cgq_priority := None |})
     (app tables1)),
   fst (run today admin serials (UnbindRules 7 None {| bur_rule_ids := [lit "r1"]; bur_rule_type := lit "custom_rule" |}) (app tables1)))
  = (Ok 1%nat, Ok 1%nat, Err (name_taken (lit "kids")), Ok 0%nat).
Proof. vm_compute. reflexivity. Qed.

(** A client asks, is moved into the group with the rule, and asks again a
    second later: the configuration it is served under has no rules. *)
Definition has_rules (r : result Handler.ClientConfig Handler.HandlerError) : bool :=
  match r with Ok c => bool_decide (is_Some (Handler.group_ruleset c)) | Err _ => false end.
Example move_stale_test :
  let asks now s := Handler.get_client_config now (lit "10.0.0.2") (dns_handler s) in
  let s0 := app tables1 in
  let s1 := set_dns_handler (snd (asks 0 s0)) s0 in
  let move := MoveClients {| bmr_client_ids := [lit "c1"]; bmr_from_group_id := None; bmr_to_group_id := Some 7%Z |} in
  let after c := snd (run today admin serials c s1) in
  (has_rules (fst (asks (secs 1) (after move))), has_rules (Ok (Handler.config_now (lit "10.0.0.2") (tables (db_of (after move))))),
   has_rules (fst (asks (secs 1) (after add)))) = (false, true, true).
Proof. vm_compute. reflexivity. Qed.

Lemma groups_invariant_witness :
  groups_ok (tables (db_of (run_all [(today, admin, serials, add); (today, admin, serials, DeleteGroup 7)]
    (app_with (N.eqb 12) tables1)))).
Proof. apply (groups_invariant [(today, admin, serials, add); (today, admin, serials, DeleteGroup 7)]). exact gr_tables1_ok. Defined.
Lemma groups_correct_witness :
  exists s', does (run today admin serials add) (app tables1) (Ok 1%nat) s' /\
    members (store_of (tables (db_of s'))) = {[(lit "c1", 7%Z)]}.
Proof.
  destruct (groups_correct today admin serials AuthWitness.ann add (app tables1)) as (s' & Hr & Hst & _).
  - apply app_works.
  - exact gr_tables1_ok.
  - exact tables1_sequences.
  - apply admin_admin.
  - exists s'. change (tables (db_of (app tables1))) with tables1 in *.
    assert (Hspec : spec tables1 (serials 0) add (store_of tables1) =
      (Ok 1%nat, {| groups := groups (store_of tables1); members := {[(lit "c1", 7%Z)]}; bindings := bindings (store_of tables1) |}))
      by (vm_compute; reflexivity).
    rewrite Hspec in Hr, Hst. split; [exact Hr|]. by rewrite Hst.
Defined.
Lemma configs_current_witness :
  exists r s', does (run today admin serials add) (app tables1) r s' /\ Handler.current (dns_handler s').
Proof.
  apply (configs_current today admin serials AuthWitness.ann add (app tables1)).
  - apply app_works.
  - exact gr_tables1_ok.
  - exact tables1_sequences.
  - apply admin_admin.
  - exists []. vm_compute. reflexivity.
  - intros [].
  - apply (Handler.emptied_current (dns_handler (app tables1))); [exists []; vm_compute; reflexivity|reflexivity|by intros n].
Defined.
End GroupsWitness.
