(* ===== verification/Settings.v ===== *)
(** * The settings of the API: src/api/handlers/settings.rs

    The settings are texts by key.  An update goes through the fields of its
    body one after the other, each with its check, its statement and what it
    reloads; a check that fails ends the call there. *)
From S2P Require Import Prelude RustStr IpAddr Regex Rules Acl Moka Hickory Cache Db DbLogic Filter Resolver.
From S2P Require Import UpstreamPool Handler HandlerTests Api App Auth AppTests.
Local Open Scope N_scope.

Record UpdateDnsSettingsRequest := {
  upstreams : option (list str);
  cache_ttl : option N;
  query_log_retention_days : option N;
  stats_retention_days : option N;
  safe_search_enabled : option bool;
  parental_control_enabled : option bool;
  parental_control_level : option str;
  upstream_strategy : option str;
  acl_allowed_networks : option (list str);
  acl_denied_networks : option (list str) }.

Module Settings.
Section settings.
Context `{RustUnicode, RegexEngine, SerdeJson, Collation, IpNetCrate, Moka, Rng,
  Hickory, !HickoryResolver, !DnsCodec, Jwt}.
Import Api.

(** ** Reading *)

Record DnsSettings := {
  ds_cache_ttl : N; ds_query_log_retention_days : N; ds_stats_retention_days : N; ds_safe_search_enabled : bool;
  ds_parental_control_enabled : bool; ds_parental_control_level : str; ds_upstream_strategy : str;
  ds_acl_allowed_networks : list str; ds_acl_denied_networks : list str }.
Definition parse_u64 : str -> option N := parse_uint (2 ^ 64 - 1).
Definition keys : list str := map (fun k : string => lit k)
  ["dns_cache_ttl"; "query_log_retention_days"; "stats_retention_days"; "safe_search_enabled"; "parental_control_enabled";
   "parental_control_level"; "upstream_strategy"; "acl_allowed_networks"; "acl_denied_networks"]%string.
(** The values of a map of the settings that is read with [get]. *)
Definition parse_settings (m : gmap str str) : DnsSettings :=
  let get (k d : string) : str := default (lit d) (m !! lit k) in
  {| ds_cache_ttl := default 300 (parse_u64 (get "dns_cache_ttl" "300"%string));
     ds_query_log_retention_days := default 30 (parse_u64 (get "query_log_retention_days" "30"%string));
     ds_stats_retention_days := default 90 (parse_u64 (get "stats_retention_days" "90"%string));
     ds_safe_search_enabled := get "safe_search_enabled" "false"%string =s? "true";
     ds_parental_control_enabled := get "parental_control_enabled" "false"%string =s? "true";
     ds_parental_control_level := get "parental_control_level" "none"%string;
     ds_upstream_strategy := get "upstream_strategy" "priority"%string;
     ds_acl_allowed_networks := default [] (json_strings (get "acl_allowed_networks" "[]"%string));
     ds_acl_denied_networks := default [] (json_strings (get "acl_denied_networks" "[]"%string)) |}.
(** A statement that fails is taken for no rows. *)
Definition get_dns (d : Draws) (q : Parts) : M App AppError DnsSettings :=
  AdminUser d q ;;;
  let! rows := catch (E := DbError) (fetch_all (fun t => map_to_list (filter (fun kv => kv.1 ∈ keys) (settings t)))) in
  let m : gmap str str := match rows with Ok rows => list_to_map rows | Err _ => ∅ end in
  ret (parse_settings m).

(** ** Updating *)

(** [INSERT .. ON CONFLICT (key) DO UPDATE SET value = $1] *)
Definition put (key : str) (value : str) : M App AppError unit :=
  db (execute (fun t => Ok (tt, set_settings t (<[key := value]> (settings t))))).
Definition flag (b : bool) : str := lit (if b then "true" else "false")%string.
(** [if let Some(..) = body.field { .. }] *)
Definition when_some {A} (o : option A) (f : A -> M App AppError unit) : M App AppError unit :=
  match o with Some a => f a | None => ret tt end.

Definition ttl_error : AppError := Validation "cache_ttl must be between 0 and 86400 seconds".
Definition days_error (key : str) : AppError := Validation (key ++ lit " must be between 1 and 365").
Definition level_error : AppError :=
  Validation "parental_control_level must be one of: none, basic, standard, strict".
Definition strategy_error : AppError :=
  Validation "upstream_strategy must be one of: priority, fastest, load_balance".
Definition cidr_error (bad : list str) : AppError := Validation (lit "Invalid CIDR entries: " ++ join (lit ", ") bad).
Definition one_of (l : list string) (s : str) : bool := existsb (fun x : string => s =s? lit x) l.
Definition levels : list string := ["none"; "basic"; "standard"; "strict"]%string.
Definition strategies : list string := ["priority"; "fastest"; "load_balance"]%string.

Definition update_ttl (ttl : N) : M App AppError unit :=
  if 86400 <? ttl then fail ttl_error else put (lit "dns_cache_ttl") (show_N ttl).
Definition update_days (key : str) (days : N) : M App AppError unit :=
  if (days =? 0) || (365 <? days) then fail (days_error key) else put key (show_N days).
Definition update_flag (d : Draws) (key : str) (enabled : bool) : M App AppError unit :=
  put key (flag enabled) ;;; try_reload_filter d.
Definition update_level (d : Draws) (level : str) : M App AppError unit :=
  if negb (one_of levels level) then fail level_error
  else put (lit "parental_control_level") level ;;; try_reload_filter d.

Definition current_networks (key : str) : M App AppError (list str) :=
  let! v := db (fetch_optional (setting key)) in ret (default [] (v ≫= json_strings)).
Definition update_acl (allowed denied : option (list str)) : M App AppError unit :=
  if bool_decide (is_Some allowed) || bool_decide (is_Some denied) then
    let! current_allowed := current_networks (lit "acl_allowed_networks") in
    let! current_denied := current_networks (lit "acl_denied_networks") in
    let new_allowed := default current_allowed allowed in
    let new_denied := default current_denied denied in
    let bad := Acl.validate_cidrs new_allowed ++ Acl.validate_cidrs new_denied in
    if negb (bool_decide (bad = [])) then fail (cidr_error bad)
    else
      put (lit "acl_allowed_networks") (json_of_strings new_allowed) ;;;
      put (lit "acl_denied_networks") (json_of_strings new_denied) ;;;
      update_handler (Handler.reload_acl new_allowed new_denied)
  else ret tt.
Definition update_strategy (d : Draws) (strategy : str) : M App AppError unit :=
  if negb (one_of strategies strategy) then fail strategy_error
  else put (lit "upstream_strategy") strategy ;;; try_reload_upstreams d.

(** [upstreams] is only warned about. *)
Definition update_dns (d : Draws) (p : Parts) (body : UpdateDnsSettingsRequest) : M App AppError unit :=
  let ip := ClientIp p in
  let! admin := AdminUser d p in
  when_some (cache_ttl body) update_ttl ;;;
  when_some (query_log_retention_days body) (update_days (lit "query_log_retention_days")) ;;;
  when_some (stats_retention_days body) (update_days (lit "stats_retention_days")) ;;;
  when_some (safe_search_enabled body) (update_flag d (lit "safe_search_enabled")) ;;;
  when_some (parental_control_enabled body) (update_flag d (lit "parental_control_enabled")) ;;;
  when_some (parental_control_level body) (update_level d) ;;;
  update_acl (acl_allowed_networks body) (acl_denied_networks body) ;;;
  when_some (upstream_strategy body) (update_strategy d) ;;;
  log_action d (sub admin) (username admin) "update" "settings" None None ip.

(** ** What an update does *)

(** The fields as changes of the texts, each of which can be refused. *)
Definition Change : Type := gmap str str -> result (gmap str str) AppError.
Definition change_some {A} (o : option A) (f : A -> Change) : Change :=
  match o with Some a => f a | None => Ok end.
Definition networks (key : str) (m : gmap str str) : list str := default [] ((m !! key) ≫= json_strings).
Definition acl_change (allowed denied : option (list str)) : Change := fun m =>
  if bool_decide (is_Some allowed) || bool_decide (is_Some denied) then
    let new_allowed := default (networks (lit "acl_allowed_networks") m) allowed in
    let new_denied := default (networks (lit "acl_denied_networks") m) denied in
    let bad := Acl.validate_cidrs new_allowed ++ Acl.validate_cidrs new_denied in
    if negb (bool_decide (bad = [])) then Err (cidr_error bad)
    else Ok (<[lit "acl_denied_networks" := json_of_strings new_denied]>
              (<[lit "acl_allowed_networks" := json_of_strings new_allowed]> m))
  else Ok m.
Definition ttl_change (ttl : N) : Change := fun m =>
  if 86400 <? ttl then Err ttl_error else Ok (<[lit "dns_cache_ttl" := show_N ttl]> m).
Definition days_change (key : str) (days : N) : Change := fun m =>
  if (days =? 0) || (365 <? days) then Err (days_error key) else Ok (<[key := show_N days]> m).
Definition flag_change (key : str) (b : bool) : Change := fun m => Ok (<[key := flag b]> m).
Definition level_change (level : str) : Change := fun m =>
  if negb (one_of levels level) then Err level_error else Ok (<[lit "parental_control_level" := level]> m).
Definition strategy_change (strategy : str) : Change := fun m =>
  if negb (one_of strategies strategy) then Err strategy_error else Ok (<[lit "upstream_strategy" := strategy]> m).
Definition changes (body : UpdateDnsSettingsRequest) : list Change :=
  [change_some (cache_ttl body) ttl_change;
   change_some (query_log_retention_days body) (days_change (lit "query_log_retention_days"));
   change_some (stats_retention_days body) (days_change (lit "stats_retention_days"));
   change_some (safe_search_enabled body) (flag_change (lit "safe_search_enabled"));
   change_some (parental_control_enabled body) (flag_change (lit "parental_control_enabled"));
   change_some (parental_control_level body) level_change;
   acl_change (acl_allowed_networks body) (acl_denied_networks body);
   change_some (upstream_strategy body) strategy_change].
(** One after the other, up to the first that is refused: what came before
    it stays. *)
Fixpoint apply_changes (fs : list Change) (m : gmap str str) : result unit AppError * gmap str str :=
  match fs with
  | [] => (Ok tt, m)
  | f :: fs' => match f m with Ok m' => apply_changes fs' m' | Err e => (Err e, m) end
  end.

(** The access list of the stored networks. *)
Definition stored_acl (m : gmap str str) : Acl.Acl :=
  Acl.from_cidrs (networks (lit "acl_allowed_networks") m) (networks (lit "acl_denied_networks") m).
(** The engine and the access list are those of the settings. *)
Definition in_force (d : Draws) (s : App) : Prop :=
  App.filter_live (d_text d) s /\ Handler.acl (dns_handler s) = stored_acl (settings (tables (db_of s))).

(** What a field leaves: the rows but the settings, the connection, and the
    engine and access list in force. *)
Definition keeps_up (d : Draws) (m : gmap str str) (s s' : App) : Prop :=
  tables (db_of s') = set_settings (tables (db_of s)) m /\ faults (db_of s') = faults (db_of s) /\
  (in_force d s -> in_force d s') /\ auth_of s' = auth_of s.
(** A field and its change of the texts. *)
Definition simulates (d : Draws) (op : M App AppError unit) (f : Change) : Prop :=
  forall s, db_works s ->
    match f (settings (tables (db_of s))) with
    | Ok m => exists s', does op s (Ok tt) s' /\ keeps_up d m s s'
    | Err e => does op s (Err e) s
    end.

Lemma set_settings_same t : set_settings t (settings t) = t.
Proof. by destruct t. Qed.
Lemma keeps_up_refl d s : keeps_up d (settings (tables (db_of s))) s s.
Proof. unfold keeps_up. by rewrite set_settings_same. Qed.
Lemma does_put k v s : db_works s -> does (put k v) s (Ok tt)
  (with_tables (set_settings (tables (db_of s)) (<[k := v]> (settings (tables (db_of s))))) s).
Proof. intros Hs. unfold put. exec Hs. Qed.

Definition engine_keys : list str := map (fun k : string => lit k)
  ["safe_search_enabled"; "parental_control_enabled"; "parental_control_level"]%string.
Definition acl_keys : list str := map (fun k : string => lit k) ["acl_allowed_networks"; "acl_denied_networks"]%string.
Definition setting_stored (k v : str) (s : App) : App :=
  with_tables (set_settings (tables (db_of s)) (<[k := v]> (settings (tables (db_of s))))) s.
Lemma other_key_live d k v s : k ∉ engine_keys -> App.filter_live (d_text d) s -> App.filter_live (d_text d) (setting_stored k v s).
Proof.
  intros Hk [Hr Hw].
  assert (Hin : forall n x, engine_keys !! n = Some x ->
    setting x (set_settings (tables (db_of s)) (<[k := v]> (settings (tables (db_of s))))) = setting x (tables (db_of s))).
  { intros n x Hx. unfold setting. cbn [settings set_settings]. apply lookup_insert_ne. intros <-.
    by apply list_elem_of_lookup_2 in Hx. }
  pose proof (Hin 0%nat _ eq_refl) as H0'. pose proof (Hin 1%nat _ eq_refl) as H1'. pose proof (Hin 2%nat _ eq_refl) as H2'.
  cbn [lit engine_keys map] in H0', H1', H2'. split.
  - change (FilterEngine.rules (App.engine s) = FilterEngine.rules (App.loaded (d_text d)
      (set_settings (tables (db_of s)) (<[k := v]> (settings (tables (db_of s))))) (App.engine s))).
    rewrite Hr. unfold App.loaded, FilterEngine.parental_lines, FilterEngine.setting_is. cbn [FilterEngine.rules].
    by rewrite H1', H2'.
  - change (FilterEngine.rewrites (App.engine s) = FilterEngine.rewrites_table
      (set_settings (tables (db_of s)) (<[k := v]> (settings (tables (db_of s)))))).
    rewrite Hw. unfold FilterEngine.rewrites_table, FilterEngine.setting_is. by rewrite H0'.
Qed.
Lemma other_key_acl k v m : k ∉ acl_keys -> stored_acl (<[k := v]> m) = stored_acl m.
Proof.
  intros Hk. unfold stored_acl, networks.
  do 2 (rewrite lookup_insert_ne; [|intros ->; apply Hk; unfold acl_keys; set_solver]). done.
Qed.
Lemma other_key_force d k v s : k ∉ engine_keys ++ acl_keys -> in_force d s -> in_force d (setting_stored k v s).
Proof.
  intros [Hk1 Hk2]%not_elem_of_app [Hl Ha]. split; [by apply other_key_live|].
  change (Handler.acl (dns_handler s) = stored_acl (<[k := v]> (settings (tables (db_of s))))). by rewrite other_key_acl.
Qed.
Lemma reloaded_force d k v s :
  k ∉ acl_keys -> Handler.acl (dns_handler s) = stored_acl (settings (tables (db_of s))) ->
  in_force d (reloaded d (with_tables (set_settings (tables (db_of s)) (<[k := v]> (settings (tables (db_of s))))) s)).
Proof.
  intros Hk Ha. split; [apply reloaded_live|].
  change (Handler.acl (dns_handler s) = stored_acl (<[k := v]> (settings (tables (db_of s))))). rewrite Ha.
  by rewrite other_key_acl.
Qed.

Lemma sim_some {A} d (o : option A) op f : (forall a, simulates d (op a) (f a)) -> simulates d (when_some o op) (change_some o f).
Proof.
  intros Hs. destruct o as [a|]; [apply Hs|]. intros s _. exists s. split; [apply does_ret|apply keeps_up_refl].
Qed.
(** Storing under a key nothing else depends on. *)
Lemma sim_put d (b : bool) e k v :
  k ∉ engine_keys ++ acl_keys ->
  simulates d (if b then fail e else put k v) (fun m => if b then Err e else Ok (<[k := v]> m)).
Proof.
  intros Hk s Hs. destruct b; [apply does_fail|]. eexists. split; [by apply does_put|].
  split; [done|]. split; [done|]. split; [|done]. by apply other_key_force.
Qed.
(** Storing under a key the engine reads. *)
Lemma sim_put_reload d (b : bool) e k v :
  k ∉ acl_keys ->
  simulates d (if b then fail e else put k v ;;; try_reload_filter d) (fun m => if b then Err e else Ok (<[k := v]> m)).
Proof.
  intros Hk s Hs. destruct b; [apply does_fail|]. eexists.
  split; [eapply does_bind; [by apply does_put|apply does_try_reload_filter; exact Hs]|].
  split; [done|]. split; [done|]. split; [|done]. intros [_ Ha]. by apply reloaded_force.
Qed.
Lemma sim_strategy d strategy : simulates d (update_strategy d strategy) (strategy_change strategy).
Proof.
  intros s Hs. unfold update_strategy, strategy_change. destruct (negb _); [apply does_fail|]. eexists.
  split; [eapply does_bind; [by apply does_put|apply does_try_reload_upstreams; exact Hs]|].
  split; [done|]. split; [done|]. split; [|done]. intros Hf.
  exact (other_key_force d (lit "upstream_strategy") strategy s ltac:(apply (bool_decide_unpack _); vm_compute; exact I) Hf).
Qed.

Lemma does_networks key s : db_works s -> does (current_networks key) s (Ok (networks key (settings (tables (db_of s))))) s.
Proof. intros Hs. unfold current_networks. exec Hs. Qed.
Lemma sim_acl `{!SerdeJsonDoc} d allowed denied : simulates d (update_acl allowed denied) (acl_change allowed denied).
Proof.
  intros s Hs. unfold update_acl, acl_change. destruct (_ || _).
  2: { exists s. split; [apply does_ret|apply keeps_up_refl]. }
  set (m := settings (tables (db_of s))).
  set (al := default (networks (lit "acl_allowed_networks") m) allowed). set (de := default (networks (lit "acl_denied_networks") m) denied).
  pose proof (does_networks (lit "acl_allowed_networks") s Hs) as Hn1. pose proof (does_networks (lit "acl_denied_networks") s Hs) as Hn2.
  destruct (negb (bool_decide (Acl.validate_cidrs al ++ Acl.validate_cidrs de = []))) eqn:Hbad.
  { eapply does_bind; [exact Hn1|]. eapply does_bind; [exact Hn2|]. cbn zeta. fold m al de. rewrite Hbad. apply does_fail. }
  set (t1 := set_settings (tables (db_of s)) (<[lit "acl_allowed_networks" := json_of_strings al]> m)).
  assert (Hs1 : db_works (with_tables t1 s)) by exact Hs.
  pose proof (does_put (lit "acl_denied_networks") (json_of_strings de) _ Hs1) as Hp2.
  change (tables (db_of (with_tables t1 s))) with t1 in Hp2. rewrite with_tables_tables in Hp2.
  eexists. split.
  - eapply does_bind; [exact Hn1|]. eapply does_bind; [exact Hn2|]. cbn zeta. fold m al de. rewrite Hbad.
    eapply does_bind; [by apply does_put|]. eapply does_bind; [exact Hp2|]. by apply does_update_handler.
  - split; [done|]. split; [done|]. split; [|done]. intros [Hl _]. split.
    { apply (other_key_live d (lit "acl_allowed_networks") (json_of_strings al)) in Hl;
        [|apply (bool_decide_unpack _); vm_compute; exact I].
      apply (other_key_live d (lit "acl_denied_networks") (json_of_strings de)) in Hl;
        [|apply (bool_decide_unpack _); vm_compute; exact I]. exact Hl. }
    change (Acl.from_cidrs al de = stored_acl (<[lit "acl_denied_networks" := json_of_strings de]>
      (<[lit "acl_allowed_networks" := json_of_strings al]> m))).
    unfold stored_acl, networks. rewrite lookup_insert_eq, lookup_insert_ne, lookup_insert_eq by done.
    cbn [mbind option_bind]. by rewrite !json_roundtrip.
Qed.

Definition steps (ops : list (M App AppError unit)) (k : M App AppError unit) : M App AppError unit :=
  fold_right (fun op k => op ;;; k) k ops.
Lemma steps_does d ops fs k s :
  Forall2 (simulates d) ops fs -> db_works s ->
  match apply_changes fs (settings (tables (db_of s))) with
  | (Ok _, m) => exists s', keeps_up d m s s' /\ forall r s'', does k s' r s'' -> does (steps ops k) s r s''
  | (Err e, m) => exists s', keeps_up d m s s' /\ does (steps ops k) s (Err e) s'
  end.
Proof.
  intros Hall. revert s. induction Hall as [|op f ops fs Hop Hall IH]; intros s Hs; cbn [apply_changes steps fold_right].
  - exists s. split; [apply keeps_up_refl|done].
  - specialize (Hop s Hs). destruct (f (settings (tables (db_of s)))) as [m1|e].
    2: { exists s. split; [apply keeps_up_refl|]. by apply does_bind_err. }
    destruct Hop as (s1 & Hd & Ht & Hf & Hk & Hau). assert (Hs1 : db_works s1) by (intros n; by rewrite Hf).
    specialize (IH s1 Hs1). rewrite Ht in IH. cbn [settings set_settings] in IH.
    destruct (apply_changes fs m1) as [[[]|e] m]; destruct IH as (s' & (Ht' & Hf' & Hk' & Hau') & Hgo); exists s'.
    + split; [split; [by rewrite Ht', Ht|split; [by rewrite Hf'|split; [auto|by rewrite Hau']]]|].
      intros r s'' Hr. eapply does_bind; [exact Hd|]. by apply Hgo.
    + split; [split; [by rewrite Ht', Ht|split; [by rewrite Hf'|split; [auto|by rewrite Hau']]]|]. eapply does_bind; [exact Hd|exact Hgo].
Qed.

Lemma all_simulate `{!SerdeJsonDoc} d body :
  Forall2 (simulates d)
    [when_some (cache_ttl body) update_ttl;
     when_some (query_log_retention_days body) (update_days (lit "query_log_retention_days"));
     when_some (stats_retention_days body) (update_days (lit "stats_retention_days"));
     when_some (safe_search_enabled body) (update_flag d (lit "safe_search_enabled"));
     when_some (parental_control_enabled body) (update_flag d (lit "parental_control_enabled"));
     when_some (parental_control_level body) (update_level d);
     update_acl (acl_allowed_networks body) (acl_denied_networks body);
     when_some (upstream_strategy body) (update_strategy d)] (changes body).
Proof.
  repeat apply List.Forall2_cons; [..|apply List.Forall2_nil].
  7: apply sim_acl.
  7: apply sim_some; intros; apply sim_strategy.
  1-3: apply sim_some; intros; apply sim_put; apply (bool_decide_unpack _); vm_compute; exact I.
  1-2: apply sim_some; intros; apply (sim_put_reload d false ttl_error); apply (bool_decide_unpack _); vm_compute; exact I.
  apply sim_some. intros. apply sim_put_reload. apply (bool_decide_unpack _). vm_compute. exact I.
Qed.

Lemma settings_update_does `{!SerdeJsonDoc} d p admin body s :
  db_works s -> fst (AdminUser d p s) = Ok admin ->
  let '(r, m) := apply_changes (changes body) (settings (tables (db_of s))) in
  exists s', does (update_dns d p body) s r s' /\
    tables (db_of s') = set_audit_log (set_settings (tables (db_of s)) m) (audit_log (tables (db_of s'))) /\
    (in_force d s -> in_force d s') /\ faults (db_of s') = faults (db_of s) /\ auth_of s' = auth_of s.
Proof.
  intros Hs Hauth. pose proof (does_AdminUser d p s) as Ha. rewrite Hauth in Ha.
  pose proof (steps_does d _ _ (log_action d (sub admin) (username admin) "update" "settings" None None (ClientIp p)) s
    (all_simulate d body) Hs) as Hsteps.
  destruct (apply_changes (changes body) (settings (tables (db_of s)))) as [[[]|e] m]; destruct Hsteps as (s' & (Ht & Hf & Hk & Hau) & Hgo).
  - exists (logged d admin "update" "settings" None None p s'). split; [|split; [|split; [|split]]].
    + eapply does_bind; [exact Ha|]. apply Hgo. apply does_logged. intros n. by rewrite Hf.
    + change (tables (db_of (logged d admin "update" "settings" None None p s'))) with
        (log_entry d (sub admin) (username admin) "update" "settings" None None (ClientIp p) (tables (db_of s'))).
      unfold log_entry. by rewrite Ht.
    + intros Hin. exact (Hk Hin).
    + exact Hf.
    + exact Hau.
  - exists s'. split; [|split; [|split; [exact Hk|by split]]].
    + eapply does_bind; [exact Ha|]. exact Hgo.
    + rewrite Ht. by destruct (tables (db_of s)).
Qed.

(** C26: On a working connection an update of the settings stores its fields
    one after the other up to the first that its check refuses, whose error
    it answers with while the fields before it stay stored; the access list of
    the DNS handler and the filter engine, if they were those of the settings
    before, are those of the settings after it, accepted or refused; nothing
    but the settings and the audit log changes. *)
Theorem update_dns_correct `{!SerdeJsonDoc} d p admin body s :
  db_works s -> fst (AdminUser d p s) = Ok admin ->
  let '(r, m) := apply_changes (changes body) (settings (tables (db_of s))) in
  exists s', does (update_dns d p body) s r s' /\
    tables (db_of s') = set_audit_log (set_settings (tables (db_of s)) m) (audit_log (tables (db_of s'))) /\
    (in_force d s -> in_force d s').
Proof.
  intros Hs Hauth. pose proof (settings_update_does d p admin body s Hs Hauth) as Hup. destruct (apply_changes _ _) as [r m].
  destruct Hup as (s' & Hd & Ht & Hk & _). by exists s'.
Qed.

(** ** What is read after an update *)

(** The settings with the fields of a body. *)
Definition merge (body : UpdateDnsSettingsRequest) (ds : DnsSettings) : DnsSettings :=
  {| ds_cache_ttl := default (ds_cache_ttl ds) (cache_ttl body);
     ds_query_log_retention_days := default (ds_query_log_retention_days ds) (query_log_retention_days body);
     ds_stats_retention_days := default (ds_stats_retention_days ds) (stats_retention_days body);
     ds_safe_search_enabled := default (ds_safe_search_enabled ds) (safe_search_enabled body);
     ds_parental_control_enabled := default (ds_parental_control_enabled ds) (parental_control_enabled body);
     ds_parental_control_level := default (ds_parental_control_level ds) (parental_control_level body);
     ds_upstream_strategy := default (ds_upstream_strategy ds) (upstream_strategy body);
     ds_acl_allowed_networks := default (ds_acl_allowed_networks ds) (acl_allowed_networks body);
     ds_acl_denied_networks := default (ds_acl_denied_networks ds) (acl_denied_networks body) |}.

Lemma lookup_put (m : gmap str str) k v k' : <[k := v]> m !! k' = if k =s? k' then Some v else m !! k'.
Proof.
  destruct (k =s? k') eqn:Hk; [apply str_eqb_eq in Hk as ->; apply lookup_insert_eq|].
  apply str_eqb_neq in Hk. by apply lookup_insert_ne.
Qed.
Ltac read_back := unfold parse_settings; rewrite ?lookup_put;
  repeat match goal with |- context [str_eqb ?a ?b] =>
    let r := eval vm_compute in (str_eqb a b) in lazymatch r with true => idtac | false => idtac end;
    change (str_eqb a b) with r end; cbn [default from_option id].
Lemma read_small n d : n <= 86400 -> default d (parse_u64 (show_N n)) = n.
Proof. intros Hn. unfold parse_u64. by rewrite parse_show_N by lia. Qed.

(** A body with some of the fields of another. *)
Definition body_of (ttl logs stats : option N) (safe parental : option bool) (level strategy : option str)
    (allowed denied : option (list str)) : UpdateDnsSettingsRequest :=
  {| upstreams := None; cache_ttl := ttl; query_log_retention_days := logs; stats_retention_days := stats;
     safe_search_enabled := safe; parental_control_enabled := parental; parental_control_level := level;
     upstream_strategy := strategy; acl_allowed_networks := allowed; acl_denied_networks := denied |}.
Lemma read_ttl o m m' : change_some o ttl_change m = Ok m' ->
  parse_settings m' = merge (body_of o None None None None None None None None) (parse_settings m).
Proof.
  destruct o as [n|]; cbn [change_some]; [|by intros [= ->]]. unfold ttl_change.
  destruct (86400 <? n) eqn:Hn; [done|]. intros [= <-]. apply N.ltb_ge in Hn. read_back. by rewrite read_small.
Qed.
Lemma small_days n : (n =? 0) || (365 <? n) = false -> n <= 86400.
Proof. intros [_ Hn%N.ltb_ge]%orb_false_iff. lia. Qed.
Lemma read_logs o m m' : change_some o (days_change (lit "query_log_retention_days")) m = Ok m' ->
  parse_settings m' = merge (body_of None o None None None None None None None) (parse_settings m).
Proof.
  destruct o as [n|]; cbn [change_some]; [|by intros [= ->]]. unfold days_change.
  destruct (_ || _) eqn:Hn; [done|]. intros [= <-]. apply small_days in Hn. read_back. by rewrite read_small.
Qed.
Lemma read_stats o m m' : change_some o (days_change (lit "stats_retention_days")) m = Ok m' ->
  parse_settings m' = merge (body_of None None o None None None None None None) (parse_settings m).
Proof.
  destruct o as [n|]; cbn [change_some]; [|by intros [= ->]]. unfold days_change.
  destruct (_ || _) eqn:Hn; [done|]. intros [= <-]. apply small_days in Hn. read_back. by rewrite read_small.
Qed.
Lemma read_flag (b : bool) : (flag b =s? "true") = b.
Proof. by destruct b. Qed.
Lemma read_safe o m m' : change_some o (flag_change (lit "safe_search_enabled")) m = Ok m' ->
  parse_settings m' = merge (body_of None None None o None None None None None) (parse_settings m).
Proof.
  destruct o as [b|]; cbn [change_some]; [|by intros [= ->]]. intros [= <-]. read_back. by rewrite read_flag.
Qed.
Lemma read_parental o m m' : change_some o (flag_change (lit "parental_control_enabled")) m = Ok m' ->
  parse_settings m' = merge (body_of None None None None o None None None None) (parse_settings m).
Proof.
  destruct o as [b|]; cbn [change_some]; [|by intros [= ->]]. intros [= <-]. read_back. by rewrite read_flag.
Qed.
Lemma read_level o m m' : change_some o level_change m = Ok m' ->
  parse_settings m' = merge (body_of None None None None None o None None None) (parse_settings m).
Proof.
  destruct o as [b|]; cbn [change_some]; [|by intros [= ->]]. unfold level_change. destruct (negb _); [done|].
  intros [= <-]. by read_back.
Qed.
Lemma read_strategy o m m' : change_some o strategy_change m = Ok m' ->
  parse_settings m' = merge (body_of None None None None None None o None None) (parse_settings m).
Proof.
  destruct o as [b|]; cbn [change_some]; [|by intros [= ->]]. unfold strategy_change. destruct (negb _); [done|].
  intros [= <-]. by read_back.
Qed.
Lemma read_networks `{!SerdeJsonDoc} key m : default [] (json_strings (default (lit "[]") (m !! key))) = networks key m.
Proof. unfold networks. destruct (m !! key) as [v|]; [done|]. cbn [default from_option id mbind option_bind]. by rewrite json_none. Qed.
Lemma read_acl `{!SerdeJsonDoc} allowed denied m m' : acl_change allowed denied m = Ok m' ->
  parse_settings m' = merge (body_of None None None None None None None allowed denied) (parse_settings m).
Proof.
  unfold acl_change. destruct (_ || _) eqn:Hany.
  2: { intros [= ->]. apply orb_false_iff in Hany as [Ha%bool_decide_eq_false Hd%bool_decide_eq_false].
       destruct allowed as [?|]; [destruct Ha; eauto|]. by destruct denied as [?|]; [destruct Hd; eauto|]. }
  destruct (negb _); [done|]. intros [= <-]. unfold merge. cbn [body_of acl_allowed_networks acl_denied_networks].
  assert (Hal : ds_acl_allowed_networks (parse_settings m) = networks (lit "acl_allowed_networks") m) by apply read_networks.
  assert (Hde : ds_acl_denied_networks (parse_settings m) = networks (lit "acl_denied_networks") m) by apply read_networks.
  rewrite Hal, Hde. read_back. by rewrite !json_roundtrip.
Qed.

Lemma read_after `{!SerdeJsonDoc} body m m' :
  apply_changes (changes body) m = (Ok tt, m') -> parse_settings m' = merge body (parse_settings m).
Proof.
  unfold changes. cbn [apply_changes].
  destruct (change_some (cache_ttl body) _ m) as [m1|] eqn:H1'; [|done]. apply read_ttl in H1'.
  destruct (change_some (query_log_retention_days body) _ m1) as [m2|] eqn:H2'; [|done]. apply read_logs in H2'.
  destruct (change_some (stats_retention_days body) _ m2) as [m3|] eqn:H3'; [|done]. apply read_stats in H3'.
  destruct (change_some (safe_search_enabled body) _ m3) as [m4|] eqn:H4'; [|done]. apply read_safe in H4'.
  destruct (change_some (parental_control_enabled body) _ m4) as [m5|] eqn:H5'; [|done]. apply read_parental in H5'.
  destruct (change_some (parental_control_level body) _ m5) as [m6|] eqn:H6'; [|done]. apply read_level in H6'.
  destruct (acl_change (acl_allowed_networks body) _ m6) as [m7|] eqn:H7'; [|done]. apply read_acl in H7'.
  destruct (change_some (upstream_strategy body) _ m7) as [m8|] eqn:H8'; [|done]. apply read_strategy in H8'.
  intros [= <-]. by rewrite H8', H7', H6', H5', H4', H3', H2', H1'.
Qed.

Lemma does_get_dns d p admin s :
  db_works s -> fst (AdminUser d p s) = Ok admin -> does (get_dns d p) s (Ok (parse_settings (settings (tables (db_of s))))) s.
Proof.
  intros Hs Hauth. pose proof (does_AdminUser d p s) as Ha. rewrite Hauth in Ha. unfold get_dns.
  set (m := settings (tables (db_of s))). set (kept := filter (fun kv : str * str => kv.1 ∈ keys) m).
  assert (Hl : forall k, k ∈ keys -> kept !! k = m !! k).
  { intros k Hk. apply option_eq. intros v. unfold kept. rewrite map_lookup_filter_Some. cbn [fst]. tauto. }
  assert (Hm : parse_settings kept = parse_settings m).
  { unfold parse_settings. rewrite !Hl; [done|..]; apply (bool_decide_unpack _); vm_compute; exact I. }
  rewrite <- Hm. eapply does_bind; [exact Ha|].
  eapply does_bind; [eapply does_catch; exact (does_query (fun t => Ok (map_to_list (filter (fun kv => kv.1 ∈ keys) (settings t)))) s Hs)|].
  cbn beta iota zeta. fold m kept. rewrite list_to_map_to_list. apply does_ret.
Qed.

(** On a working connection an accepted update is read back: the settings
    the API answers with after it are those before it with the fields of the
    body in place of their old values, whatever texts were stored before. *)
Theorem settings_roundtrip `{!SerdeJsonDoc} d p admin body s :
  db_works s -> fst (AdminUser d p s) = Ok admin ->
  fst (apply_changes (changes body) (settings (tables (db_of s)))) = Ok tt ->
  exists before s', does (get_dns d p) s (Ok before) s /\ does (update_dns d p body) s (Ok tt) s' /\
    does (get_dns d p) s' (Ok (merge body before)) s'.
Proof.
  intros Hs Hauth Hok. exists (parse_settings (settings (tables (db_of s)))).
  pose proof (settings_update_does d p admin body s Hs Hauth) as Hup.
  destruct (apply_changes (changes body) (settings (tables (db_of s)))) as [r m] eqn:Hc. cbn [fst] in Hok. subst r.
  destruct Hup as (s' & Hd & Ht & _ & Hf & Hauth'). exists s'. split; [by eapply does_get_dns|]. split; [exact Hd|].
  apply read_after in Hc. rewrite <- Hc. replace m with (settings (tables (db_of s'))) by (by rewrite Ht).
  apply (does_get_dns d p admin); [intros n; by rewrite Hf|]. by rewrite (AdminUser_same d p s s').
Qed.

End settings.
End Settings.

(** ** Concrete calls *)

Module SettingsWitness.
Import AsciiUnicode RefRegex RefJson RefIpNet RefMoka RefRng RefHickory RefResolver RefCrypto Api AppWitness Settings.

Definition tables1 : Db :=
  set_settings empty_db {[ lit "dns_cache_ttl" := lit "300"; lit "parental_control_level" := lit "none";
                           lit "acl_denied_networks" := lit "not json" ]}.
Definition safe_and_networks : UpdateDnsSettingsRequest :=
  body_of (Some 600) None None (Some true) None None None (Some [lit "10.0.0.0/8"]) None.
(** The second field is refused after the first is stored. *)
Definition half : UpdateDnsSettingsRequest := body_of (Some 600) (Some 0) None (Some true) None None None None None.

Example settings_test :
  (apply_changes (changes safe_and_networks) (settings tables1)).1 = Ok tt /\
  match update_dns today admin half (app tables1) with
  | (Err e, s') => e = days_error (lit "query_log_retention_days") /\ settings (tables (db_of s')) !! lit "dns_cache_ttl" = Some (lit "600")
  | _ => False
  end.
Proof. vm_compute. split; [reflexivity|]. split; reflexivity. Qed.

Lemma update_dns_correct_witness :
  exists s', does (update_dns today admin half) (app tables1) (Err (days_error (lit "query_log_retention_days"))) s' /\
    settings (tables (db_of s')) !! lit "dns_cache_ttl" = Some (lit "600").
Proof.
  pose proof (update_dns_correct today admin AuthWitness.ann half (app tables1) (app_works tables1) (admin_admin tables1)) as Hc.
  assert (Ha : apply_changes (changes half) (settings (tables (db_of (app tables1)))) =
    (Err (days_error (lit "query_log_retention_days")), <[lit "dns_cache_ttl" := lit "600"]> (settings tables1)))
    by (vm_compute; reflexivity).
  rewrite Ha in Hc. destruct Hc as (s' & Hd & Ht & _). exists s'. split; [exact Hd|]. rewrite Ht.
  cbn [settings set_settings set_audit_log]. apply lookup_insert_eq.
Defined.
Lemma settings_roundtrip_witness :
  exists before s', does (get_dns today admin) (app tables1) (Ok before) (app tables1) /\
    does (get_dns today admin) s' (Ok (merge safe_and_networks before)) s' /\ ds_acl_allowed_networks (merge safe_and_networks before) = [lit "10.0.0.0/8"].
Proof.
  destruct (settings_roundtrip today admin AuthWitness.ann safe_and_networks (app tables1)) as (before & s' & Hb & _ & Ha).
  - apply app_works.
  - apply admin_admin.
  - vm_compute. reflexivity.
  - exists before, s'. split; [exact Hb|]. split; [exact Ha|reflexivity].
Defined.
End SettingsWitness.
