(* ===== verification/FiltersApi.v ===== *)
(** * The filter lists of the API: src/api/handlers/filters.rs

    A list is a row with a URL; its rules are rows of the custom rules, told
    by their creator.  Creating a list with a URL and refreshing one start a
    synchronisation in the background. *)
From S2P Require Import Prelude RustStr IpAddr Regex Rules Acl Moka Hickory Cache Db DbLogic Filter Resolver.
From S2P Require Import UpstreamPool Handler HandlerTests Subscription Api App Auth AppTests Listing Tables.
Local Open Scope N_scope.

Record CreateFilterRequest := {
  cfr_name : str; cfr_url : option str; cfr_is_enabled : bool; cfr_update_interval_hours : Z }.
Record UpdateFilterRequest := {
  ufr_name : option str; ufr_url : option str; ufr_is_enabled : option bool; ufr_update_interval_hours : option Z }.

Module FiltersApi.
Import Subscription.
Section filters.
Context `{RustUnicode, RegexEngine, SerdeJson, Collation, IpNetCrate, Moka, Rng,
  Hickory, !HickoryResolver, !DnsCodec, Jwt, UrlCrate, HttpClient, RegexCaptures}.
Import Api.

(** ** The statements *)

Definition list_by_id (id : str) (t : Db) : option FilterList := row_named fl_id id (filter_lists t).
(** The unique index on [url] leaves out the rows without one. *)
Definition same_url (url : option str) (f : FilterList) : bool :=
  match url, fl_url f with Some u, Some v => u =s? v | _, _ => false end.
Definition insert_row (row : FilterList) (t : Db) : result (unit * Db) DbError :=
  if existsb (fun f => (fl_id f =s? fl_id row) || same_url (fl_url row) f) (filter_lists t) then Err UniqueViolation
  else Ok (tt, set_filter_lists t (filter_lists t ++ [row])).
Definition change_row (name : str) (url : option str) (is_enabled : bool) (hours : Z) (f : FilterList) : FilterList :=
  {| fl_id := fl_id f; fl_name := name; fl_url := url; fl_is_enabled := is_enabled; fl_rule_count := fl_rule_count f;
     fl_last_updated := fl_last_updated f; fl_created_at := fl_created_at f; fl_update_interval_hours := hours |}.
Definition update_row (id name : str) (url : option str) (is_enabled : bool) (hours : Z) (t : Db) : result (unit * Db) DbError :=
  let rows := filter_lists t in
  if existsb (fun f => fl_id f =s? id) rows && existsb (fun f => negb (fl_id f =s? id) && same_url url f) rows
  then Err UniqueViolation
  else Ok (tt, set_filter_lists t (change_named fl_id id (change_row name url is_enabled hours) rows)).
Definition delete_list (id : str) (t : Db) : result (nat * Db) DbError :=
  Ok (count_named fl_id id (filter_lists t), set_filter_lists t (without fl_id id (filter_lists t))).
Definition list_creator (id : str) : str := lit "filter:" ++ id.

(** ** The synchronisation in the background *)

(** The requests made so far decide what the next one is answered. *)
Definition on_sync {A} (history : list str) (m : M SyncState SyncError A) : M App AppError (result A SyncError * list str) := fun s =>
  let '(r, st) := m {| requests := history; sync_db := db_of s |} in
  (Ok (r, requests st), with_db s (sync_db st)).
(** The spawned task: its errors are logged. *)
Definition background_sync (d : Draws) (uuid : nat -> str) (history : list str) (task : str * str) : M App AppError unit :=
  let! r := on_sync history (sync_filter_list uuid (d_text d) (fst task) (snd task)) in
  match fst r with
  | Ok _ => try_reload_filter d
  | Err _ => ret tt
  end.

(** ** The handlers *)

Definition list_filters (d : Draws) (q : Parts) : M App AppError (list FilterList) :=
  AuthUser d q ;;;
  db (fetch_all (fun t => Listing.order_desc fl_created_at (filter_lists t))).

Definition duplicate_url : AppError := Conflict "A filter list with this URL already exists".
Definition create_error (e : DbError) : AppError := match e with UniqueViolation => duplicate_url | _ => Internal [] end.
Definition list_not_found (id : str) : AppError := NotFound (lit "Filter list " ++ id ++ lit " not found").

(** The row, and the task that is spawned. *)
Definition create (d : Draws) (p : Parts) (body : CreateFilterRequest) : M App AppError (FilterList * option (str * str)) :=
  let ip := ClientIp p in
  let! auth := AuthUser d p in
  let name := trim (cfr_name body) in
  if is_empty name then fail (Validation "Filter name cannot be empty")
  else
    let row := {| fl_id := d_uuid d; fl_name := name; fl_url := cfr_url body; fl_is_enabled := cfr_is_enabled body;
                  fl_rule_count := 0; fl_last_updated := None; fl_created_at := d_text d;
                  fl_update_interval_hours := cfr_update_interval_hours body |} in
    mmap_err create_error (execute (insert_row row)) ;;;
    let syncing := (fun url => (d_uuid d, url)) <$> cfr_url body in
    log_action d (sub auth) (username auth) "create" "filter" (Some (d_uuid d)) (Some name) ip ;;;
    ret (row, syncing).

Definition update (d : Draws) (p : Parts) (id : str) (body : UpdateFilterRequest) : M App AppError FilterList :=
  let ip := ClientIp p in
  let! auth := AuthUser d p in
  let! existing := db (fetch_optional (list_by_id id)) in
  let! old := lift (ok_or existing (list_not_found id)) in
  let name := default (fl_name old) (ufr_name body) in
  let url := match ufr_url body with Some u => Some u | None => fl_url old end in
  let is_enabled := default (fl_is_enabled old) (ufr_is_enabled body) in
  let hours := default (fl_update_interval_hours old) (ufr_update_interval_hours body) in
  db (execute (update_row id name url is_enabled hours)) ;;;
  reload_filter d ;;;
  log_action d (sub auth) (username auth) "update" "filter" (Some id) (Some name) ip ;;;
  ret (change_row name url is_enabled hours old).

Definition delete (d : Draws) (p : Parts) (id : str) : M App AppError unit :=
  let ip := ClientIp p in
  let! auth := AuthUser d p in
  db (execute (fun t => Ok (tt, delete_rules (list_creator id) t))) ;;;
  let! rows_affected := db (execute (delete_list id)) in
  if (rows_affected =? 0)%nat then fail (list_not_found id)
  else
    reload_filter d ;;;
    log_action d (sub auth) (username auth) "delete" "filter" (Some id) None ip.

(** The name, and the task that is spawned. *)
Definition refresh (d : Draws) (p : Parts) (id : str) : M App AppError (str * (str * str)) :=
  let ip := ClientIp p in
  let! auth := AuthUser d p in
  let! filter := db (fetch_optional (fun t => (fun f => (fl_name f, fl_url f)) <$> list_by_id id t)) in
  let! name_url := lift (ok_or filter (list_not_found id)) in
  let! url := lift (ok_or (snd name_url) (Validation "Cannot refresh local filter list (no URL configured)")) in
  log_action d (sub auth) (username auth) "refresh" "filter" (Some id) (Some (fst name_url)) ip ;;;
  ret (fst name_url, (id, url)).

(** ** What a call does *)

Inductive Call :=
| Create (body : CreateFilterRequest)
| Update (id : str) (body : UpdateFilterRequest)
| Delete (id : str)
| Refresh (id : str).
(** With the task that is spawned. *)
Definition run (d : Draws) (p : Parts) (c : Call) : M App AppError (option (str * str)) :=
  match c with
  | Create body => let! r := create d p body in ret (snd r)
  | Update id body => update d p id body ;;; ret None
  | Delete id => delete d p id ;;; ret None
  | Refresh id => let! r := refresh d p id in ret (Some (snd r))
  end.

Definition store_of (t : Db) : gmap str FilterList := view fl_id (fun f => f) (filter_lists t).
Definition url_taken (url : option str) (besides : option str) (m : gmap str FilterList) : Prop :=
  map_Exists (fun id f => url <> None /\ fl_url f = url /\ besides <> Some id) m.
#[local] Instance url_taken_dec url besides m : Decision (url_taken url besides m).
Proof. unfold url_taken. apply _. Defined.
Definition new_list (d : Draws) (body : CreateFilterRequest) : FilterList :=
  {| fl_id := d_uuid d; fl_name := trim (cfr_name body); fl_url := cfr_url body; fl_is_enabled := cfr_is_enabled body;
     fl_rule_count := 0; fl_last_updated := None; fl_created_at := d_text d;
     fl_update_interval_hours := cfr_update_interval_hours body |}.
Definition updated (body : UpdateFilterRequest) (f : FilterList) : FilterList :=
  change_row (default (fl_name f) (ufr_name body)) (match ufr_url body with Some u => Some u | None => fl_url f end)
    (default (fl_is_enabled f) (ufr_is_enabled body)) (default (fl_update_interval_hours f) (ufr_update_interval_hours body)) f.

(** The lists after a call and the task it spawns, or why it is refused. *)
Definition spec (d : Draws) (c : Call) (m : gmap str FilterList) : result (gmap str FilterList * option (str * str)) AppError :=
  match c with
  | Create body =>
      if is_empty (trim (cfr_name body)) then Err (Validation "Filter name cannot be empty")
      else if bool_decide (is_Some (m !! d_uuid d) \/ url_taken (cfr_url body) None m) then Err duplicate_url
      else Ok (<[d_uuid d := new_list d body]> m, (fun url => (d_uuid d, url)) <$> cfr_url body)
  | Update id body =>
      match m !! id with
      | None => Err (list_not_found id)
      | Some f =>
          if bool_decide (url_taken (fl_url (updated body f)) (Some id) m) then Err (Database UniqueViolation)
          else Ok (<[id := updated body f]> m, None)
      end
  | Delete id => match m !! id with None => Err (list_not_found id) | Some _ => Ok (base.delete id m, None) end
  | Refresh id =>
      match m !! id with
      | None => Err (list_not_found id)
      | Some f =>
          match fl_url f with
          | None => Err (Validation "Cannot refresh local filter list (no URL configured)")
          | Some url => Ok (m, Some (id, url))
          end
      end
  end.
(** The rules a call takes away: those of a list it deletes, found or not. *)
Definition rules_left (c : Call) (rows : list CustomRule) : list CustomRule :=
  match c with
  | Delete id => List.filter (fun r => negb (cr_created_by r =s? list_creator id)) rows
  | _ => rows
  end.
Definition reloads (c : Call) : bool := match c with Update _ _ | Delete _ => true | _ => false end.

Definition lists_ok (t : Db) : Prop := NoDup (map fl_id (filter_lists t)).
(** Nothing but the lists, the rules, the audit log and the engine. *)
Definition stored (t t' : Db) : Prop :=
  t' = set_audit_log (set_custom_rules (set_filter_lists t (filter_lists t')) (custom_rules t')) (audit_log t').
Definition same_engine (s s' : App) : Prop :=
  FilterEngine.rules (App.engine s') = FilterEngine.rules (App.engine s) /\
  FilterEngine.rewrites (App.engine s') = FilterEngine.rewrites (App.engine s).
Definition implements (d : Draws) (p : Parts) (c : Call) (s : App) : Prop :=
  exists r s', does (run d p c) s r s' /\
    let t := tables (db_of s) in
    let t' := tables (db_of s') in
    custom_rules t' = rules_left c (custom_rules t) /\ stored t t' /\
    match spec d c (store_of t) with
    | Err e => r = Err e /\ store_of t' = store_of t /\ same_engine s s'
    | Ok (m, task) => r = Ok task /\ store_of t' = m /\ if reloads c then filter_live (d_text d) s' else same_engine s s'
    end.

Section calls.
Context (d : Draws) (p : Parts) (auth : Claims) (s : App).
#[local] Abbreviation t := (tables (db_of s)).
Context (Hs : db_works s) (Hunique : lists_ok t) (Hauth : fst (AuthUser d p s) = Ok auth).

Lemma fl_authorized : does (AuthUser d p) s (Ok auth) s.
Proof. pose proof (does_AuthUser d p s) as Ha. by rewrite Hauth in Ha. Qed.
Lemma fl_lookup id : store_of t !! id = list_by_id id t.
Proof. unfold store_of, list_by_id. rewrite lookup_view. by destruct (row_named _ _ _). Qed.
Lemma url_taken_rows url besides :
  url_taken url besides (store_of t) <->
  exists f, f ∈ filter_lists t /\ same_url url f = true /\ besides <> Some (fl_id f).
Proof.
  unfold url_taken, store_of. rewrite view_Exists by done. unfold same_url. split.
  - intros (f & Hf & Hu & He & Hb). exists f. split; [done|]. split; [|done].
    rewrite He. destruct url; [|done]. apply str_eqb_refl.
  - intros (f & Hf & Hu & Hb). exists f. split; [done|]. destruct url as [u|]; [|done].
    destruct (fl_url f) as [v|]; [|done]. apply str_eqb_eq in Hu as ->. done.
Qed.
Lemma unstored t' : t' = set_audit_log (set_filter_lists t (filter_lists t')) (audit_log t') -> stored t t'.
Proof. intros ->. unfold stored. by destruct t. Qed.

Lemma fl_insert_does (row : FilterList) :
  insert_row row t =
  if bool_decide (is_Some (store_of t !! fl_id row) \/ url_taken (fl_url row) None (store_of t)) then Err UniqueViolation
  else Ok (tt, set_filter_lists t (filter_lists t ++ [row])).
Proof.
  unfold insert_row. match goal with |- (if ?b then _ else _) = (if bool_decide ?P then _ else _) =>
    assert (Hiff : b = true <-> P); [|destruct b; case_bool_decide; tauto || (exfalso; by intuition)] end.
  rewrite existsb_some, fl_lookup, url_taken_rows. split.
  - intros (f & Hf & [Hi|Hu]%orb_true_iff); [left|right].
    + apply str_eqb_eq in Hi. exists f. by apply row_named_unique.
    + by exists f.
  - intros [[f [Hf Hi]%row_named_Some]|(f & Hf & Hu & _)]; (exists f; split; [done|]).
    + by rewrite Hi, str_eqb_refl.
    + by rewrite Hu, orb_true_r.
Qed.
Lemma fl_update_row_does id f name url is_enabled hours :
  list_by_id id t = Some f ->
  update_row id name url is_enabled hours t =
  if bool_decide (url_taken url (Some id) (store_of t)) then Err UniqueViolation
  else Ok (tt, set_filter_lists t (change_named fl_id id (change_row name url is_enabled hours) (filter_lists t))).
Proof.
  intros Hf. unfold update_row. apply row_named_Some in Hf as [Hf Hid].
  rewrite (proj2 (existsb_some (fun f => fl_id f =s? id) _)) by (exists f; by rewrite Hid, str_eqb_refl).
  cbn [andb]. match goal with |- (if ?b then _ else _) = (if bool_decide ?P then _ else _) =>
    assert (Hiff : b = true <-> P); [|destruct b; case_bool_decide; tauto || (exfalso; by intuition)] end.
  rewrite existsb_some, url_taken_rows. split; intros (g & Hg & Hb); exists g.
  - apply andb_true_iff in Hb as [Hi%negb_true_iff%str_eqb_neq Hu]. split; [done|]. split; [done|]. congruence.
  - destruct Hb as [Hu Hi]. split; [done|]. rewrite Hu, andb_true_r. apply negb_true_iff, str_eqb_neq. congruence.
Qed.

Lemma fl_create_does body : implements d p (Create body) s.
Proof.
  pose proof fl_authorized as Ha. pose proof (fl_insert_does (new_list d body)) as Hi.
  unfold implements. cbn [spec rules_left reloads run]. unfold create. destruct (is_empty (trim (cfr_name body))) eqn:E1.
  { eexists _, s. split; [exec Hs|]. repeat split. apply unstored. by destruct t. }
  cbn [fl_id fl_url new_list] in Hi. case_bool_decide as Hb.
  - eexists _, s. split.
    + apply does_bind_err. eapply does_bind; [exact Ha|]. cbn beta zeta. apply does_bind_err.
      apply (does_map_err create_error _ _ (Err UniqueViolation)). by apply does_execute_err.
    + repeat split. apply unstored. by destruct t.
  - eexists _, _. split.
    + eapply does_bind; [|apply does_ret]. eapply does_bind; [exact Ha|]. cbn beta zeta.
      eapply does_bind; [apply (does_map_err create_error _ _ (Ok tt)); by apply does_execute|].
      eapply does_bind; [by apply does_logged|apply does_ret].
    + repeat split. apply (view_snoc fl_id (fun f => f) _ (new_list d body)). unfold row_named.
      pose proof (fl_lookup (d_uuid d)) as Hl. destruct (list_by_id (d_uuid d) t) as [f|] eqn:Hf; [|exact Hf].
      exfalso. apply Hb. left. by eexists.
Qed.

Lemma fl_update_does id body : implements d p (Update id body) s.
Proof.
  pose proof fl_authorized as Ha. pose proof (fl_lookup id) as Hl.
  unfold implements. cbn [spec rules_left reloads run]. unfold update.
  destruct (list_by_id id t) as [f|] eqn:Hf; rewrite Hl.
  2: { eexists _, s. split; [exec Hs|]. repeat split. apply unstored. by destruct t. }
  pose proof (fl_update_row_does id f (default (fl_name f) (ufr_name body)) (fl_url (updated body f))
    (default (fl_is_enabled f) (ufr_is_enabled body)) (default (fl_update_interval_hours f) (ufr_update_interval_hours body)) Hf) as Hu.
  cbn [fl_url updated change_row] in *. case_bool_decide as Hb.
  - eexists _, s. split; [exec Hs|]. repeat split. apply unstored. by destruct t.
  - eexists _, _. split; [exec Hs|]. repeat split.
    by apply (view_change fl_id (fun f => f) _ _ (change_row _ _ _ _) f).
Qed.

Lemma fl_delete_does id : implements d p (Delete id) s.
Proof.
  pose proof fl_authorized as Ha. pose proof (fl_lookup id) as Hl. pose proof (count_named_0 fl_id id (filter_lists t)) as Hc.
  unfold implements. cbn [spec rules_left reloads run]. unfold delete.
  unfold list_by_id in Hl. destruct (row_named fl_id id (filter_lists t)) as [f|] eqn:Hf; rewrite Hl.
  - eexists _, _. split.
    + eapply does_bind; [|apply does_ret]. eapply does_bind; [exact Ha|]. cbn beta zeta.
      eapply does_bind; [by eapply does_db_execute|]. eapply does_bind; [by eapply does_db_execute|].
      change (filter_lists (tables _)) with (filter_lists t).
      rewrite (proj2 (Nat.eqb_neq _ _)) by (intros Hz; by apply Hc in Hz). exec Hs.
    + repeat split. apply (view_without fl_id (fun f => f)).
  - eexists _, _. split.
    + eapply does_bind_err. eapply does_bind; [exact Ha|]. cbn beta zeta.
      eapply does_bind; [by eapply does_db_execute|]. eapply does_bind; [by eapply does_db_execute|].
      change (filter_lists (tables _)) with (filter_lists t).
      rewrite (proj2 (Nat.eqb_eq _ _)) by (by apply Hc). exec Hs.
    + repeat split. unfold store_of.
      change (view fl_id (fun f => f) (without fl_id id (filter_lists t)) = view fl_id (fun f => f) (filter_lists t)).
      by rewrite without_unchanged.
Qed.

Lemma fl_refresh_does id : implements d p (Refresh id) s.
Proof.
  pose proof fl_authorized as Ha. pose proof (fl_lookup id) as Hl.
  unfold implements. cbn [spec rules_left reloads run]. unfold refresh.
  assert (Hq : (fun f => (fl_name f, fl_url f)) <$> list_by_id id t = (fun f => (fl_name f, fl_url f)) <$> list_by_id id t) by done.
  destruct (list_by_id id t) as [f|] eqn:Hf in Hq at 2, Hl; rewrite Hl; cbn [fmap option_fmap option_map] in Hq.
  2: { eexists _, s. split; [exec Hs|]. repeat split. apply unstored. by destruct t. }
  destruct (fl_url f) as [url|] eqn:Hu.
  - eexists _, _. split; [exec Hs|]. repeat split.
  - eexists _, s. split; [exec Hs|]. repeat split. apply unstored. by destruct t.
Qed.
End calls.

(** On a working connection every call of a signed-in user on the lists
    answers and stores what an abstract store of lists says: the lists it
    leaves, the task it spawns, or why it is refused.  A refused call changes
    nothing, but for a deletion: the rules that carry the identifier go first,
    so deleting a list that does not exist removes them and leaves them in
    the engine.  A change reloads the engine, which does not look at the
    switch of a list: when the engine was up to date, switching a list on or
    off leaves every rule and rewrite it applies as it was. *)
Theorem filters_correct d p auth c s :
  db_works s -> lists_ok (tables (db_of s)) -> fst (AuthUser d p s) = Ok auth ->
  implements d p c s /\
  forall id body, c = Update id body -> filter_live (d_text d) s ->
    exists r s', does (run d p c) s r s' /\ same_engine s s'.
Proof.
  intros Hs Hn Ha.
  assert (Hi : implements d p c s).
  { destruct c; [by apply fl_create_does with auth|by apply fl_update_does with auth|
      by apply fl_delete_does with auth|by apply fl_refresh_does with auth]. }
  split; [exact Hi|]. intros id body -> Hlive. destruct Hi as (r & s' & Hd & Hr & Hst & Hspec).
  exists r, s'. split; [exact Hd|]. destruct (spec _ _ _) as [[m task]|e]; [|by destruct Hspec as (_ & _ & ?)].
  destruct Hspec as (_ & _ & Hl). cbn [reloads] in Hl. destruct Hlive as [Hlr Hlw], Hl as [Hlr' Hlw'].
  cbn zeta in *. unfold same_engine. rewrite Hlr', Hlr, Hlw', Hlw, Hst. by rewrite Hr.
Qed.

End filters.
End FiltersApi.

(** ** Concrete inputs *)

Module FiltersWitness.
Import AsciiUnicode RefRegex RefJson RefIpNet RefMoka RefRng RefHickory RefResolver RefCrypto Api AppWitness FiltersApi.

Definition ads : FilterList :=
  {| fl_id := lit "f"; fl_name := lit "ads"; fl_url := Some (lit "http://lists.org"); fl_is_enabled := true;
     fl_rule_count := 1; fl_last_updated := None; fl_created_at := lit "t"; fl_update_interval_hours := 24 |}.
Definition mine : FilterList :=
  {| fl_id := lit "g"; fl_name := lit "mine"; fl_url := None; fl_is_enabled := true;
     fl_rule_count := 0; fl_last_updated := None; fl_created_at := lit "t"; fl_update_interval_hours := 0 |}.
Definition rule (id by_ text : string) : CustomRule :=
  {| cr_id := lit id; cr_rule := lit text; cr_comment := None; cr_is_enabled := true;
     cr_created_by := lit by_; cr_created_at := lit "t"; cr_expires_at := None |}.
Definition db0 : Db :=
  set_custom_rules (set_filter_lists empty_db [ads; mine]) [rule "1" "filter:f" "||ads.com^"; rule "2" "filter:h" "||left.com^"].
Definition loaded_app : App := reloaded today (app db0).
Definition switch_off : UpdateFilterRequest :=
  {| ufr_name := None; ufr_url := None; ufr_is_enabled := Some false; ufr_update_interval_hours := None |}.
Definition same_again : UpdateFilterRequest :=
  {| ufr_name := None; ufr_url := Some (lit "http://lists.org"); ufr_is_enabled := None; ufr_update_interval_hours := None |}.
Definition after (c : Call) : result (option (str * str)) AppError * (list FilterList * list CustomRule) * bool :=
  let '(r, s) := run today admin c loaded_app in
  (r, (filter_lists (tables (db_of s)), custom_rules (tables (db_of s))),
   Rules.is_blocked (FilterEngine.rules (App.engine s)) (lit "ads.com")).

(** A list that is switched off still blocks. *)
Example switch_test : (after (Update (lit "f") switch_off)).2 = true.
Proof. vm_compute. reflexivity. Qed.
(** The rules of a list that does not exist go, and the answer is an error. *)
Example delete_missing_test :
  (after (Delete (lit "h"))).1 = (Err (list_not_found (lit "h")), ([ads; mine], [rule "1" "filter:f" "||ads.com^"])).
Proof. vm_compute. reflexivity. Qed.
Example taken_test : (after (Update (lit "g") same_again)).1.1 = Err (Database UniqueViolation).
Proof. vm_compute. reflexivity. Qed.

Lemma filters_correct_witness :
  implements today admin (Delete (lit "f")) loaded_app /\
  exists r s', does (run today admin (Update (lit "f") switch_off)) loaded_app r s' /\ same_engine loaded_app s'.
Proof.
  assert (Hn : lists_ok (tables (db_of loaded_app))) by (apply (bool_decide_unpack _); vm_compute; exact I).
  assert (Ha : fst (AuthUser today admin loaded_app) = Ok AuthWitness.ann) by (vm_compute; reflexivity).
  split.
  - by apply (filters_correct today admin AuthWitness.ann (Delete (lit "f"))); [intros n| |].
  - apply (proj2 (filters_correct today admin AuthWitness.ann (Update (lit "f") switch_off) loaded_app (fun n => eq_refl) Hn Ha)
      (lit "f") switch_off eq_refl). apply reloaded_live.
Defined.
End FiltersWitness.
