(* ===== verification/Tasks.v ===== *)
(** * The tasks in the background: src/main.rs

    Every minute the expired rules leave the engine, every hour the lists
    that are due are downloaded again, every day old entries leave the query
    log.  A tick is a computation on the state of the server; its errors are
    logged.  [ds], [clock] and [uuid] give what the n-th list of a tick
    draws. *)
From S2P Require Import Prelude RustStr IpAddr Regex Rules Acl Moka Hickory Cache Db DbLogic Filter Resolver.
From S2P Require Import UpstreamPool Handler HandlerTests Subscription Api App Auth AppTests Listing Tables FiltersApi.
Local Open Scope N_scope.

(** [DateTime::parse_from_rfc3339]: nanoseconds since 1970. *)
Class Rfc3339 := { parse_rfc3339 : str -> option Z }.

Module Tasks.
Import Subscription.
Section tasks.
Context `{RustUnicode, RegexEngine, SerdeJson, Collation, IpNetCrate, Moka, Rng,
  Hickory, !HickoryResolver, !DnsCodec, Jwt, UrlCrate, HttpClient, RegexCaptures, Rfc3339}.
Import Api.

(** ** run_expired_rules_cleanup_task *)

(** [expires_at IS NOT NULL AND expires_at <= $1] *)
Definition expired (now : str) (r : CustomRule) : bool :=
  match cr_expires_at r with Some e => negb (text_lt now e) | None => false end.
Definition expired_count (now : str) (t : Db) : nat := length (List.filter (expired now) (custom_rules t)).
Definition expired_rules_tick (d : Draws) : M App AppError unit :=
  let! n := catch (E := DbError) (fetch_one (fun t => Some (expired_count (d_text d) t))) in
  match n with
  | Err _ => ret tt
  | Ok n => if (0 <? n)%nat then try_reload_filter d else ret tt
  end.

(** ** run_filter_refresh_task *)

(** [is_enabled = true AND url != '' AND url IS NOT NULL], with the URL *)
Definition refreshable (f : FilterList) : option (FilterList * str) :=
  match fl_url f with
  | Some url => if fl_is_enabled f && negb (is_empty url) then Some (f, url) else None
  | None => None
  end.
(** [num_hours]: whole hours, towards zero. *)
Definition num_hours (ns : Z) : Z := Z.quot ns (3600 * 1000000000).
Definition due (clock_ns : Z) (f : FilterList) : bool :=
  if (fl_update_interval_hours f <=? 0)%Z then false
  else match fl_last_updated f ≫= parse_rfc3339 with
       | Some last => (fl_update_interval_hours f <=? num_hours (clock_ns - last))%Z
       | None => true
       end.
Section refresh.
Context (ds : nat -> Draws) (clock : nat -> Z) (uuid : nat -> nat -> str).
(** The requests sent so far, and whether a list was refreshed. *)
Fixpoint refresh_lists (i : nat) (rows : list (FilterList * str)) (history : list str) (refreshed : bool)
    : M App AppError (list str * bool) :=
  match rows with
  | [] => ret (history, refreshed)
  | (f, url) :: rows' =>
      if due (clock i) f then
        let! r := FiltersApi.on_sync history (sync_filter_list (uuid i) (d_text (ds i)) (fl_id f) url) in
        refresh_lists (Datatypes.S i) rows' (snd r) (refreshed || is_ok (fst r))
      else refresh_lists (Datatypes.S i) rows' history refreshed
  end.
Definition filter_refresh_tick (d : Draws) (history : list str) : M App AppError (list str) :=
  let! rows := catch (E := DbError) (fetch_all (fun t => filter_map refreshable (filter_lists t))) in
  match rows with
  | Err _ => ret history
  | Ok rows =>
      let! r := refresh_lists 0 rows history false in
      (if snd r : bool then try_reload_filter d else ret tt) ;;;
      ret (fst r)
  end.
End refresh.

(** ** run_query_log_rotation_task *)

(** [time < NOW() - ($1 * INTERVAL '1 day')] *)
Definition old_entry (now : N) (retention_days : N) (q : QueryLogRow) : bool :=
  (Z.of_N (q_time q) <? (Z.of_N now - Z.of_N retention_days * 86400) * 1000000000)%Z.
Definition query_log_rotation_tick (retention_days : N) (d : Draws) : M App AppError unit :=
  catch (E := DbError) (execute (fun t => Ok (tt, set_query_log t
    (List.filter (fun q => negb (old_entry (d_utc d) retention_days q)) (query_log t))))) ;;;
  ret tt.

(** ** Expired rules leave the engine *)

(** The order of the texts. *)
Class CollationOrder := {
  text_lt_trans : forall x y z, text_lt x y = true -> text_lt y z = true -> text_lt x z = true;
  text_lt_total : forall x y, text_lt x y = false -> text_lt y x = true \/ y = x;
}.

Lemma not_expired_active `{!CollationOrder} now now' r :
  text_lt now' now = false -> expired now' r = false -> FilterEngine.rule_active now' r = FilterEngine.rule_active now r.
Proof.
  intros Hle Hr. unfold FilterEngine.rule_active, expired in *. f_equal.
  destruct (cr_expires_at r) as [e|]; [|done]. apply negb_false_iff in Hr. rewrite Hr.
  destruct (text_lt_total _ _ Hle) as [Hlt| ->]; [|done]. symmetry. by apply (text_lt_trans _ now').
Qed.
Lemma none_expired `{!CollationOrder} now now' t :
  text_lt now' now = false -> expired_count now' t = 0%nat -> FilterEngine.active_rules now' t = FilterEngine.active_rules now t.
Proof.
  intros Hle Hc%length_zero_iff_nil. unfold FilterEngine.active_rules. f_equal.
  assert (Hall : forall r, r ∈ custom_rules t -> expired now' r = false).
  { intros r Hr. apply not_true_iff_false. intros He. assert (Hin : r ∈ List.filter (expired now') (custom_rules t))
      by (by apply elem_of_bfilter). rewrite Hc in Hin. by apply not_elem_of_nil in Hin. }
  clear Hc. induction (custom_rules t) as [|r l IH]; [done|]. cbn [List.filter].
  rewrite (not_expired_active now now' r), IH; [done| |done|apply Hall; by left]. intros r' Hr'. apply Hall. by right.
Qed.
Lemma does_expired_rules_tick d s :
  db_works s ->
  does (expired_rules_tick d) s (Ok tt) (if (0 <? expired_count (d_text d) (tables (db_of s)))%nat then reloaded d s else s).
Proof.
  intros Hs. unfold expired_rules_tick.
  eapply does_bind; [eapply does_catch; exact (does_query (fun t => Ok (expired_count (d_text d) t)) s Hs)|].
  cbn beta iota. destruct (0 <? _)%nat; [by apply does_try_reload_filter|apply does_ret].
Qed.
Lemma tick_live `{!CollationOrder} now d s :
  db_works s -> text_lt (d_text d) now = false -> filter_live now s ->
  exists n s', expired_rules_tick d s = (Ok tt, with_calls n s') /\ filter_live (d_text d) s' /\
    tables (db_of s') = tables (db_of s) /\ db_works s'.
Proof.
  intros Hs Hle Hlive. destruct (does_run _ _ _ _ (does_expired_rules_tick d s Hs)) as [n Hn]. exists n. eexists. split; [exact Hn|].
  destruct (0 <? _)%nat eqn:Hc; [split; [apply reloaded_live|by split]|]. split; [|by split].
  apply Nat.ltb_ge in Hc. destruct Hlive as [Hr Hw]. split; [|exact Hw]. rewrite Hr. unfold App.loaded. cbn [FilterEngine.rules].
  by rewrite (none_expired now (d_text d)) by (lia || done).
Qed.

(** A run of the server: ticks, calls that end in a reload, and steps that
    leave the engine as current as it was, at times that do not go back. *)
Inductive runs_to : str -> App -> str -> App -> Prop :=
| run_start now s : runs_to now s now s
| run_tick now0 s0 now s d :
    runs_to now0 s0 now s -> text_lt (d_text d) now = false -> db_works s ->
    runs_to now0 s0 (d_text d) (snd (expired_rules_tick d s))
| run_reload now0 s0 now s d s' :
    runs_to now0 s0 now s -> text_lt (d_text d) now = false -> db_works s ->
    s' = snd (try_reload_filter d s) -> runs_to now0 s0 (d_text d) s'
| run_other now0 s0 now s s' :
    runs_to now0 s0 now s -> (forall now, filter_live now s -> filter_live now s') -> runs_to now0 s0 now s'.
Lemma run_live `{!CollationOrder} now0 s0 now s : runs_to now0 s0 now s -> filter_live now0 s0 -> filter_live now s.
Proof.
  induction 1 as [| now0 s0 now s d Hr IH Hle Hs | now0 s0 now s d s' Hr IH Hle Hs -> | now0 s0 now s s' Hr IH Hk]; intros Hlive.
  - done.
  - destruct (tick_live now d s Hs Hle (IH Hlive)) as (n & s' & -> & Hl & _). exact Hl.
  - destruct (does_run _ _ _ _ (does_try_reload_filter d s Hs)) as [n ->]. exact (reloaded_live d s).
  - by apply Hk, IH.
Qed.
(** The rules the engine was built from. *)
Definition applied (lines : list str) (s : App) : Prop :=
  FilterEngine.rules (App.engine s) = Rules.build (fst (Rules.add_rules Rules.new lines)).

(** Within a minute of its expiry a rule stops being applied: however the
    server ran since the engine was loaded, after a tick of the task on a
    working connection the engine is built from exactly the rules that are
    enabled and not expired at that time, and the parental categories.  The
    tick changes no row, so an expired row makes every later tick reload. *)
Theorem expired_rules_leave `{!CollationOrder} now0 s0 now s d :
  filter_live now0 s0 -> runs_to now0 s0 now s -> text_lt (d_text d) now = false -> db_works s ->
  let s' := snd (expired_rules_tick d s) in
  applied (FilterEngine.active_rules (d_text d) (tables (db_of s')) ++ FilterEngine.parental_lines (tables (db_of s'))) s' /\
  (forall r, r ∈ List.filter (FilterEngine.rule_active (d_text d)) (custom_rules (tables (db_of s'))) <->
     r ∈ custom_rules (tables (db_of s)) /\ cr_is_enabled r = true /\ expired (d_text d) r = false) /\
  tables (db_of s') = tables (db_of s) /\
  ((exists r, r ∈ custom_rules (tables (db_of s)) /\ expired (d_text d) r = true) ->
     exists n, s' = with_calls n (reloaded d s)).
Proof.
  intros Hlive Hrun Hle Hs. cbn zeta. pose proof (run_live _ _ _ _ Hrun Hlive) as Hl.
  pose proof (does_run _ _ _ _ (does_expired_rules_tick d s Hs)) as [n' Hn'].
  destruct (tick_live now d s Hs Hle Hl) as (n & s' & Ht & [Hr _] & Htab & _). rewrite Ht in Hn' |- *. cbn [snd].
  rewrite tables_with_calls, Htab. split; [|split; [|split; [done|]]].
  - unfold applied. change (App.engine (with_calls n s')) with
      {| FilterEngine.rules := FilterEngine.rules (App.engine s'); FilterEngine.rewrites := FilterEngine.rewrites (App.engine s');
         FilterEngine.db := db_of (with_calls n s') |}. cbn [FilterEngine.rules]. rewrite Hr, Htab. done.
  - intros r. rewrite elem_of_bfilter. unfold FilterEngine.rule_active, expired. rewrite andb_true_iff.
    destruct (cr_expires_at r); rewrite ?negb_false_iff; tauto.
  - intros (r & Hin & He). apply (f_equal snd) in Hn'. cbn [snd] in Hn'. exists n'. rewrite Hn'. f_equal.
    assert (Hc : (0 <? expired_count (d_text d) (tables (db_of s)))%nat = true); [|by rewrite Hc].
    apply Nat.ltb_lt. unfold expired_count. assert (Hf : r ∈ List.filter (expired (d_text d)) (custom_rules (tables (db_of s))))
      by (by apply elem_of_bfilter). destruct (List.filter _ _); [by apply not_elem_of_nil in Hf|]. simpl. lia.
Qed.

(** ** A synchronisation on a working connection *)

(** What the next request for the URL gives, after those sent before. *)
Definition fetched (history : list str) (url : str) : result str FetchError :=
  fst (fetch_remote_filter url {| requests := history; sync_db := {| tables := empty_db; calls := 0; faults := fun _ => false |} |}).
Definition history_after (history : list str) (url : str) : list str :=
  history ++ (if is_ok (validate_filter_url url) then [url] else []).
Lemma fetch_alone url s :
  fetch_remote_filter url s =
  (fetched (requests s) url, {| requests := history_after (requests s) url; sync_db := sync_db s |}).
Proof.
  pose proof (fetch_state url s) as Hst. destruct (fetch_remote_filter url s) as [r s1] eqn:Hf. cbn [snd] in Hst.
  rewrite Hst. f_equal. apply (f_equal fst) in Hf. cbn [fst] in Hf. rewrite <- Hf. clear Hf Hst.
  unfold fetched, fetch_remote_filter, lift, bind, send, fail. cbn [requests].
  destruct (validate_filter_url url); cbn [map_err]; [|done].
  destruct (http_get (requests s) url) as [resp|]; cbn [ok_or]; [|done]. destruct (negb _); [done|].
  destruct (match rs_content_length resp with Some _ => _ | None => _ end); [done|].
  destruct (rs_bytes resp); cbn [ok_or]; [|done]. by destruct (_ <? _).
Qed.

Definition prefix_of (id : str) : str := lit "filter:" ++ id.
(** The tables after the content was stored. *)
Definition synced (uuid : nat -> str) (now id content : str) (t : Db) : Db :=
  update_list id now (Z.of_nat (length (rules_of content)))
    (set_custom_rules t (fold_left insert_row (new_rows (prefix_of id) now uuid 0 (rules_of content)) (kept_rules (prefix_of id) t))).
Lemma does_batches prefix now uuid i cs (s : SyncState) :
  db_works s ->
  does (insert_batches prefix now uuid i cs) s (Ok tt)
    (with_tables (set_custom_rules (tables (db_of s))
      (fold_left insert_row (new_rows prefix now uuid i (concat cs)) (custom_rules (tables (db_of s))))) s).
Proof.
  revert i s. induction cs as [|c cs IH]; intros i s Hs; cbn [insert_batches concat].
  - rewrite set_custom_rules_id, with_tables_same. apply does_ret.
  - eapply does_bind; [by eapply does_execute|].
    rewrite new_rows_app, fold_left_app.
    match goal with |- does _ ?s1 _ _ => specialize (IH (i + length c)%nat s1 Hs) end.
    rewrite tables_with_tables, with_tables_tables in IH. exact IH.
Qed.
Lemma does_sync uuid now id url (s : SyncState) :
  db_works s ->
  let s1 := {| requests := history_after (requests s) url; sync_db := sync_db s |} in
  match fetched (requests s) url with
  | Ok content => does (sync_filter_list uuid now id url) s (Ok (Z.of_nat (length (rules_of content))))
      (with_tables (synced uuid now id content (tables (db_of s))) s1)
  | Err e => does (sync_filter_list uuid now id url) s (Err (FetchFailed e)) s1
  end.
Proof.
  intros Hs s1.
  assert (Hf : does (mmap_err FetchFailed (fetch_remote_filter url)) s (map_err FetchFailed (fetched (requests s) url)) s1).
  { intros n. exists n. unfold mmap_err. rewrite fetch_alone. done. }
  destruct (fetched (requests s) url) as [content|e]; cbn [map_err] in Hf; [|by apply does_bind_err].
  eapply does_bind; [exact Hf|]. cbn zeta. eapply does_bind.
  - apply (does_map_err StoreFailed _ _ (Ok tt)). eapply (does_transaction _ s1 tt); [exact Hs| |].
    2: { eapply does_bind; [by eapply does_execute|].
         match goal with |- does (insert_batches ?a ?b ?c ?d ?e) ?s0 _ _ => apply (does_batches a b c d e s0 Hs) end. }
    exact Hs.
  - eapply does_bind; [apply (does_map_err MetadataFailed _ _ (Ok tt)); by eapply does_execute|].
    match goal with |- does (ret ?n) ?s0 (Ok ?m) ?s0' => assert (s0 = s0') as ->; [|apply does_ret] end.
    rewrite !with_tables_tables, !tables_with_tables, concat_chunks by (unfold BATCH_SIZE; lia). done.
Qed.
Lemma does_on_sync {A} history (m : M SyncState SyncError A) s r st' :
  does m {| requests := history; sync_db := db_of s |} r st' ->
  does (FiltersApi.on_sync history m) s (Ok (r, requests st')) (with_db s (sync_db st')).
Proof.
  intros Hm n. destruct (Hm n) as [n' Hn']. exists n'. unfold FiltersApi.on_sync.
  change {| requests := history; sync_db := db_of (with_calls n s) |} with
    (with_calls n {| requests := history; sync_db := db_of s |}). by rewrite Hn'.
Qed.

(** ** The refresh of the lists *)

Section refreshing.
Context (ds : nat -> Draws) (clock : nat -> Z) (uuid : nat -> nat -> str).

(** The lists of a tick that are due, with their number and what they are
    answered. *)
Fixpoint attempts (i : nat) (rows : list (FilterList * str)) (history : list str) : list (nat * FilterList * result str FetchError) :=
  match rows with
  | [] => []
  | (f, url) :: rows' =>
      if due (clock i) f then (i, f, fetched history url) :: attempts (Datatypes.S i) rows' (history_after history url)
      else attempts (Datatypes.S i) rows' history
  end.
(** The requests sent after them. *)
Fixpoint sent (i : nat) (rows : list (FilterList * str)) (history : list str) : list str :=
  match rows with
  | [] => history
  | (f, url) :: rows' => sent (Datatypes.S i) rows' (if due (clock i) f then history_after history url else history)
  end.
Definition attempted (t : Db) (a : nat * FilterList * result str FetchError) : Db :=
  match a with
  | (i, f, Ok content) => synced (uuid i) (d_text (ds i)) (fl_id f) content t
  | _ => t
  end.
Definition succeeded (a : nat * FilterList * result str FetchError) : bool := is_ok (snd a).
Lemma does_refresh_lists rows i history refreshed s :
  db_works s ->
  does (refresh_lists ds clock uuid i rows history refreshed) s
    (Ok (sent i rows history, refreshed || existsb succeeded (attempts i rows history)))
    (with_tables (fold_left attempted (attempts i rows history) (tables (db_of s))) s).
Proof.
  revert i history refreshed s. induction rows as [|[f url] rows IH]; intros i history refreshed s Hs; cbn [refresh_lists attempts sent].
  - cbn [existsb fold_left]. rewrite orb_false_r, with_tables_same. apply does_ret.
  - destruct (due (clock i) f); [|by apply IH]. cbn [existsb fold_left succeeded snd attempted].
    pose proof (does_sync (uuid i) (d_text (ds i)) (fl_id f) url {| requests := history; sync_db := db_of s |} Hs) as Hd.
    cbn zeta in Hd. cbn [requests] in Hd. destruct (fetched history url) as [content|e].
    + apply does_on_sync in Hd. pose proof (IH (Datatypes.S i) (history_after history url) (refreshed || true)
        (with_tables (synced (uuid i) (d_text (ds i)) (fl_id f) content (tables (db_of s))) s) (proj2 (works_with_tables _ s) Hs)) as IH'.
      eapply does_bind; [exact Hd|]. rewrite tables_with_tables, with_tables_tables, <- orb_assoc in IH'. exact IH'.
    + apply does_on_sync in Hd. pose proof (IH (Datatypes.S i) (history_after history url) (refreshed || false) s Hs) as IH'.
      eapply does_bind; [exact Hd|]. rewrite <- orb_assoc in IH'.
      match goal with |- does _ ?s0 _ _ => assert (s0 = s) as ->; [|exact IH'] end. apply with_db_of.
Qed.

(** The rows of the creators a predicate holds of, those of one, and their
    rules. *)
Definition rows_of (keep : str -> bool) (t : Db) : list CustomRule := List.filter (fun r => keep (cr_created_by r)) (custom_rules t).
Definition rules_by (creator : str) (t : Db) : list str := map cr_rule (rows_of (fun c => c =s? creator) t).
Definition fresh_for (u : nat -> str) (t : Db) : Prop :=
  (forall n m, u n = u m -> n = m) /\ forall n r, r ∈ custom_rules t -> cr_id r <> u n.
Lemma fresh_for_ids u t n prefix : fresh_for u t -> fresh_ids u n (kept_rules prefix t).
Proof.
  intros [Hinj Hf]. split.
  - apply NoDup_fmap_2_strong; [|apply NoDup_seq]. intros x y _ _. apply Hinj.
  - intros r [Hr _]%elem_of_bfilter Hin. apply list_elem_of_fmap in Hin as (k & Heq & _). by apply (Hf k r).
Qed.
Lemma filter_none {A} (p : A -> bool) l : Forall (fun x => p x = false) l -> List.filter p l = [].
Proof. induction 1 as [|x l Hx _ IH]; [done|]. simpl. by rewrite Hx. Qed.
Lemma filter_every {A} (p : A -> bool) l : Forall (fun x => p x = true) l -> List.filter p l = l.
Proof. induction 1 as [|x l Hx _ IH]; [done|]. simpl. by rewrite Hx, IH. Qed.
Lemma synced_custom u now id content t :
  fresh_for u t ->
  custom_rules (synced u now id content t) = kept_rules (prefix_of id) t ++ new_rows (prefix_of id) now u 0 (rules_of content).
Proof.
  intros Hf. unfold synced. change (custom_rules (update_list ?a ?b ?c ?t)) with (custom_rules t).
  cbn [custom_rules set_custom_rules]. by rewrite fresh_rows by (by apply fresh_for_ids).
Qed.
(** The rows of the list are the new ones, and those of the others are kept,
    every column of them and in their order. *)
Lemma synced_rows u now id content t :
  fresh_for u t ->
  rows_of (fun c => c =s? prefix_of id) (synced u now id content t) = new_rows (prefix_of id) now u 0 (rules_of content) /\
  forall keep, keep (prefix_of id) = false -> rows_of keep (synced u now id content t) = rows_of keep t.
Proof.
  intros Hf. unfold rows_of. rewrite synced_custom by done.
  pose proof (new_rows_rules (prefix_of id) now u 0 (rules_of content)) as [_ Hall]. split.
  - rewrite List.filter_app, filter_none, filter_every; [done| |].
    + eapply Forall_impl; [exact Hall|]. intros r (-> & _). apply str_eqb_refl.
    + unfold kept_rules. apply Forall_forall. intros r [_ Hr]%elem_of_bfilter. by apply negb_true_iff.
  - intros keep Hk. rewrite List.filter_app, (filter_none _ (new_rows _ _ _ _ _)), app_nil_r.
    + unfold kept_rules. induction (custom_rules t) as [|r l IH]; [done|]. cbn [List.filter].
      destruct (cr_created_by r =s? prefix_of id) eqn:E; cbn [negb List.filter]; rewrite IH; [|done].
      apply str_eqb_eq in E. by rewrite E, Hk.
    + eapply Forall_impl; [exact Hall|]. by intros r (-> & _).
Qed.
Lemma synced_list u now id content t id' :
  row_named fl_id id' (filter_lists (synced u now id content t)) =
  (if id' =s? id then counted (Z.of_nat (length (rules_of content))) now else fun f => f) <$> row_named fl_id id' (filter_lists t).
Proof.
  unfold synced, update_list. cbn [filter_lists set_filter_lists set_custom_rules].
  rewrite (row_named_map fl_id) by (intros f; by destruct (fl_id f =s? id)).
  destruct (row_named fl_id id' (filter_lists t)) as [f|] eqn:Hf; [|done]. apply row_named_Some in Hf as [_ Hf].
  cbn [fmap option_fmap option_map]. replace (fl_id f =s? id) with (id' =s? id) by (by rewrite Hf). by destruct (id' =s? id).
Qed.
Lemma synced_fresh u u' now id content t :
  fresh_for u t -> fresh_for u' t -> (forall n m, u n <> u' m) -> fresh_for u' (synced u now id content t).
Proof.
  intros Hu [Hinj Hf] Hne. split; [done|]. intros n r.
  change (custom_rules (synced u now id content t)) with
    (fold_left insert_row (new_rows (prefix_of id) now u 0 (rules_of content)) (kept_rules (prefix_of id) t)).
  rewrite fresh_rows by (by apply fresh_for_ids). intros [[Hr _]%elem_of_bfilter|Hr]%elem_of_app; [by apply Hf|].
  assert (Hin : cr_id r ∈ map u (seq 0 (length (rules_of content)))).
  { rewrite <- (new_rows_ids (prefix_of id) now). apply list_elem_of_fmap. by exists r. }
  apply list_elem_of_fmap in Hin as (k & -> & _). apply Hne.
Qed.

Definition number (a : nat * FilterList * result str FetchError) : nat := a.1.1.
Definition list_id (a : nat * FilterList * result str FetchError) : str := fl_id a.1.2.
(** What the attempts leave: the rows of a list that was downloaded are the
    new ones, and its row has their count and the time; the rows of the other
    lists, the rules of every other creator, whole and in their order, and
    the other tables are as they were. *)
Definition outcome (A : list (nat * FilterList * result str FetchError)) (t t' : Db) : Prop :=
  (forall i f content, (i, f, Ok content) ∈ A ->
     rows_of (fun c => c =s? prefix_of (fl_id f)) t' = new_rows (prefix_of (fl_id f)) (d_text (ds i)) (uuid i) 0 (rules_of content) /\
     row_named fl_id (fl_id f) (filter_lists t') =
       counted (Z.of_nat (length (rules_of content))) (d_text (ds i)) <$> row_named fl_id (fl_id f) (filter_lists t)) /\
  (forall id, (forall a, a ∈ A -> succeeded a = true -> list_id a <> id) ->
     row_named fl_id id (filter_lists t') = row_named fl_id id (filter_lists t)) /\
  (forall keep, (forall a, a ∈ A -> succeeded a = true -> keep (prefix_of (list_id a)) = false) ->
     rows_of keep t' = rows_of keep t) /\
  map fl_id (filter_lists t') = map fl_id (filter_lists t) /\
  t' = set_filter_lists (set_custom_rules t (custom_rules t')) (filter_lists t').
Lemma attempts_rest A t :
  map fl_id (filter_lists (fold_left attempted A t)) = map fl_id (filter_lists t) /\
  fold_left attempted A t =
    set_filter_lists (set_custom_rules t (custom_rules (fold_left attempted A t))) (filter_lists (fold_left attempted A t)).
Proof.
  revert t. induction A as [|[[i f] r] A IH]; intros t; cbn [fold_left]; [split; [done|by destruct t]|].
  destruct (IH (attempted t (i, f, r))) as [Hids Heq]. split.
  - rewrite Hids. destruct r as [content|e]; [|done].
    cbn [attempted]. unfold synced, update_list. cbn [filter_lists set_filter_lists set_custom_rules]. rewrite map_map.
    apply map_ext. intros g. by destruct (_ =s? _).
  - revert Heq. generalize (fold_left attempted A (attempted t (i, f, r))). intros t' ->. by destruct r.
Qed.
Lemma attempts_outcome A t :
  NoDup (map list_id A) -> NoDup (map number A) ->
  (forall i j n m, i <> j -> uuid i n <> uuid j m) -> (forall a, a ∈ A -> fresh_for (uuid (number a)) t) ->
  outcome A t (fold_left attempted A t).
Proof.
  intros Hid Hn Hdiff Hfresh. unfold outcome. pose proof (attempts_rest A t) as Hrest.
  match goal with |- ?p /\ ?q /\ ?r /\ _ => cut ((p /\ q) /\ r); [intros [[? ?] ?]; destruct Hrest; by split_and!|] end. clear Hrest. revert t Hid Hn Hfresh. induction A as [|[[i f] r] A IH]; intros t Hid Hn Hfresh; cbn [fold_left].
  { split_and!; [by intros ? ? ? ?%not_elem_of_nil|done..]. }
  cbn [map] in Hid, Hn. apply NoDup_cons in Hid as [Hidf Hid], Hn as [Hnf Hn].
  assert (Hne : forall a, a ∈ A -> list_id a <> fl_id f).
  { intros a Ha Heq. apply Hidf. change (list_id (i, f, r)) with (fl_id f). rewrite <- Heq. by apply list_elem_of_fmap_2. }
  assert (Hf : fresh_for (uuid i) t) by (apply (Hfresh (i, f, r)); by left).
  destruct (IH (attempted t (i, f, r)) Hid Hn) as [[Hok Hrow] Hby].
  { intros a Ha. assert (Hfa : fresh_for (uuid (number a)) t) by (apply Hfresh; by right). destruct r as [content|e]; [|done].
    apply synced_fresh; [done|done|]. intros n m. apply Hdiff. intros ->. apply Hnf. change (number a ∈ map number A). by apply list_elem_of_fmap_2. }
  assert (Hpre : forall x y, prefix_of x = prefix_of y -> x = y) by (intros x y [= ->]; done).
  split_and!.
  - intros j g content [[= -> -> <-]|Hin]%elem_of_cons.
    + rewrite Hby, Hrow.
      * cbn [attempted]. rewrite synced_list, str_eqb_refl. split; [by apply synced_rows|done].
      * intros a Ha _. by apply Hne.
      * intros a Ha _. apply str_eqb_neq. intros Heq%Hpre. by apply (Hne a Ha).
    + destruct (Hok j g content Hin) as [-> ->]. split; [done|]. f_equal. destruct r as [c|e]; [|done]. cbn [attempted].
      rewrite synced_list, (proj2 (str_eqb_neq _ _)); [by rewrite option_fmap_id|].
      exact (Hne _ Hin).
  - intros id Hno. rewrite Hrow by (intros a Ha; apply Hno; by right). destruct r as [c|e]; [|done]. cbn [attempted].
    rewrite synced_list, (proj2 (str_eqb_neq _ _)); [by rewrite option_fmap_id|].
    intros ->. apply (Hno (i, f, Ok c)); [by left|done|done].
  - intros keep Hno. rewrite Hby by (intros a Ha; apply Hno; by right). destruct r as [c|e]; [|done]. cbn [attempted].
    apply synced_rows; [done|]. apply (Hno (i, f, Ok c)); [by left|done].
Qed.

Lemma attempts_numbers i rows history a : a ∈ attempts i rows history -> (i <= number a)%nat.
Proof.
  revert i history. induction rows as [|[f url] rows IH]; intros i history; cbn [attempts]; [by intros ?%not_elem_of_nil|].
  destruct (due (clock i) f); [intros [->|Ha]%elem_of_cons; [done|]|intros Ha]; apply IH in Ha; lia.
Qed.
Lemma attempts_from i rows history a :
  a ∈ attempts i rows history -> exists url, (a.1.2, url) ∈ rows /\ due (clock (number a)) a.1.2 = true.
Proof.
  revert i history. induction rows as [|[f url] rows IH]; intros i history; cbn [attempts]; [by intros ?%not_elem_of_nil|].
  destruct (due (clock i) f) eqn:Hd.
  - intros [->|Ha]%elem_of_cons; [exists url; split; [by left|done]|]. destruct (IH _ _ Ha) as (u & Hu & ?). exists u. split; [by right|done].
  - intros Ha. destruct (IH _ _ Ha) as (u & Hu & ?). exists u. split; [by right|done].
Qed.
Lemma attempts_unique i rows history :
  NoDup (map (fun r => fl_id r.1) rows) ->
  NoDup (map list_id (attempts i rows history)) /\ NoDup (map number (attempts i rows history)).
Proof.
  revert i history. induction rows as [|[f url] rows IH]; intros i history Hn; cbn [attempts]; [by split; apply NoDup_nil|].
  cbn [map] in Hn. apply NoDup_cons in Hn as [Hf Hn]. destruct (due (clock i) f); [|by apply IH].
  destruct (IH (Datatypes.S i) (history_after history url) Hn) as [H1' H2']. cbn [map]. split; apply NoDup_cons; split; try done.
  - intros (a & Heq & Ha)%list_elem_of_fmap. apply attempts_from in Ha as (u & Hu & _). apply Hf.
    change (fl_id f = list_id a) in Heq. cbn [fst]. rewrite Heq. apply list_elem_of_fmap. by exists (a.1.2, u).
  - intros (a & Heq & Ha)%list_elem_of_fmap. apply attempts_numbers in Ha. change (i = number a) in Heq. lia.
Qed.
End refreshing.
Lemma refreshable_unique rows :
  NoDup (map fl_id rows) -> NoDup (map (fun r => fl_id r.1) (filter_map refreshable rows)).
Proof.
  induction rows as [|f rows IH]; [done|]. cbn [map]. intros [Hf Hn]%NoDup_cons.
  assert (Hx : forall f r, refreshable f = Some r -> r.1 = f).
  { clear. intros f r. unfold refreshable. destruct (fl_url f); [|done]. destruct (_ && _); [|done]. by intros [= <-]. }
  cbn [filter_map]. destruct (refreshable f) as [x|] eqn:Hfx; [|by apply IH]. cbn [map]. apply NoDup_cons. split; [|by apply IH].
  intros (r & Heq & (g & Hg & Hgr)%elem_of_filter_map)%list_elem_of_fmap. apply Hf.
  rewrite <- (Hx f x Hfx), Heq, (Hx g r Hgr). by apply list_elem_of_fmap_2.
Qed.
Lemma attempts_all clock i rows history f url :
  (f, url) ∈ rows -> (forall i, due (clock i) f = true) -> exists a, a ∈ attempts clock i rows history /\ a.1.2 = f.
Proof.
  revert i history. induction rows as [|[g u] rows IH]; intros i history; [by intros ?%not_elem_of_nil|].
  intros [[= <- <-]|Hin]%elem_of_cons Hd; cbn [attempts].
  - rewrite Hd. eexists. split; [by left|done].
  - destruct (due (clock i) g); [|by apply IH]. destruct (IH (Datatypes.S i) (history_after history u) Hin Hd) as (a & Ha & ?).
    exists a. split; [by right|done].
Qed.
Lemma nothing_attempted ds uuid A t : existsb succeeded A = false -> fold_left (attempted ds uuid) A t = t.
Proof.
  revert t. induction A as [|[[i f] [c|e]] A IH]; intros t; cbn [existsb fold_left]; [done|done|]. by apply IH.
Qed.

(** C18: A refresh on a working connection downloads lists that are switched
    on, have a URL and an interval, and were refreshed that many hours ago or
    never; every list that is due, once.  The rules of a list whose download
    succeeds are exactly new rows for what was downloaded, in its order, all
    enabled and without an expiry, and the list's count and time are stored;
    the row of every other list, the rows of the rules of the users and of
    every other list, with all their columns and in their order, and all
    other tables stay as they were.  When a download succeeded the engine ends
    up to date, and when none did nothing changes at all. *)
Theorem refresh_correct ds clock uuid d history s :
  let t := tables (db_of s) in
  let rows := filter_map refreshable (filter_lists t) in
  let A := attempts clock 0 rows history in
  db_works s -> FiltersApi.lists_ok t ->
  (forall i j n m, i <> j -> uuid i n <> uuid j m) -> (forall i, fresh_for (uuid i) t) ->
  exists s', does (filter_refresh_tick ds clock uuid d history) s (Ok (sent clock 0 rows history)) s' /\
    outcome ds uuid A t (tables (db_of s')) /\ NoDup (map list_id A) /\
    (forall a, a ∈ A -> exists url, refreshable a.1.2 = Some (a.1.2, url) /\ a.1.2 ∈ filter_lists t /\
       due (clock (number a)) a.1.2 = true) /\
    (forall f url, f ∈ filter_lists t -> refreshable f = Some (f, url) -> (forall i, due (clock i) f = true) ->
       exists a, a ∈ A /\ a.1.2 = f) /\
    if existsb succeeded A then filter_live (d_text d) s' else s' = s.
Proof.
  intros t rows A Hs Hn Hdiff Hfresh. pose proof (refreshable_unique _ Hn) as Hu.
  destruct (attempts_unique ds clock uuid 0 rows history Hu) as [Hid Hnum].
  pose proof (attempts_outcome ds uuid A t Hid Hnum Hdiff (fun a _ => Hfresh (number a))) as Ho.
  pose proof (does_refresh_lists ds clock uuid rows 0 history false s Hs) as Hd. fold A t in Hd. cbn [orb] in Hd.
  assert (Hrun : forall s', does (if existsb succeeded A then try_reload_filter d else ret tt)
    (with_tables (fold_left (attempted ds uuid) A t) s) (Ok tt) s' ->
    does (filter_refresh_tick ds clock uuid d history) s (Ok (sent clock 0 rows history)) s').
  { intros s' Hs'. unfold filter_refresh_tick.
    eapply does_bind; [eapply does_catch; exact (does_query (fun t => Ok (filter_map refreshable (filter_lists t))) s Hs)|].
    cbn beta iota. eapply does_bind; [exact Hd|]. eapply does_bind; [exact Hs'|apply does_ret]. }
  assert (Hfrom : forall a, a ∈ A -> exists url, refreshable a.1.2 = Some (a.1.2, url) /\ a.1.2 ∈ filter_lists t /\
    due (clock (number a)) a.1.2 = true).
  { intros a Ha. destruct (attempts_from _ _ _ _ _ Ha) as (url & (f & Hf & Hr)%elem_of_filter_map & Hdue). exists url.
    assert (Hfa : f = a.1.2); [|rewrite Hfa in Hf, Hr; done]. revert Hr. unfold refreshable.
    destruct (fl_url f); [|done]. destruct (_ && _); [|done]. by intros [= -> _]. }
  assert (Hall : forall f url, f ∈ filter_lists t -> refreshable f = Some (f, url) -> (forall i, due (clock i) f = true) ->
    exists a, a ∈ A /\ a.1.2 = f).
  { intros f url Hf Hr Hdue. apply (attempts_all clock 0 rows history f url); [|done]. apply elem_of_filter_map. by exists f. }
  destruct (existsb succeeded A) eqn:Hany.
  - exists (reloaded d (with_tables (fold_left (attempted ds uuid) A t) s)).
    split; [apply Hrun, does_try_reload_filter; exact Hs|]. split; [exact Ho|]. split; [exact Hid|]. repeat split; done.
  - exists s. rewrite nothing_attempted in Hrun, Ho by done. unfold t in Hrun. rewrite with_tables_same in Hrun.
    split; [apply Hrun, does_ret|]. split; [exact Ho|]. split; [exact Hid|]. repeat split; done.
Qed.

End tasks.
End Tasks.

(** ** Concrete inputs *)

Module TasksWitness.
Import AsciiUnicode RefRegex RefJson RefIpNet RefMoka RefRng RefHickory RefResolver RefCrypto Api AppWitness SubscriptionWitness Subscription Tasks.

(** Times as numbers. *)
#[export] Instance rfc : Rfc3339 := { parse_rfc3339 s := Z.of_N <$> parse_uint (2 ^ 64) s }.
#[export] Instance order : CollationOrder.
Proof.
  constructor.
  - intros x y z Hxy%negb_true_iff Hyz%negb_true_iff. cbn. apply negb_true_iff. apply not_true_iff_false. intros Hzx.
    destruct (str_leb_total x y) as [Hle|Hle]; [|congruence]. rewrite (str_leb_trans z x y) in Hyz by done. done.
  - intros x y Hxy%negb_false_iff. cbn. destruct (str_leb x y) eqn:E; [right|by left]. by apply str_leb_antisym.
Defined.

Definition at_ (text : string) : Draws :=
  {| d_utc := 100; d_text := lit text; d_instant := 0; d_uuid := lit "n"; d_serial := 1; d_salt := [] |}.
Definition rule (id by_ text : string) (expires : option str) : CustomRule :=
  {| cr_id := lit id; cr_rule := lit text; cr_comment := None; cr_is_enabled := true;
     cr_created_by := lit by_; cr_created_at := lit "t"; cr_expires_at := expires |}.
Definition ads : FilterList :=
  {| fl_id := lit "f"; fl_name := lit "ads"; fl_url := Some (lit "http://lists.org"); fl_is_enabled := true;
     fl_rule_count := 1; fl_last_updated := Some (lit "5"); fl_created_at := lit "t"; fl_update_interval_hours := 24 |}.
Definition db0 : Db :=
  set_custom_rules (set_filter_lists empty_db [ads])
    [rule "1" "filter:f" "||old.com^" None; rule "2" "ann" "||soon.com^" (Some (lit "5"))].
Definition loaded_app : App := reloaded (at_ "1") (app db0).
Definition blocks (s : App) (name : string) : bool := Rules.is_blocked (FilterEngine.rules (App.engine s)) (lit name).

Definition hour : Z := 3600 * 1000000000.
(** Whole hours count; without an interval a list is never due. *)
Example due_test :
  (due (24 * hour + 4)%Z ads, due (24 * hour + 5)%Z ads, num_hours (- hour + 1)) = (false, true, 0%Z).
Proof. vm_compute. reflexivity. Qed.
(** The rotation keeps the entries of the last days. *)
Example rotation_test :
  let q n := {| ql_id := 1; ql_client_name := None; ql_entry := {| q_time := n; q_client_ip := []; q_question := []; q_qtype := []; q_status := []; q_reason := None;
                q_answer := None; q_elapsed_ns := 0; q_upstream_ns := None; q_upstream_name := None; q_app_id := None |} |} in
  map (fun n => old_entry 200000 1 (q n)) [113599999999999; 113600000000000] = [true; false].
Proof. vm_compute. reflexivity. Qed.

Lemma expired_rules_leave_witness :
  blocks loaded_app "soon.com" = true /\ blocks (snd (expired_rules_tick (at_ "7") loaded_app)) "soon.com" = false.
Proof.
  split; [vm_compute; reflexivity|].
  destruct (expired_rules_leave (lit "1") loaded_app (lit "1") loaded_app (at_ "7")) as (Ha & _ & Ht & _);
    [apply reloaded_live|apply run_start|vm_compute; reflexivity|by intros n|].
  unfold blocks. rewrite Ha, Ht. vm_compute. reflexivity.
Defined.

Definition ids (i n : nat) : str := [N.of_nat i; N.of_nat n].
Lemma refresh_correct_witness :
  exists s', does (filter_refresh_tick (fun _ => at_ "9") (fun _ => (25 * hour)%Z) ids (at_ "9") []) loaded_app
      (Ok [lit "http://lists.org"]) s' /\
    rules_by (lit "filter:f") (tables (db_of s')) = [lit "||ads.com^"; lit "@@||ok.ads.com^"] /\
    rules_by (lit "ann") (tables (db_of s')) = [lit "||soon.com^"] /\ filter_live (lit "9") s'.
Proof.
  destruct (refresh_correct (fun _ => at_ "9") (fun _ => (25 * hour)%Z) ids (at_ "9") [] loaded_app)
    as (s' & Hd & (Hok & _ & Hby & _) & _ & _ & _ & Hl).
  - by intros n.
  - apply (bool_decide_unpack _). vm_compute. exact I.
  - intros i j n m Hij [= Hn _]. apply Hij. by apply Nat2N.inj.
  - intros i. split; [intros n m [= Hn]; by apply Nat2N.inj|]. intros n r Hr Heq.
    repeat (apply elem_of_cons in Hr as [->|Hr]; [done|]). by apply not_elem_of_nil in Hr.
  - exists s'. split; [exact Hd|]. split; [|split; [|exact Hl]].
    + unfold rules_by. change (lit "filter:f") with (prefix_of (fl_id ads)). rewrite (proj1 (Hok 0%nat ads list_text ltac:(vm_compute; left))). vm_compute. reflexivity.
    + unfold rules_by. rewrite Hby by (intros a _ _; done). vm_compute. reflexivity.
Defined.
End TasksWitness.
