(* ===== verification/Alerts.v ===== *)
(** * The alerts of the API: src/api/handlers/alerts.rs

    Alerts are raised by the writer of the query log; the handlers list them,
    mark them and delete them, and keep the types that are muted. *)
From S2P Require Import Prelude RustStr IpAddr Regex Rules Acl Moka Hickory Cache Db DbLogic Filter Resolver.
From S2P Require Import UpstreamPool Handler HandlerTests Api App Auth AppTests Listing Tables Clients Groups.
Local Open Scope N_scope.

Record AlertFilterParams := {
  af_page : option Z; af_page_size : option Z; af_is_read : option bool; af_alert_type : option str }.

Module Alerts.
Section alerts.
Context `{RustUnicode, RegexEngine, SerdeJson, Collation, IpNetCrate, Moka, Rng,
  Hickory, !HickoryResolver, !DnsCodec, Jwt}.
Import Api.

(** ** Listing *)

Definition read_flag (b : bool) : Z := if b then 1%Z else 0%Z.
(** The clauses of the [WHERE], with the values bound to them. *)
Definition selected (q : AlertFilterParams) (a : Alert) : bool :=
  match af_is_read q with Some b => (a_is_read a =? read_flag b)%Z | None => true end
  && match af_alert_type q with Some ty => a_type a =s? ty | None => true end.
Definition selection (q : AlertFilterParams) (t : Db) : list Alert := List.filter (selected q) (alerts t).
Definition alerts_page (q : AlertFilterParams) : Z := Z.max (default 1%Z (af_page q)) 1.
Definition alerts_page_size (q : AlertFilterParams) : Z := Z.min (default 50%Z (af_page_size q)) 100.
Record AlertsResponse := { ar_data : list Alert; ar_total : nat; ar_page : Z; ar_page_size : Z }.
(** The offset is multiplied without a check; a count that fails is 0. *)
Definition list_alerts (d : Draws) (p : Parts) (q : AlertFilterParams) : M App AppError AlertsResponse :=
  AuthUser d p ;;;
  let page := alerts_page q in
  let page_size := alerts_page_size q in
  let offset := Groups.wrap_i64 ((page - 1) * page_size) in
  let! total := catch (E := DbError) (fetch_one (fun t => Some (length (selection q t)))) in
  let! rows := db (query (fun t =>
    Groups.checked_limit page_size offset (Listing.order_desc a_created_at (selection q t)))) in
  ret {| ar_data := rows; ar_total := match total with Ok n => n | Err _ => 0%nat end;
         ar_page := page; ar_page_size := page_size |}.

(** ** Marking and deleting *)

Definition set_read (a : Alert) : Alert :=
  {| a_id := a_id a; a_type := a_type a; a_client_id := a_client_id a; a_message := a_message a; a_is_read := 1;
     a_created_at := a_created_at a |}.
Definition alert_not_found : AppError := NotFound (lit "Alert not found").
Definition mark_alert_read (d : Draws) (p : Parts) (id : str) : M App AppError unit :=
  AdminUser d p ;;;
  let! n := db (execute (fun t => Ok (count_named a_id id (alerts t), set_alerts t (change_named a_id id set_read (alerts t))))) in
  if (n =? 0)%nat then fail alert_not_found else ret tt.
Definition unread (a : Alert) : bool := (a_is_read a =? 0)%Z.
Definition mark_all_alerts_read (d : Draws) (p : Parts) : M App AppError nat :=
  AdminUser d p ;;;
  db (execute (fun t => Ok (length (List.filter unread (alerts t)),
    set_alerts t (map (fun a => if unread a then set_read a else a) (alerts t))))).
Definition clear_alerts (d : Draws) (p : Parts) : M App AppError nat :=
  AdminUser d p ;;; db (execute (fun t => Ok (length (alerts t), set_alerts t []))).
Definition delete_alert (d : Draws) (p : Parts) (id : str) : M App AppError unit :=
  AdminUser d p ;;;
  let! n := db (execute (fun t => Ok (count_named a_id id (alerts t), set_alerts t (without a_id id (alerts t))))) in
  if (n =? 0)%nat then fail alert_not_found else ret tt.

(** ** Mutes *)

(** [muted_until IS NULL OR muted_until > $1] *)
Definition mute_active (now : str) (m : AlertMute) : bool :=
  match am_muted_until m with Some u => text_lt now u | None => true end.
Definition list_mutes (d : Draws) (p : Parts) : M App AppError (list AlertMute) :=
  AdminUser d p ;;;
  db (fetch_all (fun t => Listing.order_desc am_created_at (List.filter (mute_active (d_text d)) (alert_mutes t)))).
Definition set_until (u : option str) (m : AlertMute) : AlertMute :=
  {| am_alert_type := am_alert_type m; am_muted_until := u; am_created_at := am_created_at m |}.
(** [INSERT .. ON CONFLICT (alert_type) DO UPDATE SET muted_until = ..] *)
Definition put_mute (ty : str) (until : option str) (now : str) (t : Db) : result (unit * Db) DbError :=
  let rows := alert_mutes t in
  Ok (tt, set_alert_mutes t
    (match row_named am_alert_type ty rows with
     | Some _ => change_named am_alert_type ty (set_until until) rows
     | None => rows ++ [{| am_alert_type := ty; am_muted_until := until; am_created_at := now |}]
     end)).
Definition upsert_mute (d : Draws) (p : Parts) (ty : str) (until : option str) : M App AppError unit :=
  AdminUser d p ;;; db (execute (put_mute ty until (d_text d))).
Definition delete_mute (d : Draws) (p : Parts) (ty : str) : M App AppError unit :=
  AdminUser d p ;;; db (execute (fun t => Ok (tt, set_alert_mutes t (without am_alert_type ty (alert_mutes t))))).

(** ** What the calls do *)

Inductive Call :=
| MarkRead (id : str) | MarkAll | Clear | DeleteAlert (id : str) | Mute (ty : str) (until : option str) | Unmute (ty : str).
Definition run (d : Draws) (p : Parts) (c : Call) : M App AppError unit :=
  match c with
  | MarkRead id => mark_alert_read d p id
  | MarkAll => mark_all_alerts_read d p ;;; ret tt
  | Clear => clear_alerts d p ;;; ret tt
  | DeleteAlert id => delete_alert d p id
  | Mute ty until => upsert_mute d p ty until
  | Unmute ty => delete_mute d p ty
  end.

Definition alerts_of (t : Db) : gmap str Alert := view a_id (fun a => a) (alerts t).
Definition mutes_of (t : Db) : gmap str (option str * str) :=
  view am_alert_type (fun m => (am_muted_until m, am_created_at m)) (alert_mutes t).
Definition is_call_on_mutes (c : Call) : bool := match c with Mute _ _ | Unmute _ => true | _ => false end.
(** The alerts after a call, or why it is refused. *)
Definition spec_alerts (c : Call) (m : gmap str Alert) : result (gmap str Alert) AppError :=
  match c with
  | MarkRead id => match m !! id with Some a => Ok (<[id := set_read a]> m) | None => Err alert_not_found end
  | MarkAll => Ok ((fun a => if unread a then set_read a else a) <$> m)
  | Clear => Ok ∅
  | DeleteAlert id => match m !! id with Some _ => Ok (delete id m) | None => Err alert_not_found end
  | Mute _ _ | Unmute _ => Ok m
  end.
(** A mute that is set again keeps the time it was made. *)
Definition spec_mutes (now : str) (c : Call) (m : gmap str (option str * str)) : gmap str (option str * str) :=
  match c with
  | Mute ty until => <[ty := (until, match m !! ty with Some v => v.2 | None => now end)]> m
  | Unmute ty => delete ty m
  | _ => m
  end.
Definition stored (t t' : Db) : Prop := t' = set_alert_mutes (set_alerts t (alerts t')) (alert_mutes t').
Definition implements (d : Draws) (p : Parts) (c : Call) (s : App) : Prop :=
  let t := tables (db_of s) in
  exists r t', does (run d p c) s r (with_tables t' s) /\ stored t t' /\
    match spec_alerts c (alerts_of t) with
    | Ok m => r = Ok tt /\ alerts_of t' = m /\ mutes_of t' = spec_mutes (d_text d) c (mutes_of t)
    | Err e => r = Err e /\ t' = t
    end.

Section calls.
Context (d : Draws) (p : Parts) (admin : Claims) (s : App).
#[local] Abbreviation t := (tables (db_of s)).
Context (Hs : db_works s) (Hadmin : fst (AdminUser d p s) = Ok admin).
Lemma al_admin : does (AdminUser d p) s (Ok admin) s.
Proof. pose proof (does_AdminUser d p s) as Ha. by rewrite Hadmin in Ha. Qed.
Lemma al_lookup id : alerts_of t !! id = row_named a_id id (alerts t).
Proof. unfold alerts_of. rewrite lookup_view. by destruct (row_named _ _ _). Qed.
Lemma al_stored_alerts l : stored t (set_alerts t l).
Proof. unfold stored. by destruct t. Qed.
Lemma al_stored_mutes l : stored t (set_alert_mutes t l).
Proof. unfold stored. by destruct t. Qed.

Lemma al_mark id : implements d p (MarkRead id) s.
Proof.
  pose proof al_admin as Ha. pose proof (al_lookup id) as Hl. pose proof (count_named_0 a_id id (alerts t)) as Hc.
  unfold implements. cbn [spec_alerts run]. unfold mark_alert_read. rewrite Hl.
  destruct (row_named a_id id (alerts t)) as [a|] eqn:Hrow.
  - eexists _, _. split; [|split; [apply al_stored_alerts|]].
    + eapply does_bind; [exact Ha|]. eapply does_bind; [by eapply does_db_execute|].
      rewrite (proj2 (Nat.eqb_neq _ _)) by (intros Hz; by apply Hc in Hz). apply does_ret.
    + split; [done|]. split; [|done]. by apply (view_change a_id (fun a => a) _ _ set_read a).
  - eexists _, t. split; [|split; [by destruct t|done]].
    eapply does_bind; [exact Ha|]. eapply does_bind; [by eapply does_db_execute|].
    rewrite (proj2 (Nat.eqb_eq _ _)) by (by apply Hc). rewrite change_nothing by done.
    replace (set_alerts t (alerts t)) with t by (by destruct t). apply does_fail.
Qed.
Lemma al_delete id : implements d p (DeleteAlert id) s.
Proof.
  pose proof al_admin as Ha. pose proof (al_lookup id) as Hl. pose proof (count_named_0 a_id id (alerts t)) as Hc.
  unfold implements. cbn [spec_alerts run]. unfold delete_alert. rewrite Hl.
  destruct (row_named a_id id (alerts t)) as [a|] eqn:Hrow.
  - eexists _, _. split; [|split; [apply al_stored_alerts|]].
    + eapply does_bind; [exact Ha|]. eapply does_bind; [by eapply does_db_execute|].
      rewrite (proj2 (Nat.eqb_neq _ _)) by (intros Hz; by apply Hc in Hz). apply does_ret.
    + split; [done|]. split; [|done]. apply (view_without a_id (fun a => a)).
  - eexists _, t. split; [|split; [by destruct t|done]].
    eapply does_bind; [exact Ha|]. eapply does_bind; [by eapply does_db_execute|].
    rewrite (proj2 (Nat.eqb_eq _ _)) by (by apply Hc). rewrite without_unchanged by done.
    replace (set_alerts t (alerts t)) with t by (by destruct t). apply does_fail.
Qed.
Lemma al_all : implements d p MarkAll s /\ implements d p Clear s.
Proof.
  pose proof al_admin as Ha. split; eexists _, _; (split; [|split; [apply al_stored_alerts|]]).
  - unfold run, mark_all_alerts_read. eapply does_bind; [eapply does_bind; [exact Ha|by eapply does_db_execute]|apply does_ret].
  - split; [done|]. split; [|done]. apply map_eq. intros x. unfold alerts_of. cbn [alerts set_alerts].
    rewrite (view_map a_id (fun a => a) (fun a => if unread a then set_read a else a)), lookup_fmap, lookup_view
      by (intros a; by destruct (unread a)). by destruct (row_named _ _ _).
  - unfold run, clear_alerts. eapply does_bind; [eapply does_bind; [exact Ha|by eapply does_db_execute]|apply does_ret].
  - done.
Qed.
Lemma al_mutes ty until : implements d p (Mute ty until) s /\ implements d p (Unmute ty) s.
Proof.
  pose proof al_admin as Ha. split; eexists _, _; (split; [|split; [apply al_stored_mutes|]]).
  - unfold run, upsert_mute. eapply does_bind; [exact Ha|by eapply does_db_execute].
  - split; [done|]. split; [done|]. cbn [spec_mutes]. unfold mutes_of. rewrite lookup_view. cbn [alert_mutes set_alert_mutes].
    destruct (row_named am_alert_type ty (alert_mutes t)) as [m|] eqn:Hm.
    + by rewrite (view_change am_alert_type _ _ _ (set_until until) m).
    + by rewrite (view_snoc am_alert_type _ _ {| am_alert_type := ty; am_muted_until := until; am_created_at := d_text d |}).
  - unfold run, delete_mute. eapply does_bind; [exact Ha|by eapply does_db_execute].
  - split; [done|]. split; [done|]. apply view_without.
Qed.
End calls.

(** On a working connection every call of an administrator does to the
    alerts and to the muted types what two abstract stores say, and nothing
    else; a call on an alert that does not exist is refused. *)
Theorem alerts_calls_correct d p admin c s :
  db_works s -> fst (AdminUser d p s) = Ok admin -> implements d p c s.
Proof.
  intros Hs Ha. destruct c as [id| | |id|ty u|ty].
  - by apply al_mark with admin.
  - by apply (al_all d p admin s Hs Ha).
  - by apply (al_all d p admin s Hs Ha).
  - by apply al_delete with admin.
  - by apply (al_mutes d p admin s Hs Ha ty u).
  - by apply (al_mutes d p admin s Hs Ha ty None).
Qed.

(** ** Pages *)

Lemma wrap_i64_nonneg k :
  (0 <= k)%Z ->
  Groups.wrap_i64 k = if (k mod 2 ^ 64 <? 2 ^ 63)%Z then (k mod 2 ^ 64)%Z else (k mod 2 ^ 64 - 2 ^ 64)%Z.
Proof.
  intros Hk. unfold Groups.wrap_i64. pose proof (Z.mod_pos_bound k (2 ^ 64)) as Hb.
  assert (Hs : ((k + 2 ^ 63) mod 2 ^ 64 = (k mod 2 ^ 64 + 2 ^ 63) mod 2 ^ 64)%Z) by (by rewrite Z.add_mod_idemp_l).
  rewrite Hs. destruct (Z.ltb_spec (k mod 2 ^ 64) (2 ^ 63)).
  - rewrite Z.mod_small by lia. lia.
  - rewrite <- (Z.mod_add _ (-1)) by lia. rewrite Z.mod_small by lia. lia.
Qed.
Definition page_response (q : AlertFilterParams) (offset : Z) (t : Db) : AlertsResponse :=
  {| ar_data := Listing.limit (alerts_page_size q) offset (Listing.order_desc a_created_at (selection q t));
     ar_total := length (selection q t); ar_page := alerts_page q; ar_page_size := alerts_page_size q |}.

(** The listing of the alerts answers with the selected alerts from the
    offset on, newest first, at most 100, as long as the offset fits in 64
    bits.  A larger one wraps around: where the wrapped number is negative, or
    the page size is, the server refuses the statement; elsewhere a page far
    past the end answers with alerts of an early one. *)
Theorem alerts_listing d p q auth s :
  db_works s -> fst (AuthUser d p s) = Ok auth ->
  let t := tables (db_of s) in
  let k := ((alerts_page q - 1) * alerts_page_size q)%Z in
  exists r, does (list_alerts d p q) s r s /\
    ((alerts_page_size q < 0)%Z -> r = Err (Database InvalidRowCount)) /\
    ((0 <= alerts_page_size q)%Z ->
      ((k < 2 ^ 63)%Z -> r = Ok (page_response q k t)) /\
      ((k mod 2 ^ 64 < 2 ^ 63)%Z -> r = Ok (page_response q (k mod 2 ^ 64) t)) /\
      ((2 ^ 63 <= k mod 2 ^ 64)%Z -> r = Err (Database InvalidRowCount)) /\
      (forall a, r = Ok a -> (length (ar_data a) <= 100)%nat)).
Proof.
  intros Hs Hauth t k. pose proof (does_AuthUser d p s) as Ha. rewrite Hauth in Ha.
  assert (Hpage : (1 <= alerts_page q)%Z) by (unfold alerts_page; lia).
  assert (Hsize : (alerts_page_size q <= 100)%Z) by (unfold alerts_page_size; lia).
  pose proof (does_query (fun t => Ok (length (selection q t))) s Hs) as Hcount.
  set (rows := Listing.order_desc a_created_at (selection q t)).
  set (answer := Groups.checked_limit (alerts_page_size q) (Groups.wrap_i64 k) rows).
  set (r := match answer with Ok l => Ok {| ar_data := l; ar_total := length (selection q t); ar_page := alerts_page q;
    ar_page_size := alerts_page_size q |} | Err e => Err (Database e) end).
  exists r. split.
  { unfold list_alerts. eapply does_bind; [exact Ha|]. cbn beta zeta. eapply does_bind; [eapply does_catch; exact Hcount|].
    unfold r. destruct answer as [l|e] eqn:Hans.
    - eapply does_bind; [apply does_db_query; [exact Hs|exact Hans]|apply does_ret].
    - apply does_bind_err. apply does_db_query_err; [exact Hs|exact Hans]. }
  unfold r, answer, Groups.checked_limit. split.
  { intros Hneg. by rewrite (proj2 (Z.ltb_lt _ _) Hneg). }
  intros Hpos. rewrite (proj2 (Z.ltb_ge (alerts_page_size q) 0) Hpos). cbn [orb].
  assert (Hk : (0 <= k)%Z) by (unfold k; nia). rewrite (wrap_i64_nonneg k Hk).
  pose proof (Z.mod_pos_bound k (2 ^ 64)) as Hb. split; [|split; [|split]].
  - intros Hlt. rewrite Z.mod_small by lia. rewrite (proj2 (Z.ltb_lt k _) Hlt). by rewrite (proj2 (Z.ltb_ge k 0)).
  - intros Hlt. rewrite (proj2 (Z.ltb_lt _ _) Hlt). by rewrite (proj2 (Z.ltb_ge (k mod 2 ^ 64) 0)) by lia.
  - intros Hge. rewrite (proj2 (Z.ltb_ge _ _) Hge). by rewrite (proj2 (Z.ltb_lt (k mod 2 ^ 64 - 2 ^ 64) 0)) by lia.
  - intros a. destruct (_ <? 0)%Z; [done|]. intros [= <-]. cbn [ar_data].
    match goal with |- context [Listing.limit ?n ?k ?l] => pose proof (Listing.limit_length n k l) end. lia.
Qed.

End alerts.
End Alerts.

(** ** Concrete inputs *)

Module AlertsWitness.
Import AsciiUnicode RefRegex RefJson RefIpNet RefMoka RefRng RefHickory RefResolver RefCrypto Api AppWitness Alerts.

Definition alert (id ty at_ : string) (read : Z) : Alert :=
  {| a_id := lit id; a_type := lit ty; a_client_id := None; a_message := lit "m"; a_is_read := read; a_created_at := lit at_ |}.
Definition tables1 : Db :=
  set_alerts empty_db [alert "1" "anomaly" "t1" 0; alert "2" "anomaly" "t2" 1; alert "3" "upstream" "t3" 0].
Definition params (page size : Z) : AlertFilterParams :=
  {| af_page := Some page; af_page_size := Some size; af_is_read := None; af_alert_type := None |}.
Definition listed (page size : Z) : result (list str) AppError :=
  match fst (list_alerts today admin (params page size) (app tables1)) with
  | Ok r => Ok (map a_id (ar_data r)) | Err e => Err e end.

(** The second page of two, one past the end, and two whose offsets wrap: to
    a negative number, and to nothing. *)
Example pages_test :
  map (fun page => listed page 2) [2; 3; 2 ^ 62 + 1; 2 ^ 63 - 1]%Z =
  [Ok [lit "1"]; Ok []; Err (Database InvalidRowCount); Err (Database InvalidRowCount)] /\
  listed (2 ^ 62 + 1) 4 = Ok [lit "3"; lit "2"; lit "1"].
Proof. vm_compute. done. Qed.
Example mute_again_test :
  let s := snd (run today admin (Mute (lit "anomaly") (Some (lit "later"))) (app tables1)) in
  mutes_of (tables (db_of (snd (run today admin (Mute (lit "anomaly") None) s)))) !! lit "anomaly" = Some (None, lit "now").
Proof. vm_compute. reflexivity. Qed.

Lemma alerts_calls_correct_witness : implements today admin (DeleteAlert (lit "2")) (app tables1).
Proof. exact (alerts_calls_correct today admin AuthWitness.ann (DeleteAlert (lit "2")) (app tables1) (app_works tables1) (admin_admin tables1)). Defined.
Lemma alerts_listing_witness :
  exists r, does (list_alerts today admin (params (2 ^ 62 + 1) 4)) (app tables1) r (app tables1) /\
    r = Ok (page_response (params (2 ^ 62 + 1) 4) 0 tables1).
Proof.
  destruct (alerts_listing today admin (params (2 ^ 62 + 1) 4) AuthWitness.ann (app tables1) (app_works tables1) (admin_ok tables1))
    as (r & Hr & _ & Hpos).
  exists r. split; [exact Hr|]. destruct (Hpos ltac:(vm_compute; done)) as (_ & Hwrap & _). apply Hwrap. vm_compute. done.
Defined.
End AlertsWitness.
