(* ===== verification/Upstreams.v ===== *)
(** * The upstreams of the API: src/api/handlers/upstreams.rs and src/db/models/upstream.rs

    The handlers store, change and delete the upstreams and reload the pool,
    test one and trigger a failover.  They bind times as texts to columns of
    the type TIMESTAMP, which the repository and the tasks do not. *)
From S2P Require Import Prelude RustStr IpAddr Regex Rules Acl Moka Hickory Cache Db DbLogic Filter Resolver.
From S2P Require Import UpstreamPool Handler HandlerTests Api App Auth AppTests Listing Tables.
Local Open Scope N_scope.

(** The server and [sqlx] at columns of the type TIMESTAMP: what storing a
    parameter of the type TEXT there gives, unless the statement is refused,
    the text of a value, and what reading one as a [String] or as a
    [DateTime<Utc>] gives. *)
Class SqlTimestamp := {
  text_as_timestamp : str -> option Z;
  timestamp_text : Z -> str;
  timestamp_as_string : Z -> option str;
  timestamp_as_utc : Z -> option Z }.
(** PostgreSQL has no assignment cast from text, and [sqlx] reads a column
    only as a type made for it. *)
Class SqlTimestampDoc `{SqlTimestamp} := {
  no_text_assignment : forall s, text_as_timestamp s = None;
  no_string_column : forall z, timestamp_as_string z = None;
  no_utc_column : forall z, timestamp_as_utc z = None }.

Record CreateUpstreamRequest := {
  cu_name : str; cu_addresses : list str; cu_priority : Z; cu_health_check_interval : Z; cu_health_check_timeout : Z;
  cu_failover_threshold : Z }.
Record UpdateUpstreamRequest := {
  uu_name : option str; uu_addresses : option (list str); uu_priority : option Z; uu_is_active : option bool;
  uu_health_check_enabled : option bool; uu_failover_enabled : option bool; uu_health_check_interval : option Z;
  uu_health_check_timeout : option Z; uu_failover_threshold : option Z }.

Module Upstreams.
Section upstreams.
Context `{RustUnicode, RegexEngine, SerdeJson, Collation, IpNetCrate, Moka, Rng,
  Hickory, !HickoryResolver, !DnsCodec, Jwt, SqlTimestamp}.
Import Api.

(** ** Rows *)

Definition upstream_by_id (id : str) (t : Db) : option Upstream := row_named u_id id (dns_upstreams t).
(** [CAST(priority AS INTEGER)] *)
Definition cast_i32 (z : Z) : result Z DbError :=
  if ((- 2 ^ 31 <=? z) && (z <? 2 ^ 31))%Z then Ok z else Err NumericOutOfRange.

(** What a listing shows of an upstream. *)
Record UpstreamView := {
  uv_row : Upstream; uv_addresses : list str; uv_last_health_check_at : option str; uv_last_failover_at : option str;
  uv_created_at : str; uv_updated_at : str }.
Definition upstream_view (u : Upstream) : result UpstreamView DbError :=
  try! _ := cast_i32 (u_priority u) in
  Ok {| uv_row := u; uv_addresses := default [] (json_strings (u_addresses u));
        uv_last_health_check_at := timestamp_text <$> u_last_health_check_at u;
        uv_last_failover_at := timestamp_text <$> u_last_failover_at u;
        uv_created_at := timestamp_text (u_created_at u); uv_updated_at := timestamp_text (u_updated_at u) |}.

(** [CAST(AVG(..) AS BIGINT)]: to the nearest, a half away from zero. *)
Definition round_div (a n : Z) : Z := (Z.sgn a * ((2 * Z.abs a + n) / (2 * n)))%Z.
Definition average (l : list Z) : option Z :=
  match l with [] => None | _ => Some (round_div (fold_right Z.add 0%Z l) (Z.of_nat (length l))) end.
Definition samples_of (id : str) (t : Db) : list LatencySample :=
  List.filter (fun x => ul_upstream_id x =s? id) (upstream_latency_log t).
(** The samples carry a serial number, so the last one is the newest. *)
Definition last_latency (id : str) (t : Db) : option Z := ul_latency_ms <$> last (samples_of id t).
Definition recent_average (now : Z) (minutes : Z) (id : str) (t : Db) : option Z :=
  average (map ul_latency_ms (List.filter (fun x => (ul_success x =? 1)%Z && (now - 60 * minutes <=? ul_checked_at x)%Z)
    (samples_of id t))).
Fixpoint try_map {A B} (f : A -> result B DbError) (l : list A) : result (list B) DbError :=
  match l with
  | [] => Ok []
  | x :: l' => try! y := f x in try! ys := try_map f l' in Ok (y :: ys)
  end.
Definition list_rows (d : Draws) (q : Parts) : M App AppError (list (UpstreamView * option Z * option Z * option Z)) :=
  AuthUser d q ;;;
  let now := Z.of_N (d_utc d) in
  db (query (fun t => try_map (fun u =>
    try! v := upstream_view u in
    Ok (v, last_latency (u_id u) t, recent_average now 30 (u_id u) t, recent_average now 60 (u_id u) t))
    (Handler.list_upstreams t))).

Definition upstream_not_found (id : str) : AppError := NotFound (lit "Upstream " ++ id ++ lit " not found").
Definition fetch_view (id : str) : M App AppError (option UpstreamView) :=
  db (query (fun t => match upstream_by_id id t with Some u => try! v := upstream_view u in Ok (Some v) | None => Ok None end)).
Definition get (d : Draws) (q : Parts) (id : str) : M App AppError UpstreamView :=
  AuthUser d q ;;;
  let! row := fetch_view id in
  lift (ok_or row (upstream_not_found id)).

(** ** Storing *)

Definition empty_name : AppError := Validation "Upstream name cannot be empty".
Definition no_address : AppError := Validation "At least one address is required".
Definition insert_upstream (id name addresses : str) (b : CreateUpstreamRequest) (now : str) (t : Db) : result (unit * Db) DbError :=
  match text_as_timestamp now with
  | None => Err DatatypeMismatch
  | Some at_ =>
      if existsb (fun u => u_id u =s? id) (dns_upstreams t) then Err UniqueViolation
      else Ok (tt, set_dns_upstreams t (dns_upstreams t ++
        [{| u_id := id; u_name := name; u_addresses := addresses; u_priority := cu_priority b; u_is_active := true;
            u_health_check_enabled := true; u_failover_enabled := true;
            u_health_check_interval := cu_health_check_interval b; u_health_check_timeout := cu_health_check_timeout b;
            u_failover_threshold := cu_failover_threshold b; u_health_status := lit "unknown";
            u_last_health_check_at := None; u_last_failover_at := None; u_created_at := at_; u_updated_at := at_ |}]))
  end.
Definition create (d : Draws) (p : Parts) (body : CreateUpstreamRequest) : M App AppError str :=
  let ip := ClientIp p in
  let! admin := AdminUser d p in
  let name := trim (cu_name body) in
  if is_empty name then fail empty_name
  else if bool_decide (cu_addresses body = []) then fail no_address
  else
    db (execute (insert_upstream (d_uuid d) name (json_of_strings (cu_addresses body)) body (d_text d))) ;;;
    try_reload_upstreams d ;;;
    log_action d (sub admin) (username admin) "create" "upstream" (Some (d_uuid d)) (Some name) ip ;;;
    ret (d_uuid d).

Definition merged (b : UpdateUpstreamRequest) (u : Upstream) : Upstream :=
  {| u_id := u_id u; u_name := default (u_name u) (uu_name b);
     u_addresses := match uu_addresses b with Some a => json_of_strings a | None => u_addresses u end;
     u_priority := default (u_priority u) (uu_priority b); u_is_active := default (u_is_active u) (uu_is_active b);
     u_health_check_enabled := default (u_health_check_enabled u) (uu_health_check_enabled b);
     u_failover_enabled := default (u_failover_enabled u) (uu_failover_enabled b);
     u_health_check_interval := default (u_health_check_interval u) (uu_health_check_interval b);
     u_health_check_timeout := default (u_health_check_timeout u) (uu_health_check_timeout b);
     u_failover_threshold := default (u_failover_threshold u) (uu_failover_threshold b);
     u_health_status := u_health_status u; u_last_health_check_at := u_last_health_check_at u;
     u_last_failover_at := u_last_failover_at u; u_created_at := u_created_at u; u_updated_at := u_updated_at u |}.
(** The columns of [v] the statement sets, in the row. *)
Definition set_columns (v : Upstream) (at_ : Z) (u : Upstream) : Upstream :=
  {| u_id := u_id u; u_name := u_name v; u_addresses := u_addresses v; u_priority := u_priority v;
     u_is_active := u_is_active v; u_health_check_enabled := u_health_check_enabled v;
     u_failover_enabled := u_failover_enabled v; u_health_check_interval := u_health_check_interval v;
     u_health_check_timeout := u_health_check_timeout v; u_failover_threshold := u_failover_threshold v;
     u_health_status := u_health_status u; u_last_health_check_at := u_last_health_check_at u;
     u_last_failover_at := u_last_failover_at u; u_created_at := u_created_at u; u_updated_at := at_ |}.
Definition update_upstream (id : str) (v : Upstream) (now : str) (t : Db) : result (unit * Db) DbError :=
  match text_as_timestamp now with
  | None => Err DatatypeMismatch
  | Some at_ => Ok (tt, set_dns_upstreams t (change_named u_id id (set_columns v at_) (dns_upstreams t)))
  end.
Definition update (d : Draws) (p : Parts) (id : str) (body : UpdateUpstreamRequest) : M App AppError Upstream :=
  let ip := ClientIp p in
  let! admin := AdminUser d p in
  let! existing := fetch_view id in
  let! old := lift (ok_or existing (upstream_not_found id)) in
  let new := merged body (uv_row old) in
  db (execute (update_upstream id new (d_text d))) ;;;
  try_reload_upstreams d ;;;
  log_action d (sub admin) (username admin) "update" "upstream" (Some id) (Some (u_name new)) ip ;;;
  ret new.

(** The samples of the upstream go with it ([ON DELETE CASCADE]). *)
Definition delete_upstream (id : str) (t : Db) : result (nat * Db) DbError :=
  Ok (count_named u_id id (dns_upstreams t),
      set_upstream_latency_log (set_dns_upstreams t (without u_id id (dns_upstreams t)))
        (if bool_decide (is_Some (upstream_by_id id t)) then without ul_upstream_id id (upstream_latency_log t)
         else upstream_latency_log t)).
Definition delete (d : Draws) (p : Parts) (id : str) : M App AppError unit :=
  let ip := ClientIp p in
  let! admin := AdminUser d p in
  let! rows_affected := db (execute (delete_upstream id)) in
  if (rows_affected =? 0)%nat then fail (upstream_not_found id)
  else
    try_reload_upstreams d ;;;
    log_action d (sub admin) (username admin) "delete" "upstream" (Some id) None ip.

(** ** Reaching an upstream *)

Inductive ConnectError := BadUrl (e : Resolver.UrlError) | ResolveFailed | NoAddresses | BadPort | BadIp | LookupFailed.

(** Both URL functions: the text up to the path, split into host and port. *)
Definition parse_doh_host_port (url : str) : result (str * N * str) Resolver.UrlError :=
  try! rest := ok_or (strip_prefix url "https://") Resolver.BadScheme in
  let '(authority, path) :=
    match split_once rest slash with Some (a, p) => (a, slash :: p) | None => (rest, lit "/dns-query") end in
  try! host_port := Resolver.split_authority authority 443 in
  if is_empty (fst host_port) then Err Resolver.EmptyHost else Ok (fst host_port, snd host_port, path).
(** src/api/mod.rs *)
Definition parse_url_host_port (url prefix : str) (default_port : N) : result (str * N) Resolver.UrlError :=
  try! rest := ok_or (strip_prefix url prefix) Resolver.BadScheme in
  let authority := match split_once rest slash with Some (a, _) => a | None => rest end in
  if is_empty authority then Err Resolver.EmptyHost else Resolver.split_authority authority default_port.

(** The name servers at the addresses of a host. *)
Definition servers_at (group : list IpAddr -> N -> str -> list NameServerConfig) (host_port : str * N)
    : result (list NameServerConfig) ConnectError :=
  let '(host, port) := host_port in
  try! addrs := ok_or (to_socket_addrs (host ++ lit ":" ++ show_N port)) ResolveFailed in
  match addrs with
  | [] => Err NoAddresses
  | _ => Ok (group (map sa_ip addrs) port host)
  end.
(** A plain address: the last colon is taken for that of a port. *)
Definition plain_server (addr : str) : result (list NameServerConfig) ConnectError :=
  try! ip_port :=
    (if contains_char addr colon then
       match rsplit_once addr colon with
       | Some (ip, port) => try! n := ok_or (parse_u16 port) BadPort in Ok (ip, n)
       | None => Err BadPort
       end
     else Ok (addr, 53)) in
  try! ip := ok_or (parse_ip (fst ip_port)) BadIp in
  Ok [ns_new {| sa_ip := ip; sa_port := snd ip_port |} Udp].
Definition test_servers (addr : str) : result (list NameServerConfig) ConnectError :=
  if starts_with addr "https://" then
    try! hpp := map_err BadUrl (parse_doh_host_port addr) in servers_at from_ips_https (fst hpp)
  else if starts_with addr "tls://" then
    try! rest := ok_or (strip_prefix addr "tls://") (BadUrl Resolver.BadScheme) in
    let authority := match split_once rest slash with Some (a, _) => a | None => rest end in
    try! host_port :=
      match rsplit_once authority colon with
      | Some (host, port) => try! n := ok_or (parse_u16 port) BadPort in Ok (host, n)
      | None => Ok (authority, 853)
      end in
    servers_at from_ips_tls host_port
  else plain_server addr.
(** src/api/mod.rs *)
Definition check_servers (addr : str) : result (list NameServerConfig) ConnectError :=
  if starts_with addr "https://" then
    try! host_port := map_err BadUrl (parse_url_host_port addr "https://" 443) in servers_at from_ips_https host_port
  else if starts_with addr "tls://" then
    try! host_port := map_err BadUrl (parse_url_host_port addr "tls://" 853) in servers_at from_ips_tls host_port
  else plain_server addr.

(** The network: whether a lookup of example.com through the servers answers
    within the seconds, and how long the attempt takes. *)
Record Net := { net_answers : list NameServerConfig -> N -> bool; net_ms : Z }.
(** [timeout as u64] *)
Definition as_u64 (z : Z) : N := Z.to_N (z mod 2 ^ 64).
Definition connectivity (net : Net) (servers : result (list NameServerConfig) ConnectError) (timeout : Z) : result unit ConnectError :=
  try! ns := servers in
  if net_answers net ns (as_u64 timeout) then Ok tt else Err LookupFailed.
Definition test_dns_connectivity (net : Net) (addr : str) (timeout : Z) := connectivity net (test_servers addr) timeout.
Definition check_upstream_connectivity (net : Net) (addr : str) (timeout : Z) := connectivity net (check_servers addr) timeout.

Definition status_of (success : bool) : str := lit (if success then "healthy" else "degraded")%string.
Definition set_checked (status : str) (checked updated : Z) (u : Upstream) : Upstream :=
  {| u_id := u_id u; u_name := u_name u; u_addresses := u_addresses u; u_priority := u_priority u;
     u_is_active := u_is_active u; u_health_check_enabled := u_health_check_enabled u;
     u_failover_enabled := u_failover_enabled u; u_health_check_interval := u_health_check_interval u;
     u_health_check_timeout := u_health_check_timeout u; u_failover_threshold := u_failover_threshold u;
     u_health_status := status; u_last_health_check_at := Some checked; u_last_failover_at := u_last_failover_at u;
     u_created_at := u_created_at u; u_updated_at := updated |}.
Definition add_sample (id : str) (ms : Z) (success : bool) (at_ : Z) (t : Db) : result (unit * Db) DbError :=
  if bool_decide (is_Some (upstream_by_id id t)) then
    Ok (tt, set_upstream_latency_log t (upstream_latency_log t ++
      [{| ul_upstream_id := id; ul_latency_ms := ms; ul_success := (if success then 1 else 0)%Z; ul_checked_at := at_ |}]))
  else Err ForeignKeyViolation.
Definition store_status (id status : str) (at_ : Z) (t : Db) : result (unit * Db) DbError :=
  Ok (tt, set_dns_upstreams t (change_named u_id id (set_checked status at_ at_) (dns_upstreams t))).
(** A statement whose times are bound as texts. *)
Definition with_text_time {A} (now : str) (f : Z -> Db -> result (A * Db) DbError) (t : Db) : result (A * Db) DbError :=
  match text_as_timestamp now with Some at_ => f at_ t | None => Err DatatypeMismatch end.

Record TestResponse := { tr_success : bool; tr_latency_ms : Z; tr_error : option ConnectError }.
Inductive TestAnswer := NoAddressConfigured | Tested (r : TestResponse).
Definition invalid_addresses : AppError := Internal (lit "Invalid addresses format").
Definition test (net : Net) (d : Draws) (p : Parts) (id : str) : M App AppError TestAnswer :=
  AdminUser d p ;;;
  let! row := db (fetch_optional (upstream_by_id id)) in
  let! u := lift (ok_or row (upstream_not_found id)) in
  let! addresses := lift (ok_or (json_strings (u_addresses u)) invalid_addresses) in
  match addresses with
  | [] => ret NoAddressConfigured
  | addr :: _ =>
      let result := test_dns_connectivity net addr (u_health_check_timeout u) in
      catch (E := DbError) (execute (with_text_time (d_text d) (add_sample id (net_ms net) (is_ok result)))) ;;;
      catch (E := DbError) (execute (with_text_time (d_text d) (store_status id (status_of (is_ok result))))) ;;;
      ret (Tested {| tr_success := is_ok result; tr_latency_ms := net_ms net;
                     tr_error := match result with Ok _ => None | Err e => Some e end |})
  end.

(** ** Failover *)

Inductive FailoverAnswer := NoActive | NoHealthy | SwitchedTo (id name : str).
Definition active_by_priority (t : Db) : list Upstream := sort_by_key u_priority (List.filter u_is_active (dns_upstreams t)).
Definition add_failover (id upstream_id action : str) (reason : option str) (at_ : Z) (t : Db) : result (unit * Db) DbError :=
  if existsb (fun f => fo_id f =s? id) (upstream_failover_log t) then Err UniqueViolation
  else Ok (tt, set_upstream_failover_log t (upstream_failover_log t ++
    [{| fo_id := id; fo_upstream_id := upstream_id; fo_action := action; fo_reason := reason; fo_timestamp := at_ |}])).
Definition trigger_failover (d : Draws) (p : Parts) : M App AppError FailoverAnswer :=
  AdminUser d p ;;;
  let! rows := db (query (fun t =>
    let rows := active_by_priority t in try! _ := try_map (fun u => cast_i32 (u_priority u)) rows in Ok rows)) in
  match rows with
  | [] => ret NoActive
  | _ =>
      match find (fun u => u_health_status u =s? "healthy") rows with
      | None => ret NoHealthy
      | Some u =>
          db (execute (with_text_time (d_text d) (add_failover (d_uuid d) (u_id u) (lit "failover_triggered")
            (Some (lit "Manual failover triggered by user"))))) ;;;
          ret (SwitchedTo (u_id u) (u_name u))
      end
  end.

Fixpoint insert_latest (x : FailoverLog) (l : list FailoverLog) : list FailoverLog :=
  match l with
  | [] => [x]
  | y :: l' => if (fo_timestamp x <? fo_timestamp y)%Z then y :: insert_latest x l' else x :: l
  end.
Definition latest_failovers (n : nat) (t : Db) : list FailoverLog := take n (fold_right insert_latest [] (upstream_failover_log t)).
(** The entries with the name of their upstream. *)
Definition failover_log (d : Draws) (q : Parts) : M App AppError (list (FailoverLog * str * str)) :=
  AuthUser d q ;;;
  db (query (fun t => try_map (fun f =>
    try! text := ok_or (timestamp_as_string (fo_timestamp f)) ColumnDecode in
    Ok (f, match upstream_by_id (fo_upstream_id f) t with Some u => u_name u | None => lit "Unknown" end, text))
    (latest_failovers 100 t))).
Definition get_health (d : Draws) (q : Parts) : M App AppError (gmap str UpstreamHealthResult) :=
  AuthUser d q ;;; gets upstream_health.

(** ** UpstreamRepository *)

(** The fields of the requests. *)
Definition CreateUpstream : Type := CreateUpstreamRequest.
Definition UpdateUpstream : Type := UpdateUpstreamRequest.
Definition repo_get (id : str) : M App DbError (option Upstream) := fetch_optional (upstream_by_id id).
Definition find_row (id : str) (t : Db) : result Upstream DbError := ok_or (upstream_by_id id t) RowNotFound.
(** The times are the column's default, [NOW()]. *)
Definition repo_create (d : Draws) (req : CreateUpstream) : M App DbError Upstream :=
  let now := Z.of_N (d_utc d) in
  let row := {| u_id := d_uuid d; u_name := cu_name req; u_addresses := json_of_strings (cu_addresses req);
    u_priority := cu_priority req; u_is_active := true; u_health_check_enabled := true; u_failover_enabled := true;
    u_health_check_interval := cu_health_check_interval req; u_health_check_timeout := cu_health_check_timeout req;
    u_failover_threshold := cu_failover_threshold req; u_health_status := lit "unknown";
    u_last_health_check_at := None; u_last_failover_at := None; u_created_at := now; u_updated_at := now |} in
  execute (fun t =>
    if existsb (fun u => u_id u =s? d_uuid d) (dns_upstreams t) then Err UniqueViolation
    else Ok (row, set_dns_upstreams t (dns_upstreams t ++ [row]))).
(** The columns an update names, in their order, and its text; the time is
    the first parameter, the identifier the last. *)
Definition set_clauses (req : UpdateUpstream) : list str :=
  let clause {A} (o : option A) (column : string) : list str := match o with Some _ => [lit column] | None => [] end in
  clause (uu_name req) "name"%string ++ clause (uu_addresses req) "addresses"%string ++ clause (uu_priority req) "priority"%string
  ++ clause (uu_is_active req) "is_active"%string ++ clause (uu_health_check_enabled req) "health_check_enabled"%string
  ++ clause (uu_failover_enabled req) "failover_enabled"%string
  ++ clause (uu_health_check_interval req) "health_check_interval"%string
  ++ clause (uu_health_check_timeout req) "health_check_timeout"%string
  ++ clause (uu_failover_threshold req) "failover_threshold"%string.
Definition numbered (column : str) (n : nat) : str := column ++ lit " = $" ++ show_N (N.of_nat n).
Definition repo_update_text (req : UpdateUpstream) : str :=
  let columns := set_clauses req in
  lit "UPDATE dns_upstreams SET " ++
  join (lit ", ") (imap (fun i column => numbered column (i + 1)) (lit "updated_at" :: columns)) ++
  lit " WHERE id = $" ++ show_N (N.of_nat (length columns + 2)) ++ lit " RETURNING *".
(** The statement of the text; one that changes no row returns none. *)
Definition repo_update (d : Draws) (id : str) (req : UpdateUpstream) : M App DbError Upstream :=
  let now := Z.of_N (d_utc d) in
  execute (fun t =>
    try! u := find_row id t in
    let row := set_columns (merged req u) now u in
    Ok (row, set_dns_upstreams t (change_named u_id id (fun u => set_columns (merged req u) now u) (dns_upstreams t)))).
Definition repo_delete (id : str) : M App DbError unit :=
  execute (fun t => try! r := delete_upstream id t in Ok (tt, snd r)).
Definition get_active_upstreams : M App DbError (list Upstream) := fetch_all active_by_priority.
Definition update_health_status (d : Draws) (id status : str) : M App DbError unit :=
  execute (store_status id status (Z.of_N (d_utc d))).
Definition set_failed_over (status : str) (at_ : Z) (u : Upstream) : Upstream :=
  {| u_id := u_id u; u_name := u_name u; u_addresses := u_addresses u; u_priority := u_priority u;
     u_is_active := u_is_active u; u_health_check_enabled := u_health_check_enabled u;
     u_failover_enabled := u_failover_enabled u; u_health_check_interval := u_health_check_interval u;
     u_health_check_timeout := u_health_check_timeout u; u_failover_threshold := u_failover_threshold u;
     u_health_status := status; u_last_health_check_at := u_last_health_check_at u; u_last_failover_at := Some at_;
     u_created_at := u_created_at u; u_updated_at := at_ |}.
Definition update_failover_status (d : Draws) (id status : str) : M App DbError unit :=
  execute (fun t => Ok (tt, set_dns_upstreams t
    (change_named u_id id (set_failed_over status (Z.of_N (d_utc d))) (dns_upstreams t)))).
Definition log_failover (d : Draws) (upstream_id action : str) (reason : option str) : M App DbError unit :=
  execute (add_failover (d_uuid d) upstream_id action reason (Z.of_N (d_utc d))).
Definition get_failover_log (limit : Z) : M App DbError (list (FailoverLog * Z)) :=
  query (fun t =>
    if (limit <? 0)%Z then Err InvalidRowCount
    else try_map (fun f => try! at_ := ok_or (timestamp_as_utc (fo_timestamp f)) ColumnDecode in Ok (f, at_))
      (latest_failovers (Z.to_nat limit) t)).

(** ** What the calls do *)

Inductive Call := Create (body : CreateUpstreamRequest) | Update (id : str) (body : UpdateUpstreamRequest) | Delete (id : str).
Definition run (d : Draws) (p : Parts) (c : Call) : M App AppError unit :=
  match c with
  | Create body => create d p body ;;; ret tt
  | Update id body => update d p id body ;;; ret tt
  | Delete id => delete d p id
  end.

Definition store_of (t : Db) : gmap str Upstream := view u_id (fun u => u) (dns_upstreams t).
Definition new_upstream (id : str) (at_ : Z) (b : CreateUpstreamRequest) : Upstream :=
  {| u_id := id; u_name := trim (cu_name b); u_addresses := json_of_strings (cu_addresses b); u_priority := cu_priority b;
     u_is_active := true; u_health_check_enabled := true; u_failover_enabled := true;
     u_health_check_interval := cu_health_check_interval b; u_health_check_timeout := cu_health_check_timeout b;
     u_failover_threshold := cu_failover_threshold b; u_health_status := lit "unknown";
     u_last_health_check_at := None; u_last_failover_at := None; u_created_at := at_; u_updated_at := at_ |}.
(** The upstreams after a call, or why it is refused. *)
Definition spec (d : Draws) (c : Call) (m : gmap str Upstream) : result (gmap str Upstream) AppError :=
  match c with
  | Create body =>
      if is_empty (trim (cu_name body)) then Err empty_name
      else if bool_decide (cu_addresses body = []) then Err no_address
      else match text_as_timestamp (d_text d) with
           | None => Err (Database DatatypeMismatch)
           | Some at_ =>
               match m !! d_uuid d with
               | Some _ => Err (Database UniqueViolation)
               | None => Ok (<[d_uuid d := new_upstream (d_uuid d) at_ body]> m)
               end
           end
  | Update id body =>
      match m !! id with
      | None => Err (upstream_not_found id)
      | Some u =>
          match cast_i32 (u_priority u), text_as_timestamp (d_text d) with
          | Err e, _ => Err (Database e)
          | _, None => Err (Database DatatypeMismatch)
          | _, Some at_ => Ok (<[id := set_columns (merged body u) at_ u]> m)
          end
      end
  | Delete id => match m !! id with None => Err (upstream_not_found id) | Some _ => Ok (base.delete id m) end
  end.
(** The pool is that of the rows and the strategy. *)
Definition pool_of (d : Draws) (s : App) (t : Db) : UpstreamPool.UpstreamPool :=
  UpstreamPool.new (Handler.list_upstreams t) (default (lit "priority") (setting "upstream_strategy" t))
    (Handler.prefer_ipv4 (dns_handler s)) (Z.of_N (d_utc d)).
Definition implements (d : Draws) (p : Parts) (c : Call) (s : App) : Prop :=
  exists r s', does (run d p c) s r s' /\
    match spec d c (store_of (tables (db_of s))) with
    | Err e => r = Err e /\ s' = s
    | Ok m => r = Ok tt /\ store_of (tables (db_of s')) = m /\
        Handler.upstream_pool (dns_handler s') = pool_of d s (tables (db_of s'))
    end.

Lemma set_nothing t : set_upstream_latency_log (set_dns_upstreams t (dns_upstreams t)) (upstream_latency_log t) = t.
Proof. by destruct t. Qed.

Section calls.
Context (d : Draws) (p : Parts) (admin : Claims) (s : App).
#[local] Abbreviation t := (tables (db_of s)).
Context (Hs : db_works s) (Hadmin : fst (AdminUser d p s) = Ok admin).
Lemma up_admin : does (AdminUser d p) s (Ok admin) s.
Proof. pose proof (does_AdminUser d p s) as Ha. by rewrite Hadmin in Ha. Qed.
Lemma up_lookup id : store_of t !! id = upstream_by_id id t.
Proof. unfold store_of, upstream_by_id. rewrite lookup_view. by destruct (row_named _ _ _). Qed.
Lemma does_fetch_view id :
  does (fetch_view id) s
    match upstream_by_id id t with
    | Some u => match upstream_view u with Ok v => Ok (Some v) | Err e => Err (Database e) end
    | None => Ok None
    end s.
Proof.
  unfold fetch_view. destruct (upstream_by_id id t) as [u|] eqn:Hu.
  - destruct (upstream_view u) as [v|e] eqn:Hv.
    + apply does_db_query; [exact Hs|]. by rewrite Hu, Hv.
    + apply does_db_query_err; [exact Hs|]. by rewrite Hu, Hv.
  - apply does_db_query; [exact Hs|]. by rewrite Hu.
Qed.

Lemma up_create body : implements d p (Create body) s.
Proof.
  pose proof up_admin as Ha. pose proof (up_lookup (d_uuid d)) as Hl.
  unfold implements. cbn [spec run]. unfold create.
  destruct (is_empty (trim (cu_name body))) eqn:E1; [eexists _, s; split; [exec Hs|done]|].
  case_bool_decide as E2; [eexists _, s; split; [exec Hs|done]|].
  assert (Hi : insert_upstream (d_uuid d) (trim (cu_name body)) (json_of_strings (cu_addresses body)) body (d_text d) t =
    match text_as_timestamp (d_text d) with
    | None => Err DatatypeMismatch
    | Some at_ => match upstream_by_id (d_uuid d) t with
                  | Some _ => Err UniqueViolation
                  | None => Ok (tt, set_dns_upstreams t (dns_upstreams t ++ [new_upstream (d_uuid d) at_ body])) end
    end).
  { unfold insert_upstream. destruct (text_as_timestamp (d_text d)) as [z|]; [|done].
    destruct (upstream_by_id (d_uuid d) t) as [u|] eqn:Hu.
    - apply row_named_Some in Hu as [Hu Hid]. rewrite (proj2 (existsb_some _ _)); [done|]. exists u. by rewrite Hid, str_eqb_refl.
    - rewrite (proj2 (existsb_none _ _)); [done|]. intros u Hin. apply str_eqb_neq. by apply (proj1 (row_named_None _ _ _) Hu). }
  destruct (text_as_timestamp (d_text d)) as [z|]; [|eexists _, s; split; [exec Hs|done]].
  rewrite Hl. destruct (upstream_by_id (d_uuid d) t) as [u|] eqn:Hu; [eexists _, s; split; [exec Hs|done]|].
  eexists _, _. split; [exec Hs|]. split; [done|]. split; [|done].
  by apply (view_snoc u_id (fun u => u) _ (new_upstream (d_uuid d) z body)).
Qed.
Lemma up_update id body : implements d p (Update id body) s.
Proof.
  pose proof up_admin as Ha. pose proof (up_lookup id) as Hl. pose proof (does_fetch_view id) as Hf.
  unfold implements. cbn [spec run]. unfold update. rewrite Hl.
  destruct (upstream_by_id id t) as [u|] eqn:Hu; [|eexists _, s; split; [exec Hs|done]].
  unfold upstream_view in Hf.
  destruct (cast_i32 (u_priority u)) as [z|e]; [|eexists _, s; split; [exec Hs|done]].
  pose proof (eq_refl (update_upstream id (merged body u) (d_text d) t)) as Hup. unfold update_upstream at 2 in Hup.
  destruct (text_as_timestamp (d_text d)) as [at_|]; [|eexists _, s; split; [exec Hs|done]].
  eexists _, _. split; [exec Hs|]. split; [done|]. split; [|done].
  by apply (view_change u_id (fun u => u) _ _ (set_columns (merged body u) at_) u).
Qed.
Lemma up_delete id : implements d p (Delete id) s.
Proof.
  pose proof up_admin as Ha. pose proof (up_lookup id) as Hl. pose proof (count_named_0 u_id id (dns_upstreams t)) as Hc.
  unfold implements. cbn [spec run]. unfold delete. rewrite Hl. unfold upstream_by_id in *.
  destruct (row_named u_id id (dns_upstreams t)) as [u|] eqn:Hu.
  - assert (En : (count_named u_id id (dns_upstreams t) =? 0)%nat = false) by (apply Nat.eqb_neq; intros Hz; by apply Hc in Hz).
    eexists _, _. split; [exec Hs|]. split; [done|]. split; [|done]. apply (view_without u_id (fun u => u)).
  - assert (En : (count_named u_id id (dns_upstreams t) =? 0)%nat = true) by (by apply Nat.eqb_eq, Hc).
    eexists _, s. split; [|done]. eapply does_bind; [exact Ha|]. cbn beta zeta. eapply does_bind; [by eapply does_db_execute|].
    rewrite En. rewrite without_unchanged by done. unfold upstream_by_id. rewrite Hu.
    match goal with |- does _ ?s0 _ _ => assert (s0 = s) as -> end; [|apply does_fail].
    rewrite bool_decide_eq_false_2 by (by intros [? ?]). transitivity (with_tables t s); [|apply with_tables_same]. by rewrite set_nothing.
Qed.
End calls.

Lemma up_run d p admin c s :
  db_works s -> fst (AdminUser d p s) = Ok admin -> implements d p c s.
Proof.
  intros Hs Ha. destruct c; [by apply up_create with admin|by apply up_update with admin|by apply up_delete with admin].
Qed.

(** On a working connection every call of an administrator on the
    upstreams answers and stores what an abstract store of upstreams says,
    and ends with the pool of the stored rows; a refused call changes nothing.
    On a server that takes no text for a TIMESTAMP, as documented, every
    creation and change is refused, and a test leaves neither a sample nor a
    status. *)
Theorem upstreams_correct d p admin c s :
  db_works s -> fst (AdminUser d p s) = Ok admin ->
  implements d p c s /\
  (SqlTimestampDoc ->
    match c with Delete _ => True | _ => exists e, does (run d p c) s (Err e) s end /\
    (forall net id, exists r, does (test net d p id) s r s)).
Proof.
  intros Hs Ha. pose proof (up_run d p admin c s Hs Ha) as Hi. split; [exact Hi|]. intros Hdoc.
  pose proof (no_text_assignment (d_text d)) as Hnone. split.
  - destruct Hi as (r & s' & Hd & Hspec). destruct c as [body|id body|]; [| |done].
    + cbn [spec] in Hspec. rewrite Hnone in Hspec.
      destruct (is_empty _); [|destruct (bool_decide _)]; destruct Hspec as [-> ->]; by eexists.
    + cbn [spec] in Hspec. rewrite Hnone in Hspec.
      destruct (_ !! id) as [u|]; [destruct (cast_i32 _)|]; destruct Hspec as [-> ->]; by eexists.
  - intros net id. pose proof (up_admin d p admin s Ha) as Had. unfold test.
    assert (Hrefused : forall f : Z -> Db -> result (unit * Db) DbError,
      does (catch (F := AppError) (execute (with_text_time (d_text d) f))) s (Ok (Err DatatypeMismatch)) s).
    { intros f. eapply does_catch, does_execute_err; [exact Hs|]. unfold with_text_time. by rewrite Hnone. }
    destruct (upstream_by_id id (tables (db_of s))) as [u|] eqn:Hu; [|eexists; exec Hs].
    pose proof (eq_refl (ok_or (json_strings (u_addresses u)) invalid_addresses)) as Hj.
    destruct (json_strings (u_addresses u)) as [[|addr addrs]|] in Hj at 2; cbn [ok_or] in Hj; [eexists; exec Hs| |eexists; exec Hs].
    eexists. eapply does_bind; [exact Had|]. eapply does_bind; [by apply does_db_optional|].
    eapply does_bind; [by eapply does_lift_ok|]. eapply does_bind; [by eapply does_lift_ok|].
    cbn beta iota zeta. eapply does_bind; [apply Hrefused|]. eapply does_bind; [apply Hrefused|]. apply does_ret.
Qed.

(** ** The two probes *)

Definition authority_of (rest : str) : str := match split_once rest slash with Some (a, _) => a | None => rest end.
(** The host of the address is there, and in a URL of DNS over TLS it is no
    IPv6 literal. *)
Definition named_host (addr : str) : Prop :=
  (forall rest h port, strip_prefix addr "https://" = Some rest ->
     Resolver.split_authority (authority_of rest) 443 = Ok (h, port) -> h <> []) /\
  (forall rest, strip_prefix addr "tls://" = Some rest ->
     authority_of rest <> [] /\ starts_with_char (authority_of rest) lbracket = false).
Lemma https_agree addr :
  (forall rest h port, strip_prefix addr "https://" = Some rest ->
     Resolver.split_authority (authority_of rest) 443 = Ok (h, port) -> h <> []) ->
  (try! hpp := parse_doh_host_port addr in Ok (fst hpp)) = parse_url_host_port addr "https://" 443.
Proof.
  intros Hh. unfold parse_doh_host_port, parse_url_host_port. destruct (strip_prefix addr "https://") as [rest|]; [|done].
  cbn [ok_or]. specialize (Hh rest). unfold authority_of in Hh.
  assert (Hgo : forall (a path : str), (forall h port, Resolver.split_authority a 443 = Ok (h, port) -> h <> []) ->
    (try! hpp := (try! host_port := Resolver.split_authority a 443 in
       if is_empty (fst host_port) then Err Resolver.EmptyHost else Ok (fst host_port, snd host_port, path)) in Ok (fst hpp)) =
    if is_empty a then Err Resolver.EmptyHost else Resolver.split_authority a 443).
  { intros a path Ha. destruct (is_empty a) eqn:He.
    - apply is_empty_true in He. subst a. by destruct (Ha [] 443 eq_refl).
    - destruct (Resolver.split_authority a 443) as [[h port]|e]; [|done]. cbn [fst snd].
      specialize (Ha h port eq_refl). by destruct h. }
  destruct (split_once rest slash) as [[a b]|]; apply Hgo; intros h port; by apply Hh.
Qed.

(** The check of the background and the test of the API reach the same
    name servers for every address whose host is given, but for IPv6 literals
    in URLs of DNS over TLS, which the test takes apart at their last colon.
    So the two agree on whether such an upstream is healthy. *)
Theorem probes_agree net addr timeout :
  named_host addr ->
  (forall ns, test_servers addr = Ok ns <-> check_servers addr = Ok ns) /\
  is_ok (test_dns_connectivity net addr timeout) = is_ok (check_upstream_connectivity net addr timeout).
Proof.
  intros [Hhttps Htls].
  assert (Hs : (forall ns, test_servers addr = Ok ns <-> check_servers addr = Ok ns)).
  { intros ns. unfold test_servers, check_servers. destruct (starts_with addr "https://") eqn:E1.
    - rewrite <- (https_agree addr Hhttps). destruct (parse_doh_host_port addr); done.
    - destruct (starts_with addr "tls://") eqn:E2; [|done]. unfold parse_url_host_port.
      destruct (strip_prefix addr "tls://") as [rest|]; [|done]. cbn [ok_or map_err].
      destruct (Htls rest eq_refl) as [Hne Hb]. fold (authority_of rest).
      destruct (is_empty (authority_of rest)) eqn:He; [by apply is_empty_true in He|].
      unfold Resolver.split_authority. rewrite Hb. destruct (rsplit_once (authority_of rest) colon) as [[host port]|]; [|done].
      by destruct (parse_u16 port). }
  split; [exact Hs|]. unfold test_dns_connectivity, check_upstream_connectivity, connectivity.
  destruct (test_servers addr) as [ns|e] eqn:Ht; destruct (check_servers addr) as [ns'|e'] eqn:Hc; try done.
  - assert (Heq : Ok (E := ConnectError) ns' = Ok ns) by (by apply Hs). by injection Heq as ->.
  - assert (Heq : Err e' = Ok ns) by (by apply Hs). done.
  - assert (Heq : Err e = Ok ns') by (by apply Hs). done.
Qed.

End upstreams.
End Upstreams.

(** ** Concrete inputs *)

Module RefTimestamp.
(** PostgreSQL, and a server that would take the text of a number. *)
#[export] Instance timestamp : SqlTimestamp := {|
  text_as_timestamp _ := None; timestamp_text := show_Z; timestamp_as_string _ := None; timestamp_as_utc _ := None |}.
#[export] Instance timestamp_doc : SqlTimestampDoc.
Proof. by constructor. Qed.
Definition lenient : SqlTimestamp := {|
  text_as_timestamp s := Some (Z.of_nat (length s)); timestamp_text := show_Z; timestamp_as_string z := Some (show_Z z);
  timestamp_as_utc := Some |}.
End RefTimestamp.

Module UpstreamsWitness.
Import AsciiUnicode RefRegex RefJson RefIpNet RefMoka RefRng RefHickory RefResolver RefCrypto Api AppWitness RefTimestamp Upstreams.

Definition tables1 : Db :=
  set_dns_upstreams empty_db [PoolWitness.row "a" "9.9.9.9" 1 true "healthy"; PoolWitness.row "b" "bad" 2 true "unknown"].
Definition body : CreateUpstreamRequest :=
  {| cu_name := lit " quad "; cu_addresses := [lit "8.8.8.8"]; cu_priority := 3; cu_health_check_interval := 30;
     cu_health_check_timeout := 5; cu_failover_threshold := 3 |}.
Definition up : Net := {| net_answers _ _ := true; net_ms := 7 |}.

(** A test answers, and leaves no trace; a failover that finds an upstream
    fails, and without one does not. *)
Example test_stores_nothing :
  let '(r, s) := test up today admin (lit "a") (app tables1) in
  r = Ok (Tested {| tr_success := true; tr_latency_ms := 7; tr_error := None |}) /\ tables (db_of s) = tables1.
Proof. vm_compute. done. Qed.
Example failover_test :
  fst (trigger_failover today admin (app tables1)) = Err (Database DatatypeMismatch) /\
  fst (trigger_failover today admin (app (set_dns_upstreams empty_db [PoolWitness.row "b" "bad" 2 true "unknown"]))) = Ok NoHealthy.
Proof. vm_compute. done. Qed.
(** The last group of a plain IPv6 address is taken for a port. *)
Example plain_test :
  map (fun a => is_ok (check_servers (lit a)))
    ["1.1.1.1"; "1.1.1.1:5353"; "2606:4700:4700::1111"; "2606:4700:4700::1111:53"; "[2606:4700:4700::1111]:53"]%string
  = [true; true; false; true; false].
Proof. vm_compute. reflexivity. Qed.
(** An IPv6 literal in a URL of DNS over TLS, and an empty host. *)
Example probes_test :
  (test_servers (lit "tls://[::1]"), parse_url_host_port (lit "tls://[::1]") (lit "tls://") 853)
  = (Err BadPort, Ok (lit "::1", 853)) /\
  (parse_doh_host_port (lit "https://:444/"), parse_url_host_port (lit "https://:444/") (lit "https://") 443)
  = (Err Resolver.EmptyHost, Ok ([], 444)).
Proof. vm_compute. done. Qed.
Definition some_columns : UpdateUpstreamRequest :=
  {| uu_name := Some (lit "x"); uu_addresses := None; uu_priority := Some 4%Z; uu_is_active := None;
     uu_health_check_enabled := None; uu_failover_enabled := Some false; uu_health_check_interval := None;
     uu_health_check_timeout := None; uu_failover_threshold := None |}.
(** The repository takes what the handlers are refused. *)
Example repository_test :
  repo_update_text some_columns =
    lit "UPDATE dns_upstreams SET updated_at = $1, name = $2, priority = $3, failover_enabled = $4 WHERE id = $5 RETURNING *" /\
  is_ok (fst (repo_create today body (app tables1))) = true /\
  (fun r => match r with Ok u => (u_name u, u_priority u, u_updated_at u) | Err _ => ([], 0, 0)%Z end)
    (fst (repo_update today (lit "a") some_columns (app tables1))) = (lit "x", 4, 2000)%Z /\
  fst (repo_update today (lit "c") some_columns (app tables1)) = Err RowNotFound.
Proof. vm_compute. done. Qed.
Example average_test : (average [1; 2]%Z, average [-1; -2]%Z, average [1; 1; 2]%Z, average []) = (Some 2, Some (-2), Some 1, None)%Z.
Proof. vm_compute. reflexivity. Qed.

Lemma upstreams_correct_witness :
  (exists e, does (run today admin (Create body)) (app tables1) (Err e) (app tables1)) /\
  (fun server : SqlTimestamp => implements today admin (Create body) (app tables1)) lenient.
Proof.
  split.
  - exact (proj1 (proj2 (upstreams_correct today admin AuthWitness.ann (Create body) (app tables1) (app_works tables1)
      (admin_admin tables1)) timestamp_doc)).
  - exact ((fun server : SqlTimestamp => proj1 (upstreams_correct today admin AuthWitness.ann (Create body) (app tables1)
      (app_works tables1) (admin_admin tables1))) lenient).
Defined.
Lemma probes_agree_witness :
  is_ok (test_dns_connectivity up (lit "https://dns.google/dns-query") 5) =
  is_ok (check_upstream_connectivity up (lit "https://dns.google/dns-query") 5).
Proof.
  apply probes_agree. split.
  - intros rest h port Hr Hs.
    assert (Hc : strip_prefix (lit "https://dns.google/dns-query") "https://" = Some (lit "dns.google/dns-query")) by (vm_compute; reflexivity).
    rewrite Hc in Hr. injection Hr as <-.
    assert (Ha : Resolver.split_authority (authority_of (lit "dns.google/dns-query")) 443 = Ok (lit "dns.google", 443)) by (vm_compute; reflexivity).
    rewrite Ha in Hs. injection Hs as <- _. discriminate.
  - intros rest Hr. assert (Hc : strip_prefix (lit "https://dns.google/dns-query") "tls://" = None) by (vm_compute; reflexivity). congruence.
Defined.
End UpstreamsWitness.
