(* ===== verification/Health.v ===== *)
(** * The health of the upstreams: src/main.rs and src/api/mod.rs

    Two tasks check the upstreams every half minute.  The one of main.rs asks
    the nodes of the pool, and reloads the pool when a status it stores is not
    the stored one.  The one of the API asks the rows, and stores what it
    finds without a reload; the map of its results is a copy of that of the
    server.  A tick is a computation on the state of the server. *)
From S2P Require Import Prelude RustStr IpAddr Regex Rules Acl Moka Hickory Cache Db DbLogic Filter Resolver.
From S2P Require Import UpstreamPool Handler HandlerTests Subscription Api App Auth AppTests Listing Tables FiltersApi Tasks Upstreams.
Local Open Scope N_scope.

Module Health.
Section health.
Context `{RustUnicode, RegexEngine, SerdeJson, Collation, IpNetCrate, Moka, Rng,
  Hickory, !HickoryResolver, !DnsCodec, Jwt, SqlTimestamp, SqlTime, Rfc3339}.
Import Api Upstreams.

(** ** run_upstream_health_check_task *)

Section main_task.
Context (lookup_ms : N -> N) (example_com : Name) (ds : nat -> Draws).

Definition failover_reason (healthy : bool) : str :=
  lit (if healthy then "health check passed" else "health check failed")%string.
Definition failover_action (healthy : bool) : str := lit (if healthy then "recover" else "failover")%string.
Definition status_changed (upstreams : list Upstream) (id : str) (healthy : bool) : bool :=
  match find (fun u => u_id u =s? id) upstreams with
  | Some u => negb (u_health_status u =s? status_of healthy) && u_failover_enabled u
  | None => false
  end.
(** The results one after the other, and whether the pool is to be reloaded. *)
Fixpoint health_results (upstreams : list Upstream) (i : nat) (results : list (str * Z * bool)) (needs_reload : bool)
    : M App AppError bool :=
  match results with
  | [] => ret needs_reload
  | (id, _, healthy) :: results' =>
      let! r := catch (update_health_status (ds i) id (status_of healthy)) in
      match r with
      | Err _ => health_results upstreams (Datatypes.S i) results' needs_reload
      | Ok _ =>
          if status_changed upstreams id healthy then
            catch (log_failover (ds i) id (failover_action healthy) (Some (failover_reason healthy))) ;;;
            health_results upstreams (Datatypes.S i) results' true
          else health_results upstreams (Datatypes.S i) results' needs_reload
      end
  end.
Definition health_check_tick (d : Draws) : M App AppError unit :=
  let! r := catch (on_handler (Handler.health_check_upstreams lookup_ms example_com)) in
  match r with
  | Err _ | Ok [] => ret tt
  | Ok results =>
      let! upstreams := catch (E := DbError) (fetch_all Handler.list_upstreams) in
      match upstreams with
      | Err _ => ret tt
      | Ok upstreams =>
          let! needs_reload := health_results upstreams 0 results false in
          if (needs_reload : bool) then try_reload_upstreams d else ret tt
      end
  end.
End main_task.

(** ** The task of serve *)

Definition num_seconds (ns : Z) : Z := Z.quot ns 1000000000.
Definition check_due (clock_ns : Z) (u : Upstream) : bool :=
  match (timestamp_text <$> u_last_health_check_at u) ≫= parse_rfc3339 with
  | Some last => (u_health_check_interval u <=? num_seconds (clock_ns - last))%Z
  | None => true
  end.
(** Text times with the cast [::timestamptz]. *)
Definition with_cast_time {A} (now : str) (f : Z -> Db -> result (A * Db) DbError) (t : Db) : result (A * Db) DbError :=
  match timestamptz now with Some at_ => f at_ t | None => Err DatatypeMismatch end.
Section api_task.
Context (ds : nat -> Draws) (clock : nat -> Z) (net : nat -> Net).
Definition set_latency (id : str) (ms : Z) : M App AppError unit :=
  update_handler (Handler.update_upstream_latency id ms).
(** One upstream that is due; the map is the task's. *)
Definition check_one (i : nat) (u : Upstream) (health_map : gmap str UpstreamHealthResult)
    : M App AppError (gmap str UpstreamHealthResult) :=
  match json_strings (u_addresses u) with
  | Some (first_addr :: _) =>
      let success := is_ok (check_upstream_connectivity (net i) first_addr (u_health_check_timeout u)) in
      let latency_ms := net_ms (net i) in
      let now := d_text (ds i) in
      set_latency (u_id u) latency_ms ;;;
      catch (E := DbError) (execute (with_cast_time now (add_sample (u_id u) latency_ms success))) ;;;
      catch (E := DbError) (execute (with_cast_time now (store_status (u_id u) (status_of success)))) ;;;
      ret (<[u_id u := {| uh_status := status_of success; uh_latency_ms := latency_ms; uh_last_check_at := now |}]> health_map)
  | _ => ret health_map
  end.
Fixpoint check_rows (i : nat) (rows : list Upstream) (health_map : gmap str UpstreamHealthResult)
    : M App AppError (gmap str UpstreamHealthResult) :=
  match rows with
  | [] => ret health_map
  | u :: rows' =>
      if check_due (clock i) u then
        let! m := check_one i u health_map in check_rows (Datatypes.S i) rows' m
      else check_rows (Datatypes.S i) rows' health_map
  end.
Definition health_rows (t : Db) : list Upstream :=
  List.filter (fun u => u_is_active u && u_health_check_enabled u) (dns_upstreams t).
Definition api_health_tick (d : Draws) (health_map : gmap str UpstreamHealthResult)
    : M App AppError (gmap str UpstreamHealthResult) :=
  let! rows := catch (E := DbError) (fetch_all health_rows) in
  match rows with
  | Err _ => ret health_map
  | Ok rows =>
      let! m := check_rows 0 rows health_map in
      catch (E := DbError) (execute (fun t => Ok (tt, set_upstream_latency_log t
        (List.filter (fun x => negb (ul_checked_at x <? Z.of_N (d_utc d) - 86400)%Z) (upstream_latency_log t))))) ;;;
      ret m
  end.
End api_task.

(** ** The nodes of the pool *)

Definition pool_models (s : App) : list Upstream :=
  map UpstreamPool.model (UpstreamPool.nodes (Handler.upstream_pool (dns_handler s))).
(** Whatever fails, a run leaves the nodes of the pool and the results the
    API reads. *)
Definition keeps_pool {E A} (m : M App E A) : Prop :=
  forall s, pool_models (snd (m s)) = pool_models s /\ upstream_health (snd (m s)) = upstream_health s.
Lemma pool_ret {E A} (a : A) : keeps_pool (ret (E := E) a).
Proof. done. Qed.
Lemma pool_bind {E A B} (m : M App E A) (k : A -> M App E B) :
  keeps_pool m -> (forall a, keeps_pool (k a)) -> keeps_pool (bind m k).
Proof.
  intros Hm Hk s. unfold bind. destruct (Hm s) as [H1' H2']. destruct (m s) as [[a|e] s1]; [|done]. cbn [snd] in *.
  destruct (Hk a s1) as [-> ->]. done.
Qed.
Lemma pool_catch {E F A} (m : M App E A) : keeps_pool m -> keeps_pool (catch (F := F) m).
Proof. intros Hm s. specialize (Hm s). unfold catch. by destruct (m s). Qed.
Lemma pool_query {A} (q : Db -> result A DbError) : keeps_pool (query q).
Proof. intros s. unfold query. by destruct (faults _ _). Qed.
Lemma pool_execute {A} (f : Db -> result (A * Db) DbError) : keeps_pool (execute f).
Proof. intros s. unfold execute. cbn zeta. destruct (faults _ _); [done|]. by destruct (f _) as [[a t]|e]. Qed.
Lemma keeps_latency id ms : keeps_pool (set_latency id ms).
Proof.
  intros s. unfold set_latency, update_handler, modify. cbn [snd]. split; [|done]. unfold pool_models.
  change (map UpstreamPool.model (UpstreamPool.nodes (UpstreamPool.update_latency (Handler.upstream_pool (dns_handler s)) id ms)) =
    map UpstreamPool.model (UpstreamPool.nodes (Handler.upstream_pool (dns_handler s)))).
  unfold UpstreamPool.update_latency. cbn [UpstreamPool.nodes]. rewrite map_map. apply map_ext. intros n.
  by destruct (u_id (UpstreamPool.model n) =s? id).
Qed.
Lemma keeps_check_rows ds clock net i rows m : keeps_pool (check_rows ds clock net i rows m).
Proof.
  revert i m. induction rows as [|u rows IH]; intros i m; cbn [check_rows]; [apply pool_ret|].
  destruct (check_due (clock i) u); [|apply IH]. apply pool_bind; [|intros; apply IH]. unfold check_one.
  destruct (json_strings (u_addresses u)) as [[|a l]|]; try apply pool_ret.
  apply pool_bind; [apply keeps_latency|intros _]. apply pool_bind; [apply pool_catch, pool_execute|intros _].
  apply pool_bind; [apply pool_catch, pool_execute|intros _]. apply pool_ret.
Qed.
Lemma keeps_api_tick ds clock net d m : keeps_pool (api_health_tick ds clock net d m).
Proof.
  unfold api_health_tick. apply pool_bind; [apply pool_catch, pool_query|]. intros [rows|e]; [|apply pool_ret].
  apply pool_bind; [apply keeps_check_rows|intros m']. apply pool_bind; [apply pool_catch, pool_execute|intros _].
  apply pool_ret.
Qed.

(** ** The round of the main task *)

Section main_round.
Context (lookup_ms : N -> N) (example_com : Name) (ds : nat -> Draws).

Lemma join_all_runs tasks p e :
  exists results p' e', UpstreamPool.join_all lookup_ms example_com tasks p e = (Ok (results, p'), e') /\
    map UpstreamPool.model (UpstreamPool.nodes p') = map UpstreamPool.model (UpstreamPool.nodes p).
Proof.
  revert p e. induction tasks as [|[i node] tasks IH]; intros p e; [by exists [], p, e|].
  cbn [UpstreamPool.join_all]. unfold bind at 1.
  assert (Hp : exists lat e1, UpstreamPool.probe lookup_ms example_com node e = (Ok lat, e1)).
  { unfold UpstreamPool.probe. destruct (Resolver.resolve _ _ _ _ e) as [r e1]. destruct (_ <? _); by eexists _, _. }
  destruct Hp as ([lat h] & e1 & ->). cbn beta iota zeta. unfold bind at 1.
  match goal with |- context [UpstreamPool.join_all _ _ tasks ?p1 e1] => destruct (IH p1 e1) as (rs & p' & e' & Hj & Hm) end.
  rewrite Hj. cbn beta iota zeta. eexists _, p', e'. split; [reflexivity|]. rewrite Hm. cbn [UpstreamPool.nodes].
  by apply UpstreamPool.map_alter.
Qed.
(** The round asks the pool, whatever the state of the connection. *)
Lemma round_runs (s : App) :
  exists results p' e',
    (forall n, Handler.health_check_upstreams lookup_ms example_com (dns_handler (with_calls n s)) =
      (Ok results, with_calls n (Handler.set_pool p' (Handler.set_env e' (dns_handler s))))) /\
    map UpstreamPool.model (UpstreamPool.nodes p') = pool_models s.
Proof.
  set (h := dns_handler s). set (p := Handler.upstream_pool h). set (e := Handler.env h).
  unfold Handler.health_check_upstreams. unfold UpstreamPool.health_check_all at 1.
  destruct (join_all_runs (shuffle (Resolver.rng_calls e) (List.filter (fun x => u_health_check_enabled (UpstreamPool.model (snd x)))
    (zip (seq 0 (length (UpstreamPool.nodes p))) (UpstreamPool.nodes p)))) p
    {| Resolver.net_calls := Resolver.net_calls e; Resolver.rng_calls := Resolver.rng_calls e + 1 |}) as (rs & p' & e' & Hj & Hm).
  exists rs, p', e'. split; [|exact Hm]. intros n. unfold bind, gets, Handler.on_env, modify, ret.
  change (Handler.upstream_pool (dns_handler (with_calls n s))) with p. change (Handler.env (dns_handler (with_calls n s))) with e.
  by rewrite Hj.
Qed.

(** An entry of the failover log, or none. *)
Lemma does_add_failover fid id action reason at_ (s : App) :
  db_works s ->
  exists r l, does (catch (F := AppError) (execute (add_failover fid id action reason at_))) s (Ok r)
    (with_tables (set_upstream_failover_log (tables (db_of s)) l) s).
Proof.
  intros Hs. set (t := tables (db_of s)).
  destruct (existsb (fun f => fo_id f =s? fid) (upstream_failover_log t)) eqn:Hex.
  - exists (Err UniqueViolation), (upstream_failover_log t).
    replace (set_upstream_failover_log t (upstream_failover_log t)) with t by (by destruct t). unfold t at 1.
    rewrite with_tables_same. eapply does_catch, does_execute_err; [exact Hs|]. unfold add_failover. fold t. by rewrite Hex.
  - eexists (Ok tt), _. eapply does_catch, does_execute; [exact Hs|]. unfold add_failover. fold t. by rewrite Hex.
Qed.
Lemma list_upstreams_perm t : Permutation (Handler.list_upstreams t) (dns_upstreams t).
Proof.
  unfold Handler.list_upstreams. rewrite sort_by_key_perm. induction (dns_upstreams t) as [|u l IH]; [done|]. cbn [fold_right].
  rewrite <- IH at 2. generalize (fold_right Handler.insert_by_name [] l) as k. induction k as [|v k IHk]; [done|]. cbn [Handler.insert_by_name].
  destruct (text_lt _ _); [|done]. rewrite IHk. apply Permutation_swap.
Qed.
(** A reloaded pool has no node of a degraded row. *)
Lemma repooled_models `{!HickoryResolverDoc} d s u :
  u ∈ pool_models (repooled d s) -> u = UpstreamPool.fallback_model (Z.of_N (d_utc d)) \/
    u ∈ dns_upstreams (tables (db_of s)) /\ u_is_active u = true /\ u_health_status u <> lit "degraded".
Proof.
  intros (n & -> & Hn)%list_elem_of_fmap.
  destruct (UpstreamPool.pool_new_correct (Handler.list_upstreams (tables (db_of s)))
    (default (lit "priority") (setting "upstream_strategy" (tables (db_of s)))) (Handler.prefer_ipv4 (dns_handler s)) (Z.of_N (d_utc d)))
    as (_ & _ & _ & _ & _ & Hnodes).
  destruct (Hnodes n Hn) as [Hf|(Hin & Ha & Hd & _)]; [by left|]. right. rewrite list_upstreams_perm in Hin. done.
Qed.
(** The rows after the results were stored. *)
Fixpoint marked (i : nat) (results : list (str * Z * bool)) (rows : list Upstream) : list Upstream :=
  match results with
  | [] => rows
  | (id, _, healthy) :: results' =>
      let now := Z.of_N (d_utc (ds i)) in
      marked (Datatypes.S i) results' (change_named u_id id (set_checked (status_of healthy) now now) rows)
  end.
Definition any_changed (upstreams : list Upstream) (results : list (str * Z * bool)) : bool :=
  existsb (fun r => status_changed upstreams r.1.1 r.2) results.
Lemma does_health_results upstreams i results needs s :
  db_works s ->
  exists log,
    does (health_results ds upstreams i results needs) s (Ok (needs || any_changed upstreams results))
      (with_tables (set_upstream_failover_log (set_dns_upstreams (tables (db_of s)) (marked i results (dns_upstreams (tables (db_of s))))) log) s) /\
    (any_changed upstreams results = false -> log = upstream_failover_log (tables (db_of s))).
Proof.
  revert i needs s. induction results as [|[[id ms] healthy] results IH]; intros i needs s Hs; cbn [health_results marked].
  - exists (upstream_failover_log (tables (db_of s))). split; [|done]. cbn [any_changed existsb]. rewrite orb_false_r.
    replace (set_upstream_failover_log _ _) with (tables (db_of s)) by (by destruct (tables (db_of s))).
    rewrite with_tables_same. apply does_ret.
  - set (now := Z.of_N (d_utc (ds i))).
    set (t1 := set_dns_upstreams (tables (db_of s)) (change_named u_id id (set_checked (status_of healthy) now now) (dns_upstreams (tables (db_of s))))).
    assert (H1' : does (catch (F := AppError) (execute (store_status id (status_of healthy) now))) s (Ok (Ok tt)) (with_tables t1 s))
      by (eapply does_catch; by apply does_execute).
    unfold any_changed. cbn [existsb fst snd]. fold (any_changed upstreams results).
    destruct (status_changed upstreams id healthy) eqn:Hch.
    + destruct (does_add_failover (d_uuid (ds i)) id (failover_action healthy) (Some (failover_reason healthy)) now
        (with_tables t1 s) (proj2 (works_with_tables _ s) Hs)) as (r & l & Hlog). rewrite tables_with_tables, with_tables_tables in Hlog.
      destruct (IH (Datatypes.S i) true (with_tables (set_upstream_failover_log t1 l) s) (proj2 (works_with_tables _ s) Hs)) as (l' & IH' & _).
      exists l'. rewrite tables_with_tables, with_tables_tables in IH'. rewrite orb_true_r. split; [|done].
      eapply does_bind; [exact H1'|]. cbn iota. eapply does_bind; [exact Hlog|]. exact IH'.
    + destruct (IH (Datatypes.S i) needs (with_tables t1 s) (proj2 (works_with_tables _ s) Hs)) as (l' & IH' & Hl). rewrite tables_with_tables, with_tables_tables in IH'.
      exists l'. split; [|exact Hl]. eapply does_bind; [exact H1'|]. exact IH'.
Qed.

(** C30: A round of the main task, on a working connection: the status and the
    times of every upstream that was asked are stored.  When one of them with
    failover enabled is stored otherwise, the pool is made again of the rows,
    and no node of it but the fallback is one of a degraded row.  When none
    is, the nodes of the pool and the log stay: an upstream whose new status
    the other task stored first is not noticed. *)
Theorem health_round_correct `{!HickoryResolverDoc} d s :
  db_works s ->
  exists results s',
    fst (Handler.health_check_upstreams lookup_ms example_com (dns_handler s)) = Ok results /\
    does (health_check_tick lookup_ms example_com ds d) s (Ok tt) s' /\
    let t := tables (db_of s) in
    let t' := tables (db_of s') in
    dns_upstreams t' = marked 0 results (dns_upstreams t) /\
    if any_changed (Handler.list_upstreams t) results
    then Handler.upstream_pool (dns_handler s') = pool_of d s t' /\
         forall u, u ∈ pool_models s' -> u = UpstreamPool.fallback_model (Z.of_N (d_utc d)) \/
           u ∈ dns_upstreams t' /\ u_is_active u = true /\ u_health_status u <> lit "degraded"
    else pool_models s' = pool_models s /\ upstream_failover_log t' = upstream_failover_log t.
Proof.
  intros Hs. destruct (round_runs s) as (results & p' & e' & Hrun & Hm). exists results.
  set (s1 := set_dns_handler (Handler.set_pool p' (Handler.set_env e' (dns_handler s))) s).
  assert (Hfst : fst (Handler.health_check_upstreams lookup_ms example_com (dns_handler s)) = Ok results).
  { specialize (Hrun (calls (db_of s))). rewrite with_calls_same in Hrun. by rewrite Hrun. }
  assert (Hround : does (catch (F := AppError) (on_handler (Handler.health_check_upstreams lookup_ms example_com))) s (Ok (Ok results)) s1).
  { eapply does_catch. intros n. exists n. unfold on_handler. by rewrite Hrun. }
  assert (Hs1 : db_works s1) by exact Hs. set (t := tables (db_of s)).
  destruct results as [|r results].
  { exists s1. split; [done|]. split; [|done]. unfold health_check_tick. eapply does_bind; [exact Hround|]. apply does_ret. }
  destruct (does_health_results (Handler.list_upstreams t) 0 (r :: results) false s1 Hs1) as (log & Hres & Hlog).
  change (tables (db_of s1)) with t in Hres, Hlog. cbn [orb] in Hres.
  set (t2 := set_upstream_failover_log (set_dns_upstreams t (marked 0 (r :: results) (dns_upstreams t))) log) in Hres.
  assert (Hend : forall s', does (if any_changed (Handler.list_upstreams t) (r :: results) then try_reload_upstreams d else ret tt)
    (with_tables t2 s1) (Ok tt) s' -> does (health_check_tick lookup_ms example_com ds d) s (Ok tt) s').
  { intros s' He. unfold health_check_tick. eapply does_bind; [exact Hround|]. cbn iota.
    eapply does_bind; [eapply does_catch; exact (does_query (fun t => Ok (Handler.list_upstreams t)) s1 Hs1)|]. cbn iota.
    eapply does_bind; [exact Hres|exact He]. }
  destruct (any_changed (Handler.list_upstreams t) (r :: results)) eqn:Hch.
  - exists (repooled d (with_tables t2 s1)). split; [done|]. split; [apply Hend, does_try_reload_upstreams; exact Hs1|].
    cbn zeta. split; [done|]. fold t. rewrite Hch. split; [done|]. intros u. exact (repooled_models d (with_tables t2 s1) u).
  - exists (with_tables t2 s1). split; [done|]. split; [apply Hend, does_ret|]. cbn zeta. split; [done|]. fold t. rewrite Hch.
    split; [exact Hm|]. by apply Hlog.
Qed.
End main_round.

(** ** The round of the task of the API *)

Section api_round.
Context (ds : nat -> Draws) (clock : nat -> Z) (net : nat -> Net).

(** What a check stores in the rows. *)
Definition api_mark (i : nat) (u : Upstream) (rows : list Upstream) : list Upstream :=
  match json_strings (u_addresses u), timestamptz (d_text (ds i)) with
  | Some (addr :: _), Some at_ =>
      change_named u_id (u_id u) (set_checked (status_of (is_ok
        (check_upstream_connectivity (net i) addr (u_health_check_timeout u)))) at_ at_) rows
  | _, _ => rows
  end.
Fixpoint api_marked (i : nat) (us rows : list Upstream) : list Upstream :=
  match us with
  | [] => rows
  | u :: us' => api_marked (Datatypes.S i) us' (if check_due (clock i) u then api_mark i u rows else rows)
  end.
(** The rows of the upstreams, and that the connection still works. *)
Definition rows_are (rows : list Upstream) (s : App) : Prop := dns_upstreams (tables (db_of s)) = rows /\ db_works s.
Lemma rows_latency id ms rows s : rows_are rows s -> exists s', set_latency id ms s = (Ok tt, s') /\ rows_are rows s'.
Proof. intros Hr. eexists. split; [reflexivity|exact Hr]. Qed.
Lemma rows_execute (f : Db -> result (unit * Db) DbError) rows rows' (s : App) :
  rows_are rows s ->
  (forall t, dns_upstreams t = rows -> match f t with Ok (_, t') => dns_upstreams t' = rows' | Err _ => rows = rows' end) ->
  exists r s', catch (F := AppError) (execute f) s = (Ok r, s') /\ rows_are rows' s'.
Proof.
  intros [Hr Hs] Hf. specialize (Hf _ Hr). destruct (f (tables (db_of s))) as [[a t']|e] eqn:He.
  - destruct (does_run _ _ _ _ (does_execute f s a t' Hs He)) as [n Hn]. eexists (Ok a), _. unfold catch. rewrite Hn.
    split; [reflexivity|]. split; [exact Hf|exact Hs].
  - destruct (does_run _ _ _ _ (does_execute_err f s e Hs He)) as [n Hn]. eexists (Err e), _. unfold catch. rewrite Hn.
    split; [reflexivity|]. subst rows'. split; [exact Hr|exact Hs].
Qed.
Lemma check_one_rows i u m rows s :
  rows_are rows s -> exists m' s', check_one ds net i u m s = (Ok m', s') /\ rows_are (api_mark i u rows) s'.
Proof.
  intros Hr. unfold check_one, api_mark. destruct (json_strings (u_addresses u)) as [[|addr addrs]|]; [by exists m, s| |by exists m, s].
  cbn zeta. set (ok := is_ok _). destruct (rows_latency (u_id u) (net_ms (net i)) rows s Hr) as (s1 & Hl1 & Hr1).
  unfold bind. rewrite Hl1.
  destruct (rows_execute (with_cast_time (d_text (ds i)) (add_sample (u_id u) (net_ms (net i)) ok)) rows rows s1 Hr1)
    as (r2 & s2 & -> & Hr2).
  { intros t Ht. unfold with_cast_time, add_sample. destruct (timestamptz _); [|done]. by destruct (bool_decide _). }
  match goal with |- exists m' s', _ /\ rows_are ?rows' s' =>
    destruct (rows_execute (with_cast_time (d_text (ds i)) (store_status (u_id u) (status_of ok))) rows rows' s2 Hr2)
      as (r3 & s3 & -> & Hr3) end.
  { intros t Ht. unfold with_cast_time, store_status. destruct (timestamptz _); [|done]. cbn [dns_upstreams set_dns_upstreams]. by rewrite Ht. }
  by eexists _, s3.
Qed.
Lemma check_rows_rows i us m rows s :
  rows_are rows s -> exists m' s', check_rows ds clock net i us m s = (Ok m', s') /\ rows_are (api_marked i us rows) s'.
Proof.
  revert i m rows s. induction us as [|u us IH]; intros i m rows s Hr; cbn [check_rows api_marked]; [by exists m, s|].
  destruct (check_due (clock i) u); [|by apply IH]. destruct (check_one_rows i u m rows s Hr) as (m1 & s1 & H1' & Hr1).
  unfold bind. rewrite H1'. by apply IH.
Qed.

(** A round of the API's task never changes which upstreams the pool asks,
    nor the results the API shows, whatever fails: an upstream it finds down
    keeps being asked, one it finds up again stays out.  On a working
    connection it stores the status of every active upstream with an address
    that is due; and as no text of a TIMESTAMP is an RFC 3339 time, every
    upstream is due in every round, whatever its interval. *)
Theorem api_round_keeps_pool d m s :
  let r := api_health_tick ds clock net d m s in
  pool_models (snd r) = pool_models s /\ upstream_health (snd r) = upstream_health s /\
  (db_works s -> dns_upstreams (tables (db_of (snd r))) =
     api_marked 0 (health_rows (tables (db_of s))) (dns_upstreams (tables (db_of s)))) /\
  ((forall z, parse_rfc3339 (timestamp_text z) = None) -> forall now u, check_due now u = true).
Proof.
  cbn zeta. destruct (keeps_api_tick ds clock net d m s) as [Hp Hh]. split; [exact Hp|]. split; [exact Hh|]. clear Hp Hh. split.
  - intros Hs. unfold api_health_tick. unfold bind at 1.
    destruct (does_run _ _ _ _ (does_catch (F := AppError) _ _ _ _ (does_query (fun t => Ok (health_rows t)) s Hs))) as [n Hn].
    unfold fetch_all. rewrite Hn. cbn iota.
    destruct (check_rows_rows 0 (health_rows (tables (db_of s))) m (dns_upstreams (tables (db_of s))) (with_calls n s))
      as (m' & s1 & H1' & Hr1); [by split|].
    unfold bind at 1. rewrite H1'.
    match goal with |- context [execute ?f] =>
      destruct (rows_execute f _ (api_marked 0 (health_rows (tables (db_of s))) (dns_upstreams (tables (db_of s)))) s1 Hr1)
        as (r2 & s2 & H2' & Hr2); [by intros t Ht|] end.
    unfold bind. rewrite H2'. apply Hr2.
  - intros Hno now u. unfold check_due. destruct (u_last_health_check_at u) as [z|]; [|done]. cbn [fmap option_fmap option_map mbind option_bind].
    by rewrite Hno.
Qed.
End api_round.

End health.
End Health.

(** ** Concrete inputs *)

Module HealthWitness.
Import AsciiUnicode RefRegex RefJson RefIpNet RefMoka RefRng RefHickory RefResolver RefCrypto Api AppWitness RefTimestamp.
Import TasksWitness Upstreams Health.

#[export] Instance time : SqlTime := {| timestamptz _ := Some 50%Z; timestamptz_text := show_N |}.
Definition row_a : Upstream := PoolWitness.row "a" "9.9.9.9" 1 true "healthy".
Definition row_b : Upstream := PoolWitness.row "b" "8.8.8.8" 2 true "healthy".
Definition tables1 : Db := set_dns_upstreams empty_db [row_a; row_b].
Definition server : App := repooled today (app tables1).
Definition draws (n : nat) : Draws := today.
Definition down (n : nat) : Net := {| net_answers _ _ := false; net_ms := 9 |}.
Definition slow (n : N) : N := 9.
Definition main_round : M App AppError unit := health_check_tick slow PoolWitness.example_name draws today.
Definition api_round : M App AppError (gmap str UpstreamHealthResult) :=
  api_health_tick draws (fun _ => 0%Z) down today ∅.
Definition asked (s : App) : list str := map u_id (pool_models s).
Definition statuses (s : App) : list str := map u_health_status (dns_upstreams (tables (db_of s))).

(** Upstreams that stop answering leave the pool when the main task finds it
    out, and stay when the API's task is first. *)
Example race_test :
  let s1 := snd (main_round server) in
  let s2 := snd (main_round (snd (api_round server))) in
  (asked server, asked s1, asked s2) = ([lit "a"; lit "b"], [lit "fallback"], [lit "a"; lit "b"]) /\
  statuses s1 = [lit "degraded"; lit "degraded"] /\ statuses s2 = statuses s1.
Proof. vm_compute. done. Qed.

Lemma upstreams_server_works : db_works server.
Proof. by intros n. Qed.
Lemma health_round_correct_witness :
  exists s', does main_round server (Ok tt) s' /\
    forall u, u ∈ pool_models s' -> u = UpstreamPool.fallback_model 2000 \/
      u ∈ dns_upstreams (tables (db_of s')) /\ u_is_active u = true /\ u_health_status u <> lit "degraded".
Proof.
  destruct (health_round_correct slow PoolWitness.example_name draws today server upstreams_server_works)
    as (results & s' & Hr & Hd & _ & Hpool).
  exists s'. split; [exact Hd|].
  assert (Hres : fst (Handler.health_check_upstreams slow PoolWitness.example_name (dns_handler server)) =
    Ok [(lit "b", 5%Z, false); (lit "a", 5%Z, false)]) by (vm_compute; reflexivity).
  rewrite Hres in Hr. injection Hr as <-.
  assert (Hch : any_changed (Handler.list_upstreams (tables (db_of server))) [(lit "b", 5%Z, false); (lit "a", 5%Z, false)] = true)
    by (vm_compute; reflexivity).
  rewrite Hch in Hpool. apply Hpool.
Defined.
Lemma api_round_keeps_pool_witness :
  pool_models (snd (api_round server)) = pool_models server /\ statuses (snd (api_round server)) = [lit "degraded"; lit "degraded"].
Proof.
  destruct (api_round_keeps_pool draws (fun _ => 0%Z) down today ∅ server) as (Hp & _ & Hrows & _).
  split; [exact Hp|]. unfold statuses. specialize (Hrows upstreams_server_works).
  change (dns_upstreams (tables (db_of (snd (api_round server))))) with
    (dns_upstreams (tables (db_of (snd (api_health_tick draws (fun _ => 0%Z) down today ∅ server))))).
  rewrite Hrows. vm_compute. reflexivity.
Defined.
End HealthWitness.
