(* ===== verification/Doh.v ===== *)
(** * DNS over HTTPS: src/api/handlers/doh.rs

    The endpoint [/dns-query] takes a DNS message in base64url or as the body
    of a request, and gives it to the DNS handler under the address of the
    TCP peer.  The [base64] crate is a parameter, the class [Base64Url]. *)
From S2P Require Import Prelude RustStr IpAddr Regex Rules Acl Moka Hickory Cache Db DbLogic Filter Resolver.
From S2P Require Import UpstreamPool Handler HandlerTests Api App Auth AppTests.
Local Open Scope N_scope.

(** [base64::engine::general_purpose::URL_SAFE_NO_PAD] *)
Class Base64Url := { b64_encode : list N -> str; b64_decode : str -> option (list N) }.
(** RFC 4648: three bytes are four characters, and the text of bytes is read
    back as these bytes. *)
Class Base64UrlDoc `{Base64Url} := {
  b64_roundtrip : forall bs, Forall (fun b => b < 256) bs -> b64_decode (b64_encode bs) = Some bs;
  b64_length : forall bs, len (b64_encode bs) = (4 * N.of_nat (length bs) + 2) / 3 }.

Inductive Body := BText (s : string) | BWire (bytes : list N).
Record DohResponse := { dr_status : N; dr_content_type : option str; dr_cache_control : option str; dr_body : Body }.
(** [(status, text).into_response()] *)
Definition text_response (status : N) (text : string) : DohResponse :=
  {| dr_status := status; dr_content_type := Some (lit "text/plain; charset=utf-8"); dr_cache_control := None;
     dr_body := BText text |}.

Module Doh.
Section doh.
Context `{RustUnicode, RegexEngine, SerdeJson, Collation, IpNetCrate, Moka, Rng,
  Hickory, !HickoryResolver, !DnsCodec, Jwt, Base64Url}.
Import Api.

Definition DNS_MESSAGE_CONTENT_TYPE : str := lit "application/dns-message".
Definition MAX_DNS_MESSAGE_BYTES : N := 65535.
Definition MAX_DOH_GET_PARAM_LEN : N := 87384.

(** [Iterator::min] *)
Definition min_of (l : list N) : option N :=
  match l with [] => None | x :: l' => Some (fold_left N.min l' x) end.
Definition cache_control (response_bytes : list N) : str :=
  match from_vec response_bytes ≫= fun msg => min_of (map r_ttl (m_answers msg)) with
  | Some ttl => if 0 <? ttl then lit "max-age=" ++ show_N ttl else lit "no-store"
  | None => lit "no-store"
  end.

Definition resolve_doh (tm : Timing) (data : list N) (client_ip : str) : M App AppError DohResponse :=
  let! r := catch (on_handler (Handler.handle tm data client_ip)) in
  ret (match r with
       | Ok response_bytes =>
           {| dr_status := 200; dr_content_type := Some DNS_MESSAGE_CONTENT_TYPE;
              dr_cache_control := Some (cache_control response_bytes); dr_body := BWire response_bytes |}
       | Err _ => text_response 500 "DNS resolution failed"
       end).

Definition get_query (tm : Timing) (peer : IpAddr) (dns : str) : M App AppError DohResponse :=
  if MAX_DOH_GET_PARAM_LEN <? len dns then ret (text_response 400 "DNS message parameter too large")
  else match b64_decode dns with
       | Some data => resolve_doh tm data (show_ip peer)
       | None => ret (text_response 400 "Invalid base64url encoding")
       end.
Definition post_query (tm : Timing) (peer : IpAddr) (body : list N) : M App AppError DohResponse :=
  if MAX_DNS_MESSAGE_BYTES <? N.of_nat (length body) then ret (text_response 413 "DNS message too large")
  else resolve_doh tm body (show_ip peer).

(** ** The endpoint and the DNS sockets agree *)

(** What the sockets do with the same bytes from the same address. *)
Definition over_socket (tm : Timing) (peer : IpAddr) (data : list N) (s : App)
    : result (list N) Handler.HandlerError * App :=
  let '(r, h) := Handler.handle tm data (show_ip peer) (dns_handler s) in (r, set_dns_handler h s).

Lemma resolve_doh_run tm peer data s :
  let '(r, s') := over_socket tm peer data s in
  resolve_doh tm data (show_ip peer) s =
    (Ok (match r with
         | Ok bytes => {| dr_status := 200; dr_content_type := Some DNS_MESSAGE_CONTENT_TYPE;
                          dr_cache_control := Some (cache_control bytes); dr_body := BWire bytes |}
         | Err _ => text_response 500 "DNS resolution failed"
         end), s').
Proof.
  unfold over_socket, resolve_doh, catch, bind, on_handler.
  by destruct (Handler.handle tm data (show_ip peer) (dns_handler s)) as [[b|e] h].
Qed.

Lemma min_of_le l m x : min_of l = Some m -> x ∈ l -> m <= x.
Proof.
  destruct l as [|y l]; [done|]. intros [= <-] Hx.
  assert (Hle : forall l y, fold_left N.min l y <= y /\ forall x, x ∈ l -> fold_left N.min l y <= x).
  { clear. induction l as [|z l IH]; intros y; cbn [fold_left]; [split; [lia|by intros x ?%not_elem_of_nil]|].
    destruct (IH (N.min y z)) as [Hl1 Hl2]. split; [lia|]. intros x [->|Hx]%elem_of_cons; [lia|by apply Hl2]. }
  destruct (Hle l y) as [Hl1 Hl2]. apply elem_of_cons in Hx as [->|Hx]; [exact Hl1|by apply Hl2].
Qed.
Lemma cache_control_cases bytes :
  cache_control bytes = lit "no-store" \/
  exists msg ttl, from_vec bytes = Some msg /\ cache_control bytes = lit "max-age=" ++ show_N ttl /\
    0 < ttl /\ forall r, r ∈ m_answers msg -> ttl <= r_ttl r.
Proof.
  unfold cache_control. destruct (from_vec bytes) as [msg|]; [|by left]. cbn [mbind option_bind].
  destruct (min_of (map r_ttl (m_answers msg))) as [ttl|] eqn:Hm; [|by left].
  destruct (N.ltb_spec 0 ttl); [right|by left]. exists msg, ttl. do 3 (split; [done|]).
  intros r Hr. apply (min_of_le _ _ _ Hm). by apply list_elem_of_fmap_2.
Qed.

(** C37: Over HTTPS a message of at most 65535 bytes gets, by GET and by POST
    alike, the bytes the handler gives the sockets for it and leaves the
    server as they do; an error of the handler is the status 500.  The time a
    reply may be kept is no longer than the TTL of any of its answers.
    Nothing else reaches the handler: a longer body, a parameter that is too
    long or no base64url is refused and changes nothing. *)
Theorem doh_correct `{!Base64UrlDoc} tm peer bytes s :
  Forall (fun b => b < 256) bytes ->
  (N.of_nat (length bytes) <= 65535 ->
    get_query tm peer (b64_encode bytes) s = post_query tm peer bytes s /\
    exists r s', over_socket tm peer bytes s = (r, s') /\
      match r with
      | Ok reply => exists cc, post_query tm peer bytes s =
          (Ok {| dr_status := 200; dr_content_type := Some (lit "application/dns-message");
                 dr_cache_control := Some cc; dr_body := BWire reply |}, s') /\
          (cc = lit "no-store" \/ exists msg ttl, from_vec reply = Some msg /\ cc = lit "max-age=" ++ show_N ttl /\
             0 < ttl /\ forall a, a ∈ m_answers msg -> ttl <= r_ttl a)
      | Err _ => exists text, post_query tm peer bytes s = (Ok (text_response 500 text), s')
      end) /\
  (65535 < N.of_nat (length bytes) -> exists text, post_query tm peer bytes s = (Ok (text_response 413 text), s)) /\
  (forall dns, 87384 < len dns \/ b64_decode dns = None ->
    exists text, get_query tm peer dns s = (Ok (text_response 400 text), s)).
Proof.
  intros Hb. split; [|split].
  - intros Hl. assert (Hp : post_query tm peer bytes s = resolve_doh tm bytes (show_ip peer) s).
    { unfold post_query, MAX_DNS_MESSAGE_BYTES. by rewrite (proj2 (N.ltb_ge _ _)) by lia. }
    split.
    + rewrite Hp. unfold get_query, MAX_DOH_GET_PARAM_LEN. rewrite b64_length, b64_roundtrip by done.
      rewrite (proj2 (N.ltb_ge _ _)); [done|]. apply N.Div0.div_le_upper_bound. lia.
    + pose proof (resolve_doh_run tm peer bytes s) as Hr. destruct (over_socket tm peer bytes s) as [r s'].
      exists r, s'. split; [done|]. rewrite Hp, Hr. destruct r as [reply|e]; [|by eexists].
      eexists. split; [done|]. apply cache_control_cases.
  - intros Hl. unfold post_query, MAX_DNS_MESSAGE_BYTES. rewrite (proj2 (N.ltb_lt _ _)) by lia. by eexists.
  - intros dns Hd. unfold get_query, MAX_DOH_GET_PARAM_LEN. destruct (N.ltb_spec 87384 (len dns)); [by eexists|].
    destruct Hd as [?|Hd]; [lia|]. rewrite Hd. by eexists.
Qed.
End doh.
End Doh.

(** ** A reference encoder and decoder *)

Module RefBase64.
Definition char64 (v : N) : char :=
  if v <? 26 then 65 + v else if v <? 52 then 71 + v else if v <? 62 then v - 4 else if v =? 62 then 45 else 95.
Definition value64 (c : char) : option N :=
  if is_ascii_upper c then Some (c - 65) else if is_ascii_lower c then Some (c - 71)
  else if is_ascii_digit c then Some (c + 4) else if c =? 45 then Some 62 else if c =? 95 then Some 63 else None.
Fixpoint encode_bytes (bs : list N) : str :=
  match bs with
  | a :: b :: c :: bs' =>
      char64 (a / 4) :: char64 (a mod 4 * 16 + b / 16) :: char64 (b mod 16 * 4 + c / 64) :: char64 (c mod 64)
        :: encode_bytes bs'
  | [a; b] => [char64 (a / 4); char64 (a mod 4 * 16 + b / 16); char64 (b mod 16 * 4)]
  | [a] => [char64 (a / 4); char64 (a mod 4 * 16)]
  | [] => []
  end.
(** The bits left over must be zero. *)
Fixpoint decode_values (vs : list N) : option (list N) :=
  match vs with
  | p :: q :: r :: s :: vs' =>
      (fun l => p * 4 + q / 16 :: q mod 16 * 16 + r / 4 :: r mod 4 * 64 + s :: l) <$> decode_values vs'
  | [p; q; r] => if r mod 4 =? 0 then Some [p * 4 + q / 16; q mod 16 * 16 + r / 4] else None
  | [p; q] => if q mod 16 =? 0 then Some [p * 4 + q / 16] else None
  | [_] => None
  | [] => Some []
  end.
#[export] Instance base64 : Base64Url :=
  {| b64_encode := encode_bytes; b64_decode s := mapM value64 s ≫= decode_values |}.

Lemma value64_char64 v : v < 64 -> value64 (char64 v) = Some v.
Proof.
  intros Hv. assert (Hall : Forall (fun v => value64 (char64 v) = Some v) (map N.of_nat (seq 0 64))).
  { vm_compute. repeat constructor. }
  rewrite Forall_forall in Hall. apply Hall. replace v with (N.of_nat (N.to_nat v)) by lia.
  apply list_elem_of_fmap_2, elem_of_seq. lia.
Qed.
Lemma char64_ascii v : is_ascii (char64 v) = true.
Proof. unfold is_ascii, char64. repeat case_match; lia. Qed.
(** The bytes three by three. *)
Lemma triples_ind (P : list N -> Prop) :
  P [] -> (forall a, P [a]) -> (forall a b, P [a; b]) -> (forall a b c l, P l -> P (a :: b :: c :: l)) -> forall l, P l.
Proof.
  intros H0 H1 H2 H3. fix IH 1. intros [|a [|b [|c l]]]; [exact H0|apply H1|apply H2|apply H3, IH].
Qed.
Lemma quarter x y : y < 16 -> (x * 16 + y) / 16 = x /\ (x * 16 + y) mod 16 = y.
Proof. intros. split; lia. Qed.

#[export] Instance doc : Base64UrlDoc.
Proof.
  constructor.
  - intros bs. cbn [b64_encode b64_decode base64]. induction bs as [|a|a b|a b c l IH] using triples_ind; intros Hb.
    + done.
    + apply Forall_cons in Hb as [Ha _]. cbn [encode_bytes mapM]. rewrite !value64_char64 by lia.
      cbn [mbind option_bind mret option_ret decode_values].
      assert (Hz : a mod 4 * 16 mod 16 = 0) by lia. rewrite Hz. change (0 =? 0) with true. cbn iota. do 2 f_equal. lia.
    + apply Forall_cons in Hb as [Ha [Hb _]%Forall_cons]. cbn [encode_bytes mapM].
      rewrite !value64_char64 by lia. cbn [mbind option_bind mret option_ret decode_values].
      assert (Hz : b mod 16 * 4 mod 4 = 0) by lia. rewrite Hz. change (0 =? 0) with true. cbn iota. repeat f_equal; lia.
    + apply Forall_cons in Hb as [Ha [Hb [Hc Hl]%Forall_cons]%Forall_cons]. specialize (IH Hl).
      cbn [encode_bytes mapM]. rewrite !value64_char64 by lia. cbn [mbind option_bind].
      destruct (mapM value64 (encode_bytes l)) as [vs|]; [|done]. cbn [mbind option_bind mret option_ret] in *.
      cbn [decode_values]. rewrite IH. cbn [fmap option_fmap option_map]. repeat f_equal; lia.
  - intros bs. cbn [b64_encode base64]. rewrite len_ascii.
    + induction bs as [|a|a b|a b c l IH] using triples_ind; [done..|]. cbn [encode_bytes length] in *. lia.
    + induction bs as [|a|a b|a b c l IH] using triples_ind; [done|..]; cbn [encode_bytes]; unfold str_is_ascii in *;
        cbn [forallb]; rewrite !char64_ascii; done.
Qed.
End RefBase64.

Module DohWitness.
Import AsciiUnicode RefRegex RefJson RefIpNet RefMoka RefRng RefHickory RefResolver RefCrypto RefBase64 AppWitness Doh.

Definition blocking : App :=
  set_dns_handler (Handler.set_filter (HandlerWitness.engine empty_db) (dns_handler (app empty_db))) (app empty_db).
Definition question : list N := HandlerWitness.wire (HandlerWitness.msg 7 "ads.com." 1).
Definition asked : DohResponse :=
  match fst (get_query (HandlerWitness.tm 0) (V4 10 0 0 7) (b64_encode question) blocking) with
  | Ok r => r | Err _ => text_response 0 "" end.
Example doh_blocked_test :
  (dr_status asked, dr_cache_control asked,
   match dr_body asked with BWire b => m_code <$> from_vec b | BText _ => None end) =
  (200, Some (lit "no-store"), Some NXDomain).
Proof. vm_compute. reflexivity. Qed.
Example base64_test : b64_encode [251; 255; 1; 2] = lit "-_8BAg" /\ b64_decode (lit "-_8BAh") = None.
Proof. vm_compute. done. Qed.

Lemma doh_correct_witness :
  get_query (HandlerWitness.tm 0) (V4 10 0 0 7) (b64_encode question) blocking =
  post_query (HandlerWitness.tm 0) (V4 10 0 0 7) question blocking.
Proof.
  destruct (doh_correct (HandlerWitness.tm 0) (V4 10 0 0 7) question blocking) as [Hq _].
  - apply Forall_forall. intros b Hb. apply N.ltb_lt. revert b Hb. apply Forall_forall. vm_compute. repeat constructor.
  - apply Hq. vm_compute. discriminate.
Defined.
End DohWitness.
