(* ===== verification/Tools.v ===== *)
(** * The small handlers of the API: src/api/handlers

    The check of domains (domain_check.rs), the sandbox for rules
    (sandbox.rs), the DNS cache (cache.rs), the statistics of the filter
    (filter_stats.rs), the metrics (metrics.rs), the health of the process
    (health.rs) and the listing of the audit log (audit_log.rs). *)
From S2P Require Import Prelude RustStr IpAddr Regex Rules Acl Moka Hickory Cache Db DbLogic Filter Resolver.
From S2P Require Import UpstreamPool Metrics Handler HandlerTests Api App Auth AppTests Listing Groups.
Local Open Scope N_scope.

Record DomainCheckResult := { dc_domain : str; dc_blocked : bool; dc_rewrite_target : option str; dc_action : str }.
Record SandboxRequest := { sb_rule : str; sb_test_domains : list str }.
Record SandboxResult := { sr_domain : str; sr_status : str }.
Record SandboxResponse := {
  sb_rule_valid : bool; sb_rule_type : option str; sb_parsed_blocks : nat; sb_parsed_allows : nat;
  sb_results : list SandboxResult }.
Record AuditLogParams := {
  alp_page : option Z; alp_per_page : option Z; alp_user_id : option str; alp_action : option str;
  alp_resource : option str }.

Module Tools.
Section tools.
Context `{RustUnicode, RegexEngine, SerdeJson, Collation, IpNetCrate, Moka, Rng,
  Hickory, !HickoryResolver, !DnsCodec, Jwt}.
Import Api.

(** ** domain_check.rs *)

Inductive CheckAnswer := CheckResults (results : list DomainCheckResult) | CheckError (message : str).

Definition check_domain (f : FilterEngine.FilterEngine) (domain : str) : DomainCheckResult :=
  let blocked := FilterEngine.is_blocked f domain in
  let rewrite_target := FilterEngine.check_rewrite f domain in
  {| dc_domain := domain; dc_blocked := blocked; dc_rewrite_target := rewrite_target;
     dc_action := match rewrite_target with
                  | Some target => lit "rewritten:" ++ target
                  | None => if blocked then lit "blocked" else lit "allowed"
                  end |}.
(** The names the loop looks at. *)
Definition checked_names (domains : list str) : list str :=
  List.filter (fun d => negb (is_empty d)) (map (fun d => to_lowercase (trim d)) domains).
Definition check_domains (d : Draws) (p : Parts) (domains : list str) : M App AppError CheckAnswer :=
  AuthUser d p ;;;
  if bool_decide (domains = []) then ret (CheckResults [])
  else if (100 <? length domains)%nat then ret (CheckError (lit "maximum 100 domains per request"))
  else gets (fun s => CheckResults (map (check_domain (engine s)) (checked_names domains))).

(** ** sandbox.rs *)

Definition status_text (r : MatchResult) : str :=
  match r with Blocked => lit "blocked" | Allowed => lit "allowed" | NoMatch => lit "unmatched" end.
(** The rules are added and matched; the patterns among them are never
    compiled. *)
Definition sandbox_results (ruleset : Rules.RuleSet) (domains : list str) : list SandboxResult :=
  flat_map (fun domain =>
    let domain_cleaned := trim_end_char (trim domain) dot in
    if is_empty domain_cleaned then []
    else [{| sr_domain := domain; sr_status := status_text (Rules.match_domain ruleset domain_cleaned) |}]) domains.
Definition rule_kind (block_count allow_count : nat) : option str :=
  if (0 <? block_count)%nat && (allow_count =? 0)%nat then Some (lit "block")
  else if (0 <? allow_count)%nat && (block_count =? 0)%nat then Some (lit "allow")
  else if (0 <? block_count)%nat && (0 <? allow_count)%nat then Some (lit "mixed")
  else None.
Definition test_rule (d : Draws) (p : Parts) (body : SandboxRequest) : M App AppError SandboxResponse :=
  AuthUser d p ;;;
  if is_empty (trim (sb_rule body)) then fail (Validation "Rule cannot be empty")
  else if bool_decide (sb_test_domains body = []) then fail (Validation "At least one test domain is required")
  else
    let '(ruleset, num_rules_parsed) := Rules.add_rules_from_str Rules.new (sb_rule body) in
    let block_count := Rules.blocked_count ruleset in
    let allow_count := Rules.allowed_count ruleset in
    ret {| sb_rule_valid := 0 <? num_rules_parsed; sb_rule_type := rule_kind block_count allow_count;
           sb_parsed_blocks := block_count; sb_parsed_allows := allow_count;
           sb_results := sandbox_results ruleset (sb_test_domains body) |}.

(** ** cache.rs, filter_stats.rs, metrics.rs, health.rs *)

(** The number of entries and the capacity; the quotient of both, a floating
    point number, is left out. *)
Definition get_cache_stats (d : Draws) (p : Parts) : M App AppError (N * N) :=
  AdminUser d p ;;; gets (fun s => Handler.cache_stats (dns_handler s)).
Definition flush_cache (d : Draws) (p : Parts) : M App AppError unit :=
  AdminUser d p ;;; update_handler Handler.cache_flush.
Record FilterStats := { fs_blocked : nat; fs_allowed : nat; fs_rewrites : nat; fs_total : nat }.
Definition get_filter_stats (d : Draws) (p : Parts) : M App AppError FilterStats :=
  AuthUser d p ;;;
  let! f := gets engine in
  let '(blocked_count, allowed_count, rewrite_count) := FilterEngine.stats f in
  ret {| fs_blocked := blocked_count; fs_allowed := allowed_count; fs_rewrites := rewrite_count;
         fs_total := (blocked_count + allowed_count)%nat |}.
Definition prometheus_metrics (d : Draws) (p : Parts) : M App AppError str :=
  AdminUser d p ;;; gets (fun s => Metrics.to_prometheus_text (Handler.metrics (dns_handler s))).
(** [env!("CARGO_PKG_VERSION")] *)
Definition health_check : str * str := (lit "ok", lit "1.58.0").

(** ** audit_log.rs *)

Definition audit_selected (q : AuditLogParams) (e : AuditLogEntry) : bool :=
  let is_ (want : option str) (got : str) := match want with Some v => got =s? v | None => true end in
  is_ (alp_user_id q) (al_user_id e) && is_ (alp_action q) (al_action e) && is_ (alp_resource q) (al_resource e).
Definition audit_selection (q : AuditLogParams) (t : Db) : list AuditLogEntry :=
  List.filter (audit_selected q) (audit_log t).
Definition audit_page (q : AuditLogParams) : Z := Z.max (default 1%Z (alp_page q)) 1.
Definition audit_per_page (q : AuditLogParams) : Z := Z.min (Z.max (default 50%Z (alp_per_page q)) 1) 200.
Record AuditResponse := { au_data : list AuditLogEntry; au_total : nat; au_page : Z; au_per_page : Z }.
(** The offset is multiplied without a check. *)
Definition audit_list (d : Draws) (p : Parts) (q : AuditLogParams) : M App AppError AuditResponse :=
  AdminUser d p ;;;
  let offset := Groups.wrap_i64 ((audit_page q - 1) * audit_per_page q) in
  let! total := db (fetch_one (fun t => Some (length (audit_selection q t)))) in
  let! rows := db (query (fun t =>
    Groups.checked_limit (audit_per_page q) offset (Listing.order_desc al_time (audit_selection q t)))) in
  ret {| au_data := rows; au_total := total; au_page := audit_page q; au_per_page := audit_per_page q |}.

(** ** What the tools say is what the server does *)

Lemma query_name_trim x : Rules.query_name (trim_end_char x dot) = Rules.query_name x.
Proof. unfold Rules.query_name. f_equal. apply trim_end_by_idem. Qed.
Lemma is_blocked_name f x y :
  Rules.query_name x = Rules.query_name y -> FilterEngine.is_blocked f x = FilterEngine.is_blocked f y.
Proof.
  unfold FilterEngine.is_blocked, Rules.is_blocked. rewrite !Rules.match_domain_alt. by intros ->.
Qed.
(** A name as the check takes it and the same name as a query carries it. *)
Lemma lower_no_end_dot x :
  str_is_ascii x = true -> Rules.query_name (Rules.query_name x) = Rules.query_name x.
Proof.
  intros Hx. unfold Rules.query_name. set (y := trim_end_char x dot).
  assert (Hy : str_is_ascii y = true) by (by apply trim_end_char_ascii).
  rewrite (to_lowercase_ascii y) by done. rewrite <- lower_trim_end_char by done.
  assert (trim_end_char y dot = y) as -> by apply trim_end_by_idem.
  by rewrite <- (to_lowercase_ascii y), to_lowercase_idem.
Qed.

(** A rule set without patterns is matched as if it were compiled. *)
Lemma match_uncompiled rs domain :
  Rules.wildcard_blocked_patterns rs = [] -> Rules.wildcard_allowed_patterns rs = [] ->
  Rules.wildcard_blocked_set rs = None -> Rules.wildcard_allowed_set rs = None ->
  Rules.match_domain (Rules.build rs) domain = Rules.match_domain rs domain.
Proof. destruct rs as [b a pb pa sb sa ba]. cbn. intros -> -> -> ->. done. Qed.
Lemma uncompiled_rules ls : 
  let rs := fst (Rules.add_rules Rules.new ls) in
  Rules.wildcard_blocked_set rs = None /\ Rules.wildcard_allowed_set rs = None.
Proof.
  cbn zeta. apply (Rules.add_rules_ind (fun rs => Rules.wildcard_blocked_set rs = None /\ Rules.wildcard_allowed_set rs = None)).
  - done.
  - intros rs line _ [Hb Ha]. destruct (Rules.add_rule_cases line) as (o & Ho & _). rewrite Ho.
    by destruct o as [[]|].
Qed.

(** What the tools of the API say of a name is what the server does with
    queries for it.  The check of at most a hundred domains names the rewrite
    and the verdict of the filter that a query for the name, in any case and
    with its final dot, meets for a client without a configuration.  The
    sandbox judges a name as an engine loaded with exactly its rules does,
    when none of them is a wildcard pattern. *)
Theorem tools_agree d p auth s :
  fst (AuthUser d p s) = Ok auth ->
  (forall domains, domains <> [] -> (length domains <= 100)%nat ->
    exists results, does (check_domains d p domains) s (Ok (CheckResults results)) s /\
      map dc_domain results = checked_names domains /\
      forall r name, r ∈ results -> str_is_ascii name = true -> Rules.query_name name = dc_domain r ->
        let h := dns_handler s in
        Handler.rewrite_answer h Handler.default_config (trim_end_char name dot) = dc_rewrite_target r /\
        Handler.is_query_blocked h Handler.default_config (trim_end_char name dot) = dc_blocked r /\
        dc_action r = match Handler.rewrite_answer h Handler.default_config (trim_end_char name dot) with
                      | Some target => lit "rewritten:" ++ target
                      | None => if Handler.is_query_blocked h Handler.default_config (trim_end_char name dot)
                                then lit "blocked" else lit "allowed"
                      end) /\
  (forall body, is_empty (trim (sb_rule body)) = false -> sb_test_domains body <> [] ->
    let ruleset := fst (Rules.add_rules Rules.new (lines (sb_rule body))) in
    exists response, does (test_rule d p body) s (Ok response) s /\
      map sr_domain (sb_results response) =
        List.filter (fun x => negb (is_empty (trim_end_char (trim x) dot))) (sb_test_domains body) /\
      (Rules.wildcard_blocked_patterns ruleset = [] -> Rules.wildcard_allowed_patterns ruleset = [] ->
       forall r, r ∈ sb_results response ->
         sr_status r = status_text (Rules.match_domain (Rules.build ruleset) (trim (sr_domain r))))).
Proof.
  intros Hauth. pose proof (does_AuthUser d p s) as Ha. rewrite Hauth in Ha. split.
  - intros domains Hne Hlen. exists (map (check_domain (engine s)) (checked_names domains)). split; [|split].
    + unfold check_domains. eapply does_bind; [exact Ha|]. rewrite bool_decide_eq_false_2 by done.
      rewrite (proj2 (Nat.ltb_ge _ _)) by lia.
      by apply (does_gets (fun s => CheckResults (map (check_domain (engine s)) (checked_names domains)))).
    + rewrite map_map. cbn [check_domain dc_domain]. apply map_id.
    + intros r name (x & -> & _)%list_elem_of_fmap Hn Hx h. cbn [check_domain dc_domain] in Hx.
      assert (Hr : Handler.rewrite_answer h Handler.default_config (trim_end_char name dot) =
        FilterEngine.check_rewrite (engine s) x).
      { unfold Handler.rewrite_answer, FilterEngine.check_rewrite. cbn [Handler.group_rewrites Handler.default_config].
        unfold engine, h. f_equal. change (to_lowercase (trim_end_char name dot)) with (Rules.query_name name).
        rewrite Hx. rewrite <- Hx. unfold Rules.query_name. rewrite to_lowercase_idem; [done|].
        by apply trim_end_char_ascii. }
      assert (Hb : Handler.is_query_blocked h Handler.default_config (trim_end_char name dot) =
        FilterEngine.is_blocked (engine s) x).
      { unfold Handler.is_query_blocked. cbn [Handler.filter_enabled Handler.group_ruleset Handler.default_config andb].
        apply is_blocked_name. rewrite query_name_trim. rewrite <- Hx. by rewrite lower_no_end_dot. }
      rewrite Hr, Hb. cbn [check_domain dc_rewrite_target dc_blocked dc_action]. done.
  - intros body Hrule Hne ruleset. eexists. split; [|split].
    + unfold test_rule. eapply does_bind; [exact Ha|]. rewrite Hrule, bool_decide_eq_false_2 by done.
      rewrite (surjective_pairing (Rules.add_rules_from_str Rules.new (sb_rule body))). apply does_ret.
    + cbn [sb_results]. unfold sandbox_results. clear Hne. induction (sb_test_domains body) as [|x l IH]; [done|].
      cbn [flat_map List.filter]. destruct (is_empty (trim_end_char (trim x) dot)); [exact IH|].
      cbn [app map negb sr_domain]. f_equal. exact IH.
    + cbn [sb_results]. intros Hpb Hpa r Hr. destruct (uncompiled_rules (lines (sb_rule body))) as [Hsb Hsa].
      rewrite match_uncompiled by done. unfold sandbox_results in Hr. rewrite list_elem_of_In, in_flat_map in Hr. destruct Hr as (x & _ & Hr).
      cbn zeta in Hr. destruct (is_empty (trim_end_char (trim x) dot)); [by destruct Hr|]. destruct Hr as [<-|[]]. cbn [sr_domain sr_status]. f_equal.
      fold ruleset. change (fst (Rules.add_rules_from_str Rules.new (sb_rule body))) with ruleset.
      rewrite !Rules.match_domain_alt. by rewrite query_name_trim.
Qed.
End tools.
End Tools.

Module ToolsWitness.
Import AsciiUnicode RefRegex RefJson RefIpNet RefMoka RefRng RefHickory RefResolver RefCrypto Api AppWitness Tools.

(** The engine blocks ads.com and rewrites router.lan. *)
Definition filtering : App :=
  set_dns_handler (Handler.set_filter (HandlerWitness.engine empty_db) (dns_handler (app empty_db))) (app empty_db).
Example check_test :
  match fst (check_domains today admin [lit " X.Ads.com"; lit ""; lit "Router.lan"; lit "a.org"] filtering) with
  | Ok (CheckResults l) => map (fun r => (dc_domain r, dc_action r)) l
  | _ => []
  end = [(lit "x.ads.com", lit "blocked"); (lit "router.lan", lit "rewritten:10.0.0.254"); (lit "a.org", lit "allowed")].
Proof. vm_compute. reflexivity. Qed.
(** With its final dot the check misses the rewrite that the query gets. *)
Example check_dot_test :
  match fst (check_domains today admin [lit "router.lan."] filtering) with
  | Ok (CheckResults l) => map dc_action l | _ => [] end = [lit "allowed"] /\
  Handler.rewrite_answer (dns_handler filtering) Handler.default_config (trim_end_char (lit "router.lan.") dot) =
    Some (lit "10.0.0.254").
Proof. vm_compute. done. Qed.
Definition sandbox (rule : string) (domain : string) : option str * list str :=
  match fst (test_rule today admin {| sb_rule := lit rule; sb_test_domains := [lit domain] |} filtering) with
  | Ok r => (sb_rule_type r, map sr_status (sb_results r)) | Err _ => (None, []) end.
(** A wildcard rule counts as a block rule and matches nothing, though the
    server blocks the name by it. *)
Example sandbox_wildcard_test :
  sandbox "||ad-*.x.com^" "ad-1.x.com" = (Some (lit "block"), [lit "unmatched"]) /\
  Rules.match_domain (Rules.build (fst (Rules.add_rules Rules.new [lit "||ad-*.x.com^"]))) "ad-1.x.com" = Blocked.
Proof. vm_compute. done. Qed.

Lemma tools_agree_witness :
  exists results, does (check_domains today admin [lit "Ads.com"]) filtering (Ok (CheckResults results)) filtering /\
    map dc_domain results = [lit "ads.com"].
Proof.
  destruct (tools_agree today admin AuthWitness.ann filtering) as [Hc _]; [vm_compute; reflexivity|].
  destruct (Hc [lit "Ads.com"]) as (results & Hr & Hd & _); [discriminate|vm_compute; lia|].
  exists results. split; [exact Hr|]. rewrite Hd. vm_compute. reflexivity.
Defined.
End ToolsWitness.
