(* ===== verification/RuleStats.v ===== *)
(** * The hits of the rules: src/api/handlers/rule_stats.rs

    How often each custom rule blocked a query.  The handler does not keep
    counts: it reads the blocked queries of the log and asks of every rule,
    with a parser and a matcher of its own, which of them it covers. *)
From S2P Require Import Prelude RustStr IpAddr Regex Rules Acl Moka Hickory Cache Db DbLogic Filter Resolver.
From S2P Require Import UpstreamPool Handler HandlerTests Api App Auth AppTests Listing Tables RulesApi.
Local Open Scope N_scope.

(** [regex::Regex], and what the documentation says of it and of the set of
    this one expression. *)
Class RegexSingle `{RegexEngine} := {
  Regex : Type; Regex_new : str -> option Regex; Regex_is_match : Regex -> str -> bool }.
Class RegexSingleDoc `{RegexSingle} := {
  regex_set_of_one : forall p r, Regex_new p = Some r ->
    exists set, RegexSet_new [p] = Some set /\ RegexSet_is_empty set = false /\
      forall s, RegexSet_is_match set s = Regex_is_match r s }.
(** The groups of a [GROUP BY] come in an order of the server's. *)
Class GroupOrder := { arrange : forall {A}, list A -> list A }.
Class GroupOrderDoc `{GroupOrder} := { arrange_perm : forall A (l : list A), Permutation (arrange l) l }.

Record StatsParams := { sp_hours : option Z; sp_limit : option Z }.

Module RuleStats.
Section matchers.
Context `{RustUnicode, RegexSingle}.

Inductive RuleMatcher := Domain (domain : str) | Wildcard (re : Regex) | Skip.

Definition wildcard_char (c : char) : str :=
  if c =? star then lit "[^.]+"
  else if c =? dot then [backslash; dot]
  else if is_alphanumeric c || (c =? hyphen) || (c =? underscore) then [c]
  else [backslash; c].
Definition wildcard_to_regex (pattern : str) : str :=
  lit "(?i)^" ++ concat (map wildcard_char pattern) ++ lit "$".

(** A name after a prefix, unless it is empty or has a star. *)
Definition domain_or_skip (d : str) : RuleMatcher :=
  if negb (is_empty d) && negb (contains_char d star) then Domain d else Skip.

Definition parse_rule_matcher (rule : str) : RuleMatcher :=
  let r := trim rule in
  if is_empty r || starts_with_char r hash || starts_with_char r bang || starts_with r "@@" then Skip
  else match strip_prefix r "||" with
  | Some rest =>
      let domain_raw := split_first (split_first rest caret) dollar in
      let domain_str := to_lowercase (trim_end_char (trim_end_char (trim_end_char domain_raw bar) slash) dot) in
      if is_empty domain_str then Skip
      else if contains_char domain_str star then
        match Regex_new (wildcard_to_regex domain_str) with Some re => Wildcard re | None => Skip end
      else Domain domain_str
  | None =>
  match strip_prefix r "*." with
  | Some rest => domain_or_skip (to_lowercase (trim rest))
  | None =>
  match strip_prefix r "." with
  | Some rest => domain_or_skip (to_lowercase (trim rest))
  | None =>
  if starts_with r "0.0.0.0 " || starts_with r "127.0.0.1 " || starts_with r "::1 " || starts_with r "::0 " then
    match split_once r 32 with
    | Some (_, rest) => domain_or_skip (to_lowercase (trim rest))
    | None => Skip
    end
  else if contains_char r star then Skip
  else if negb (contains_char r slash) && negb (contains_char r 32) then
    let d := to_lowercase r in if negb (is_empty d) then Domain d else Skip
  else Skip
  end end end.

Definition domain_matches (question rule_domain : str) : bool :=
  let q := to_lowercase (trim_end_char question dot) in
  (q =s? rule_domain) || ends_with q (dot :: rule_domain).
(** Whether a question counts for a rule. *)
Definition hits (m : RuleMatcher) (question : str) : bool :=
  match m with
  | Domain rule_domain => domain_matches question rule_domain
  | Wildcard re => Regex_is_match re (trim_end_char question dot)
  | Skip => false
  end.

Example parse_test :
  map parse_rule_matcher [lit "||Ads.com^$third-party"; lit "*.a.b"; lit ".a.b"; lit "0.0.0.0 X.y"; lit "Plain.org"] =
  [Domain (lit "ads.com"); Domain (lit "a.b"); Domain (lit "a.b"); Domain (lit "x.y"); Domain (lit "plain.org")] /\
  map parse_rule_matcher [lit "@@||ads.com^"; lit "# a"; lit "a*.b"; lit "10.0.0.1 x.y"; lit "/ads/"] =
  [Skip; Skip; Skip; Skip; Skip].
Proof. vm_compute. done. Qed.

(** ** What is counted for a rule is what it blocks *)

Lemma domain_matches_under q d : str_is_ascii q = true ->
  domain_matches (to_lowercase q) d = true <-> Rules.under (Rules.query_name q) d.
Proof.
  intros Hq. unfold domain_matches, Rules.under, Rules.query_name.
  assert (to_lowercase (trim_end_char (to_lowercase q) dot) = to_lowercase (trim_end_char q dot)) as ->.
  { assert (Ht : str_is_ascii (trim_end_char q dot) = true) by (by apply trim_end_char_ascii).
    rewrite (to_lowercase_ascii q) by done. rewrite <- lower_trim_end_char by done.
    rewrite <- to_lowercase_ascii by done. by apply to_lowercase_idem. }
  rewrite orb_true_iff, str_eqb_eq. unfold ends_with. rewrite starts_with_true. cbn [rev].
  split; (intros [Heq|[p Hp]]; [by left|right]).
  - exists (rev p). apply (f_equal (@rev N)) in Hp. rewrite rev_involutive in Hp.
    rewrite !rev_app_distr, rev_involutive in Hp. by rewrite Hp.
  - exists (rev p). rewrite Hp, rev_app_distr. cbn [rev]. by rewrite <- app_assoc.
Qed.

Lemma special_lower c : is_ascii c = true -> Rules.special (to_ascii_lower c) = Rules.special c.
Proof.
  intros Hc. unfold to_ascii_lower. destruct (is_ascii_upper c) eqn:Hup; [|done].
  unfold is_ascii_upper in Hup. unfold Rules.special, is_whitespace. cbn [existsb]. lia.
Qed.
Lemma lacks_special_lower x : str_is_ascii x = true -> lacks Rules.special (to_lowercase x) <-> lacks Rules.special x.
Proof.
  intros Hx. rewrite to_lowercase_ascii by done. split; intros Hl c Hc.
  - rewrite <- special_lower by (by eapply str_is_ascii_elem). apply Hl. by apply list_elem_of_fmap_2.
  - apply list_elem_of_fmap in Hc as (e & -> & He). rewrite special_lower by (by eapply str_is_ascii_elem). by apply Hl.
Qed.

Section covered.
(** A name of a question, of ordinary characters. *)
Context (q d : str) (Hq : str_is_ascii q = true) (Hplain : lacks Rules.special q).
Context (Hu : Rules.under (Rules.query_name q) d) (Hd : d <> []).

Lemma covered_elem c : c ∈ d -> c ∈ Rules.query_name q.
Proof. intros Hc. destruct Hu as [->|[p ->]]; [done|]. apply elem_of_app. right. by right. Qed.
Lemma covered_plain : lacks Rules.special d.
Proof.
  intros c Hc%covered_elem. unfold Rules.query_name in Hc.
  assert (Ha : str_is_ascii (trim_end_char q dot) = true) by (by apply trim_end_char_ascii).
  revert c Hc. apply lacks_special_lower; [done|]. intros c Hc. apply Hplain.
  destruct (trim_end_char_tail q dot) as (k & Hk & _). rewrite Hk. apply elem_of_app. by left.
Qed.
Lemma covered_end k : d <> k ++ [dot].
Proof.
  intros Heq. assert (Hl : exists e, Rules.query_name q = e ++ [dot]).
  { destruct Hu as [->|[p ->]]; [by exists k|]. rewrite Heq. exists (p ++ dot :: k). by rewrite <- app_assoc. }
  destruct Hl as [e Hl]. unfold Rules.query_name in Hl.
  rewrite to_lowercase_ascii in Hl by (by apply trim_end_char_ascii).
  rewrite lower_trim_end_char in Hl by done. by apply trim_end_by_last in Hl.
Qed.
Lemma covered_trim : trim_end_char d dot = d.
Proof.
  destruct (trim_end_char_tail d dot) as (k & Hk & Hdots). destruct k as [|e k _] using rev_ind; [by rewrite app_nil_r in Hk|].
  exfalso. assert (e = dot) as -> by (apply Hdots, elem_of_app; right; by left).
  rewrite app_assoc in Hk. by apply covered_end in Hk.
Qed.
End covered.

(** The engine of one rule. *)
Definition alone (rule : str) : Rules.RuleSet := Rules.build (fst (Rules.add_rules Rules.new [rule])).
Lemma alone_add rule : alone rule = Rules.build (fst (Rules.add_rule Rules.new rule)).
Proof. unfold alone, Rules.add_rules. cbn [fold_left Rules.add_step]. by destruct (Rules.add_rule Rules.new rule). Qed.

Lemma match_alone rs q :
  Rules.allowed rs = ∅ -> Rules.wildcard_allowed_patterns rs = [] ->
  Rules.match_domain (Rules.build rs) q =
    (if Rules.block_all rs || (Rules.matches_set (Rules.query_name q) (Rules.blocked rs)
       || Rules.matches_wildcard_set (Rules.query_name q) (Rules.compile (Rules.wildcard_blocked_patterns rs)))
     then Blocked else NoMatch).
Proof.
  intros Ha Hp. rewrite Rules.match_domain_alt. cbn zeta.
  destruct rs as [b a pb pa sb sa ba]. cbn [Rules.allowed Rules.wildcard_allowed_patterns] in Ha, Hp. subst a pa.
  assert (He : Rules.matches_set (Rules.query_name q) ∅ = false).
  { apply not_true_iff_false. unfold Rules.matches_set. rewrite Rules.walk_up_spec. intros (x & _ & Hx).
    by apply bool_decide_eq_true in Hx. }
  change (Rules.allowed _) with (∅ : gset str). by rewrite He.
Qed.
Lemma blocks_inserted q d :
  Rules.match_domain (Rules.build (Rules.insert_blocked Rules.new d)) q = Blocked <-> Rules.under (Rules.query_name q) d.
Proof.
  rewrite match_alone by done. change (Rules.compile _) with (@None RegexSet).
  change (Rules.block_all _) with false. cbn [orb Rules.matches_wildcard_set]. rewrite orb_false_r.
  change (Rules.blocked _) with ({[d]} ∪ ∅ : gset str).
  assert (Hm : Rules.matches_set (Rules.query_name q) ({[d]} ∪ ∅) = true <-> Rules.under (Rules.query_name q) d).
  { unfold Rules.matches_set. rewrite Rules.walk_up_spec. setoid_rewrite bool_decide_eq_true. split.
    - intros (x & Hx & Hin). assert (x = d) as <- by set_solver. done.
    - intros Hd. exists d. split; [done|]. set_solver. }
  rewrite <- Hm. by destruct (Rules.matches_set _ _).
Qed.
Lemma blocks_all q : Rules.match_domain (Rules.build (Rules.set_block_all Rules.new)) q = Blocked.
Proof. by rewrite match_alone. Qed.
Lemma blocks_pattern `{!RegexSingleDoc} q p re :
  Regex_new p = Some re -> Regex_is_match re (Rules.query_name q) = true ->
  Rules.match_domain (Rules.build (Rules.set_wildcard_blocked Rules.new [p] None)) q = Blocked.
Proof.
  intros Hp Hm. destruct (regex_set_of_one p re Hp) as (set & Hset & Hne & His).
  rewrite match_alone by done. change (Rules.compile _) with (RegexSet_new [p]).
  rewrite Hset. cbn [Rules.matches_wildcard_set]. rewrite Hne.
  assert (Hw : Rules.walk_up (RegexSet_is_match set) (Rules.query_name q) = true).
  { apply Rules.walk_up_spec. exists (Rules.query_name q). split; [by left|]. by rewrite His. }
  by rewrite Hw, !orb_true_r.
Qed.

Lemma hosts_none c s : c = bar \/ c = star -> Rules.parse_hosts_line (c :: s) = None.
Proof.
  intros Hc. unfold Rules.parse_hosts_line.
  destruct (split_whitespace_head c s) as (w & ws & ->); [by destruct Hc as [-> | ->]|].
  assert (parse_ip (c :: w) = None) as ->; [|done]. destruct Hc as [-> | ->]; by vm_compute.
Qed.

(** A trimmed line, and a name it is credited with. *)
Section credited.
Context `{!RegexSingleDoc}.
Context (q : str) (Hq : str_is_ascii q = true) (Hplain : lacks Rules.special q).
Definition credited (m : RuleMatcher) : Prop := hits m (to_lowercase q) = true.

Lemma credited_domain d :
  d <> [] -> credited (Domain d) ->
  Rules.under (Rules.query_name q) d /\ lacks Rules.special d /\ trim_end_char d dot = d.
Proof.
  intros Hd Hc. unfold credited in Hc. cbn [hits] in Hc. apply domain_matches_under in Hc; [|done].
  split; [done|]. split; [by apply (covered_plain q)|by apply (covered_trim q)].
Qed.
Lemma credited_after d : credited (domain_or_skip d) -> d <> [] /\ credited (Domain d).
Proof.
  unfold domain_or_skip. destruct d as [|c d]; [done|]. by destruct (contains_char _ _).
Qed.

(** The domain of the line, as the rule set normalizes it. *)
Lemma normalize_covered x :
  str_is_ascii x = true -> lacks Rules.special x -> trim_end_char (to_lowercase x) dot = to_lowercase x ->
  Rules.normalize_domain x = to_lowercase x.
Proof.
  intros Hx Hl Ht. unfold Rules.normalize_domain. rewrite trim_lacks by (by apply Rules.special_whitespace).
  rewrite (to_lowercase_ascii x) in * by done. rewrite to_lowercase_ascii by (by apply trim_end_char_ascii).
  by rewrite lower_trim_end_char, Ht.
Qed.
(** The inner of a bar rule, a star rule and a hosts rule. *)
Lemma credited_text x d :
  str_is_ascii x = true -> d = to_lowercase x -> d <> [] -> credited (Domain d) ->
  lacks Rules.special x /\ Rules.normalize_domain x = d /\ trim_end_char x dot = x /\
  Rules.match_domain (Rules.build (Rules.insert_blocked Rules.new d)) q = Blocked.
Proof.
  intros Hx -> Hne Hc. destruct (credited_domain _ Hne Hc) as (Hu & Hl & Ht).
  rewrite lacks_special_lower in Hl by done. split; [done|]. split; [by apply normalize_covered|].
  split; [|by apply blocks_inserted].
  destruct (trim_end_char_tail x dot) as (k & Hk & Hdots). destruct k as [|e k _] using rev_ind; [by rewrite app_nil_r in Hk|].
  exfalso. assert (e = dot) as -> by (apply Hdots, elem_of_app; right; by left).
  rewrite to_lowercase_ascii in Ht by done. rewrite Hk, app_assoc, map_app in Ht. cbn [map] in Ht.
  change (to_ascii_lower dot) with dot in Ht. by apply trim_end_by_last in Ht.
Qed.

Lemma invalid_special x : str_is_ascii x = true -> ~ lacks Rules.special x -> Rules.is_valid_domain x = false.
Proof. intros Hx Hn. apply not_true_iff_false. intros Hv. by apply Hn, Rules.valid_domain_plain. Qed.
Lemma special_in c (x : str) : Rules.special c = true -> c ∈ x -> ~ lacks Rules.special x.
Proof. intros Hc Hin Hl. specialize (Hl c Hin). congruence. Qed.
Lemma normalize_ascii x : str_is_ascii x = true -> str_is_ascii (Rules.normalize_domain x) = true.
Proof. intros Hx. unfold Rules.normalize_domain. by apply str_is_ascii_lower, trim_end_char_ascii, trim_ascii. Qed.

(** A special character stays in the name of a line, which is then no
    domain. *)
Lemma elem_drop_while (p : char -> bool) x c : c ∈ x -> p c = false -> c ∈ drop_while p x.
Proof.
  intros Hc Hp. induction x as [|e x IH]; [done|]. cbn [drop_while].
  apply elem_of_cons in Hc as [->|Hc]; [rewrite Hp; by left|]. destruct (p e); [by apply IH|by right].
Qed.
Lemma elem_trim_end_by (p : char -> bool) x c : c ∈ x -> p c = false -> c ∈ trim_end_by p x.
Proof.
  intros Hc Hp. unfold trim_end_by. rewrite list_elem_of_In, <- in_rev, <- list_elem_of_In.
  apply elem_drop_while; [|done]. by rewrite list_elem_of_In, <- in_rev, <- list_elem_of_In.
Qed.
Lemma plain_rejects x c :
  str_is_ascii x = true -> c ∈ trim x -> Rules.special c = true ->
  Rules.is_valid_domain (Rules.normalize_domain x) = false.
Proof.
  intros Ha Hin Hc. apply invalid_special; [by apply normalize_ascii|]. apply (special_in (to_ascii_lower c)).
  - rewrite special_lower; [done|]. eapply str_is_ascii_elem; [|exact Hin]. by apply trim_ascii.
  - unfold Rules.normalize_domain. rewrite to_lowercase_ascii by (by apply trim_end_char_ascii, trim_ascii).
    apply list_elem_of_fmap_2, elem_trim_end_by; [done|]. by destruct (N.eqb_spec dot c) as [<-|].
Qed.
Lemma elem_trim x c : c ∈ x -> is_whitespace c = false -> c ∈ trim x.
Proof. intros Hc Hw. by apply elem_trim_end_by; [apply elem_drop_while|]. Qed.
Lemma query_name_lower : trim_end_char (to_lowercase q) dot = Rules.query_name q.
Proof.
  unfold Rules.query_name. rewrite (to_lowercase_ascii q) by done.
  by rewrite to_lowercase_ascii, lower_trim_end_char by (done || by apply trim_end_char_ascii).
Qed.

(** The line [||..]. *)
Lemma credited_bar rest :
  let r := lit "||" ++ rest in
  trim r = r -> str_is_ascii r = true -> credited (parse_rule_matcher r) -> snd (Rules.add_rule Rules.new r) = true ->
  Rules.match_domain (Rules.build (fst (Rules.add_rule Rules.new r))) q = Blocked.
Proof.
  intros r Hr Ha. unfold parse_rule_matcher, Rules.add_rule. rewrite Hr.
  assert (Hs : strip_prefix r "||" = Some rest) by apply strip_prefix_app. rewrite Hs.
  change (is_empty r || starts_with_char r hash || starts_with_char r bang || starts_with r "@@") with false.
  change (is_empty r || starts_with_char r hash || starts_with_char r bang) with false.
  change (starts_with_char r slash && ends_with_char r slash) with false. cbn iota zeta.
  destruct ((r =s? "||*^") || (r =s? "||*")) eqn:Hall; [intros _ _; apply blocks_all|].
  change (strip_prefix r "@@") with (@None str). cbn iota.
  unfold Rules.parse_adguard_domain, Rules.parse_adguard_wildcard_pattern. rewrite Hs. cbn zeta.
  change (split_first (split_first rest caret) dollar) with (Rules.strip_options rest).
  set (inner := trim_end_char (trim_end_char (trim_end_char (Rules.strip_options rest) bar) slash) dot).
  assert (Hi : str_is_ascii inner = true).
  { unfold inner, Rules.strip_options. apply strip_prefix_Some in Hs. unfold r in Ha. rewrite str_is_ascii_app in Ha.
    apply andb_true_iff in Ha as [_ Ha]. by repeat (apply trim_end_char_ascii || apply split_first_ascii). }
  change (strip_prefix r ".") with (@None str). change (strip_prefix r "*.") with (@None str).
  change r with (bar :: bar :: rest). rewrite hosts_none by (by left).
  rewrite (plain_rejects (bar :: bar :: rest) bar) by (done || by apply elem_trim; [left|]). cbn iota.
  destruct (is_empty (to_lowercase inner)) eqn:Hne; [done|]. apply is_empty_false in Hne.
  destruct (contains_char (to_lowercase inner) star) eqn:Hstar.
  - assert (Hbad : Rules.is_valid_domain (Rules.normalize_domain inner) = false).
    { apply contains_char_true in Hstar. rewrite to_lowercase_ascii in Hstar by done.
      apply list_elem_of_fmap in Hstar as (e & He & Hin). symmetry in He. apply to_ascii_lower_fixed in He as ->; [|done].
      by apply (plain_rejects inner star); [|apply elem_trim|]. }
    rewrite Hbad. destruct (Regex_new _) as [re|] eqn:Hre; [|done]. cbn [negb].
    destruct (contains_char (to_lowercase inner) dot); cbn [negb]; [|done].
    intros Hc _. cbn [fst]. apply (blocks_pattern q _ re); [exact Hre|].
    unfold credited in Hc. cbn [hits] in Hc. by rewrite query_name_lower in Hc.
  - cbn [negb]. intros Hc.
    destruct (credited_text inner (to_lowercase inner)) as (_ & Hn & _ & Hb); [done..|]. rewrite Hn.
    destruct (Rules.is_valid_domain (to_lowercase inner)); [intros _; exact Hb|done].
Qed.

Definition blocked_by (r : str) : Prop :=
  credited (parse_rule_matcher r) -> snd (Rules.add_rule Rules.new r) = true ->
  Rules.match_domain (Rules.build (fst (Rules.add_rule Rules.new r))) q = Blocked.

(** A line taken for a plain name. *)
Lemma credited_plain r d :
  str_is_ascii r = true -> d = to_lowercase r -> credited (if negb (is_empty d) then Domain d else Skip) ->
  lacks Rules.special r /\ Rules.normalize_domain r = d /\
  Rules.match_domain (Rules.build (Rules.insert_blocked Rules.new d)) q = Blocked.
Proof.
  intros Ha Hd Hc. destruct (is_empty d) eqn:He; [done|]. apply is_empty_false in He. cbn [negb] in Hc.
  destruct (credited_text r d) as (? & ? & _ & ?); done.
Qed.
Lemma strip_options_lacks x : lacks Rules.special (trim x) -> Rules.strip_options x = x.
Proof.
  intros Hl. unfold Rules.strip_options.
  assert (Hn : forall c, Rules.special c = true -> is_whitespace c = false -> c ∉ x).
  { intros c Hc Hw Hin. specialize (Hl c (elem_trim x c Hin Hw)). congruence. }
  rewrite (split_first_id x caret) by (by apply Hn). apply split_first_id. by apply Hn.
Qed.
(** A text whose trimmed form does not end in a dot. *)
Lemma trim_end_outside x : trim_end_char (trim x) dot = trim x -> trim_end_char x dot = x.
Proof.
  intros Ht. destruct (trim_end_char_tail x dot) as (k & Hk & Hdots). destruct k as [|e k _] using rev_ind; [by rewrite app_nil_r in Hk|].
  exfalso. assert (e = dot) as -> by (apply Hdots, elem_of_app; right; by left).
  rewrite app_assoc in Hk. set (y := trim_end_char x dot ++ k) in *. clearbody y. subst x.
  assert (Hd : exists m, drop_while is_whitespace (y ++ [dot]) = m ++ [dot]).
  { clear. induction y as [|a y [m Hm]]; [by exists []|]. cbn [app drop_while].
    destruct (is_whitespace a); [by exists m|]. by exists (a :: y). }
  destruct Hd as [m Hm]. unfold trim, trim_start_by in Ht. rewrite Hm in Ht.
  assert (Hw : trim_end_by is_whitespace (m ++ [dot]) = m ++ [dot]) by (apply trim_end_by_id; by rewrite rev_app_distr).
  rewrite Hw in Ht. by apply trim_end_by_last in Ht.
Qed.

Lemma trim_end_by_tail (p : char -> bool) x : exists k, x = trim_end_by p x ++ k /\ forall c, c ∈ k -> p c = true.
Proof.
  unfold trim_end_by. exists (rev (take_while p (rev x))). split.
  - rewrite <- rev_app_distr. rewrite <- (rev_involutive x) at 1. f_equal. symmetry. apply take_drop_while.
  - intros c Hc. apply list_elem_of_In, in_rev in Hc. revert Hc. generalize (rev x). intros l.
    induction l as [|e l IH]; [done|]. cbn [take_while]. destruct (p e) eqn:He; [|done]. intros [<-|Hc]; [done|auto].
Qed.
Lemma split_whitespace_trim x : lacks is_whitespace (trim x) -> trim x <> [] -> split_whitespace x = [trim x].
Proof.
  intros Hl Hne.
  assert (Hfront : forall y, split_whitespace (drop_while is_whitespace y) = split_whitespace y).
  { induction y as [|a y IH]; [done|]. cbn [drop_while]. destruct (is_whitespace a) eqn:Ha; [|done].
    rewrite IH. unfold split_whitespace. cbn [split_by]. by rewrite Ha. }
  rewrite <- Hfront. unfold trim, trim_start_by in *. set (y := drop_while is_whitespace x) in *. clearbody y.
  destruct (trim_end_by_tail is_whitespace y) as (k & Hk & Hws). rewrite Hk at 1.
  destruct k as [|a k]; [rewrite app_nil_r; by apply split_whitespace_word|].
  unfold split_whitespace. rewrite split_by_app; [|exact Hl|apply Hws; by left].
  assert (Hk2 : List.filter (fun w => negb (is_empty w)) (split_by is_whitespace k) = []).
  { assert (Hws' : forall c, c ∈ k -> is_whitespace c = true) by (intros c Hc; apply Hws; by right).
    revert Hws'. clear. induction k as [|b k IH]; intros Hws; [done|]. cbn [split_by].
    rewrite Hws by (by left). cbn [List.filter is_empty negb]. apply IH. intros c Hc. apply Hws. by right. }
  cbn [List.filter]. destruct (trim_end_by is_whitespace y); [done|]. cbn [is_empty negb]. by rewrite Hk2.
Qed.

(** The lines of the other syntaxes. *)
Section other_lines.
Context (c : char) (s : str).
#[local] Abbreviation r := (c :: s).
Context (Hr : trim r = r) (Ha : str_is_ascii r = true).
Context (Hc : c <> hash /\ c <> bang /\ c <> slash /\ c <> bar /\ c <> 64).

Lemma credited_star rest :
  r = lit "*." ++ rest -> credited (domain_or_skip (to_lowercase (trim rest))) ->
  Rules.match_domain (Rules.build (fst (Rules.add_rule Rules.new r))) q = Blocked.
Proof.
  intros Heq Hcr. destruct (credited_after _ Hcr) as [Hne Hcr'].
  assert (Hrest : str_is_ascii rest = true).
  { rewrite Heq, str_is_ascii_app in Ha. by apply andb_true_iff in Ha as [_ ?]. }
  destruct (credited_text (trim rest) _ (trim_ascii _ Hrest) eq_refl Hne Hcr') as (_ & Hn & _ & Hb).
  rewrite Rules.add_rule_plain_line by (done || naive_solver).
  rewrite Heq. change (strip_prefix (lit "*." ++ rest) ".") with (@None str).
  change (lit "*." ++ rest) with (star :: dot :: rest). rewrite hosts_none by (by right).
  change (star :: dot :: rest) with (lit "*." ++ rest). rewrite strip_prefix_app. cbn zeta.
  assert (Rules.normalize_domain rest = to_lowercase (trim rest)) as ->.
  { rewrite <- Hn. unfold Rules.normalize_domain. by rewrite trim_idem. }
  destruct (to_lowercase (trim rest)); [done|]. exact Hb.
Qed.

Lemma credited_dot rest :
  r = lit "." ++ rest -> credited (domain_or_skip (to_lowercase (trim rest))) ->
  snd (Rules.add_rule Rules.new r) = true ->
  Rules.match_domain (Rules.build (fst (Rules.add_rule Rules.new r))) q = Blocked.
Proof.
  intros Heq Hcr. destruct (credited_after _ Hcr) as [Hne Hcr'].
  assert (Hrest : str_is_ascii rest = true).
  { rewrite Heq, str_is_ascii_app in Ha. by apply andb_true_iff in Ha as [_ ?]. }
  destruct (credited_text (trim rest) _ (trim_ascii _ Hrest) eq_refl Hne Hcr') as (Hl & Hn & Ht & Hb).
  rewrite Rules.add_rule_plain_line by (done || naive_solver).
  rewrite Heq, strip_prefix_app. cbn zeta. rewrite strip_options_lacks by done.
  rewrite trim_end_outside by done.
  assert (Rules.normalize_domain rest = to_lowercase (trim rest)) as ->.
  { rewrite <- Hn. unfold Rules.normalize_domain. by rewrite trim_idem. }
  destruct (Rules.is_valid_domain (to_lowercase (trim rest))); [intros _; exact Hb|done].
Qed.

Lemma credited_hosts ip rest :
  r = ip ++ 32 :: rest -> lacks is_whitespace ip -> is_Some (parse_ip ip) -> c <> star -> c <> dot ->
  credited (domain_or_skip (to_lowercase (trim rest))) ->
  snd (Rules.add_rule Rules.new r) = true ->
  Rules.match_domain (Rules.build (fst (Rules.add_rule Rules.new r))) q = Blocked.
Proof.
  intros Heq Hip [addr Haddr] Hstar Hdot Hcr. destruct (credited_after _ Hcr) as [Hne Hcr'].
  assert (Hrest : str_is_ascii rest = true).
  { rewrite Heq, str_is_ascii_app in Ha. apply andb_true_iff in Ha as [_ Ha']. cbn in Ha'. done. }
  destruct (credited_text (trim rest) _ (trim_ascii _ Hrest) eq_refl Hne Hcr') as (Hl & Hn & _ & Hb).
  rewrite Rules.add_rule_plain_line by (done || naive_solver).
  rewrite !(strip_prefix_lit_ne c s) by done.
  assert (Hbad : Rules.is_valid_domain (Rules.normalize_domain r) = false).
  { apply (plain_rejects r 32); [done| |done]. rewrite Hr, Heq. apply elem_of_app. right. by left. }
  cbn zeta. rewrite Hbad. unfold Rules.parse_hosts_line.
  assert (Hsp : split_whitespace r = [ip; trim rest]).
  { rewrite Heq. unfold split_whitespace. rewrite split_by_app by done.
    destruct ip as [|i0 ip]; [by vm_compute in Haddr|]. cbn [List.filter is_empty negb]. f_equal.
    apply split_whitespace_trim; [by apply Rules.special_whitespace|]. by intros Hz; rewrite Hz in Hne. }
  rewrite Hsp, Haddr. destruct (_ || _); [done|]. cbn zeta. rewrite Hn.
  destruct (Rules.is_valid_domain (to_lowercase (trim rest))); [intros _; exact Hb|done].
Qed.

Lemma credited_other : blocked_by r.
Proof.
  unfold blocked_by, parse_rule_matcher. rewrite Hr. destruct Hc as (Hc1 & Hc2 & Hc3 & Hc4 & Hc5).
  cbn [is_empty starts_with_char orb]. rewrite !(proj2 (N.eqb_neq c _)) by done. cbn [orb].
  assert (starts_with r "@@" = false) as -> by (unfold starts_with; by rewrite strip_prefix_lit_ne).
  rewrite (strip_prefix_lit_ne c s _ "|") by done.
  destruct (strip_prefix r "*.") as [rest|] eqn:Hs.
  { apply strip_prefix_Some in Hs. intros Hcr _. by apply (credited_star rest). }
  destruct (strip_prefix r ".") as [rest|] eqn:Hd.
  { apply strip_prefix_Some in Hd. intros Hcr. by apply (credited_dot rest). }
  destruct (starts_with r "0.0.0.0 " || starts_with r "127.0.0.1 " || starts_with r "::1 " || starts_with r "::0 ") eqn:Hh.
  { assert (Hip : exists ip rest, r = ip ++ 32 :: rest /\ (32 ∉ ip) /\ lacks is_whitespace ip /\ is_Some (parse_ip ip) /\ c <> star /\ c <> dot).
    { rewrite !orb_true_iff in Hh. destruct Hh as [[[Hh|Hh]|Hh]|Hh]; apply starts_with_true in Hh as [rest Hh];
        [exists (lit "0.0.0.0"), rest|exists (lit "127.0.0.1"), rest|exists (lit "::1"), rest|exists (lit "::0"), rest];
        ((split; [exact Hh|]); (split; [by apply contains_char_false|]); (split; [by apply lacks_forallb|]);
        (split; [vm_compute; eauto|]); (injection Hh as -> _); done). }
    destruct Hip as (ip & rest & Heq & Hn32 & Hws & Hp & Hst & Hdt). rewrite Heq at 1. rewrite split_once_app by done.
    by apply credited_hosts with (ip := ip). }
  destruct (contains_char r star) eqn:Hstar; [done|].
  destruct (negb (contains_char r slash) && negb (contains_char r 32)); [|done]. cbn zeta. intros Hcr.
  destruct (credited_plain r _ Ha eq_refl Hcr) as (Hl & Hn & Hb).
  rewrite Rules.add_rule_plain_line by done. rewrite Hs, Hd. cbn zeta. rewrite Hn.
  unfold Rules.parse_hosts_line. rewrite split_whitespace_word by (done || by apply Rules.special_whitespace).
  assert (match parse_ip r with Some _ => None | None => @None str end = None) as -> by by destruct (parse_ip r).
  destruct (Rules.is_valid_domain _); [intros _; exact Hb|done].
Qed.
End other_lines.

(** A name with a special character in it is credited with nothing. *)
Lemma special_not_credited r d c :
  str_is_ascii r = true -> c ∈ r -> Rules.special c = true -> d = to_lowercase r ->
  credited (if negb (is_empty d) then Domain d else Skip) -> False.
Proof. intros Ha Hin Hc Hd Hcr. destruct (credited_plain r d Ha Hd Hcr) as (Hl & _ & _). specialize (Hl c Hin). congruence. Qed.

Lemma parse_special c s :
  trim (c :: s) = c :: s -> c = slash \/ c = 64 \/ c = bar ->
  starts_with (c :: s) "@@" = false -> strip_prefix (c :: s) "||" = None ->
  parse_rule_matcher (c :: s) =
    if contains_char (c :: s) star then Skip
    else if negb (contains_char (c :: s) slash) && negb (contains_char (c :: s) 32) then
      let d := to_lowercase (c :: s) in if negb (is_empty d) then Domain d else Skip
    else Skip.
Proof.
  intros Hr Hc Hat Hbar. unfold parse_rule_matcher. rewrite Hr, Hat, Hbar.
  destruct Hc as [-> |[-> | ->]]; reflexivity.
Qed.
Lemma credited_special c s :
  trim (c :: s) = c :: s -> str_is_ascii (c :: s) = true -> c = slash \/ c = 64 \/ c = bar ->
  starts_with (c :: s) "@@" = false -> strip_prefix (c :: s) "||" = None ->
  credited (parse_rule_matcher (c :: s)) -> False.
Proof.
  intros Hr Ha Hc Hat Hbar. rewrite parse_special by done.
  destruct (contains_char _ star); [done|]. destruct (_ && _); [|done].
  apply (special_not_credited (c :: s) _ c); [done|by left| |done]. by destruct Hc as [-> |[-> | ->]].
Qed.

Lemma credited_line r : trim r = r -> str_is_ascii r = true -> blocked_by r.
Proof.
  intros Hr Ha. destruct r as [|c s]; [done|].
  destruct (decide (c = hash \/ c = bang)) as [[-> | ->]|Hn1];
    [intros Hcr; unfold credited, parse_rule_matcher in Hcr; by rewrite Hr in Hcr..|].
  destruct (decide (c = slash \/ c = 64 \/ c = bar)) as [Hc|Hn2]; [|apply credited_other; [done..|]; naive_solver].
  destruct (strip_prefix (c :: s) "||") as [rest|] eqn:Hs.
  { apply strip_prefix_Some in Hs. rewrite Hs in *. intros Hcr Hok. by apply credited_bar. }
  intros Hcr. exfalso. destruct (starts_with (c :: s) "@@") eqn:Hat; [|by apply (credited_special c s)].
  unfold credited, parse_rule_matcher in Hcr. rewrite Hr, Hat, !orb_true_r in Hcr. done.
Qed.

Lemma credited_rule rule : str_is_ascii rule = true -> blocked_by rule.
Proof.
  intros Ha. assert (Hb : blocked_by (trim rule)) by (apply credited_line; [apply trim_idem|by apply trim_ascii]).
  unfold blocked_by, parse_rule_matcher, Rules.add_rule in *. rewrite trim_idem in Hb. exact Hb.
Qed.
End credited.

Lemma lower_not_empty d : str_is_ascii d = true -> d <> [] -> is_empty (to_lowercase d) = false.
Proof. intros Ha Hd. rewrite to_lowercase_ascii by done. by destruct d. Qed.
(** The matcher of the usual lines. *)
Lemma parse_usual d line :
  str_is_ascii d = true -> Rules.is_valid_domain d = true ->
  line ∈ [lit "||" ++ d; lit "||" ++ d ++ lit "^"; d; lit "*." ++ d; lit "0.0.0.0 " ++ d] ->
  parse_rule_matcher line = Domain (to_lowercase d).
Proof.
  intros Ha Hv. pose proof (Rules.valid_domain_plain d Ha Hv) as Hl.
  pose proof (Rules.valid_domain_not_empty d Hv) as Hne. pose proof (Rules.special_whitespace d Hl) as Hw.
  pose proof (lower_not_empty d Ha Hne) as Hle. pose proof (Rules.strip_options_id d Hl) as Hso.
  assert (Hns : contains_char (to_lowercase d) star = false).
  { rewrite to_lowercase_ascii, contains_char_lower by done. apply contains_char_false. by apply (Rules.special_not_elem d star). }
  assert (Hin : domain_or_skip (to_lowercase d) = Domain (to_lowercase d)) by (unfold domain_or_skip; by rewrite Hle, Hns).
  rewrite !elem_of_cons, elem_of_nil. intros [->|[->|[->|[->|[->|[]]]]]]; unfold parse_rule_matcher.
  - assert (Ht : trim (lit "||" ++ d) = lit "||" ++ d) by (by apply (trim_front bar [bar] d)).
    rewrite Ht, strip_prefix_app. change (split_first (split_first d caret) dollar) with (Rules.strip_options d).
    rewrite Hso, Rules.trim_tail_valid by done. cbn [is_empty starts_with_char starts_with strip_prefix orb app lit]. by rewrite Hle, Hns.
  - assert (Ht : trim (lit "||" ++ d ++ lit "^") = lit "||" ++ d ++ lit "^").
    { change (lit "||" ++ d ++ lit "^") with (bar :: (bar :: d) ++ [caret]). by apply trim_ends. }
    rewrite Ht, strip_prefix_app.
    change (split_first (split_first (d ++ lit "^") caret) dollar) with (Rules.strip_options (d ++ [caret])).
    rewrite (Rules.strip_options_plain d [caret]) by (done || (right; exists []; by left)).
    rewrite Rules.trim_tail_valid by done. cbn [is_empty starts_with_char starts_with strip_prefix orb app lit]. by rewrite Hle, Hns.
  - rewrite trim_lacks by done. destruct (Rules.head_d d Ha Hv) as (c & r & -> & Hc & Hdot).
    assert (Hn : forall e, Rules.special e = true -> c <> e) by (intros e He ->; congruence).
    cbn [is_empty starts_with_char orb]. rewrite !(proj2 (N.eqb_neq c _)) by (by apply Hn). cbn [orb].
    assert (starts_with (c :: r) "@@" = false) as -> by (unfold starts_with; rewrite strip_prefix_lit_ne; [done|by apply Hn]).
    rewrite !(strip_prefix_lit_ne c r) by (by apply Hn).
    rewrite (strip_prefix_lit_ne c r) by done.
    assert (Hno : forall p, starts_with (c :: r) (p ++ [32]) = false).
    { intros p. apply not_true_iff_false. intros [k Hk]%starts_with_true.
      assert (Hin32 : 32 ∈ c :: r) by (rewrite Hk; rewrite !elem_of_app; left; right; by left).
      by specialize (Hl 32 Hin32). }
    rewrite (Hno (lit "0.0.0.0") : starts_with (c :: r) "0.0.0.0 " = false),
      (Hno (lit "127.0.0.1") : starts_with (c :: r) "127.0.0.1 " = false),
      (Hno (lit "::1") : starts_with (c :: r) "::1 " = false), (Hno (lit "::0") : starts_with (c :: r) "::0 " = false).
    cbn [orb].
    rewrite !(proj2 (contains_char_false (c :: r) _)) by (by apply (Rules.special_not_elem (c :: r))).
    cbn [negb andb]. by rewrite Hle.
  - assert (Ht : trim (lit "*." ++ d) = lit "*." ++ d) by (by apply (trim_front star [dot] d)).
    rewrite Ht. change (strip_prefix (lit "*." ++ d) "||") with (@None str). rewrite strip_prefix_app.
    rewrite trim_lacks by done. exact Hin.
  - assert (Ht : trim (lit "0.0.0.0 " ++ d) = lit "0.0.0.0 " ++ d) by (by apply (trim_front 48 (lit ".0.0.0 ") d)).
    rewrite Ht. change (strip_prefix (lit "0.0.0.0 " ++ d) "||") with (@None str).
    change (strip_prefix (lit "0.0.0.0 " ++ d) "*.") with (@None str).
    change (strip_prefix (lit "0.0.0.0 " ++ d) ".") with (@None str).
    assert (starts_with (lit "0.0.0.0 " ++ d) "0.0.0.0 " = true) as -> by (apply starts_with_true; by exists d).
    change (split_once (lit "0.0.0.0 " ++ d) 32) with (Some (lit "0.0.0.0", d)).
    cbn [orb]. cbn iota beta. rewrite (trim_lacks d) by done. exact Hin.
Qed.

End matchers.

(** ** The handlers *)

Section stats.
Context `{RustUnicode, RegexEngine, !RegexSingle, SerdeJson, Collation, IpNetCrate, Moka, Rng,
  Hickory, !HickoryResolver, !DnsCodec, Jwt, SqlTime, GroupOrder}.
Import Api.

Definition hours_of (p : StatsParams) : Z := Z.min (Z.max (default 24%Z (sp_hours p)) 1) 720.
(** [status = 'blocked' AND time >= NOW() - ($1 * INTERVAL '1 hour')] *)
Definition blocked_since (now : N) (hours : Z) (r : QueryLogRow) : bool :=
  (q_status r =s? "blocked") && ((Z.of_N now - hours * 3600) * 1000000000 <=? Z.of_N (q_time r))%Z.
Definition blocked_rows (now : N) (hours : Z) (t : Db) : list QueryLogRow :=
  List.filter (blocked_since now hours) (query_log t).
(** The questions, how often each was asked, and the text of the last time. *)
Definition question_group (rows : list QueryLogRow) (question : str) : str * (nat * str) :=
  let asked := List.filter (fun r : QueryLogRow => q_question r =s? question) rows in
  (question, (length asked, timestamptz_text (fold_right N.max 0 (map (fun r : QueryLogRow => q_time r) asked)))).
Definition question_groups (rows : list QueryLogRow) : list (str * (nat * str)) :=
  arrange (map (question_group rows) (remove_dups (map (fun r : QueryLogRow => q_question r) rows))).

(** [question_counts.insert(question.to_lowercase(), ..)]: a later group
    replaces one that differs in case only. *)
Definition question_counts (groups : list (str * (nat * str))) : gmap str (nat * str) :=
  fold_left (fun m g => <[to_lowercase g.1 := g.2]> m) groups ∅.

(** The later of two times, by their texts. *)
Definition later (last_seen : option str) (q_last_seen : str) : option str :=
  match last_seen with
  | None => Some q_last_seen
  | Some cur => if str_leb q_last_seen cur then Some cur else Some q_last_seen
  end.
Definition add_hits (m : RuleMatcher) (acc : nat * option str) (entry : str * (nat * str)) : nat * option str :=
  if hits m entry.1 then ((acc.1 + entry.2.1)%nat, later acc.2 entry.2.2) else acc.
Record RuleHits := {
  rh_id : str; rh_rule : str; rh_comment : option str; rh_is_enabled : bool; rh_created_at : str;
  rh_hit_count : nat; rh_last_seen : option str }.
Definition rule_hits (counts : gmap str (nat * str)) (r : CustomRule) : RuleHits :=
  let '(hit_count, last_seen) := fold_left (add_hits (parse_rule_matcher (cr_rule r))) (map_to_list counts) (0%nat, None) in
  {| rh_id := cr_id r; rh_rule := cr_rule r; rh_comment := cr_comment r; rh_is_enabled := cr_is_enabled r;
     rh_created_at := cr_created_at r; rh_hit_count := hit_count; rh_last_seen := last_seen |}.
Definition fewer_hits (h : RuleHits) : Z := (- Z.of_nat (rh_hit_count h))%Z.
Definition stats_limit (p : StatsParams) : nat := Z.to_nat (Z.min (Z.max (default 100%Z (sp_limit p)) 1) 1000).
Record StatsResponse := { st_data : list RuleHits; st_hours : Z; st_total_rules : nat }.

Definition rule_hit_stats (d : Draws) (p : Parts) (params : StatsParams) : M App AppError StatsResponse :=
  AuthUser d p ;;;
  let hours := hours_of params in
  let! groups := db (fetch_all (fun t => question_groups (blocked_rows (d_utc d) hours t))) in
  let! rule_rows := db (fetch_all (fun t => Listing.order_desc cr_created_at (RulesApi.user_rules t))) in
  let result := sort_by_key fewer_hits (map (rule_hits (question_counts groups)) rule_rows) in
  ret {| st_data := take (stats_limit params) result; st_hours := hours; st_total_rules := length rule_rows |}.

Definition detail_limit (p : StatsParams) : nat := Z.to_nat (Z.min (Z.max (default 20%Z (sp_limit p)) 1) 200).
Record DetailResponse := { dt_rule_id : str; dt_rule : str; dt_hits : list (str * (nat * str)); dt_hours : Z }.
Definition rule_hit_detail (d : Draws) (p : Parts) (rule_id : str) (params : StatsParams) : M App AppError DetailResponse :=
  AuthUser d p ;;;
  let hours := hours_of params in
  let! rule_row := db (fetch_optional (fun t => row_named cr_id rule_id (RulesApi.user_rules t))) in
  match rule_row with
  | None => fail (NotFound rule_id)
  | Some r =>
      let matcher := parse_rule_matcher (cr_rule r) in
      let! groups := db (fetch_all (fun t => question_groups (blocked_rows (d_utc d) hours t))) in
      let found := List.filter (fun g => hits matcher g.1) groups in
      ret {| dt_rule_id := cr_id r; dt_rule := cr_rule r;
             dt_hits := take (detail_limit params) (sort_by_key (fun g => - Z.of_nat g.2.1)%Z found); dt_hours := hours |}
  end.

(** ** What is counted *)

(** The blocked queries of the window a rule is credited with. *)
Definition credited_rows (rows : list QueryLogRow) (rule : str) : list QueryLogRow :=
  List.filter (fun r : QueryLogRow => hits (parse_rule_matcher rule) (to_lowercase (q_question r))) rows.
Definition weight (m : RuleMatcher) (e : str * (nat * str)) : nat := if hits m e.1 then e.2.1 else 0%nat.

Lemma fold_hits m l acc : (fold_left (add_hits m) l acc).1 = (acc.1 + sum_list_with (weight m) l)%nat.
Proof.
  revert acc. induction l as [|e l IH]; intros acc; cbn [fold_left sum_list_with]; [lia|].
  rewrite IH. unfold add_hits, weight. destruct (hits m e.1); cbn [fst]; lia.
Qed.
Lemma sum_perm {A} (f : A -> nat) l1 l2 : Permutation l1 l2 -> sum_list_with f l1 = sum_list_with f l2.
Proof. induction 1; cbn [sum_list_with]; lia. Qed.
Lemma sum_map {A B} (f : B -> nat) (g : A -> B) l : sum_list_with f (map g l) = sum_list_with (fun x => f (g x)) l.
Proof. induction l as [|x l IH]; cbn [map sum_list_with]; congruence. Qed.

(** Rows counted by the value of a column. *)
Lemma sum_by_column {R} (key : R -> str) (p : str -> bool) (rows : list R) :
  sum_list_with (fun x => if p x then length (List.filter (fun r => key r =s? x) rows) else 0%nat)
    (remove_dups (map key rows)) = length (List.filter (fun r => p (key r)) rows).
Proof.
  assert (Hgen : forall keys, NoDup keys -> (forall r, r ∈ rows -> key r ∈ keys) ->
    sum_list_with (fun x => if p x then length (List.filter (fun r => key r =s? x) rows) else 0%nat) keys =
    length (List.filter (fun r => p (key r)) rows)).
  { intros keys Hn Hall. induction rows as [|r rows IH].
    - clear. induction keys as [|k keys IH]; [done|]. cbn [sum_list_with List.filter length] in *. destruct (p k); exact IH.
    - assert (Hr : key r ∈ keys) by (apply Hall; by left).
      specialize (IH ltac:(intros r' Hr'; apply Hall; by right)).
      assert (Hsplit : sum_list_with (fun x => if p x then length (List.filter (fun r0 => key r0 =s? x) (r :: rows)) else 0%nat) keys =
        (sum_list_with (fun x => if p x then length (List.filter (fun r0 => key r0 =s? x) rows) else 0%nat) keys +
         (if p (key r) then 1 else 0))%nat).
      { clear IH Hall. induction keys as [|k keys IHk]; [by apply not_elem_of_nil in Hr|].
        apply NoDup_cons in Hn as [Hk Hn]. cbn [sum_list_with List.filter].
        destruct (str_eqb (key r) k) eqn:Hkr.
        - apply str_eqb_eq in Hkr. subst k. cbn [length].
          assert (Hrest : forall keys, key r ∉ keys ->
            sum_list_with (fun x => if p x then length (if str_eqb (key r) x then r :: List.filter (fun r0 => key r0 =s? x) rows
              else List.filter (fun r0 => key r0 =s? x) rows) else 0%nat) keys =
            sum_list_with (fun x => if p x then length (List.filter (fun r0 => key r0 =s? x) rows) else 0%nat) keys).
          { clear. induction keys as [|k keys IH]; [done|]. intros [Hne Hk]%not_elem_of_cons. cbn [sum_list_with].
            rewrite IH by done. by rewrite (proj2 (str_eqb_neq _ _) Hne). }
          rewrite Hrest by done. destruct (p (key r)); lia.
        - apply str_eqb_neq in Hkr. apply elem_of_cons in Hr as [?|Hr]; [done|].
          cbn [List.filter] in IHk. rewrite IHk by done. lia. }
      rewrite Hsplit, IH. cbn [List.filter]. destruct (p (key r)); cbn [length]; lia. }
  apply Hgen; [apply NoDup_remove_dups|]. intros r Hr. apply elem_of_remove_dups. by apply list_elem_of_fmap_2.
Qed.

Lemma fold_insert_perm (l : list (str * (nat * str))) (m : gmap str (nat * str)) :
  NoDup (map (fun g => to_lowercase g.1) l) -> (forall g, g ∈ l -> m !! to_lowercase g.1 = None) ->
  Permutation (map_to_list (fold_left (fun m g => <[to_lowercase g.1 := g.2]> m) l m))
    (map (fun g => (to_lowercase g.1, g.2)) l ++ map_to_list m).
Proof.
  revert m. induction l as [|g l IH]; intros m Hn Hm; [done|]. cbn [fold_left map app] in *.
  apply NoDup_cons in Hn as [Hg Hn]. rewrite IH; [|done|].
  - rewrite map_to_list_insert by (apply Hm; by left). by rewrite Permutation_middle.
  - intros h Hh. rewrite lookup_insert_ne; [apply Hm; by right|]. intros Heq. apply Hg. rewrite Heq.
    by apply (list_elem_of_fmap_2 (fun g => to_lowercase g.1)).
Qed.
Lemma sorted_weaken {A} (R S : relation A) l : (forall x y, R x y -> S x y) -> StronglySorted R l -> StronglySorted S l.
Proof. intros Hw. induction 1 as [|x l Hl IH Hx]; constructor; [done|]. eapply Forall_impl; [exact Hx|]. intros y. apply Hw. Qed.
(** No two questions differ in case only. *)
Definition one_case (rows : list QueryLogRow) : Prop :=
  forall r1 r2 : QueryLogRow, r1 ∈ rows -> r2 ∈ rows ->
    to_lowercase (q_question r1) = to_lowercase (q_question r2) -> q_question r1 = q_question r2.

Lemma hit_count_correct `{!GroupOrderDoc} rows r :
  one_case rows ->
  rh_hit_count (rule_hits (question_counts (question_groups rows)) r) = length (credited_rows rows (cr_rule r)).
Proof.
  intros Hcase. set (m := parse_rule_matcher (cr_rule r)).
  assert (Hf : rh_hit_count (rule_hits (question_counts (question_groups rows)) r) =
    (fold_left (add_hits m) (map_to_list (question_counts (question_groups rows))) (0%nat, None)).1).
  { unfold rule_hits. fold m. by destruct (fold_left _ _ _). }
  rewrite Hf, fold_hits. cbn [fst Nat.add]. set (keys := remove_dups (map (fun r : QueryLogRow => q_question r) rows)).
  assert (Hp : Permutation (question_groups rows) (map (question_group rows) keys)) by apply arrange_perm.
  assert (Hn : NoDup (map (fun g : str * (nat * str) => to_lowercase g.1) (question_groups rows))).
  { rewrite Hp, map_map. cbn [question_group fst]. apply (NoDup_fmap_2_strong to_lowercase); [|apply NoDup_remove_dups].
    intros x y Hx Hy. unfold keys in Hx, Hy. apply elem_of_remove_dups, list_elem_of_fmap in Hx as (r1 & -> & Hr1).
    apply elem_of_remove_dups, list_elem_of_fmap in Hy as (r2 & -> & Hr2). by apply Hcase. }
  unfold question_counts.
  rewrite (sum_perm (weight m) _ _ (fold_insert_perm _ ∅ Hn ltac:(intros; apply lookup_empty))).
  rewrite map_to_list_empty, app_nil_r.
  rewrite (sum_perm (weight m) _ _ (Permutation_map (fun g : str * (nat * str) => (to_lowercase g.1, g.2)) Hp)).
  rewrite !sum_map. unfold credited_rows.
  rewrite <- (sum_by_column (fun r : QueryLogRow => q_question r) (fun x => hits m (to_lowercase x)) rows). done.
Qed.

(** The statistics list the custom rules with the most hits first.  Where
    no two questions of the window differ in case only, the count of each
    rule is the number of blocked queries of the window its matcher finds;
    the rules left out by the limit have no more hits than those listed, and
    the rules of filter lists are never listed. *)
Theorem stats_correct `{!GroupOrderDoc} d p params auth s :
  db_works s -> fst (AuthUser d p s) = Ok auth ->
  let t := tables (db_of s) in
  let rows := blocked_rows (d_utc d) (hours_of params) t in
  one_case rows ->
  exists response rest,
    does (rule_hit_stats d p params) s (Ok response) s /\
    st_total_rules response = length (RulesApi.user_rules t) /\
    (length (st_data response) <= 1000)%nat /\
    StronglySorted (fun x y => rh_hit_count y <= rh_hit_count x)%nat (st_data response ++ rest) /\
    Permutation (map (fun h => (rh_id h, rh_rule h, rh_hit_count h)) (st_data response ++ rest))
      (map (fun r => (cr_id r, cr_rule r, length (credited_rows rows (cr_rule r)))) (RulesApi.user_rules t)).
Proof.
  intros Hs Hauth t rows Hcase. pose proof (does_AuthUser d p s) as Ha. rewrite Hauth in Ha.
  set (rules := Listing.order_desc cr_created_at (RulesApi.user_rules t)).
  set (result := sort_by_key fewer_hits (map (rule_hits (question_counts (question_groups rows))) rules)).
  exists {| st_data := take (stats_limit params) result; st_hours := hours_of params; st_total_rules := length rules |},
    (drop (stats_limit params) result). split; [|split; [|split; [|split]]]; cbn [st_data st_total_rules].
  - unfold rule_hit_stats. exec Hs.
  - unfold rules. by rewrite (Permutation_length (Listing.order_desc_perm cr_created_at (RulesApi.user_rules t))).
  - rewrite length_take. unfold stats_limit. lia.
  - rewrite take_drop. pose proof (sort_by_key_sorted fewer_hits (map (rule_hits (question_counts (question_groups rows))) rules)) as Hsort.
    refine (sorted_weaken _ _ _ _ Hsort). unfold key_le, fewer_hits. intros x y ?. lia.
  - rewrite take_drop. unfold result. rewrite (sort_by_key_perm fewer_hits), map_map.
    unfold rules. rewrite (Listing.order_desc_perm cr_created_at (RulesApi.user_rules t)).
    erewrite map_ext; [reflexivity|]. intros r. rewrite (hit_count_correct rows r Hcase).
    unfold rule_hits. by destruct (fold_left _ _ _).
Qed.
End stats.
End RuleStats.

Module RefRegexSingle.
Import RefRegex.
#[export] Instance single : RegexSingle :=
  {| Regex := list ratom; Regex_new := parse; Regex_is_match r s := rmatch r s |}.
#[export] Instance single_doc : RegexSingleDoc.
Proof.
  constructor. intros p r Hp. cbn [Regex_new single] in Hp. exists [r]. cbn [RegexSet_new engine mapM].
  rewrite Hp. split; [done|]. split; [done|]. intros s. cbn. apply orb_false_r.
Qed.
#[export] Instance groups : GroupOrder := {| arrange A l := l |}.
#[export] Instance groups_doc : GroupOrderDoc.
Proof. by constructor. Qed.
End RefRegexSingle.

Module RuleStatsWitness.
Import AsciiUnicode RefRegex RefJson RefIpNet RefMoka RefRng RefHickory RefResolver RefCrypto RefValue RefRegexSingle Api AppWitness RuleStats.

Definition asked (question : string) (time : N) : QueryLogRow :=
  {| ql_id := 1; ql_client_name := None; ql_entry :=
  {| q_time := time * 1000000000; q_client_ip := lit "10.0.0.2"; q_question := lit question; q_qtype := lit "A";
     q_status := lit "blocked"; q_reason := None; q_answer := None; q_elapsed_ns := 0; q_upstream_ns := None;
     q_upstream_name := None; q_app_id := None |} |}.
Definition rule (id text : string) : CustomRule :=
  {| cr_id := lit id; cr_rule := lit text; cr_comment := None; cr_is_enabled := true; cr_created_by := lit "ann";
     cr_created_at := lit id; cr_expires_at := None |}.
Definition tables1 (log : list QueryLogRow) : Db :=
  set_query_log (set_custom_rules empty_db
    [rule "1" "||ads.com^"; rule "2" "||ad-*.x.com^"; rule "3" "@@||ok.com^"]) log.
Definition log1 : list QueryLogRow :=
  [asked "ads.com." 1990; asked "ad-1.x.com." 1991; asked "x.ads.com." 1992; asked "ads.com." 1993].
Definition params1 : StatsParams := {| sp_hours := Some 1%Z; sp_limit := None |}.
Definition counts (log : list QueryLogRow) : list (str * nat * option str) :=
  match fst (rule_hit_stats today admin params1 (app (tables1 log))) with
  | Ok r => map (fun h => (rh_id h, rh_hit_count h, rh_last_seen h)) (st_data r)
  | Err _ => []
  end.
Example stats_test :
  counts log1 = [(lit "1", 3%nat, Some (lit "1993000000000")); (lit "2", 1%nat, Some (lit "1991000000000")); (lit "3", 0%nat, None)].
Proof. vm_compute. reflexivity. Qed.
(** Of questions that differ in case only, those of one spelling count. *)
Example case_variants_test :
  map (fun x => x.1.2) (counts [asked "ads.com." 1990; asked "ads.com." 1991; asked "ADS.com." 1992]) = [1%nat; 0%nat; 0%nat].
Proof. vm_compute. reflexivity. Qed.
(** A wildcard rule blocks the names below the ones its pattern matches, and
    is credited with none of them. *)
Example wildcard_parent_test :
  Rules.match_domain (alone (lit "||ad-*.x.com^")) "www.ad-1.x.com" = Blocked /\
  hits (parse_rule_matcher (lit "||ad-*.x.com^")) "www.ad-1.x.com" = false.
Proof. vm_compute. done. Qed.
(** Lines the rule set takes and the statistics do not read. *)
Example unread_lines_test :
  map (fun r => Rules.match_domain (alone r) "a.b.org") [lit "|b.org^"; lit "10.0.0.1 a.b.org"; lit ".b.org^"] = [Blocked; Blocked; Blocked] /\
  map (fun r => hits (parse_rule_matcher r) "a.b.org") [lit "|b.org^"; lit "10.0.0.1 a.b.org"; lit ".b.org^"] = [false; false; false].
Proof. vm_compute. done. Qed.

Lemma stats_correct_witness :
  exists response rest, does (rule_hit_stats today admin params1) (app (tables1 log1)) (Ok response) (app (tables1 log1)) /\
    Permutation (map (fun h => (rh_id h, rh_rule h, rh_hit_count h)) (st_data response ++ rest))
      [(lit "1", lit "||ads.com^", 3%nat); (lit "2", lit "||ad-*.x.com^", 1%nat); (lit "3", lit "@@||ok.com^", 0%nat)].
Proof.
  destruct (stats_correct today admin params1 AuthWitness.ann (app (tables1 log1))) as (response & rest & Hd & _ & _ & _ & Hp).
  - apply app_works.
  - apply admin_ok.
  - change (one_case log1). unfold one_case, log1. intros r1 r2 Hr1 Hr2.
    rewrite !elem_of_cons, elem_of_nil in Hr1, Hr2.
    destruct Hr1 as [->|[->|[->|[->|[]]]]], Hr2 as [->|[->|[->|[->|[]]]]]; vm_compute; congruence.
  - exists response, rest. split; [exact Hd|]. vm_compute in Hp. exact Hp.
Defined.
End RuleStatsWitness.
