(* ===== verification/Conditions.v ===== *)
(** * The conditions of the queries on the log

    The handlers on the query log write the [WHERE] of a statement from
    pieces: a column, an operator and a question mark for every value, and
    bind the values in order.  A condition is such a piece, [cond_text] its
    text.  [select_where] is what the server makes of the conditions and the
    values bound: it refuses a value whose type the column cannot be compared
    with, a parameter without a value and an empty [IN ()], whatever rows
    there are, and else selects rows. *)
From S2P Require Import Prelude RustStr Db Listing.
Local Open Scope N_scope.

(** [str::parse::<i64>] *)
Definition in_i64 (z : Z) : bool := ((- 2 ^ 63 <=? z) && (z <? 2 ^ 63))%Z.
Definition parse_i64 (s : str) : option Z :=
  let '(neg, digits) := match s with 43 :: r => (false, r) | 45 :: r => (true, r) | _ => (false, s) end in
  if is_empty digits then None
  else parse_digits 0 digits ≫= fun n =>
    let z := (if neg then - Z.of_N n else Z.of_N n)%Z in if in_i64 z then Some z else None.

(** [Value::as_i64]: a number written with a point or an exponent, and [-0],
    is a float. *)
Definition as_i64 (v : Value) : option Z :=
  match v with VNumber t => if t =s? "-0" then None else parse_i64 t | _ => None end.
(** [json!(n)] of an [i64] *)
Definition json_i64 (z : Z) : Value := VNumber (show_Z z).

Lemma parse_shown n : parse_digits 0 (show_N n) = Some n.
Proof. apply parse_show_fuel, show_N_bound. Qed.
Lemma parse_i64_show z : in_i64 z = true -> parse_i64 (show_Z z) = Some z.
Proof.
  intros Hz. unfold parse_i64.
  assert (Hpos : forall n, match show_N n with 43 :: r => (false, r) | 45 :: r => (true, r) | _ => (false, show_N n) end = (false, show_N n)).
  { intros n. destruct (show_N_nonempty n) as (c & s & Hs). rewrite Hs.
    assert (Hc : is_ascii_digit c = true) by (apply (show_N_digits n); rewrite Hs; left).
    repeat (match goal with |- context [match ?x with _ => _ end] => destruct x; try done end). }
  assert (He : forall n, is_empty (show_N n) = false) by (intros n; by destruct (show_N_nonempty n) as (c & s & ->)).
  destruct z as [|p|p]; cbn [show_Z].
  - rewrite Hpos, He, parse_shown. cbv [mbind option_bind]. cbn [Z.to_N Z.of_N]. by rewrite Hz.
  - rewrite Hpos, He, parse_shown. cbv [mbind option_bind]. cbn [Z.to_N Z.of_N]. by rewrite Hz.
  - rewrite He, parse_shown. cbv [mbind option_bind]. change (- Z.of_N (Npos p))%Z with (Zneg p). by rewrite Hz.
Qed.
Lemma as_i64_json z : in_i64 z = true -> as_i64 (json_i64 z) = Some z.
Proof.
  intros Hz. unfold as_i64, json_i64. destruct (str_eqb (show_Z z) (lit "-0")) eqn:Hs; [|by apply parse_i64_show].
  apply str_eqb_eq in Hs. exfalso. destruct z as [|p|p]; cbn [show_Z] in Hs; [done| |].
  - pose proof (parse_shown (Z.to_N (Zpos p))) as Hp. by rewrite Hs in Hp.
  - injection Hs as Hs. pose proof (parse_shown (Npos p)) as Hp. by rewrite Hs in Hp.
Qed.

Module Conditions.

(** ** Texts *)

(** The columns of text. *)
Inductive Column := ClientIp | ClientName | Question | Qtype | Answer | Status | Reason | Upstream.
Definition column_name (c : Column) : str :=
  match c with
  | ClientIp => lit "client_ip" | ClientName => lit "client_name" | Question => lit "question" | Qtype => lit "qtype"
  | Answer => lit "answer" | Status => lit "status" | Reason => lit "reason" | Upstream => lit "upstream"
  end.
Inductive Op := Gt | Lt | Gte | Lte | Eq.
Definition op_text (o : Op) : str :=
  match o with Gt => lit ">" | Lt => lit "<" | Gte => lit ">=" | Lte => lit "<=" | Eq => lit "=" end.

Inductive Cond :=
| Equals (c : Column)
| Like (c : Column)
| In (c : Column) (n : nat)
| ElapsedIs (o : Op)
| TimeIs (o : Op)
| TimeBetween.
Definition cond_text (c : Cond) : str :=
  match c with
  | Equals c => column_name c ++ lit " = ?"
  | Like c => column_name c ++ lit " LIKE ?"
  | In c n => column_name c ++ lit " IN (" ++ join (lit ",") (repeat (lit "?") n) ++ lit ")"
  | ElapsedIs o => lit "elapsed_ns " ++ op_text o ++ lit " ?"
  | TimeIs o => lit "time " ++ op_text o ++ lit " ?"
  | TimeBetween => lit "time BETWEEN ? AND ?"
  end.
(** The parameters of a condition. *)
Definition holes (c : Cond) : nat := match c with In _ n => n | TimeBetween => 2 | _ => 1 end.

(** ["WHERE {}"] of the conditions, empty without one. *)
Definition where_text (connector : string) (cs : list Cond) : str :=
  match cs with [] => [] | _ => lit "WHERE " ++ join (lit connector) (map cond_text cs) end.

(** ** The values bound *)

Inductive Param := PText (s : str) | PInt (z : Z).
(** The loop over the bindings: only texts and numbers are bound. *)
Definition bind_value (v : Value) : list Param :=
  match v with
  | VString s => [PText s]
  | VNumber _ => [PInt (default 0%Z (as_i64 v))]
  | _ => []
  end.
Definition bind_values (vs : list Value) : list Param := flat_map bind_value vs.

(** ** What the server makes of them *)

Definition text_of (c : Column) (r : QueryLogRow) : option str :=
  match c with
  | ClientIp => Some (q_client_ip r) | ClientName => ql_client_name r | Question => Some (q_question r)
  | Qtype => Some (q_qtype r) | Answer => q_answer r | Status => Some (q_status r) | Reason => q_reason r
  | Upstream => q_upstream_name r
  end.
Definition int_test (o : Op) (x y : Z) : bool :=
  (match o with Gt => y <? x | Lt => x <? y | Gte => y <=? x | Lte => x <=? y | Eq => x =? y end)%Z.
Definition text_eq (s : str) (o : option str) : bool := match o with Some t => t =s? s | None => false end.

Definition Test : Type := QueryLogRow -> bool.
(** Columns of text compare with texts, [elapsed_ns] with numbers; [time]
    compares with neither. *)
Definition on_text (p : Param) (test : str -> Test) : result Test DbError :=
  match p with PText s => Ok (test s) | PInt _ => Err DatatypeMismatch end.
Definition equals (c : Column) (s : str) : Test := fun r => text_eq s (text_of c r).
Fixpoint one_of (c : Column) (ps : list Param) : result Test DbError :=
  match ps with
  | [] => Ok (fun _ => false)
  | p :: ps' => try! t := on_text p (equals c) in try! ts := one_of c ps' in Ok (fun r => t r || ts r)
  end.
Definition condition (c : Cond) (ps : list Param) : result Test DbError :=
  match c, ps with
  | Equals c, [p] => on_text p (equals c)
  | Like c, [p] => on_text p (fun s r => Listing.opt_like s (text_of c r))
  | In _ O, _ => Err SyntaxError
  | In c _, _ => one_of c ps
  | ElapsedIs o, [PInt z] => Ok (fun r : QueryLogRow => int_test o (q_elapsed_ns r) z)
  | ElapsedIs _, [PText _] | TimeIs _, [_] | TimeBetween, [_; _] => Err DatatypeMismatch
  | _, _ => Err WrongParameters
  end.
(** Every condition takes its parameters; what is left follows them. *)
Fixpoint conditions (cs : list Cond) (ps : list Param) : result (list Test * list Param) DbError :=
  match cs with
  | [] => Ok ([], ps)
  | c :: cs' =>
      if (length ps <? holes c)%nat then Err WrongParameters
      else try! t := condition c (take (holes c) ps) in
           try! rest := conditions cs' (drop (holes c) ps) in Ok (t :: fst rest, snd rest)
  end.
Definition passes (any : bool) (ts : list Test) (r : QueryLogRow) : bool :=
  match ts with [] => true | _ => if any then existsb (fun t => t r) ts else forallb (fun t => t r) ts end.
Definition select_where (any : bool) (cs : list Cond) (ps : list Param) (t : Db) :
  result (list QueryLogRow * list Param) DbError :=
  try! tests := conditions cs ps in Ok (List.filter (passes any (fst tests)) (query_log t), snd tests).

(** [LIMIT ..] and [LIMIT .. OFFSET ..] with what is left bound to them. *)
Definition limit_only {A} (ps : list Param) (rows : list A) : result (list A) DbError :=
  match ps with
  | [PInt n] => if (n <? 0)%Z then Err InvalidRowCount else Ok (Listing.limit n 0 rows)
  | _ => Err WrongParameters
  end.
Definition limit_offset {A} (ps : list Param) (rows : list A) : result (list A) DbError :=
  match ps with
  | [PInt n; PInt k] => if (n <? 0)%Z || (k <? 0)%Z then Err InvalidRowCount else Ok (Listing.limit n k rows)
  | _ => Err WrongParameters
  end.
(** The text sent without numbers is no statement: [?] is no parameter. *)
Definition unnumbered (any : bool) (cs : list Cond) (t : Db) : result (list QueryLogRow) DbError :=
  match cs with [] => Ok (query_log t) | _ => Err SyntaxError end.

(** ** Every condition means what its own values make it mean *)

(** A condition with the values its filter binds to it, on its own. *)
Definition meaning (x : Cond * list Value) : result Test DbError :=
  let ps := bind_values (snd x) in
  if (length ps =? holes (fst x))%nat then condition (fst x) ps else Err WrongParameters.
Definition meaningful (x : Cond * list Value) : bool := is_ok (meaning x).
Definition holds (x : Cond * list Value) (r : QueryLogRow) : bool :=
  match meaning x with Ok t => t r | Err _ => false end.
(** A value for every parameter. *)
Definition filled (x : Cond * list Value) : Prop := length (snd x) = holes (fst x).
Definition total (cs : list Cond) : nat := sum_list_with holes cs.

Lemma bind_values_app vs ws : bind_values (vs ++ ws) = bind_values vs ++ bind_values ws.
Proof. apply flat_map_app. Qed.
Lemma bind_values_length vs : (length (bind_values vs) <= length vs)%nat.
Proof.
  unfold bind_values. induction vs as [|v vs IH]; [done|]. cbn [flat_map]. rewrite length_app. cbn [length].
  assert (length (bind_value v) <= 1)%nat by (destruct v; cbn; lia). lia.
Qed.
Lemma conditions_length cs ps ts rest :
  conditions cs ps = Ok (ts, rest) -> length ps = (total cs + length rest)%nat.
Proof.
  revert ps ts rest. induction cs as [|c cs IH]; intros ps ts rest; cbn [conditions total sum_list_with].
  - by intros [= <- <-].
  - destruct (length ps <? holes c)%nat eqn:Hl; [done|]. apply Nat.ltb_ge in Hl.
    destruct (condition c _) as [t|]; [|done]. destruct (conditions cs _) as [[ts' r']|] eqn:Hc; [|done].
    intros [= <- <-]. apply IH in Hc. rewrite length_drop in Hc. cbn [snd]. unfold total in Hc. lia.
Qed.
Lemma bound_at_most l : Forall filled l -> (length (bind_values (flat_map snd l)) <= total (map fst l))%nat.
Proof.
  induction 1 as [|x l Hx Hl IH]; [done|]. cbn [flat_map map total sum_list_with]. rewrite bind_values_app, length_app.
  pose proof (bind_values_length (snd x)). unfold filled, total in *. lia.
Qed.
(** The parameters reach their conditions. *)
Lemma conditions_meaning l rest tests :
  Forall2 (fun x t => meaning x = Ok t) l tests ->
  conditions (map fst l) (bind_values (flat_map snd l) ++ rest) = Ok (tests, rest).
Proof.
  induction 1 as [|x t l tests Hx Hl IH]; [done|]. cbn [map flat_map conditions].
  unfold meaning in Hx. destruct (length (bind_values (snd x)) =? holes (fst x))%nat eqn:Hlen; [|done].
  apply Nat.eqb_eq in Hlen. rewrite bind_values_app, <- app_assoc, length_app, (proj2 (Nat.ltb_ge _ _)) by lia.
  rewrite <- Hlen, take_app_length, drop_app_length, Hx, IH. done.
Qed.
(** And no others: a filter whose value is not bound leaves the statement
    with too few. *)
Lemma conditions_meaning_inv l rest tests rest' :
  Forall filled l -> conditions (map fst l) (bind_values (flat_map snd l) ++ rest) = Ok (tests, rest') ->
  (length rest <= length rest')%nat -> Forall2 (fun x t => meaning x = Ok t) l tests /\ rest' = rest.
Proof.
  intros Hl. revert tests. induction Hl as [|x l Hx Hl IH]; intros tests; cbn [map flat_map conditions].
  - intros [= <- <-] _. by split; [constructor|].
  - destruct (_ <? _)%nat eqn:Hlt; [done|]. apply Nat.ltb_ge in Hlt.
    destruct (condition _ _) as [t|] eqn:Ht; [|done]. destruct (conditions (map fst l) (drop _ _)) as [[ts r']|] eqn:Hc; [|done].
    intros [= <- <-] Hrest. cbn [fst snd] in *. rewrite bind_values_app, <- app_assoc in *.
    pose proof (conditions_length _ _ _ _ Hc) as Hlen. rewrite length_drop, !length_app in Hlen. rewrite !length_app in Hlt.
    pose proof (bound_at_most l Hl). pose proof (bind_values_length (snd x)). unfold filled in Hx.
    assert (Heq : length (bind_values (snd x)) = holes (fst x)) by lia.
    rewrite <- Heq in Ht, Hc. rewrite take_app_length in Ht. rewrite drop_app_length in Hc.
    destruct (IH ts Hc Hrest) as [IH2 ->]. split; [|done]. constructor; [|done].
    unfold meaning. by rewrite Heq, Nat.eqb_refl.
Qed.
Lemma meaningful_tests l : forallb meaningful l = true -> exists tests, Forall2 (fun x t => meaning x = Ok t) l tests.
Proof.
  induction l as [|x l IH]; cbn [forallb]; [exists []; constructor|]. intros Hl. split_bools.
  destruct IH as [tests Ht]; [done|]. unfold meaningful in *. destruct (meaning x) as [t|] eqn:Hx; [|done].
  exists (t :: tests). by constructor.
Qed.
Lemma passes_holds any l tests r :
  Forall2 (fun x t => meaning x = Ok t) l tests ->
  passes any tests r = match l with [] => true | _ => if any then existsb (fun x => holds x r) l else forallb (fun x => holds x r) l end.
Proof.
  intros Hl. assert (He : existsb (fun t => t r) tests = existsb (fun x => holds x r) l).
  { induction Hl as [|x t l tests Hx Hl IH]; [done|]. cbn [existsb]. unfold holds at 1. by rewrite Hx, IH. }
  assert (Hf : forallb (fun t => t r) tests = forallb (fun x => holds x r) l).
  { clear He. induction Hl as [|x t l tests Hx Hl IH]; [done|]. cbn [forallb]. unfold holds at 1. by rewrite Hx, IH. }
  unfold passes. destruct Hl; [done|]. by destruct any.
Qed.

(** The rows that satisfy the filters: all of them, or any. *)
Definition satisfies (any : bool) (l : list (Cond * list Value)) (r : QueryLogRow) : bool :=
  match l with [] => true | _ => if any then existsb (fun x => holds x r) l else forallb (fun x => holds x r) l end.
(** What a statement with the conditions of the filters selects. *)
Lemma select_where_spec any l rest t :
  Forall filled l ->
  if forallb meaningful l
  then select_where any (map fst l) (bind_values (flat_map snd l) ++ rest) t =
         Ok (List.filter (satisfies any l) (query_log t), rest)
  else match select_where any (map fst l) (bind_values (flat_map snd l) ++ rest) t with
       | Ok (_, rest') => (length rest' < length rest)%nat
       | Err _ => True
       end.
Proof.
  intros Hl. destruct (forallb meaningful l) eqn:Hm.
  - apply meaningful_tests in Hm as [tests Ht]. unfold select_where. rewrite (conditions_meaning l rest tests Ht).
    cbn [fst snd]. do 2 f_equal. apply filter_ext. intros r. by apply passes_holds.
  - unfold select_where. destruct (conditions _ _) as [[tests rest']|] eqn:Hc; [|done]. cbn [snd].
    destruct (le_lt_dec (length rest) (length rest')) as [Hle|]; [|done].
    destruct (conditions_meaning_inv l rest tests rest' Hl Hc Hle) as [Hall _]. exfalso.
    assert (forallb meaningful l = true) as Ht; [|by rewrite Ht in Hm].
    clear -Hall. induction Hall as [|x t l tests Hx Hl IH]; [done|]. cbn [forallb]. unfold meaningful at 1. by rewrite Hx.
Qed.
End Conditions.
