(* ===== verification/QueryLog.v ===== *)
(** * The query log of the API: src/api/handlers/query_log.rs

    Pages of the log, by a cursor on the numbers of the rows or by an offset,
    its export as CSV or JSON, and deletion of rows.  The rows are numbered by
    the sequence of the table; what the cursor relies on is [log_numbered]. *)
From stdpp Require Import sorting.
From S2P Require Import Prelude RustStr IpAddr Regex Rules Acl Moka Hickory Cache Db DbLogic Filter Resolver.
From S2P Require Import UpstreamPool QueryLogWriter Handler HandlerTests Api App Auth AppTests Listing Tables Groups Tasks Conditions.
Local Open Scope N_scope.

Record QueryLogParams := {
  qp_limit : Z; qp_offset : Z; qp_cursor : option Z; qp_status : option str; qp_client : option str;
  qp_domain : option str; qp_upstream : option str; qp_qtype : option str; qp_time_range : option str }.
Record ExportParams := {
  ex_format : str; ex_fields : option str; ex_limit : Z; ex_filters_json : option str; ex_time_range : option str }.

Module QueryLog.
Section query_log.
Context `{RustUnicode, RegexEngine, SerdeJson, Collation, IpNetCrate, Moka, Rng,
  Hickory, !HickoryResolver, !DnsCodec, Jwt, SqlTime, SerdeValue}.
Import Api Conditions.

(** ** Listing *)

Definition default_limit : Z := 100.

(** The start of the range, in seconds; an unknown range is none. *)
Definition cutoff (now : N) (time_range : option str) : option Z :=
  time_range ≫= fun tr =>
  if tr =s? "1h" then Some (Z.of_N now - 3600)%Z
  else if tr =s? "6h" then Some (Z.of_N now - 21600)%Z
  else if tr =s? "24h" then Some (Z.of_N now - 86400)%Z
  else if tr =s? "7d" then Some (Z.of_N now - 604800)%Z
  else None.
(** The conditions but that of the cursor, the values bound to them. *)
Definition log_selected (q : QueryLogParams) (start : option Z) (r : QueryLogRow) : bool :=
  let given (o : option str) (test : str -> bool) := match o with Some v => test v | None => true end in
  given (qp_status q) (fun v => q_status r =s? v)
  && given (qp_client q) (fun v => Listing.like (Listing.search_pattern v) (q_client_ip r))
  && given (qp_domain q) (fun v => Listing.like (Listing.search_pattern v) (q_question r))
  && given (qp_upstream q) (fun v => match q_upstream_name r with Some u => u =s? v | None => false end)
  && given (qp_qtype q) (fun v => q_qtype r =s? v)
  && match start with Some t => (t * 1000000000 <=? Z.of_N (q_time r))%Z | None => true end.
(** The object of a row. *)
Record LogView := {
  lv_id : Z; lv_time : str; lv_client_ip : str; lv_client_name : option str; lv_question : str; lv_qtype : str;
  lv_answer : option str; lv_status : str; lv_reason : option str; lv_elapsed_ns : option Z;
  lv_upstream_ns : option Z; lv_upstream : option str }.
Definition time_text (r : QueryLogRow) : str := timestamptz_text (q_time r).
Definition log_view (r : QueryLogRow) : LogView :=
  {| lv_id := ql_id r; lv_time := time_text r; lv_client_ip := q_client_ip r; lv_client_name := ql_client_name r;
     lv_question := q_question r; lv_qtype := q_qtype r; lv_answer := q_answer r; lv_status := q_status r;
     lv_reason := q_reason r; lv_elapsed_ns := Some (q_elapsed_ns r); lv_upstream_ns := q_upstream_ns r;
     lv_upstream := q_upstream_name r |}.
Inductive LogAnswer :=
| CursorPage (data : list LogView) (has_more : bool) (next_cursor : option Z) (returned : nat)
| OffsetPage (data : list LogView) (total : nat) (returned : nat) (offset limit : Z).

Definition bad_status : AppError := Validation (lit "status must be either 'blocked' or 'allowed'").
Definition status_known (q : QueryLogParams) : bool :=
  match qp_status q with Some s => (s =s? "blocked") || (s =s? "allowed") | None => true end.
Definition clamp_limit (limit : Z) : Z := Z.min (Z.max limit 1) 1000.
(** [ORDER BY id DESC] *)
Definition newest_first (rows : list QueryLogRow) : list QueryLogRow := sort_by_key (fun r => - ql_id r)%Z rows.
Definition selected_rows (q : QueryLogParams) (start : option Z) (t : Db) : list QueryLogRow :=
  List.filter (log_selected q start) (query_log t).
Definition cursor_rows (q : QueryLogParams) (start : option Z) (cursor : Z) (t : Db) : list QueryLogRow :=
  newest_first (List.filter (fun r => ql_id r <? cursor)%Z (selected_rows q start t)).
Definition cursor_page (limit : Z) (rows : list QueryLogRow) : LogAnswer :=
  let has_more := (limit <? Z.of_nat (length rows))%Z in
  let rows := if has_more then take (Z.to_nat limit) rows else rows in
  let next_cursor := if has_more then ql_id <$> last rows else None in
  CursorPage (map log_view rows) has_more next_cursor (length rows).
(** By a cursor, or by an offset.  The order of the latter is that of the
    texts of the times, whose name hides the column. *)
Definition list_logs (d : Draws) (p : Parts) (q : QueryLogParams) : M App AppError LogAnswer :=
  AuthUser d p ;;;
  if negb (status_known q) then fail bad_status
  else
    let limit := clamp_limit (qp_limit q) in
    let start := cutoff (d_utc d) (qp_time_range q) in
    match qp_cursor q with
    | Some cursor =>
        let! rows := db (fetch_all (fun t => Listing.limit (limit + 1) 0 (cursor_rows q start cursor t))) in
        ret (cursor_page limit rows)
    | None =>
        let! rows := db (query (fun t =>
          Groups.checked_limit limit (qp_offset q) (Listing.order_desc time_text (selected_rows q start t)))) in
        let! total := db (fetch_one (fun t => Some (length (selected_rows q start t)))) in
        ret (OffsetPage (map log_view rows) total (length rows) (qp_offset q) limit)
    end.

(** ** Exporting *)

Definition EXPORT_FIELDS : list str :=
  [lit "id"; lit "time"; lit "client_ip"; lit "client_name"; lit "question"; lit "qtype"; lit "answer"; lit "status";
   lit "reason"; lit "upstream"; lit "elapsed_ns"; lit "upstream_ns"].
Definition DEFAULT_EXPORT_FIELDS : list str :=
  [lit "id"; lit "time"; lit "client_ip"; lit "client_name"; lit "question"; lit "qtype"; lit "answer"; lit "status";
   lit "reason"; lit "elapsed_ns"; lit "upstream_ns"].
Definition export_fields (fields : option str) : list str :=
  match fields with
  | Some fields_str =>
      List.filter (fun s => bool_decide (s ∈ EXPORT_FIELDS)) (map (fun s => to_lowercase (trim s)) (split fields_str 44))
  | None => DEFAULT_EXPORT_FIELDS
  end.

Definition compared (o : Op) (value : Value) : option (Cond * list Value) := Some (ElapsedIs o, [value]).
Definition searched (c : Column) (value : Value) : option (Cond * list Value) :=
  Some (Like c, [VString (Listing.search_pattern (default [] (as_str value)))]).
(** A condition with the values to bind; [None] for an unsupported filter. *)
Definition build_filter_condition (field op : str) (value : Value) : option (Cond * list Value) :=
  if (field =s? "status") && (op =s? "eq") then Some (Equals Status, [value])
  else if (field =s? "qtype") && (op =s? "eq") then Some (Equals Qtype, [value])
  else if (field =s? "question") && (op =s? "like") then searched Question value
  else if (field =s? "client_ip") && (op =s? "like") then searched ClientIp value
  else if (field =s? "elapsed_ns") && (op =s? "gt") then compared Gt value
  else if (field =s? "elapsed_ns") && (op =s? "lt") then compared Lt value
  else if (field =s? "elapsed_ns") && (op =s? "eq") then compared Eq value
  else if (field =s? "upstream") && (op =s? "eq") then Some (Equals Upstream, [value])
  else None.
Definition export_filter (filter_value : Value) : option (Cond * list Value) :=
  match filter_value with
  | VObject fields =>
      match value_get (lit "field") fields ≫= as_str, value_get (lit "operator") fields ≫= as_str,
            value_get (lit "value") fields with
      | Some field, Some op, Some value => build_filter_condition field op value
      | _, _, _ => None
      end
  | _ => None
  end.
(** Filters that cannot be read are no filters. *)
Definition export_where (filters_json : option str) : list (Cond * list Value) :=
  match (filters_json ≫= value_from_str) ≫= as_array with
  | Some filters => filter_map export_filter filters
  | None => []
  end.
(** [time >= NOW() + -1 hours::interval]: no quotes are written around the
    interval, and the text is no statement. *)
Definition export_range (time_range : option str) : bool :=
  match time_range with
  | Some tr => (tr =s? "1h") || (tr =s? "6h") || (tr =s? "24h") || (tr =s? "7d")
  | None => false
  end.
(** [ORDER BY time DESC]: by the text when [time::text as time] is selected. *)
Definition export_order (fields : list str) (rows : list QueryLogRow) : list QueryLogRow :=
  if bool_decide (lit "time" ∈ fields) then Listing.order_desc time_text rows
  else sort_by_key (fun r : QueryLogRow => - Z.of_N (q_time r))%Z rows.
Definition export_rows (fields : list str) (q : ExportParams) (t : Db) : result (list QueryLogRow) DbError :=
  let found := export_where (ex_filters_json q) in
  if export_range (ex_time_range q) then Err SyntaxError
  else try! sel := select_where false (map fst found) (bind_values (flat_map snd found) ++ [PInt (ex_limit q)]) t in
       limit_only (snd sel) (export_order fields (fst sel)).

(** [try_get] of a column as a text, then as a number. *)
Inductive Cell := CText (o : option str) | CInt (o : option Z).
Definition cell (field : str) (r : QueryLogRow) : Cell :=
  if field =s? "id" then CInt (Some (ql_id r))
  else if field =s? "time" then CText (Some (time_text r))
  else if field =s? "client_ip" then CText (Some (q_client_ip r))
  else if field =s? "client_name" then CText (ql_client_name r)
  else if field =s? "question" then CText (Some (q_question r))
  else if field =s? "qtype" then CText (Some (q_qtype r))
  else if field =s? "answer" then CText (q_answer r)
  else if field =s? "status" then CText (Some (q_status r))
  else if field =s? "reason" then CText (q_reason r)
  else if field =s? "upstream" then CText (q_upstream_name r)
  else if field =s? "elapsed_ns" then CInt (Some (q_elapsed_ns r))
  else if field =s? "upstream_ns" then CInt (q_upstream_ns r)
  else CText None.

(** [serde_json::Map], sorted by its keys. *)
Fixpoint map_insert (k : str) (v : Value) (m : list (str * Value)) : list (str * Value) :=
  match m with
  | [] => [(k, v)]
  | (k', v') :: m' =>
      if k =s? k' then (k, v) :: m' else if str_leb k k' then (k, v) :: m else (k', v') :: map_insert k v m'
  end.
Definition json_row (fields : list str) (r : QueryLogRow) : Value :=
  VObject (fold_left (fun obj field =>
    match cell field r with
    | CText (Some v) => map_insert field (VString v) obj
    | CInt (Some v) => map_insert field (json_i64 v) obj
    | _ => obj
    end) fields []).

Definition field_to_label (key : str) : str :=
  if key =s? "id" then lit "ID"
  else if key =s? "time" then [26102; 38388]
  else if key =s? "client_ip" then [23458; 25143; 31471; 73; 80]
  else if key =s? "client_name" then [23458; 25143; 31471; 21517; 31216]
  else if key =s? "question" then [22495; 21517]
  else if key =s? "qtype" then [26597; 35810; 31867; 22411]
  else if key =s? "answer" then [21709; 24212]
  else if key =s? "status" then [29366; 24577]
  else if key =s? "reason" then [21407; 22240]
  else if key =s? "upstream" then [19978; 28216; 26381; 21153; 22120]
  else if key =s? "elapsed_ns" then [21709; 24212; 26102; 38388; 40; 110; 115; 41]
  else if key =s? "upstream_ns" then [19978; 28216; 21709; 24212; 26102; 38388; 40; 110; 115; 41]
  else key.
Definition escape_csv_field (value : str) : str :=
  if contains_char value 44 || contains_char value 34 || contains_char value 10
  then 34 :: flat_map (fun c => if c =? 34 then [34; 34] else [c]) value ++ [34] else value.
Definition csv_value (c : Cell) : str :=
  match c with CText o => escape_csv_field (default [] o) | CInt (Some v) => show_Z v | CInt None => [] end.
Definition csv_line (values : list str) : str := join (lit ",") values ++ [10].
Definition csv_text (fields : list str) (rows : list QueryLogRow) : str :=
  csv_line (map field_to_label fields) ++ concat (map (fun r => csv_line (map (fun f => csv_value (cell f r)) fields)) rows).

Inductive ExportAnswer :=
| InvalidFields
| ExportFailed (e : DbError)
| Exported (content_type content_disposition body : str).
Definition export (d : Draws) (p : Parts) (q : ExportParams) : M App AppError ExportAnswer :=
  AdminUser d p ;;;
  let fields := export_fields (ex_fields q) in
  if bool_decide (fields = []) then ret InvalidFields
  else
    let! r := catch (query (export_rows fields q)) in
    ret (match r with
         | Err e => ExportFailed e
         | Ok rows =>
             if ex_format q =s? "json" then
               Exported (lit "application/json") (lit "attachment; filename=" ++ 34 :: lit "query-logs.json" ++ [34])
                 (to_string_pretty (VArray (map (json_row fields) rows)))
             else
               Exported (lit "text/csv; charset=utf-8") (lit "attachment; filename=" ++ 34 :: lit "query-logs.csv" ++ [34])
                 (csv_text fields rows)
         end).

(** ** Deleting *)

(** A statement takes at most 65535 parameters. *)
Definition bulk_delete (d : Draws) (p : Parts) (ids : list Z) : M App AppError nat :=
  AdminUser d p ;;;
  if bool_decide (ids = []) then ret 0%nat
  else
    let named (r : QueryLogRow) := bool_decide (ql_id r ∈ ids) in
    db (execute (fun t =>
      if 65535 <? N.of_nat (length ids) then Err WrongParameters
      else Ok (length (List.filter named (query_log t)),
               set_query_log t (List.filter (fun r => negb (named r)) (query_log t))))).
(** ** The numbers of the rows *)

(** Every row of the log has a number of its own, given by the sequence in
    the order of the table, and a status the column admits. *)
Definition log_ok (t : Db) : Prop :=
  StronglySorted (fun r1 r2 : QueryLogRow => ql_id r1 < ql_id r2)%Z (query_log t) /\
  Forall (fun r : QueryLogRow => 0 < ql_id r <= query_log_seq t)%Z (query_log t) /\
  Forall (fun r : QueryLogRow => QueryLogWriter.status_ok r = true) (query_log t) /\
  (0 <= query_log_seq t)%Z.
(** Later than [t0]: rows were appended. *)
Definition grown (t0 t : Db) : Prop :=
  exists rows, query_log t = query_log t0 ++ rows /\ Forall (fun r : QueryLogRow => query_log_seq t0 < ql_id r)%Z rows.

Lemma numbered_ids n b : map ql_id (QueryLogWriter.numbered n b) = map (fun k => n + Z.of_nat k)%Z (seq 1 (length b)).
Proof.
  revert n. induction b as [|e b IH]; intros n; [done|]. cbn [QueryLogWriter.numbered map length seq ql_id].
  rewrite IH, <- (seq_shift _ 1), map_map. apply (f_equal2 cons); [lia|]. apply map_ext. intros k. lia.
Qed.
Lemma numbered_range n b (r : QueryLogRow) : r ∈ QueryLogWriter.numbered n b -> (n < ql_id r <= n + Z.of_nat (length b))%Z.
Proof.
  intros Hr%(list_elem_of_fmap_2 ql_id). change (ql_id <$> QueryLogWriter.numbered n b) with (map ql_id (QueryLogWriter.numbered n b)) in Hr.
  rewrite numbered_ids in Hr. apply list_elem_of_fmap in Hr as (k & -> & Hk%elem_of_seq). lia.
Qed.
Lemma numbered_sorted n b : StronglySorted (fun r1 r2 : QueryLogRow => ql_id r1 < ql_id r2)%Z (QueryLogWriter.numbered n b).
Proof.
  revert n. induction b as [|e b IH]; intros n; cbn [QueryLogWriter.numbered]; constructor; [apply IH|].
  apply Forall_forall. intros r Hr%numbered_range. cbn [ql_id]. lia.
Qed.
Lemma numbered_status n b (r : QueryLogRow) :
  forallb QueryLogWriter.status_ok b = true -> r ∈ QueryLogWriter.numbered n b -> QueryLogWriter.status_ok r = true.
Proof.
  revert n. induction b as [|e b IH]; intros n Hb Hr; [by apply not_elem_of_nil in Hr|].
  cbn [QueryLogWriter.numbered forallb] in *. split_bools. apply elem_of_cons in Hr as [->|Hr]; [done|]. by eapply IH.
Qed.
Lemma sorted_filter {A} (R : relation A) f l : StronglySorted R l -> StronglySorted R (List.filter f l).
Proof.
  induction 1 as [|x l Hl IH Hx]; cbn [List.filter]; [constructor|]. destruct (f x); [|done]. constructor; [done|].
  rewrite Forall_forall in Hx |- *. intros y [Hy _]%elem_of_bfilter. by apply Hx.
Qed.
Lemma append_ok b t : forallb QueryLogWriter.status_ok b = true -> log_ok t ->
  log_ok (QueryLogWriter.append_rows b t) /\ grown t (QueryLogWriter.append_rows b t).
Proof.
  intros Hb (Hs & Hr & Hst & Hseq). split.
  - unfold log_ok. cbn. split; [|split; [|split]].
    + apply StronglySorted_app_2; [|done|apply numbered_sorted]. intros x y Hx Hy%numbered_range.
      rewrite Forall_forall in Hr. specialize (Hr x Hx). lia.
    + apply Forall_app. split.
      * eapply Forall_impl; [exact Hr|]. cbn. intros r. lia.
      * apply Forall_forall. intros r Hn%numbered_range. lia.
    + apply Forall_app. split; [done|]. apply Forall_forall. intros r. by apply numbered_status.
    + lia.
  - eexists. split; [done|]. apply Forall_forall. intros r Hn%numbered_range. lia.
Qed.
Lemma filter_ok f t : log_ok t -> log_ok (set_query_log t (List.filter f (query_log t))).
Proof.
  intros (Hs & Hr & Hst & Hseq). unfold log_ok. cbn. split; [by apply sorted_filter|].
  rewrite !Forall_forall in *. split; [|split; [|done]]; intros r [Hin _]%elem_of_bfilter; auto.
Qed.

Lemma chunks_status cs s s' :
  QueryLogWriter.insert_chunks cs s = (Ok tt, s') -> forallb QueryLogWriter.status_ok (concat cs) = true.
Proof.
  revert s. induction cs as [|c cs IH]; intros s; [done|]. cbn [QueryLogWriter.insert_chunks concat].
  rewrite forallb_app. intros (u & s1 & Hq & Hrest)%bind_Ok. apply query_Ok in Hq as [Hq _]. apply andb_true_iff. split; [|by eapply IH].
  by destruct (forallb _ c).
Qed.
Lemma write_ok b : preserves (S := QueryLogWriter.Writer) log_ok (QueryLogWriter.write_batch b).
Proof.
  intros s Hs. unfold QueryLogWriter.write_batch. destruct b as [|e b]; [done|].
  unfold bind, query at 1. destruct (faults _ _); cbn [snd]; [by rewrite db_of_with|].
  set (s1 := with_db s _). assert (Hs1 : log_ok (tables (db_of s1))) by (subst s1; by rewrite db_of_with).
  destruct (QueryLogWriter.insert_chunks _ s1) as [[[]|err] s2] eqn:Hc.
  - assert (Hs2 : tables (db_of s2) = tables (db_of s1)).
    { pose proof (QueryLogWriter.reads_insert_chunks (chunks QueryLogWriter.MAX_ROWS_PER_STMT (e :: b)) s1) as [n Hn].
      rewrite Hc in Hn. cbn [snd] in Hn. subst s2. by rewrite db_of_with. }
    apply chunks_status in Hc. rewrite concat_chunks in Hc by (vm_compute; lia).
    refine (preserves_execute log_ok _ _ s2 _); [|by rewrite Hs2].
    intros t a t' [= _ <-] Ht. by apply append_ok.
  - pose proof (QueryLogWriter.reads_insert_chunks (chunks QueryLogWriter.MAX_ROWS_PER_STMT (e :: b)) s1) as [n Hn].
    rewrite Hc in Hn. cbn [snd] in *. subst s2. by rewrite db_of_with.
Qed.
Lemma rotation_ok days d : preserves (S := App) log_ok (Tasks.query_log_rotation_tick days d).
Proof.
  apply preserves_bind; [|intros; apply preserves_ret]. apply preserves_catch, preserves_execute.
  intros t a t' [= _ <-]. apply filter_ok.
Qed.
Lemma delete_ok d p ids : preserves (S := App) log_ok (bulk_delete d p ids).
Proof.
  apply preserves_bind; [apply preserves_AdminUser|]. intros _. case_bool_decide; [apply preserves_ret|].
  apply preserves_map_err, preserves_execute. intros t a t'. destruct (_ <? _); [done|]. intros [= _ <-]. apply filter_ok.
Qed.
Lemma ids_nodup t : log_ok t -> NoDup (map ql_id (query_log t)).
Proof.
  intros (Hs & _). induction Hs as [|r l Hl IH Hr]; cbn [map]; constructor; [|done].
  intros (r' & Hid & Hin)%list_elem_of_fmap. rewrite Forall_forall in Hr. specialize (Hr r' Hin). cbn in Hr. lia.
Qed.
Lemma bfilter_all {A} (f : A -> bool) l : (forall x, x ∈ l -> f x = true) -> List.filter f l = l.
Proof.
  induction l as [|x l IH]; intros Hf; [done|]. cbn [List.filter]. rewrite Hf by by left. f_equal.
  apply IH. intros y Hy. apply Hf. by right.
Qed.
Lemma bfilter_none {A} (f : A -> bool) l : (forall x, x ∈ l -> f x = false) -> List.filter f l = [].
Proof.
  induction l as [|x l IH]; intros Hf; [done|]. cbn [List.filter]. rewrite Hf by by left.
  apply IH. intros y Hy. apply Hf. by right.
Qed.
Lemma bfilter_nodup {A} (f : A -> bool) l : NoDup l -> NoDup (List.filter f l).
Proof.
  induction 1 as [|x l Hx Hl IH]; cbn [List.filter]; [constructor|]. destruct (f x); [|done]. constructor; [|done].
  by intros [Hin _]%elem_of_bfilter.
Qed.
(** How many rows go: the numbers that are there, each once. *)
Lemma deleted_count t ids : log_ok t ->
  length (List.filter (fun r : QueryLogRow => bool_decide (ql_id r ∈ ids)) (query_log t)) =
  length (List.filter (fun i => bool_decide (i ∈ map ql_id (query_log t))) (remove_dups ids)).
Proof.
  intros Ht%ids_nodup. rewrite <- (length_map ql_id). apply Permutation_length, NoDup_Permutation.
  - revert Ht. generalize (query_log t) as l. induction l as [|r l IH]; [done|]. cbn [map List.filter].
    intros [Hr Hl]%NoDup_cons. destruct (bool_decide _); [|by apply IH]. cbn [map]. constructor; [|by apply IH].
    intros (r' & Hid & [Hin _]%elem_of_bfilter)%list_elem_of_fmap. apply Hr. rewrite Hid. by apply (list_elem_of_fmap_2 ql_id).
  - apply bfilter_nodup, NoDup_remove_dups.
  - intros i. rewrite elem_of_bfilter, elem_of_remove_dups, bool_decide_eq_true. split.
    + intros (r & -> & [Hin Hi%bool_decide_eq_true]%elem_of_bfilter)%list_elem_of_fmap. split; [done|].
      by apply (list_elem_of_fmap_2 ql_id).
    + intros [Hi (r & -> & Hin)%list_elem_of_fmap]. apply (list_elem_of_fmap_2 ql_id). apply elem_of_bfilter.
      split; [done|]. by apply bool_decide_eq_true.
Qed.

(** C12: The rows of the log are well formed whatever the server does to it:
    numbered one after the other by the sequence of the table, with a status
    of the schema.  The writer, the rotation and the deletion keep this; the
    deletion removes exactly the rows whose numbers are given, and answers how
    many of these there were, a number given twice counted once. *)
Theorem log_rows_ok d p :
  (forall b, preserves (S := QueryLogWriter.Writer) log_ok (QueryLogWriter.write_batch b)) /\
  (forall days, preserves (S := App) log_ok (Tasks.query_log_rotation_tick days d)) /\
  (forall ids, preserves (S := App) log_ok (bulk_delete d p ids)) /\
  (forall ids admin (s : App), db_works s -> fst (AdminUser d p s) = Ok admin -> log_ok (tables (db_of s)) ->
    let t := tables (db_of s) in
    if 65535 <? N.of_nat (length ids) then does (bulk_delete d p ids) s (Err (Database WrongParameters)) s
    else exists t', does (bulk_delete d p ids) s
           (Ok (length (List.filter (fun i => bool_decide (i ∈ map ql_id (query_log t))) (remove_dups ids)))) (with_tables t' s) /\
         t' = set_query_log t (query_log t') /\
         forall r, r ∈ query_log t' <-> r ∈ query_log t /\ ql_id r ∉ ids).
Proof.
  split; [exact write_ok|]. split; [intros days; apply rotation_ok|]. split; [intros ids; apply delete_ok|].
  intros ids admin s Hs Hadmin Hok t. pose proof (does_AdminUser d p s) as Ha. rewrite Hadmin in Ha.
  unfold bulk_delete. destruct (65535 <? N.of_nat (length ids)) eqn:Hlen.
  { eapply does_bind; [exact Ha|]. rewrite bool_decide_eq_false_2 by (intros ->; done).
    by apply does_db_execute_err. }
  rewrite <- deleted_count by done. exists (set_query_log t (List.filter (fun r => negb (bool_decide (ql_id r ∈ ids))) (query_log t))).
  split; [|split; [done|]].
  - eapply does_bind; [exact Ha|]. case_bool_decide as Hnil.
    + subst ids. assert (Hall : List.filter (fun r : QueryLogRow => negb (bool_decide (ql_id r ∈ []))) (query_log t) = query_log t).
      { apply bfilter_all. intros r _. rewrite bool_decide_eq_false_2 by apply not_elem_of_nil. done. }
      rewrite Hall. replace (set_query_log t (query_log t)) with t by (by destruct t). subst t. rewrite with_tables_same.
      replace (length _) with 0%nat; [apply does_ret|]. symmetry. apply length_zero_iff_nil.
      apply bfilter_none. intros r _. by rewrite bool_decide_eq_false_2 by apply not_elem_of_nil.
    + by eapply does_db_execute.
  - intros r. cbn. rewrite elem_of_bfilter, negb_true_iff, bool_decide_eq_false. done.
Qed.
(** ** Following the cursor *)

(** A client that asks for the rows below a cursor, and goes on with the
    cursor of every answer while it says that there is more. *)
Fixpoint follow (p : Parts) (q : QueryLogParams) (cursor : Z) (visits : list (Draws * App)) : option (list LogView) :=
  match visits with
  | [] => None
  | (d, s) :: visits' =>
      let asked := {| qp_limit := qp_limit q; qp_offset := qp_offset q; qp_cursor := Some cursor; qp_status := qp_status q;
                      qp_client := qp_client q; qp_domain := qp_domain q; qp_upstream := qp_upstream q;
                      qp_qtype := qp_qtype q; qp_time_range := qp_time_range q |} in
      match fst (list_logs d p asked s) with
      | Ok (CursorPage data true (Some next) _) => (fun rest => data ++ rest) <$> follow p q next visits'
      | Ok (CursorPage data false _ _) => Some data
      | _ => None
      end
  end.

Lemma elem_of_rev {A} (x : A) l : x ∈ rev l <-> x ∈ l.
Proof. by rewrite !list_elem_of_In, <- in_rev. Qed.
Lemma sorted_rev {A} (R : relation A) l : StronglySorted R l -> StronglySorted (flip R) (rev l).
Proof.
  induction 1 as [|x l Hl IH Hx]; cbn [rev]; [constructor|]. apply StronglySorted_app_2; [|done|by repeat constructor].
  intros y z Hy Hz%list_elem_of_singleton. subst z. rewrite elem_of_rev in Hy. rewrite Forall_forall in Hx. by apply Hx.
Qed.
Lemma newest_first_rev rows :
  StronglySorted (fun r1 r2 : QueryLogRow => ql_id r1 < ql_id r2)%Z rows -> newest_first rows = rev rows.
Proof.
  induction 1 as [|r rows Hrows IH Hr]; [done|]. unfold newest_first, sort_by_key in *. cbn [fold_right rev]. rewrite IH.
  assert (Hr' : forall r', r' ∈ rev rows -> (ql_id r < ql_id r')%Z).
  { intros r' Hin. rewrite elem_of_rev in Hin. rewrite Forall_forall in Hr. by apply Hr. }
  clear IH Hr Hrows. induction (rev rows) as [|r' l IH]; [done|]. cbn [insert_by app].
  rewrite (proj2 (Z.leb_gt _ _)) by (specialize (Hr' r' ltac:(by left)); lia). f_equal. apply IH.
  intros x Hx. apply Hr'. by right.
Qed.
Lemma bfilter_filter {A} (f g : A -> bool) l : List.filter f (List.filter g l) = List.filter (fun x => g x && f x) l.
Proof.
  induction l as [|x l IH]; [done|]. cbn [List.filter]. destruct (g x); cbn [List.filter andb]; [|done].
  by destruct (f x); rewrite IH.
Qed.
Lemma bfilter_rev {A} (f : A -> bool) l : List.filter f (rev l) = rev (List.filter f l).
Proof.
  induction l as [|x l IH]; [done|]. cbn [rev]. rewrite List.filter_app, IH. cbn [List.filter].
  destruct (f x); cbn [rev]; [done|]. apply app_nil_r.
Qed.

Section cursor.
Context (q : QueryLogParams) (start : option Z) (t : Db).
Context (Hok : log_ok t).
Definition below (r1 r2 : QueryLogRow) : Prop := (ql_id r2 < ql_id r1)%Z.
Lemma cursor_rows_rev c :
  cursor_rows q start c t = rev (List.filter (fun r => ql_id r <? c)%Z (selected_rows q start t)).
Proof. apply newest_first_rev, sorted_filter, sorted_filter, Hok. Qed.
Lemma cursor_rows_sorted c : StronglySorted below (cursor_rows q start c t).
Proof. rewrite cursor_rows_rev. apply sorted_rev, sorted_filter, sorted_filter, Hok. Qed.
Lemma cursor_rows_elem c (r : QueryLogRow) :
  r ∈ cursor_rows q start c t <-> r ∈ query_log t /\ log_selected q start r = true /\ (ql_id r < c)%Z.
Proof.
  rewrite cursor_rows_rev, elem_of_rev, elem_of_bfilter. unfold selected_rows.
  rewrite elem_of_bfilter, Z.ltb_lt. tauto.
Qed.
(** A lower cursor goes on where the rows above it end. *)
Lemma cursor_rows_next c next : (next <= c)%Z ->
  cursor_rows q start next t = List.filter (fun r => ql_id r <? next)%Z (cursor_rows q start c t).
Proof.
  intros Hc. rewrite !cursor_rows_rev, bfilter_rev, bfilter_filter. f_equal. apply filter_ext.
  intros r. destruct (ql_id r <? next)%Z eqn:Hn; rewrite ?andb_true_r, ?andb_false_r; [|done].
  apply Z.ltb_lt in Hn. symmetry. apply Z.ltb_lt. lia.
Qed.
Lemma rest_of (l1 l2 : list QueryLogRow) x :
  StronglySorted below (l1 ++ x :: l2) -> List.filter (fun r => ql_id r <? ql_id x)%Z (l1 ++ x :: l2) = l2.
Proof.
  intros Hl. rewrite List.filter_app, bfilter_none, app_nil_l.
  - cbn [List.filter]. rewrite Z.ltb_irrefl. apply bfilter_all.
    intros r Hr. apply Z.ltb_lt. apply StronglySorted_app_1_r in Hl. apply StronglySorted_inv in Hl as [_ Hx].
    rewrite Forall_forall in Hx. by apply Hx.
  - intros r Hr. apply Z.ltb_ge. enough (below r x) by (unfold below in *; lia).
    eapply (StronglySorted_app_1_elem_of below l1 (x :: l2)); [done|done|by left].
Qed.
Lemma after_page c n next :
  (n < length (cursor_rows q start c t))%nat -> (0 < n)%nat ->
  ql_id <$> last (take n (cursor_rows q start c t)) = Some next ->
  cursor_rows q start next t = drop n (cursor_rows q start c t).
Proof.
  intros Hn Hpos Hlast. pose proof (cursor_rows_sorted c) as Hsorted.
  destruct (last (take n _)) as [x|] eqn:Hx; [|done]. injection Hlast as <-.
  apply last_Some in Hx as [l1 Hl1].
  assert (Hrows : cursor_rows q start c t = l1 ++ x :: drop n (cursor_rows q start c t)).
  { rewrite <- (take_drop n (cursor_rows q start c t)) at 1. rewrite Hl1, <- app_assoc. done. }
  rewrite (cursor_rows_next c).
  - rewrite Hrows at 1. apply rest_of. by rewrite <- Hrows.
  - assert (Hin : x ∈ cursor_rows q start c t) by (rewrite Hrows; set_solver). apply cursor_rows_elem in Hin. lia.
Qed.
End cursor.
Lemma cursor_rows_grown q start c t0 t :
  log_ok t0 -> log_ok t -> grown t0 t -> (c <= query_log_seq t0 + 1)%Z ->
  cursor_rows q start c t = cursor_rows q start c t0.
Proof.
  intros Hok0 Hok (rows & Hlog & Hrows) Hc. rewrite !cursor_rows_rev by done. f_equal. unfold selected_rows.
  rewrite !bfilter_filter, Hlog, List.filter_app, (bfilter_none _ rows), app_nil_r; [done|].
  intros r Hr. rewrite Forall_forall in Hrows. specialize (Hrows r Hr). apply andb_false_iff. right. apply Z.ltb_ge. lia.
Qed.
Lemma answer_fst {E A} (m : M App E A) s r s' : does m s r s' -> fst (m s) = r.
Proof. intros [n Hn]%does_run. by rewrite Hn. Qed.
Lemma clamp_limit_bounds n : (1 <= clamp_limit n <= 1000)%Z.
Proof. unfold clamp_limit. lia. Qed.
(** One answer. *)
Lemma page_answer d p q cursor auth (s : App) :
  db_works s -> fst (AuthUser d p s) = Ok auth -> status_known q = true -> qp_cursor q = Some cursor ->
  let limit := clamp_limit (qp_limit q) in
  let rows := cursor_rows q (cutoff (d_utc d) (qp_time_range q)) cursor (tables (db_of s)) in
  fst (list_logs d p q s) = Ok (cursor_page limit (take (Z.to_nat (limit + 1)) rows)).
Proof.
  intros Hs Hauth Hst Hcur limit rows. pose proof (does_AuthUser d p s) as Ha. rewrite Hauth in Ha.
  apply (answer_fst _ _ _ s). unfold list_logs. eapply does_bind; [exact Ha|]. rewrite Hst, Hcur. cbn [negb].
  eapply does_bind; [by eapply does_db_query|]. unfold Listing.limit. rewrite drop_0. apply does_ret.
Qed.
Lemma last_nonempty {A} (l : list A) : l <> [] -> exists x, last l = Some x.
Proof. intros Hl. destruct (last l) as [x|] eqn:Hx; [by exists x|]. by apply last_None in Hx. Qed.

(** C13: Following the cursor reads the log.  A client that asks for the rows
    below a cursor and goes on with the cursor of every answer until none
    follows gets, after at most as many requests as the rows fill pages,
    exactly the selected rows of the log below its first cursor, each once and
    the newest first, although the log grows between its requests. *)
Theorem cursor_pages p q start t0 cursor visits :
  status_known q = true -> log_ok t0 -> (cursor <= query_log_seq t0 + 1)%Z ->
  (forall d (s : App), (d, s) ∈ visits ->
    db_works s /\ (exists auth, fst (AuthUser d p s) = Ok auth) /\ cutoff (d_utc d) (qp_time_range q) = start /\
    log_ok (tables (db_of s)) /\ grown t0 (tables (db_of s))) ->
  let rows := cursor_rows q start cursor t0 in
  (Z.of_nat (length rows) <= Z.of_nat (length visits) * clamp_limit (qp_limit q))%Z -> visits <> [] ->
  follow p q cursor visits = Some (map log_view rows) /\
  (forall r, r ∈ rows <-> r ∈ query_log t0 /\ log_selected q start r = true /\ (ql_id r < cursor)%Z) /\
  StronglySorted (fun r1 r2 : QueryLogRow => ql_id r2 < ql_id r1)%Z rows.
Proof.
  intros Hst Hok Hc Hv rows Hlen Hne. split; [|split; [intros r; by apply cursor_rows_elem|by apply cursor_rows_sorted]].
  subst rows. revert cursor Hc Hlen. induction visits as [|[d s] visits IH]; intros cursor Hc Hlen; [done|]. clear Hne.
  destruct (Hv d s ltac:(by left)) as (Hs & (auth & Hauth) & Hstart & Hoks & Hgrown). cbn [follow].
  set (asked := Build_QueryLogParams _ _ (Some cursor) _ _ _ _ _ _).
  pose proof (page_answer d p asked cursor auth s Hs Hauth Hst eq_refl) as ->. cbn [qp_limit asked].
  change (qp_time_range asked) with (qp_time_range q). rewrite Hstart.
  change (cursor_rows asked) with (cursor_rows q). rewrite (cursor_rows_grown q start cursor t0) by done.
  pose proof (clamp_limit_bounds (qp_limit q)) as Hb. set (limit := clamp_limit (qp_limit q)) in *.
  set (rows := cursor_rows q start cursor t0) in *. unfold cursor_page. rewrite length_take.
  destruct (limit <? _)%Z eqn:Hmore.
  - apply Z.ltb_lt in Hmore. rewrite take_take, (Nat.min_l (Z.to_nat limit)) by lia.
    destruct (last_nonempty (take (Z.to_nat limit) rows)) as [x Hx].
    { intros Hnil%(f_equal length). rewrite length_take in Hnil. cbn in Hnil. lia. }
    rewrite Hx. cbn [fmap option_fmap option_map].
    assert (Hrest : cursor_rows q start (ql_id x) t0 = drop (Z.to_nat limit) rows).
    { apply after_page; [done|fold rows; lia|lia|]. fold rows. by rewrite Hx. }
    destruct visits as [|v visits].
    { cbn [length] in Hlen. lia. }
    rewrite IH.
    + rewrite Hrest. cbn. by rewrite <- map_app, take_drop.
    + intros d' s' Hin. apply Hv. by right.
    + done.
    + assert (Hin : x ∈ rows) by (apply last_Some_elem_of, elem_of_take in Hx as (i & Hi & _); by eapply list_elem_of_lookup_2).
      apply cursor_rows_elem in Hin; [|done]. lia.
    + rewrite Hrest, length_drop. cbn [length] in *. lia.
  - apply Z.ltb_ge in Hmore. rewrite take_ge by lia. done.
Qed.
(** ** What an export holds *)

(** A reader of CSV: fields between commas, lines that end in a line feed,
    and fields in quotes, in which a doubled quote is one. *)
Inductive CsvState := AtStart | InPlain | InQuotes | AtQuote.
Fixpoint csv_read (st : CsvState) (field : str) (row : list str) (s : str) : option (list (list str)) :=
  match s with
  | [] => match st, row with AtStart, [] => Some [] | _, _ => None end
  | c :: s' =>
      match st with
      | InQuotes => if c =? 34 then csv_read AtQuote field row s' else csv_read InQuotes (field ++ [c]) row s'
      | _ =>
          if c =? 44 then csv_read AtStart [] (row ++ [field]) s'
          else if c =? 10 then (fun rows => (row ++ [field]) :: rows) <$> csv_read AtStart [] [] s'
          else match st with
               | AtStart => if c =? 34 then csv_read InQuotes [] row s' else csv_read InPlain [c] row s'
               | InPlain => if c =? 34 then None else csv_read InPlain (field ++ [c]) row s'
               | _ => if c =? 34 then csv_read InQuotes (field ++ [34]) row s' else None
               end
      end
  end.
Definition read_csv : str -> option (list (list str)) := csv_read AtStart [] [].
Definition cell_text (c : Cell) : str :=
  match c with CText o => default [] o | CInt (Some v) => show_Z v | CInt None => [] end.

Definition plain_csv (v : str) : Prop := forall c, c ∈ v -> c <> 44 /\ c <> 34 /\ c <> 10.
(** A written value, whatever follows it. *)
Definition writes (w v : str) : Prop :=
  (w = v /\ plain_csv v) \/ w = 34 :: flat_map (fun c => if c =? 34 then [34; 34] else [c]) v ++ [34].
Definition ends_field (rest : str) : Prop := exists s, rest = 44 :: s \/ rest = 10 :: s.

Lemma plain_write v : plain_csv v -> writes v v.
Proof. by left. Qed.
Lemma escape_write v : writes (escape_csv_field v) v.
Proof.
  unfold escape_csv_field. destruct (_ || _) eqn:Hc; [by right|]. left. split; [done|].
  apply orb_false_iff in Hc as [[Hc Hq]%orb_false_iff Hn]. rewrite !contains_char_false in *.
  intros c Hin. repeat split; intros ->; contradiction.
Qed.
Lemma show_Z_plain z : plain_csv (show_Z z).
Proof.
  intros c Hc. unfold show_Z in Hc.
  assert (is_ascii_digit c = true \/ c = 45) as [Hd| ->]; [|unfold is_ascii_digit in Hd; split_bools; lia|lia].
  destruct z; [|left; by eapply show_N_digits|apply elem_of_cons in Hc as [->|Hc]; [by right|]]; left; by eapply show_N_digits.
Qed.
Lemma csv_value_writes c : writes (csv_value c) (cell_text c).
Proof.
  destruct c as [o|[z|]]; cbn [csv_value cell_text]; [apply escape_write|apply plain_write, show_Z_plain|].
  apply plain_write. by intros c Hc%not_elem_of_nil.
Qed.
Lemma label_plain f : f ∈ EXPORT_FIELDS -> plain_csv (field_to_label f).
Proof.
  intros Hf. enough (forallb (fun c => negb ((c =? 44) || (c =? 34) || (c =? 10))) (field_to_label f) = true) as Hl.
  { intros c Hc. rewrite forallb_forall in Hl. apply list_elem_of_In, Hl in Hc. split_bools. lia. }
  unfold EXPORT_FIELDS in Hf. rewrite !elem_of_cons, elem_of_nil in Hf.
  repeat destruct Hf as [->|Hf]; vm_compute; done.
Qed.

Lemma csv_plain v row rest st acc :
  plain_csv v -> ends_field rest -> (st = InPlain \/ (st = AtStart /\ acc = [])) ->
  csv_read st acc row (v ++ rest) =
  match rest with
  | c :: s => if c =? 44 then csv_read AtStart [] (row ++ [acc ++ v]) s
              else (fun rows => (row ++ [acc ++ v]) :: rows) <$> csv_read AtStart [] [] s
  | [] => None
  end.
Proof.
  revert st acc. induction v as [|c v IH]; intros st acc Hv Hrest Hst.
  - rewrite app_nil_r. destruct Hrest as [s [->| ->]]; by destruct Hst as [->|[-> ->]].
  - destruct (Hv c ltac:(by left)) as (Hc & Hq & Hn). cbn [app csv_read].
    rewrite (proj2 (N.eqb_neq c 44)), (proj2 (N.eqb_neq c 10)), (proj2 (N.eqb_neq c 34)) by done.
    assert (Hv' : plain_csv v) by (intros x Hx; apply Hv; by right).
    destruct Hst as [->|[-> ->]]; (rewrite IH; [|done|done|by left]); cbn [app]; by rewrite ?cons_middle, <- ?app_assoc.
Qed.
Lemma csv_quoted v row rest acc :
  ends_field rest ->
  csv_read InQuotes acc row (flat_map (fun c => if c =? 34 then [34; 34] else [c]) v ++ 34 :: rest) =
  match rest with
  | c :: s => if c =? 44 then csv_read AtStart [] (row ++ [acc ++ v]) s
              else (fun rows => (row ++ [acc ++ v]) :: rows) <$> csv_read AtStart [] [] s
  | [] => None
  end.
Proof.
  intros Hrest. revert acc. induction v as [|c v IH]; intros acc.
  - rewrite app_nil_r. by destruct Hrest as [s [->| ->]].
  - cbn [flat_map]. rewrite <- app_assoc. destruct (c =? 34) eqn:Hc; cbn [app csv_read].
    + change (34 =? 34) with true. change (34 =? 44) with false. change (34 =? 10) with false. cbn iota.
      apply N.eqb_eq in Hc as ->. rewrite IH. by rewrite <- !app_assoc.
    + rewrite Hc, IH. by rewrite <- !app_assoc.
Qed.
Lemma csv_written w v row rest :
  writes w v -> ends_field rest ->
  csv_read AtStart [] row (w ++ rest) =
  match rest with
  | c :: s => if c =? 44 then csv_read AtStart [] (row ++ [v]) s
              else (fun rows => (row ++ [v]) :: rows) <$> csv_read AtStart [] [] s
  | [] => None
  end.
Proof.
  intros [[-> Hv]| ->] Hrest; [by rewrite csv_plain by (done || by right)|].
  cbn [app csv_read]. change (34 =? 44) with false. change (34 =? 10) with false. change (34 =? 34) with true. cbn iota.
  rewrite <- app_assoc. cbn [app]. by rewrite csv_quoted.
Qed.
Lemma read_line ws vs row rest :
  Forall2 writes ws vs -> ws <> [] ->
  csv_read AtStart [] row (csv_line ws ++ rest) = (fun rows => (row ++ vs) :: rows) <$> csv_read AtStart [] [] rest.
Proof.
  intros Hws. revert row. induction Hws as [|w v ws vs Hw Hws IH]; intros row Hne; [done|]. unfold csv_line in *.
  destruct Hws as [|w' v' ws vs Hw' Hws].
  - cbn [join]. rewrite <- app_assoc. cbn [app]. by rewrite (csv_written w v) by (done || by eexists; right).
  - change (join (lit ",") (w :: w' :: ws)) with (w ++ 44 :: join (lit ",") (w' :: ws)).
    rewrite <- !app_assoc. cbn [app]. rewrite (csv_written w v) by (done || by eexists; left).
    change (44 =? 44) with true. cbn iota. specialize (IH (row ++ [v]) ltac:(done)). rewrite <- !app_assoc in IH. exact IH.
Qed.
Lemma read_lines (lines : list (list str * list str)) :
  Forall (fun l => Forall2 writes l.1 l.2 /\ l.1 <> []) lines ->
  read_csv (concat (map (fun l => csv_line l.1) lines)) = Some (map snd lines).
Proof.
  induction 1 as [|[ws vs] lines [Hl Hne] Hlines IH]; [done|]. cbn [map concat fst snd]. unfold read_csv in *.
  rewrite (read_line ws vs) by done. by rewrite IH.
Qed.
Lemma csv_reads fields rows :
  fields <> [] -> Forall (fun f => f ∈ EXPORT_FIELDS) fields ->
  read_csv (csv_text fields rows) =
  Some (map field_to_label fields :: map (fun r => map (fun f => cell_text (cell f r)) fields) rows).
Proof.
  intros Hne Hf. unfold csv_text.
  pose (lines := (map field_to_label fields, map field_to_label fields) ::
    map (fun r => (map (fun f => csv_value (cell f r)) fields, map (fun f => cell_text (cell f r)) fields)) rows).
  assert (Hmap : forall {B} (g : str -> B), map g fields <> []) by (intros B g; by destruct fields).
  transitivity (read_csv (concat (map (fun l => csv_line l.1) lines))).
  - unfold lines. cbn [map concat fst]. by rewrite map_map.
  - rewrite read_lines; [unfold lines; cbn [map snd]; by rewrite map_map|]. constructor.
    + split; [|apply Hmap]. cbn [fst snd]. induction Hf as [|f fields Hf Hfs IH]; [constructor|]. cbn [map].
      constructor; [by apply plain_write, label_plain|]. destruct fields; [constructor|]. apply IH; [done|].
      intros B g. done.
    + apply Forall_forall. intros l (r & -> & Hr)%list_elem_of_fmap. cbn [fst snd]. split; [|apply Hmap].
      clear. induction fields as [|f fields IH]; [constructor|]. cbn [map]. constructor; [apply csv_value_writes|done].
Qed.

Lemma export_fields_known o : Forall (fun f => f ∈ EXPORT_FIELDS) (export_fields o).
Proof.
  unfold export_fields. destruct o as [text|].
  - apply Forall_forall. intros f [_ Hf%bool_decide_eq_true]%elem_of_bfilter. done.
  - repeat constructor; unfold EXPORT_FIELDS; set_solver.
Qed.
Lemma build_filled field op value x : build_filter_condition field op value = Some x -> filled x.
Proof.
  unfold build_filter_condition, searched, compared. intros Hx.
  repeat match type of Hx with (if ?b then _ else _) = _ => destruct b; [by injection Hx as <-|] end. done.
Qed.
Lemma export_filled o : Forall filled (export_where o).
Proof.
  unfold export_where. destruct (_ ≫= as_array) as [fs|]; [|constructor]. apply Forall_forall.
  intros x (v & _ & Hv)%elem_of_filter_map. unfold export_filter in Hv. destruct v; try done.
  repeat match type of Hv with match ?o with Some _ => _ | None => _ end = _ => destruct o; [|done] end.
  by apply build_filled in Hv.
Qed.
Lemma export_order_perm fields rows : Permutation (export_order fields rows) rows.
Proof. unfold export_order. case_bool_decide; [apply Listing.order_desc_perm|apply sort_by_key_perm]. Qed.

(** What the statement of the export gives. *)
Lemma export_rows_spec fields q t :
  let found := export_where (ex_filters_json q) in
  if negb (export_range (ex_time_range q)) && forallb meaningful found && (0 <=? ex_limit q)%Z
  then export_rows fields q t =
         Ok (take (Z.to_nat (ex_limit q)) (export_order fields (List.filter (satisfies false found) (query_log t))))
  else exists e, export_rows fields q t = Err e.
Proof.
  intros found. unfold export_rows. fold found. destruct (export_range _); cbn [negb andb]; [by eexists|].
  pose proof (select_where_spec false found [PInt (ex_limit q)] t (export_filled _)) as Hsel.
  destruct (forallb meaningful found); cbn [andb].
  - rewrite Hsel. cbn [fst snd limit_only]. rewrite Z.leb_antisym. destruct (_ <? 0)%Z; cbn [negb]; [by eexists|].
    unfold Listing.limit. by rewrite drop_0.
  - destruct (select_where _ _ _ _) as [[rows rest]|e]; [|by eexists]. cbn [fst snd]. cbn [length] in Hsel.
    destruct rest; [by eexists|]. cbn [length] in Hsel. lia.
Qed.

(** C34: What an export as CSV holds is read back from it: its text is a line
    with the labels of the fields asked for and one line for every row, in
    which the values stand whatever commas, quotes and line feeds they hold.
    The rows are those that satisfy every filter the export supports, in order
    and up to the limit; a filter with a value the column cannot be compared
    with, a negative limit and every time range fail the export. *)
Theorem export_correct d p admin q (s : App) :
  db_works s -> fst (AdminUser d p s) = Ok admin ->
  let fields := export_fields (ex_fields q) in
  let found := export_where (ex_filters_json q) in
  if bool_decide (fields = []) then does (export d p q) s (Ok InvalidFields) s
  else if negb (export_range (ex_time_range q)) && forallb meaningful found && (0 <=? ex_limit q)%Z then
    let rows := take (Z.to_nat (ex_limit q))
      (export_order fields (List.filter (satisfies false found) (query_log (tables (db_of s))))) in
    exists ct cd body, does (export d p q) s (Ok (Exported ct cd body)) s /\
        if ex_format q =s? "json" then body = to_string_pretty (VArray (map (json_row fields) rows))
        else read_csv body =
               Some (map field_to_label fields :: map (fun r => map (fun f => cell_text (cell f r)) fields) rows)
  else exists e, does (export d p q) s (Ok (ExportFailed e)) s.
Proof.
  intros Hs Hadmin fields found. pose proof (does_AdminUser d p s) as Ha. rewrite Hadmin in Ha.
  unfold export. fold fields. case_bool_decide as Hne.
  { eapply does_bind; [exact Ha|]. apply does_ret. }
  pose proof (export_rows_spec fields q (tables (db_of s))) as Hspec. cbn zeta in Hspec. fold found in Hspec.
  assert (Hq : does (catch (F := AppError) (query (export_rows fields q))) s (Ok (export_rows fields q (tables (db_of s)))) s)
    by (by apply does_catch, does_query).
  destruct (_ && _).
  - rewrite Hspec in Hq.
    destruct (ex_format q =s? "json") eqn:Hfmt; eexists _, _, _.
    all: split; [eapply does_bind; [exact Ha|]; eapply does_bind; [exact Hq|]; apply does_ret|].
    + done.
    + by apply csv_reads, export_fields_known.
  - destruct Hspec as [e He]. exists e. rewrite He in Hq. eapply does_bind; [exact Ha|]. eapply does_bind; [exact Hq|].
    apply does_ret.
Qed.
End query_log.
End QueryLog.

Module QueryLogWitness.
Import AsciiUnicode RefRegex RefJson RefIpNet RefMoka RefRng RefHickory RefResolver RefCrypto RefValue Api AppWitness Conditions QueryLog.

Definition entry (question status : string) (time : N) : QueryLogEntry :=
  {| q_time := time * 1000000000; q_client_ip := lit "10.0.0.2"; q_question := lit question; q_qtype := lit "A";
     q_status := lit status; q_reason := None; q_answer := Some [34; 44; 10]; q_elapsed_ns := 5; q_upstream_ns := None;
     q_upstream_name := None; q_app_id := None |}.
Definition log1 : list QueryLogEntry :=
  [entry "a.com." "blocked" 1; entry "b.com." "allowed" 2; entry "c.com." "cached" 3; entry "d.com." "blocked" 4;
   entry "e.com." "blocked" 5].
Definition t1 : Db := QueryLogWriter.append_rows log1 empty_db.
Definition t2 : Db := QueryLogWriter.append_rows [entry "f.com." "blocked" 6] t1.
Definition params (limit : Z) (cursor : option Z) (status range : option str) : QueryLogParams :=
  {| qp_limit := limit; qp_offset := 0; qp_cursor := cursor; qp_status := status; qp_client := None; qp_domain := None;
     qp_upstream := None; qp_qtype := None; qp_time_range := range |}.
Definition ids (a : option (list LogView)) : option (list Z) := map lv_id <$> a.

Lemma empty_ok : log_ok empty_db.
Proof. repeat split; cbn; try constructor. done. Qed.
Lemma t1_ok : log_ok t1.
Proof. by apply append_ok; [vm_compute; reflexivity|apply empty_ok]. Qed.
Lemma t2_ok : log_ok t2 /\ grown t1 t2.
Proof. apply append_ok; [vm_compute; reflexivity|apply t1_ok]. Qed.
Lemma t1_grown : grown t1 t1.
Proof. exists []. by rewrite app_nil_r. Qed.

(** Entries whose status is not shown can be stored, not asked for. *)
Example stored_status_test :
  map (fun st => is_ok (fst (list_logs today admin (params 2 None (Some (lit st)) None) (app t1)))) ["blocked"; "cached"; "error"]%string
  = [true; false; false].
Proof. vm_compute. reflexivity. Qed.
Example range_export_test :
  match fst (export today admin {| ex_format := lit "csv"; ex_fields := None; ex_limit := 9; ex_filters_json := None;
                                   ex_time_range := Some (lit "1h") |} (app t1)) with
  | Ok a => Some a
  | Err _ => None
  end = Some (ExportFailed SyntaxError).
Proof. vm_compute. reflexivity. Qed.

Lemma log_rows_ok_witness :
  exists t', does (bulk_delete today admin [2; 9; 4; 2]%Z) (app t1) (Ok 2%nat) (with_tables t' (app t1)) /\
    map ql_id (query_log t1) = [1; 2; 3; 4; 5]%Z /\ forall r, r ∈ query_log t' <-> r ∈ query_log t1 /\ ql_id r ∉ [2; 9; 4; 2]%Z.
Proof.
  destruct (log_rows_ok today admin) as (_ & _ & _ & Hdel).
  destruct (Hdel [2; 9; 4; 2]%Z AuthWitness.ann (app t1)) as (t' & Hd & _ & Ht').
  - apply app_works.
  - apply admin_admin.
  - apply t1_ok.
  - exists t'. split; [exact Hd|]. split; [reflexivity|exact Ht'].
Defined.
Lemma cursor_pages_witness :
  ids (follow admin (params 2 None (Some (lit "blocked")) None) 6 [(today, app t1); (today, app t2)]) = Some [5; 4; 1]%Z.
Proof.
  destruct (cursor_pages admin (params 2 None (Some (lit "blocked")) None) None t1 6
    [(today, app t1); (today, app t2)]) as (Hf & _).
  - reflexivity.
  - apply t1_ok.
  - vm_compute. discriminate.
  - intros d s Hin. rewrite !elem_of_cons, elem_of_nil in Hin. destruct Hin as [[= -> ->]|[[= -> ->]|[]]].
    + split; [apply app_works|]. split; [eexists; apply admin_ok|]. split; [reflexivity|]. split; [apply t1_ok|apply t1_grown].
    + split; [apply app_works|]. split; [eexists; apply admin_ok|]. split; [reflexivity|apply t2_ok].
  - vm_compute. discriminate.
  - discriminate.
  - rewrite Hf. vm_compute. reflexivity.
Defined.
Lemma export_correct_witness :
  let q := {| ex_format := lit "csv"; ex_fields := Some (lit "ID, answer,nothing"); ex_limit := 2;
              ex_filters_json := None; ex_time_range := None |} in
  exists ct cd body, does (export today admin q) (app t1) (Ok (Exported ct cd body)) (app t1) /\
    read_csv body = Some [[lit "ID"; [21709; 24212]]; [lit "5"; [34; 44; 10]]; [lit "4"; [34; 44; 10]]].
Proof.
  intros q. pose proof (export_correct today admin AuthWitness.ann q (app t1)) as Hx.
  specialize (Hx (app_works _) (admin_admin _)). destruct Hx as (ct & cd & body & Hd & Hbody).
  exists ct, cd, body. split; [exact Hd|]. etransitivity; [exact Hbody|]. vm_compute. reflexivity.
Defined.
End QueryLogWitness.
