(* ===== verification/QueryFilters.v ===== *)
(** * Filters on the query log: src/api/handlers/query_log_advanced.rs

    [QueryBuilder] turns filters into conditions and bindings; the advanced
    listing, the aggregates, the rankings and the suggestions make statements
    of them.  The release build ends the process on a panic, so a handler can
    also be [Aborted]: a duration of [chrono] that is out of range panics. *)
From S2P Require Import Prelude RustStr IpAddr Regex Rules Acl Moka Hickory Cache Db DbLogic Filter Resolver.
From S2P Require Import UpstreamPool Handler HandlerTests Api App Auth AppTests Listing Tables Groups RulesApi Conditions RuleStats QueryLog.
Local Open Scope N_scope.

Record Filter := { f_field : str; f_operator : str; f_value : Value }.
Record AdvancedQuery := { aq_filters : list Filter; aq_logic : str; aq_limit : Z; aq_offset : Z }.
Record AggregateParams := {
  ag_filters : list Filter; ag_group_by : list str; ag_metric : str; ag_time_bucket : option str; ag_limit : Z }.
Record TopParams := { tp_dimension : str; tp_metric : str; tp_time_range : str; tp_filters : list Filter; tp_limit : Z }.
Record SuggestParams := { su_field : str; su_prefix : str; su_limit : Z }.

(** The parameters of a request, with what a field it leaves out becomes. *)
Module Params.
Definition default_logic : str := lit "AND".
Definition default_limit : Z := 100.
Definition default_metric : str := lit "count".
Definition default_top_limit : Z := 10.
Definition default_time_range : str := lit "-24h".
Definition default_suggest_limit : Z := 10.
(** [group_by] as it comes: a text, a sequence (an element that is no text is
    [None]), or another value. *)
Inductive GroupBy := GroupText (value : str) | GroupSeq (values : list (option str)) | GroupOther.
Definition deserialize_group_by (v : GroupBy) : option (list str) :=
  match v with
  | GroupText value => Some [value]
  | GroupSeq values => mapM (fun value => value) values
  | GroupOther => None
  end.
Definition advanced_query (filters : option (list Filter)) (logic : option str) (limit offset : option Z) : AdvancedQuery :=
  {| aq_filters := default [] filters; aq_logic := default default_logic logic; aq_limit := default default_limit limit;
     aq_offset := default 0%Z offset |}.
Definition aggregate_params (filters : option (list Filter)) (group_by : option GroupBy) (metric time_bucket : option str)
    (limit : option Z) : option AggregateParams :=
  (fun g => {| ag_filters := default [] filters; ag_group_by := g; ag_metric := default default_metric metric;
               ag_time_bucket := time_bucket; ag_limit := default default_top_limit limit |})
  <$> match group_by with Some g => deserialize_group_by g | None => Some [] end.
Definition top_params (dimension : str) (metric time_range : option str) (filters : option (list Filter)) (limit : option Z) : TopParams :=
  {| tp_dimension := dimension; tp_metric := default default_metric metric; tp_time_range := default default_time_range time_range;
     tp_filters := default [] filters; tp_limit := default default_top_limit limit |}.
Definition suggest_params (field prefix : str) (limit : option Z) : SuggestParams :=
  {| su_field := field; su_prefix := prefix; su_limit := default default_suggest_limit limit |}.
Example params_test :
  (ag_group_by <$> aggregate_params None (Some (GroupText (lit "domain"))) None None None,
   ag_group_by <$> aggregate_params None (Some (GroupSeq [Some (lit "domain"); Some (lit "qtype")])) None None None,
   ag_limit <$> aggregate_params None (Some (GroupSeq [None])) None None None)
  = (Some [lit "domain"], Some [lit "domain"; lit "qtype"], None).
Proof. reflexivity. Qed.
End Params.

(** [DateTime::to_rfc3339] of a number of seconds, and the texts of errors. *)
Class Chrono := { to_rfc3339 : Z -> str }.
Class ErrorText := { error_text : DbError -> str }.
(** [AVG] of a column as the server rounds it, in a unit common to all. *)
Class SqlAvg := { average : list Z -> Z }.

(** What a request comes to when it does not answer. *)
Inductive Failure := Refused (e : Api.AppError) | Aborted.

Module QueryFilters.
Section filters.
Context `{RustUnicode, RegexEngine, SerdeJson, Collation, IpNetCrate, Moka, Rng,
  Hickory, !HickoryResolver, !DnsCodec, Jwt, SqlTime, Chrono, ErrorText, SqlAvg, GroupOrder}.
Import Api Conditions.

Definition invalid (text : str) : Failure := Refused (Validation text).

(** ** Relative times *)

(** The bounds of [chrono]: a duration has less than [2^63] milliseconds, a
    time lies in the years -262143 to 262142. *)
Definition MAX_SECS : Z := 9223372036854775.
Definition MIN_UTC : Z := -8334601315200.
Definition MAX_UTC : Z := 8210266876799.
(** [now - Duration::hours(n)] and the like *)
Definition ago (now : N) (n unit : Z) : result Z Failure :=
  let secs := (n * unit)%Z in
  if (Z.abs secs <=? MAX_SECS)%Z then
    let start := (Z.of_N now - secs)%Z in
    if ((MIN_UTC <=? start) && (start <=? MAX_UTC))%Z then Ok start else Err Aborted
  else Err Aborted.
(** [i64::abs], wrapping *)
Definition abs_i64 (n : Z) : Z := Groups.wrap_i64 (Z.abs n).
Definition invalid_relative (duration : str) : Failure := invalid (lit "Invalid relative time format: " ++ duration).
Definition parse_relative_time (now : N) (duration : str) : result (Z * Z) Failure :=
  match parse_i64 (take_while (fun c => is_ascii_digit c || (c =? 45)) duration) with
  | None => Err (invalid_relative duration)
  | Some num =>
      match last duration with
      | None => Err (invalid (lit "Missing time unit"))
      | Some unit =>
          try! start :=
            (if unit =? 104 then ago now (abs_i64 num) 3600
             else if unit =? 100 then ago now (abs_i64 num) 86400
             else if unit =? 119 then ago now (abs_i64 num) 604800
             else if unit =? 77 then ago now (Groups.wrap_i64 (abs_i64 num * 30)) 86400
             else Err (invalid (lit "Unsupported time unit: " ++ [unit]))) in
          Ok (start, Z.of_N now)
      end
  end.

(** ** QueryBuilder *)

(** The conditions with the values each of them adds to the bindings. *)
Definition QueryBuilder : Type := list (Cond * list Value).
Definition qb_conditions (b : QueryBuilder) : list Cond := map fst b.
Definition qb_bindings (b : QueryBuilder) : list Value := flat_map snd b.

Definition order_op (op : str) : option Op :=
  if op =s? "gt" then Some Gt else if op =s? "lt" then Some Lt
  else if op =s? "gte" then Some Gte else if op =s? "lte" then Some Lte else None.
Definition number_op (op : str) : option Op := if op =s? "eq" then Some Eq else order_op op.
Definition like_column (field : str) : option Column :=
  if field =s? "question" then Some Question else if field =s? "answer" then Some Answer
  else if field =s? "client_name" then Some ClientName else if field =s? "upstream" then Some Upstream else None.
Definition enum_column (field : str) : option Column :=
  if field =s? "status" then Some Status else if field =s? "qtype" then Some Qtype else None.
Definition pattern_of (value : Value) : Value := VString (Listing.search_pattern (default [] (as_str value))).

Definition Piece : Type := option (Cond * list Value).
Definition time_filter (now : N) (operator : str) (value : Value) : result Piece Failure :=
  if operator =s? "between" then
    match as_array value with
    | None => Err (invalid (lit "time between requires array"))
    | Some [a; b] => Ok (Some (TimeBetween, [a; b]))
    | Some _ => Err (invalid (lit "time between requires exactly 2 values"))
    end
  else match order_op operator with
  | Some o => Ok (Some (TimeIs o, [value]))
  | None =>
      if operator =s? "relative" then
        match as_str value with
        | None => Err (invalid (lit "relative time is string"))
        | Some duration =>
            try! range := parse_relative_time now duration in
            Ok (Some (TimeBetween, [VString (to_rfc3339 (fst range)); VString (to_rfc3339 (snd range))]))
        end
      else Ok None
  end.
Definition enum_filter (c : Column) (operator : str) (value : Value) : result Piece Failure :=
  if operator =s? "eq" then Ok (Some (Equals c, [value]))
  else if operator =s? "in" then
    match as_array value with
    | None => Err (invalid (lit "in operator requires array"))
    | Some arr => Ok (Some (In c (length arr), arr))
    end
  else Ok None.
(** Milliseconds become nanoseconds without a check. *)
Definition elapsed_filter (ms : bool) (operator : str) (value : Value) : result Piece Failure :=
  match number_op operator with
  | None => Ok None
  | Some o =>
      match as_i64 value with
      | None => Err (invalid ((if ms then lit "elapsed_ms" else lit "elapsed_ns") ++ lit " must be a number"))
      | Some n => Ok (Some (ElapsedIs o, [json_i64 (if ms then Groups.wrap_i64 (n * 1000000) else n)]))
      end
  end.
Definition reason_filter (operator : str) (value : Value) : result Piece Failure :=
  if operator =s? "eq" then Ok (Some (Equals Reason, [VString (default [] (as_str value))]))
  else if operator =s? "like" then Ok (Some (Like Reason, [pattern_of value]))
  else Ok None.
(** The piece of a filter; none for a field or an operator that is not
    supported. *)
Definition piece (now : N) (f : Filter) : result Piece Failure :=
  let '{| f_field := field; f_operator := operator; f_value := value |} := f in
  if field =s? "time" then time_filter now operator value
  else match (if operator =s? "like" then like_column field else None) with
  | Some c => Ok (Some (Like c, [pattern_of value]))
  | None =>
      match enum_column field with
      | Some c => enum_filter c operator value
      | None =>
          if field =s? "elapsed_ms" then elapsed_filter true operator value
          else if field =s? "elapsed_ns" then elapsed_filter false operator value
          else if field =s? "reason" then reason_filter operator value
          else Ok None
      end
  end.
Definition add_filter (now : N) (b : QueryBuilder) (f : Filter) : result QueryBuilder Failure :=
  try! o := piece now f in Ok (b ++ match o with Some x => [x] | None => [] end).
Fixpoint add_filters (now : N) (b : QueryBuilder) (fs : list Filter) : result QueryBuilder Failure :=
  match fs with
  | [] => Ok b
  | f :: fs' => try! b' := add_filter now b f in add_filters now b' fs'
  end.

(** [logic.to_uppercase() == "OR"] *)
Definition is_or (logic : str) : bool := bool_decide (logic ∈ [lit "or"; lit "oR"; lit "Or"; lit "OR"]).
Definition connector (any : bool) : string := if any then " OR " else " AND ".
Definition pg_numbered : str -> option str := RulesApi.pg_numbered.
(** The text of the statement before its parameters are numbered. *)
Definition build_text (any : bool) (b : QueryBuilder) : str :=
  lit "SELECT id, time::text as time, client_ip, client_name, question, qtype, answer, status, reason, upstream, elapsed_ns
             FROM query_log " ++ where_text (connector any) (qb_conditions b) ++ lit " ORDER BY time DESC LIMIT ? OFFSET ?".
Definition build (b : QueryBuilder) (logic : str) (limit offset : Z) : option str * list Value :=
  (pg_numbered (build_text (is_or logic) b), qb_bindings b ++ [json_i64 limit; json_i64 offset]).
(** What the statement of [build] gives. *)
Definition run_build (any : bool) (b : QueryBuilder) (limit offset : Z) (t : Db) : result (list QueryLogRow) DbError :=
  try! sel := select_where any (qb_conditions b) (bind_values (qb_bindings b ++ [json_i64 limit; json_i64 offset])) t in
  limit_offset (snd sel) (Listing.order_desc QueryLog.time_text (fst sel)).
(** ** The handlers *)

Definition user (d : Draws) (p : Parts) : M App Failure Claims := mmap_err Refused (AuthUser d p).
Definition statement {A} (q : Db -> result A DbError) : M App Failure A := mmap_err Refused (db (query q)).

Record AdvancedView := {
  av_id : Z; av_time : str; av_client_ip : str; av_client_name : option str; av_question : str; av_qtype : str;
  av_answer : option str; av_status : str; av_reason : option str; av_upstream : option str; av_elapsed_ns : option Z }.
Definition advanced_view (r : QueryLogRow) : AdvancedView :=
  {| av_id := ql_id r; av_time := QueryLog.time_text r; av_client_ip := q_client_ip r; av_client_name := ql_client_name r;
     av_question := q_question r; av_qtype := q_qtype r; av_answer := q_answer r; av_status := q_status r;
     av_reason := q_reason r; av_upstream := q_upstream_name r; av_elapsed_ns := Some (q_elapsed_ns r) |}.
Record AdvancedAnswer := {
  aa_data : list AdvancedView; aa_total : nat; aa_returned : nat; aa_offset : Z; aa_limit : Z }.
(** The statement that counts is sent as it was written, without numbers. *)
Definition count_filtered (any : bool) (b : QueryBuilder) (t : Db) : result nat DbError :=
  try! rows := unnumbered any (qb_conditions b) t in Ok (length rows).
(** The bodies of the two handlers are the same. *)
Definition advanced (d : Draws) (p : Parts) (q : AdvancedQuery) : M App Failure AdvancedAnswer :=
  user d p ;;;
  let limit := QueryLog.clamp_limit (aq_limit q) in
  let! builder := lift (add_filters (d_utc d) [] (aq_filters q)) in
  let any := is_or (aq_logic q) in
  let! total := statement (count_filtered any builder) in
  let! rows := statement (run_build any builder limit (aq_offset q)) in
  ret {| aa_data := map advanced_view rows; aa_total := total; aa_returned := length rows;
         aa_offset := aq_offset q; aa_limit := limit |}.
Definition list_advanced : Draws -> Parts -> AdvancedQuery -> M App Failure AdvancedAnswer := advanced.
Definition list_advanced_post : Draws -> Parts -> AdvancedQuery -> M App Failure AdvancedAnswer := advanced.

(** *** Aggregates *)

Inductive Metric := MCount | MSum | MAvg.
Definition metric_of (metric : str) : Metric :=
  if metric =s? "sum_elapsed_ms" then MSum else if metric =s? "avg_elapsed_ms" then MAvg else MCount.
Definition elapsed (rows : list QueryLogRow) : list Z := map (fun r : QueryLogRow => q_elapsed_ns r) rows.
Definition metric_value (m : Metric) (rows : list QueryLogRow) : Z :=
  match m with
  | MCount => Z.of_nat (length rows)
  | MSum => foldr Z.add 0%Z (elapsed rows)
  | MAvg => average (elapsed rows)
  end.
(** A sum and an average of a [BIGINT] are [NUMERIC], which does not decode
    as an [i64]. *)
Definition decode_metric (m : Metric) (rows : list QueryLogRow) : result Z DbError :=
  match m with MCount => Ok (metric_value MCount rows) | MSum | MAvg => Err ColumnDecode end.

Definition group_column (field : str) : option Column :=
  if field =s? "client_ip" then Some ClientIp else if field =s? "client_name" then Some ClientName
  else if field =s? "question" then Some Question else if field =s? "qtype" then Some Qtype
  else if field =s? "status" then Some Status else if field =s? "upstream" then Some Upstream
  else if field =s? "reason" then Some Reason else None.
(** [{:?}] of the array *)
Definition valid_fields : str :=
  lit "[" ++ join (lit ", ") (map (fun f => 34 :: lit f ++ [34])
    ["client_ip"; "client_name"; "question"; "qtype"; "status"; "upstream"; "reason"]%string) ++ lit "]".
Fixpoint group_columns (fields : list str) : result (list Column) Failure :=
  match fields with
  | [] => Ok []
  | field :: fields' =>
      match group_column field with
      | None => Err (invalid (lit "Invalid group_by field: " ++ field ++ lit ". Valid fields: " ++ valid_fields))
      | Some c => try! cs := group_columns fields' in Ok (c :: cs)
      end
  end.
Definition key_of (cs : list Column) (r : QueryLogRow) : list (option str) := map (fun c => text_of c r) cs.
Definition of_key (cs : list Column) (k : list (option str)) (rows : list QueryLogRow) : list QueryLogRow :=
  List.filter (fun r => bool_decide (key_of cs r = k)) rows.
(** [GROUP BY .. ORDER BY metric DESC] *)
Definition grouped (cs : list Column) (m : Metric) (rows : list QueryLogRow) : list (list (option str) * Z) :=
  sort_by_key (fun g => - snd g)%Z
    (map (fun k => (k, metric_value m (of_key cs k rows))) (arrange (remove_dups (map (key_of cs) rows)))).
(** The objects: a metric that does not decode is 0. *)
Definition group_view (fields : list str) (m : Metric) (g : list (option str) * Z) : gmap str (option str) * Z :=
  (list_to_map (zip fields (fst g)), match m with MCount => snd g | _ => 0%Z end).
Definition run_groups (cs : list Column) (m : Metric) (b : QueryBuilder) (limit : Z) (t : Db) :
  result (list (list (option str) * Z)) DbError :=
  try! sel := select_where false (qb_conditions b) (bind_values (qb_bindings b) ++ [PInt limit]) t in
  limit_only (snd sel) (grouped cs m (fst sel)).
Inductive AggregateAnswer :=
| Whole (metric : Z)
| Grouped (rows : list (gmap str (option str) * Z)).
Definition aggregate (d : Draws) (p : Parts) (q : AggregateParams) : M App Failure AggregateAnswer :=
  user d p ;;;
  let! builder := lift (add_filters (d_utc d) [] (ag_filters q)) in
  let m := metric_of (ag_metric q) in
  if bool_decide (ag_group_by q = []) then
    let! metric := statement (fun t => try! rows := unnumbered false (qb_conditions builder) t in decode_metric m rows) in
    ret (Whole metric)
  else
    let! cs := lift (group_columns (ag_group_by q)) in
    let! rows := statement (run_groups cs m builder (ag_limit q)) in
    ret (Grouped (map (group_view (ag_group_by q) m) rows)).

(** *** Rankings *)

Definition top_column (dimension : str) : option Column :=
  if dimension =s? "domain" then Some Question else if dimension =s? "client" then Some ClientIp
  else if dimension =s? "qtype" then Some Qtype else if dimension =s? "upstream" then Some Upstream else None.
Fixpoint decode_values (l : list (list (option str) * Z)) : result (list (str * Z)) DbError :=
  match l with
  | [] => Ok []
  | ([Some v], n) :: l' => try! rest := decode_values l' in Ok ((v, n) :: rest)
  | _ => Err ColumnDecode
  end.
Definition run_top (c : Column) (start stop : str) (limit : Z) (t : Db) : result (list (str * Z)) DbError :=
  try! sel := select_where false [TimeBetween] [PText start; PText stop; PInt limit] t in
  try! rows := limit_only (snd sel) (grouped [c] MCount (fst sel)) in decode_values rows.
Definition top (d : Draws) (p : Parts) (q : TopParams) : M App Failure (str * list (str * Z)) :=
  user d p ;;;
  let! range := lift (parse_relative_time (d_utc d) (tp_time_range q)) in
  match top_column (tp_dimension q) with
  | None => fail (invalid (lit "Invalid dimension: " ++ tp_dimension q))
  | Some c =>
      let! rows := statement (run_top c (to_rfc3339 (fst range)) (to_rfc3339 (snd range)) (tp_limit q)) in
      ret (lit "top_" ++ tp_dimension q, rows)
  end.

(** *** Suggestions *)

Definition suggest_column (field : str) : option Column :=
  if field =s? "question" then Some Question else if field =s? "client_ip" then Some ClientIp
  else if field =s? "client_name" then Some ClientName else if field =s? "upstream" then Some Upstream else None.
Definition starting_with (prefix : str) : str := prefix ++ [37].
(** A pattern cannot end in a single backslash; [SELECT DISTINCT] cannot be
    ordered by what it does not select, and a time does not compare with a
    text. *)
Definition run_suggest (c : Column) (prefix since : str) (limit : Z) (t : Db) : result (list str) DbError :=
  try! sel := select_where false [Like c; TimeIs Gte] [PText (starting_with prefix); PText since; PInt limit] t in
  Err SyntaxError.
Definition SuggestCache : Type := gmap str (list str).
Definition suggest_key (q : SuggestParams) : str := su_field q ++ lit ":" ++ su_prefix q ++ lit ":" ++ show_Z (su_limit q).
(** [try_get_with]: an entry, or the statement, whose rows become one. *)
Definition suggest (d : Draws) (p : Parts) (q : SuggestParams) (cache : SuggestCache) :
  M App Failure (list str * SuggestCache) :=
  user d p ;;;
  match suggest_column (su_field q) with
  | None => fail (invalid (lit "Invalid field: " ++ su_field q))
  | Some c =>
      match cache !! suggest_key q with
      | Some suggestions => ret (suggestions, cache)
      | None =>
          let since := to_rfc3339 (Z.of_N (d_utc d) - 30 * 86400) in
          let! r := catch (query (run_suggest c (su_prefix q) since (su_limit q))) in
          match r with
          | Ok suggestions => ret (suggestions, <[suggest_key q := suggestions]> cache)
          | Err e => fail (Refused (Internal (lit "Database error: " ++ error_text e)))
          end
      end
  end.
(** ** What filters mean *)

(** The comparisons, by the names the requests use. *)
Inductive Compares : str -> (Z -> Z -> Prop) -> Prop :=
| compares_eq : Compares (lit "eq") eq
| compares_gt : Compares (lit "gt") Z.gt
| compares_lt : Compares (lit "lt") Z.lt
| compares_gte : Compares (lit "gte") Z.ge
| compares_lte : Compares (lit "lte") Z.le.
(** The meaning of the filters with a value of the right kind. *)
Inductive Means : Filter -> (QueryLogRow -> Prop) -> Prop :=
| means_eq field c v : enum_column field = Some c ->
    Means {| f_field := field; f_operator := lit "eq"; f_value := VString v |} (fun r => text_of c r = Some v)
| means_in field c vs : enum_column field = Some c -> vs <> [] ->
    Means {| f_field := field; f_operator := lit "in"; f_value := VArray (map VString vs) |}
      (fun r => exists v, v ∈ vs /\ text_of c r = Some v)
| means_like field c v : like_column field = Some c -> Listing.plain v = true ->
    Means {| f_field := field; f_operator := lit "like"; f_value := VString v |}
      (fun r => exists text, text_of c r = Some text /\ Listing.contains text v)
| means_ns op rel n : Compares op rel -> in_i64 n = true ->
    Means {| f_field := lit "elapsed_ns"; f_operator := op; f_value := json_i64 n |}
      (fun r => rel (q_elapsed_ns r) n)
| means_ms op rel n : Compares op rel -> in_i64 (n * 1000000) = true ->
    Means {| f_field := lit "elapsed_ms"; f_operator := op; f_value := json_i64 n |}
      (fun r => rel (q_elapsed_ns r) (n * 1000000)%Z)
| means_reason v :
    Means {| f_field := lit "reason"; f_operator := lit "eq"; f_value := VString v |} (fun r => q_reason r = Some v)
| means_reason_like v : Listing.plain v = true ->
    Means {| f_field := lit "reason"; f_operator := lit "like"; f_value := VString v |}
      (fun r => exists text, q_reason r = Some text /\ Listing.contains text v).

Definition right_piece (x : Cond * list Value) (P : QueryLogRow -> Prop) : Prop :=
  meaningful x = true /\ forall r, holds x r = true <-> P r.

Lemma wrap_id z : in_i64 z = true -> Groups.wrap_i64 z = z.
Proof. unfold in_i64, Groups.wrap_i64. intros Hz. split_bools. rewrite Z.mod_small; lia. Qed.
Lemma equals_piece c v : right_piece (Equals c, [VString v]) (fun r => text_of c r = Some v).
Proof.
  split; [done|]. intros r. unfold holds. cbn. unfold equals, text_eq. destruct (text_of c r) as [t|]; [|done].
  rewrite str_eqb_eq. split; congruence.
Qed.
Lemma like_piece c v : Listing.plain v = true ->
  right_piece (Like c, [pattern_of (VString v)]) (fun r => exists text, text_of c r = Some text /\ Listing.contains text v).
Proof.
  intros Hv. split; [done|]. intros r. unfold holds. cbn -[Listing.like Listing.search_pattern]. destruct (text_of c r) as [t|].
  - cbn [Listing.opt_like]. rewrite Listing.like_contains by done. split; [by eexists|]. by intros (t' & [= <-] & Ht).
  - split; [done|]. by intros (t' & ? & _).
Qed.
Lemma compares_op op rel : Compares op rel ->
  exists o, number_op op = Some o /\ forall x y, int_test o x y = true <-> rel x y.
Proof.
  intros []; [exists Eq|exists Gt|exists Lt|exists Gte|exists Lte]; (split; [done|]; intros x y; cbn; lia).
Qed.
Lemma elapsed_piece o (rel : Z -> Z -> Prop) n : (forall x y, int_test o x y = true <-> rel x y) -> in_i64 n = true ->
  right_piece (ElapsedIs o, [json_i64 n]) (fun r => rel (q_elapsed_ns r) n).
Proof.
  intros Hrel Hn. assert (Hb : bind_values [json_i64 n] = [PInt n]).
  { unfold bind_values. cbn [flat_map]. change (bind_value (json_i64 n)) with [PInt (default 0%Z (as_i64 (json_i64 n)))].
    by rewrite as_i64_json. }
  split; [|intros r]; unfold meaningful, holds, meaning; cbn [fst snd]; rewrite Hb; [done|apply Hrel].
Qed.
Lemma in_piece c vs : vs <> [] ->
  right_piece (In c (length (map VString vs)), map VString vs) (fun r => exists v, v ∈ vs /\ text_of c r = Some v).
Proof.
  intros Hne. assert (Hb : bind_values (map VString vs) = map PText vs).
  { clear. unfold bind_values. induction vs as [|v vs IH]; [done|]. cbn [map flat_map bind_value app]. by rewrite IH. }
  assert (Hone : exists t, one_of c (map PText vs) = Ok t /\ forall r, t r = true <-> exists v, v ∈ vs /\ text_of c r = Some v).
  { clear. induction vs as [|v vs (t & Ht & Hr)]; cbn [map one_of].
    - exists (fun _ => false). split; [done|]. intros r. split; [done|]. by intros (v & Hv%not_elem_of_nil & _).
    - cbn [on_text]. rewrite Ht. eexists. split; [done|]. intros r. cbn beta. rewrite orb_true_iff, Hr.
      unfold equals, text_eq. split.
      + intros [Hv|(w & Hw & Hc)]; [|exists w; split; [by right|done]].
        destruct (text_of c r) as [x|]; [|done]. apply str_eqb_eq in Hv as ->. exists v. split; [by left|done].
      + intros (w & [->|Hw]%elem_of_cons & Hc); [left; rewrite Hc; apply str_eqb_refl|right; by exists w]. }
  destruct Hone as (t & Ht & Hr). destruct vs as [|v vs]; [done|].
  assert (Hm : meaning (In c (length (map VString (v :: vs))), map VString (v :: vs)) = Ok t).
  { unfold meaning. cbn [fst snd]. rewrite Hb. cbn [holes]. rewrite !length_map, Nat.eqb_refl. exact Ht. }
  split; [unfold meaningful; by rewrite Hm|]. intros r. unfold holds. rewrite Hm. apply Hr.
Qed.

Lemma enum_column_name field c : enum_column field = Some c -> field = lit "status" \/ field = lit "qtype".
Proof.
  unfold enum_column. destruct (str_eqb field (lit "status")) eqn:Hs; [apply str_eqb_eq in Hs; by left|].
  destruct (str_eqb field (lit "qtype")) eqn:Hq; [apply str_eqb_eq in Hq; by right|done].
Qed.
Lemma like_column_name field c : like_column field = Some c ->
  field ∈ [lit "question"; lit "answer"; lit "client_name"; lit "upstream"].
Proof.
  unfold like_column. rewrite !elem_of_cons.
  destruct (str_eqb field (lit "question")) eqn:H1'; [apply str_eqb_eq in H1'; tauto|].
  destruct (str_eqb field (lit "answer")) eqn:H2'; [apply str_eqb_eq in H2'; tauto|].
  destruct (str_eqb field (lit "client_name")) eqn:H3'; [apply str_eqb_eq in H3'; tauto|].
  destruct (str_eqb field (lit "upstream")) eqn:H4'; [apply str_eqb_eq in H4'; tauto|done].
Qed.
Lemma number_op_name op o : number_op op = Some o -> (op =s? "like") = false.
Proof.
  intros Ho. destruct (str_eqb op (lit "like")) eqn:Hl; [|done]. apply str_eqb_eq in Hl. by rewrite Hl in Ho.
Qed.
Lemma piece_means now f P : Means f P -> exists x, piece now f = Ok (Some x) /\ right_piece x P.
Proof.
  intros [field c v Hc|field c vs Hc Hne|field c v Hc Hv|op rel n Hop Hn|op rel n Hop Hn|v|v Hv].
  - exists (Equals c, [VString v]). split; [|apply equals_piece].
    destruct (enum_column_name field c Hc) as [->| ->]; injection Hc as <-; reflexivity.
  - exists (In c (length (map VString vs)), map VString vs). split; [|by apply in_piece].
    destruct (enum_column_name field c Hc) as [->| ->]; injection Hc as <-; reflexivity.
  - exists (Like c, [pattern_of (VString v)]). split; [|by apply like_piece].
    pose proof (like_column_name field c Hc) as Hf. rewrite !elem_of_cons, elem_of_nil in Hf.
    destruct Hf as [->|[->|[->|[->|[]]]]]; injection Hc as <-; reflexivity.
  - destruct (compares_op op rel Hop) as (o & Ho & Hrel). exists (ElapsedIs o, [json_i64 n]). split; [|by apply elapsed_piece]. unfold piece.
    change (lit "elapsed_ns" =s? "time") with false. rewrite (number_op_name op o Ho). cbn iota.
    change (enum_column (lit "elapsed_ns")) with (@None Column). change (lit "elapsed_ns" =s? "elapsed_ms") with false.
    change (lit "elapsed_ns" =s? "elapsed_ns") with true. cbn iota. unfold elapsed_filter. by rewrite Ho, as_i64_json.
  - destruct (compares_op op rel Hop) as (o & Ho & Hrel). exists (ElapsedIs o, [json_i64 (n * 1000000)]). split; [|by apply elapsed_piece]. unfold piece.
    change (lit "elapsed_ms" =s? "time") with false. rewrite (number_op_name op o Ho). cbn iota.
    change (enum_column (lit "elapsed_ms")) with (@None Column). change (lit "elapsed_ms" =s? "elapsed_ms") with true.
    cbn iota. unfold elapsed_filter. rewrite Ho, as_i64_json by (unfold in_i64 in *; split_bools; lia). by rewrite wrap_id.
  - exists (Equals Reason, [VString v]). split; [done|]. apply (equals_piece Reason v).
  - exists (Like Reason, [pattern_of (VString v)]). split; [done|]. by apply (like_piece Reason v).
Qed.
Lemma piece_filled now f x : piece now f = Ok (Some x) -> filled x.
Proof.
  destruct f as [field op value]. unfold piece, time_filter, enum_filter, elapsed_filter, reason_filter. intros Hx.
  repeat match type of Hx with
  | (if ?b then _ else _) = _ => destruct b
  | match ?o with _ => _ end = _ => destruct o
  end; try discriminate; injection Hx as <-; reflexivity.
Qed.
Lemma add_filters_filled now fs b b' : Forall filled b -> add_filters now b fs = Ok b' -> Forall filled b'.
Proof.
  revert b. induction fs as [|f fs IH]; intros b Hb; cbn [add_filters]; [by intros [= <-]|]. unfold add_filter.
  destruct (piece now f) as [[x|]|e] eqn:Hx; [| |done].
  - apply IH, Forall_app. split; [done|]. apply piece_filled in Hx. by constructor.
  - apply IH. by rewrite app_nil_r.
Qed.
Lemma add_filters_means now fs Ps b : Forall2 Means fs Ps ->
  exists b', add_filters now b fs = Ok (b ++ b') /\ Forall2 right_piece b' Ps.
Proof.
  intros Hfs. revert b. induction Hfs as [|f P fs Ps Hf Hfs IH]; intros b; cbn [add_filters].
  - exists []. by rewrite app_nil_r.
  - destruct (piece_means now f P Hf) as (x & Hx & Hr). unfold add_filter. rewrite Hx.
    destruct (IH (b ++ [x])) as (b' & -> & Hb'). exists (x :: b'). rewrite <- app_assoc. split; [done|]. by constructor.
Qed.

(** *** The parameters of the text *)

Definition marks (s : str) : nat := length (List.filter (N.eqb 63) s).
Lemma marks_app a b : marks (a ++ b) = (marks a + marks b)%nat.
Proof. unfold marks. by rewrite List.filter_app, length_app. Qed.
Lemma split_marks s : length (split s 63) = S (marks s).
Proof.
  unfold split, marks. induction s as [|c s IH]; [done|]. cbn [split_by List.filter]. destruct (63 =? c); cbn [length].
  - by rewrite IH.
  - destruct (split_by (N.eqb 63) s); done.
Qed.
Lemma cond_marks c : marks (cond_text c) = holes c.
Proof.
  destruct c as [c|c|c n|o|o|]; try (destruct c; reflexivity); try (destruct o; reflexivity); [|reflexivity].
  cbn [cond_text holes]. rewrite !marks_app.
  assert (marks (column_name c) = 0%nat) as -> by (destruct c; reflexivity).
  assert (marks (join (lit ",") (repeat (lit "?") n)) = n) as ->; [|change (marks (lit " IN (")) with 0%nat; change (marks (lit ")")) with 0%nat; lia].
  induction n as [|n IH]; [done|]. cbn [repeat]. destruct (repeat (lit "?") n) as [|w ws] eqn:Hr.
  - destruct n; [done|discriminate].
  - change (join (lit ",") (lit "?" :: w :: ws)) with (lit "?" ++ lit "," ++ join (lit ",") (w :: ws)).
    rewrite !marks_app, IH. change (marks (lit "?")) with 1%nat. change (marks (lit ",")) with 0%nat. lia.
Qed.
Lemma join_marks any l : Forall filled l ->
  marks (join (lit (connector any)) (map cond_text (map fst l))) = length (flat_map snd l).
Proof.
  induction 1 as [|y l Hy Hl IH]; [done|]. cbn [map flat_map]. rewrite length_app. unfold filled in Hy. rewrite Hy, <- cond_marks.
  destruct l as [|z l]; [cbn [map join flat_map length]; lia|]. cbn [map] in *.
  change (join (lit (connector any)) (cond_text (fst y) :: cond_text (fst z) :: map cond_text (map fst l))) with
    (cond_text (fst y) ++ lit (connector any) ++ join (lit (connector any)) (cond_text (fst z) :: map cond_text (map fst l))).
  rewrite !marks_app, IH. assert (marks (lit (connector any)) = 0%nat) as -> by (destruct any; reflexivity). done.
Qed.
Lemma where_marks any b : Forall filled b -> marks (where_text (connector any) (qb_conditions b)) = length (qb_bindings b).
Proof.
  intros Hb. unfold qb_bindings. rewrite <- (join_marks any b Hb). unfold where_text, qb_conditions. destruct b as [|x b]; [done|].
  cbn [map]. cbn iota. rewrite marks_app. change (marks (lit "WHERE ")) with 0%nat. done.
Qed.
Lemma build_pieces b logic limit offset : Forall filled b ->
  exists pieces, fst (build b logic limit offset) = Some (RulesApi.number_pieces 1 pieces) /\
    join [63] pieces = build_text (is_or logic) b /\ length pieces = S (length (snd (build b logic limit offset))).
Proof.
  intros Hb. exists (split (build_text (is_or logic) b) 63). split; [|split; [apply join_split|]].
  - apply (RulesApi.pg_loop_pieces _ 0 []); [apply not_elem_of_nil|done].
  - rewrite split_marks. unfold build, build_text. cbn [snd]. rewrite !marks_app, where_marks, length_app by done.
    f_equal.
Qed.

Lemma run_build_spec any b limit offset t :
  Forall filled b -> in_i64 limit = true -> in_i64 offset = true ->
  if forallb meaningful b && ((0 <=? limit) && (0 <=? offset))%Z
  then run_build any b limit offset t =
         Ok (Listing.limit limit offset (Listing.order_desc QueryLog.time_text (List.filter (satisfies any b) (query_log t))))
  else exists e, run_build any b limit offset t = Err e.
Proof.
  intros Hb Hl Ho. unfold run_build, qb_conditions, qb_bindings. rewrite bind_values_app.
  assert (bind_values [json_i64 limit; json_i64 offset] = [PInt limit; PInt offset]) as ->.
  { unfold bind_values. cbn [flat_map]. unfold bind_value, json_i64 at 1. cbn iota.
    change (VNumber (show_Z limit)) with (json_i64 limit). change (VNumber (show_Z offset)) with (json_i64 offset).
    by rewrite !as_i64_json. }
  pose proof (select_where_spec any b [PInt limit; PInt offset] t Hb) as Hsel. destruct (forallb meaningful b); cbn [andb].
  - rewrite Hsel. cbn [fst snd limit_offset]. rewrite !Z.leb_antisym.
    destruct (limit <? 0)%Z; cbn [negb andb orb]; [by eexists|]. destruct (offset <? 0)%Z; cbn [negb]; [by eexists|done].
  - destruct (select_where _ _ _ _) as [[rows rest]|e]; [|by eexists]. cbn [fst snd]. cbn [length] in Hsel.
    destruct rest as [|x [|y rest]]; [by eexists|by destruct x; eexists|]. cbn [length] in Hsel. lia.
Qed.
Lemma pieces_meaning b Ps any r : Forall2 right_piece b Ps ->
  satisfies any b r = true <->
  match Ps with [] => True | _ => if any then Exists (fun P => P r) Ps else Forall (fun P => P r) Ps end.
Proof.
  intros Hb. unfold satisfies. destruct Hb as [|x P b Ps Hx Hb]; [done|].
  assert (Hall : Forall2 right_piece (x :: b) (P :: Ps)) by by constructor. revert Hall. clear.
  generalize (x :: b) (P :: Ps). intros l Qs Hall. destruct any.
  - induction Hall as [|y Q l Qs [_ Hy] Hl IH]; cbn [existsb]; [by rewrite Exists_nil|].
    by rewrite orb_true_iff, Hy, IH, Exists_cons.
  - induction Hall as [|y Q l Qs [_ Hy] Hl IH]; cbn [forallb]; [by rewrite Forall_nil|].
    by rewrite andb_true_iff, Hy, IH, Forall_cons.
Qed.
Lemma pieces_meaningful b Ps : Forall2 right_piece b Ps -> forallb meaningful b = true.
Proof. induction 1 as [|x P b Ps [Hx _] Hb IH]; [done|]. cbn [forallb]. by rewrite Hx, IH. Qed.

(** C33: The statement the builder makes of filters selects what the filters
    say.  For filters with values of the right kind, joined by AND or OR, the
    text has one parameter for every value bound to it, numbered in their
    order, and none of the values is part of the text; the rows are the page
    of the rows of the log that satisfy all, or any, of the filters: equality,
    membership, containment, and comparisons of the elapsed time in
    nanoseconds, or in milliseconds as long as the product fits 64 bits. *)
Theorem filters_select now fs Ps logic limit offset t :
  Forall2 Means fs Ps -> in_i64 limit = true -> in_i64 offset = true -> (0 <= limit)%Z -> (0 <= offset)%Z ->
  exists b, add_filters now [] fs = Ok b /\
    (exists pieces, fst (build b logic limit offset) = Some (RulesApi.number_pieces 1 pieces) /\
       join [63] pieces = build_text (is_or logic) b /\ length pieces = S (length (snd (build b logic limit offset)))) /\
    exists selected,
      (forall r, selected r = true <->
         match Ps with [] => True | _ => if is_or logic then Exists (fun P => P r) Ps else Forall (fun P => P r) Ps end) /\
      run_build (is_or logic) b limit offset t =
        Ok (Listing.limit limit offset (Listing.order_desc QueryLog.time_text (List.filter selected (query_log t)))).
Proof.
  intros Hfs Hl Ho Hl0 Ho0. destruct (add_filters_means now fs Ps [] Hfs) as (b & Hb & Hr). exists b. split; [exact Hb|].
  pose proof (add_filters_filled now fs [] b ltac:(constructor) Hb) as Hf. split; [by apply build_pieces|].
  exists (satisfies (is_or logic) b). split; [intros r; by apply pieces_meaning|].
  pose proof (run_build_spec (is_or logic) b limit offset t Hf Hl Ho) as Hrun.
  rewrite (pieces_meaningful b Ps Hr), (proj2 (Z.leb_le _ _) Hl0), (proj2 (Z.leb_le _ _) Ho0) in Hrun. exact Hrun.
Qed.

(** ** What the calls come to *)

Section calls.
Context (d : Draws) (p : Parts) (auth : Claims) (s : App).
#[local] Abbreviation t := (tables (db_of s)).
Context (Hs : db_works s) (Hauth : fst (AuthUser d p s) = Ok auth).
Lemma user_does : does (user d p) s (Ok auth) s.
Proof. pose proof (does_AuthUser d p s) as Ha. rewrite Hauth in Ha. exact (does_map_err Refused _ s (Ok auth) s Ha). Qed.
Lemma statement_does {A} (q : Db -> result A DbError) : does (statement q) s (map_err (fun e => Refused (Database e)) (q t)) s.
Proof.
  unfold statement. destruct (q t) as [a|e] eqn:Hq.
  - apply (does_map_err Refused _ s (Ok a)). by apply does_db_query.
  - apply (does_map_err Refused _ s (Err (Database e))). by apply does_db_query_err.
Qed.

Lemma advanced_filtered q b x : add_filters (d_utc d) [] (aq_filters q) = Ok (x :: b) ->
  does (advanced d p q) s (Err (Refused (Database SyntaxError))) s.
Proof.
  intros Hb. eapply does_bind; [exact user_does|]. eapply does_bind; [by apply does_lift_ok|].
  eapply does_bind_err. exact (statement_does (count_filtered _ (x :: b))).
Qed.
Lemma advanced_whole q : add_filters (d_utc d) [] (aq_filters q) = Ok [] -> in_i64 (aq_offset q) = true ->
  let limit := QueryLog.clamp_limit (aq_limit q) in
  if (0 <=? aq_offset q)%Z then
    let rows := Listing.limit limit (aq_offset q) (Listing.order_desc QueryLog.time_text (query_log t)) in
    does (advanced d p q) s
      (Ok {| aa_data := map advanced_view rows; aa_total := length (query_log t); aa_returned := length rows;
             aa_offset := aq_offset q; aa_limit := limit |}) s
  else exists e, does (advanced d p q) s (Err (Refused (Database e))) s.
Proof.
  intros Hb Ho limit. pose proof (QueryLog.clamp_limit_bounds (aq_limit q)) as Hl. fold limit in Hl.
  assert (Hli : in_i64 limit = true) by (unfold in_i64; lia).
  pose proof (run_build_spec (is_or (aq_logic q)) [] limit (aq_offset q) t ltac:(constructor) Hli Ho) as Hrun.
  rewrite (proj2 (Z.leb_le 0 limit)) in Hrun by lia. cbn [forallb andb] in Hrun.
  assert (Hall : List.filter (satisfies (is_or (aq_logic q)) []) (query_log t) = query_log t) by by apply QueryLog.bfilter_all.
  rewrite Hall in Hrun. pose proof (statement_does (count_filtered (is_or (aq_logic q)) [])) as Hc. cbn in Hc.
  pose proof (statement_does (run_build (is_or (aq_logic q)) [] limit (aq_offset q))) as Hd. destruct (0 <=? aq_offset q)%Z.
  - rewrite Hrun in Hd. eapply does_bind; [exact user_does|]. eapply does_bind; [by apply does_lift_ok|].
    eapply does_bind; [exact Hc|]. eapply does_bind; [exact Hd|]. apply does_ret.
  - destruct Hrun as [e He]. rewrite He in Hd. exists e. eapply does_bind; [exact user_does|].
    eapply does_bind; [by apply does_lift_ok|]. eapply does_bind; [exact Hc|]. eapply does_bind_err. exact Hd.
Qed.
Lemma advanced_refused q e : add_filters (d_utc d) [] (aq_filters q) = Err e -> does (advanced d p q) s (Err e) s.
Proof. intros Hb. eapply does_bind; [exact user_does|]. eapply does_bind_err. by apply does_lift_err. Qed.

(** A ranking ends as its time range says, and never answers. *)
Lemma top_fails q : exists e, does (top d p q) s (Err e) s /\
  (e = Aborted <-> parse_relative_time (d_utc d) (tp_time_range q) = Err Aborted).
Proof.
  destruct (parse_relative_time (d_utc d) (tp_time_range q)) as [range|e] eqn:Hr.
  - destruct (top_column (tp_dimension q)) as [c|] eqn:Hc.
    + exists (Refused (Database DatatypeMismatch)). split; [|done]. eapply does_bind; [exact user_does|].
      eapply does_bind; [by apply does_lift_ok|]. rewrite Hc. eapply does_bind_err.
      exact (statement_does (run_top c _ _ (tp_limit q))).
    + eexists (invalid _). split; [|done]. eapply does_bind; [exact user_does|].
      eapply does_bind; [by apply does_lift_ok|]. rewrite Hc. apply does_fail.
  - exists e. split; [|split; congruence]. eapply does_bind; [exact user_does|]. eapply does_bind_err. by apply does_lift_err.
Qed.
Lemma suggest_fails q : exists e, does (suggest d p q ∅) s (Err (Refused e)) s.
Proof.
  unfold suggest. destruct (suggest_column (su_field q)) as [c|].
  - eexists. eapply does_bind; [exact user_does|]. cbn beta zeta.
    change ((∅ : SuggestCache) !! suggest_key q) with (@None (list str)). eapply does_bind; [by apply does_catch, does_query|].
    apply does_fail.
  - eexists. eapply does_bind; [exact user_does|]. apply does_fail.
Qed.
Lemma aggregate_whole q b : add_filters (d_utc d) [] (ag_filters q) = Ok b -> ag_group_by q = [] ->
  does (aggregate d p q) s
    (match b, metric_of (ag_metric q) with
     | [], MCount => Ok (Whole (Z.of_nat (length (query_log t))))
     | [], _ => Err (Refused (Database ColumnDecode))
     | _, _ => Err (Refused (Database SyntaxError))
     end) s.
Proof.
  intros Hb Hg.
  pose proof (statement_does (fun t => try! rows := unnumbered false (qb_conditions b) t in decode_metric (metric_of (ag_metric q)) rows)) as Hd.
  destruct b as [|x b]; [destruct (metric_of (ag_metric q)) eqn:Hm|]; cbn in Hd.
  all: eapply does_bind; [exact user_does|]; eapply does_bind; [by apply does_lift_ok|]; cbn beta zeta; rewrite bool_decide_eq_true_2 by done.
  all: rewrite ?Hm; try (eapply does_bind_err; exact Hd).
  eapply does_bind; [exact Hd|]. apply does_ret.
Qed.
End calls.
Lemma show_Z_N n : show_Z (Z.of_N n) = show_N n.
Proof. destruct n; done. Qed.
Lemma take_digits n rest :
  take_while (fun c => is_ascii_digit c || (c =? 45)) (show_N n ++ lit "h" ++ rest) = show_N n.
Proof.
  assert (Hd : forall c, c ∈ show_N n -> is_ascii_digit c = true) by apply show_N_digits.
  induction (show_N n) as [|c l IH]; [done|]. cbn [app take_while]. rewrite (Hd c) by by left. cbn [orb]. f_equal.
  apply IH. intros x Hx. apply Hd. by right.
Qed.
Lemma hours_ago now n : (Z.of_N n < 2 ^ 63)%Z -> (Z.of_N now <= MAX_UTC)%Z ->
  parse_relative_time now (show_N n ++ lit "h") =
  if ((Z.of_N n * 3600 <=? MAX_SECS) && (MIN_UTC <=? Z.of_N now - Z.of_N n * 3600))%Z
  then Ok (Z.of_N now - Z.of_N n * 3600, Z.of_N now)%Z else Err Aborted.
Proof.
  intros Hn Hnow. unfold parse_relative_time. pose proof (take_digits n []) as Htake. rewrite app_nil_r in Htake. rewrite Htake.
  assert (Hi : in_i64 (Z.of_N n) = true) by (unfold in_i64; lia).
  rewrite <- (show_Z_N n), parse_i64_show by done. change (lit "h") with [104]. rewrite last_snoc. change (104 =? 104) with true. cbn iota.
  unfold abs_i64. rewrite Z.abs_eq, wrap_id by (done || lia). unfold ago. rewrite Z.abs_eq by lia.
  destruct (_ <=? MAX_SECS)%Z; cbn [andb]; [|done]. rewrite (proj2 (Z.leb_le _ MAX_UTC)) by lia. rewrite andb_true_r.
  by destruct (MIN_UTC <=? _)%Z.
Qed.

(** The calls that never answer.  With any supported filter both advanced
    listings fail, for the text that counts has no numbered parameters;
    without one they answer a page and the size of the whole log.  An
    aggregate without groups answers the size of the log only.  No ranking and
    no suggestion is ever answered, since a time is compared with a text; and
    a ranking over more hours than the calendar of the library has ends the
    process, which any user can ask for. *)
Theorem advanced_calls d p auth (s : App) :
  db_works s -> fst (AuthUser d p s) = Ok auth -> (Z.of_N (d_utc d) <= MAX_UTC)%Z ->
  let log := query_log (tables (db_of s)) in
  (forall call q, call ∈ [list_advanced; list_advanced_post] -> in_i64 (aq_offset q) = true ->
    match add_filters (d_utc d) [] (aq_filters q) with
    | Err e => does (call d p q) s (Err e) s
    | Ok (_ :: _) => does (call d p q) s (Err (Refused (Database SyntaxError))) s
    | Ok [] =>
        let limit := QueryLog.clamp_limit (aq_limit q) in
        if (0 <=? aq_offset q)%Z then
          let rows := Listing.limit limit (aq_offset q) (Listing.order_desc QueryLog.time_text log) in
          does (call d p q) s
            (Ok {| aa_data := map advanced_view rows; aa_total := length log; aa_returned := length rows;
                   aa_offset := aq_offset q; aa_limit := limit |}) s
        else exists e, does (call d p q) s (Err (Refused (Database e))) s
    end) /\
  (forall q b, add_filters (d_utc d) [] (ag_filters q) = Ok b -> ag_group_by q = [] ->
    does (aggregate d p q) s
      (match b, metric_of (ag_metric q) with
       | [], MCount => Ok (Whole (Z.of_nat (length log)))
       | [], _ => Err (Refused (Database ColumnDecode))
       | _, _ => Err (Refused (Database SyntaxError))
       end) s) /\
  (forall q, exists e, does (suggest d p q ∅) s (Err (Refused e)) s) /\
  (forall q, exists e, does (top d p q) s (Err e) s /\
    (e = Aborted <-> parse_relative_time (d_utc d) (tp_time_range q) = Err Aborted)) /\
  (forall n, (Z.of_N n < 2 ^ 63)%Z ->
    parse_relative_time (d_utc d) (show_N n ++ lit "h") = Err Aborted <->
    (MAX_SECS < Z.of_N n * 3600 \/ Z.of_N (d_utc d) - Z.of_N n * 3600 < MIN_UTC)%Z).
Proof.
  intros Hs Hauth Hnow log. split; [|split; [|split; [|split]]].
  - intros call q Hcall Ho. assert (call = advanced) as ->.
    { rewrite !elem_of_cons, elem_of_nil in Hcall. by destruct Hcall as [->|[->|[]]]. }
    destruct (add_filters _ _ _) as [[|x b]|e] eqn:Hb.
    + by apply (advanced_whole d p auth s).
    + by apply (advanced_filtered d p auth s Hs Hauth q b x).
    + by apply (advanced_refused d p auth s).
  - intros q b. by apply (aggregate_whole d p auth s).
  - intros q. by apply (suggest_fails d p auth s).
  - intros q. by apply (top_fails d p auth s).
  - intros n Hn. rewrite hours_ago by done. destruct (_ && _) eqn:Hb.
    + split; [done|]. split_bools. lia.
    + split; [|done]. intros _. apply andb_false_iff in Hb as [Hb|Hb]; apply Z.leb_gt in Hb; lia.
Qed.

(** ** Groups *)

Section groups.
Context `{!GroupOrderDoc} (cs : list Column) (m : Metric) (rows : list QueryLogRow).
Lemma grouped_perm : Permutation (grouped cs m rows)
  (map (fun k => (k, metric_value m (of_key cs k rows))) (remove_dups (map (key_of cs) rows))).
Proof. unfold grouped. rewrite sort_by_key_perm. apply Permutation_map, arrange_perm. Qed.
Lemma grouped_keys : NoDup (map fst (grouped cs m rows)).
Proof. rewrite grouped_perm, map_map, map_id. apply NoDup_remove_dups. Qed.
Lemma grouped_elem k v : (k, v) ∈ grouped cs m rows <->
  (exists r, r ∈ rows /\ key_of cs r = k) /\ v = metric_value m (of_key cs k rows).
Proof.
  rewrite grouped_perm, list_elem_of_fmap. split.
  - intros (k' & [= -> ->] & Hk). rewrite elem_of_remove_dups, list_elem_of_fmap in Hk.
    destruct Hk as (r & -> & Hr). split; [by exists r|done].
  - intros [(r & Hr & <-) ->]. exists (key_of cs r). split; [done|]. apply elem_of_remove_dups. by apply list_elem_of_fmap_2.
Qed.
Lemma grouped_sorted : StronglySorted (fun g1 g2 => (snd g2 <= snd g1)%Z) (grouped cs m rows).
Proof.
  eapply RuleStats.sorted_weaken; [|apply (sort_by_key_sorted (fun g : list (option str) * Z => - snd g)%Z)].
  intros x y. unfold key_le. lia.
Qed.
End groups.
Lemma group_columns_length fields cs : group_columns fields = Ok cs -> length cs = length fields.
Proof.
  revert cs. induction fields as [|f fields IH]; intros cs; cbn [group_columns]; [by intros [= <-]|].
  destruct (group_column f); [|done]. destruct (group_columns fields) as [cs'|]; [|done]. intros [= <-].
  cbn [length]. by rewrite (IH cs').
Qed.

(** An aggregate by columns answers the groups of the rows that satisfy
    its filters: each combination of values that occurs once, those with the
    largest metric first, up to the limit.  A count is the number of rows of
    the group; a sum and an average order the groups but are answered as 0. *)
Theorem aggregate_groups `{!GroupOrderDoc} d p auth (s : App) q fs Ps cs :
  db_works s -> fst (AuthUser d p s) = Ok auth ->
  ag_filters q = fs -> Forall2 Means fs Ps -> ag_group_by q <> [] -> group_columns (ag_group_by q) = Ok cs ->
  (0 <= ag_limit q)%Z ->
  let m := metric_of (ag_metric q) in
  exists rows groups,
    (forall r, r ∈ rows <-> r ∈ query_log (tables (db_of s)) /\ Forall (fun P => P r) Ps) /\
    NoDup (map fst groups) /\
    (forall k v, (k, v) ∈ groups <-> (exists r, r ∈ rows /\ key_of cs r = k) /\ v = metric_value m (of_key cs k rows)) /\
    StronglySorted (fun g1 g2 => (snd g2 <= snd g1)%Z) groups /\
    does (aggregate d p q) s
      (Ok (Grouped (map (fun g => (list_to_map (zip (ag_group_by q) (fst g)), match m with MCount => snd g | _ => 0%Z end))
             (take (Z.to_nat (ag_limit q)) groups)))) s.
Proof.
  intros Hs Hauth Hfs Hmeans Hne Hcs Hl m.
  destruct (add_filters_means (d_utc d) fs Ps [] Hmeans) as (b & Hb & Hr). cbn [app] in Hb.
  pose proof (add_filters_filled (d_utc d) fs [] b ltac:(constructor) Hb) as Hf.
  set (rows := List.filter (satisfies false b) (query_log (tables (db_of s)))).
  exists rows, (grouped cs m rows). split; [|split; [apply grouped_keys|split; [intros k v; apply grouped_elem|split; [apply grouped_sorted|]]]].
  - intros r. unfold rows. rewrite elem_of_bfilter, (pieces_meaning b Ps false r Hr). destruct Ps; [|done].
    rewrite Forall_nil. done.
  - pose proof (select_where_spec false b [PInt (ag_limit q)] (tables (db_of s)) Hf) as Hsel.
    rewrite (pieces_meaningful b Ps Hr) in Hsel.
    pose proof (statement_does s Hs (run_groups cs m b (ag_limit q))) as Hd. unfold run_groups in Hd at 2.
    unfold qb_conditions, qb_bindings in Hd. rewrite Hsel in Hd. cbn [fst snd limit_only] in Hd.
    rewrite (proj2 (Z.ltb_ge _ _)) in Hd by lia. unfold Listing.limit in Hd. rewrite drop_0 in Hd. cbn [map_err] in Hd.
    eapply does_bind; [by apply (user_does d p auth)|]. eapply does_bind; [apply does_lift_ok; rewrite Hfs; exact Hb|].
    cbn beta zeta. rewrite bool_decide_eq_false_2 by done. eapply does_bind; [by apply does_lift_ok|].
    eapply does_bind; [exact Hd|]. apply does_ret.
Qed.
End filters.
End QueryFilters.

(** ** Concrete inputs *)

Module RefQueryFilters.
#[export] Instance chrono : Chrono := {| to_rfc3339 := show_Z |}.
#[export] Instance errors : ErrorText := {| error_text _ := lit "error" |}.
#[export] Instance avg : SqlAvg := {| average l := (foldr Z.add 0 l / Z.of_nat (length l))%Z |}.
End RefQueryFilters.

Module QueryFiltersWitness.
Import AsciiUnicode RefRegex RefJson RefIpNet RefMoka RefRng RefHickory RefResolver RefCrypto RefValue RefQueryFilters RefRegexSingle.
Import Api AppWitness Conditions QueryFilters.
Import QueryLog.QueryLogWitness.

Definition filter1 (field op : string) (v : Value) : Filter := {| f_field := lit field; f_operator := lit op; f_value := v |}.
Definition blocked : Filter := filter1 "status" "eq" (VString (lit "blocked")).
Definition slow : Filter := filter1 "elapsed_ns" "gte" (json_i64 5).
Definition of_app (fs : list Filter) : AdvancedQuery := {| aq_filters := fs; aq_logic := lit "and"; aq_limit := 2; aq_offset := 0 |}.
Definition ranking (range : string) : TopParams :=
  {| tp_dimension := lit "domain"; tp_metric := lit "count"; tp_time_range := lit range; tp_filters := []; tp_limit := 10 |}.

(** A value that is bound to nothing leaves the statement a value short. *)
Example unbound_test :
  match add_filters 0 [] [filter1 "status" "eq" (VBool true)] with
  | Ok b => Some (run_build false b 2 0 t1)
  | Err _ => None
  end = Some (Err DatatypeMismatch).
Proof. vm_compute. reflexivity. Qed.
(** Milliseconds that do not fit wrap around. *)
Example wrapped_test :
  add_filters 0 [] [filter1 "elapsed_ms" "gt" (json_i64 9223372036855)] = Ok [(ElapsedIs Gt, [json_i64 (-9223372036854551616)])].
Proof. vm_compute. reflexivity. Qed.
(** A small request of any user. *)
Example abort_test : fst (top today admin (ranking "99999999999h") (app t1)) = Err Aborted.
Proof. vm_compute. reflexivity. Qed.

Lemma filters_select_witness :
  exists b selected, add_filters 0 [] [blocked; slow] = Ok b /\
    (forall r, selected r = true <-> Forall (fun P : QueryLogRow -> Prop => P r)
      [(fun r : QueryLogRow => Some (q_status r) = Some (lit "blocked")); (fun r : QueryLogRow => (q_elapsed_ns r >= 5)%Z)]) /\
    run_build false b 2 0 t1 =
      Ok (Listing.limit 2 0 (Listing.order_desc QueryLog.time_text (List.filter selected (query_log t1)))).
Proof.
  destruct (filters_select 0 [blocked; slow]
    [(fun r : QueryLogRow => Some (q_status r) = Some (lit "blocked")); (fun r : QueryLogRow => (q_elapsed_ns r >= 5)%Z)]
    (lit "and") 2 0 t1) as (b & Hb & _ & selected & Hsel & Hrun).
  - constructor; [apply (means_eq (lit "status") Status); reflexivity|]. constructor; [|constructor].
    apply (means_ns (lit "gte") Z.ge); [constructor|reflexivity].
  - reflexivity.
  - reflexivity.
  - done.
  - done.
  - exists b, selected. split; [exact Hb|]. split; [exact Hsel|exact Hrun].
Defined.
Lemma advanced_calls_witness :
  does (list_advanced_post today admin (of_app [blocked])) (app t1) (Err (Refused (Database SyntaxError))) (app t1) /\
  exists e, does (top today admin (ranking "-24h")) (app t1) (Err e) (app t1).
Proof.
  destruct (advanced_calls today admin AuthWitness.ann (app t1) (app_works _) (admin_ok _) ltac:(by vm_compute))
    as (Hadv & _ & _ & Htop & _).
  split.
  - exact (Hadv list_advanced_post (of_app [blocked]) ltac:(right; left) eq_refl).
  - destruct (Htop (ranking "-24h")) as (e & He & _). exists e. exact He.
Defined.
Definition by_status : AggregateParams :=
  {| ag_filters := [slow]; ag_group_by := [lit "status"]; ag_metric := lit "count"; ag_time_bucket := None; ag_limit := 1 |}.
Lemma aggregate_groups_witness :
  exists groups, does (aggregate today admin by_status) (app t1)
    (Ok (Grouped (map (fun g => (list_to_map (zip [lit "status"] (fst g)), snd g)) (take 1 groups)))) (app t1) /\
  NoDup (map fst groups) /\ StronglySorted (fun g1 g2 => (snd g2 <= snd g1)%Z) groups.
Proof.
  destruct (aggregate_groups today admin AuthWitness.ann (app t1) by_status [slow]
    [(fun r : QueryLogRow => (q_elapsed_ns r >= 5)%Z)] [Status]) as (rows & groups & _ & Hn & _ & Hsorted & Hd).
  - apply app_works.
  - apply admin_ok.
  - reflexivity.
  - constructor; [|constructor]. apply (means_ns (lit "gte") Z.ge); [constructor|reflexivity].
  - discriminate.
  - reflexivity.
  - done.
  - exists groups. split; [exact Hd|]. split; [exact Hn|exact Hsorted].
Defined.
End QueryFiltersWitness.
