(* ===== verification/Templates.v ===== *)
(** * Saved filters: src/api/handlers/query_log_templates.rs

    A template is a row with filters as JSON; its maker, known by the name of
    the user, changes and deletes it, everyone reads it when it is public. *)
From S2P Require Import Prelude RustStr IpAddr Regex Rules Acl Moka Hickory Cache Db DbLogic Filter Resolver.
From S2P Require Import UpstreamPool Handler HandlerTests Api App Auth AppTests Listing Tables.
Local Open Scope N_scope.

Record Template := {
  tm_id : str; tm_name : str; tm_filters : Value; tm_logic : str; tm_created_by : str; tm_created_at : str;
  tm_is_public : bool }.
Record TemplateCreate := {
  tc_name : str; tc_filters : Value; tc_logic : option str; tc_is_public : option bool }.
Record TemplateUpdate := {
  tu_name : option str; tu_filters : option Value; tu_logic : option str; tu_is_public : option bool }.

Module Templates.
Section templates.
Context `{RustUnicode, RegexEngine, SerdeJson, Collation, IpNetCrate, Moka, Rng,
  Hickory, !HickoryResolver, !DnsCodec, Jwt, SerdeValue}.
Import Api.

Definition template_of (r : QueryLogTemplate) : Template :=
  {| tm_id := qt_id r; tm_name := qt_name r; tm_filters := default (VArray []) (value_from_str (qt_filters r));
     tm_logic := qt_logic r; tm_created_by := qt_created_by r; tm_created_at := qt_created_at r;
     tm_is_public := qt_is_public r |}.
(** [is_public = true OR created_by = $1] *)
Definition shown_to (user : str) (r : QueryLogTemplate) : bool := qt_is_public r || (qt_created_by r =s? user).
Definition list_templates (d : Draws) (p : Parts) : M App AppError (list Template) :=
  let! auth := AuthUser d p in
  let! rows := db (fetch_all (fun t =>
    Listing.order_desc qt_created_at (List.filter (shown_to (username auth)) (query_log_templates t)))) in
  ret (map template_of rows).

(** The column is the primary key. *)
Definition insert_template (r : QueryLogTemplate) (t : Db) : result (unit * Db) DbError :=
  match row_named qt_id (qt_id r) (query_log_templates t) with
  | Some _ => Err UniqueViolation
  | None => Ok (tt, set_query_log_templates t (query_log_templates t ++ [r]))
  end.
Definition create_template (d : Draws) (p : Parts) (req : TemplateCreate) : M App AppError Template :=
  let! auth := AuthUser d p in
  let row := {| qt_id := d_uuid d; qt_name := tc_name req; qt_filters := to_string (tc_filters req);
                qt_logic := default (lit "AND") (tc_logic req); qt_created_by := username auth; qt_created_at := d_text d;
                qt_is_public := default false (tc_is_public req) |} in
  db (execute (insert_template row)) ;;;
  ret {| tm_id := qt_id row; tm_name := qt_name row; tm_filters := tc_filters req; tm_logic := qt_logic row;
         tm_created_by := qt_created_by row; tm_created_at := qt_created_at row; tm_is_public := qt_is_public row |}.

Definition not_shown : AppError := NotFound (lit "Template not found or access denied").
(** The body of [get], with the user who was found. *)
Definition get_as (auth : Claims) (id : str) : M App AppError Template :=
  let! row := db (fetch_optional (fun t =>
    row_named qt_id id (List.filter (shown_to (username auth)) (query_log_templates t)))) in
  match row with Some r => ret (template_of r) | None => fail not_shown end.
Definition get_template (d : Draws) (p : Parts) (id : str) : M App AppError Template :=
  let! auth := AuthUser d p in get_as auth id.

Definition not_found : AppError := NotFound (lit "Template not found").
Definition not_owner : AppError := Unauthorized (lit "you are not the owner").
Definition owner_check (auth : Claims) (id : str) : M App AppError unit :=
  let! owner := db (fetch_optional (fun t => qt_created_by <$> row_named qt_id id (query_log_templates t))) in
  match owner with
  | None => fail not_found
  | Some o => if o =s? username auth then ret tt else fail not_owner
  end.
(** The columns set, with the texts bound to them. *)
Inductive TemplateSet := SetName (v : str) | SetFilters (v : str) | SetLogic (v : str) | SetPublic (v : str).
Definition template_sets (req : TemplateUpdate) : list TemplateSet :=
  option_list (SetName <$> tu_name req) ++ option_list ((fun f => SetFilters (to_string f)) <$> tu_filters req)
  ++ option_list (SetLogic <$> tu_logic req) ++ option_list ((fun b => SetPublic (show_bool b)) <$> tu_is_public req).
Definition set_text (u : TemplateSet) : str :=
  match u with
  | SetName _ => lit "name = $" | SetFilters _ => lit "filters = $" | SetLogic _ => lit "logic = $"
  | SetPublic _ => lit "is_public = $"
  end.
Definition template_text (us : list TemplateSet) : str :=
  lit "UPDATE query_log_templates SET "
  ++ join (lit ", ") (imap (fun i u => set_text u ++ show_N (N.of_nat (S i))) us)
  ++ lit " WHERE id = $" ++ show_N (N.of_nat (S (length us))).
Definition set_one (u : TemplateSet) (r : QueryLogTemplate) : result QueryLogTemplate DbError :=
  let '{| qt_id := id; qt_name := name; qt_filters := filters; qt_logic := logic; qt_created_by := by_; qt_created_at := at_;
          qt_is_public := public |} := r in
  match u with
  | SetName v => Ok {| qt_id := id; qt_name := v; qt_filters := filters; qt_logic := logic; qt_created_by := by_;
                       qt_created_at := at_; qt_is_public := public |}
  | SetFilters v => Ok {| qt_id := id; qt_name := name; qt_filters := v; qt_logic := logic; qt_created_by := by_;
                          qt_created_at := at_; qt_is_public := public |}
  | SetLogic v => Ok {| qt_id := id; qt_name := name; qt_filters := filters; qt_logic := v; qt_created_by := by_;
                        qt_created_at := at_; qt_is_public := public |}
  | SetPublic _ => Err DatatypeMismatch (* a text for a BOOLEAN *)
  end.
Definition refused_set (us : list TemplateSet) : bool := existsb (fun u => match u with SetPublic _ => true | _ => false end) us.
Definition set_all (us : list TemplateSet) (r : QueryLogTemplate) : QueryLogTemplate :=
  fold_left (fun r u => match set_one u r with Ok r' => r' | Err _ => r end) us r.
(** Whether the statement can run does not depend on the rows. *)
Definition update_row (id : str) (us : list TemplateSet) (t : Db) : result (unit * Db) DbError :=
  if refused_set us then Err DatatypeMismatch
  else Ok (tt, set_query_log_templates t (change_named qt_id id (set_all us) (query_log_templates t))).
Definition update_template (d : Draws) (p : Parts) (id : str) (req : TemplateUpdate) : M App AppError Template :=
  let! auth := AuthUser d p in
  owner_check auth id ;;;
  let us := template_sets req in
  if bool_decide (us = []) then fail (Validation (lit "No fields to update"))
  else db (execute (update_row id us)) ;;; get_as auth id.
Definition delete_template (d : Draws) (p : Parts) (id : str) : M App AppError unit :=
  let! auth := AuthUser d p in
  owner_check auth id ;;;
  db (execute (fun t => Ok (tt, set_query_log_templates t (without qt_id id (query_log_templates t))))).

(** ** The templates as a store *)

(** What a template is but its name in the table. *)
Record Saved := { sv_name : str; sv_filters : str; sv_logic : str; sv_by : str; sv_at : str; sv_public : bool }.
Definition saved (r : QueryLogTemplate) : Saved :=
  {| sv_name := qt_name r; sv_filters := qt_filters r; sv_logic := qt_logic r; sv_by := qt_created_by r;
     sv_at := qt_created_at r; sv_public := qt_is_public r |}.
Definition templates_of (t : Db) : gmap str Saved := view qt_id saved (query_log_templates t).
Definition changed (req : TemplateUpdate) (v : Saved) : Saved :=
  {| sv_name := default (sv_name v) (tu_name req);
     sv_filters := match tu_filters req with Some f => to_string f | None => sv_filters v end;
     sv_logic := default (sv_logic v) (tu_logic req); sv_by := sv_by v; sv_at := sv_at v; sv_public := sv_public v |}.

Inductive Call :=
| Create (req : TemplateCreate) | Get (id : str) | Update (id : str) (req : TemplateUpdate) | Delete (id : str).
Definition run (d : Draws) (p : Parts) (c : Call) : M App AppError unit :=
  match c with
  | Create req => create_template d p req ;;; ret tt
  | Get id => get_template d p id ;;; ret tt
  | Update id req => update_template d p id req ;;; ret tt
  | Delete id => delete_template d p id
  end.
Definition owned (user id : str) (m : gmap str Saved) : result Saved AppError :=
  match m !! id with
  | None => Err not_found
  | Some v => if sv_by v =s? user then Ok v else Err not_owner
  end.
(** The store after a call of a user, or why the call is refused. *)
Definition spec (d : Draws) (user : str) (c : Call) (m : gmap str Saved) : result (gmap str Saved) AppError :=
  match c with
  | Create req =>
      match m !! d_uuid d with
      | Some _ => Err (Database UniqueViolation)
      | None => Ok (<[d_uuid d := {| sv_name := tc_name req; sv_filters := to_string (tc_filters req);
                                     sv_logic := default (lit "AND") (tc_logic req); sv_by := user; sv_at := d_text d;
                                     sv_public := default false (tc_is_public req) |}]> m)
      end
  | Get id =>
      match m !! id with
      | Some v => if sv_public v || (sv_by v =s? user) then Ok m else Err not_shown
      | None => Err not_shown
      end
  | Update id req =>
      try! v := owned user id m in
      match tu_is_public req, tu_name req, tu_filters req, tu_logic req with
      | Some _, _, _, _ => Err (Database DatatypeMismatch)
      | None, None, None, None => Err (Validation (lit "No fields to update"))
      | _, _, _, _ => Ok (<[id := changed req v]> m)
      end
  | Delete id => try! _ := owned user id m in Ok (delete id m)
  end.
Definition stored (t t' : Db) : Prop := t' = set_query_log_templates t (query_log_templates t').
Definition implements (d : Draws) (p : Parts) (user : str) (c : Call) (s : App) : Prop :=
  let t := tables (db_of s) in
  exists r t', does (run d p c) s r (with_tables t' s) /\ stored t t' /\
    match spec d user c (templates_of t) with
    | Ok m => r = Ok tt /\ templates_of t' = m
    | Err e => r = Err e /\ t' = t
    end.

Lemma set_all_saved us r : refused_set us = false ->
  qt_id (set_all us r) = qt_id r /\ qt_created_by (set_all us r) = qt_created_by r /\ qt_is_public (set_all us r) = qt_is_public r.
Proof.
  revert r. induction us as [|u us IH]; intros r Hu; [done|]. cbn [refused_set existsb] in Hu. split_bools.
  unfold set_all in *. cbn [fold_left]. destruct r. destruct u; cbn [set_one]; try discriminate; by edestruct IH as (-> & -> & ->).
Qed.
Lemma set_all_id us r : qt_id (set_all us r) = qt_id r.
Proof.
  revert r. induction us as [|u us IH]; intros r; [done|]. unfold set_all in *. cbn [fold_left]. rewrite IH. by destruct r, u.
Qed.
Lemma set_all_changed req r : tu_is_public req = None -> saved (set_all (template_sets req) r) = changed req (saved r).
Proof. destruct req as [[] [] [] []], r; done. Qed.

Section calls.
Context (d : Draws) (p : Parts) (auth : Claims) (s : App).
#[local] Abbreviation t := (tables (db_of s)).
Context (Hs : db_works s) (Hauth : fst (AuthUser d p s) = Ok auth).
Lemma tm_user : does (AuthUser d p) s (Ok auth) s.
Proof. pose proof (does_AuthUser d p s) as Ha. by rewrite Hauth in Ha. Qed.
Lemma tm_same c r : does (run d p c) s r s -> match spec d (username auth) c (templates_of t) with
  | Ok m => r = Ok tt /\ templates_of t = m | Err e => r = Err e end -> implements d p (username auth) c s.
Proof.
  intros Hd Hspec. exists r, t. rewrite with_tables_same. split; [exact Hd|]. split; [unfold stored; by destruct t|].
  destruct (spec _ _ _ _); [exact Hspec|done].
Qed.
(** The check of the owner as the store has it. *)
Lemma tm_owner id :
  does (owner_check auth id) s (match owned (username auth) id (templates_of t) with Ok _ => Ok tt | Err e => Err e end) s.
Proof.
  unfold owner_check, owned, templates_of. rewrite lookup_view.
  eapply does_bind; [by eapply does_db_optional|]. destruct (row_named qt_id id (query_log_templates t)) as [r|]; [|apply does_fail].
  cbn. destruct (qt_created_by r =s? username auth); [apply does_ret|apply does_fail].
Qed.
Context (Hn : NoDup (map qt_id (query_log_templates t))).

Lemma tm_create req : implements d p (username auth) (Create req) s.
Proof.
  unfold implements. cbn [spec run]. unfold create_template, templates_of. rewrite lookup_view.
  destruct (row_named qt_id (d_uuid d) (query_log_templates t)) as [r|] eqn:Hr; cbn [fmap option_fmap option_map].
  - exists (Err (Database UniqueViolation)), t. rewrite with_tables_same. split; [|split; [unfold stored; by destruct t|done]].
    eapply does_bind_err. eapply does_bind; [exact tm_user|]. cbn beta zeta. eapply does_bind_err.
    apply does_db_execute_err; [done|]. unfold insert_template. cbn [qt_id]. by rewrite Hr.
  - eexists _, _. split; [|split].
    + eapply does_bind; [|apply does_ret]. eapply does_bind; [exact tm_user|]. cbn beta zeta.
      eapply does_bind; [|apply does_ret]. eapply does_db_execute; [done|]. unfold insert_template. cbn [qt_id]. by rewrite Hr.
    + done.
    + split; [done|]. cbn [query_log_templates set_query_log_templates]. by rewrite (view_snoc qt_id saved).
Qed.
Lemma tm_get id : implements d p (username auth) (Get id) s.
Proof.
  apply (tm_same _ (match spec d (username auth) (Get id) (templates_of t) with Ok _ => Ok tt | Err e => Err e end)).
  - cbn [spec run]. unfold get_template, get_as, templates_of. rewrite lookup_view.
    pose proof (row_named_filter qt_id id (shown_to (username auth)) (query_log_templates t) Hn) as Hrow.
    destruct (row_named qt_id id (query_log_templates t)) as [r|]; cbn [fmap option_fmap option_map saved sv_public sv_by].
    + fold (shown_to (username auth) r). destruct (shown_to (username auth) r).
      * eapply does_bind; [|apply does_ret]. eapply does_bind; [exact tm_user|].
        eapply does_bind; [by eapply does_db_optional|]. apply does_ret.
      * eapply does_bind_err. eapply does_bind; [exact tm_user|]. eapply does_bind; [by eapply does_db_optional|]. apply does_fail.
    + eapply does_bind_err. eapply does_bind; [exact tm_user|]. eapply does_bind; [by eapply does_db_optional|]. apply does_fail.
  - cbn [spec]. destruct (templates_of t !! id) as [v|]; [|done]. by destruct (_ || _).
Qed.
Lemma tm_delete id : implements d p (username auth) (Delete id) s.
Proof.
  pose proof (tm_owner id) as Ho. destruct (owned (username auth) id (templates_of t)) as [v|e] eqn:Hv.
  - eexists _, _. split; [|split].
    + eapply does_bind; [exact tm_user|]. eapply does_bind; [exact Ho|]. by eapply does_db_execute.
    + done.
    + cbn [spec]. rewrite Hv. split; [done|]. apply (view_without qt_id saved).
  - apply (tm_same _ (Err e)); [|cbn [spec]; by rewrite Hv].
    eapply does_bind; [exact tm_user|]. eapply does_bind_err. exact Ho.
Qed.
Lemma tm_update_runs id req v :
  owned (username auth) id (templates_of t) = Ok v -> tu_is_public req = None -> template_sets req <> [] ->
  exists tm, does (update_template d p id req) s (Ok tm)
    (with_tables (set_query_log_templates t (change_named qt_id id (set_all (template_sets req)) (query_log_templates t))) s).
Proof.
  intros Hv Hp Hne. pose proof (tm_owner id) as Ho. rewrite Hv in Ho.
  assert (Hok : refused_set (template_sets req) = false) by (destruct req as [[] [] [] []]; done).
  unfold owned, templates_of in Hv. rewrite lookup_view in Hv.
  destruct (row_named qt_id id (query_log_templates t)) as [r|] eqn:Hr; [|done]. cbn in Hv.
  destruct (qt_created_by r =s? username auth) eqn:Hby; [|done].
  set (t' := set_query_log_templates t _).
  assert (Hget : row_named qt_id id (List.filter (shown_to (username auth)) (query_log_templates t')) =
    Some (set_all (template_sets req) r)).
  { assert (Hid : qt_id r = id) by by apply row_named_Some in Hr as [_ ?].
    rewrite row_named_filter.
    - cbn [t' query_log_templates set_query_log_templates]. unfold change_named.
      rewrite (row_named_map qt_id) by (intros r'; case_match; [apply set_all_id|done]).
      rewrite Hr. cbn [fmap option_fmap option_map]. rewrite Hid, str_eqb_refl.
      destruct (set_all_saved (template_sets req) r Hok) as (_ & Hb & _). unfold shown_to. by rewrite Hb, Hby, orb_true_r.
    - cbn [t' query_log_templates set_query_log_templates]. unfold change_named. rewrite (same_column qt_id); [done|apply set_all_id]. }
  eexists. eapply does_bind; [exact tm_user|]. eapply does_bind; [exact Ho|]. cbn beta zeta.
  rewrite bool_decide_eq_false_2 by done. eapply does_bind.
  - eapply does_db_execute; [done|]. unfold update_row. by rewrite Hok.
  - eapply does_bind; [eapply does_db_optional; [by apply works_with_tables|rewrite tables_with_tables; exact Hget]|]. apply does_ret.
Qed.
Lemma tm_update id req : implements d p (username auth) (Update id req) s.
Proof.
  pose proof (tm_owner id) as Ho. destruct (owned (username auth) id (templates_of t)) as [v|e] eqn:Hv.
  2: { apply (tm_same _ (Err e)); [|cbn [spec]; by rewrite Hv]. eapply does_bind_err. eapply does_bind; [exact tm_user|].
       eapply does_bind_err. exact Ho. }
  destruct (tu_is_public req) as [b|] eqn:Hp.
  { apply (tm_same _ (Err (Database DatatypeMismatch))); [|cbn [spec]; by rewrite Hv, Hp].
    eapply does_bind_err. eapply does_bind; [exact tm_user|]. eapply does_bind; [exact Ho|]. cbn beta zeta.
    assert (Hr : refused_set (template_sets req) = true) by (destruct req as [[] [] [] []]; done).
    rewrite bool_decide_eq_false_2 by (intros Hnil; by rewrite Hnil in Hr). eapply does_bind_err.
    apply does_db_execute_err; [done|]. unfold update_row. by rewrite Hr. }
  destruct (decide (template_sets req = [])) as [Hnil|Hne].
  { apply (tm_same _ (Err (Validation (lit "No fields to update")))).
    - eapply does_bind_err. eapply does_bind; [exact tm_user|]. eapply does_bind; [exact Ho|]. cbn beta zeta.
      rewrite bool_decide_eq_true_2 by done. apply does_fail.
    - cbn [spec]. rewrite Hv, Hp. by destruct req as [[] [] [] []]. }
  destruct (tm_update_runs id req v Hv Hp Hne) as [tm Hd]. eexists _, _. split; [|split].
  - eapply does_bind; [exact Hd|apply does_ret].
  - done.
  - unfold owned, templates_of in Hv. rewrite lookup_view in Hv.
    destruct (row_named qt_id id (query_log_templates t)) as [r|] eqn:Hr; [|done]. cbn [fmap option_fmap option_map] in Hv.
    destruct (sv_by (saved r) =s? username auth) eqn:Hby; [|done]. injection Hv as <-.
    assert (Hview : templates_of (set_query_log_templates t (change_named qt_id id (set_all (template_sets req)) (query_log_templates t))) =
      <[id := changed req (saved r)]> (templates_of t)).
    { unfold templates_of. cbn [query_log_templates set_query_log_templates].
      rewrite (view_change qt_id saved _ _ _ r) by (done || apply set_all_id). by rewrite set_all_changed. }
    cbn [spec]. unfold owned at 1, templates_of at 1. rewrite lookup_view, Hr. cbn [fmap option_fmap option_map]. rewrite Hby, Hp.
    destruct (tu_name req) eqn:H1', (tu_filters req) eqn:H2', (tu_logic req) eqn:H3'; try (split; [done|exact Hview]).
    exfalso. apply Hne. unfold template_sets. by rewrite H1', H2', H3', Hp.
Qed.
End calls.

(** The saved filters are a store of which every user changes and deletes
    his own entries only.  On a working connection every call does what the
    abstract store says: a template is read when it is public or the caller's
    own, only its maker changes or deletes it, and a change sets the fields
    given and no others; a change that says whether the template is public is
    always refused by the database, which is given a text for a truth value. *)
Theorem templates_correct d p auth c (s : App) :
  db_works s -> fst (AuthUser d p s) = Ok auth -> NoDup (map qt_id (query_log_templates (tables (db_of s)))) ->
  implements d p (username auth) c s.
Proof.
  intros Hs Ha Hn. destruct c as [req|id|id req|id].
  - by apply (tm_create d p auth s).
  - by apply (tm_get d p auth s).
  - by apply (tm_update d p auth s).
  - by apply (tm_delete d p auth s).
Qed.
End templates.
End Templates.

Module TemplatesWitness.
Import AsciiUnicode RefRegex RefJson RefValue RefIpNet RefMoka RefRng RefHickory RefResolver RefCrypto Api AppWitness Templates.

Definition row (id by_ : string) (public : bool) : QueryLogTemplate :=
  {| qt_id := lit id; qt_name := lit id; qt_filters := lit "[]"; qt_logic := lit "AND"; qt_created_by := lit by_;
     qt_created_at := lit id; qt_is_public := public |}.
Definition t1 : Db := set_query_log_templates empty_db [row "1" "ann" false; row "2" "bob" true].
Definition rename (name : string) (public : option bool) : TemplateUpdate :=
  {| tu_name := Some (lit name); tu_filters := None; tu_logic := None; tu_is_public := public |}.
Definition after (c : Call) : result unit AppError * list (str * str) :=
  let '(r, s) := run today admin c (app t1) in (r, map (fun r => (qt_id r, qt_name r)) (query_log_templates (tables (db_of s)))).

Example own_template_test : after (Update (lit "1") (rename "new" None)) = (Ok tt, [(lit "1", lit "new"); (lit "2", lit "2")]).
Proof. vm_compute. reflexivity. Qed.
Example public_change_test : fst (after (Update (lit "1") (rename "new" (Some true)))) = Err (Database DatatypeMismatch).
Proof. vm_compute. reflexivity. Qed.

Lemma templates_correct_witness :
  exists t', does (run today admin (Delete (lit "1"))) (app t1) (Ok tt) (with_tables t' (app t1)) /\
    templates_of t' = delete (lit "1") (templates_of t1).
Proof.
  pose proof (templates_correct today admin AuthWitness.ann (Delete (lit "1")) (app t1) (app_works _) (admin_ok _)) as Hx.
  destruct Hx as (r & t' & Hd & _ & Hspec); [apply (bool_decide_unpack _); vm_compute; exact I|].
  assert (Ho : spec today (username AuthWitness.ann) (Delete (lit "1")) (templates_of t1) = Ok (delete (lit "1") (templates_of t1)))
    by reflexivity.
  change (tables (db_of (app t1))) with t1 in Hspec. rewrite Ho in Hspec. destruct Hspec as [-> Ht].
  exists t'. split; [exact Hd|exact Ht].
Defined.
End TemplatesWitness.
