(* ===== verification/Float.v ===== *)
(** * Floating point: [f64]

    The statistics of the dashboard compute with [f64].  A float is the
    [spec_float] of the Standard Library at 53 bits, whose operations round to
    the nearest, ties to even, as the hardware does; [round] and the
    conversions are those of the language. *)
From Stdlib Require Import SpecFloat.
From S2P Require Import Prelude RustStr.
Local Open Scope Z_scope.

Module F64.
Definition f64 : Type := spec_float.
Definition prec : Z := 53.
Definition emax : Z := 1024.
Definition of_scaled (m e : Z) : f64 := binary_normalize prec emax m e false.
(** [x as f64] *)
Definition of_Z (z : Z) : f64 := of_scaled z 0.
Definition add : f64 -> f64 -> f64 := SFadd prec emax.
Definition sub : f64 -> f64 -> f64 := SFsub prec emax.
Definition mul : f64 -> f64 -> f64 := SFmul prec emax.
Definition div : f64 -> f64 -> f64 := SFdiv prec emax.
Definition sqrt : f64 -> f64 := SFsqrt prec emax.
Definition ltb (x y : f64) : bool := match SFcompare x y with Some Lt => true | _ => false end.
(** [f64::max] with a zero that is no NaN *)
Definition max0 (x : f64) : f64 := if ltb x (of_Z 0) then of_Z 0 else match x with S754_nan => of_Z 0 | _ => x end.
(** [f64::round]: half away from zero. *)
Definition round (x : f64) : f64 :=
  match x with
  | S754_finite s m e =>
      if 0 <=? e then x
      else
        let d := 2 ^ (- e) in
        let q := (Zpos m + d / 2) / d in
        match q with Zpos _ => of_Z (if s then - q else q) | _ => S754_zero s end
  | _ => x
  end.
(** [x as usize], [x as i64] of a float that is an integer in range *)
Definition to_Z (x : f64) : Z :=
  match x with
  | S754_finite s m e =>
      let a := if 0 <=? e then Zpos m * 2 ^ e else Zpos m / 2 ^ (- e) in if s then - a else a
  | _ => 0
  end.
(** [{:.1}]: the exact value to one decimal, ties to even. *)
Definition tenths_even (m d : Z) : Z :=
  let q := 10 * m / d in
  let r := 10 * m mod d in
  if (2 * r <? d) || ((2 * r =? d) && Z.even q) then q else q + 1.
Definition fixed1 (x : f64) : str :=
  let show (s : bool) (t : Z) : str := (if s then [45%N] else []) ++ show_Z (t / 10) ++ [46%N] ++ show_Z (t mod 10) in
  match x with
  | S754_zero s => show s 0
  | S754_infinity s => (if s then [45%N] else []) ++ lit "inf"
  | S754_nan => lit "NaN"
  | S754_finite s m e => show s (if 0 <=? e then 10 * Zpos m * 2 ^ e else tenths_even (Zpos m) (2 ^ (- e)))
  end.
(** [(x * k).round() / k] *)
Definition decimals (k : Z) (x : f64) : f64 := div (round (mul x (of_Z k))) (of_Z k).
(** A rate in percent of two counts. *)
Definition ratio (a b : Z) : f64 := div (of_Z a) (of_Z b).
(** ** Rounding is to the nearest *)

Section rounding.
#[local] Abbreviation round_aux := (binary_round_aux 53 1024).

Lemma digits_spec p : 2 ^ (Zpos (digits2_pos p) - 1) <= Zpos p < 2 ^ Zpos (digits2_pos p).
Proof.
  induction p as [p IH|p IH|]; cbn [digits2_pos]; [| |by split].
  all: rewrite Pos2Z.inj_succ; replace (Z.succ (Zpos (digits2_pos p)) - 1) with (Z.succ (Zpos (digits2_pos p) - 1)) by lia.
  all: rewrite !Z.pow_succ_r by lia; lia.
Qed.
Lemma digits_unique p d : 0 < d -> 2 ^ (d - 1) <= Zpos p < 2 ^ d -> Zpos (digits2_pos p) = d.
Proof.
  intros Hd Hp. pose proof (digits_spec p) as Hs.
  destruct (Z.lt_trichotomy (Zpos (digits2_pos p)) d) as [Hlt|[?|Hlt]]; [|done|].
  - assert (2 ^ Zpos (digits2_pos p) <= 2 ^ (d - 1)) by (apply Z.pow_le_mono_r; lia). lia.
  - assert (2 ^ d <= 2 ^ (Zpos (digits2_pos p) - 1)) by (apply Z.pow_le_mono_r; lia). lia.
Qed.

(** What the record says of the digits shifted out of [M] so far. *)
Definition shifted (M i : Z) (r : shr_record) : Prop :=
  exists R, 0 <= i /\ 0 <= shr_m r /\ M = shr_m r * 2 ^ i + R /\ 0 <= R < 2 ^ i /\
    match shr_r r, shr_s r with
    | true, true => 2 ^ i < 2 * R
    | true, false => 2 * R = 2 ^ i
    | false, true => 0 < 2 * R < 2 ^ i
    | false, false => R = 0
    end.
Lemma shifted_start M : 0 <= M -> shifted M 0 (shr_record_of_loc M loc_Exact).
Proof. intros HM. exists 0. cbn. lia. Qed.
Lemma shifted_step M i r : shifted M i r -> shifted M (i + 1) (shr_1 r).
Proof.
  intros (R & Hi & Hm & HM & HR & Hrs). assert (Hpow : 2 ^ (i + 1) = 2 * 2 ^ i) by (rewrite Z.pow_add_r by lia; lia).
  destruct r as [m r s]. cbn [shr_m shr_r shr_s] in *.
  assert (Hb : forall p b, m = 2 * p + Z.b2z b -> 0 <= p -> shifted M (i + 1) {| shr_m := p; shr_r := b; shr_s := r || s |}).
  { intros p b -> Hp. exists (R + Z.b2z b * 2 ^ i). cbn [shr_m shr_r shr_s]. rewrite Hpow.
    destruct b; cbn [Z.b2z] in *; destruct r, s; cbn [orb]; lia. }
  destruct m as [|[m|m|]|]; cbn [shr_1]; [| | | |lia].
  - by apply (Hb 0 false).
  - apply (Hb (Zpos m) true); cbn [Z.b2z]; lia.
  - apply (Hb (Zpos m) false); cbn [Z.b2z]; lia.
  - by apply (Hb 0 true).
Qed.
Lemma shifted_iter M n : forall i r, shifted M i r -> shifted M (i + Zpos n) (SpecFloat.iter_pos shr_1 n r).
Proof.
  induction n as [n IH|n IH|]; intros i r Hr; cbn [SpecFloat.iter_pos].
  - replace (i + Zpos n~1) with (i + 1 + Zpos n + Zpos n) by lia. by apply IH, IH, shifted_step.
  - replace (i + Zpos n~0) with (i + Zpos n + Zpos n) by lia. by apply IH, IH.
  - by apply shifted_step.
Qed.
(** The rounded quotient. *)
Lemma shifted_round M i r : shifted M i r ->
  let q := round_nearest_even (shr_m r) (loc_of_shr_record r) in
  2 * Z.abs (q * 2 ^ i - M) <= 2 ^ i /\ (M mod 2 ^ i = 0 -> q * 2 ^ i = M) /\ M / 2 ^ i <= q <= M / 2 ^ i + 1.
Proof.
  intros (R & Hi & Hm & HM & HR & Hrs). assert (Hp : 0 < 2 ^ i) by (apply Z.pow_pos_nonneg; lia).
  assert (Hdiv : M / 2 ^ i = shr_m r) by (rewrite HM, Z.div_add_l, Z.div_small by lia; lia).
  assert (Hmod : M mod 2 ^ i = R) by (rewrite HM, Z.add_comm, Z.mod_add, Z.mod_small by lia; lia).
  rewrite Hdiv, Hmod. destruct r as [m [] []]; cbn [shr_m shr_r shr_s loc_of_shr_record round_nearest_even] in *.
  2: destruct (Z.even m).
  all: rewrite ?Z.mul_add_distr_r; lia.
Qed.

(** A mantissa of 53 digits or more, away from the ends of the range. *)
Lemma round_aux_near s m e :
  53 <= Zpos (digits2_pos m) -> -1000 <= e -> e + Zpos (digits2_pos m) <= 1000 ->
  exists m' e', round_aux s (Zpos m) e loc_Exact = S754_finite s m' e' /\ e <= e' <= e + Zpos (digits2_pos m) - 52 /\
    2 * Z.abs (Zpos m' * 2 ^ (e' - e) - Zpos m) <= 2 ^ (Zpos (digits2_pos m) - 53) /\
    (Zpos m mod 2 ^ (Zpos (digits2_pos m) - 53) = 0 -> Zpos m' * 2 ^ (e' - e) = Zpos m) /\
    Zpos (digits2_pos m') = 53.
Proof.
  intros Hd Hlo Hhi. pose proof (digits_spec m) as Hm. set (d := Zpos (digits2_pos m)) in *. set (k := d - 53).
  assert (Hk : 2 ^ d = 2 ^ 53 * 2 ^ k) by (rewrite <- Z.pow_add_r by lia; f_equal; lia).
  assert (Hk1 : 2 ^ (d - 1) = 2 ^ 52 * 2 ^ k) by (rewrite <- Z.pow_add_r by lia; f_equal; lia).
  assert (Hpk : 0 < 2 ^ k) by (apply Z.pow_pos_nonneg; lia).
  assert (Hfexp : forall x, -1000 <= x -> fexp 53 1024 (x + 53) = x) by (intros x Hx; unfold fexp, emin; lia).
  (* the first shift *)
  assert (Hshr : exists r, shr_fexp 53 1024 (Zpos m) e loc_Exact = (r, e + k) /\ shifted (Zpos m) k r).
  { unfold shr_fexp. cbn [Zdigits2]. fold d. replace (d + e) with (e + k + 53) by lia. rewrite Hfexp by lia.
    replace (e + k - e) with k by lia. unfold shr. destruct k as [|p|p] eqn:Hkp; [| |lia].
    - eexists. rewrite Z.add_0_r. split; [done|]. apply shifted_start. lia.
    - eexists. split; [done|]. apply (shifted_iter _ p 0). apply shifted_start. lia. }
  destruct Hshr as (r & Hshr & Hr). apply shifted_round in Hr as (Hnear & Hexact & Hq).
  unfold binary_round_aux. rewrite Hshr. remember (round_nearest_even (shr_m r) (loc_of_shr_record r)) as rounded eqn:Hrdef.
  clear Hrdef Hshr.
  assert (Hqlo : 2 ^ 52 <= Zpos m / 2 ^ k) by (apply Z.div_le_lower_bound; lia).
  assert (Hqhi : Zpos m / 2 ^ k < 2 ^ 53) by (apply Z.div_lt_upper_bound; lia).
  destruct rounded as [|q|q]; [lia| |lia].
  (* the carry *)
  destruct (Z.eq_dec (Zpos q) (2 ^ 53)) as [Hc|Hc].
  - assert (Hq53 : q = (2 ^ 53)%positive) by (apply Pos2Z.inj; rewrite Pos2Z.inj_pow; exact Hc).
    exists (2 ^ 52)%positive, (e + k + 1). rewrite Hq53. unfold shr_fexp.
    change (Zdigits2 (Zpos (2 ^ 53))) with 54. replace (54 + (e + k)) with (e + k + 1 + 53) by lia. rewrite Hfexp by lia.
    replace (e + k + 1 - (e + k)) with 1 by lia. cbn [shr]. rewrite (proj2 (Z.leb_le _ _)) by lia.
    assert (Hsame : Zpos (2 ^ 52) * 2 ^ (e + k + 1 - e) = Zpos q * 2 ^ k).
    { rewrite Hc. replace (e + k + 1 - e) with (k + 1) by lia. rewrite Z.pow_add_r by lia. rewrite Pos2Z.inj_pow. lia. }
    rewrite Hsame. split; [reflexivity|]. split; [lia|]. split; [exact Hnear|]. split; [exact Hexact|]. reflexivity.
  - assert (Hdq : Zpos (digits2_pos q) = 53) by (apply digits_unique; lia).
    exists q, (e + k). unfold shr_fexp. cbn [Zdigits2]. rewrite Hdq. replace (53 + (e + k)) with (e + k + 53) by lia.
    rewrite Hfexp by lia. rewrite Z.sub_diag. cbn [shr shr_record_of_loc shr_m]. rewrite (proj2 (Z.leb_le _ _)) by lia.
    replace (e + k - e) with k by lia. split; [done|]. split; [lia|]. split; [exact Hnear|]. split; [exact Hexact|]. reflexivity.
Qed.
(** [x] is the float of [V / 2^K]. *)
Definition is_at (x : spec_float) (V K : Z) : Prop :=
  exists m e, x = S754_finite false m e /\ Zpos (digits2_pos m) = 53 /\ 0 <= e + K /\ Zpos m * 2 ^ (e + K) = V.
Lemma iter_double m j : Zpos (Pos.iter xO m j) = Zpos m * 2 ^ Zpos j.
Proof.
  induction j as [|j IH] using Pos.peano_ind; [cbn; lia|].
  rewrite Pos.iter_succ, Pos2Z.inj_succ, Z.pow_succ_r, Pos2Z.inj_xO, IH by lia. lia.
Qed.
Lemma aligned m e e' : e' <= e -> Zpos (fst (shl_align m e e')) = Zpos m * 2 ^ (e - e') /\ snd (shl_align m e e') = e'.
Proof.
  intros He. unfold shl_align. destruct (e' - e) as [|j|j] eqn:Hj; [| lia |].
  - replace (e - e') with 0 by lia. cbn [fst snd]. lia.
  - replace (e - e') with (Zpos j) by lia. split; [apply iter_double|done].
Qed.
Lemma unaligned m e e' : e <= e' -> shl_align m e e' = (m, e).
Proof. intros He. unfold shl_align. destruct (e' - e) as [|j|j] eqn:Hj; [done|done|lia]. Qed.
Lemma fexp_normal x : -1000 <= x -> fexp 53 1024 x = x - 53.
Proof. intros Hx. unfold fexp, emin. lia. Qed.

(** What fits in 53 digits is not rounded. *)
Lemma round_exact m e j : -900 <= e <= 0 -> 0 <= j <= 60 -> Zpos m mod 2 ^ j = 0 -> Zpos (digits2_pos m) <= 53 + j ->
  forall K, 60 <= e + K -> is_at (binary_round 53 1024 false m e) (Zpos m * 2 ^ (e + K)) K.
Proof.
  intros He Hj Hmod Hd K HK. unfold binary_round. pose proof (digits_spec m) as Hm. set (d := Zpos (digits2_pos m)) in *.
  rewrite fexp_normal by lia.
  assert (Hout : exists mz ez, shl_align m e (d + e - 53) = (mz, ez) /\ Zpos mz * 2 ^ (ez + K) = Zpos m * 2 ^ (e + K) /\
    e - 53 <= ez <= e /\ ez = Z.min e (d + e - 53) /\ Zpos (digits2_pos mz) = Z.max 53 d /\ Zpos mz mod 2 ^ (Z.max 53 d - 53) = 0).
  { destruct (Z.le_gt_cases d 53) as [Hs|Hs].
    - destruct (aligned m e (d + e - 53)) as [H1' H2']; [lia|]. destruct (shl_align m e (d + e - 53)) as [mz ez]. cbn [fst snd] in *.
      subst ez. replace (e - (d + e - 53)) with (53 - d) in H1' by lia.
      exists mz, (d + e - 53). split; [done|]. split; [rewrite H1', <- Z.mul_assoc, <- Z.pow_add_r by lia; do 2 f_equal; lia|].
      split; [lia|]. split; [lia|]. replace (Z.max 53 d) with 53 by lia. split; [|apply Z.mod_1_r]. apply digits_unique; [lia|].
      rewrite H1'. replace (53 - 1) with (d - 1 + (53 - d)) by lia. replace (2 ^ 53) with (2 ^ (d + (53 - d))) by (f_equal; lia).
      rewrite !Z.pow_add_r by lia. assert (0 < 2 ^ (53 - d)) by (apply Z.pow_pos_nonneg; lia). nia.
    - rewrite unaligned by lia. exists m, e. fold d. split; [done|]. split; [done|]. split; [lia|]. split; [lia|]. split; [lia|].
      replace (Z.max 53 d) with d by lia. apply Z.mod_divide in Hmod as [w Hw]; [|apply Z.pow_nonzero; lia].
      apply Z.mod_divide; [apply Z.pow_nonzero; lia|]. exists (w * 2 ^ (j - (d - 53))). rewrite Hw, <- Z.mul_assoc, <- Z.pow_add_r by lia.
      do 2 f_equal. lia. }
  destruct Hout as (mz & ez & -> & Hval & Hez & Hez' & Hdz & Hmz).
  destruct (round_aux_near false mz ez) as (m' & e' & -> & He' & _ & Hex & Hd'); [lia|lia|lia|].
  rewrite Hdz in Hex. specialize (Hex Hmz). exists m', e'. split; [done|]. split; [done|]. split; [lia|].
  rewrite <- Hval, <- Hex, <- Z.mul_assoc, <- Z.pow_add_r by lia. do 2 f_equal. lia.
Qed.
Lemma digits_le p d : 0 <= d -> Zpos p < 2 ^ d -> Zpos (digits2_pos p) <= d.
Proof.
  intros Hd Hp. pose proof (digits_spec p) as Hs. destruct (Z.le_gt_cases (Zpos (digits2_pos p)) d) as [|Hgt]; [done|].
  assert (2 ^ d <= 2 ^ (Zpos (digits2_pos p) - 1)) by (apply Z.pow_le_mono_r; lia). lia.
Qed.
Lemma of_Z_at n K : 0 < n < 2 ^ 53 -> 60 <= K -> is_at (of_Z n) (n * 2 ^ K) K.
Proof.
  intros Hn HK. unfold of_Z, of_scaled, binary_normalize, prec, emax. destruct n as [|n|n]; [lia| |lia].
  apply (round_exact n 0 0); [lia|lia|apply Z.mod_1_r|apply digits_le; lia|lia].
Qed.
Lemma to_Z_at x n K : is_at x (n * 2 ^ K) K -> 0 <= K -> to_Z x = n.
Proof.
  intros (m & e & -> & _ & He & Hv) HK. cbn [to_Z]. destruct (0 <=? e) eqn:H0.
  - rewrite Z.pow_add_r, Z.mul_assoc in Hv by lia. apply Z.mul_cancel_r in Hv; [done|]. apply Z.pow_nonzero; lia.
  - symmetry. apply Z.div_unique_exact; [apply Z.pow_nonzero; lia|].
    replace K with (e + K + (- e)) in Hv at 2 by lia. rewrite (Z.pow_add_r 2 (e + K) (- e)) in Hv by lia.
    apply (Z.mul_cancel_r _ _ (2 ^ (e + K))); [apply Z.pow_nonzero; lia|]. lia.
Qed.
Lemma to_Z_of_Z n : 0 <= n < 2 ^ 53 -> to_Z (of_Z n) = n.
Proof. intros Hn. destruct (Z.eq_dec n 0) as [->|]; [done|]. apply (to_Z_at _ n 60); [apply of_Z_at; lia|lia]. Qed.

(** The difference of two small integers is exact. *)
Lemma pred_at n : 0 < n <= 5000 -> is_at (sub (of_Z (n + 1)) (of_Z 1)) (n * 2 ^ 120) 120.
Proof.
  intros Hn. destruct (of_Z_at (n + 1) 120) as (m & e & Hx & Hd & He & Hv); [lia|lia|].
  rewrite Hx. change (of_Z 1) with (S754_finite false (2 ^ 52) (-52)). unfold sub, SFsub.
  assert (Hm := digits_spec m). rewrite Hd in Hm.
  assert (He52 : -52 <= e).
  { destruct (Z.le_gt_cases (-52) e) as [|Hlt]; [done|]. assert (2 ^ (e + 120) <= 2 ^ 67) by (apply Z.pow_le_mono_r; lia).
    assert (0 < 2 ^ (e + 120)) by (apply Z.pow_pos_nonneg; lia). nia. }
  replace (Z.min e (-52)) with (-52) by lia. rewrite (unaligned (2 ^ 52) (-52) (-52)) by lia.
  destruct (aligned m e (-52)) as [H1' _]; [lia|]. cbn [fst cond_Zopp]. rewrite H1'. unfold prec, emax.
  replace (Zpos m * 2 ^ (e - -52) - Zpos (2 ^ 52)) with (n * 2 ^ 52).
  2: { replace (e + 120) with (e - -52 + 68) in Hv by lia. rewrite Z.pow_add_r, Z.mul_assoc in Hv by lia. rewrite Pos2Z.inj_pow. lia. }
  destruct (n * 2 ^ 52) as [|q|q] eqn:Hq; [lia| |lia]. cbn [binary_normalize].
  replace (n * 2 ^ 120) with (Zpos q * 2 ^ (-52 + 120)) by (rewrite <- Hq; change (2 ^ 120) with (2 ^ 52 * 2 ^ (-52 + 120)); ring).
  apply (round_exact q (-52) 52); [lia|lia|rewrite <- Hq; apply Z.mod_mul; lia|apply digits_le; lia|lia].
Qed.

(** A percentage of a small integer, computed and rounded in floating point,
    is the nearest integer to it. *)
Lemma percent_near f mf p n : f = S754_finite false mf (-53) -> Zpos (digits2_pos mf) = 53 ->
  Z.abs (100 * Zpos mf - p * 2 ^ 53) <= 100 -> 0 <= p <= 100 -> 0 <= n <= 5000 ->
  Z.abs (100 * to_Z (round (mul f (sub (of_Z (n + 1)) (of_Z 1)))) - p * n) <= 50.
Proof.
  intros -> Hdf Hmf Hp Hn. destruct (Z.eq_dec n 0) as [->|Hn0]; [change (sub (of_Z (0 + 1)) (of_Z 1)) with (S754_zero false); cbn [mul SFmul xorb round to_Z]; lia|].
  destruct (pred_at n) as (my & ey & -> & Hdy & Hey & Hv); [lia|].
  assert (Hmfd := digits_spec mf). assert (Hmyd := digits_spec my). rewrite Hdf in Hmfd. rewrite Hdy in Hmyd.
  assert (Hey' : -52 <= ey <= -40).
  { split.
    - destruct (Z.le_gt_cases (-52) ey) as [|Hlt]; [done|]. assert (2 ^ (ey + 120) <= 2 ^ 67) by (apply Z.pow_le_mono_r; lia).
      assert (0 < 2 ^ (ey + 120)) by (apply Z.pow_pos_nonneg; lia). nia.
    - destruct (Z.le_gt_cases ey (-40)) as [|Hlt]; [done|]. assert (2 ^ 81 <= 2 ^ (ey + 120)) by (apply Z.pow_le_mono_r; lia). nia. }
  cbn [mul SFmul xorb]. unfold prec, emax.
  assert (Hprod : 2 ^ 104 <= Zpos (mf * my) < 2 ^ 106) by nia.
  assert (HD : 105 <= Zpos (digits2_pos (mf * my)) <= 106).
  { split; [|apply digits_le; lia]. pose proof (digits_spec (mf * my)) as Hs.
    destruct (Z.le_gt_cases 105 (Zpos (digits2_pos (mf * my)))) as [|Hlt]; [done|].
    assert (2 ^ Zpos (digits2_pos (mf * my)) <= 2 ^ 104) by (apply Z.pow_le_mono_r; lia). lia. }
  destruct (round_aux_near false (mf * my) (-53 + ey)) as (m' & e' & -> & He' & Hnear & _ & Hd'); [lia|lia|lia|].
  assert (Hnear' : Z.abs (Zpos m' * 2 ^ (e' + 53 - ey) - Zpos (mf * my)) <= 2 ^ 52).
  { replace (e' - (-53 + ey)) with (e' + 53 - ey) in Hnear by lia.
    assert (2 ^ (Zpos (digits2_pos (mf * my)) - 53) <= 2 ^ 53) by (apply Z.pow_le_mono_r; lia). lia. }
  clear Hnear. cbn [round]. replace (0 <=? e') with false by lia. set (d := 2 ^ (- e')).
  assert (Hd : 0 < d /\ d = 2 * (d / 2)).
  { subst d. replace (- e') with (Z.succ (- e' - 1)) by lia. rewrite Z.pow_succ_r by lia. rewrite Z.mul_comm, Z.div_mul by lia.
    split; [|lia]. assert (0 < 2 ^ (- e' - 1)) by (apply Z.pow_pos_nonneg; lia). lia. }
  set (q := (Zpos m' + d / 2) / d).
  assert (Hq : 2 * Z.abs (q * d - Zpos m') <= d).
  { pose proof (Z.div_mod (Zpos m' + d / 2) d ltac:(lia)) as Hdm. pose proof (Z.mod_pos_bound (Zpos m' + d / 2) d ltac:(lia)). fold q in Hdm. lia. }
  assert (Hq0 : 0 <= q) by (apply Z.div_pos; lia).
  (* everything in units of 2^-173 *)
  assert (Hscale : 100 * (q * 2 ^ 173) - p * n * 2 ^ 173 =
    100 * (2 ^ (e' + 173) * (q * d - Zpos m')) + 100 * (2 ^ (ey + 120) * (Zpos m' * 2 ^ (e' + 53 - ey) - Zpos (mf * my)))
    + n * 2 ^ 120 * (100 * Zpos mf - p * 2 ^ 53)).
  { assert (Ha : 2 ^ 173 = 2 ^ (e' + 173) * d) by (subst d; rewrite <- Z.pow_add_r by lia; f_equal; lia).
    assert (Hb : 2 ^ (e' + 173) = 2 ^ (ey + 120) * 2 ^ (e' + 53 - ey)) by (rewrite <- Z.pow_add_r by lia; f_equal; lia).
    assert (Hc : Zpos (mf * my) * 2 ^ (ey + 120) = Zpos mf * (n * 2 ^ 120)) by (rewrite Pos2Z.inj_mul, <- Hv; lia).
    replace (2 ^ 173) with (2 ^ 120 * 2 ^ 53) at 2 by reflexivity. rewrite Ha. 
    transitivity (100 * (q * (2 ^ (e' + 173) * d)) - 100 * (2 ^ (e' + 173) * Zpos m')
      + 100 * (2 ^ (ey + 120) * 2 ^ (e' + 53 - ey) * Zpos m') - 100 * (Zpos (mf * my) * 2 ^ (ey + 120))
      + n * 2 ^ 120 * 100 * Zpos mf - p * n * (2 ^ 120 * 2 ^ 53)); [rewrite <- Hb, Hc; ring|ring]. }
  assert (H1' : 2 * Z.abs (2 ^ (e' + 173) * (q * d - Zpos m')) <= 2 ^ 173).
  { assert (Ha : 2 ^ 173 = 2 ^ (e' + 173) * d) by (subst d; rewrite <- Z.pow_add_r by lia; f_equal; lia).
    assert (0 < 2 ^ (e' + 173)) by (apply Z.pow_pos_nonneg; lia). rewrite Ha, Z.abs_mul, (Z.abs_eq (2 ^ (e' + 173))) by lia.
    rewrite Z.mul_shuffle3. apply Z.mul_le_mono_nonneg_l; [clear -H; lia|exact Hq]. }
  assert (H2' : Z.abs (2 ^ (ey + 120) * (Zpos m' * 2 ^ (e' + 53 - ey) - Zpos (mf * my))) <= 2 ^ 132).
  { assert (0 < 2 ^ (ey + 120)) by (apply Z.pow_pos_nonneg; lia). assert (2 ^ (ey + 120) <= 2 ^ 80) by (apply Z.pow_le_mono_r; lia).
    rewrite Z.abs_mul, (Z.abs_eq (2 ^ (ey + 120))) by lia. change (2 ^ 132) with (2 ^ 80 * 2 ^ 52). apply Z.mul_le_mono_nonneg; lia. }
  assert (H3' : Z.abs (n * 2 ^ 120 * (100 * Zpos mf - p * 2 ^ 53)) <= 5000 * 2 ^ 120 * 100).
  { rewrite Z.abs_mul, (Z.abs_eq (n * 2 ^ 120)) by lia. apply Z.mul_le_mono_nonneg; lia. }
  assert (Hq5 : -50 <= 100 * q - p * n <= 50).
  { revert H1' H2' H3' Hscale. generalize (2 ^ (e' + 173) * (q * d - Zpos m')) (2 ^ (ey + 120) * (Zpos m' * 2 ^ (e' + 53 - ey) - Zpos (mf * my)))
      (n * 2 ^ 120 * (100 * Zpos mf - p * 2 ^ 53)) (p * n). clear. intros. lia. }
  assert (Hpn : p * n <= 100 * 5000) by (apply Z.mul_le_mono_nonneg; lia).
  assert (Hlt : q < 2 ^ 53) by (clear - Hq5 Hpn; lia).
  replace (to_Z _) with q; [clear - Hq5; lia|].
  destruct q as [|q'|q']; [done| |lia]. symmetry. apply to_Z_of_Z. lia.
Qed.

(** ** Integers are exact

    The sums, products and quotients of integers that are integers below
    [2^53] are computed without rounding, and compared as integers. *)
Definition at_int (x : spec_float) (n : Z) : Prop := is_at x (n * 2 ^ 120) 120.
Lemma is_at_unique x y V K : is_at x V K -> is_at y V K -> x = y.
Proof.
  intros (m & e & -> & Hd & He & Hv) (m' & e' & -> & Hd' & He' & <-).
  pose proof (digits_spec m) as Hm. pose proof (digits_spec m') as Hm'. rewrite Hd in Hm. rewrite Hd' in Hm'.
  assert (Hless : forall m m' e e', 0 <= e + K -> 2 ^ 52 <= Zpos m' -> Zpos m < 2 ^ 53 -> e < e' ->
    Zpos m * 2 ^ (e + K) = Zpos m' * 2 ^ (e' + K) -> False).
  { clear. intros m m' e e' He Hm' Hm Hlt Heq. replace (e' + K) with (e' - e + (e + K)) in Heq by lia.
    rewrite (Z.pow_add_r 2 (e' - e)), Z.mul_assoc in Heq by lia. apply Z.mul_cancel_r in Heq; [|apply Z.pow_nonzero; lia].
    assert (2 ^ 1 <= 2 ^ (e' - e)) by (apply Z.pow_le_mono_r; lia). nia. }
  destruct (Z.lt_trichotomy e e') as [Hlt|[->|Hlt]]; [exfalso; apply (Hless m m' e e'); lia| |exfalso; apply (Hless m' m e' e); lia].
  apply Z.mul_cancel_r in Hv; [by injection Hv as ->|apply Z.pow_nonzero; lia].
Qed.
(** The mantissa and the exponent of an integer. *)
Lemma at_int_inv x n : at_int x n -> 0 < n < 2 ^ 53 ->
  exists m e, x = S754_finite false m e /\ 2 ^ 52 <= Zpos m < 2 ^ 53 /\ Zpos (digits2_pos m) = 53 /\
    -52 <= e <= 0 /\ Zpos m = n * 2 ^ (- e).
Proof.
  intros (m & e & -> & Hd & He & Hv) Hn. pose proof (digits_spec m) as Hm. rewrite Hd in Hm.
  exists m, e. split; [done|]. split; [exact Hm|]. split; [exact Hd|].
  assert (Hlo : -52 <= e).
  { destruct (Z.le_gt_cases (-52) e) as [|Hlt]; [done|]. assert (2 ^ (e + 120) <= 2 ^ 67) by (apply Z.pow_le_mono_r; lia).
    assert (0 < 2 ^ (e + 120)) by (apply Z.pow_pos_nonneg; lia). nia. }
  assert (Hhi : e <= 0).
  { destruct (Z.le_gt_cases e 0) as [|Hlt]; [done|]. assert (2 ^ 121 <= 2 ^ (e + 120)) by (apply Z.pow_le_mono_r; lia). nia. }
  split; [lia|]. replace 120 with (e + 120 + - e) in Hv at 2 by lia. rewrite (Z.pow_add_r 2 (e + 120) (- e)) in Hv by lia.
  apply (Z.mul_cancel_r _ _ (2 ^ (e + 120))); [apply Z.pow_nonzero; lia|]. lia.
Qed.
Lemma at_of_Z n : 0 < n < 2 ^ 53 -> at_int (of_Z n) n.
Proof. intros Hn. apply of_Z_at; lia. Qed.
Lemma at_eq x n : 0 < n < 2 ^ 53 -> at_int x n -> x = of_Z n.
Proof. intros Hn Hx. by apply (is_at_unique _ _ (n * 2 ^ 120) 120), at_of_Z. Qed.
(** The digits of a shifted integer. *)
Lemma shifted_digits q n j : 0 < n < 2 ^ 53 -> 0 <= j -> Zpos q = n * 2 ^ j -> Zpos (digits2_pos q) <= 53 + j.
Proof.
  intros Hn Hj Hq. apply digits_le; [lia|]. rewrite Hq, Z.pow_add_r by lia. apply Z.mul_lt_mono_pos_r; [|lia]. apply Z.pow_pos_nonneg; lia.
Qed.
Lemma round_aux_int q e n : 0 < n < 2 ^ 53 -> -110 <= e <= 0 -> Zpos q = n * 2 ^ (- e) -> 53 <= Zpos (digits2_pos q) ->
  at_int (round_aux false (Zpos q) e loc_Exact) n.
Proof.
  intros Hn He Hq Hd. pose proof (shifted_digits q n (- e) Hn ltac:(lia) Hq) as Hle.
  destruct (round_aux_near false q e) as (m' & e' & -> & He' & _ & Hex & Hd'); [lia|lia|lia|].
  assert (Hmod : Zpos q mod 2 ^ (Zpos (digits2_pos q) - 53) = 0).
  { rewrite Hq. replace (- e) with (- e - (Zpos (digits2_pos q) - 53) + (Zpos (digits2_pos q) - 53)) by lia.
    rewrite (Z.pow_add_r 2 (- e - (Zpos (digits2_pos q) - 53))) by lia. rewrite Z.mul_assoc. apply Z.mod_mul, Z.pow_nonzero; lia. }
  specialize (Hex Hmod). exists m', e'. split; [done|]. split; [done|]. split; [lia|].
  replace (e' + 120) with (e' - e + (e + 120)) by lia. rewrite Z.pow_add_r, Z.mul_assoc, Hex, Hq by lia.
  rewrite <- Z.mul_assoc, <- Z.pow_add_r by lia. do 2 f_equal. lia.
Qed.

Lemma add_int a b : 0 <= a -> 0 <= b -> a + b < 2 ^ 53 -> add (of_Z a) (of_Z b) = of_Z (a + b).
Proof.
  intros Ha Hb Hab. destruct (Z.eq_dec a 0) as [->|Ha0].
  { rewrite Z.add_0_l. destruct (Z.eq_dec b 0) as [->|Hb0]; [done|].
    by destruct (at_int_inv _ b (at_of_Z b ltac:(lia)) ltac:(lia)) as (m & e & -> & _). }
  destruct (at_int_inv _ a (at_of_Z a ltac:(lia)) ltac:(lia)) as (m & e & Hx & _ & _ & He & Hm).
  destruct (Z.eq_dec b 0) as [->|Hb0]; [rewrite Z.add_0_r; by rewrite Hx|].
  destruct (at_int_inv _ b (at_of_Z b ltac:(lia)) ltac:(lia)) as (m' & e' & Hy & _ & _ & He' & Hm').
  rewrite Hx, Hy. apply at_eq; [lia|]. unfold add, SFadd. set (ez := Z.min e e').
  destruct (aligned m e ez) as [H1' _]; [lia|]. destruct (aligned m' e' ez) as [H2' _]; [lia|]. cbn [cond_Zopp]. rewrite H1', H2'.
  assert (Hq : Zpos m * 2 ^ (e - ez) + Zpos m' * 2 ^ (e' - ez) = (a + b) * 2 ^ (- ez)).
  { rewrite Hm, Hm', <- !Z.mul_assoc, <- !Z.pow_add_r by lia. rewrite Z.mul_add_distr_r. do 3 f_equal; lia. }
  rewrite Hq. assert (0 < 2 ^ (- ez)) by (apply Z.pow_pos_nonneg; lia).
  destruct ((a + b) * 2 ^ (- ez)) as [|q|q] eqn:Hqe; [lia| |lia]. cbn [binary_normalize].
  assert (Hr : is_at (binary_round 53 1024 false q ez) (Zpos q * 2 ^ (ez + 120)) 120).
  { apply (round_exact q ez (- ez)); [lia|lia| |apply (shifted_digits q (a + b)); lia|lia].
    rewrite <- Hqe. apply Z.mod_mul, Z.pow_nonzero; lia. }
  unfold at_int. replace ((a + b) * 2 ^ 120) with (Zpos q * 2 ^ (ez + 120)); [exact Hr|].
  rewrite <- Hqe, <- Z.mul_assoc, <- Z.pow_add_r by lia. do 2 f_equal. lia.
Qed.
Lemma mul_int a b : 0 <= a -> 0 <= b -> a * b < 2 ^ 53 -> a < 2 ^ 53 -> b < 2 ^ 53 -> mul (of_Z a) (of_Z b) = of_Z (a * b).
Proof.
  intros Ha Hb Hab Ha53 Hb53. destruct (Z.eq_dec a 0) as [->|Ha0].
  { rewrite Z.mul_0_l. destruct (Z.eq_dec b 0) as [->|Hb0]; [done|].
    by destruct (at_int_inv _ b (at_of_Z b ltac:(lia)) ltac:(lia)) as (m & e & -> & _). }
  destruct (at_int_inv _ a (at_of_Z a ltac:(lia)) ltac:(lia)) as (m & e & Hx & Hm52 & Hd & He & Hm).
  destruct (Z.eq_dec b 0) as [->|Hb0]; [rewrite Z.mul_0_r; by rewrite Hx|].
  destruct (at_int_inv _ b (at_of_Z b ltac:(lia)) ltac:(lia)) as (m' & e' & Hy & Hm52' & Hd' & He' & Hm').
  rewrite Hx, Hy. apply at_eq; [nia|]. cbn [mul SFmul xorb]. unfold prec, emax. apply round_aux_int; [nia|lia| |].
  - rewrite Pos2Z.inj_mul, Hm, Hm'. replace (- (e + e')) with (- e + - e') by lia. rewrite Z.pow_add_r by lia. ring.
  - pose proof (digits_spec (m * m')) as Hs. destruct (Z.le_gt_cases 53 (Zpos (digits2_pos (m * m')))) as [|Hlt]; [done|].
    assert (2 ^ Zpos (digits2_pos (m * m')) <= 2 ^ 52) by (apply Z.pow_le_mono_r; lia).
    assert (2 ^ 52 * 2 ^ 52 <= Zpos m * Zpos m') by (apply Z.mul_le_mono_nonneg; lia). lia.
Qed.
Lemma div_int k c : 0 < k < 2 ^ 53 -> 0 < c < 2 ^ 53 -> k * c < 2 ^ 53 -> div (of_Z (k * c)) (of_Z k) = of_Z c.
Proof.
  intros Hk Hc Hkc. assert (0 < k * c) by nia.
  destruct (at_int_inv _ (k * c) (at_of_Z (k * c) ltac:(lia)) ltac:(lia)) as (m & e & Hx & Hm52 & Hd & He & Hm).
  destruct (at_int_inv _ k (at_of_Z k ltac:(lia)) ltac:(lia)) as (m' & e' & Hy & Hm52' & Hd' & He' & Hm').
  rewrite Hx, Hy. apply at_eq; [lia|]. unfold div, SFdiv, SFdiv_core_binary, prec, emax. cbn [Zdigits2 xorb]. rewrite Hd, Hd'.
  rewrite fexp_normal by lia. replace (Z.min (53 + e - (53 + e') - 53) (e - e')) with (e - e' - 53) by lia.
  replace (e - e' - (e - e' - 53)) with 53 by lia. rewrite Z.shiftl_mul_pow2 by lia.
  assert (Hq : Zpos m * 2 ^ 53 = c * 2 ^ (53 - e + e') * Zpos m').
  { rewrite Hm, Hm'. transitivity (k * c * 2 ^ (- e + 53)); [rewrite Z.pow_add_r by lia; ring|].
    replace (- e + 53) with (53 - e + e' + - e') by lia. rewrite (Z.pow_add_r 2 (53 - e + e')) by lia. ring. }
  assert (Hp : 0 < 2 ^ (53 - e + e')) by (apply Z.pow_pos_nonneg; lia).
  pose proof (Z.div_eucl_eq (Zpos m * 2 ^ 53) (Zpos m') ltac:(lia)) as Heq.
  pose proof (Z.mod_mul (c * 2 ^ (53 - e + e')) (Zpos m') ltac:(lia)) as Hmod. rewrite <- Hq in Hmod.
  pose proof (Z.div_mul (c * 2 ^ (53 - e + e')) (Zpos m') ltac:(lia)) as Hdiv. rewrite <- Hq in Hdiv.
  unfold Z.modulo in Hmod. unfold Z.div in Hdiv. destruct (Z.div_eucl _ _) as [q r]. subst q r.
  assert (new_location (Zpos m') 0 = loc_Exact) as -> by (unfold new_location, new_location_even, new_location_odd; by destruct (Z.even _)).
  destruct (c * 2 ^ (53 - e + e')) as [|q|q] eqn:Hqe; [nia| |nia]. apply round_aux_int; [lia|lia| |].
  - rewrite <- Hqe. do 2 f_equal. lia.
  - pose proof (digits_spec q) as Hs. destruct (Z.le_gt_cases 53 (Zpos (digits2_pos q))) as [|Hlt]; [done|].
    assert (2 ^ Zpos (digits2_pos q) <= 2 ^ 52) by (apply Z.pow_le_mono_r; lia). nia.
Qed.
Lemma sub_same n : 0 <= n < 2 ^ 53 -> sub (of_Z n) (of_Z n) = of_Z 0.
Proof.
  intros Hn. destruct (Z.eq_dec n 0) as [->|Hn0]; [done|].
  destruct (at_int_inv _ n (at_of_Z n ltac:(lia)) ltac:(lia)) as (m & e & -> & _). unfold sub, SFsub. cbn [cond_Zopp]. by rewrite Z.sub_diag.
Qed.
Lemma ltb_int a b : 0 <= a < 2 ^ 53 -> 0 <= b < 2 ^ 53 -> ltb (of_Z a) (of_Z b) = (a <? b).
Proof.
  intros Ha Hb. destruct (Z.eq_dec a 0) as [->|Ha0], (Z.eq_dec b 0) as [->|Hb0]; [done|..].
  - destruct (at_int_inv _ b (at_of_Z b ltac:(lia)) ltac:(lia)) as (m & e & -> & _). unfold ltb. cbn [of_Z of_scaled binary_normalize SFcompare]. symmetry. by apply Z.ltb_lt; lia.
  - destruct (at_int_inv _ a (at_of_Z a ltac:(lia)) ltac:(lia)) as (m & e & -> & _). unfold ltb. cbn [of_Z of_scaled binary_normalize SFcompare]. symmetry. by apply Z.ltb_ge; lia.
  - destruct (at_int_inv _ a (at_of_Z a ltac:(lia)) ltac:(lia)) as (m & e & -> & Hm52 & _ & He & Hm).
    destruct (at_int_inv _ b (at_of_Z b ltac:(lia)) ltac:(lia)) as (m' & e' & -> & Hm52' & _ & He' & Hm').
    unfold ltb. cbn [SFcompare]. change (PosDef.Pos.compare_cont Eq m m') with (m ?= m')%positive.
    assert (Hless : forall x y i j, -52 <= i <= 0 -> -52 <= j <= 0 -> x * 2 ^ (- i) < 2 ^ 53 -> 2 ^ 52 <= y * 2 ^ (- j) -> i < j -> x < y).
    { clear. intros x y i j Hi Hj Hx Hy Hij. replace (- i) with (- j + (j - i)) in Hx by lia.
      rewrite (Z.pow_add_r 2 (- j)), Z.mul_assoc in Hx by lia. destruct (Z.lt_ge_cases x y) as [|Hge]; [done|]. exfalso.
      assert (2 ^ 1 <= 2 ^ (j - i)) by (apply Z.pow_le_mono_r; lia). assert (0 < 2 ^ (- j)) by (apply Z.pow_pos_nonneg; lia).
      assert (y * 2 ^ (- j) <= x * 2 ^ (- j)) by (apply Z.mul_le_mono_pos_r; lia).
      assert (2 ^ 52 * 2 ^ 1 <= x * 2 ^ (- j) * 2 ^ (j - i)) by (apply Z.mul_le_mono_nonneg; lia). lia. }
    destruct (Z.compare_spec e e') as [<-|Hlt|Hlt].
    + assert (Hp : 0 < 2 ^ (- e)) by (apply Z.pow_pos_nonneg; lia).
      change (m ?= m')%positive with (Zpos m ?= Zpos m'). rewrite Hm, Hm'. rewrite <- Zmult_compare_compat_r by lia. done.
    + assert (a < b) by (apply (Hless a b e e'); lia). symmetry. apply Z.ltb_lt. lia.
    + assert (b < a) by (apply (Hless b a e' e); lia). symmetry. apply Z.ltb_ge. lia.
Qed.
End rounding.
End F64.

Example float_test :
  map (fun x => F64.fixed1 x) [F64.decimals 10 (F64.mul (F64.ratio 1 3) (F64.of_Z 100)); F64.ratio 1 4; F64.ratio 3 4; F64.of_Z (-7)]
  = [lit "33.3"; lit "0.2"; lit "0.8"; lit "-7.0"].
Proof. vm_compute. reflexivity. Qed.
Example round_test : map (fun x => F64.to_Z (F64.round x)) [F64.ratio 5 2; F64.ratio (-5) 2; F64.ratio 49 100; F64.of_Z 3] = [3; -3; 0; 3].
Proof. vm_compute. reflexivity. Qed.
