(* ===== verification/Dashboard.v ===== *)
(** * The dashboard: src/api/handlers/dashboard.rs

    Counts, rates, rankings and percentiles over a window of the query log.
    The window of a call ends when the call is made; all statements of a call
    see the same time here. *)
From S2P Require Import Prelude RustStr IpAddr Regex Rules Acl Moka Hickory Cache Db DbLogic Filter Resolver.
From S2P Require Import UpstreamPool Handler HandlerTests Api App Auth AppTests Listing Tables Groups Conditions RuleStats QueryLog Float.
Local Open Scope N_scope.

(** [TO_CHAR(date_trunc('hour', ..), ..)] of the n-th hour since 1970, and
    [CAST(a * 100.0 / b AS FLOAT8)]. *)
Class HourText := { hour_text : N -> str }.
Class SqlRatio := { percent_float8 : Z -> Z -> F64.f64 }.

Module Dashboard.
Import F64.
Section dashboard.
Context `{RustUnicode, RegexEngine, SerdeJson, Collation, IpNetCrate, Moka, Rng,
  Hickory, !HickoryResolver, !DnsCodec, Jwt, SqlTime, GroupOrder, HourText, SqlRatio}.
Import Api.

(** [params.hours.unwrap_or(24).clamp(1, 720)] *)
Definition trend_hours (hours : option Z) : Z := Z.min (Z.max (default 24%Z hours) 1) 720.
(** Rows from a number of seconds before now, and before another. *)
Definition since (now : N) (secs : Z) (r : QueryLogRow) : bool :=
  ((Z.of_N now - secs) * 1000000000 <=? Z.of_N (q_time r))%Z.
Definition between (now : N) (from to : Z) (r : QueryLogRow) : bool := since now from r && negb (since now to r).
Definition has_status (st : string) (r : QueryLogRow) : bool := q_status r =s? st.
Definition count_where (test : QueryLogRow -> bool) (t : Db) : Z := Z.of_nat (length (List.filter test (query_log t))).
Definition count (test : QueryLogRow -> bool) : M App AppError Z := db (fetch_one (fun t => Some (count_where test t))).

(** ** get_stats *)

Record DashboardStats := {
  ds_total : Z; ds_blocked : Z; ds_allowed : Z; ds_cached : Z; ds_block_rate : f64; ds_last_week_block_rate : f64;
  ds_filter_rules : Z; ds_filter_lists : Z; ds_clients : Z; ds_qps : f64; ds_yesterday_total : Z; ds_yesterday_blocked : Z }.
Definition offset_days (hours : Z) : Z := to_Z (round (ratio hours 24)).
Definition get_stats (d : Draws) (p : Parts) (hours : option Z) : M App AppError DashboardStats :=
  AuthUser d p ;;;
  let hours := trend_hours hours in
  let now := d_utc d in
  let window := since now (hours * 3600) in
  let yesterday := between now (hours * 2 * 3600) (hours * 3600) in
  let week := between now ((offset_days hours + 7) * 86400) (offset_days hours * 86400) in
  let! total := count window in
  let! blocked := count (fun r => has_status "blocked" r && window r) in
  let! cached := count (fun r => has_status "cached" r && window r) in
  let allowed := (total - blocked - cached)%Z in
  let block_rate := if (0 <? total)%Z then mul (ratio blocked total) (of_Z 100) else of_Z 0 in
  let! filter_rules := db (fetch_one (fun t => Some (Z.of_nat (length (List.filter cr_is_enabled (custom_rules t)))))) in
  let! filter_lists := db (fetch_one (fun t => Some (Z.of_nat (length (List.filter fl_is_enabled (Db.filter_lists t)))))) in
  let! clients := db (fetch_one (fun t =>
    Some (Z.of_nat (length (remove_dups (map (fun r : QueryLogRow => q_client_ip r) (List.filter window (query_log t)))))))) in
  let! yesterday_total := count yesterday in
  let! yesterday_blocked := count (fun r => has_status "blocked" r && yesterday r) in
  let! week_total := count week in
  let! week_blocked := count (fun r => has_status "blocked" r && week r) in
  let! recent_count := count (since now 60) in
  ret {| ds_total := total; ds_blocked := blocked; ds_allowed := allowed; ds_cached := cached;
         ds_block_rate := decimals 10 block_rate;
         ds_last_week_block_rate :=
           if (0 <? week_total)%Z then div (round (mul (ratio week_blocked week_total) (of_Z 1000))) (of_Z 10) else of_Z 0;
         ds_filter_rules := filter_rules; ds_filter_lists := filter_lists; ds_clients := clients;
         ds_qps := decimals 10 (ratio recent_count 60);
         ds_yesterday_total := yesterday_total; ds_yesterday_blocked := yesterday_blocked |}.

(** ** Rankings *)

(** [GROUP BY column]: its values, each with its rows. *)
Definition groups_by (key : QueryLogRow -> str) (rows : list QueryLogRow) : list (str * list QueryLogRow) :=
  arrange (map (fun k => (k, List.filter (fun r => key r =s? k) rows)) (remove_dups (map key rows))).
(** [ORDER BY cnt DESC LIMIT n] *)
Definition most {A} (n : nat) (size : A -> Z) (l : list A) : list A := take n (sort_by_key (fun x => - size x)%Z l).
Definition rows_of (g : str * list QueryLogRow) : Z := Z.of_nat (length (snd g)).
Definition top_questions (test : QueryLogRow -> bool) (t : Db) : list (str * Z) :=
  most 10 snd (map (fun g => (fst g, rows_of g)) (groups_by (fun r => q_question r) (List.filter test (query_log t)))).
Definition get_top_blocked_domains (d : Draws) (p : Parts) (hours : option Z) : M App AppError (list (str * Z)) :=
  AuthUser d p ;;;
  db (fetch_all (top_questions (fun r => has_status "blocked" r && since (d_utc d) (trend_hours hours * 3600) r))).
Definition get_top_queried_domains (d : Draws) (p : Parts) (hours : option Z) : M App AppError (list (str * Z)) :=
  AuthUser d p ;;;
  db (fetch_all (top_questions (since (d_utc d) (trend_hours hours * 3600)))).
Record TopClient := { tcl_client_ip : str; tcl_count : Z; tcl_blocked_count : Z; tcl_block_rate : f64 }.
Definition blocked_of (rows : list QueryLogRow) : Z := Z.of_nat (length (List.filter (has_status "blocked") rows)).
Definition top_clients (now : N) (hours : Z) (t : Db) : list (str * Z * Z) :=
  most 10 (fun x => snd (fst x)) (map (fun g => (fst g, rows_of g, blocked_of (snd g)))
    (groups_by (fun r => q_client_ip r) (List.filter (since now (hours * 3600)) (query_log t)))).
Definition client_view (x : str * Z * Z) : TopClient :=
  let '(client_ip, count, blocked_count) := x in
  {| tcl_client_ip := client_ip; tcl_count := count; tcl_blocked_count := blocked_count;
     tcl_block_rate :=
       if (0 <? count)%Z then div (round (mul (mul (ratio blocked_count count) (of_Z 100)) (of_Z 10))) (of_Z 10) else of_Z 0 |}.
Definition get_top_clients (d : Draws) (p : Parts) (hours : option Z) : M App AppError (list TopClient) :=
  AuthUser d p ;;;
  let! rows := db (fetch_all (top_clients (d_utc d) (trend_hours hours))) in
  ret (map client_view rows).

(** ** Trends *)

(** [date_trunc('hour', time)] *)
Definition hour_of (r : QueryLogRow) : N := q_time r / 3600000000000.
Definition hours_in (rows : list QueryLogRow) : list N := sort_by_key Z.of_N (remove_dups (map hour_of rows)).
Definition in_hour (h : N) (rows : list QueryLogRow) : list QueryLogRow := List.filter (fun r => hour_of r =? h) rows.
Record TrendPoint := { tpt_time : str; tpt_total : Z; tpt_blocked : Z; tpt_allowed : Z; tpt_cached : Z }.
Definition trend_point (rows : list QueryLogRow) (h : N) : TrendPoint :=
  let here := in_hour h rows in
  let counted (st : string) := Z.of_nat (length (List.filter (has_status st) here)) in
  {| tpt_time := hour_text h; tpt_total := Z.of_nat (length here); tpt_blocked := counted "blocked";
     tpt_allowed := counted "allowed"; tpt_cached := counted "cached" |}.
Definition query_trend (now : N) (hours : Z) (t : Db) : list TrendPoint :=
  let rows := List.filter (since now (hours * 3600)) (query_log t) in
  map (trend_point rows) (hours_in rows).
Definition get_query_trend (d : Draws) (p : Parts) (hours : option Z) : M App AppError (list TrendPoint) :=
  AuthUser d p ;;; db (fetch_all (query_trend (d_utc d) (trend_hours hours))).

Definition upstream_rows (now : N) (hours : Z) (t : Db) : list (str * QueryLogRow) :=
  filter_map (fun r : QueryLogRow =>
    match q_upstream_name r with Some u => if since now (hours * 3600) r then Some (u, r) else None | None => None end)
    (query_log t).
Definition of_upstream (u : str) (rows : list (str * QueryLogRow)) : list QueryLogRow :=
  map snd (List.filter (fun x => fst x =s? u) rows).
Definition upstream_counts (now : N) (hours : Z) (t : Db) : list (str * Z) :=
  let rows := upstream_rows now hours t in
  sort_by_key (fun x => - snd x)%Z
    (arrange (map (fun u => (u, Z.of_nat (length (of_upstream u rows)))) (remove_dups (map fst rows)))).
(** The rows of the second statement: an hour, an upstream, how many. *)
Definition upstream_hours (now : N) (hours : Z) (names : list str) (t : Db) : list (str * str * Z) :=
  let rows := List.filter (fun x => bool_decide (fst x ∈ names)) (upstream_rows now hours t) in
  flat_map (fun h => arrange (map (fun u => (hour_text h, u, Z.of_nat (length (in_hour h (of_upstream u rows)))))
    (remove_dups (map fst (List.filter (fun x => hour_of (snd x) =? h) rows)))))
    (hours_in (map snd rows)).
(** [BTreeMap<String, HashMap<String, _>>], in the order of its keys. *)
Definition by_time {V} (rows : list (str * str * V)) : gmap str (gmap str V) :=
  fold_left (fun m x => let '(time, name, v) := x in <[time := <[name := v]> (default ∅ (m !! time))]> m) rows ∅.
Definition in_order {V} (m : gmap str V) : list (str * V) :=
  filter_map (fun k => (fun v => (k, v)) <$> m !! k) (sort_strs (map fst (map_to_list m))).
Definition trend_limit (limit : option Z) : Z := Z.min (Z.max (default 10%Z limit) 1) 50.
Definition get_upstream_trend (d : Draws) (p : Parts) (hours limit : option Z) :
  M App AppError (list (str * gmap str Z) * nat) :=
  AuthUser d p ;;;
  let hours := trend_hours hours in
  let now := d_utc d in
  let! top_upstreams := db (fetch_all (fun t => map fst (take (Z.to_nat (trend_limit limit)) (upstream_counts now hours t)))) in
  if bool_decide (top_upstreams = []) then ret ([], 0%nat)
  else
    let! rows := db (fetch_all (upstream_hours now hours top_upstreams)) in
    ret (in_order (by_time rows), length top_upstreams).

Record Share := { sh_upstream : str; sh_count : Z; sh_percentage : f64 }.
Definition get_upstream_distribution (d : Draws) (p : Parts) (hours : option Z) : M App AppError (list Share) :=
  AuthUser d p ;;;
  let hours := trend_hours hours in
  let now := d_utc d in
  let! total_count := db (fetch_one (fun t => Some (Z.of_nat (length (upstream_rows now hours t))))) in
  if (total_count =? 0)%Z then ret []
  else
    let! rows := db (fetch_all (upstream_counts now hours)) in
    ret (map (fun x => {| sh_upstream := fst x; sh_count := snd x;
           sh_percentage := div (round (mul (mul (ratio (snd x) total_count) (of_Z 100)) (of_Z 10))) (of_Z 10) |}) rows).

(** The rows of the statement: name, hour and availability of the upstreams
    that still exist. *)
Definition health_rows (now : N) (hours : Z) (t : Db) : list (str * str * f64) :=
  let samples := flat_map (fun l : LatencySample =>
    if (Z.of_N now - hours * 3600 <=? ul_checked_at l)%Z
    then map (fun u => (u_name u, l)) (List.filter (fun u => u_id u =s? ul_upstream_id l) (dns_upstreams t)) else [])
    (upstream_latency_log t) in
  let hour (x : str * LatencySample) := Z.to_N (ul_checked_at (snd x) / 3600) in
  flat_map (fun h =>
    let here := List.filter (fun x => hour x =? h) samples in
    arrange (map (fun name =>
      let of_name := List.filter (fun x => fst x =s? name) here in
      (hour_text h, name,
       percent_float8 (foldr Z.add 0%Z (map (fun x => ul_success (snd x)) of_name)) (Z.of_nat (length of_name))))
      (remove_dups (map fst here))))
    (sort_by_key Z.of_N (remove_dups (map hour samples))).
Definition get_upstream_health_history (d : Draws) (p : Parts) (hours : option Z) :
  M App AppError (list (str * gmap str f64) * list str) :=
  AuthUser d p ;;;
  let! rows := db (fetch_all (health_rows (d_utc d) (trend_hours hours))) in
  ret (in_order (by_time (map (fun x => (fst x, decimals 10 (snd x))) rows)),
       sort_strs (remove_dups (map (fun x => snd (fst x)) rows))).

(** ** Latencies *)

(** The place of a percentile among [n] sorted values. *)
Definition percentile_index (n : nat) (p : Z) : nat :=
  let idx := Z.to_nat (to_Z (round (mul (ratio p 100) (sub (of_Z (Z.of_nat n)) (of_Z 1))))) in
  Nat.min idx (n - 1).
Definition in_ms (ns : Z) : f64 := decimals 10 (div (of_Z ns) (of_Z 1000000)).
Definition percentile (sorted : list Z) (p : Z) : f64 :=
  in_ms (nth (percentile_index (length sorted) p) sorted 0%Z).
Definition sorted_values (values : list Z) : list Z := sort_by_key (fun z => z) values.
Record LatencyStats := { ls_p50 : option f64; ls_p95 : option f64; ls_p99 : option f64; ls_sample_count : nat }.
Definition latencies (now : N) (hours : Z) (t : Db) : list Z :=
  map (fun x : str * QueryLogRow => q_elapsed_ns (snd x)) (take (N.to_nat 5000)
    (sort_by_key (fun x => - ql_id (snd x))%Z (upstream_rows now hours t))).
Definition get_latency_stats (d : Draws) (p : Parts) (hours : option Z) : M App AppError LatencyStats :=
  AuthUser d p ;;;
  let! rows := db (fetch_all (latencies (d_utc d) (trend_hours hours))) in
  if bool_decide (rows = []) then ret {| ls_p50 := None; ls_p95 := None; ls_p99 := None; ls_sample_count := 0 |}
  else
    let values := sorted_values rows in
    ret {| ls_p50 := Some (percentile values 50); ls_p95 := Some (percentile values 95);
           ls_p99 := Some (percentile values 99); ls_sample_count := length rows |}.

Definition bucket_hours (hours : Z) : N := if (hours <=? 24)%Z then 1 else if (hours <=? 168)%Z then 6 else 24.
(** [{:02}] *)
Definition two_digits (n : N) : str := if n <? 10 then 48 :: show_N n else show_N n.
Definition merged_bucket (width : N) (hourly : str) : str :=
  if width =? 1 then hourly
  else
    let hour := default 0 (parse_uint (2 ^ 32 - 1) (take 2 (drop 11 hourly))) in
    take 10 hourly ++ lit "T" ++ two_digits (hour / width * width) ++ lit ":00:00Z".
(** The oldest 30000 rows, by the texts of their hours. *)
Definition bucket_rows (now : N) (hours : Z) (t : Db) : list (str * Z) :=
  take (N.to_nat 30000) (Listing.order_asc fst
    (map (fun x : str * QueryLogRow => (hour_text (hour_of (snd x)), q_elapsed_ns (snd x))) (upstream_rows now hours t))).
Definition add_to_bucket (width : N) (m : gmap str (list Z)) (row : str * Z) : gmap str (list Z) :=
  let k := merged_bucket width (fst row) in <[k := default [] (m !! k) ++ [snd row]]> m.
Record LatencyPoint := { lp_time : str; lp_p50 : f64; lp_p95 : f64; lp_sample_count : nat }.
Definition latency_point (b : str * list Z) : LatencyPoint :=
  let values := sorted_values (snd b) in
  {| lp_time := fst b; lp_p50 := percentile values 50; lp_p95 := percentile values 95; lp_sample_count := length values |}.
Definition get_latency_trend (d : Draws) (p : Parts) (hours : option Z) : M App AppError (list LatencyPoint) :=
  AuthUser d p ;;;
  let hours := trend_hours hours in
  let! rows := db (fetch_all (bucket_rows (d_utc d) hours)) in
  ret (map latency_point (in_order (fold_left (add_to_bucket (bucket_hours hours)) rows ∅))).

(** ** What is counted *)

Definition window (d : Draws) (hours : option Z) (t : Db) : list QueryLogRow :=
  List.filter (since (d_utc d) (trend_hours hours * 3600)) (query_log t).
Definition counted (test : QueryLogRow -> bool) (rows : list QueryLogRow) : Z := Z.of_nat (length (List.filter test rows)).
Definition not_stopped (r : QueryLogRow) : bool := has_status "allowed" r || has_status "error" r.

Lemma does_count_rows test (s : App) : db_works s -> does (count test) s (Ok (count_where test (tables (db_of s)))) s.
Proof. intros Hs. by apply does_db_query. Qed.
Lemma filter_both {A} (f g : A -> bool) l : List.filter (fun x => f x && g x) l = List.filter f (List.filter g l).
Proof. rewrite QueryLog.bfilter_filter. apply filter_ext. intros x. apply andb_comm. Qed.
(** A row has one of the four states. *)
Lemma states_add rows : Forall (fun r : QueryLogRow => QueryLogWriter.QueryLogWriter.status_ok r = true) rows ->
  (Z.of_nat (length rows) - counted (has_status "blocked") rows - counted (has_status "cached") rows)%Z = counted not_stopped rows.
Proof.
  unfold counted, has_status, not_stopped, has_status. induction 1 as [|r rows Hr Hrows IH]; [done|]. cbn [List.filter length].
  unfold QueryLogWriter.QueryLogWriter.status_ok in Hr. rewrite !orb_true_iff, !str_eqb_eq in Hr.
  destruct Hr as [[[Hr|Hr]|Hr]|Hr]; rewrite Hr;
    repeat match goal with |- context [str_eqb (lit ?a) (lit ?b)] =>
      let v := eval vm_compute in (str_eqb (lit a) (lit b)) in change (str_eqb (lit a) (lit b)) with v end;
    cbn [orb length]; lia.
Qed.

Definition sum_over {A} (f : A -> Z) (l : list A) : Z := foldr (fun x n => f x + n)%Z 0%Z l.
Lemma sum_over_perm {A} (f : A -> Z) l1 l2 : Permutation l1 l2 -> sum_over f l1 = sum_over f l2.
Proof. unfold sum_over. induction 1; cbn [foldr]; lia. Qed.
Lemma in_hour_other h (r : QueryLogRow) rows : hour_of r <> h -> in_hour h (r :: rows) = in_hour h rows.
Proof. intros Hh. unfold in_hour. cbn [List.filter]. by rewrite (proj2 (N.eqb_neq _ _)). Qed.
Lemma in_hour_same (r : QueryLogRow) rows : in_hour (hour_of r) (r :: rows) = r :: in_hour (hour_of r) rows.
Proof. unfold in_hour. cbn [List.filter]. by rewrite N.eqb_refl. Qed.
(** Every row is in one hour. *)
Lemma sum_hours (test : QueryLogRow -> bool) hs rows :
  NoDup hs -> (forall r, r ∈ rows -> hour_of r ∈ hs) ->
  sum_over (fun h => counted test (in_hour h rows)) hs = counted test rows.
Proof.
  intros Hn. induction rows as [|r rows IH]; intros Hall.
  { clear. induction hs as [|h hs IH]; [done|]. exact IH. }
  assert (Hr : hour_of r ∈ hs) by (apply Hall; by left).
  specialize (IH ltac:(intros x Hx; apply Hall; by right)).
  assert (Hone : forall hs, hour_of r ∉ hs ->
    sum_over (fun h => counted test (in_hour h (r :: rows))) hs = sum_over (fun h => counted test (in_hour h rows)) hs).
  { clear. induction hs as [|h hs IH]; [done|]. intros [Hh Hhs]%not_elem_of_cons. cbn [sum_over foldr].
    rewrite in_hour_other by done. unfold sum_over in IH. by rewrite IH. }
  apply list_elem_of_split in Hr as (l1 & l2 & ->).
  assert (Hp : Permutation (l1 ++ hour_of r :: l2) (hour_of r :: l1 ++ l2)) by by rewrite Permutation_middle.
  rewrite (sum_over_perm _ _ _ Hp). rewrite (sum_over_perm _ _ _ Hp) in IH. rewrite Hp in Hn. apply NoDup_cons in Hn as [Hnot _].
  cbn [sum_over foldr] in *. fold (sum_over (fun h => counted test (in_hour h (r :: rows))) (l1 ++ l2)).
  rewrite (Hone _ Hnot), in_hour_same. unfold counted at 1 3. unfold counted at 1 3 in IH.
  cbn [List.filter]. unfold sum_over in *. destruct (test r); cbn [length]; lia.
Qed.
Lemma hours_in_spec rows : NoDup (hours_in rows) /\ forall r, r ∈ rows -> hour_of r ∈ hours_in rows.
Proof.
  unfold hours_in. split; [rewrite sort_by_key_perm; apply NoDup_remove_dups|]. intros r Hr.
  rewrite sort_by_key_perm. apply elem_of_remove_dups. by apply list_elem_of_fmap_2.
Qed.

(** The figures of the dashboard are counts of the log.  The totals are
    those of the rows of the window by state, those neither blocked nor cached
    shown as allowed, errors included; and the trend has one point for every
    hour with rows, whose counts add up to the totals. *)
Theorem dashboard_counts d p auth hours (s : App) :
  db_works s -> fst (AuthUser d p s) = Ok auth -> QueryLog.log_ok (tables (db_of s)) ->
  let rows := window d hours (tables (db_of s)) in
  exists stats points, does (get_stats d p hours) s (Ok stats) s /\ does (get_query_trend d p hours) s (Ok points) s /\
    ds_total stats = Z.of_nat (length rows) /\ ds_blocked stats = counted (has_status "blocked") rows /\
    ds_cached stats = counted (has_status "cached") rows /\ ds_allowed stats = counted not_stopped rows /\
    ds_clients stats = Z.of_nat (length (remove_dups (map (fun r : QueryLogRow => q_client_ip r) rows))) /\
    sum_over tpt_total points = ds_total stats /\ sum_over tpt_blocked points = ds_blocked stats /\
    sum_over tpt_cached points = ds_cached stats /\ sum_over tpt_allowed points = counted (has_status "allowed") rows /\
    map tpt_time points = map hour_text (hours_in rows) /\ NoDup (hours_in rows).
Proof.
  intros Hs Hauth Hok rows. pose proof (does_AuthUser d p s) as Ha. rewrite Hauth in Ha.
  assert (Hst : Forall (fun r : QueryLogRow => QueryLogWriter.QueryLogWriter.status_ok r = true) rows).
  { destruct Hok as (_ & _ & Hst & _). rewrite Forall_forall in Hst |- *. intros r [Hr _]%elem_of_bfilter. by apply Hst. }
  destruct (hours_in_spec rows) as [Hn Hall].
  assert (Hsum : forall test, sum_over (fun h => counted test (in_hour h rows)) (hours_in rows) = counted test rows)
    by (intros test; by apply sum_hours).
  assert (Hmap : forall (f : TrendPoint -> Z) g, (forall h, f (trend_point rows h) = g h) ->
    sum_over f (map (trend_point rows) (hours_in rows)) = sum_over g (hours_in rows)).
  { intros f g Hfg. clear Hall Hn Hsum. induction (hours_in rows) as [|h hs IH]; [done|]. cbn [map sum_over foldr].
    rewrite Hfg. unfold sum_over in IH. by rewrite IH. }
  eexists _, (map (trend_point rows) (hours_in rows)). split; [|split; [by eapply does_bind; [exact Ha|]; eapply does_db_query|]].
  - unfold get_stats. eapply does_bind; [exact Ha|]. cbn beta zeta.
    do 3 (eapply does_bind; [by apply does_count_rows|]). do 3 (eapply does_bind; [by eapply does_db_query|]).
    do 5 (eapply does_bind; [by apply does_count_rows|]). apply does_ret.
  - cbn [ds_total ds_blocked ds_cached ds_allowed ds_clients]. unfold count_where. rewrite !filter_both.
    fold (window d hours (tables (db_of s))). fold rows.
    split; [done|]. split; [done|]. split; [done|]. split; [by apply states_add|]. split; [done|].
    assert (Htotal : sum_over tpt_total (map (trend_point rows) (hours_in rows)) = Z.of_nat (length rows)).
    { rewrite (Hmap _ (fun h => counted (fun _ => true) (in_hour h rows))), Hsum.
      - unfold counted. by rewrite QueryLog.bfilter_all.
      - intros h. unfold counted. by rewrite QueryLog.bfilter_all. }
    split; [exact Htotal|]. split; [rewrite (Hmap _ (fun h => counted (has_status "blocked") (in_hour h rows))) by done; apply Hsum|].
    split; [rewrite (Hmap _ (fun h => counted (has_status "cached") (in_hour h rows))) by done; apply Hsum|].
    split; [rewrite (Hmap _ (fun h => counted (has_status "allowed") (in_hour h rows))) by done; apply Hsum|].
    split; [by rewrite map_map|exact Hn].
Qed.

(** ** Percentiles *)

(** The place of a percentile is the nearest rank, whatever the rounding of
    the floats does. *)
Lemma rank_near n p : (0 < n <= N.to_nat 5000)%nat -> p ∈ [50; 95; 99]%Z ->
  (Z.abs (100 * Z.of_nat (percentile_index n p) - p * (Z.of_nat n - 1)) <= 50)%Z /\ (percentile_index n p < n)%nat.
Proof.
  intros Hn Hp. split; [|unfold percentile_index; lia].
  assert (Hf : exists mf, ratio p 100 = SpecFloat.S754_finite false mf (-53)%Z /\ Zpos (SpecFloat.digits2_pos mf) = 53%Z /\
    (Z.abs (100 * Zpos mf - p * 2 ^ 53) <= 100)%Z /\ (0 <= p <= 99)%Z).
  { rewrite !elem_of_cons, elem_of_nil in Hp.
    destruct Hp as [->|[->|[->|[]]]]; eexists; (split; [vm_compute; reflexivity|]); repeat split; vm_compute; congruence. }
  destruct Hf as (mf & Hf & Hd & Hmf & Hp'). pose proof (percent_near _ mf p (Z.of_nat n - 1) Hf Hd Hmf ltac:(lia) ltac:(lia)) as Hnear.
  replace (Z.of_nat n - 1 + 1)%Z with (Z.of_nat n) in Hnear by lia. unfold percentile_index.
  set (z := to_Z _) in *. assert (0 <= p * (Z.of_nat n - 1) <= 99 * (Z.of_nat n - 1))%Z by nia. lia.
Qed.
Lemma sorted_nth (l : list Z) i j : StronglySorted Z.le l -> (i <= j < length l)%nat -> (nth i l 0 <= nth j l 0)%Z.
Proof.
  intros Hl. revert i j. induction Hl as [|x l Hl IH Hx]; intros i j Hij; [cbn in Hij; lia|].
  destruct j as [|j]; [by assert (i = 0%nat) as -> by lia|]. destruct i as [|i]; cbn [nth].
  - rewrite Forall_forall in Hx. apply Hx. apply list_elem_of_In, nth_In. cbn in Hij. lia.
  - apply IH. cbn in Hij. lia.
Qed.

(** C39: The percentiles of the latency are ranks of the sample.  Of the
    latest rows of the window that were asked upstream, at most 5000, the
    median and the 95th and 99th percentile are values of the sample, at the
    places nearest to their ranks although the places are computed in floating
    point, and one not below the other; without a row there are none. *)
Theorem latency_ranks d p auth hours (s : App) :
  db_works s -> fst (AuthUser d p s) = Ok auth ->
  let sample := latencies (d_utc d) (trend_hours hours) (tables (db_of s)) in
  let n := length sample in
  (n <= N.to_nat 5000)%nat /\
  exists stats, does (get_latency_stats d p hours) s (Ok stats) s /\ ls_sample_count stats = n /\
    if bool_decide (sample = []) then ls_p50 stats = None /\ ls_p95 stats = None /\ ls_p99 stats = None
    else exists v50 v95 v99 i50 i95 i99,
      ls_p50 stats = Some (in_ms v50) /\ ls_p95 stats = Some (in_ms v95) /\ ls_p99 stats = Some (in_ms v99) /\
      (v50 <= v95 <= v99)%Z /\
      (forall v i r, (v, i, r) ∈ [(v50, i50, 50); (v95, i95, 95); (v99, i99, 99)]%Z ->
         sort_by_key (fun z => z) sample !! i = Some v /\ (Z.abs (100 * Z.of_nat i - r * (Z.of_nat n - 1)) <= 50)%Z).
Proof.
  intros Hs Hauth sample n. pose proof (does_AuthUser d p s) as Ha. rewrite Hauth in Ha.
  assert (Hn : (n <= N.to_nat 5000)%nat) by (unfold n, sample, latencies; rewrite length_map, length_take; lia).
  split; [exact Hn|]. destruct (bool_decide (sample = [])) eqn:He.
  - eexists. split.
    { eapply does_bind; [exact Ha|]. eapply does_bind; [by eapply does_db_query|]. fold sample. rewrite He. apply does_ret. }
    apply bool_decide_eq_true in He. unfold n. by rewrite He.
  - eexists. split.
    { eapply does_bind; [exact Ha|]. eapply does_bind; [by eapply does_db_query|]. fold sample. rewrite He. apply does_ret. }
    split; [done|].
    apply bool_decide_eq_false in He. assert (Hpos : (0 < n)%nat) by (unfold n; destruct sample; [done|cbn; lia]).
    assert (Hlen : length (sorted_values sample) = n) by (apply Permutation_length, sort_by_key_perm).
    assert (Hsorted : StronglySorted Z.le (sorted_values sample)).
    { eapply RuleStats.sorted_weaken; [|apply (sort_by_key_sorted (fun z : Z => z))]. done. }
    destruct (rank_near n 50) as [H50 L50]; [lia|set_solver|]. destruct (rank_near n 95) as [H95 L95]; [lia|set_solver|].
    destruct (rank_near n 99) as [H99 L99]; [lia|set_solver|].
    assert (Hat : forall i, (i < n)%nat -> sorted_values sample !! i = Some (nth i (sorted_values sample) 0%Z)).
    { intros i Hi. rewrite nth_lookup. destruct (lookup_lt_is_Some_2 (sorted_values sample) i) as [v ->]; [lia|done]. }
    exists (nth (percentile_index n 50) (sorted_values sample) 0%Z), (nth (percentile_index n 95) (sorted_values sample) 0%Z),
      (nth (percentile_index n 99) (sorted_values sample) 0%Z), (percentile_index n 50), (percentile_index n 95), (percentile_index n 99).
    unfold percentile. cbn [ls_p50 ls_p95 ls_p99]. rewrite Hlen. split; [done|]. split; [done|]. split; [done|]. split.
    + split; apply sorted_nth; try done; lia.
    + intros v i r Hin. rewrite !elem_of_cons, elem_of_nil in Hin.
      destruct Hin as [[= -> -> ->]|[[= -> -> ->]|[[= -> -> ->]|[]]]]; (split; [by apply Hat|done]).
Qed.
End dashboard.
End Dashboard.

(** The number of the hour for its text. *)
Module RefDashboard.
#[export] Instance hours : HourText := {| hour_text := show_N |}.
#[export] Instance percent : SqlRatio := {| percent_float8 a b := F64.mul (F64.ratio a b) (F64.of_Z 100) |}.
End RefDashboard.

Module DashboardWitness.
Import AsciiUnicode RefRegex RefJson RefIpNet RefMoka RefRng RefHickory RefResolver RefCrypto RefValue Api AppWitness.
Import QueryLog QueryLogWitness RefRegexSingle RefDashboard Dashboard.

(** An answer from [u] at a second, after some milliseconds. *)
Definition answer (time ms : N) : QueryLogEntry :=
  {| q_time := time * 1000000000; q_client_ip := lit "10.0.0.3"; q_question := lit "b.com."; q_qtype := lit "A";
     q_status := lit "allowed"; q_reason := None; q_answer := None; q_elapsed_ns := Z.of_N (ms * 1000000); q_upstream_ns := None;
     q_upstream_name := Some (lit "u"); q_app_id := None |}.
Definition td : Db := QueryLogWriter.QueryLogWriter.append_rows [answer 1500 8; answer 1600 1; answer 1700 250; answer 1990 9] t1.
Lemma td_ok : log_ok td.
Proof. by apply append_ok; [vm_compute; reflexivity|apply t1_ok]. Qed.

Example rankings_test :
  (fst (get_top_blocked_domains today admin (Some 1%Z) (app td)), fst (get_top_queried_domains today admin None (app td)))
  = (Ok (map (fun x => (lit x, 1%Z)) ["a.com."; "d.com."; "e.com."]%string),
     Ok ((lit "b.com.", 5%Z) :: map (fun x => (lit x, 1%Z)) ["a.com."; "c.com."; "d.com."; "e.com."]%string)).
Proof. vm_compute. reflexivity. Qed.
Example health_test : fst (get_upstream_health_history today admin None (app td)) = Ok ([], []).
Proof. vm_compute. reflexivity. Qed.
Example upstreams_test :
  (fst (get_upstream_trend today admin None (Some 5%Z) (app td)), fst (get_upstream_distribution today admin None (app td)))
  = (Ok ([(lit "0", {[ lit "u" := 4%Z ]})], 1%nat),
     Ok [{| sh_upstream := lit "u"; sh_count := 4; sh_percentage := F64.of_Z 100 |}]).
Proof. vm_compute. reflexivity. Qed.

Lemma dashboard_counts_witness :
  exists stats points, does (get_stats today admin None) (app td) (Ok stats) (app td) /\
    does (get_query_trend today admin None) (app td) (Ok points) (app td) /\
    ds_total stats = 9%Z /\ ds_blocked stats = 3%Z /\ ds_cached stats = 1%Z /\ ds_allowed stats = 5%Z /\
    ds_clients stats = 2%Z /\ sum_over tpt_total points = 9%Z.
Proof.
  destruct (dashboard_counts today admin AuthWitness.ann None (app td) (app_works _) (admin_ok _) td_ok)
    as (stats & points & H1' & H2' & Ht & Hb & Hc & Ha & Hcl & Hsum & _).
  exists stats, points. split; [exact H1'|]. split; [exact H2'|]. rewrite Hsum, Ht, Hb, Hc, Ha, Hcl.
  repeat split; vm_compute; reflexivity.
Defined.
Lemma Ok_inj {A E} (a b : A) : Ok (E := E) a = Ok b -> a = b.
Proof. by intros [= ->]. Qed.
Lemma latency_ranks_witness :
  exists stats, does (get_latency_stats today admin None) (app td) (Ok stats) (app td) /\ ls_sample_count stats = 4%nat /\
    ls_p50 stats = Some (F64.of_Z 9) /\ ls_p99 stats = Some (F64.of_Z 250).
Proof.
  destruct (latency_ranks today admin AuthWitness.ann None (app td) (app_works _) (admin_ok _)) as (_ & stats & Hd & Hn & _).
  exists stats. split; [exact Hd|]. split; [exact Hn|].
  assert (Hv : fst (get_latency_stats today admin None (app td)) =
    Ok {| ls_p50 := Some (F64.of_Z 9); ls_p95 := Some (F64.of_Z 250); ls_p99 := Some (F64.of_Z 250); ls_sample_count := 4 |})
    by (vm_compute; reflexivity).
  apply does_run in Hd as [n' Hd]. rewrite Hd in Hv. apply Ok_inj in Hv. rewrite Hv. split; reflexivity.
Defined.
End DashboardWitness.
