(* ===== verification/Insights.v ===== *)
(** * Insights: src/api/handlers/insights.rs

    The applications behind the queries of a window, their trend and the
    catalog, the most asked domains, and the clients whose queries in this hour
    are far above their own past, each of which gets an alert. *)
From S2P Require Import Prelude RustStr IpAddr Regex Rules Acl Moka Hickory Cache Db DbLogic Filter Resolver.
From S2P Require Import UpstreamPool Handler HandlerTests Api App Auth AppTests Listing Tables Groups Conditions RuleStats QueryLog Float.
From S2P Require Import Dashboard.
Local Open Scope N_scope.

Module Insights.
Import F64 Dashboard.
Section insights.
Context `{RustUnicode, RegexEngine, SerdeJson, Collation, IpNetCrate, Moka, Rng,
  Hickory, !HickoryResolver, !DnsCodec, Jwt, SqlTime, GroupOrder, HourText}.
Import Api.

(** ** What was asked for *)

(** The columns the statements of this file select of a group of rows. *)
Record Usage := { us_total : Z; us_clients : Z; us_blocked : Z; us_last_seen : str }.
Definition usage (rows : list QueryLogRow) : Usage :=
  {| us_total := Z.of_nat (length rows);
     us_clients := Z.of_nat (length (remove_dups (map (fun r : QueryLogRow => q_client_ip r) rows)));
     us_blocked := blocked_of rows;
     us_last_seen := timestamptz_text (fold_right N.max 0 (map (fun r : QueryLogRow => q_time r) rows)) |}.
(** [$n = '' OR column = $m] *)
Definition any_or (wanted value : str) : bool := is_empty wanted || (value =s? wanted).
Definition top_limit (limit : option Z) : Z := Z.min (Z.max (default 20%Z limit) 1) 100.

Definition of_app (id : Z) (r : QueryLogRow) : bool := match q_app_id r with Some a => (a =? id)%Z | None => false end.
Definition apps_used (now : N) (hours : Z) (category status : str) (limit : Z) (t : Db) : list (AppRow * Usage) :=
  let rows := List.filter (fun r => since now (hours * 3600) r && any_or status (q_status r)) (query_log t) in
  most (Z.to_nat limit) (fun x => us_total (snd x)) (arrange (filter_map (fun a =>
    let asked := List.filter (of_app (ap_id a)) rows in
    if any_or category (ap_category a) && negb (bool_decide (asked = [])) then Some (a, usage asked) else None)
    (app_catalog t))).
Record TopAppsParams := { ta_hours : option Z; ta_limit : option Z; ta_category : option str; ta_status : option str }.
Definition top_apps (d : Draws) (p : Parts) (params : TopAppsParams) : M App AppError (list (AppRow * Usage)) :=
  AuthUser d p ;;;
  db (fetch_all (apps_used (d_utc d) (trend_hours (ta_hours params)) (default [] (ta_category params))
    (default [] (ta_status params)) (top_limit (ta_limit params)))).

Definition app_hours (now : N) (hours app_id : Z) (t : Db) : list (str * Z) :=
  let rows := List.filter (fun r => of_app app_id r && since now (hours * 3600) r) (query_log t) in
  map (fun h => (hour_text h, Z.of_nat (length (in_hour h rows)))) (hours_in rows).
Definition app_trend (d : Draws) (p : Parts) (app_id hours : option Z) : M App AppError (list (str * Z)) :=
  AuthUser d p ;;;
  let! app_id := lift (ok_or app_id (Validation (lit "Missing required parameter: app_id"))) in
  db (fetch_all (app_hours (d_utc d) (trend_hours hours) app_id)).

(** [ORDER BY category, app_name] *)
Definition catalog (q category : str) (t : Db) : list AppRow :=
  Listing.order_asc ap_category (Listing.order_asc ap_app_name (List.filter (fun a =>
    (is_empty q || Listing.like (Listing.search_pattern q) (ap_app_name a)) && any_or category (ap_category a))
    (app_catalog t))).
Definition list_catalog (d : Draws) (p : Parts) (q category : option str) : M App AppError (list AppRow) :=
  AuthUser d p ;;; db (fetch_all (catalog (default [] q) (default [] category))).

(** [HAVING] and [ORDER BY] of the domains. *)
Definition domain_shown (status : str) (u : Usage) : bool :=
  is_empty status || ((status =s? "blocked") && (0 <? us_blocked u)%Z)
  || ((status =s? "allowed") && (us_blocked u <? us_total u)%Z).
Definition domain_weight (status : str) (u : Usage) : Z :=
  if status =s? "allowed" then us_total u - us_blocked u else if status =s? "blocked" then us_blocked u else us_total u.
Definition domains_used (now : N) (hours : Z) (status : str) (limit : Z) (t : Db) : list (str * Usage) :=
  most (Z.to_nat limit) (fun x => domain_weight status (snd x))
    (List.filter (fun x => domain_shown status (snd x)) (map (fun g => (fst g, usage (snd g)))
      (groups_by (fun r => q_question r) (List.filter (since now (hours * 3600)) (query_log t))))).
Definition usage_rate (u : Usage) : f64 :=
  if (0 <? us_total u)%Z then mul (ratio (us_blocked u) (us_total u)) (of_Z 100) else of_Z 0.
Definition top_domains (d : Draws) (p : Parts) (hours limit : option Z) (status : option str) :
  M App AppError (list (str * Usage * f64)) :=
  AuthUser d p ;;;
  let! rows := db (fetch_all (domains_used (d_utc d) (trend_hours hours) (default [] status) (top_limit limit))) in
  ret (map (fun x => (fst x, snd x, usage_rate (snd x))) rows).

(** ** Anomalies *)

Definition this_hour (now : N) : N := now / 3600.
(** The seven days before this hour: a client, an hour, how many queries. *)
Definition past_rows (now : N) (t : Db) : list QueryLogRow :=
  List.filter (fun r => since now 604800 r && (hour_of r <? this_hour now)) (query_log t).
Definition history_rows (now : N) (t : Db) : list (str * Z) :=
  let rows := past_rows now t in
  arrange (map (fun k : str * N =>
    (fst k, Z.of_nat (length (List.filter (fun r : QueryLogRow => (q_client_ip r =s? fst k) && (hour_of r =? snd k)) rows))))
    (remove_dups (map (fun r : QueryLogRow => (q_client_ip r, hour_of r)) rows))).
(** [entry(ip).or_default().push(cnt as f64)] *)
Definition add_count (m : gmap str (list f64)) (row : str * Z) : gmap str (list f64) :=
  <[fst row := default [] (m !! fst row) ++ [of_Z (snd row)]]> m.
Definition mean_stddev (counts : list f64) : f64 * f64 :=
  let n := of_Z (Z.of_nat (length counts)) in
  let sum := fold_left add counts (of_Z 0) in
  let sq_sum := fold_left add (map (fun x => mul x x) counts) (of_Z 0) in
  let mean := div sum n in
  let variance := max0 (sub (div sq_sum n) (mul mean mean)) in
  (mean, sqrt variance).
Definition client_stats (counts : list f64) : option (f64 * f64) :=
  if (24 <=? length counts)%nat then Some (mean_stddev counts) else None.
Definition current_rows (now : N) (t : Db) : list (str * Z) :=
  map (fun g => (fst g, rows_of g))
    (groups_by (fun r => q_client_ip r) (List.filter (fun r => this_hour now <=? hour_of r) (query_log t))).
Record Anomaly := { an_client_ip : str; an_current_count : Z; an_mean : f64; an_stddev : f64; an_sigma : f64 }.
(** [current_count > mean + 2.0 * stddev] *)
Definition anomaly (ip : str) (current : Z) (st : f64 * f64) : option Anomaly :=
  let '(mean, stddev) := st in
  if ltb (add mean (mul (of_Z 2) stddev)) (of_Z current) then
    let sigma := if ltb (of_Z 0) stddev then div (sub (of_Z current) mean) stddev else of_Z 0 in
    Some {| an_client_ip := ip; an_current_count := current; an_mean := decimals 100 mean;
            an_stddev := decimals 100 stddev; an_sigma := decimals 100 sigma |}
  else None.
(** [value.as_f64().unwrap_or(0.0)]: JSON has no infinity and no NaN. *)
Definition as_f64 (x : f64) : f64 :=
  match x with SpecFloat.S754_infinity _ | SpecFloat.S754_nan => of_Z 0 | _ => x end.
(** [sort_by], descending and stable. *)
Fixpoint insert_sigma (a : Anomaly) (l : list Anomaly) : list Anomaly :=
  match l with
  | [] => [a]
  | b :: l' => if ltb (as_f64 (an_sigma a)) (as_f64 (an_sigma b)) then b :: insert_sigma a l' else a :: l
  end.
Definition anomalies (now : N) (history current : list (str * Z)) : list Anomaly :=
  let stats := omap client_stats (fold_left add_count history ∅) in
  fold_right insert_sigma []
    (filter_map (fun row => match stats !! fst row with Some st => anomaly (fst row) (snd row) st | None => None end) current).
Definition anomaly_message (a : Anomaly) : str :=
  [35774; 22791; 32] ++ an_client_ip a ++ [32; 35831; 27714; 37327; 24322; 24120; 65306; 24403; 21069; 32]
  ++ show_Z (an_current_count a) ++ [32; 27425; 47; 23567; 26102; 65292; 22343; 20540; 32]
  ++ fixed1 (as_f64 (an_mean a)) ++ [65292; 20559; 24046; 32] ++ fixed1 (as_f64 (an_sigma a)) ++ [963].
Definition anomaly_alert (now : N) (id : str) (a : Anomaly) : Alert :=
  {| a_id := id; a_type := lit "anomaly_detection"; a_client_id := Some (an_client_ip a); a_message := anomaly_message a;
     a_is_read := 0; a_created_at := timestamptz_text (now * 1000000000) |}.
Definition insert_alert (row : Alert) (t : Db) : result (unit * Db) DbError :=
  match row_named a_id (a_id row) (alerts t) with
  | Some _ => Err UniqueViolation
  | None => Ok (tt, set_alerts t (alerts t ++ [row]))
  end.
(** The cooldown: [created_at > NOW() - INTERVAL '1 hour'].  PostgreSQL looks
    the operator up by the types of the operands, and has none for a text and
    a time. *)
Inductive SqlType := TText | TTimestamptz.
Definition has_greater (a b : SqlType) : bool :=
  match a, b with TText, TText | TTimestamptz, TTimestamptz => true | _, _ => false end.
(** The column of migration 020. *)
Definition created_at_type : SqlType := TText.
Definition count_recent (now : N) (ip : str) (t : Db) : result Z DbError :=
  if has_greater created_at_type TTimestamptz then
    Ok (Z.of_nat (length (List.filter (fun a =>
      (a_type a =s? "anomaly_detection") && bool_decide (a_client_id a = Some ip)
      && text_lt (timestamptz_text ((now - 3600) * 1000000000)) (a_created_at a)) (alerts t))))
  else Err DatatypeMismatch.
Definition recent_alerts (now : N) (ip : str) : M App DbError Z := query (count_recent now ip).
Fixpoint raise_alerts (now : N) (uuids : nat -> str) (l : list Anomaly) : M App AppError unit :=
  match l with
  | [] => ret tt
  | a :: l' =>
      let! existing := catch (recent_alerts now (an_client_ip a)) in
      (if (match existing with Ok n => n | Err _ => 0 end =? 0)%Z
       then catch (execute (insert_alert (anomaly_alert now (uuids 0%nat) a))) ;;; ret tt else ret tt) ;;;
      raise_alerts now (fun n => uuids (Datatypes.S n)) l'
  end.
Definition get_anomalies (d : Draws) (uuids : nat -> str) (p : Parts) : M App AppError (list Anomaly) :=
  AuthUser d p ;;;
  let now := d_utc d in
  let! history := db (fetch_all (history_rows now)) in
  let! current := db (fetch_all (current_rows now)) in
  let found := anomalies now history current in
  raise_alerts now uuids found ;;;
  ret found.

(** ** What is reported *)

(** How many queries a client made in each past hour it made any. *)
Definition past_hours (now : N) (t : Db) (ip : str) : list Z :=
  map snd (List.filter (fun x : str * Z => fst x =s? ip) (history_rows now t)).
Definition past_counts (now : N) (t : Db) (ip : str) : list f64 := map of_Z (past_hours now t ip).
Definition of_client (ip : str) (rows : list QueryLogRow) : list QueryLogRow :=
  List.filter (fun r : QueryLogRow => q_client_ip r =s? ip) rows.
Definition current_of (now : N) (t : Db) (ip : str) : Z :=
  Z.of_nat (length (of_client ip (List.filter (fun r => this_hour now <=? hour_of r) (query_log t)))).
(** A client with queries in this hour and in 24 of the past ones, more than
    two standard deviations above their mean: the mean of the counts is their
    sum by their number, the variance the mean of their squares less the
    square of the mean, and not below zero, all in floating point. *)
Definition reported (now : N) (t : Db) (a : Anomaly) : Prop :=
  let current := current_of now t (an_client_ip a) in
  let counts := past_counts now t (an_client_ip a) in
  let k := of_Z (Z.of_nat (length counts)) in
  let mean := div (fold_left add counts (of_Z 0)) k in
  let mean_of_squares := div (fold_left add (map (fun x => mul x x) counts) (of_Z 0)) k in
  let variance := sub mean_of_squares (mul mean mean) in
  let stddev := sqrt (max0 variance) in
  (0 < current)%Z /\ (24 <= length counts)%nat /\
  ltb (add mean (mul (of_Z 2) stddev)) (of_Z current) = true /\
  a = {| an_client_ip := an_client_ip a; an_current_count := current;
         an_mean := decimals 100 mean; an_stddev := decimals 100 stddev;
         an_sigma := decimals 100 (if ltb (of_Z 0) stddev then div (sub (of_Z current) mean) stddev else of_Z 0) |}.
Definition not_below (a b : Anomaly) : Prop := ltb (as_f64 (an_sigma a)) (as_f64 (an_sigma b)) = false.

Lemma ltb_asym x y : ltb x y = true -> ltb y x = false.
Proof.
  unfold ltb, SpecFloat.SFcompare.
  destruct x as [[]|[]| |[] m e], y as [[]|[]| |[] m' e']; try done.
  all: rewrite (Z.compare_antisym e' e); destruct (e' ?= e)%Z; cbn [CompOpp]; try done.
  all: change (PosDef.Pos.compare_cont Eq m' m) with (m' ?= m)%positive; change (PosDef.Pos.compare_cont Eq m m') with (m ?= m')%positive.
  all: rewrite (Pos.compare_antisym m m'); by destruct (m ?= m')%positive.
Qed.
Lemma insert_sigma_perm a l : Permutation (insert_sigma a l) (a :: l).
Proof. induction l as [|b l IH]; [done|]. cbn [insert_sigma]. destruct (ltb _ _); [|done]. rewrite IH. apply Permutation_swap. Qed.
Lemma insert_sigma_sorted a l : Sorted not_below l -> Sorted not_below (insert_sigma a l).
Proof.
  induction 1 as [|b l Hl IH Hb]; cbn [insert_sigma]; [by repeat constructor|].
  destruct (ltb (as_f64 (an_sigma a)) (as_f64 (an_sigma b))) eqn:Hlt; [|by repeat constructor].
  constructor; [exact IH|]. apply ltb_asym in Hlt. destruct l as [|c l]; cbn [insert_sigma]; [by constructor|].
  apply HdRel_inv in Hb. destruct (ltb (as_f64 (an_sigma a)) (as_f64 (an_sigma c))); by constructor.
Qed.
Lemma sigmas_sorted l : Permutation (fold_right insert_sigma [] l) l /\ Sorted not_below (fold_right insert_sigma [] l).
Proof.
  induction l as [|a l [IHp IHs]]; cbn [fold_right]; [by split|]. split; [|by apply insert_sigma_sorted].
  by rewrite insert_sigma_perm, IHp.
Qed.

(** The histories by client. *)
Lemma counts_lookup rows : forall (m : gmap str (list f64)) ip,
  let mine := map of_Z (map snd (List.filter (fun x : str * Z => fst x =s? ip) rows)) in
  default [] (fold_left add_count rows m !! ip) = default [] (m !! ip) ++ mine.
Proof.
  induction rows as [|[k n] rows IH]; intros m ip mine; [by rewrite app_nil_r|]. cbn [fold_left]. rewrite IH. subst mine.
  cbn [List.filter fst snd add_count]. destruct (k =s? ip) eqn:Hk; unfold add_count; cbn [fst snd].
  - apply str_eqb_eq in Hk as ->. rewrite lookup_insert_eq. cbn [default from_option id map snd]. by rewrite <- app_assoc.
  - rewrite lookup_insert_ne; [done|]. intros ->. by rewrite str_eqb_refl in Hk.
Qed.
Lemma stats_of now t ip :
  omap client_stats (fold_left add_count (history_rows now t) ∅) !! ip = client_stats (past_counts now t ip).
Proof.
  rewrite lookup_omap. pose proof (counts_lookup (history_rows now t) ∅ ip) as Hl. rewrite lookup_empty in Hl.
  cbn [default app] in Hl. fold (past_hours now t ip) (past_counts now t ip) in Hl.
  destruct (fold_left _ _ _ !! ip) as [l|]; cbn in Hl |- *; rewrite <- Hl; done.
Qed.
Lemma bfilter_perm {A} (f : A -> bool) l1 l2 : Permutation l1 l2 -> Permutation (List.filter f l1) (List.filter f l2).
Proof.
  induction 1; cbn [List.filter]; [done| | |by etransitivity]; destruct (f x); try destruct (f y); try done.
  - by constructor.
  - by constructor.
Qed.
(** The numbers of queries of a client are those of its hours. *)
Lemma past_hours_perm `{!GroupOrderDoc} now t ip :
  let mine := of_client ip (past_rows now t) in
  Permutation (past_hours now t ip) (map (fun h => Z.of_nat (length (in_hour h mine))) (hours_in mine)).
Proof.
  intros mine. unfold past_hours, history_rows. subst mine.
  set (rows := past_rows now t). set (pairs := remove_dups (map (fun r : QueryLogRow => (q_client_ip r, hour_of r)) rows)).
  set (count := fun h => Z.of_nat (length (in_hour h (of_client ip rows)))).
  transitivity (map count (map snd (List.filter (fun k : str * N => fst k =s? ip) pairs))).
  - set (f := fun k : str * N => (fst k, _)). rewrite (bfilter_perm _ _ _ (arrange_perm _ (map f pairs))).
    clear. induction pairs as [|k l IH]; [done|]. cbn [map List.filter]. change (fst (f k)) with (fst k).
    destruct (fst k =s? ip) eqn:Hk; [|exact IH]. apply str_eqb_eq in Hk. cbn [map].
    replace (count (snd k)) with (snd (f k)); [by rewrite IH|]. unfold f, count, of_client, in_hour. cbn [snd]. f_equal. rewrite Hk.
    generalize rows. clear. intros rows. induction rows as [|r rows IH]; [done|]. cbn [List.filter].
    destruct (q_client_ip r =s? ip); cbn [andb List.filter]; [|exact IH]. destruct (hour_of r =? snd k); cbn [length]; by rewrite IH.
  - unfold hours_in. apply Permutation_map. rewrite sort_by_key_perm. apply NoDup_Permutation; [|apply NoDup_remove_dups|].
    + assert (Hn : NoDup pairs) by apply NoDup_remove_dups. revert Hn. clear. induction pairs as [|[c h] l IH]; [constructor|].
      intros [Hc Hl]%NoDup_cons. cbn [List.filter fst]. destruct (c =s? ip) eqn:Hcip; [|by apply IH]. cbn [map snd].
      apply NoDup_cons. split; [|by apply IH]. intros ([c' h'] & [= ->] & [Hin Hc']%elem_of_bfilter)%list_elem_of_fmap.
      cbn [fst snd] in *. apply str_eqb_eq in Hcip, Hc'. by subst.
    + intros h. rewrite elem_of_remove_dups. split.
      * intros ([c h'] & -> & [Hin Hc]%elem_of_bfilter)%list_elem_of_fmap. cbn [fst snd] in *. unfold pairs in Hin. rewrite elem_of_remove_dups in Hin.
        apply list_elem_of_fmap in Hin as (r & [= -> ->] & Hr). apply list_elem_of_fmap. exists r. split; [done|].
        by apply elem_of_bfilter.
      * intros (r & -> & [Hr Hc]%elem_of_bfilter)%list_elem_of_fmap. apply list_elem_of_fmap. exists (q_client_ip r, hour_of r).
        split; [done|]. apply elem_of_bfilter. split; [|done]. apply elem_of_remove_dups, list_elem_of_fmap. by exists r.
Qed.
(** One row for every client of this hour. *)
Lemma current_rows_spec `{!GroupOrderDoc} now t :
  NoDup (map fst (current_rows now t)) /\
  forall ip n, (ip, n) ∈ current_rows now t <-> (0 < n)%Z /\ n = current_of now t ip.
Proof.
  unfold current_rows, groups_by. set (rows := List.filter _ (query_log t)). set (f := fun k : str => (k, _)).
  set (keys := remove_dups (map (fun r : QueryLogRow => q_client_ip r) rows)).
  assert (Hp : Permutation (map (fun g => (fst g, rows_of g)) (arrange (map f keys)))
                           (map (fun k => (k, Z.of_nat (length (of_client k rows)))) keys)).
  { rewrite (arrange_perm _ (map f keys)), map_map. done. }
  split.
  - rewrite Hp, map_map. cbn [fst]. rewrite map_id. apply NoDup_remove_dups.
  - intros ip n. rewrite Hp, list_elem_of_fmap. unfold current_of. fold rows. split.
    + intros (k & [= -> ->] & Hk). split; [|done]. unfold keys in Hk. rewrite elem_of_remove_dups, list_elem_of_fmap in Hk.
      destruct Hk as (r & -> & Hr). assert (Hin : r ∈ of_client (q_client_ip r) rows).
      { apply elem_of_bfilter. split; [done|apply str_eqb_refl]. }
      destruct (of_client _ _); [by apply not_elem_of_nil in Hin|cbn; lia].
    + intros [Hn ->]. exists ip. split; [done|]. unfold keys. rewrite elem_of_remove_dups, list_elem_of_fmap.
      destruct (of_client ip rows) as [|r l] eqn:Hof; [cbn in Hn; lia|].
      assert (Hin : r ∈ of_client ip rows) by (rewrite Hof; left). apply elem_of_bfilter in Hin as [Hr Hc].
      exists r. split; [by apply str_eqb_eq in Hc|done].
Qed.
(** The criterion, spelled out. *)
Lemma reported_alt now t a :
  reported now t a <->
  (0 < current_of now t (an_client_ip a))%Z /\ (24 <= length (past_counts now t (an_client_ip a)))%nat /\
  anomaly (an_client_ip a) (current_of now t (an_client_ip a)) (mean_stddev (past_counts now t (an_client_ip a))) = Some a.
Proof.
  unfold reported, anomaly, mean_stddev. cbn zeta. destruct (ltb _ _).
  - split; intros (H1' & H2' & H3'); (split; [done|]; split; [done|]); [by destruct H3' as [_ <-]|split; [done|congruence]].
  - split; intros (_ & _ & H3'); [by destruct H3'|done].
Qed.
(** A past in which nothing varies. *)
Lemma sum_same c k : forall s0, (0 <= s0)%Z -> (0 <= c)%Z -> (s0 + Z.of_nat k * c < 2 ^ 53)%Z ->
  fold_left add (repeat (of_Z c) k) (of_Z s0) = of_Z (s0 + Z.of_nat k * c).
Proof.
  induction k as [|k IH]; intros s0 Hs Hc Hlt; [by rewrite Z.add_0_r|]. cbn [repeat fold_left]. rewrite add_int by nia.
  rewrite IH by lia. f_equal. lia.
Qed.
Lemma same_stats c k : (0 < c)%Z -> (0 < k)%nat -> (Z.of_nat k * (c * c) < 2 ^ 53)%Z ->
  mean_stddev (repeat (of_Z c) k) = (of_Z c, of_Z 0).
Proof.
  intros Hc Hk Hlt. assert (Hcc : (c <= c * c)%Z) by nia. assert (Hkc : (Z.of_nat k * c <= Z.of_nat k * (c * c))%Z) by nia.
  assert (Hkl : (Z.of_nat k <= Z.of_nat k * c)%Z) by nia. assert (Hcl : (c * c <= Z.of_nat k * (c * c))%Z) by nia.
  unfold mean_stddev. rewrite repeat_length, map_repeat, mul_int, (sum_same c), (sum_same (c * c)), !Z.add_0_l by nia.
  rewrite !div_int, mul_int, sub_same by nia. done.
Qed.
Lemma same_repeat {A} (c : A) l : Forall (fun x => x = c) l -> l = repeat c (length l).
Proof. induction 1 as [|x l -> _ IH]; [done|]. cbn [length repeat]. by rewrite <- IH. Qed.
Lemma same_reported now t ip c :
  Forall (fun n => n = c) (past_hours now t ip) -> (24 <= length (past_hours now t ip))%nat -> (0 < c)%Z ->
  (Z.of_nat (length (past_hours now t ip)) * (c * c) < 2 ^ 53)%Z -> (current_of now t ip < 2 ^ 53)%Z ->
  (exists a, reported now t a /\ an_client_ip a = ip) <-> (c < current_of now t ip)%Z.
Proof.
  intros Hall Hlen Hc Hlt Hcur.
  assert (Hst : mean_stddev (past_counts now t ip) = (of_Z c, of_Z 0)).
  { unfold past_counts. rewrite (same_repeat _ _ Hall), map_repeat. apply same_stats; [done|lia|exact Hlt]. }
  assert (Hpos : (0 <= current_of now t ip)%Z) by (unfold current_of; lia).
  assert (Hsmall : (c <= Z.of_nat (length (past_hours now t ip)) * (c * c))%Z) by nia.
  assert (Ha : anomaly ip (current_of now t ip) (of_Z c, of_Z 0) =
    if (c <? current_of now t ip)%Z then Some {| an_client_ip := ip; an_current_count := current_of now t ip;
      an_mean := decimals 100 (of_Z c); an_stddev := decimals 100 (of_Z 0); an_sigma := decimals 100 (of_Z 0) |} else None).
  { unfold anomaly. change (mul (of_Z 2) (of_Z 0)) with (of_Z 0). rewrite add_int, Z.add_0_r, ltb_int by lia. done. }
  split.
  - intros (a & (_ & _ & Hx)%reported_alt & Hip). rewrite Hip, Hst, Ha in Hx. destruct (Z.ltb_spec c (current_of now t ip)); [done|discriminate].
  - intros Hgt. rewrite (proj2 (Z.ltb_lt _ _) Hgt) in Ha.
    match type of Ha with _ = Some ?a => exists a end. split; [apply reported_alt; cbn [an_client_ip]|].
    + rewrite Hst. split; [lia|]. split; [|exact Ha]. unfold past_counts. by rewrite length_map.
    + done.
Qed.
Lemma anomaly_ip ip n st a : anomaly ip n st = Some a -> an_client_ip a = ip /\ an_current_count a = n.
Proof. unfold anomaly. destruct st. destruct (ltb _ _); [|done]. by intros [= <-]. Qed.

Lemma insert_alert_fresh row t : (forall x, x ∈ alerts t -> a_id x <> a_id row) ->
  insert_alert row t = Ok (tt, set_alerts t (alerts t ++ [row])).
Proof. intros Hx. unfold insert_alert. by rewrite (proj2 (row_named_None a_id (a_id row) (alerts t)) Hx). Qed.
Lemma alerts_raised now l : forall uuids (s : App), db_works s -> (forall i j, uuids i = uuids j -> i = j) ->
  (forall i x, x ∈ alerts (tables (db_of s)) -> a_id x <> uuids i) ->
  does (raise_alerts now uuids l) s (Ok tt)
    (with_tables (set_alerts (tables (db_of s)) (alerts (tables (db_of s)) ++ imap (fun i a => anomaly_alert now (uuids i) a) l)) s).
Proof.
  induction l as [|a l IH]; intros uuids s Hs Hinj Hfresh; cbn [raise_alerts imap].
  { rewrite app_nil_r. replace (set_alerts (tables (db_of s)) (alerts (tables (db_of s)))) with (tables (db_of s)) by by destruct (tables _).
    rewrite with_tables_same. apply does_ret. }
  eapply does_bind; [apply does_catch; by apply (does_query (count_recent now (an_client_ip a)))|]. cbn [Z.eqb].
  set (row := anomaly_alert now (uuids 0%nat) a). set (t1 := set_alerts (tables (db_of s)) (alerts (tables (db_of s)) ++ [row])).
  eapply does_bind; [eapply does_bind; [apply does_catch, does_execute; [done|]|apply does_ret]|].
  { apply insert_alert_fresh. intros x Hx. by apply (Hfresh 0%nat). }
  fold t1. specialize (IH (fun n => uuids (Datatypes.S n)) (with_tables t1 s)). rewrite tables_with_tables, with_tables_tables in IH.
  assert (Hl : alerts t1 ++ imap (fun i a => anomaly_alert now (uuids (Datatypes.S i)) a) l
    = alerts (tables (db_of s)) ++ row :: imap (fun i a => anomaly_alert now (uuids (Datatypes.S i)) a) l).
  { unfold t1. cbn [alerts set_alerts]. by rewrite <- app_assoc. }
  rewrite Hl in IH. apply IH.
  - by apply works_with_tables.
  - intros i j Hij. by apply Hinj in Hij as [= ->].
  - intros i x. unfold t1. cbn [alerts set_alerts]. rewrite elem_of_app, list_elem_of_singleton. intros [Hx| ->]; [by apply Hfresh|].
    cbn [a_id row anomaly_alert]. intros He. by apply Hinj in He.
Qed.

(** C35: Anomalies are found once for each client and each gets an alert.  A
    client is reported when it has queries in this hour, had some in at least
    24 hours of the seven days before, and has more of them than the mean of
    those hours and two standard deviations, which [reported] spells out in
    floating point over the numbers of its queries by hour; so one that had
    the same number in each of them is reported exactly when it now has more.
    The list is in descending order of the deviation and names no client
    twice.  Every call adds one unread alert for each of them, those of a call
    a moment before notwithstanding, since the statement that looks for those
    compares a text with a time and fails, and changes nothing else. *)
Theorem anomalies_correct `{!GroupOrderDoc} d uuids p auth (s : App) :
  db_works s -> fst (AuthUser d p s) = Ok auth -> (forall i j, uuids i = uuids j -> i = j) ->
  (forall i x, x ∈ alerts (tables (db_of s)) -> a_id x <> uuids i) ->
  let now := d_utc d in
  let t := tables (db_of s) in
  exists found,
    does (get_anomalies d uuids p) s (Ok found)
      (with_tables (set_alerts t (alerts t ++ imap (fun i a => anomaly_alert now (uuids i) a) found)) s) /\
    (forall a, a ∈ found <-> reported now t a) /\
    NoDup (map an_client_ip found) /\ Sorted not_below found /\
    (forall ip, let mine := of_client ip (past_rows now t) in
       Permutation (past_hours now t ip) (map (fun h => Z.of_nat (length (in_hour h mine))) (hours_in mine))) /\
    (forall ip c, Forall (fun n => n = c) (past_hours now t ip) -> (24 <= length (past_hours now t ip))%nat -> (0 < c)%Z ->
       (Z.of_nat (length (past_hours now t ip)) * (c * c) < 2 ^ 53)%Z -> (current_of now t ip < 2 ^ 53)%Z ->
       (exists a, a ∈ found /\ an_client_ip a = ip) <-> (c < current_of now t ip)%Z).
Proof.
  intros Hs Hauth Hinj Hfresh now t. pose proof (does_AuthUser d p s) as Ha. rewrite Hauth in Ha.
  assert (Hfound : forall a, a ∈ anomalies now (history_rows now t) (current_rows now t) <-> reported now t a).
  { intros a. unfold anomalies. rewrite (proj1 (sigmas_sorted _)), elem_of_filter_map. destruct (current_rows_spec now t) as [_ Hc].
    rewrite reported_alt. split.
    + intros ([ip n] & [Hn ->]%Hc & Hx). cbn [fst snd] in Hx. rewrite stats_of in Hx. unfold client_stats in Hx.
      destruct (Nat.leb_spec 24 (length (past_counts now t ip))); [|done]. by destruct (anomaly_ip _ _ _ _ Hx) as [-> _].
    + intros (Hn & Hl & Hx). exists (an_client_ip a, current_of now t (an_client_ip a)). split; [by apply Hc|]. cbn [fst snd].
      rewrite stats_of. unfold client_stats. by rewrite (proj2 (Nat.leb_le _ _) Hl). }
  exists (anomalies now (history_rows now t) (current_rows now t)). split; [|split; [exact Hfound|split; [|split; [|split]]]].
  - eapply does_bind; [exact Ha|]. eapply does_bind; [by eapply does_db_query|]. eapply does_bind; [by eapply does_db_query|].
    eapply does_bind; [by apply alerts_raised|]. apply does_ret.
  - unfold anomalies. rewrite (proj1 (sigmas_sorted _)). destruct (current_rows_spec now t) as [Hn _].
    clear Hfound. revert Hn. induction (current_rows now t) as [|[ip n] l IH]; [constructor|]. cbn [map fst]. intros [Hip Hl]%NoDup_cons.
    cbn [filter_map fst snd]. destruct (omap client_stats _ !! ip) as [st|]; [|by apply IH].
    destruct (anomaly ip n st) as [a|] eqn:Hx; [|by apply IH]. cbn [map]. apply anomaly_ip in Hx as [-> _].
    apply NoDup_cons. split; [|by apply IH]. intros (b & Hb & (row & Hrow & Hb')%elem_of_filter_map)%list_elem_of_fmap.
    destruct (omap client_stats _ !! fst row) as [st'|]; [|done]. apply anomaly_ip in Hb' as [Hb' _].
    apply Hip, list_elem_of_fmap. exists row. split; [congruence|done].
  - apply sigmas_sorted.
  - intros ip. apply past_hours_perm.
  - intros ip c Hall Hl Hc Hlt Hcur. rewrite <- (same_reported now t ip c) by done.
    split; intros (a & Hx%Hfound & Hip); exists a; (split; [exact Hx|exact Hip]).
Qed.
End insights.
End Insights.

Module InsightsWitness.
Import AsciiUnicode RefRegex RefJson RefIpNet RefMoka RefRng RefHickory RefResolver RefCrypto RefValue Api AppWitness.
Import QueryLog QueryLogWitness RefRegexSingle RefDashboard Dashboard Insights.

(** A query of a client, a number of seconds into an hour, for an app. *)
Definition asked (client : string) (sec hour : N) : QueryLogEntry :=
  {| q_time := (hour * 3600 + sec) * 1000000000; q_client_ip := lit client; q_question := lit "a.com."; q_qtype := lit "A";
     q_status := lit (if sec =? 7 then "blocked" else "allowed"); q_reason := None; q_answer := None; q_elapsed_ns := 5;
     q_upstream_ns := None; q_upstream_name := None; q_app_id := Some (if sec =? 7 then 2%Z else 1%Z) |}.
Definition tomorrow : Draws := AuthWitness.draws 90000 0 "n1".
Definition day : list N := map N.of_nat (seq 0 24).
(** One client has queries in 24 hours, the other in 23; both have three in
    this hour. *)
Definition log3 : list QueryLogEntry :=
  map (asked "10.0.0.2" 5) day ++ map (asked "10.0.0.3" 6) (tail day)
  ++ flat_map (fun c => map (fun sec => asked c sec 25) [7; 8; 9]) ["10.0.0.2"; "10.0.0.3"]%string.
Definition game : AppRow :=
  {| ap_id := 2; ap_app_name := lit "Game"; ap_category := lit "fun"; ap_icon := lit "g"; ap_vendor := None; ap_homepage := None |}.
Definition ti : Db := set_app_catalog (QueryLogWriter.QueryLogWriter.append_rows log3 empty_db) [game].
Definition ids (n : nat) : str := lit "u" ++ show_N (N.of_nat n).
Definition counts (u : Usage) : Z * Z * Z := (us_total u, us_clients u, us_blocked u).

Example apps_test :
  let answer := {| ta_hours := None; ta_limit := None; ta_category := Some (lit "fun"); ta_status := None |} in
  option_map (map (fun x : AppRow * Usage => (ap_id (fst x), counts (snd x))))
    (match fst (top_apps tomorrow admin answer (app ti)) with Ok l => Some l | Err _ => None end) = Some [(2, (2, 2, 2))]%Z.
Proof. vm_compute. reflexivity. Qed.
Example app_trend_test :
  (fst (app_trend tomorrow admin (Some 2%Z) None (app ti)), fst (app_trend tomorrow admin None None (app ti)))
  = (Ok [(lit "25", 2%Z)], Err (Validation (lit "Missing required parameter: app_id"))).
Proof. vm_compute. reflexivity. Qed.
Example domains_test :
  match fst (top_domains tomorrow admin (Some 1%Z) None (Some (lit "allowed")) (app ti)) with
  | Ok l => Some (map (fun x => (fst (fst x), counts (snd (fst x)))) l)
  | Err _ => None
  end = Some [(lit "a.com.", (6, 2, 2)%Z)].
Proof. vm_compute. reflexivity. Qed.

Lemma ids_injective i j : ids i = ids j -> i = j.
Proof.
  unfold ids. intros Hij. apply app_inv_head, (f_equal (parse_digits 0)) in Hij.
  rewrite !parse_shown in Hij. injection Hij as Hij. lia.
Qed.
Lemma anomalies_correct_witness :
  exists found, does (get_anomalies tomorrow ids admin) (app ti) (Ok found)
    (with_tables (set_alerts ti (imap (fun i a => anomaly_alert 90000 (ids i) a) found)) (app ti)) /\
    map (fun a => (an_client_ip a, an_current_count a)) found = [(lit "10.0.0.2", 3%Z)].
Proof.
  destruct (anomalies_correct tomorrow ids admin AuthWitness.ann (app ti) (app_works _)) as (found & Hd & _).
  - vm_compute. reflexivity.
  - apply ids_injective.
  - intros i x Hx. by apply not_elem_of_nil in Hx.
  - exists found. split; [exact Hd|]. apply does_run in Hd as [n Hn].
    assert (Hf : match fst (get_anomalies tomorrow ids admin (app ti)) with
      | Ok l => map (fun a => (an_client_ip a, an_current_count a)) l | Err _ => [] end = [(lit "10.0.0.2", 3%Z)])
      by (vm_compute; reflexivity).
    rewrite Hn in Hf. exact Hf.
Defined.
End InsightsWitness.
