(* ===== verification/Activity.v ===== *)
(** * What a client asked, its name, and the backup

    [get_activity] and [ptr_lookup] of src/api/handlers/clients.rs and
    src/api/handlers/backup.rs.  The answer of the system's resolver and what
    pg_dump gives are parameters. *)
From S2P Require Import Prelude RustStr IpAddr Regex Rules Acl Moka Hickory Cache Db DbLogic Filter Resolver.
From S2P Require Import UpstreamPool Handler HandlerTests Api App Auth AppTests Listing Tables Clients Groups Conditions RuleStats QueryLog.
From S2P Require Import Float Dashboard.
Local Open Scope N_scope.

(** [TO_CHAR(time, 'YYYY-MM-DDTHH24:00:00')] of the n-th hour since 1970. *)
Class HourStamp := { hour_stamp : N -> str }.
(** The names of an address, none when the lookup fails or takes more than
    four seconds. *)
Class SystemResolver := { reverse_lookup : IpAddr -> option (list str) }.
(** How the process ended: it did not start, it failed with a text, or it gave
    the dump; and the time in the name of the file. *)
Inductive DumpEnd := NotStarted (found : bool) (error : str) | Failed (stderr : str) | Dumped (stdout : list N).
Class PgDump := { pg_dump : Db -> DumpEnd; file_time : N -> str }.

Module Activity.
Import Dashboard.
Section activity.
Context `{RustUnicode, RegexEngine, SerdeJson, Collation, IpNetCrate, Moka, Rng,
  Hickory, !HickoryResolver, !DnsCodec, Jwt, SqlTime, GroupOrder, HourStamp, SystemResolver, PgDump}.
Import Api.

(** ** get_activity *)

Definition activity_hours (hours : option Z) : Z := Z.min (Z.max (default 24%Z hours) 1) 168.
Definition client_missing (id : str) : AppError := NotFound (lit "Client " ++ id ++ lit " not found").
(** The addresses of a client. *)
Definition client_ips (id : str) : M App AppError (list str) :=
  match strip_prefix id "dynamic-" with
  | Some ip => ret [ip]
  | None =>
      let! row := db (fetch_optional (fun t => c_identifiers <$> row_named c_id id (clients t))) in
      match row with
      | None => fail (client_missing id)
      | Some identifiers =>
          ret (List.filter (fun i => negb (Clients.is_mac i)) (default [] (json_strings identifiers)))
      end
  end.
Definition asked_rows (now : N) (hours : Z) (ips : list str) (t : Db) : list QueryLogRow :=
  List.filter (fun r => Clients.asked_by ips (ql_entry r) && since now (hours * 3600) r) (query_log t).
Definition hourly (rows : list QueryLogRow) : list (str * Z * Z) :=
  Listing.order_asc (fun x => fst (fst x)) (map (fun h => (hour_stamp h, Z.of_nat (length (in_hour h rows)), blocked_of (in_hour h rows)))
    (remove_dups (map hour_of rows))).
Definition favourites (rows : list QueryLogRow) : list (str * Z) :=
  most 10 snd (map (fun g => (fst g, rows_of g)) (groups_by (fun r => q_question r) rows)).
Record ActivityAnswer := { aa_data : list (str * Z * Z); aa_top_domains : list (str * Z) }.
Definition get_activity (d : Draws) (p : Parts) (id : str) (hours : option Z) : M App AppError ActivityAnswer :=
  AuthUser d p ;;;
  let hours := activity_hours hours in
  let! ips := client_ips id in
  if bool_decide (ips = []) then ret {| aa_data := []; aa_top_domains := [] |}
  else
    let! activity_rows := db (fetch_all (fun t => hourly (asked_rows (d_utc d) hours ips t))) in
    let! top_domains := db (fetch_all (fun t => favourites (asked_rows (d_utc d) hours ips t))) in
    ret {| aa_data := activity_rows; aa_top_domains := top_domains |}.

(** ** ptr_lookup *)

Definition ptr_lookup (d : Draws) (p : Parts) (ip : str) : M App AppError (option str) :=
  AuthUser d p ;;;
  let! addr := lift (ok_or (parse_ip ip) (Validation (lit "Invalid IP address: " ++ ip))) in
  ret (match reverse_lookup addr with
       | Some names => (fun n => trim_end_char n 46) <$> head names
       | None => None
       end).

(** ** create_backup *)

Definition dump_error (e : DumpEnd) : option str :=
  match e with
  | NotStarted false _ => Some (lit "pg_dump not found. Ensure the Docker image includes postgresql-client.")
  | NotStarted true e => Some (lit "Failed to run pg_dump: " ++ e)
  | Failed stderr => Some (lit "pg_dump failed: " ++ trim stderr)
  | Dumped _ => None
  end.
Record Backup := { bk_disposition : str; bk_size : N; bk_body : list N }.
Definition create_backup (d : Draws) (p : Parts) : M App AppError Backup :=
  let ip := ClientIp p in
  let! admin := AdminUser d p in
  let filename := lit "rust-dns-backup-" ++ file_time (d_utc d) ++ lit ".dump" in
  let! out := gets (fun s : App => pg_dump (tables (db_of s))) in
  match out with
  | Dumped stdout =>
      log_action d (sub admin) (username admin) "create" "backup" None (Some filename) ip ;;;
      ret {| bk_disposition := lit "attachment; filename=" ++ [34] ++ filename ++ [34];
             bk_size := N.of_nat (length stdout); bk_body := stdout |}
  | out => fail (Internal (default [] (dump_error out)))
  end.

(** ** What is counted *)

Lemma sum_over_map {A B} (f : B -> Z) (g : A -> B) l : sum_over f (map g l) = sum_over (fun x => f (g x)) l.
Proof. unfold sum_over. induction l as [|x l IH]; [done|]. cbn [map foldr]. by rewrite IH. Qed.
(** The hours of the answer add up to the rows of the window that came from an
    address of the client. *)
Theorem activity_adds_up d p auth id hours ips (s : App) :
  db_works s -> fst (AuthUser d p s) = Ok auth -> does (client_ips id) s (Ok ips) s -> ips <> [] ->
  let rows := asked_rows (d_utc d) (activity_hours hours) ips (tables (db_of s)) in
  exists a, does (get_activity d p id hours) s (Ok a) s /\
    sum_over (fun x => snd (fst x)) (aa_data a) = Z.of_nat (length rows) /\
    sum_over (fun x => snd x) (aa_data a) = blocked_of rows.
Proof.
  intros Hs Hauth Hips Hne rows. pose proof (does_AuthUser d p s) as Ha. rewrite Hauth in Ha. eexists. split.
  { eapply does_bind; [exact Ha|]. eapply does_bind; [exact Hips|]. rewrite bool_decide_eq_false_2 by done.
    eapply does_bind; [by eapply does_db_query|]. eapply does_bind; [by eapply does_db_query|]. apply does_ret. }
  cbn [aa_data]. fold rows. unfold hourly.
  assert (Hin : forall r, r ∈ rows -> hour_of r ∈ remove_dups (map hour_of rows)).
  { intros r Hr. apply elem_of_remove_dups. by apply list_elem_of_fmap_2. }
  split.
  - rewrite (sum_over_perm _ _ _ (Listing.order_asc_perm _ _)), sum_over_map. cbn [fst snd].
    pose proof (sum_hours (fun _ => true) _ rows (NoDup_remove_dups _) Hin) as Hsum. unfold counted in Hsum.
    rewrite QueryLog.bfilter_all in Hsum by done. rewrite <- Hsum. unfold sum_over. clear.
    induction (remove_dups (map hour_of rows)) as [|h l IH]; [done|]. cbn [foldr]. rewrite IH. by rewrite QueryLog.bfilter_all.
  - rewrite (sum_over_perm _ _ _ (Listing.order_asc_perm _ _)), sum_over_map. cbn [fst snd].
    exact (sum_hours (has_status "blocked") _ rows (NoDup_remove_dups _) Hin).
Qed.
End activity.
End Activity.

Module RefSystem.
#[export] Instance stamps : HourStamp := {| hour_stamp := show_N |}.
#[export] Instance names : SystemResolver :=
  {| reverse_lookup ip := match ip with V4 10 0 0 2 => Some [lit "laptop.lan."; lit "other.lan."] | _ => None end |}.
#[export] Instance dump : PgDump :=
  {| pg_dump t := Dumped (map (fun r : QueryLogRow => Z.to_N (ql_id r)) (query_log t)); file_time := show_N |}.
End RefSystem.

Module ActivityWitness.
Import AsciiUnicode RefRegex RefJson RefIpNet RefMoka RefRng RefHickory RefResolver RefCrypto RefValue Api AppWitness.
Import QueryLog QueryLogWitness RefRegexSingle DashboardWitness RefSystem Dashboard Activity.

Example ptr_test :
  map (fun ip => fst (ptr_lookup today admin (lit ip) (app td))) ["10.0.0.2"; "10.0.0.3"; "laptop"]%string
  = [Ok (Some (lit "laptop.lan")); Ok None; Err (Validation (lit "Invalid IP address: laptop"))].
Proof. vm_compute. reflexivity. Qed.
Example backup_test :
  match create_backup today admin (app td) with
  | (Ok b, s) => Some (bk_disposition b, bk_body b, map (fun a => (al_action a, al_resource a)) (audit_log (tables (db_of s))))
  | (Err _, _) => None
  end = Some (lit "attachment; filename=" ++ [34] ++ lit "rust-dns-backup-2000.dump" ++ [34], [1; 2; 3; 4; 5; 6; 7; 8; 9],
              [(lit "create", lit "backup")]).
Proof. vm_compute. reflexivity. Qed.

Lemma activity_adds_up_witness :
  exists a, does (get_activity today admin (lit "dynamic-10.0.0.2") None) (app td) (Ok a) (app td) /\
    sum_over (fun x => snd (fst x)) (aa_data a) = 5%Z /\ sum_over (fun x => snd x) (aa_data a) = 3%Z.
Proof.
  destruct (activity_adds_up today admin AuthWitness.ann (lit "dynamic-10.0.0.2") None [lit "10.0.0.2"] (app td) (app_works _) (admin_ok _))
    as (a & Hd & Ht & Hb).
  - apply does_ret.
  - done.
  - exists a. split; [exact Hd|]. split; [rewrite Ht|rewrite Hb]; vm_compute; reflexivity.
Defined.
End ActivityWitness.
