(* ===== verification/Endpoints.v ===== *)
(** * The endpoints of the API: src/api/router.rs, src/api/mod.rs

    Every handler the router registers, with the arguments its extractors
    give it, on the whole state of the API: the state the handlers share, the
    cache of validated rules and that of suggestions.  The theorems say which
    endpoints ask for a session and which for an administrator. *)
From S2P Require Import Prelude RustStr IpAddr Regex Rules Acl Moka Hickory Cache Db DbLogic Filter Resolver.
From S2P Require Import UpstreamPool Handler HandlerTests Subscription Api App Auth AppTests Users Ws Validators Listing Tables.
From S2P Require Import Rewrites RulesApi RulesTransfer Clients Groups Settings FiltersApi Tasks Alerts Upstreams Doh Tools RuleStats.
From S2P Require Import Conditions QueryLog QueryFilters Templates Float Dashboard Insights Activity.
Local Open Scope N_scope.

Inductive Endpoint :=
| HealthCheck | Login | Logout | ChangePassword | DashboardStats | QueryTrend | TopBlocked | TopClients | TopQueried
| UpstreamTrend | UpstreamDistribution | LatencySummary | LatencyTrend | HealthHistory | ListLogs | ExportLogs
| DeleteLogs | AdvancedLogs | AdvancedLogsPost | AggregateLogs | TopLogs | SuggestLogs | ListTemplates
| CreateTemplate | GetTemplate | UpdateTemplate | DeleteTemplate | ListFilters | CreateFilter | UpdateFilter
| DeleteFilter | RefreshFilter | ListRules | CreateRule | RuleHitStats | RuleHitDetail | ExportRules | ImportRules
| BulkRules | ValidateRule | ExpiringRules | UpdateRule | ToggleRule | DeleteRule | ListRewrites | CreateRewrite
| UpdateRewrite | DeleteRewrite | ListClients | CreateClient | PtrLookup | ClientActivity | UpdateClient
| DeleteClient | ListGroups | CreateGroup | UpdateGroup | DeleteGroup | GroupMembers | AddMembers | RemoveMembers
| MoveClients | GroupRules | BindRules | UnbindRules | ListUpstreams | CreateUpstream | UpstreamsHealth | GetUpstream
| UpdateUpstream | DeleteUpstream | TestUpstream | Failover | GetDns | UpdateDns | ListUsers | CreateUser
| UpdateRole | AuditLog | FailoverHistory | ListAlerts | ClearAlerts | ReadAllAlerts | ListMutes | UpsertMute
| DeleteMute | DeleteAlert | ReadAlert | PrometheusMetrics | CreateBackup | IssueTicket | LiveLog | DohGet | DohPost
| CacheStats | FlushCache | FilterCounts | CheckDomains | TopApps | AppTrend | ListCatalog | TopDomains | Anomalies
| TestRule.
#[global] Instance Endpoint_dec : EqDecision Endpoint.
Proof. solve_decision. Defined.
(** Who may call. *)
Inductive Guard := Public | Session | Admin.
Definition guard (e : Endpoint) : Guard :=
  match e with
  | HealthCheck | Login | Logout | LiveLog | DohGet | DohPost => Public
  | ExportLogs | DeleteLogs | CreateGroup | UpdateGroup | DeleteGroup | AddMembers | RemoveMembers | MoveClients
  | BindRules | UnbindRules | CreateUpstream | UpdateUpstream | DeleteUpstream | TestUpstream | Failover | GetDns
  | UpdateDns | ListUsers | CreateUser | UpdateRole | AuditLog | ClearAlerts | ReadAllAlerts | ListMutes | UpsertMute
  | DeleteMute | DeleteAlert | ReadAlert | PrometheusMetrics | CreateBackup | CacheStats | FlushCache => Admin
  | _ => Session
  end.

(** What a client sees: a success, a failure with its status, a switch to
    the WebSocket protocol, or nothing since the process ended. *)
Inductive Reply := Success | Status (n : N) | Switched | Down.

Section endpoints.
Context `{RustUnicode, RegexEngine, SerdeJson, Collation, IpNetCrate, Moka, Rng,
  Hickory, !HickoryResolver, !DnsCodec, Jwt, SqlTime, SqlJson, SerdeValue}.
Context `{UrlCrate, HttpClient, RegexCaptures, Rfc3339, SqlTimestamp, Base64Url, !RegexSingle, GroupOrder, HourText,
  SqlRatio, Argon2, Chrono, ErrorText, SqlAvg, HourStamp, SystemResolver, PgDump}.
Import Api.

Record Server := {
  sv_app : App; sv_validations : moka Validators.RuleValidationResponse; sv_suggestions : QueryFilters.SuggestCache }.
Definition set_app (s : Server) (a : App) : Server :=
  {| sv_app := a; sv_validations := sv_validations s; sv_suggestions := sv_suggestions s |}.

(** ** The handlers on the whole state *)

Definition reply {A} (r : result A AppError) : Reply :=
  match r with Ok _ => Success | Err e => Status (fst (into_response e)) end.
Definition api {A} (m : M App AppError A) (s : Server) : Reply * Server :=
  let '(r, a) := m (sv_app s) in (reply r, set_app s a).
Definition failure_reply {A} (r : result A Failure) : Reply :=
  match r with Ok _ => Success | Err (Refused e) => Status (fst (into_response e)) | Err Aborted => Down end.
Definition filtered {A} (m : M App Failure A) (s : Server) : Reply * Server :=
  let '(r, a) := m (sv_app s) in (failure_reply r, set_app s a).
Definition import_reply {A} (r : result A RulesTransfer.ImportError) : Reply :=
  match r with
  | Ok _ => Success
  | Err (RulesTransfer.NotAuthorized e) => Status (fst (into_response e))
  | Err RulesTransfer.PayloadTooLarge => Status 413
  | Err (RulesTransfer.BadRequest _) => Status 400
  | Err (RulesTransfer.ServerError _) => Status 500
  end.
Definition imported {A} (m : M App RulesTransfer.ImportError A) (s : Server) : Reply * Server :=
  let '(r, a) := m (sv_app s) in (import_reply r, set_app s a).
(** The cache of suggestions is one static of the module. *)
Definition suggested (d : Draws) (p : Parts) (q : SuggestParams) (s : Server) : Reply * Server :=
  let '(r, a) := QueryFilters.suggest d p q (sv_suggestions s) (sv_app s) in
  (failure_reply r,
   {| sv_app := a; sv_validations := sv_validations s;
      sv_suggestions := match r with Ok (_, c) => c | Err _ => sv_suggestions s end |}).
Definition validated (d : Draws) (p : Parts) (req : Validators.RuleValidationRequest) (s : Server) : Reply * Server :=
  let '(r, v) := Validators.validate_rule_handler d p req
    {| Validators.v_auth := auth_of (sv_app s); Validators.v_db := db_of (sv_app s);
       Validators.rule_validation_cache := sv_validations s |} in
  (reply r,
   {| sv_app := with_auth (with_db (sv_app s) (Validators.v_db v)) (Validators.v_auth v);
      sv_validations := Validators.rule_validation_cache v; sv_suggestions := sv_suggestions s |}).
Definition live (now : N) (ticket : str) (s : Server) : Reply * Server :=
  let '(r, a) := Ws.query_log_ws now ticket (sv_app s) in
  (match r with Upgrade => Switched | TicketExpired | TicketInvalid => Status 401 end, set_app s a).
(** [ConnectInfo] is missing only when the server is not set up to keep the
    address of the peer. *)
Definition from_peer {A} (p : Parts) (m : IpAddr -> M App AppError A) (s : Server) : Reply * Server :=
  match peer p with Some ip => api (m ip) s | None => (Status 500, s) end.

Inductive Call :=
| CHealthCheck
| CLogin (req : LoginRequest)
| CLogout
| CChangePassword (req : ChangePasswordRequest)
| CDashboardStats (hours : option Z)
| CQueryTrend (hours : option Z)
| CTopBlocked (hours : option Z)
| CTopClients (hours : option Z)
| CTopQueried (hours : option Z)
| CUpstreamTrend (hours limit : option Z)
| CUpstreamDistribution (hours : option Z)
| CLatencySummary (hours : option Z)
| CLatencyTrend (hours : option Z)
| CHealthHistory (hours : option Z)
| CListLogs (q : QueryLogParams)
| CExportLogs (q : ExportParams)
| CDeleteLogs (ids : list Z)
| CAdvancedLogs (q : AdvancedQuery)
| CAdvancedLogsPost (q : AdvancedQuery)
| CAggregateLogs (q : AggregateParams)
| CTopLogs (q : TopParams)
| CSuggestLogs (q : SuggestParams)
| CListTemplates
| CCreateTemplate (req : TemplateCreate)
| CGetTemplate (id : str)
| CUpdateTemplate (id : str) (req : TemplateUpdate)
| CDeleteTemplate (id : str)
| CListFilters
| CCreateFilter (body : CreateFilterRequest)
| CUpdateFilter (id : str) (body : UpdateFilterRequest)
| CDeleteFilter (id : str)
| CRefreshFilter (id : str)
| CListRules (q : Listing.ListParams)
| CCreateRule (body : CreateRuleRequest)
| CRuleHitStats (q : StatsParams)
| CRuleHitDetail (id : str) (q : StatsParams)
| CExportRules (format : option str)
| CImportRules (uuids : nat -> str) (upload : Multipart)
| CBulkRules (req : BulkActionRequest)
| CValidateRule (req : Validators.RuleValidationRequest)
| CExpiringRules (minutes : option Z)
| CUpdateRule (id : str) (body : UpdateRuleRequest)
| CToggleRule (id : str) (is_enabled : bool)
| CDeleteRule (id : str)
| CListRewrites (q : Listing.ListParams)
| CCreateRewrite (body : CreateRewriteRequest)
| CUpdateRewrite (id : str) (body : UpdateRewriteRequest)
| CDeleteRewrite (id : str)
| CListClients (arp : option str)
| CCreateClient (body : CreateClientRequest)
| CPtrLookup (ip : str)
| CClientActivity (id : str) (hours : option Z)
| CUpdateClient (id : str) (body : UpdateClientRequest)
| CDeleteClient (id : str)
| CListGroups
| CCreateGroup (serial : Z) (body : CreateClientGroupRequest)
| CUpdateGroup (id : Z) (body : UpdateClientGroupRequest)
| CDeleteGroup (id : Z)
| CGroupMembers (arp : option str) (id : Z) (q : Groups.PageParams)
| CAddMembers (serials : nat -> Z) (id : Z) (client_ids : list str)
| CRemoveMembers (id : Z) (client_ids : list str)
| CMoveClients (serials : nat -> Z) (body : BatchMoveClientsRequest)
| CGroupRules (id : Z) (rule_type : option str)
| CBindRules (serials : nat -> Z) (id : Z) (rules : list BindRuleRequest)
| CUnbindRules (id : Z) (rule_type : option str) (body : BatchUnbindRulesRequest)
| CListUpstreams
| CCreateUpstream (body : CreateUpstreamRequest)
| CUpstreamsHealth
| CGetUpstream (id : str)
| CUpdateUpstream (id : str) (body : UpdateUpstreamRequest)
| CDeleteUpstream (id : str)
| CTestUpstream (net : Upstreams.Net) (id : str)
| CFailover
| CGetDns
| CUpdateDns (body : UpdateDnsSettingsRequest)
| CListUsers
| CCreateUser (body : CreateUserRequest)
| CUpdateRole (id new_role : str)
| CAuditLog (q : AuditLogParams)
| CFailoverHistory
| CListAlerts (q : AlertFilterParams)
| CClearAlerts
| CReadAllAlerts
| CListMutes
| CUpsertMute (ty : str) (until : option str)
| CDeleteMute (ty : str)
| CDeleteAlert (id : str)
| CReadAlert (id : str)
| CPrometheusMetrics
| CCreateBackup
| CIssueTicket
| CLiveLog (ticket : str)
| CDohGet (tm : Timing) (dns : str)
| CDohPost (tm : Timing) (body : list N)
| CCacheStats
| CFlushCache
| CFilterCounts
| CCheckDomains (domains : list str)
| CTopApps (q : Insights.TopAppsParams)
| CAppTrend (app_id hours : option Z)
| CListCatalog (q category : option str)
| CTopDomains (hours limit : option Z) (status : option str)
| CAnomalies (uuids : nat -> str)
| CTestRule (body : SandboxRequest).
Definition endpoint_of (c : Call) : Endpoint :=
  match c with
  | CHealthCheck => HealthCheck
  | CLogin _ => Login
  | CLogout => Logout
  | CChangePassword _ => ChangePassword
  | CDashboardStats _ => DashboardStats
  | CQueryTrend _ => QueryTrend
  | CTopBlocked _ => TopBlocked
  | CTopClients _ => TopClients
  | CTopQueried _ => TopQueried
  | CUpstreamTrend _ _ => UpstreamTrend
  | CUpstreamDistribution _ => UpstreamDistribution
  | CLatencySummary _ => LatencySummary
  | CLatencyTrend _ => LatencyTrend
  | CHealthHistory _ => HealthHistory
  | CListLogs _ => ListLogs
  | CExportLogs _ => ExportLogs
  | CDeleteLogs _ => DeleteLogs
  | CAdvancedLogs _ => AdvancedLogs
  | CAdvancedLogsPost _ => AdvancedLogsPost
  | CAggregateLogs _ => AggregateLogs
  | CTopLogs _ => TopLogs
  | CSuggestLogs _ => SuggestLogs
  | CListTemplates => ListTemplates
  | CCreateTemplate _ => CreateTemplate
  | CGetTemplate _ => GetTemplate
  | CUpdateTemplate _ _ => UpdateTemplate
  | CDeleteTemplate _ => DeleteTemplate
  | CListFilters => ListFilters
  | CCreateFilter _ => CreateFilter
  | CUpdateFilter _ _ => UpdateFilter
  | CDeleteFilter _ => DeleteFilter
  | CRefreshFilter _ => RefreshFilter
  | CListRules _ => ListRules
  | CCreateRule _ => CreateRule
  | CRuleHitStats _ => RuleHitStats
  | CRuleHitDetail _ _ => RuleHitDetail
  | CExportRules _ => ExportRules
  | CImportRules _ _ => ImportRules
  | CBulkRules _ => BulkRules
  | CValidateRule _ => ValidateRule
  | CExpiringRules _ => ExpiringRules
  | CUpdateRule _ _ => UpdateRule
  | CToggleRule _ _ => ToggleRule
  | CDeleteRule _ => DeleteRule
  | CListRewrites _ => ListRewrites
  | CCreateRewrite _ => CreateRewrite
  | CUpdateRewrite _ _ => UpdateRewrite
  | CDeleteRewrite _ => DeleteRewrite
  | CListClients _ => ListClients
  | CCreateClient _ => CreateClient
  | CPtrLookup _ => PtrLookup
  | CClientActivity _ _ => ClientActivity
  | CUpdateClient _ _ => UpdateClient
  | CDeleteClient _ => DeleteClient
  | CListGroups => ListGroups
  | CCreateGroup _ _ => CreateGroup
  | CUpdateGroup _ _ => UpdateGroup
  | CDeleteGroup _ => DeleteGroup
  | CGroupMembers _ _ _ => GroupMembers
  | CAddMembers _ _ _ => AddMembers
  | CRemoveMembers _ _ => RemoveMembers
  | CMoveClients _ _ => MoveClients
  | CGroupRules _ _ => GroupRules
  | CBindRules _ _ _ => BindRules
  | CUnbindRules _ _ _ => UnbindRules
  | CListUpstreams => ListUpstreams
  | CCreateUpstream _ => CreateUpstream
  | CUpstreamsHealth => UpstreamsHealth
  | CGetUpstream _ => GetUpstream
  | CUpdateUpstream _ _ => UpdateUpstream
  | CDeleteUpstream _ => DeleteUpstream
  | CTestUpstream _ _ => TestUpstream
  | CFailover => Failover
  | CGetDns => GetDns
  | CUpdateDns _ => UpdateDns
  | CListUsers => ListUsers
  | CCreateUser _ => CreateUser
  | CUpdateRole _ _ => UpdateRole
  | CAuditLog _ => AuditLog
  | CFailoverHistory => FailoverHistory
  | CListAlerts _ => ListAlerts
  | CClearAlerts => ClearAlerts
  | CReadAllAlerts => ReadAllAlerts
  | CListMutes => ListMutes
  | CUpsertMute _ _ => UpsertMute
  | CDeleteMute _ => DeleteMute
  | CDeleteAlert _ => DeleteAlert
  | CReadAlert _ => ReadAlert
  | CPrometheusMetrics => PrometheusMetrics
  | CCreateBackup => CreateBackup
  | CIssueTicket => IssueTicket
  | CLiveLog _ => LiveLog
  | CDohGet _ _ => DohGet
  | CDohPost _ _ => DohPost
  | CCacheStats => CacheStats
  | CFlushCache => FlushCache
  | CFilterCounts => FilterCounts
  | CCheckDomains _ => CheckDomains
  | CTopApps _ => TopApps
  | CAppTrend _ _ => AppTrend
  | CListCatalog _ _ => ListCatalog
  | CTopDomains _ _ _ => TopDomains
  | CAnomalies _ => Anomalies
  | CTestRule _ => TestRule
  end.

(** ** The call of a handler *)

Definition call_endpoint (d : Draws) (p : Parts) (c : Call) : Server -> Reply * Server :=
  match c with
  | CHealthCheck => api (ret (E := AppError) Tools.health_check)
  | CLogin req => api (Auth.login d (ClientIp p) req)
  | CLogout => api (Auth.logout d p)
  | CChangePassword req => api (Auth.change_password d p req)
  | CDashboardStats hours => api (Dashboard.get_stats d p hours)
  | CQueryTrend hours => api (Dashboard.get_query_trend d p hours)
  | CTopBlocked hours => api (Dashboard.get_top_blocked_domains d p hours)
  | CTopClients hours => api (Dashboard.get_top_clients d p hours)
  | CTopQueried hours => api (Dashboard.get_top_queried_domains d p hours)
  | CUpstreamTrend hours limit => api (Dashboard.get_upstream_trend d p hours limit)
  | CUpstreamDistribution hours => api (Dashboard.get_upstream_distribution d p hours)
  | CLatencySummary hours => api (Dashboard.get_latency_stats d p hours)
  | CLatencyTrend hours => api (Dashboard.get_latency_trend d p hours)
  | CHealthHistory hours => api (Dashboard.get_upstream_health_history d p hours)
  | CListLogs q => api (QueryLog.list_logs d p q)
  | CExportLogs q => api (QueryLog.export d p q)
  | CDeleteLogs ids => api (QueryLog.bulk_delete d p ids)
  | CAdvancedLogs q => filtered (QueryFilters.list_advanced d p q)
  | CAdvancedLogsPost q => filtered (QueryFilters.list_advanced_post d p q)
  | CAggregateLogs q => filtered (QueryFilters.aggregate d p q)
  | CTopLogs q => filtered (QueryFilters.top d p q)
  | CSuggestLogs q => suggested d p q
  | CListTemplates => api (Templates.list_templates d p)
  | CCreateTemplate req => api (Templates.create_template d p req)
  | CGetTemplate id => api (Templates.get_template d p id)
  | CUpdateTemplate id req => api (Templates.update_template d p id req)
  | CDeleteTemplate id => api (Templates.delete_template d p id)
  | CListFilters => api (FiltersApi.list_filters d p)
  | CCreateFilter body => api (FiltersApi.create d p body)
  | CUpdateFilter id body => api (FiltersApi.update d p id body)
  | CDeleteFilter id => api (FiltersApi.delete d p id)
  | CRefreshFilter id => api (FiltersApi.refresh d p id)
  | CListRules q => api (RulesApi.list_rules d p q)
  | CCreateRule body => api (RulesApi.create d p body)
  | CRuleHitStats q => api (RuleStats.rule_hit_stats d p q)
  | CRuleHitDetail id q => api (RuleStats.rule_hit_detail d p id q)
  | CExportRules format => api (RulesTransfer.export_rules d p format)
  | CImportRules uuids upload => imported (RulesTransfer.import_rules d uuids p upload)
  | CBulkRules req => api (RulesApi.bulk_action d p req)
  | CValidateRule req => validated d p req
  | CExpiringRules minutes => api (RulesApi.get_expiring_rules d p minutes)
  | CUpdateRule id body => api (RulesApi.update d p id body)
  | CToggleRule id is_enabled => api (RulesApi.toggle d p id is_enabled)
  | CDeleteRule id => api (RulesApi.delete d p id)
  | CListRewrites q => api (Rewrites.list_rewrites d p q)
  | CCreateRewrite body => api (Rewrites.create d p body)
  | CUpdateRewrite id body => api (Rewrites.update d p id body)
  | CDeleteRewrite id => api (Rewrites.delete d p id)
  | CListClients arp => api (Clients.list_clients d p arp)
  | CCreateClient body => api (Clients.create d p body)
  | CPtrLookup ip => api (Activity.ptr_lookup d p ip)
  | CClientActivity id hours => api (Activity.get_activity d p id hours)
  | CUpdateClient id body => api (Clients.update d p id body)
  | CDeleteClient id => api (Clients.delete d p id)
  | CListGroups => api (Groups.list_groups d p)
  | CCreateGroup serial body => api (Groups.create_group d p serial body)
  | CUpdateGroup id body => api (Groups.update_group d p id body)
  | CDeleteGroup id => api (Groups.delete_group d p id)
  | CGroupMembers arp id q => api (Groups.get_group_members d p arp id q)
  | CAddMembers serials id client_ids => api (Groups.batch_add_clients d p serials id client_ids)
  | CRemoveMembers id client_ids => api (Groups.batch_remove_clients d p id client_ids)
  | CMoveClients serials body => api (Groups.batch_move_clients d p serials body)
  | CGroupRules id rule_type => api (Groups.get_group_rules d p id rule_type)
  | CBindRules serials id rules => api (Groups.batch_bind_rules d p serials id rules)
  | CUnbindRules id rule_type body => api (Groups.batch_unbind_rules d p id rule_type body)
  | CListUpstreams => api (Upstreams.list_rows d p)
  | CCreateUpstream body => api (Upstreams.create d p body)
  | CUpstreamsHealth => api (Upstreams.get_health d p)
  | CGetUpstream id => api (Upstreams.get d p id)
  | CUpdateUpstream id body => api (Upstreams.update d p id body)
  | CDeleteUpstream id => api (Upstreams.delete d p id)
  | CTestUpstream net id => api (Upstreams.test net d p id)
  | CFailover => api (Upstreams.trigger_failover d p)
  | CGetDns => api (Settings.get_dns d p)
  | CUpdateDns body => api (Settings.update_dns d p body)
  | CListUsers => api (Users.list_users d p)
  | CCreateUser body => api (Users.create d p body)
  | CUpdateRole id new_role => api (Users.update_role d p id new_role)
  | CAuditLog q => api (Tools.audit_list d p q)
  | CFailoverHistory => api (Upstreams.failover_log d p)
  | CListAlerts q => api (Alerts.list_alerts d p q)
  | CClearAlerts => api (Alerts.clear_alerts d p)
  | CReadAllAlerts => api (Alerts.mark_all_alerts_read d p)
  | CListMutes => api (Alerts.list_mutes d p)
  | CUpsertMute ty until => api (Alerts.upsert_mute d p ty until)
  | CDeleteMute ty => api (Alerts.delete_mute d p ty)
  | CDeleteAlert id => api (Alerts.delete_alert d p id)
  | CReadAlert id => api (Alerts.mark_alert_read d p id)
  | CPrometheusMetrics => api (Tools.prometheus_metrics d p)
  | CCreateBackup => api (Activity.create_backup d p)
  | CIssueTicket => api (Ws.issue_ticket d p)
  | CLiveLog ticket => live (d_instant d) ticket
  | CDohGet tm dns => from_peer p (fun peer => Doh.get_query tm peer dns)
  | CDohPost tm body => from_peer p (fun peer => Doh.post_query tm peer body)
  | CCacheStats => api (Tools.get_cache_stats d p)
  | CFlushCache => api (Tools.flush_cache d p)
  | CFilterCounts => api (Tools.get_filter_stats d p)
  | CCheckDomains domains => api (Tools.check_domains d p domains)
  | CTopApps q => api (Insights.top_apps d p q)
  | CAppTrend app_id hours => api (Insights.app_trend d p app_id hours)
  | CListCatalog q category => api (Insights.list_catalog d p q category)
  | CTopDomains hours limit status => api (Insights.top_domains d p hours limit status)
  | CAnomalies uuids => api (Insights.get_anomalies d uuids p)
  | CTestRule body => api (Tools.test_rule d p body)
  end.


(** ** Who is refused *)

Section refused.
Context (d : Draws) (p : Parts) (s : Server) (e : AppError).

Lemma refused_bind {E A B} (m : M App E A) (k : A -> M App E B) f :
  m (sv_app s) = (Err f, sv_app s) -> bind m k (sv_app s) = (Err f, sv_app s).
Proof. unfold bind. by intros ->. Qed.
Lemma refused_map {E F A} (g : E -> F) (m : M App E A) f :
  m (sv_app s) = (Err f, sv_app s) -> mmap_err g m (sv_app s) = (Err (g f), sv_app s).
Proof. unfold mmap_err. by intros ->. Qed.
Lemma refused_api {A} (m : M App AppError A) :
  m (sv_app s) = (Err e, sv_app s) -> api m s = (Status (fst (into_response e)), s).
Proof. unfold api. intros ->. by destruct s. Qed.
Lemma refused_filtered {A} (m : M App Failure A) :
  m (sv_app s) = (Err (Refused e), sv_app s) -> filtered m s = (Status (fst (into_response e)), s).
Proof. unfold filtered. intros ->. by destruct s. Qed.
Lemma refused_imported {A} (m : M App RulesTransfer.ImportError A) :
  m (sv_app s) = (Err (RulesTransfer.NotAuthorized e), sv_app s) -> imported m s = (Status (fst (into_response e)), s).
Proof. unfold imported. intros ->. by destruct s. Qed.
Lemma refused_suggested q : AuthUser d p (sv_app s) = (Err e, sv_app s) -> suggested d p q s = (Status (fst (into_response e)), s).
Proof.
  intros Ha. unfold suggested. assert (QueryFilters.suggest d p q (sv_suggestions s) (sv_app s) = (Err (Refused e), sv_app s)) as ->.
  { eapply refused_bind, refused_map, Ha. }
  by destruct s.
Qed.
End refused.

#[local] Existing Instances Validators.ValidationState_HasDb Validators.ValidationState_HasAuth.
(** The extractor reads the state of the sessions only. *)
Lemma user_state {S} `{HasDb S, HasAuth S} d p (a : S) (b : App) : auth_of a = auth_of b ->
  AuthUser d p a = (fst (AuthUser d p b), a).
Proof.
  intros Hab. unfold AuthUser, bind, gets, lift, ret, fail. cbn. rewrite Hab.
  destruct (h_authorization p); cbn; [|done]. destruct (strip_prefix _ _); cbn; [|done].
  destruct (verify _ _ _) as [c|]; cbn; [|done]. by destruct (bool_decide _).
Qed.
Lemma refused_validated d p req (s : Server) e :
  fst (AuthUser d p (sv_app s)) = Err e -> validated d p req s = (Status (fst (into_response e)), s).
Proof.
  intros Ha. unfold validated, Validators.validate_rule_handler, bind.
  rewrite (user_state d p _ (sv_app s)) by done. rewrite Ha. cbn [reply].
  cbn [Validators.v_db Validators.v_auth Validators.rule_validation_cache]. rewrite with_db_of, with_auth_of. by destruct s.
Qed.

Lemma user_error {S} `{HasDb S, HasAuth S} d p (a : S) e : fst (AuthUser d p a) = Err e -> e = AuthFailed.
Proof.
  unfold AuthUser, bind, gets, lift, ret, fail. cbn.
  destruct (h_authorization p); cbn; [|congruence]. destruct (strip_prefix _ _); cbn; [|congruence].
  destruct (verify _ _ _) as [c|]; cbn; [|congruence]. destruct (bool_decide _); cbn; congruence.
Qed.
Lemma user_fails d p (s : Server) e : fst (AuthUser d p (sv_app s)) = Err e -> AuthUser d p (sv_app s) = (Err e, sv_app s).
Proof. intros Ha. by rewrite (user_state d p _ (sv_app s)), Ha. Qed.
Lemma admin_fails d p (s : Server) claims :
  fst (AuthUser d p (sv_app s)) = Ok claims -> role claims <> lit "admin" -> role claims <> lit "super_admin" ->
  AdminUser d p (sv_app s) = (Err (Unauthorized "Admin or super_admin role required"), sv_app s).
Proof.
  intros Ha H1' H2'. unfold AdminUser, bind. rewrite (user_state d p _ (sv_app s)), Ha by done.
  assert ((role claims =s? "admin") = false) as -> by (apply not_true_iff_false; by rewrite str_eqb_eq).
  by assert ((role claims =s? "super_admin") = false) as -> by (apply not_true_iff_false; by rewrite str_eqb_eq).
Qed.
Ltac refuse H :=
  first [apply refused_validated; by rewrite H | apply refused_suggested; exact H | apply refused_api | apply refused_filtered | apply refused_imported];
  repeat first [exact H | eapply refused_bind | eapply refused_map].

(** No endpoint but the six public ones does anything without a valid
    session, and those of administrators do nothing for others.  A call whose
    token is missing, expired, forged or revoked is answered 401, a call of an
    administrator's endpoint by a session of another role 403, and the state
    of the server is what it was, its caches included. *)
Theorem calls_guarded d p c s :
  match guard (endpoint_of c) with
  | Public => True
  | Session => forall e, fst (AuthUser d p (sv_app s)) = Err e -> call_endpoint d p c s = (Status 401, s)
  | Admin =>
      (forall e, fst (AuthUser d p (sv_app s)) = Err e -> call_endpoint d p c s = (Status 401, s)) /\
      (forall claims, fst (AuthUser d p (sv_app s)) = Ok claims ->
         role claims <> lit "admin" -> role claims <> lit "super_admin" -> call_endpoint d p c s = (Status 403, s))
  end.
Proof.
  assert (H401 : forall e, fst (AuthUser d p (sv_app s)) = Err e -> AuthUser d p (sv_app s) = (Err AuthFailed, sv_app s)).
  { intros e He. rewrite (user_fails _ _ _ _ He). by rewrite (user_error _ _ _ _ He). }
  destruct c; cbn [guard endpoint_of call_endpoint]; try exact I.
  all: try (intros e He%H401; change 401 with (fst (into_response AuthFailed)); refuse He).
  all: split; [intros e He%H401; change 401 with (fst (into_response AuthFailed)); refuse He|].
  all: intros claims Hc H1' H2'; pose proof (admin_fails d p s claims Hc H1' H2') as He.
  all: match type of He with _ = (Err ?e, _) => change 403 with (fst (into_response e)) end; refuse He.
Qed.
(** Only the calls that read a time range of the log can end the process, and
    only those of a session. *)
Definition log_queries : list Endpoint := [AdvancedLogs; AdvancedLogsPost; AggregateLogs; TopLogs].
Lemma api_stays {A} (m : M App AppError A) s : fst (api m s) <> Down.
Proof. unfold api. by destruct (m (sv_app s)) as [[?|?] ?]. Qed.
Lemma suggest_stays d p q cache (a : App) : fst (QueryFilters.suggest d p q cache a) <> Err Aborted.
Proof.
  unfold QueryFilters.suggest, QueryFilters.user, bind, mmap_err, catch. destruct (AuthUser d p a) as [[c|e] a1]; [|done].
  cbn [map_err]. destruct (QueryFilters.suggest_column _); [|done]. destruct (cache !! _); [done|].
  by destruct (query _ a1) as [[?|?] ?].
Qed.
Lemma call_aborts d p c s :
  fst (call_endpoint d p c s) = Down ->
  endpoint_of c ∈ log_queries /\ exists claims, fst (AuthUser d p (sv_app s)) = Ok claims.
Proof.
  intros Hdown.
  assert (Hin : endpoint_of c ∈ log_queries).
  { destruct c; cbn [call_endpoint endpoint_of] in Hdown |- *; try (exfalso; by eapply api_stays);
      try (unfold log_queries; apply (bool_decide_unpack _); exact I); exfalso; revert Hdown.
    all: unfold validated, suggested, imported, live, from_peer.
    all: try (by destruct (peer p); [apply api_stays|]).
    all: match goal with |- context [let '(_, _) := ?m in _] => destruct m as [r a] eqn:E end; try by destruct r.
    - destruct r as [?|[?|]]; [done..|]. apply (f_equal fst) in E. by apply suggest_stays in E.
    - by destruct r as [?|[]]. }
  split; [exact Hin|]. destruct (fst (AuthUser d p (sv_app s))) as [claims|e] eqn:Ha; [by exists claims|]. exfalso.
  pose proof (calls_guarded d p c s) as Hg.
  unfold log_queries in Hin. repeat (apply elem_of_cons in Hin as [Hin|Hin]; [rewrite Hin in Hg; by rewrite (Hg e Ha) in Hdown|]).
  by apply not_elem_of_nil in Hin.
Qed.
End endpoints.

Module EndpointsWitness.
Import AsciiUnicode RefRegex RefJson RefIpNet RefMoka RefRng RefHickory RefResolver RefCrypto RefValue Api AppWitness.
Import SubscriptionWitness TasksWitness RefTimestamp RefBase64 RefRegexSingle RefQueryFilters RefDashboard RefSystem.

Definition server : Server := {| sv_app := app empty_db; sv_validations := Validators.new_cache; sv_suggestions := ∅ |}.
(** A session of the role [read_only]. *)
Definition reader_claims : Claims :=
  {| sub := lit "2"; username := lit "bob"; role := lit "read_only"; exp := 1000 + 168 * 3600; iat := 1000; jti := lit "t2" |}.
Definition reader : Parts :=
  {| h_authorization := Some (lit "Bearer " ++ default [] (jwt_encode reader_claims (lit "key"))); h_forwarded_for := None;
     h_real_ip := None; peer := None |}.

(** It may not empty the cache, but it may write rewrites, which [can_write]
    denies its role. *)
Example reader_test :
  role reader_claims = role_str ReadOnly /\ can_write ReadOnly = false /\
  (fst (call_endpoint today reader CFlushCache server),
   let '(r, s) := call_endpoint today reader (CCreateRewrite {| crr_domain := lit "a.lan"; crr_answer := lit "10.0.0.9" |}) server in
   (r, length (dns_rewrites (tables (db_of (sv_app s)))))) = (Status 403, (Success, 1%nat)).
Proof. repeat split; vm_compute; reflexivity. Qed.

Lemma calls_guarded_witness :
  call_endpoint today reader CFlushCache server = (Status 403, server) /\
  call_endpoint today (ApiWitness.from (V4 8 8 8 8) None) (CDeleteRule (lit "1")) server = (Status 401, server).
Proof.
  split.
  - apply (proj2 (calls_guarded today reader CFlushCache server) reader_claims).
    + vm_compute. reflexivity.
    + vm_compute. discriminate.
    + vm_compute. discriminate.
  - apply (calls_guarded today (ApiWitness.from (V4 8 8 8 8) None) (CDeleteRule (lit "1")) server AuthFailed).
    apply anonymous_refused.
Defined.
End EndpointsWitness.
