(* ===== verification/Router.v ===== *)
(** * The router: [routes] of src/api/router.rs, [build_app] of src/api/mod.rs

    The table of patterns, methods and handlers, how a request finds its
    handler, and the whole way of a request through the audit middleware, the
    router, the extractors and the handler.  Which pattern a path is given to
    is the router crate's, which prefers fixed segments; the bodies and the
    static files are parameters. *)
From S2P Require Import Prelude RustStr IpAddr Regex Rules Acl Moka Hickory Cache Db DbLogic Filter Resolver.
From S2P Require Import UpstreamPool Handler HandlerTests Subscription Api App Auth AppTests Users Ws AuditTrail Validators Listing Tables.
From S2P Require Import Rewrites RulesApi RulesTransfer Clients Groups Settings FiltersApi Tasks Alerts Upstreams Doh Tools RuleStats.
From S2P Require Import Conditions QueryLog QueryFilters Templates Float Dashboard Insights Activity Endpoints.
Local Open Scope N_scope.

(** ** Patterns *)

Definition segments (path : str) : list str := split path 47.
Definition is_hole (s : str) : bool := starts_with_char s 123 && ends_with_char s 125.
(** The values of the holes when the path is of the pattern; a hole takes one
    segment that is not empty. *)
Fixpoint fit (pattern path : list str) : option (list str) :=
  match pattern, path with
  | [], [] => Some []
  | p :: pattern', s :: path' =>
      if is_hole p then if is_empty s then None else (cons s) <$> fit pattern' path'
      else if p =s? s then fit pattern' path' else None
  | _, _ => None
  end.
(** Where they first differ the one has a fixed segment, the other a hole. *)
Fixpoint before (p q : list str) : bool :=
  match p, q with
  | a :: p', b :: q' => if a =s? b then before p' q' else negb (is_hole a) && is_hole b
  | _, _ => false
  end.
(** Where they first differ both have a hole: such a table is not accepted. *)
Fixpoint clash (p q : list str) : bool :=
  match p, q with
  | a :: p', b :: q' => if a =s? b then clash p' q' else is_hole a && is_hole b
  | _, _ => false
  end.
Definition accepted (patterns : list str) : bool :=
  forallb (fun p => forallb (fun q => negb (clash (segments p) (segments q))) patterns) patterns.
Definition fits (p path : str) : option (list str) := fit (segments p) (segments path).

(** The router crate: the pattern of a path with the values of its holes. *)
Class PathRouter := { at_route : list str -> str -> option (str * list str) }.
Class PathRouterDoc `{PathRouter} := {
  route_fits : forall ps path p args, accepted ps = true -> at_route ps path = Some (p, args) ->
    p ∈ ps /\ fits p path = Some args /\ forall q, q ∈ ps -> is_Some (fits q path) -> before (segments q) (segments p) = false;
  no_route : forall ps path, accepted ps = true -> at_route ps path = None -> forall q, q ∈ ps -> fits q path = None }.

Definition read_route (r : string * list (Method * Endpoint)) : str * list (Method * Endpoint) := (lit (fst r), snd r).
Definition auth_routes := map read_route [
  ("/health", [(GET, HealthCheck)]);
  ("/api/v1/auth/login", [(POST, Login)]);
  ("/api/v1/auth/logout", [(POST, Logout)]);
  ("/api/v1/auth/change-password", [(POST, ChangePassword)])]%string.
Definition dashboard_routes := map read_route [
  ("/api/v1/dashboard/stats", [(GET, DashboardStats)]);
  ("/api/v1/dashboard/query-trend", [(GET, QueryTrend)]);
  ("/api/v1/dashboard/top-blocked-domains", [(GET, TopBlocked)]);
  ("/api/v1/dashboard/top-clients", [(GET, TopClients)]);
  ("/api/v1/dashboard/top-queried-domains", [(GET, TopQueried)]);
  ("/api/v1/dashboard/upstream-trend", [(GET, UpstreamTrend)]);
  ("/api/v1/dashboard/upstream-distribution", [(GET, UpstreamDistribution)]);
  ("/api/v1/dashboard/latency-stats", [(GET, LatencySummary)]);
  ("/api/v1/dashboard/latency-trend", [(GET, LatencyTrend)]);
  ("/api/v1/dashboard/upstream-health-history", [(GET, HealthHistory)])]%string.
Definition log_routes := map read_route [
  ("/api/v1/query-log", [(GET, ListLogs)]);
  ("/api/v1/query-log/export", [(GET, ExportLogs)]);
  ("/api/v1/query-log/bulk", [(DELETE, DeleteLogs)]);
  ("/api/v1/query-log/advanced", [(GET, AdvancedLogs); (POST, AdvancedLogsPost)]);
  ("/api/v1/query-log/aggregate", [(GET, AggregateLogs)]);
  ("/api/v1/query-log/top", [(GET, TopLogs)]);
  ("/api/v1/query-log/suggest", [(GET, SuggestLogs)]);
  ("/api/v1/query-log/templates", [(GET, ListTemplates)]);
  ("/api/v1/query-log/templates", [(POST, CreateTemplate)]);
  ("/api/v1/query-log/templates/{id}", [(GET, GetTemplate)]);
  ("/api/v1/query-log/templates/{id}", [(PUT, UpdateTemplate)]);
  ("/api/v1/query-log/templates/{id}", [(DELETE, DeleteTemplate)])]%string.
Definition filter_routes := map read_route [
  ("/api/v1/filters", [(GET, ListFilters); (POST, CreateFilter)]);
  ("/api/v1/filters/{id}", [(PUT, UpdateFilter); (DELETE, DeleteFilter)]);
  ("/api/v1/filters/{id}/refresh", [(POST, RefreshFilter)])]%string.
Definition rule_routes := map read_route [
  ("/api/v1/rules", [(GET, ListRules); (POST, CreateRule)]);
  ("/api/v1/rules/stats", [(GET, RuleHitStats)]);
  ("/api/v1/rules/stats/{id}/hits", [(GET, RuleHitDetail)]);
  ("/api/v1/rules/export", [(GET, ExportRules)]);
  ("/api/v1/rules/import", [(POST, ImportRules)]);
  ("/api/v1/rules/bulk", [(POST, BulkRules)]);
  ("/api/v1/rules/validate", [(POST, ValidateRule)]);
  ("/api/v1/rules/expiring", [(GET, ExpiringRules)]);
  ("/api/v1/rules/{id}", [(PUT, UpdateRule); (POST, ToggleRule); (DELETE, DeleteRule)])]%string.
Definition rewrite_routes := map read_route [
  ("/api/v1/rewrites", [(GET, ListRewrites); (POST, CreateRewrite)]);
  ("/api/v1/rewrites/{id}", [(PUT, UpdateRewrite); (DELETE, DeleteRewrite)])]%string.
Definition client_routes := map read_route [
  ("/api/v1/clients", [(GET, ListClients); (POST, CreateClient)]);
  ("/api/v1/clients/ptr", [(GET, PtrLookup)]);
  ("/api/v1/clients/{id}/activity", [(GET, ClientActivity)]);
  ("/api/v1/clients/{id}", [(PUT, UpdateClient); (DELETE, DeleteClient)])]%string.
Definition group_routes := map read_route [
  ("/api/v1/client-groups", [(GET, ListGroups); (POST, CreateGroup)]);
  ("/api/v1/client-groups/{id}", [(PUT, UpdateGroup); (DELETE, DeleteGroup)]);
  ("/api/v1/client-groups/{id}/members", [(GET, GroupMembers); (POST, AddMembers); (DELETE, RemoveMembers)]);
  ("/api/v1/clients/batch-move", [(POST, MoveClients)]);
  ("/api/v1/client-groups/{id}/rules", [(GET, GroupRules); (POST, BindRules); (DELETE, UnbindRules)])]%string.
Definition upstream_routes := map read_route [
  ("/api/v1/settings/upstreams", [(GET, ListUpstreams); (POST, CreateUpstream)]);
  ("/api/v1/settings/upstreams/health", [(GET, UpstreamsHealth)]);
  ("/api/v1/settings/upstreams/{id}", [(GET, GetUpstream); (PUT, UpdateUpstream); (DELETE, DeleteUpstream)]);
  ("/api/v1/settings/upstreams/{id}/test", [(POST, TestUpstream)]);
  ("/api/v1/settings/upstreams/failover", [(POST, Failover)])]%string.
Definition settings_routes := map read_route [
  ("/api/v1/settings/dns", [(GET, GetDns); (PUT, UpdateDns)]);
  ("/api/v1/users", [(GET, ListUsers); (POST, CreateUser)]);
  ("/api/v1/users/{id}/role", [(PUT, UpdateRole)]);
  ("/api/v1/audit-log", [(GET, AuditLog)]);
  ("/api/v1/settings/upstreams/failover-log", [(GET, FailoverHistory)])]%string.
Definition alert_routes := map read_route [
  ("/api/v1/alerts", [(GET, ListAlerts); (DELETE, ClearAlerts)]);
  ("/api/v1/alerts/read-all", [(PUT, ReadAllAlerts)]);
  ("/api/v1/alerts/mutes", [(GET, ListMutes)]);
  ("/api/v1/alerts/mutes/{alert_type}", [(PUT, UpsertMute); (DELETE, DeleteMute)]);
  ("/api/v1/alerts/{id}", [(DELETE, DeleteAlert)]);
  ("/api/v1/alerts/{id}/read", [(PUT, ReadAlert)])]%string.
Definition operation_routes := map read_route [
  ("/metrics", [(GET, PrometheusMetrics)]);
  ("/api/v1/admin/backup", [(GET, CreateBackup)]);
  ("/api/v1/ws/ticket", [(POST, IssueTicket)]);
  ("/api/v1/ws/query-log", [(GET, LiveLog)]);
  ("/dns-query", [(GET, DohGet); (POST, DohPost)]);
  ("/api/v1/settings/cache", [(GET, CacheStats); (DELETE, FlushCache)]);
  ("/api/v1/stats/filter", [(GET, FilterCounts)]);
  ("/api/v1/dns/check", [(POST, CheckDomains)])]%string.
Definition insight_routes := map read_route [
  ("/api/v1/insights/apps/top", [(GET, TopApps)]);
  ("/api/v1/insights/apps/trend", [(GET, AppTrend)]);
  ("/api/v1/insights/catalog", [(GET, ListCatalog)]);
  ("/api/v1/insights/domains/top", [(GET, TopDomains)]);
  ("/api/v1/insights/anomalies", [(GET, Anomalies)]);
  ("/api/v1/tools/sandbox", [(POST, TestRule)])]%string.
Definition routes : list (str * list (Method * Endpoint)) :=
  auth_routes ++ dashboard_routes ++ log_routes ++ filter_routes ++ rule_routes ++ rewrite_routes ++ client_routes ++
  group_routes ++ upstream_routes ++ settings_routes ++ alert_routes ++ operation_routes ++ insight_routes.

Module Router.
(** Routes of one pattern are one entry of the router. *)
Definition patterns : list str := remove_dups (map fst routes).
Definition methods_of (pattern : str) : list (Method * Endpoint) :=
  flat_map snd (List.filter (fun r : str * list (Method * Endpoint) => fst r =s? pattern) routes).
(** A handler of GET also serves HEAD. *)
Definition handler_for (m : Method) (ms : list (Method * Endpoint)) : option Endpoint :=
  match find (fun x => bool_decide (fst x = m)) ms with
  | Some x => Some (snd x)
  | None => if bool_decide (m = HEAD) then snd <$> find (fun x => bool_decide (fst x = GET)) ms else None
  end.
Inductive Target := Handled (e : Endpoint) (args : list str) | NotAllowed | Fallback.
Definition target (m : Method) (r : option (str * list str)) : Target :=
  match r with
  | Some (pattern, args) =>
      match handler_for m (methods_of pattern) with Some e => Handled e args | None => NotAllowed end
  | None => Fallback
  end.
Definition dispatch `{PathRouter} (m : Method) (path : str) : Target := target m (at_route patterns path).

(** ** Which handler a path finds *)

Lemma str_eqb_sym a b : (a =s? b) = (b =s? a).
Proof. apply eq_true_iff_eq. rewrite !str_eqb_eq. naive_solver. Qed.
Lemma fit_total p q path a b : fit p path = Some a -> fit q path = Some b -> clash p q = false ->
  p = q \/ before p q = true \/ before q p = true.
Proof.
  revert q path a b. induction p as [|x p IH]; intros [|y q] [|s path] a b Hp Hq Hc; try done; [by left|].
  cbn [fit before clash] in *. rewrite (str_eqb_sym y x). destruct (x =s? y) eqn:Hxy.
  - apply str_eqb_eq in Hxy as ->.
    assert (Hps : is_Some (fit p path) /\ is_Some (fit q path)).
    { destruct (is_hole y); [destruct (is_empty s); [done|]|destruct (y =s? s); [|done]].
      - apply fmap_Some in Hp as (? & ? & _). apply fmap_Some in Hq as (? & ? & _). by split; eexists.
      - by split; eexists. }
    destruct Hps as [[a' Ha] [b' Hb]]. destruct (IH q path a' b' Ha Hb Hc) as [->|Hb']; [by left|by right].
  - right. destruct (is_hole x), (is_hole y); cbn [negb andb] in *; try done; [by right|by left|].
    destruct (x =s? s) eqn:Hx; [|done]. destruct (y =s? s) eqn:Hy; [|done].
    apply str_eqb_eq in Hx, Hy. subst. by rewrite str_eqb_refl in Hxy.
Qed.

(** A path of a pattern, with values for its holes. *)
Fixpoint fill (p : list str) (args : list str) : list str :=
  match p with
  | [] => []
  | s :: p' =>
      if is_hole s then match args with a :: args' => a :: fill p' args' | [] => s :: fill p' [] end
      else s :: fill p' args
  end.
Definition holes_in (p : list str) : nat := length (List.filter is_hole p).
Definition url (pattern : str) (args : list str) : str := join [47] (fill (segments pattern) args).
(** The words of the table a value is mistaken for. *)
Definition reserved : list str := List.filter (fun s => negb (is_hole s)) (flat_map segments patterns).

Lemma fit_fill p : forall args, length args = holes_in p -> [] ∉ args -> fit p (fill p args) = Some args.
Proof.
  induction p as [|s p IH]; intros args Hlen Hne; [by destruct args|]. unfold holes_in in *. cbn [fill List.filter] in *.
  destruct (is_hole s) eqn:Hs; cbn [fit].
  - destruct args as [|a args]; [done|]. apply not_elem_of_cons in Hne as [Ha Hne]. cbn [fit]. rewrite Hs.
    destruct a as [|c a]; [done|]. cbn [is_empty]. rewrite IH; [done|by injection Hlen|done].
  - cbn [fit]. by rewrite Hs, str_eqb_refl, IH.
Qed.
Lemma fill_not_before p : forall q args b, length args = holes_in p -> fit q (fill p args) = Some b ->
  (forall s, s ∈ q -> is_hole s = false -> s ∉ args) -> before q p = false.
Proof.
  induction p as [|x p IH]; intros [|y q] args b Hlen Hq Hres; try done. cbn [before].
  destruct (y =s? x) eqn:Hyx; [|destruct (is_hole y) eqn:Hy; [done|]; destruct (is_hole x) eqn:Hx; [|done]].
  - apply str_eqb_eq in Hyx as ->. unfold holes_in in *. cbn [fill List.filter] in *.
    destruct (is_hole x) eqn:Hx.
    + destruct args as [|a args]; [done|]. cbn [fit] in Hq. rewrite Hx in Hq. destruct (is_empty a); [done|].
      apply fmap_Some in Hq as (b' & Hq & _). eapply (IH q args); [by injection Hlen|exact Hq|].
      intros s Hs Hh Hin. apply (Hres s); [by right|done|by right].
    + cbn [fit] in Hq. rewrite Hx, str_eqb_refl in Hq. eapply (IH q args); [done|exact Hq|].
      intros s Hs. apply Hres. by right.
  - exfalso. unfold holes_in in *. cbn [fill List.filter] in *. rewrite Hx in *. destruct args as [|a args]; [done|].
    cbn [fit] in Hq. rewrite Hy in Hq. destruct (y =s? a) eqn:Hya; [|done]. apply str_eqb_eq in Hya as ->.
    apply (Hres a); [by left|done|by left].
Qed.
Lemma split_joined c ws : ws <> [] -> (forall w, w ∈ ws -> c ∉ w) -> split (join [c] ws) c = ws.
Proof.
  induction ws as [|w ws IH]; [done|]. intros _ Hall. destruct ws as [|w' ws].
  - cbn [join]. rewrite split_cons_first, (proj2 (split_once_None w c)); [done|]. apply Hall. by left.
  - change (join [c] (w :: w' :: ws)) with (w ++ c :: join [c] (w' :: ws)).
    rewrite split_cons_first, split_once_app by (apply Hall; by left). f_equal. apply IH; [done|].
    intros v Hv. apply Hall. by right.
Qed.
Lemma fill_parts p : forall args w, w ∈ fill p args -> w ∈ p \/ w ∈ args.
Proof.
  induction p as [|s p IH]; intros args w Hw; [by apply not_elem_of_nil in Hw|]. cbn [fill] in Hw.
  destruct (is_hole s); [destruct args as [|a args]|]; apply elem_of_cons in Hw as [->|Hw]; try (by left; left); try (by right; left).
  all: destruct (IH _ _ Hw) as [?|?]; [by left; right|]; right; try done; by right.
Qed.
Lemma split_lacks s c w : w ∈ split s c -> c ∉ w.
Proof.
  assert (Hn : forall n s, (length s <= n)%nat -> w ∈ split s c -> c ∉ w).
  { clear s. induction n as [|n IH]; intros s Hs; rewrite split_cons_first.
    - destruct s; [|cbn in Hs; lia]. cbn. intros ->%list_elem_of_singleton. apply not_elem_of_nil.
    - destruct (split_once s c) as [[a b]|] eqn:Hab.
      + pose proof (split_once_shorter _ _ _ _ Hab). apply split_once_Some in Hab as [_ Ha].
        intros [->|Hw]%elem_of_cons; [done|]. by apply (IH b); [lia|].
      + apply split_once_None in Hab. by intros ->%list_elem_of_singleton. }
  apply (Hn (length s)). lia.
Qed.
Lemma url_segments pattern args : (forall a, a ∈ args -> 47 ∉ a) -> segments (url pattern args) = fill (segments pattern) args.
Proof.
  intros Ha. unfold url, segments at 1. apply split_joined.
  - unfold segments. pose proof (split_by_nonempty (N.eqb 47) pattern) as Hne. fold (split pattern 47) in Hne.
    destruct (split pattern 47) as [|s l]; [done|]. cbn [fill]. by destruct (is_hole s), args.
  - intros w [Hw|Hw]%fill_parts; [by eapply split_lacks|by apply Ha].
Qed.

Lemma table_accepted : accepted patterns = true.
Proof. vm_compute. reflexivity. Qed.
(** Every route of the table is the one of its pattern and method. *)
Lemma table_methods r x : r ∈ routes -> x ∈ snd r -> fst r ∈ patterns /\ handler_for (fst x) (methods_of (fst r)) = Some (snd x).
Proof.
  intros Hr Hx. split; [unfold patterns; apply elem_of_remove_dups; by apply list_elem_of_fmap_2|].
  assert (Hall : forallb (fun r => forallb (fun x => bool_decide (handler_for (fst x) (methods_of (fst r)) = Some (snd x))) (snd r))
    routes = true) by (vm_compute; reflexivity).
  rewrite forallb_forall in Hall. apply list_elem_of_In in Hr, Hx. specialize (Hall r Hr). rewrite forallb_forall in Hall.
  specialize (Hall x Hx). by apply bool_decide_eq_true in Hall.
Qed.
(** A handler of a pattern is of a route of the table. *)
Lemma handler_route m p e : handler_for m (methods_of p) = Some e ->
  exists ms m', (p, ms) ∈ routes /\ (m', e) ∈ ms /\ (m' = m \/ m = HEAD /\ m' = GET).
Proof.
  intros Hh. assert (Hin : exists m', (m', e) ∈ methods_of p /\ (m' = m \/ m = HEAD /\ m' = GET)).
  { unfold handler_for in Hh. destruct (find _ _) as [[m' e']|] eqn:Hf1.
    - injection Hh as ->. apply find_some in Hf1 as [Hin Hm]. apply bool_decide_eq_true in Hm. exists m'.
      rewrite list_elem_of_In. cbn in Hm. auto.
    - destruct (bool_decide (m = HEAD)) eqn:Hm; [|done]. apply bool_decide_eq_true in Hm.
      apply fmap_Some in Hh as ([m' e'] & Hf2 & ->). apply find_some in Hf2 as [Hin Hg]. apply bool_decide_eq_true in Hg.
      exists m'. rewrite list_elem_of_In. cbn in Hg. auto. }
  destruct Hin as (m' & Hin & Hm). unfold methods_of in Hin. rewrite list_elem_of_In, in_flat_map in Hin.
  destruct Hin as ([p' ms] & Hr & Hx). apply list_elem_of_In in Hr. apply list_elem_of_In in Hx. apply elem_of_bfilter in Hr as [Hr Hpp].
  apply str_eqb_eq in Hpp. cbn [fst snd] in *. subst p'. exists ms, m'. by split_and!.
Qed.
Lemma reserved_spec q s : q ∈ patterns -> s ∈ segments q -> is_hole s = false -> s ∈ reserved.
Proof.
  intros Hq Hs Hh. unfold reserved. apply elem_of_bfilter. split; [|by rewrite Hh]. rewrite list_elem_of_In, in_flat_map.
  exists q. by rewrite <- !list_elem_of_In.
Qed.

Lemma accepted_clash ps p q : accepted ps = true -> p ∈ ps -> q ∈ ps -> clash (segments p) (segments q) = false.
Proof.
  intros Hacc Hp Hq. unfold accepted in Hacc. rewrite forallb_forall in Hacc. apply list_elem_of_In in Hp, Hq.
  specialize (Hacc p Hp). rewrite forallb_forall in Hacc. specialize (Hacc q Hq). by apply negb_true_iff in Hacc.
Qed.

Section dispatch.
Context `{PathRouterDoc}.

#[local] Opaque patterns routes accepted.
(** The pattern chosen is the one that fits with no better one. *)
Lemma route_best p path args : p ∈ patterns -> fits p path = Some args ->
  (forall q, q ∈ patterns -> is_Some (fits q path) -> before (segments q) (segments p) = false) ->
  at_route patterns path = Some (p, args).
Proof.
  intros Hp Hfit Hbest. pose proof table_accepted as Hacc. destruct (at_route patterns path) as [[q b]|] eqn:Hat.
  - destruct (route_fits _ _ _ _ Hacc Hat) as (Hq & Hqf & Hqb).
    pose proof (accepted_clash _ p q Hacc Hp Hq) as Hc.
    assert (Hsame : segments p = segments q).
    { destruct (fit_total _ _ _ _ _ Hfit Hqf Hc) as [?|[Hb|Hb]]; [done| |].
      - rewrite Hqb in Hb; [done|done|by eexists].
      - rewrite Hbest in Hb; [done|done|by eexists]. }
    assert (p = q) as -> by (rewrite <- (join_split p 47), <- (join_split q 47); by f_equal).
    rewrite Hqf in Hfit. injection Hfit as ->. reflexivity.
  - pose proof (no_route _ _ Hacc Hat p Hp) as Hnone. rewrite Hfit in Hnone. discriminate Hnone.
Qed.

(** C36: Every handler is reached at its path with its method, whatever the
    values in it, unless one of them is a word of the table; a path of no
    pattern goes to the static files; and a request that reaches a handler is
    of a route of the table. *)
Theorem routes_served :
  (forall pattern ms m e args, (pattern, ms) ∈ routes -> (m, e) ∈ ms ->
     length args = holes_in (segments pattern) -> (forall a, a ∈ args -> a ∉ reserved /\ 47 ∉ a) ->
     dispatch m (url pattern args) = Handled e args) /\
  (forall m path, (forall pattern, pattern ∈ patterns -> fits pattern path = None) -> dispatch m path = Fallback) /\
  (forall m path e args, dispatch m path = Handled e args ->
     exists pattern ms m', (pattern, ms) ∈ routes /\ (m', e) ∈ ms /\ fits pattern path = Some args /\
       (m' = m \/ m = HEAD /\ m' = GET)).
Proof.
  pose proof table_accepted as Hacc. split; [|split].
  - intros pattern ms m e args Hr Hx Hlen Hargs. destruct (table_methods _ _ Hr Hx) as [Hp Hh]. cbn [fst snd] in Hp, Hh.
    assert (Hsegs : segments (url pattern args) = fill (segments pattern) args) by (apply url_segments; intros a Ha; by apply Hargs).
    unfold dispatch. rewrite (route_best pattern (url pattern args) args); [cbn [target]; by rewrite Hh|done| |].
    + unfold fits. rewrite Hsegs. apply fit_fill; [done|]. intros Hin. apply Hargs in Hin as [Hin _]. apply Hin.
      apply (bool_decide_unpack _). vm_compute. exact I.
    + intros q Hq [b Hb]. unfold fits in Hb. rewrite Hsegs in Hb. eapply fill_not_before; [done|exact Hb|].
      intros s Hs Hhole Hin. apply Hargs in Hin as [Hin _]. by apply Hin, (reserved_spec q).
  - intros m path Hnone. unfold dispatch. destruct (at_route patterns path) as [[p args]|] eqn:Hat; [|done].
    destruct (route_fits _ _ _ _ Hacc Hat) as (Hp & Hf & _). by rewrite Hnone in Hf.
  - intros m path e args Hd. unfold dispatch, target in Hd. destruct (at_route patterns path) as [[p b]|] eqn:Hat; [|done].
    destruct (route_fits _ _ _ _ Hacc Hat) as (Hp & Hf & _).
    destruct (handler_for m (methods_of p)) as [e'|] eqn:Hh; [|done]. injection Hd as -> ->.
    destruct (handler_route m p e Hh) as (ms & m' & Hr & Hx & Hm). exists p, ms, m'. by split_and!.
Qed.
End dispatch.

(** ** The way of a request *)

Section serve.
Context `{RustUnicode, RegexEngine, SerdeJson, Collation, IpNetCrate, Moka, Rng,
  Hickory, !HickoryResolver, !DnsCodec, Jwt, SqlTime, SqlJson, SerdeValue}.
Context `{UrlCrate, HttpClient, RegexCaptures, Rfc3339, SqlTimestamp, Base64Url, !RegexSingle, GroupOrder, HourText,
  SqlRatio, Argon2, Chrono, ErrorText, SqlAvg, HourStamp, SystemResolver, PgDump}.
Context `{PathRouter} {Body : Type}.
Import Api.

Record Request := { rq_method : Method; rq_path : str; rq_parts : Parts; rq_body : Body }.
(** The arguments of a handler from the values of the path, the query and the
    body, or the status of the refusal; what the file server answers. *)
Class Extractors := {
  extract : Endpoint -> list str -> Request -> result Call N;
  static_file : Method -> str -> Reply }.
Class ExtractorsDoc `{Extractors} := {
  extract_endpoint : forall e args rq c, extract e args rq = Ok c -> endpoint_of c = e;
  extract_refused : forall e args rq n, extract e args rq = Err n -> 400 <= n < 500;
  files_served : forall m path, static_file m path <> Down }.

Context `{!Extractors}.
Definition answer (d : Draws) (rq : Request) (s : Server) : Reply * Server :=
  match dispatch (rq_method rq) (rq_path rq) with
  | Handled e args => match extract e args rq with Ok c => Endpoints.call_endpoint d (rq_parts rq) c s | Err n => (Status n, s) end
  | NotAllowed => (Status 405, s)
  | Fallback => (static_file (rq_method rq) (rq_path rq), s)
  end.
Definition status_of (r : Reply) : N := match r with Success => 200 | Status n => n | Switched => 101 | Down => 0 end.
(** [build_app]: the audit middleware around the router. *)
Definition serve (d : Draws) (rq : Request) (s : Server) : Reply * Server * option AuditTrace :=
  Audit.audit_middleware status_of (d_utc d) (jwt_secret (auth_of (sv_app s))) (rq_path rq) (rq_method rq) (rq_parts rq)
    (answer d rq) s.

Lemma serve_answer d rq s : fst (serve d rq s) = answer d rq s.
Proof. apply Audit.audit_transparent. Qed.
(** The requests that end the process. *)
Lemma serve_aborts `{!ExtractorsDoc} d rq s :
  fst (fst (serve d rq s)) = Down ->
  exists e args claims, dispatch (rq_method rq) (rq_path rq) = Handled e args /\ e ∈ log_queries /\
    fst (AuthUser d (rq_parts rq) (sv_app s)) = Ok claims.
Proof.
  rewrite serve_answer. unfold answer. destruct (dispatch _ _) as [e args| |]; [|done|intros Hd; by apply files_served in Hd].
  destruct (extract e args rq) as [c|n] eqn:Hx; [|done]. intros Hd%call_aborts.
  rewrite (extract_endpoint _ _ _ _ Hx) in Hd. destruct Hd as [Hin [claims Hc]]. by exists e, args, claims.
Qed.
(** A refusal leaves no trace. *)
Lemma refused_no_trace d rq s n : answer d rq s = (Status n, s) -> 400 <= n -> snd (serve d rq s) = None.
Proof.
  intros Ha Hn. unfold serve, Audit.audit_middleware. destruct (_ || _); [done|]. destruct (Audit.extract_user _ _ _).
  rewrite Ha. cbn [status_of]. by rewrite (proj2 (N.ltb_ge _ _)), andb_false_r by lia.
Qed.
(** A request refused: answered with a status of the client's errors, and
    nothing else happened. *)
Definition refused (d : Draws) (rq : Request) (s : Server) : Prop :=
  exists n, serve d rq s = (Status n, s, None) /\ 400 <= n < 500.
Lemma refused_when d rq s n : answer d rq s = (Status n, s) -> 400 <= n < 500 -> refused d rq s.
Proof.
  intros Ha Hn. exists n. split; [|done]. pose proof (serve_answer d rq s) as H1'. pose proof (refused_no_trace d rq s n Ha) as H2'.
  destruct (serve d rq s) as [x tr]. cbn [fst snd] in *. rewrite H1', Ha, H2' by lia. done.
Qed.

(** C4: Without a valid session a request does nothing unless it is for one of
    the six public handlers, and without an administrator's session nothing
    for a handler of administrators.  Whatever its path, its method and its
    body, it is answered with an error of the client, the state of the server
    and its caches are what they were and the audit middleware writes nothing;
    so are requests with a method the path does not have, and the static files
    change nothing. *)
Theorem requests_guarded `{!ExtractorsDoc} d rq s :
  match dispatch (rq_method rq) (rq_path rq) with
  | Handled e _ =>
      (guard e <> Public -> (exists f, fst (AuthUser d (rq_parts rq) (sv_app s)) = Err f) -> refused d rq s) /\
      (guard e = Admin -> (exists claims, fst (AuthUser d (rq_parts rq) (sv_app s)) = Ok claims /\
         role claims <> lit "admin" /\ role claims <> lit "super_admin") -> refused d rq s)
  | NotAllowed => refused d rq s
  | Fallback => snd (fst (serve d rq s)) = s
  end.
Proof.
  destruct (dispatch (rq_method rq) (rq_path rq)) as [e args| |] eqn:Hd.
  - destruct (extract e args rq) as [c|n] eqn:Hx.
    2: { pose proof (extract_refused _ _ _ _ Hx) as Hn.
         assert (Ha : answer d rq s = (Status n, s)) by (unfold answer; by rewrite Hd, Hx).
         split; intros _ _; by apply (refused_when d rq s n). }
    assert (Ha : answer d rq s = Endpoints.call_endpoint d (rq_parts rq) c s) by (unfold answer; by rewrite Hd, Hx).
    pose proof (calls_guarded d (rq_parts rq) c s) as Hg. rewrite (extract_endpoint _ _ _ _ Hx) in Hg. split.
    + intros Hp [f Hf]. apply (refused_when d rq s 401); [|lia]. rewrite Ha. destruct (guard e); [done|by apply (Hg f)|].
      by apply (proj1 Hg f).
    + intros Hp (claims & Hc & H1' & H2'). apply (refused_when d rq s 403); [|lia]. rewrite Ha, Hp in *.
      by apply (proj2 Hg claims).
  - apply (refused_when d rq s 405); [|lia]. unfold answer. by rewrite Hd.
  - rewrite serve_answer. unfold answer. by rewrite Hd.
Qed.
End serve.
End Router.

(** The router that prefers fixed segments, and bodies that are the call
    itself. *)
Module RefRouter.
Lemma before_trans : forall p q r, before p q = true -> before q r = true -> before p r = true.
Proof.
  induction p as [|x p IH]; intros [|y q] [|z r] Hpq Hqr; try done. cbn [before] in *.
  destruct (x =s? y) eqn:Hxy; [apply str_eqb_eq in Hxy as ->|].
  - destruct (y =s? z); [by eapply IH|done].
  - apply andb_prop in Hpq as [Hx Hy]. destruct (y =s? z) eqn:Hyz.
    + apply str_eqb_eq in Hyz as ->. by rewrite Hxy, Hx, Hy.
    + rewrite Hy in Hqr. done.
Qed.
Lemma before_irrefl p : before p p = false.
Proof. induction p as [|x p IH]; [done|]. cbn [before]. by rewrite str_eqb_refl. Qed.
Definition fitting (p path : str) : bool := match fits p path with Some _ => true | None => false end.
Definition better (path : str) (b : option str) (q : str) : option str :=
  match b with
  | None => if fitting q path then Some q else None
  | Some p => if fitting q path && before (segments q) (segments p) then Some q else Some p
  end.
Definition best (ps : list str) (path : str) : option str := fold_left (better path) ps None.
Definition best_of (ps : list str) (path : str) (b : option str) : Prop :=
  match b with
  | Some p => p ∈ ps /\ fitting p path = true /\ forall q, q ∈ ps -> fitting q path = true -> before (segments q) (segments p) = false
  | None => forall q, q ∈ ps -> fitting q path = false
  end.
Lemma best_spec ps path : best_of ps path (best ps path).
Proof.
  unfold best. induction ps as [|q ps IH] using rev_ind; [intros q Hq; by apply not_elem_of_nil in Hq|]. rewrite fold_left_app. cbn [fold_left].
  destruct (fold_left (better path) ps None) as [p|]; cbn [better].
  - destruct IH as (Hp & Hf & Hb). destruct (fitting q path) eqn:Hq; [destruct (before (segments q) (segments p)) eqn:Hqp|]; cbn [andb].
    + split; [apply elem_of_app; right; by left|]. split; [done|]. intros x [Hx| ->%list_elem_of_singleton]%elem_of_app Hfx; [|apply before_irrefl].
      destruct (before (segments x) (segments q)) eqn:Hxq; [|done]. rewrite <- (Hb x Hx Hfx). symmetry. by eapply before_trans.
    + split; [by apply elem_of_app; left|]. split; [done|]. intros x [Hx| ->%list_elem_of_singleton]%elem_of_app Hfx; [by apply Hb|done].
    + split; [by apply elem_of_app; left|]. split; [done|].
      intros x [Hx| ->%list_elem_of_singleton]%elem_of_app Hfx; [by apply Hb|congruence].
  - destruct (fitting q path) eqn:Hq.
    + split; [apply elem_of_app; right; by left|]. split; [done|].
      intros x [Hx| ->%list_elem_of_singleton]%elem_of_app Hfx; [rewrite IH in Hfx; done|apply before_irrefl].
    + intros x [Hx| ->%list_elem_of_singleton]%elem_of_app; [by apply IH|done].
Qed.
#[export] Instance router : PathRouter :=
  {| at_route ps path := match best ps path with Some p => (fun args => (p, args)) <$> fits p path | None => None end |}.
#[export] Instance router_doc : PathRouterDoc.
Proof.
  constructor; intros ps path; cbn [at_route router]; pose proof (best_spec ps path) as Hb; destruct (best ps path) as [b|].
  - intros p args _ (a & Ha & [= -> ->])%fmap_Some. destruct Hb as (Hp & _ & Hb). split; [done|]. split; [done|].
    intros q Hq [x Hx]. apply Hb; [done|]. unfold fitting. by rewrite Hx.
  - done.
  - intros _ Hn. destruct Hb as (_ & Hf & _). unfold fitting in Hf. by destruct (fits b path).
  - intros _ _ q Hq. apply Hb in Hq. unfold fitting in Hq. by destruct (fits q path).
Qed.
End RefRouter.

Module RouterWitness.
Import AsciiUnicode RefRegex RefJson RefIpNet RefMoka RefRng RefHickory RefResolver RefCrypto RefValue Api AppWitness.
Import SubscriptionWitness TasksWitness RefTimestamp RefBase64 RefRegexSingle RefQueryFilters RefDashboard RefSystem.
Import RefRouter Router EndpointsWitness.

#[export] Instance bodies : Extractors (Body := Call) :=
  {| extract e _ rq := if bool_decide (endpoint_of (rq_body rq) = e) then Ok (rq_body rq) else Err 422;
     static_file _ _ := Success |}.
#[export] Instance bodies_doc : ExtractorsDoc (Body := Call).
Proof.
  constructor; [intros e args rq x; cbn [extract bodies]; destruct (bool_decide _) eqn:He; try done..|done].
  - intros [= <-]. by apply bool_decide_eq_true in He.
  - intros [= <-]. lia.
Qed.
Definition to (m : Method) (path : string) (p : Parts) (c : Call) : Request (Body := Call) :=
  {| rq_method := m; rq_path := lit path; rq_parts := p; rq_body := c |}.

Example dispatch_test :
  map (fun x : Method * string => dispatch (fst x) (lit (snd x)))
    [(GET, "/api/v1/rules"); (PUT, "/api/v1/rules/7"); (PUT, "/api/v1/rules/stats"); (GET, "/api/v1/rules/stats/7/hits");
     (PUT, "/api/v1/alerts/mutes/read"); (PUT, "/api/v1/alerts/5/read"); (GET, "/api/v1/settings/upstreams/failover");
     (HEAD, "/health"); (POST, "/health"); (GET, "/api/v1/rules/"); (GET, "/index.html")]%string
  = [Handled ListRules []; Handled UpdateRule [lit "7"]; NotAllowed; Handled RuleHitDetail [lit "7"];
     Handled UpsertMute [lit "read"]; Handled ReadAlert [lit "5"]; NotAllowed;
     Handled HealthCheck []; NotAllowed; Fallback; Fallback].
Proof. vm_compute. reflexivity. Qed.
Example serve_test :
  fst (fst (serve today (to POST "/api/v1/rewrites" admin
    (CCreateRewrite {| crr_domain := lit "a.lan"; crr_answer := lit "10.0.0.9" |})) server)) = Success.
Proof. vm_compute. reflexivity. Qed.

Lemma routes_served_witness :
  dispatch PUT (lit "/api/v1/client-groups/12") = Handled UpdateGroup [lit "12"] /\
  dispatch GET (lit "/api/v2/rules") = Fallback.
Proof.
  destruct routes_served as (Hserved & Hother & _). split.
  - assert (Hurl : lit "/api/v1/client-groups/12" = url (lit "/api/v1/client-groups/{id}") [lit "12"]) by (vm_compute; reflexivity).
    rewrite Hurl. clear Hurl. apply (Hserved (lit "/api/v1/client-groups/{id}") [(PUT, UpdateGroup); (DELETE, DeleteGroup)] PUT UpdateGroup [lit "12"]).
    + apply (bool_decide_unpack _). vm_compute. exact I.
    + by left.
    + reflexivity.
    + intros a ->%list_elem_of_singleton. split; apply (bool_decide_unpack _); vm_compute; exact I.
  - apply Hother. assert (Hall : forallb (fun p => bool_decide (fits p (lit "/api/v2/rules") = None)) patterns = true)
      by (vm_compute; reflexivity).
    rewrite forallb_forall in Hall. intros p Hp%list_elem_of_In. apply Hall in Hp. by apply bool_decide_eq_true in Hp.
Defined.
Lemma requests_guarded_witness :
  refused today (to DELETE "/api/v1/rules/1" (ApiWitness.from (V4 8 8 8 8) None) (CDeleteRule (lit "1"))) server /\
  refused today (to DELETE "/api/v1/settings/cache" reader CFlushCache) server.
Proof.
  pose proof (requests_guarded today (to DELETE "/api/v1/rules/1" (ApiWitness.from (V4 8 8 8 8) None) (CDeleteRule (lit "1"))) server) as H1'.
  pose proof (requests_guarded today (to DELETE "/api/v1/settings/cache" reader CFlushCache) server) as H2'.
  assert (Hd1 : dispatch DELETE (lit "/api/v1/rules/1") = Handled DeleteRule [lit "1"]) by (vm_compute; reflexivity).
  assert (Hd2 : dispatch DELETE (lit "/api/v1/settings/cache") = Handled FlushCache []) by (vm_compute; reflexivity).
  cbn [rq_method rq_path to] in H1', H2'. rewrite Hd1 in H1'. rewrite Hd2 in H2'. split.
  - apply (proj1 H1'); [done|]. eexists. apply anonymous_refused.
  - apply (proj2 H2'); [done|]. exists reader_claims. split; [vm_compute; reflexivity|]. split; vm_compute; discriminate.
Defined.
End RouterWitness.
