(* ===== verification/Web.v ===== *)
(** * What every response carries: [build_app] and [build_cors_layer] of src/api/mod.rs

    The layers around the router: the audit middleware is part of [Router],
    the trace layer leaves responses alone; the CORS layer is tower-http's,
    a class of what it does to the headers with what its documentation says;
    the four security headers are set outside of it. *)
From S2P Require Import Prelude RustStr IpAddr Regex Db Hickory Moka Acl Api AuditTrail Tables Endpoints Router Startup.
Local Open Scope N_scope.

(** [CorsLayer::new()], or with the calls [allow_origin], [allow_methods] and
    [allow_headers] on it. *)
Inductive CorsLayer := NoCors | AllowCors (origins : list str) (methods : list Method) (headers : list str).
(** The names are in lower case. *)
Definition Headers : Type := list (str * str).
Definition ALLOW_ORIGIN : str := lit "access-control-allow-origin".
Class HeaderCrates := {
  (** [HeaderValue::from_str] accepts the text. *)
  header_value : str -> bool;
  (** What the layer makes of the headers of a response to a request with the
      method and the header [Origin]; a preflight request it answers itself. *)
  cors_headers : CorsLayer -> Method -> option str -> Headers -> Headers }.
(** The origin is sent back to those of the list and to nobody else; without a
    call of [allow_origin] to nobody. *)
Class HeaderCratesDoc `{HeaderCrates} := {
  cors_none : forall m o h, ALLOW_ORIGIN ∉ map fst h -> ALLOW_ORIGIN ∉ map fst (cors_headers NoCors m o h);
  cors_listed : forall origins ms hs m o h, o ∈ origins ->
    (ALLOW_ORIGIN, o) ∈ cors_headers (AllowCors origins ms hs) m (Some o) h;
  cors_others : forall origins ms hs m o h v, ALLOW_ORIGIN ∉ map fst h ->
    (ALLOW_ORIGIN, v) ∈ cors_headers (AllowCors origins ms hs) m o h -> o = Some v /\ v ∈ origins }.

Module Web.
Section web.
Context `{HeaderCrates}.

(** [None]: [allow_origin] of a list with the wildcard panics. *)
Definition build_cors_layer (allowed_origins : list str) : option CorsLayer :=
  let origins := List.filter header_value allowed_origins in
  match origins with
  | [] => Some NoCors
  | _ => if existsb (fun o => o =s? "*") origins then None
         else Some (AllowCors origins [GET; POST; PUT; DELETE] [lit "authorization"; lit "content-type"])
  end.

Definition named (name : str) (h : Headers) : bool := existsb (fun x => str_eqb (fst x) name) h.
(** [SetResponseHeaderLayer::if_not_present] *)
Definition if_not_present (name value : string) (h : Headers) : Headers :=
  if named (lit name) h then h else h ++ [(lit name, lit value)].
Definition secured (h : Headers) : Headers :=
  if_not_present "referrer-policy" "strict-origin-when-cross-origin"
    (if_not_present "x-xss-protection" "1; mode=block"
      (if_not_present "x-content-type-options" "nosniff"
        (if_not_present "x-frame-options" "DENY" h))).
(** The headers of a response, from those of the router's. *)
Definition build_app (cors : CorsLayer) (m : Method) (origin : option str) (h : Headers) : Headers :=
  secured (cors_headers cors m origin h).

(** ** What they are *)

Lemma named_in name h : named name h = true <-> name ∈ map fst h.
Proof.
  unfold named. rewrite existsb_exists, list_elem_of_fmap. split.
  - intros (x & Hx & He%str_eqb_eq). exists x. split; [done|]. by apply list_elem_of_In.
  - intros (x & -> & Hx%list_elem_of_In). exists x. by rewrite str_eqb_refl.
Qed.
Lemma present_value name value h v : (lit name, v) ∈ if_not_present name value h ->
  (lit name, v) ∈ h \/ (v = lit value /\ lit name ∉ map fst h).
Proof.
  unfold if_not_present. destruct (named _ h) eqn:Hn; [by left|]. intros [?|[= ->]%list_elem_of_singleton]%elem_of_app; [by left|].
  right. split; [done|]. rewrite <- named_in, Hn. done.
Qed.
Lemma present_keeps name value h x : x ∈ h -> x ∈ if_not_present name value h.
Proof. unfold if_not_present. intros Hx. destruct (named _ h); [done|]. apply elem_of_app. by left. Qed.
Lemma present_there name value h : lit name ∈ map fst (if_not_present name value h).
Proof.
  unfold if_not_present. destruct (named _ h) eqn:Hn; [by apply named_in|]. rewrite map_app. apply elem_of_app. right. by left.
Qed.
Lemma present_other name value h x : fst x <> lit name -> x ∈ if_not_present name value h <-> x ∈ h.
Proof.
  intros Hx. split; [|apply present_keeps]. unfold if_not_present. destruct (named _ h); [done|].
  by intros [?| ->%list_elem_of_singleton]%elem_of_app.
Qed.
Definition security_headers : list (str * str) :=
  [(lit "x-frame-options", lit "DENY"); (lit "x-content-type-options", lit "nosniff");
   (lit "x-xss-protection", lit "1; mode=block"); (lit "referrer-policy", lit "strict-origin-when-cross-origin")].
Lemma secured_spec h name value : (name, value) ∈ security_headers -> name ∉ map fst h ->
  (name, value) ∈ secured h /\ forall v, (name, v) ∈ secured h -> v = value.
Proof.
  intros Hin Hn. unfold secured.
  assert (Hpick : forall n v h', lit n ∉ map fst h' -> (lit n, lit v) ∈ if_not_present n v h' /\
    forall v', (lit n, v') ∈ if_not_present n v h' -> v' = lit v).
  { intros n v h' Hn'. split.
    - unfold if_not_present. destruct (named _ h') eqn:He; [by apply named_in in He|]. apply elem_of_app. right. by left.
    - intros v' [Hv|[? _]]%present_value; [|done]. exfalso. apply Hn', list_elem_of_fmap. by exists (lit n, v'). }
  assert (Hskip : forall n v (k : str) h', k <> lit n -> k ∉ map fst h' -> k ∉ map fst (if_not_present n v h')).
  { intros n v k h' Hk Hk' Hx. apply list_elem_of_fmap in Hx as ([k' w] & Heq & Hx%present_other); [|by rewrite <- Heq].
    apply Hk', list_elem_of_fmap. by exists (k', w). }
  repeat setoid_rewrite elem_of_cons in Hin. destruct Hin as [Heq|[Heq|[Heq|[Heq|[]%not_elem_of_nil]]]]; injection Heq as -> ->;
    split; repeat first
      [ apply Hpick; repeat (apply Hskip; [discriminate|]); exact Hn
      | intros v Hv; revert v Hv; apply Hpick; repeat (apply Hskip; [discriminate|]); exact Hn
      | intros v Hv; apply present_other in Hv; [revert v Hv|discriminate]
      | apply present_keeps ].
Qed.

Lemma origins_in o l : o ∈ List.filter header_value l <-> o ∈ l /\ header_value o = true.
Proof. by rewrite !list_elem_of_In, filter_In. Qed.
Lemma cors_layer_cases allowed :
  match build_cors_layer allowed with
  | None => lit "*" ∈ List.filter header_value allowed
  | Some NoCors => List.filter header_value allowed = []
  | Some (AllowCors origins ms _) => origins = List.filter header_value allowed /\ (lit "*" ∉ origins) /\ ms = [GET; POST; PUT; DELETE]
  end.
Proof.
  unfold build_cors_layer. destruct (List.filter header_value allowed) as [|o os]; [done|]. destruct (existsb _ _) eqn:He.
  - apply existsb_exists in He as (x & Hx%list_elem_of_In & ->%str_eqb_eq). done.
  - split_and!; [done| |done]. intros Hx. rewrite existsb_none in He. specialize (He _ Hx). by rewrite str_eqb_refl in He.
Qed.
Lemma secured_origin v h : (ALLOW_ORIGIN, v) ∈ secured h <-> (ALLOW_ORIGIN, v) ∈ h.
Proof. unfold secured. by rewrite !present_other by discriminate. Qed.

Context `{!HeaderCratesDoc}.
Lemma origin_allowed allowed cors m o h : build_cors_layer allowed = Some cors -> ALLOW_ORIGIN ∉ map fst h ->
  ((exists v, (ALLOW_ORIGIN, v) ∈ build_app cors m (Some o) h) <-> o ∈ allowed /\ header_value o = true).
Proof.
  intros Hcors Hh. pose proof (cors_layer_cases allowed) as Hc. rewrite Hcors in Hc. rewrite <- origins_in.
  unfold build_app. setoid_rewrite secured_origin. destruct cors as [|origins ms hs].
  - rewrite Hc. split; [|by intros ?%not_elem_of_nil]. intros [v Hv]. exfalso. apply (cors_none m (Some o) h Hh).
    apply list_elem_of_fmap. by exists (ALLOW_ORIGIN, v).
  - destruct Hc as (-> & _ & _). split.
    + intros [v [[= ->] Hv]%cors_others]; [exact Hv|exact Hh].
    + intros Ho. exists o. by apply cors_listed.
Qed.
(** The web side of the API.  The start fails exactly when a wildcard is among
    the origins; otherwise a page may read a response exactly when its origin
    is one of those configured and a header can hold it; every response, the
    layer's own to preflight requests included, has the four security headers
    with the values of the program unless a handler sets them; and the methods
    the layer allows are enough for every route. *)
Theorem web_correct allowed :
  (build_cors_layer allowed = None <-> lit "*" ∈ allowed /\ header_value (lit "*") = true) /\
  (forall cors, build_cors_layer allowed = Some cors ->
    (forall m o h, ALLOW_ORIGIN ∉ map fst h ->
       ((exists v, (ALLOW_ORIGIN, v) ∈ build_app cors m (Some o) h) <-> o ∈ allowed /\ header_value o = true)) /\
    (forall m o h name value, (name, value) ∈ security_headers -> name ∉ map fst (cors_headers cors m o h) ->
       (name, value) ∈ build_app cors m o h /\ forall v, (name, v) ∈ build_app cors m o h -> v = value) /\
    (forall origins ms hs r x, cors = AllowCors origins ms hs -> r ∈ routes -> x ∈ snd r -> fst x ∈ ms)).
Proof.
  pose proof (cors_layer_cases allowed) as Hc. split.
  - rewrite <- origins_in. destruct (build_cors_layer allowed) as [[|origins ms hs]|]; (split; [done|]); [|by destruct Hc as (-> & ? & _)|done].
    rewrite Hc. by intros ?%not_elem_of_nil.
  - intros cors Hcors. rewrite Hcors in Hc. split; [|split].
    + intros m o h. by apply origin_allowed.
    + intros m o h name value Hin Hn. by apply secured_spec.
    + intros origins ms hs r x -> Hr Hx. destruct Hc as (_ & _ & ->).
      assert (Hall : forallb (fun r => forallb (fun x => bool_decide (fst x ∈ [GET; POST; PUT; DELETE])) (snd r)) routes = true)
        by (vm_compute; reflexivity).
      rewrite forallb_forall in Hall. apply list_elem_of_In in Hr, Hx. specialize (Hall _ Hr).
      rewrite forallb_forall in Hall. specialize (Hall _ Hx). by apply bool_decide_eq_true in Hall.
Qed.
End web.
End Web.

(** A layer as the documentation describes it; preflight requests are not
    answered here. *)
Module RefHeaders.
#[export] Instance crates : HeaderCrates := {
  header_value s := forallb (fun c => (32 <=? c) && (c <? 127)) s;
  cors_headers c m o h := match c, o with
    | AllowCors origins _ _, Some o => if bool_decide (o ∈ origins) then h ++ [(ALLOW_ORIGIN, o)] else h
    | _, _ => h end }.
#[export] Instance crates_doc : HeaderCratesDoc.
Proof.
  constructor.
  - done.
  - intros origins ms hs m o h Ho. cbn [cors_headers crates]. rewrite bool_decide_true by done. apply elem_of_app. right. by left.
  - intros origins ms hs m o h v Hh Hv. cbn [cors_headers crates] in Hv.
    assert (Hno : (ALLOW_ORIGIN, v) ∉ h) by (intros Hx; apply Hh, list_elem_of_fmap; by exists (ALLOW_ORIGIN, v)).
    destruct o as [o|]; [|done]. destruct (bool_decide (o ∈ origins)) eqn:Ho; [|done]. apply bool_decide_eq_true in Ho.
    apply elem_of_app in Hv as [?|[= ->]%list_elem_of_singleton]; [done|]. done.
Qed.
End RefHeaders.

Module WebWitness.
Import RefHeaders Web.
Example cors_test :
  (build_cors_layer [lit "*"], build_cors_layer [],
   build_app (default NoCors (build_cors_layer default_cors_allowed_origins)) GET (Some (lit "http://localhost:5173")) [])
  = (None, Some NoCors, (ALLOW_ORIGIN, lit "http://localhost:5173") :: security_headers).
Proof. vm_compute. reflexivity. Qed.
Lemma web_correct_witness :
  (lit "x-frame-options", lit "DENY") ∈ build_app (default NoCors (build_cors_layer default_cors_allowed_origins)) GET None [].
Proof.
  destruct (web_correct default_cors_allowed_origins) as (_ & Hok).
  destruct (build_cors_layer default_cors_allowed_origins) as [cors|] eqn:Hc; [|vm_compute in Hc; discriminate].
  destruct (Hok cors eq_refl) as (_ & Hsec & _). apply (proj1 (Hsec GET None [] (lit "x-frame-options") (lit "DENY") ltac:(by left) ltac:(vm_compute in Hc; injection Hc as <-; by intros ?%not_elem_of_nil))).
Defined.
End WebWitness.
