(* ===== verification/Shutdown.v ===== *)
(** * Stopping the program: src/shutdown.rs, the end of [main] of src/main.rs

    The channel that tells the tasks to stop, the tasks that wait for it, and
    how [main] ends.  Time is in seconds.  A receiver of the channel gets what
    is sent after it subscribed, as the documentation of the broadcast channel
    says. *)
From S2P Require Import Prelude RustStr.
Local Open Scope N_scope.

(** ** shutdown.rs *)

(** The receivers, and whether the message is waiting in each. *)
Record ShutdownSignal := { next_rx : nat; inbox : gmap nat bool }.
Definition new_signal : ShutdownSignal := {| next_rx := 0; inbox := ∅ |}.
Definition subscribe (s : ShutdownSignal) : nat * ShutdownSignal :=
  (next_rx s, {| next_rx := S (next_rx s); inbox := <[next_rx s := false]> (inbox s) |}).
Definition initiate (s : ShutdownSignal) : ShutdownSignal :=
  {| next_rx := next_rx s; inbox := (fun _ => true) <$> inbox s |}.
Definition received (rx : nat) (s : ShutdownSignal) : bool := default false (inbox s !! rx).

Definition DEFAULT_SHUTDOWN_TIMEOUT_SECS : N := 30.
(** [shutdown_with_timeout] of an operation that ends after a time, if it
    ends; [timeout] gives its result when it ends in time. *)
Definition shutdown_with_timeout (timeout_secs : N) (ends : option (N * result unit str)) : result unit str :=
  match ends with
  | Some (after, r) =>
      if after <? timeout_secs then
        match r with Ok _ => Ok tt | Err e => Err (lit "Shutdown error: " ++ e) end
      else Err (lit "Shutdown timeout after " ++ show_N timeout_secs ++ lit "s")
  | None => Err (lit "Shutdown timeout after " ++ show_N timeout_secs ++ lit "s")
  end.

(** ** The program *)

Module Shutdown.
Inductive Task := RefreshLists | ExpireRules | RotateLog | CheckUpstreams | DnsServer | ApiServer.
#[global] Instance Task_dec : EqDecision Task.
Proof. solve_decision. Defined.
(** A task has not subscribed, waits, has stopped for the signal, or has ended
    with an error that it logs, or by a panic. *)
Inductive Status := Starting | Waiting (rx : nat) | Stopped | Failed | Panicked.
Inductive Ending := Graceful | JoinError | Timeout | Interrupted | Aborted.
(** [main] waits for the signal, then in the last [select!], then for the pool
    of the database to close, and has returned. *)
Inductive Phase := Running | Stopping (since : N) | Closing (how : Ending) | Exited (how : Ending).
(** The connections of the pool in use are counted. *)
Record Program := { signal : ShutdownSignal; status : Task -> Status; phase : Phase; borrowed : nat; now : N }.

Definition set_status (p : Program) (t : Task) (s : Status) (g : ShutdownSignal) : Program :=
  {| signal := g; status t' := if decide (t' = t) then s else status p t'; phase := phase p;
     borrowed := borrowed p; now := now p |}.
Definition set_phase (p : Program) (ph : Phase) : Program :=
  {| signal := signal p; status := status p; phase := ph; borrowed := borrowed p; now := now p |}.
Definition set_borrowed (p : Program) (n : nat) : Program :=
  {| signal := signal p; status := status p; phase := phase p; borrowed := n; now := now p |}.
Definition set_now (p : Program) (n : N) : Program :=
  {| signal := signal p; status := status p; phase := phase p; borrowed := borrowed p; now := n |}.
Definition set_signal (p : Program) (g : ShutdownSignal) : Program :=
  {| signal := g; status := status p; phase := phase p; borrowed := borrowed p; now := now p |}.
(** The servers subscribe in the tasks they run in; the others are given a
    receiver when they are spawned, in the order of [main]. *)
Definition spawned : Program :=
  let '(r0, s) := subscribe new_signal in
  let '(r1, s) := subscribe s in
  let '(r2, s) := subscribe s in
  let '(r3, s) := subscribe s in
  {| signal := s;
     status t := match t with
                 | RefreshLists => Waiting r0 | ExpireRules => Waiting r1 | RotateLog => Waiting r2
                 | CheckUpstreams => Waiting r3 | DnsServer | ApiServer => Starting end;
     phase := Running; borrowed := 0; now := 0 |}.
Definition is_server (t : Task) : bool := match t with DnsServer | ApiServer => true | _ => false end.
Definition ended (s : Status) : bool := match s with Stopped | Failed => true | _ => false end.
(** The process is there until [main] returns. *)
Definition alive (p : Program) : Prop := match phase p with Exited _ => False | _ => True end.
(** [close] of the pool has been called: no connection is given out. *)
Definition pool_closed (p : Program) : bool := match phase p with Closing _ | Exited _ => true | _ => false end.
(** The three arms of the last [select!] are ready; [try_join!] ends when both
    servers have, or at the first that panicked. *)
Definition may_end (p : Program) (how : Ending) : Prop :=
  match phase p with
  | Stopping since =>
      match how with
      | Graceful => ended (status p DnsServer) = true /\ ended (status p ApiServer) = true
      | JoinError => status p DnsServer = Panicked \/ status p ApiServer = Panicked
      | Timeout => since + DEFAULT_SHUTDOWN_TIMEOUT_SECS <= now p
      | Interrupted => True
      | Aborted => False
      end
  | _ => False
  end.

Section program.
(** Whether a panic unwinds the task, as in a build for development, or ends
    the process (Cargo.toml: [panic = "abort"] for a release). *)
Context (unwinds : bool).

(** Time passes in every phase: nothing forces [main] to run when an arm is
    ready, and [close] waits until every connection in use is back. *)
Inductive step : Program -> Program -> Prop :=
| Subscribes p t : alive p -> status p t = Starting ->
    step p (let '(rx, g) := subscribe (signal p) in set_status p t (Waiting rx) g)
| Stops p t rx : alive p -> status p t = Waiting rx -> received rx (signal p) = true ->
    step p (set_status p t Stopped (signal p))
| Fails p t : alive p -> is_server t = true -> ended (status p t) = false -> step p (set_status p t Failed (signal p))
| Panics p t : alive p -> ended (status p t) = false ->
    step p (if unwinds then set_status p t Panicked (signal p) else set_phase p (Exited Aborted))
| Borrows p : alive p -> pool_closed p = false -> step p (set_borrowed p (S (borrowed p)))
| Returns p n : alive p -> borrowed p = S n -> step p (set_borrowed p n)
| Passes p : alive p -> step p (set_now p (now p + 1))
| Terminated p : phase p = Running -> step p (set_phase (set_signal p (initiate (signal p))) (Stopping (now p)))
| Selects p how : may_end p how -> step p (set_phase p (Closing how))
| Closes p how : phase p = Closing how -> borrowed p = 0%nat -> step p (set_phase p (Exited how)).

(** ** How it ends *)

Ltac cases Hs := destruct Hs as [p t' Ha Hp|p t' rx Ha Hp Hr|p t' Ha Hp Hr|p t' Ha Hp|p Ha Hp|p k Ha Hp|p Ha|p Hp|p how' Hp|p how' Hp Hb].

(** Receivers are distinct, and none is older than the message but those that
    have it. *)
Definition wf (p : Program) : Prop :=
  (forall t rx, status p t = Waiting rx -> is_Some (inbox (signal p) !! rx)) /\
  (forall rx, is_Some (inbox (signal p) !! rx) -> (rx < next_rx (signal p))%nat).
Lemma spawned_wf : wf spawned.
Proof.
  split.
  - intros [] rx; cbn; intros [= <-]; vm_compute; by eexists.
  - intros rx. cbn. rewrite !lookup_insert_is_Some, lookup_empty. intros Hrx.
    repeat destruct Hrx as [<-|[_ Hrx]]; [lia..|]. by destruct Hrx.
Qed.
Lemma status_set p t s g t' : status (set_status p t s g) t' = if decide (t' = t) then s else status p t'.
Proof. done. Qed.
Lemma wf_status p t s : wf p -> (forall rx, s <> Waiting rx) -> wf (set_status p t s (signal p)).
Proof. intros [Hin Hlt] Hs. split; [|exact Hlt]. intros t' rx'. rewrite status_set. destruct (decide (t' = t)); [by intros ?%Hs|apply Hin]. Qed.
Lemma wf_step p p' : step p p' -> wf p -> wf p'.
Proof.
  intros Hs Hw. cases Hs; try exact Hw; try (by apply wf_status); destruct Hw as [Hin Hlt].
  - cbn [subscribe]. split.
    + intros t rx. rewrite status_set. cbn [set_status signal inbox]. destruct (decide (t = t')).
      * intros [= <-]. rewrite lookup_insert_eq. by eexists.
      * intros Hw%Hin. apply lookup_insert_is_Some'. by right.
    + cbn [set_status signal inbox next_rx]. intros rx [<-|Hrx]%lookup_insert_is_Some'; [lia|]. apply Hlt in Hrx. lia.
  - destruct unwinds; [by apply wf_status|by split].
  - split; cbn [set_phase set_signal signal initiate inbox status next_rx].
    + intros t rx [x Hx]%Hin. rewrite lookup_fmap, Hx. by eexists.
    + intros rx. rewrite lookup_fmap, fmap_is_Some. apply Hlt.
Qed.
Lemma wf_steps p p' : rtc step p p' -> wf p -> wf p'.
Proof. induction 1 as [|p q p' Hs _ IH]; [done|]. intros Hp. apply IH. by eapply wf_step. Qed.

(** A task that missed the message: it has no receiver or one that is empty. *)
Definition missed (p : Program) (t : Task) : Prop :=
  match status p t with
  | Starting | Failed | Panicked => True
  | Waiting rx => received rx (signal p) = false
  | Stopped => False
  end.
(** A task that waited when the message was sent has it. *)
Definition told (p : Program) (t : Task) : Prop :=
  match status p t with Starting => False | Waiting rx => received rx (signal p) = true | Stopped | Failed | Panicked => True end.
Definition signalled (p : Program) : Prop := phase p <> Running.
Lemma signalled_step p p' : step p p' -> signalled p -> signalled p'.
Proof. intros Hs Hsig. unfold signalled in *. cases Hs; try done. by destruct unwinds. Qed.
(** A new receiver is not one of those there are. *)
Lemma subscribe_received p t rx : wf p -> status p t = Waiting rx ->
  received rx (snd (subscribe (signal p))) = received rx (signal p).
Proof. intros [Hin Hlt] Ht. apply Hin, Hlt in Ht. unfold received. cbn. by rewrite lookup_insert_ne by lia. Qed.
Lemma missed_step p p' t : step p p' -> wf p -> signalled p -> missed p t -> missed p' t.
Proof.
  intros Hs Hw Hsig Hm. unfold signalled, missed in *. cases Hs; try done.
  - cbn [subscribe]. rewrite status_set. destruct (decide (t = t')) as [->|]; [unfold received; cbn; by rewrite lookup_insert_eq|].
    destruct (status p t) as [|rx| | |] eqn:Ht; try done. exact (eq_trans (subscribe_received p t rx Hw Ht) Hm).
  - rewrite status_set. cbn [set_status signal]. destruct (decide (t = t')) as [->|]; [|done]. rewrite Hp in Hm. congruence.
  - rewrite status_set. cbn [set_status signal]. by destruct (decide (t = t')).
  - destruct unwinds; [|done]. rewrite status_set. cbn [set_status signal]. by destruct (decide (t = t')).
Qed.
Lemma told_step p p' t : step p p' -> wf p -> signalled p -> told p t -> told p' t.
Proof.
  intros Hs Hw Hsig Hm. unfold signalled, told in *. cases Hs; try done.
  - cbn [subscribe]. rewrite status_set. destruct (decide (t = t')) as [->|]; [by rewrite Hp in Hm|].
    destruct (status p t) as [|rx| | |] eqn:Ht; try done. exact (eq_trans (subscribe_received p t rx Hw Ht) Hm).
  - rewrite status_set. cbn [set_status signal]. by destruct (decide (t = t')) as [->|].
  - rewrite status_set. cbn [set_status signal]. by destruct (decide (t = t')) as [->|].
  - destruct unwinds; [|done]. rewrite status_set. cbn [set_status signal]. by destruct (decide (t = t')).
Qed.
Lemma steps_keep (I : Program -> Prop) p p' :
  (forall q q', step q q' -> wf q -> signalled q -> I q -> I q') -> rtc step p p' -> wf p -> signalled p -> I p -> I p'.
Proof.
  intros HI Hs. induction Hs as [|p q p' Hs _ IH]; [done|]. intros Hw Hsig Hp.
  apply IH; [by eapply wf_step|by eapply signalled_step|by eapply HI].
Qed.

(** While [main] is in the last [select!] it remembers when the signal came. *)
Definition since_is (n : N) (p : Program) : Prop := forall since, phase p = Stopping since -> since = n.
Lemma since_step n p p' : step p p' -> wf p -> signalled p -> since_is n p -> since_is n p'.
Proof. intros Hs _ Hsig Hn. unfold since_is, signalled in *. cases Hs; cbn; try done. by destruct unwinds. Qed.

(** [main] leaves the drain through an arm that is ready, or the process
    ends. *)
Lemma drain_step since p p' : step p p' -> phase p = Stopping since ->
  phase p' = Stopping since \/ (exists how, phase p' = Closing how /\ may_end p how) \/ (phase p' = Exited Aborted /\ unwinds = false).
Proof.
  intros Hs Hph. cases Hs; cbn; auto; [destruct unwinds; cbn; auto|congruence| |congruence].
  right. left. by exists how'.
Qed.
(** [main] has called [close] and waits. *)
Lemma closing_step how p p' : step p p' -> phase p = Closing how ->
  (borrowed p' <= borrowed p)%nat /\
  (phase p' = Closing how \/ (phase p' = Exited how /\ borrowed p = 0%nat) \/ (phase p' = Exited Aborted /\ unwinds = false)).
Proof.
  intros Hs Hc. cases Hs; cbn [set_status set_borrowed set_now set_phase borrowed phase subscribe]; auto with lia.
  - destruct unwinds; cbn; auto.
  - unfold pool_closed in Hp. by rewrite Hc in Hp.
  - congruence.
  - unfold may_end in Hp. by rewrite Hc in Hp.
  - split; [done|]. right. left. split; [congruence|done].
Qed.
Lemma closing_returns how p : phase p = Closing how -> exists p', rtc step p p' /\ phase p' = Exited how.
Proof.
  intros Hc. remember (borrowed p) as n eqn:Hn. symmetry in Hn. revert p Hc Hn. induction n as [|n IH]; intros p Hc Hn.
  - eexists. split; [apply rtc_once; by apply (Closes p how)|done].
  - destruct (IH (set_borrowed p n) Hc eq_refl) as (p' & Hp' & He). exists p'. split; [|exact He].
    eapply rtc_l; [|exact Hp']. apply Returns; [by unfold alive; rewrite Hc|done].
Qed.
Lemma closing_waits how p (n : nat) : phase p = Closing how ->
  rtc step p (set_now p (now p + N.of_nat n)).
Proof.
  intros Hc. induction n as [|n IH].
  - replace (now p + N.of_nat 0) with (now p) by lia. destruct p. apply rtc_refl.
  - etrans; [exact IH|]. apply rtc_once. replace (now p + N.of_nat (S n)) with (now (set_now p (now p + N.of_nat n)) + 1) by (cbn; lia).
    apply (Passes (set_now p (now p + N.of_nat n))). unfold alive. cbn. by rewrite Hc.
Qed.

(** C24: How the program stops after the signal, whatever the tasks do.  Every
    task that waited for the signal gets it and may stop as long as the
    process is there; a server that was still starting never stops for it, so
    that, unless it fails, the two servers do not end gracefully.  [main] stays
    in the drain until both servers have ended, one has panicked, it is
    interrupted again, or thirty seconds have passed, and from then on it can
    leave it at any moment, whatever the servers do.  But then it closes the
    pool, and that has no timeout: it ends once the connections in use are
    back, and while one is not it may wait for any time. *)
Theorem shutdown_ends p p1 p2 :
  rtc step spawned p -> phase p = Running -> step p p1 -> phase p1 = Stopping (now p) -> rtc step p1 p2 ->
  (forall t rx, status p t = Waiting rx ->
     ended (status p2 t) = true \/ status p2 t = Panicked \/ ~ alive p2 \/ exists p3, step p2 p3 /\ status p3 t = Stopped) /\
  (forall t, is_server t = true -> status p t = Starting ->
     status p2 t <> Stopped /\ (status p2 t <> Failed -> ~ may_end p2 Graceful)) /\
  (forall since, phase p2 = Stopping since ->
     since = now p /\
     (forall p3, step p2 p3 -> phase p3 = Stopping since \/ (exists how, phase p3 = Closing how /\ may_end p2 how) \/
        (phase p3 = Exited Aborted /\ unwinds = false)) /\
     (now p + 30 <= now p2 -> exists p3, step p2 p3 /\ phase p3 = Closing Timeout)) /\
  (forall how, phase p2 = Closing how ->
     (forall p3, step p2 p3 -> (borrowed p3 <= borrowed p2)%nat /\
        (phase p3 = Closing how \/ (phase p3 = Exited how /\ borrowed p2 = 0%nat) \/ (phase p3 = Exited Aborted /\ unwinds = false))) /\
     (exists p3, rtc step p2 p3 /\ phase p3 = Exited how) /\
     (forall n : nat, exists p3, rtc step p2 p3 /\ phase p3 = Closing how /\ now p3 = now p2 + N.of_nat n)).
Proof.
  intros Hp Hrun Hs Hp1 H12. pose proof (wf_steps _ _ Hp spawned_wf) as Hw. pose proof (wf_step _ _ Hs Hw) as Hw1.
  assert (Hsig : signalled p1) by (unfold signalled; by rewrite Hp1).
  assert (Hp1' : p1 = set_phase (set_signal p (initiate (signal p))) (Stopping (now p))).
  { destruct p as [g st ph b n]. cbn in Hrun. subst ph. inversion Hs; subst; cbn in Hp1; try discriminate Hp1; try done.
    by destruct unwinds. }
  split; [|split; [|split]].
  - intros t rx Ht. assert (Htold : told p1 t).
    { subst p1. unfold told. cbn [set_phase set_signal status signal]. rewrite Ht. unfold received. cbn [initiate inbox].
      destruct Hw as [Hin _]. destruct (Hin _ _ Ht) as [x Hx]. by rewrite lookup_fmap, Hx. }
    apply (steps_keep (fun q => told q t) _ _ (fun q q' => told_step q q' t) H12 Hw1 Hsig) in Htold. unfold told in Htold.
    destruct (status p2 t) as [|rx'| | |] eqn:Ht2; [done| |by left|by left|by right; left]. right. right.
    destruct (phase p2) eqn:Hph; [..|left; unfold alive; rewrite Hph; tauto]; right;
      (eexists; split; [eapply Stops; [unfold alive; by rewrite Hph|exact Ht2|exact Htold]|];
       rewrite status_set; by destruct (decide (t = t))).
  - intros t Hserver Ht. assert (Hmiss : missed p1 t) by (subst p1; unfold missed; cbn; by rewrite Ht).
    apply (steps_keep (fun q => missed q t) _ _ (fun q q' => missed_step q q' t) H12 Hw1 Hsig) in Hmiss. unfold missed in Hmiss.
    split; [intros Ht2; by rewrite Ht2 in Hmiss|].
    intros Hnf Hend. unfold may_end in Hend. destruct (phase p2); try done. destruct Hend as [Hd Ha].
    destruct t; try done; destruct (status p2 _) as [| | | |] eqn:Ht2; cbn in *; congruence.
  - intros since Hph. assert (Hsince : since_is (now p) p1) by (intros n; rewrite Hp1; congruence).
    apply (steps_keep (since_is (now p)) _ _ (since_step (now p)) H12 Hw1 Hsig) in Hsince. specialize (Hsince _ Hph) as ->.
    split; [done|]. split.
    + intros p3 Hs3. by apply drain_step.
    + intros Hn. eexists. split; [apply (Selects p2 Timeout); unfold may_end; rewrite Hph; exact Hn|done].
  - intros how Hph. split; [intros p3 Hs3; by apply closing_step|]. split; [by apply closing_returns|].
    intros n. eexists. split; [by apply (closing_waits how p2 n)|]. by split.
Qed.
End program.
End Shutdown.

Module ShutdownWitness.
Import Shutdown.
(** The DNS server subscribes; the signal comes while the API server still
    starts; the API server subscribes too late. *)
Definition dns_up : Program := let '(rx, g) := subscribe (signal spawned) in set_status spawned DnsServer (Waiting rx) g.
Definition stopping : Program := set_phase (set_signal dns_up (initiate (signal dns_up))) (Stopping (now dns_up)).
Definition late : Program := let '(rx, g) := subscribe (signal stopping) in set_status stopping ApiServer (Waiting rx) g.
Example late_misses :
  received 4 (signal late) = true /\ status late DnsServer = Waiting 4%nat /\
  received 5 (signal late) = false /\ status late ApiServer = Waiting 5%nat.
Proof. by vm_compute. Qed.
Example timeout_message :
  shutdown_with_timeout 30 (Some (30, Ok tt)) = Err (lit "Shutdown timeout after 30s") /\
  shutdown_with_timeout 30 (Some (29, Ok tt)) = Ok tt.
Proof. by vm_compute. Qed.
Lemma reach_stopping b : rtc (step b) spawned dns_up /\ step b dns_up stopping.
Proof.
  split; [|exact (Terminated b dns_up eq_refl)].
  eapply rtc_l; [exact (Subscribes b spawned DnsServer I eq_refl)|apply rtc_refl].
Qed.
(** A connection is taken, the second interrupt ends the drain at once, and
    [main] still waits for the pool after a minute. *)
Definition waiting : Program := set_phase (set_borrowed stopping 1) (Closing Interrupted).
Lemma shutdown_ends_witness :
  (exists p3, step false late p3 /\ status p3 DnsServer = Stopped) /\
  status late ApiServer <> Stopped /\ ~ may_end late Graceful /\
  exists p3, rtc (step false) waiting p3 /\ phase p3 = Closing Interrupted /\ now p3 = 60.
Proof.
  destruct (reach_stopping false) as [Hup Hstop].
  destruct (shutdown_ends false dns_up stopping late Hup eq_refl Hstop eq_refl) as (Htold & Hmiss & _).
  { eapply rtc_l; [exact (Subscribes false stopping ApiServer I eq_refl)|apply rtc_refl]. }
  destruct (shutdown_ends false dns_up stopping waiting Hup eq_refl Hstop eq_refl) as (_ & _ & _ & Hclose).
  { eapply rtc_l; [exact (Borrows false stopping I eq_refl)|].
    eapply rtc_l; [exact (Selects false (set_borrowed stopping 1) Interrupted I)|apply rtc_refl]. }
  split; [|split; [|split]].
  - destruct (Htold DnsServer 4%nat eq_refl) as [H'|[H'|[H'|H']]]; [discriminate H'|discriminate H'|destruct (H' I)|exact H'].
  - apply (Hmiss ApiServer eq_refl eq_refl).
  - apply (Hmiss ApiServer eq_refl eq_refl). discriminate.
  - destruct (Hclose Interrupted eq_refl) as (_ & _ & Hwait). exact (Hwait 60%nat).
Defined.
End ShutdownWitness.
