(* ===== verification/Frame.v ===== *)
(** * What a request may change

    For every endpoint the tables its call writes, and the proof that it
    leaves all others as they are, whatever statements fail. *)
From S2P Require Import Prelude RustStr IpAddr Regex Rules Acl Moka Hickory Cache Db DbLogic Filter Resolver.
From S2P Require Import UpstreamPool Handler HandlerTests Subscription Api App Auth AppTests Users Ws Validators Listing Tables.
From S2P Require Import Rewrites RulesApi RulesTransfer Clients Groups Settings FiltersApi Tasks Alerts Upstreams Health Doh Tools RuleStats.
From S2P Require Import Conditions QueryLog QueryFilters Templates Float Dashboard Insights Activity Endpoints.
Local Open Scope N_scope.

(** The tables, and a database without some of them. *)
Inductive Table :=
| TCustomRules
| TFilterLists
| TDnsRewrites
| TSettings
| TClients
| TClientGroups
| TClientGroupMemberships
| TClientGroupRules
| TParentalControlCategories
| TDnsUpstreams
| TUpstreamFailoverLog
| TUsers
| TAuditLog
| TAlerts
| TAlertMutes
| TUpstreamLatencyLog
| TQueryLogTemplates
| TQueryLog
| TAppDomains
| TAppCatalog.
#[global] Instance Table_dec : EqDecision Table.
Proof. solve_decision. Defined.
Definition among (w : list Table) (T : Table) : bool := existsb (fun U => bool_decide (T = U)) w.
Definition erase (w : list Table) (t : Db) : Db := {|
  custom_rules := if among w TCustomRules then [] else custom_rules t;
  filter_lists := if among w TFilterLists then [] else filter_lists t;
  dns_rewrites := if among w TDnsRewrites then [] else dns_rewrites t;
  settings := if among w TSettings then ∅ else settings t;
  clients := if among w TClients then [] else clients t;
  client_groups := if among w TClientGroups then [] else client_groups t;
  client_group_memberships := if among w TClientGroupMemberships then [] else client_group_memberships t;
  client_group_rules := if among w TClientGroupRules then [] else client_group_rules t;
  parental_control_categories := if among w TParentalControlCategories then [] else parental_control_categories t;
  dns_upstreams := if among w TDnsUpstreams then [] else dns_upstreams t;
  upstream_failover_log := if among w TUpstreamFailoverLog then [] else upstream_failover_log t;
  users := if among w TUsers then [] else users t;
  audit_log := if among w TAuditLog then [] else audit_log t;
  alerts := if among w TAlerts then [] else alerts t;
  alert_mutes := if among w TAlertMutes then [] else alert_mutes t;
  upstream_latency_log := if among w TUpstreamLatencyLog then [] else upstream_latency_log t;
  query_log_templates := if among w TQueryLogTemplates then [] else query_log_templates t;
  query_log := if among w TQueryLog then [] else query_log t;
  query_log_seq := if among w TQueryLog then 0%Z else query_log_seq t;
  app_domains := if among w TAppDomains then [] else app_domains t;
  app_catalog := if among w TAppCatalog then [] else app_catalog t |}.

(** The tables not among those listed are as before, at every run. *)
Definition only {S} `{HasDb S} {E A} (w : list Table) (m : M S E A) : Prop := forall x, preserves (fun t => erase w t = x) m.

(** A statement, its conditions decided. *)
Ltac head x := lazymatch x with ?f _ => head f | _ => x end.
Ltac statement :=
  let t := fresh "t" in let a := fresh "a" in let t' := fresh "t'" in let Hf := fresh "Hf" in let Ht := fresh "Ht" in
  intros t a t' Hf Ht; cbn beta zeta in Hf;
  repeat (lazymatch type of Hf with
    | Ok _ = Ok _ => fail
    | context [match ?x with _ => _ end] => destruct x eqn:?
    | ?l = _ => let h := head l in unfold h in Hf
    end; cbn beta zeta in Hf);
  try discriminate; injection Hf as _ <-; exact Ht.
(** A handler: its calls one after the other, those it makes unfolded; a call
    that leaves the database alone; a loop by its lemma. *)
Ltac frame_with stop := repeat first
  [ progress App.solve_keeps
  | lazymatch goal with
    | |- statement_keeps _ _ => solve [statement]
    | |- preserves _ (fun _ => _) => solve [let Hs := fresh "Hs" in intros ? Hs; cbn beta; repeat case_match; exact Hs]
    | |- preserves _ (on_handler _) => apply preserves_on_handler
    end
  | stop ()
  | lazymatch goal with
    | |- preserves _ ?m => let h := head m in unfold h; cbn beta zeta
    end].
Ltac frame := frame_with ltac:(fun _ => fail).

Section frame.
Context `{RustUnicode, RegexEngine, SerdeJson, Collation, IpNetCrate, Moka, Rng,
  Hickory, !HickoryResolver, !DnsCodec, Jwt, SqlTime, SqlJson, SerdeValue}.
Context `{UrlCrate, HttpClient, RegexCaptures, Rfc3339, SqlTimestamp, Base64Url, !RegexSingle, GroupOrder, HourText,
  SqlRatio, Argon2, Chrono, ErrorText, SqlAvg, HourStamp, SystemResolver, PgDump}.
Import Api.
#[local] Existing Instances Validators.ValidationState_HasDb Validators.ValidationState_HasAuth.

(** ** The loops *)

Lemma frame_import_loop x now user uuids n m l :
  preserves (fun t => erase [TCustomRules; TAuditLog] t = x) (RulesTransfer.import_loop now user uuids n m l).
Proof. revert n m. induction l as [|e l IH]; intros n m; cbn [RulesTransfer.import_loop]; frame; apply IH. Qed.
Lemma frame_add_loop x now serials id n sk l :
  preserves (fun t => erase [TClientGroupMemberships; TAuditLog] t = x) (Groups.add_loop now serials id n sk l).
Proof. revert n sk. induction l as [|e l IH]; intros n sk; cbn [Groups.add_loop]; frame; apply IH. Qed.
Lemma frame_remove_loop x id n l :
  preserves (fun t => erase [TClientGroupMemberships; TAuditLog] t = x) (Groups.remove_loop id n l).
Proof. revert n. induction l as [|e l IH]; intros n; cbn [Groups.remove_loop]; frame; apply IH. Qed.
Lemma frame_move_loop x now serials from to n sk l :
  preserves (fun t => erase [TClientGroupMemberships; TAuditLog] t = x) (Groups.move_loop now serials from to n sk l).
Proof. revert n sk. induction l as [|e l IH]; intros n sk; cbn [Groups.move_loop]; frame; apply IH. Qed.
Lemma frame_bind_loop x now serials id n sk l :
  preserves (fun t => erase [TClientGroupRules; TAuditLog] t = x) (Groups.bind_loop now serials id n sk l).
Proof. revert n sk. induction l as [|e l IH]; intros n sk; cbn [Groups.bind_loop]; frame; apply IH. Qed.
Lemma frame_unbind_loop x id ty n l :
  preserves (fun t => erase [TClientGroupRules; TAuditLog] t = x) (Groups.unbind_loop id ty n l).
Proof. revert n. induction l as [|e l IH]; intros n; cbn [Groups.unbind_loop]; frame; apply IH. Qed.
Lemma frame_raise_alerts x now uuids l :
  preserves (fun t => erase [TAlerts] t = x) (Insights.raise_alerts now uuids l).
Proof. revert uuids. induction l as [|e l IH]; intros uuids; cbn [Insights.raise_alerts]; frame; apply IH. Qed.

(** A query of the DNS only reads. *)
Lemma frame_handle x tm data ip : preserves (fun t => erase [] t = x) (Handler.handle tm data ip).
Proof. frame. Qed.
(** The tables the call of an endpoint writes: none but those. *)
Definition writes (e : Endpoint) : list Table :=
  match e with
  | Login => [TAuditLog]
  | ChangePassword | CreateUser | UpdateRole => [TUsers; TAuditLog]
  | DeleteLogs => [TQueryLog]
  | CreateTemplate | UpdateTemplate | DeleteTemplate => [TQueryLogTemplates]
  | CreateFilter | UpdateFilter => [TFilterLists; TAuditLog]
  | DeleteFilter => [TFilterLists; TCustomRules; TAuditLog]
  | RefreshFilter => [TAuditLog]
  | CreateRule | ImportRules | BulkRules | UpdateRule | ToggleRule | DeleteRule => [TCustomRules; TAuditLog]
  | CreateRewrite | UpdateRewrite | DeleteRewrite => [TDnsRewrites; TAuditLog]
  | CreateClient | UpdateClient | DeleteClient => [TClients; TAuditLog]
  | CreateGroup | UpdateGroup => [TClientGroups; TAuditLog]
  | DeleteGroup => [TClientGroups; TClientGroupMemberships; TClientGroupRules; TAuditLog]
  | AddMembers | RemoveMembers | MoveClients => [TClientGroupMemberships; TAuditLog]
  | BindRules | UnbindRules => [TClientGroupRules; TAuditLog]
  | CreateUpstream | UpdateUpstream => [TDnsUpstreams; TAuditLog]
  | DeleteUpstream => [TDnsUpstreams; TUpstreamLatencyLog; TAuditLog]
  | TestUpstream => [TDnsUpstreams; TUpstreamLatencyLog]
  | Failover => [TUpstreamFailoverLog]
  | UpdateDns => [TSettings; TAuditLog]
  | ClearAlerts | ReadAllAlerts | DeleteAlert | ReadAlert => [TAlerts]
  | UpsertMute | DeleteMute => [TAlertMutes]
  | Anomalies => [TAlerts]
  | CreateBackup => [TAuditLog]
  | _ => []
  end.
Definition touches (w : list Table) (f : Server -> Reply * Server) : Prop :=
  forall s, erase w (tables (db_of (sv_app (snd (f s))))) = erase w (tables (db_of (sv_app s))).
Lemma touches_api {A} w (m : M App AppError A) : only w m -> touches w (api m).
Proof. intros Hm s. unfold api. specialize (Hm _ (sv_app s) eq_refl). by destruct (m (sv_app s)). Qed.
Lemma touches_filtered {A} w (m : M App Failure A) : only w m -> touches w (filtered m).
Proof. intros Hm s. unfold filtered. specialize (Hm _ (sv_app s) eq_refl). by destruct (m (sv_app s)). Qed.
Lemma touches_imported {A} w (m : M App RulesTransfer.ImportError A) : only w m -> touches w (imported m).
Proof. intros Hm s. unfold imported. specialize (Hm _ (sv_app s) eq_refl). by destruct (m (sv_app s)). Qed.
Lemma touches_doh {A} p (m : IpAddr -> M App AppError A) : (forall ip, only [] (m ip)) -> touches [] (from_peer p m).
Proof. intros Hm s. unfold from_peer. destruct (peer p) as [ip|]; [|done]. by apply touches_api. Qed.
Lemma frame_doh x tm ip data : preserves (fun t => erase [] t = x) (Doh.resolve_doh tm data ip).
Proof. unfold Doh.resolve_doh. App.solve_keeps. apply preserves_on_handler, frame_handle. Qed.
Ltac frame_loop := lazymatch goal with
  | |- preserves _ (RulesTransfer.import_loop _ _ _ _ _ _) => apply frame_import_loop
  | |- preserves _ (Groups.add_loop _ _ _ _ _ _) => apply frame_add_loop
  | |- preserves _ (Groups.remove_loop _ _ _) => apply frame_remove_loop
  | |- preserves _ (Groups.move_loop _ _ _ _ _ _ _) => apply frame_move_loop
  | |- preserves _ (Groups.bind_loop _ _ _ _ _ _) => apply frame_bind_loop
  | |- preserves _ (Groups.unbind_loop _ _ _ _) => apply frame_unbind_loop
  | |- preserves _ (Insights.raise_alerts _ _ _) => apply frame_raise_alerts
  | |- preserves _ (Doh.resolve_doh _ _ _) => apply frame_doh
  end.
Lemma touches_suggested d p q : touches [] (suggested d p q).
Proof.
  intros s. unfold suggested. assert (Hm : only [] (QueryFilters.suggest d p q (sv_suggestions s))) by (intros x; frame).
  specialize (Hm _ (sv_app s) eq_refl). by destruct (QueryFilters.suggest _ _ _ _ _).
Qed.
Lemma touches_validated d p req : touches [] (validated d p req).
Proof.
  intros s. unfold validated, Validators.validate_rule_handler, bind, gets, modify, ret.
  rewrite (user_state d p _ (sv_app s)) by done. destruct (fst (AuthUser d p (sv_app s))); [|done].
  cbn [Validators.rule_validation_cache]. by destruct (moka_get _ _ _).
Qed.
Lemma touches_live now ticket : touches [] (live now ticket).
Proof. intros s. unfold live, Ws.query_log_ws. repeat case_match; by simplify_eq. Qed.
Ltac touch := lazymatch goal with
  | |- touches _ (suggested _ _ _) => apply touches_suggested
  | |- touches _ (validated _ _ _) => apply touches_validated
  | |- touches _ (live _ _) => apply touches_live
  | |- touches _ (from_peer _ _) => apply touches_doh; intros ? ?; unfold Doh.get_query, Doh.post_query
  | |- touches _ (api _) => apply touches_api; intros ?
  | |- touches _ (filtered _) => apply touches_filtered; intros ?
  | |- touches _ (imported _) => apply touches_imported; intros ?
  end.
Lemma call_frame d p c : touches (writes (endpoint_of c)) (call_endpoint d p c).
Proof. destruct c; cbn [writes endpoint_of call_endpoint]; touch; frame_with ltac:(fun _ => frame_loop).
Qed.

(** ** The tasks *)

Lemma frame_batches x prefix now u i cs :
  preserves (fun t => erase [TFilterLists; TCustomRules] t = x) (Subscription.insert_batches prefix now u i cs).
Proof. revert i. induction cs as [|c cs IH]; intros i; cbn [Subscription.insert_batches]; frame; apply IH. Qed.
Lemma frame_sync x u now id url :
  preserves (fun t => erase [TFilterLists; TCustomRules] t = x) (Subscription.sync_filter_list u now id url).
Proof.
  unfold Subscription.sync_filter_list. frame_with ltac:(fun _ => lazymatch goal with
    | |- preserves _ (Subscription.insert_batches _ _ _ _ _) => apply frame_batches end).
Qed.
Lemma preserves_on_sync {A} (I : Db -> Prop) history (m : M SyncState SyncError A) :
  preserves I m -> preserves I (FiltersApi.on_sync history m).
Proof.
  intros Hm s Hs. specialize (Hm {| requests := history; sync_db := db_of s |} Hs). unfold FiltersApi.on_sync.
  by destruct (m _) as [r st].
Qed.
Ltac frame_sync := lazymatch goal with
  | |- preserves _ (FiltersApi.on_sync _ _) => apply preserves_on_sync
  | |- preserves _ (Subscription.sync_filter_list _ _ _ _) => apply frame_sync
  end.
Lemma background_frame d u history task : only [TFilterLists; TCustomRules] (FiltersApi.background_sync d u history task).
Proof. intros x. unfold FiltersApi.background_sync. frame_with ltac:(fun _ => frame_sync). Qed.
Lemma expired_frame d : only [] (Tasks.expired_rules_tick d).
Proof. intros x. frame. Qed.
Lemma rotation_frame days d : only [TQueryLog] (Tasks.query_log_rotation_tick days d).
Proof. intros x. frame. Qed.

Section rounds.
Context (ds : nat -> Draws) (clock : nat -> Z).
Lemma refresh_frame u d history : only [TFilterLists; TCustomRules] (Tasks.filter_refresh_tick ds clock u d history).
Proof.
  intros x. assert (Hl : forall i rows h b, preserves (fun t => erase [TFilterLists; TCustomRules] t = x)
    (Tasks.refresh_lists ds clock u i rows h b)).
  { intros i rows. revert i. induction rows as [|[f url] rows IH]; intros i h b; cbn [Tasks.refresh_lists];
      frame_with ltac:(fun _ => frame_sync); apply IH. }
  unfold Tasks.filter_refresh_tick. frame_with ltac:(fun _ => apply Hl).
Qed.
Lemma health_frame lookup_ms example_com d :
  only [TDnsUpstreams; TUpstreamFailoverLog] (Health.health_check_tick lookup_ms example_com ds d).
Proof.
  intros x. assert (Hl : forall us i rs b, preserves (fun t => erase [TDnsUpstreams; TUpstreamFailoverLog] t = x)
    (Health.health_results ds us i rs b)).
  { intros us i rs. revert i. induction rs as [|[[id ms] h] rs IH]; intros i b; cbn [Health.health_results]; frame; apply IH. }
  unfold Health.health_check_tick. frame_with ltac:(fun _ => apply Hl).
Qed.
Lemma api_health_frame net d m : only [TDnsUpstreams; TUpstreamLatencyLog] (Health.api_health_tick ds clock net d m).
Proof.
  intros x. assert (Hl : forall i rows m, preserves (fun t => erase [TDnsUpstreams; TUpstreamLatencyLog] t = x)
    (Health.check_rows ds clock net i rows m)).
  { intros i rows. revert i. induction rows as [|u rows IH]; intros i m'; cbn [Health.check_rows]; frame; apply IH. }
  unfold Health.api_health_tick. frame_with ltac:(fun _ => apply Hl).
Qed.
End rounds.

End frame.
