(* ===== verification/Integrity.v ===== *)
(** * The tables stay well-formed

    What holds of the tables whatever is asked of the server, and that no call
    of an endpoint and no round of a task breaks it.  A call that writes none
    of the tables of a property keeps it by its frame ([Frame]); for the
    others the lemmas of the component apply. *)
From S2P Require Import Prelude RustStr IpAddr Regex Rules Acl Moka Hickory Cache Db DbLogic Filter Resolver.
From S2P Require Import UpstreamPool Handler HandlerTests Subscription Api App Auth AppTests Users Ws Validators Listing Tables.
From S2P Require Import Rewrites RulesApi RulesTransfer Clients Groups GroupsProps Settings FiltersApi Tasks Alerts Upstreams Health Doh Tools.
From S2P Require Import RuleStats Conditions QueryLog QueryFilters Templates Float Dashboard Insights Activity Endpoints Frame.
Local Open Scope N_scope.

Section integrity.
Context `{RustUnicode, RegexEngine, SerdeJson, Collation, IpNetCrate, Moka, Rng,
  Hickory, !HickoryResolver, !DnsCodec, Jwt, SqlTime, SqlJson, SerdeValue}.
Context `{UrlCrate, HttpClient, RegexCaptures, Rfc3339, SqlTimestamp, Base64Url, !RegexSingle, GroupOrder, HourText,
  SqlRatio, Argon2, Chrono, ErrorText, SqlAvg, HourStamp, SystemResolver, PgDump}.
Import Api.
Implicit Types (s : Server) (t : Db).

Definition users_ok t : Prop := Users.user_inv (map Users.privileges (users t)).
Definition clients_keyed t : Prop := NoDup (map c_id (clients t)).
Definition upstreams_keyed t : Prop := NoDup (map u_id (dns_upstreams t)).
Definition templates_keyed t : Prop := NoDup (map qt_id (query_log_templates t)).
(** Keys are unique in every table the handlers look rows up in; an active
    super administrator is among the users; the members and the rules of
    groups are of groups there are; a rewrite answers with an address; the
    entries of the log are in the order of their numbers. *)
Record tables_ok t : Prop := {
  tk_users : users_ok t;
  tk_groups : GroupsProps.groups_ok t;
  tk_rules : RulesApi.rules_ok t;
  tk_lists : FiltersApi.lists_ok t;
  tk_rewrites : Rewrites.rewrites_ok t;
  tk_clients : clients_keyed t;
  tk_upstreams : upstreams_keyed t;
  tk_templates : templates_keyed t;
  tk_log : QueryLog.log_ok t }.

(** ** By the frame *)

Definition keeps (I : Db -> Prop) (f : Server -> Reply * Server) : Prop :=
  forall s, I (tables (db_of (sv_app s))) -> I (tables (db_of (sv_app (snd (f s))))).
(** It does not look at the tables. *)
Definition blind (I : Db -> Prop) (w : list Table) : Prop := forall t t', erase w t = erase w t' -> I t -> I t'.
Lemma keeps_blind I w f : blind I w -> touches w f -> keeps I f.
Proof. intros Hi Hf s Hs. exact (Hi _ _ (eq_sym (Hf s)) Hs). Qed.
Lemma keeps_api {A} I (m : M App AppError A) : preserves I m -> keeps I (api m).
Proof. intros Hm s Hs. unfold api. specialize (Hm (sv_app s) Hs). by destruct (m (sv_app s)). Qed.
Lemma keeps_imported {A} I (m : M App RulesTransfer.ImportError A) : preserves I m -> keeps I (imported m).
Proof. intros Hm s Hs. unfold imported. specialize (Hm (sv_app s) Hs). by destruct (m (sv_app s)). Qed.
Lemma preserves_then {S E A B} `{HasDb S} I (m : M S E A) (f : A -> B) :
  preserves I (bind m (fun x => ret (f x))) -> preserves I m.
Proof. intros Hm s Hs. specialize (Hm s Hs). unfold bind in Hm. by destruct (m s) as [[a|e] s1]. Qed.

Lemma blind_groups t t' :
  client_groups t = client_groups t' -> client_group_memberships t = client_group_memberships t' ->
  client_group_rules t = client_group_rules t' -> GroupsProps.groups_ok t -> GroupsProps.groups_ok t'.
Proof.
  intros Hg Hm Hr [H1' H2' H3' H4' H5' H6' H7']. split; rewrite <- ?Hg, <- ?Hm, <- ?Hr; [done|done|done|done| | |done].
  - intros m Hin. destruct (H5' m Hin) as (g & Hgin & Hid). exists g. by rewrite <- Hg.
  - intros m Hin. destruct (H6' m Hin) as (g & Hgin & Hid). exists g. by rewrite <- Hg.
Qed.
(** A property of one table, which is not among those that may differ. *)
Ltac blind_by f :=
  let t := fresh "t" in let t' := fresh "t'" in let He := fresh "He" in let Ht := fresh "Ht" in let Hf := fresh "Hf" in
  intros t t' He Ht; assert (Hf : f t = f t') by exact (f_equal f He); hnf in Ht |- *; rewrite <- Hf; exact Ht.
Ltac by_frame blind :=
  lazymatch goal with |- keeps _ (call_endpoint ?d ?p ?c) => apply (keeps_blind _ (writes (endpoint_of c))); [solve [blind]|apply call_frame] end.

(** ** The calls *)

Lemma create_users_ok d p body : preserves (S := App) users_ok (Users.create d p body).
Proof. intros s Hs. exact (Users.user_step_inv _ _ (Users.StepCreate d p body s) Hs). Qed.
Lemma update_role_users_ok d p id new_role : preserves (S := App) users_ok (Users.update_role d p id new_role).
Proof. intros s Hs. exact (Users.update_role_inv d p id new_role s Hs). Qed.
Lemma change_password_users_ok d p req : preserves (S := App) users_ok (Auth.change_password d p req).
Proof.
  unfold Auth.change_password. cbn zeta. App.solve_keeps. intros t a' t' [= _ <-] Ht. unfold users_ok in *.
  match goal with |- Users.user_inv ?l => assert (l = map Users.privileges (users t)) as ->; [|exact Ht] end.
  unfold Auth.set_password. cbn [users set_users]. rewrite map_map. apply map_ext. intros v. cbn beta. by case_match.
Qed.
Lemma call_users d p c : keeps users_ok (call_endpoint d p c).
Proof.
  destruct c; try by_frame ltac:(blind_by users); apply keeps_api.
  - apply change_password_users_ok.
  - apply create_users_ok.
  - apply update_role_users_ok.
Qed.

Lemma call_groups d p c : keeps GroupsProps.groups_ok (call_endpoint d p c).
Proof.
  destruct c; try by_frame ltac:(intros t t' He; apply blind_groups;
    [exact (f_equal client_groups He)|exact (f_equal client_group_memberships He)|exact (f_equal client_group_rules He)]);
    apply keeps_api.
  - exact (preserves_then _ _ _ (GroupsProps.gr_run_preserves d p (fun _ => serial) (GroupsProps.CreateGroup body))).
  - exact (preserves_then _ _ _ (GroupsProps.gr_run_preserves d p (fun _ => 0%Z) (GroupsProps.UpdateGroup id body))).
  - exact (preserves_then _ _ _ (GroupsProps.gr_run_preserves d p (fun _ => 0%Z) (GroupsProps.DeleteGroup id))).
  - exact (preserves_then _ _ _ (GroupsProps.gr_run_preserves d p serials (GroupsProps.AddClients id client_ids))).
  - exact (GroupsProps.gr_run_preserves d p (fun _ => 0%Z) (GroupsProps.RemoveClients id client_ids)).
  - exact (preserves_then _ _ _ (GroupsProps.gr_run_preserves d p serials (GroupsProps.MoveClients body))).
  - exact (preserves_then _ _ _ (GroupsProps.gr_run_preserves d p serials (GroupsProps.BindRules id rules))).
  - exact (GroupsProps.gr_run_preserves d p (fun _ => 0%Z) (GroupsProps.UnbindRules id rule_type body)).
Qed.

Lemma import_rules_ok now user uuids n m l : preserves (S := App) RulesApi.rules_ok (RulesTransfer.import_loop now user uuids n m l).
Proof.
  revert n m. induction l as [|e l IH]; intros n m; cbn [RulesTransfer.import_loop]; cbn zeta; [apply preserves_ret|].
  App.solve_keeps; try apply IH. apply RulesApi.insert_ok.
Qed.
Lemma delete_rules_ok creator : statement_keeps RulesApi.rules_ok (fun t => Ok (tt, Subscription.delete_rules creator t)).
Proof. intros t a t' [= _ <-] Ht. by apply unique_filter. Qed.
Lemma call_rules d p c : keeps RulesApi.rules_ok (call_endpoint d p c).
Proof.
  destruct c; try by_frame ltac:(blind_by custom_rules);
    (apply keeps_imported || apply keeps_api; unfold FiltersApi.delete, RulesApi.create, RulesTransfer.import_rules, RulesApi.bulk_action,
      RulesApi.update, RulesApi.toggle, RulesApi.delete; cbn zeta; App.solve_keeps).
  - apply delete_rules_ok.
  - by intros ? ? ? [= _ <-].
  - apply RulesApi.insert_ok.
  - apply import_rules_ok.
  - apply RulesApi.update_where_ok.
  - apply RulesApi.update_where_ok.
  - apply RulesApi.delete_where_ok.
  - apply RulesApi.update_row_ok.
  - apply RulesApi.update_where_ok.
  - intros t a' t' [= _ <-] Ht. by apply unique_filter.
Qed.
Lemma call_lists d p c : keeps FiltersApi.lists_ok (call_endpoint d p c).
Proof.
  destruct c; try by_frame ltac:(blind_by filter_lists);
    (apply keeps_api; unfold FiltersApi.delete, FiltersApi.create, FiltersApi.update; cbn zeta; App.solve_keeps).
  - intros t a' t' Hi Hn. unfold FiltersApi.insert_row in Hi. destruct (existsb _ _) eqn:He; [done|]. injection Hi as _ <-.
    apply unique_snoc; [done|]. intros r Hr. rewrite existsb_none in He. specialize (He r Hr).
    apply orb_false_iff in He as [He _]. by apply str_eqb_neq.
  - intros t a' t' Hi Hn. unfold FiltersApi.update_row in Hi. cbn zeta in Hi. destruct (_ && _); [done|]. injection Hi as _ <-.
    unfold FiltersApi.lists_ok, change_named. cbn [filter_lists set_filter_lists]. by rewrite same_column.
  - by intros ? ? ? [= _ <-].
  - intros t a' t' [= _ <-] Ht. by apply unique_filter.
Qed.
Lemma call_rewrites d p c : keeps Rewrites.rewrites_ok (call_endpoint d p c).
Proof.
  destruct c; try by_frame ltac:(blind_by dns_rewrites); apply keeps_api.
  - exact (preserves_then _ _ _ (Rewrites.run_preserves d p (Rewrites.Create body))).
  - exact (preserves_then _ _ _ (Rewrites.run_preserves d p (Rewrites.Update id body))).
  - exact (Rewrites.run_preserves d p (Rewrites.Delete id)).
Qed.
Lemma call_clients d p c : keeps clients_keyed (call_endpoint d p c).
Proof.
  destruct c; try by_frame ltac:(blind_by clients); 
    (apply keeps_api; unfold Clients.delete, Clients.create, Clients.update; cbn zeta; App.solve_keeps).
  - intros t a' t' Hi Hn. unfold Clients.insert_row in Hi. destruct (existsb _ _) eqn:He; [done|]. injection Hi as _ <-.
    apply unique_snoc; [done|]. intros r Hr. rewrite existsb_none in He. by apply str_eqb_neq, He.
  - intros t a' t' [= _ <-] Hn. unfold clients_keyed, change_named. cbn [clients set_clients]. by rewrite same_column.
  - intros t a' t' [= _ <-] Ht. by apply unique_filter.
Qed.
Lemma store_status_keyed id status at_ : statement_keeps upstreams_keyed (Upstreams.store_status id status at_).
Proof.
  intros t a t' [= _ <-] Hn. unfold upstreams_keyed, change_named. cbn [dns_upstreams set_dns_upstreams]. by rewrite same_column.
Qed.
Lemma call_upstreams d p c : keeps upstreams_keyed (call_endpoint d p c).
Proof.
  destruct c; try by_frame ltac:(blind_by dns_upstreams);
    (apply keeps_api; unfold Upstreams.delete, Upstreams.create, Upstreams.update, Upstreams.test; cbn zeta; App.solve_keeps).
  - intros t a' t' Hi Hn. unfold Upstreams.insert_upstream in Hi. destruct (text_as_timestamp _); [|done].
    destruct (existsb _ _) eqn:He; [done|]. injection Hi as _ <-.
    apply unique_snoc; [done|]. intros r Hr. rewrite existsb_none in He. by apply str_eqb_neq, He.
  - unfold Upstreams.fetch_view. App.solve_keeps.
  - intros t a' t' Hi Hn. unfold Upstreams.update_upstream in Hi. destruct (text_as_timestamp _); [|done]. injection Hi as _ <-.
    unfold upstreams_keyed, change_named. cbn [dns_upstreams set_dns_upstreams]. by rewrite same_column.
  - intros t a' t' [= _ <-] Ht. by apply unique_filter.
  - intros t a' t' Hi Hn. unfold Upstreams.with_text_time, Upstreams.add_sample in Hi. destruct (text_as_timestamp _); [|done].
    destruct (bool_decide _); [|done]. by injection Hi as _ <-.
  - intros t a' t' Hi. unfold Upstreams.with_text_time in Hi. destruct (text_as_timestamp _); [|done].
    by eapply store_status_keyed.
Qed.
Lemma call_templates d p c : keeps templates_keyed (call_endpoint d p c).
Proof.
  destruct c; try by_frame ltac:(blind_by query_log_templates);
    (apply keeps_api; unfold Templates.delete_template, Templates.create_template, Templates.update_template, Templates.owner_check, Templates.get_as; cbn zeta; App.solve_keeps).
  - intros t a' t' Hi Hn. unfold Templates.insert_template in Hi. destruct (row_named _ _ _) eqn:He; [done|]. injection Hi as _ <-.
    apply unique_snoc; [done|]. rewrite row_named_None in He. exact He.
  - intros t a' t' Hi Hn. unfold Templates.update_row in Hi. destruct (Templates.refused_set _); [done|]. injection Hi as _ <-.
    unfold templates_keyed, change_named. cbn [query_log_templates set_query_log_templates].
    rewrite same_column; [done|]. apply Templates.set_all_id.
  - intros t a' t' [= _ <-] Ht. by apply unique_filter.
Qed.
Lemma call_log d p c : keeps QueryLog.log_ok (call_endpoint d p c).
Proof.
  destruct c; try by_frame ltac:(intros t t' He Ht; assert (Hf : query_log t = query_log t') by exact (f_equal query_log He);
    assert (Hn : query_log_seq t = query_log_seq t') by exact (f_equal query_log_seq He);
    unfold QueryLog.log_ok in *; rewrite <- Hf, <- Hn; exact Ht).
  apply keeps_api, QueryLog.delete_ok.
Qed.
Theorem call_tables d p c : keeps tables_ok (call_endpoint d p c).
Proof.
  intros s []. constructor; [by apply call_users|by apply call_groups|by apply call_rules|by apply call_lists|by apply call_rewrites
    |by apply call_clients|by apply call_upstreams|by apply call_templates|by apply call_log].
Qed.

(** ** The tasks *)

Lemma blind_all t t' : erase [] t = erase [] t' -> t = t'.
Proof. destruct t, t'. exact (fun He => He). Qed.
(** What only touches some of the tables. *)
Record others_ok (w : list Table) t : Prop := {
  ot_users : among w TUsers = false -> users_ok t;
  ot_groups : existsb (among w) [TClientGroups; TClientGroupMemberships; TClientGroupRules] = false -> GroupsProps.groups_ok t;
  ot_rules : among w TCustomRules = false -> RulesApi.rules_ok t;
  ot_lists : among w TFilterLists = false -> FiltersApi.lists_ok t;
  ot_rewrites : among w TDnsRewrites = false -> Rewrites.rewrites_ok t;
  ot_clients : among w TClients = false -> clients_keyed t;
  ot_upstreams : among w TDnsUpstreams = false -> upstreams_keyed t;
  ot_templates : among w TQueryLogTemplates = false -> templates_keyed t;
  ot_log : among w TQueryLog = false -> QueryLog.log_ok t }.
Lemma erase_field {X} w T (f : Db -> X) e t t' :
  among w T = false -> (if among w T then e else f t) = (if among w T then e else f t') -> f t = f t'.
Proof. by intros ->. Qed.
Lemma others_frame w t t' : erase w t = erase w t' -> tables_ok t -> others_ok w t'.
Proof.
  intros He [].
  injection He as E1 E2 E3 E4 E5 E6 E7 E8 E9 E10 E11 E12 E13 E14 E15 E16 E17 E18 E19 E20 E21.
  constructor; intros Hw.
  - apply erase_field in E12; [|done]. unfold users_ok. by rewrite <- E12.
  - cbn [existsb] in Hw. rewrite !orb_false_iff in Hw. destruct Hw as (W1 & W2 & W3 & _).
    apply erase_field in E6, E7, E8; [|done..]. by apply (blind_groups t).
  - apply erase_field in E1; [|done]. unfold RulesApi.rules_ok. by rewrite <- E1.
  - apply erase_field in E2; [|done]. unfold FiltersApi.lists_ok. by rewrite <- E2.
  - apply erase_field in E3; [|done]. unfold Rewrites.rewrites_ok. by rewrite <- E3.
  - apply erase_field in E5; [|done]. unfold clients_keyed. by rewrite <- E5.
  - apply erase_field in E10; [|done]. unfold upstreams_keyed. by rewrite <- E10.
  - apply erase_field in E17; [|done]. unfold templates_keyed. by rewrite <- E17.
  - apply erase_field in E18, E19; [|done..]. unfold QueryLog.log_ok. by rewrite <- E18, <- E19.
Qed.

Lemma insert_rules_ok new rows : NoDup (map cr_id rows) -> NoDup (map cr_id (fold_left Subscription.insert_row new rows)).
Proof.
  revert rows. induction new as [|r new IH]; intros rows Hn; [done|]. cbn [fold_left]. apply IH. unfold Subscription.insert_row.
  destruct (existsb _ _) eqn:He; [done|]. apply unique_snoc; [done|]. intros r' Hr'. rewrite existsb_none in He.
  by apply str_eqb_neq, He.
Qed.
(** The rules and the lists at a synchronisation. *)
Definition listed t : Prop := RulesApi.rules_ok t /\ FiltersApi.lists_ok t.
Lemma batches_listed prefix now u i cs : preserves listed (Subscription.insert_batches prefix now u i cs).
Proof.
  revert i. induction cs as [|c cs IH]; intros i; cbn [Subscription.insert_batches]; solve_preserves; try apply IH.
  intros t a t' [= _ <-] [Hr Hl]. split; [by apply insert_rules_ok|exact Hl].
Qed.
Lemma preserves_unchanged {S E A} `{HasDb S} I (m : M S E A) : only [] m -> preserves I m.
Proof. intros Hm s Hs. specialize (Hm _ s eq_refl). by rewrite (blind_all _ _ Hm). Qed.
Lemma sync_listed u now id url : preserves listed (Subscription.sync_filter_list u now id url).
Proof.
  unfold Subscription.sync_filter_list. cbn zeta. solve_preserves; try apply batches_listed.
  - apply preserves_unchanged. intros x. frame.
  - intros t a' t' [= _ <-] [Hr Hl]. split; [by apply unique_filter|exact Hl].
  - intros t a' t' [= _ <-] [Hr Hl]. split; [exact Hr|]. unfold FiltersApi.lists_ok, Subscription.update_list.
    cbn [filter_lists set_filter_lists]. by rewrite (same_column fl_id).
Qed.
Ltac listed := lazymatch goal with
  | |- preserves _ (FiltersApi.on_sync _ _) => apply preserves_on_sync, sync_listed
  end.
Lemma background_listed d u history task : preserves listed (FiltersApi.background_sync d u history task).
Proof. unfold FiltersApi.background_sync. App.solve_keeps; listed. Qed.

Section rounds.
Context (ds : nat -> Draws) (clock : nat -> Z).
Lemma refresh_listed u d history : preserves listed (Tasks.filter_refresh_tick ds clock u d history).
Proof.
  assert (Hl : forall i rows h b, preserves listed (Tasks.refresh_lists ds clock u i rows h b)).
  { intros i rows. revert i. induction rows as [|[f url] rows IH]; intros i h b; cbn [Tasks.refresh_lists];
      App.solve_keeps; try apply IH. listed. }
  unfold Tasks.filter_refresh_tick. App.solve_keeps; apply Hl.
Qed.
Lemma health_keyed lookup_ms example_com d : preserves upstreams_keyed (Health.health_check_tick lookup_ms example_com ds d).
Proof.
  assert (Hl : forall us i rs b, preserves upstreams_keyed (Health.health_results ds us i rs b)).
  { intros us i rs. revert i. induction rs as [|[[id ms] h] rs IH]; intros i b; cbn [Health.health_results];
      App.solve_keeps; try apply IH.
    - apply preserves_execute, store_status_keyed.
    - apply preserves_execute. intros t a' t' Ha. unfold Upstreams.add_failover in Ha. repeat case_match; by simplify_eq. }
  unfold Health.health_check_tick. App.solve_keeps; try apply Hl.
  apply preserves_on_handler, preserves_unchanged. intros x. frame.
Qed.
Lemma api_health_keyed net d m : preserves upstreams_keyed (Health.api_health_tick ds clock net d m).
Proof.
  assert (Hl : forall i rows m, preserves upstreams_keyed (Health.check_rows ds clock net i rows m)).
  { intros i rows. revert i. induction rows as [|u rows IH]; intros i m'; cbn [Health.check_rows]; App.solve_keeps; try apply IH.
    unfold Health.check_one, Health.set_latency. App.solve_keeps.
    - by apply preserves_update_handler.
    - intros t a' t' Ha. unfold Health.with_cast_time, Upstreams.add_sample in Ha. repeat case_match; by simplify_eq.
    - intros t a' t' Ha. unfold Health.with_cast_time in Ha. case_match; [|done]. by eapply store_status_keyed. }
  unfold Health.api_health_tick. App.solve_keeps; try apply Hl. by intros ? ? ? [= _ <-].
Qed.
End rounds.
End integrity.
