(* ===== verification/Serving.v ===== *)
(** * The DNS handler behind the API

    Every call of an endpoint and every round of a task changes the DNS
    handler by the steps of [Handler.hstep] only, so a handler that serves
    goes on to serve, and what [Handler] proves of the replies holds whatever
    is asked of the API. *)
From S2P Require Import Prelude RustStr IpAddr Regex Rules Acl Moka Hickory Cache Db DbLogic Filter Resolver.
From S2P Require Import UpstreamPool Handler HandlerTests Subscription Api App Auth AppTests Users Ws Validators Listing Tables.
From S2P Require Import Rewrites RulesApi RulesTransfer Clients Groups Settings FiltersApi Tasks Alerts Upstreams Health Doh Tools.
From S2P Require Import RuleStats Conditions QueryLog QueryFilters Templates Float Dashboard Insights Activity Endpoints Frame.
Local Open Scope N_scope.

Section steps.
Context `{RustUnicode, RegexEngine, SerdeJson, Collation, IpNetCrate, Moka, Rng,
  Hickory, !HickoryResolver, !DnsCodec, Jwt}.
Definition hsteps : Handler.DnsHandler -> Handler.DnsHandler -> Prop := rtc Handler.hstep.
(** A computation on the state of the API steps the handler. *)
Definition steps {E A} (m : M App E A) : Prop := forall s, hsteps (dns_handler s) (dns_handler (snd (m s))).

Lemma steps_db (s : App) c : hsteps (dns_handler s) (dns_handler (with_db s c)).
Proof. apply rtc_once. exact (Handler.HFilter _ (dns_handler s)). Qed.
Lemma steps_ret {E A} (a : A) : steps (ret (E := E) a).
Proof. intros s. apply rtc_refl. Qed.
Lemma steps_fail {E A} (e : E) : steps (fail (A := A) e).
Proof. intros s. apply rtc_refl. Qed.
Lemma steps_lift {E A} (r : result A E) : steps (lift r).
Proof. intros s. apply rtc_refl. Qed.
Lemma steps_gets {E A} (f : App -> A) : steps (gets (E := E) f).
Proof. intros s. apply rtc_refl. Qed.
Lemma steps_bind {E A B} (m : M App E A) (k : A -> M App E B) : steps m -> (forall a, steps (k a)) -> steps (bind m k).
Proof.
  intros Hm Hk s. unfold bind. specialize (Hm s). destruct (m s) as [[a|e] s1]; cbn [snd] in *; [|exact Hm].
  etrans; [exact Hm|apply Hk].
Qed.
Lemma steps_catch {E F A} (m : M App E A) : steps m -> steps (catch (F := F) m).
Proof. intros Hm s. specialize (Hm s). unfold catch. by destruct (m s). Qed.
Lemma steps_map_err {E F A} (f : E -> F) (m : M App E A) : steps m -> steps (mmap_err f m).
Proof. intros Hm s. specialize (Hm s). unfold mmap_err. by destruct (m s). Qed.
Lemma steps_query {A} (q : Db -> result A DbError) : steps (query q).
Proof. intros s. apply steps_db. Qed.
Lemma steps_execute {A} (f : Db -> result (A * Db) DbError) : steps (execute f).
Proof.
  intros s. unfold execute. cbn [tick tables]. destruct (faults _ _); [apply steps_db|]. destruct (f _) as [[a t]|e]; apply steps_db.
Qed.
Lemma steps_transaction {A} (m : M App DbError A) : steps m -> steps (transaction m).
Proof.
  intros Hm s. unfold transaction, query, rollback. cbn beta zeta. destruct (faults (db_of s) _); [apply steps_db|].
  specialize (Hm (with_db s (tick (db_of s)))). destruct (m _) as [[a|e] s2]; cbn [snd] in *.
  - etrans; [apply steps_db|]. etrans; [exact Hm|]. destruct (faults (db_of s2) _); cbn [snd]; [|apply steps_db].
    etrans; apply steps_db.
  - etrans; [apply steps_db|]. etrans; [exact Hm|]. apply steps_db.
Qed.
Lemma steps_on_handler {E A} (m : M Handler.DnsHandler E A) : (forall h, hsteps h (snd (m h))) -> steps (on_handler m).
Proof. intros Hm s. specialize (Hm (dns_handler s)). unfold on_handler. by destruct (m (dns_handler s)). Qed.
Lemma steps_update_handler f : (forall h, hsteps h (f h)) -> steps (update_handler f).
Proof. intros Hf s. apply Hf. Qed.
Lemma steps_handle tm data ip : steps (on_handler (Handler.handle tm data ip)).
Proof.
  apply steps_on_handler. intros h. apply rtc_once, (Handler.HHandle tm data ip h (fst (Handler.handle tm data ip h))).
  by destruct (Handler.handle tm data ip h) eqn:Hh.
Qed.
Lemma steps_reload_engine d : steps (reload_engine d).
Proof.
  apply steps_on_handler. intros h. destruct (FilterEngine.reload _ _) as [r f]. apply rtc_once, Handler.HFilter.
Qed.
Lemma steps_try_upstreams d : steps (try_reload_upstreams d).
Proof.
  unfold try_reload_upstreams. apply steps_bind; [|intros; apply steps_ret]. apply steps_catch, steps_on_handler. intros h.
  apply rtc_once, (Handler.HReloadUpstreams (Z.of_N (d_utc d)) h (fst (Handler.reload_upstreams (Z.of_N (d_utc d)) h))).
  by destruct (Handler.reload_upstreams _ h).
Qed.
Lemma steps_health lookup_ms example_com : steps (on_handler (Handler.health_check_upstreams lookup_ms example_com)).
Proof.
  apply steps_on_handler. intros h.
  apply rtc_once, (Handler.HHealth lookup_ms example_com h (fst (Handler.health_check_upstreams lookup_ms example_com h))).
  by destruct (Handler.health_check_upstreams lookup_ms example_com h).
Qed.
Lemma steps_forget : steps forget_clients.
Proof. apply steps_update_handler. intros h. apply rtc_once, Handler.HInvalidateAll. Qed.
Lemma steps_AuthUser d p : steps (Api.AuthUser d p).
Proof. intros s. rewrite Api.AuthUser_state. apply rtc_refl. Qed.
Lemma steps_AdminUser d p : steps (Api.AdminUser d p).
Proof. intros s. rewrite Api.AdminUser_state. apply rtc_refl. Qed.
Lemma steps_log d uid un ac re ri de ip : steps (Api.log_action d uid un ac re ri de ip).
Proof. intros s. unfold Api.log_action. apply steps_execute. Qed.
Lemma steps_on_sync {A} history (m : M SyncState SyncError A) : steps (FiltersApi.on_sync history m).
Proof. intros s. unfold FiltersApi.on_sync. destruct (m _). apply steps_db. Qed.
End steps.

(** A handler of the API, along its calls; a loop by its lemma. *)
Ltac stepping stop := repeat first
  [ assumption
  | lazymatch goal with
    | |- forall _, steps _ => intros ?
    | |- steps (bind _ _) => apply steps_bind
    | |- steps (ret _) => apply steps_ret
    | |- steps (fail _) => apply steps_fail
    | |- steps (lift _) => apply steps_lift
    | |- steps (gets _) => apply steps_gets
    | |- steps (catch _) => apply steps_catch
    | |- steps (mmap_err _ _) => apply steps_map_err
    | |- steps (query _) => apply steps_query
    | |- steps (fetch_all _) => apply steps_query
    | |- steps (fetch_one _) => apply steps_query
    | |- steps (fetch_optional _) => apply steps_query
    | |- steps (execute _) => apply steps_execute
    | |- steps (transaction _) => apply steps_transaction
    | |- steps (if ?b then _ else _) => destruct b
    | |- steps (match ?x with _ => _ end) => destruct x
    | |- steps (Api.AuthUser _ _) => apply steps_AuthUser
    | |- steps (Api.AdminUser _ _) => apply steps_AdminUser
    | |- steps (Api.log_action _ _ _ _ _ _ _ _) => apply steps_log
    | |- steps (on_handler (Handler.handle _ _ _)) => apply steps_handle
    | |- steps (on_handler (Handler.health_check_upstreams _ _)) => apply steps_health
    | |- steps (reload_engine _) => apply steps_reload_engine
    | |- steps (try_reload_upstreams _) => apply steps_try_upstreams
    | |- steps forget_clients => apply steps_forget
    | |- steps (FiltersApi.on_sync _ _) => apply steps_on_sync
    end
  | stop ()
  | lazymatch goal with
    | |- steps (update_handler _) => fail
    | |- steps (fun _ => _) => solve [intros ?; apply rtc_refl]
    | |- steps ?m => let h := head m in unfold h; cbn beta zeta
    end ].

Section calls.
Context `{RustUnicode, RegexEngine, SerdeJson, Collation, IpNetCrate, Moka, Rng,
  Hickory, !HickoryResolver, !DnsCodec, Jwt, SqlTime, SqlJson, SerdeValue}.
Context `{UrlCrate, HttpClient, RegexCaptures, Rfc3339, SqlTimestamp, Base64Url, !RegexSingle, GroupOrder, HourText,
  SqlRatio, Argon2, Chrono, ErrorText, SqlAvg, HourStamp, SystemResolver, PgDump}.
Import Api.

Lemma steps_import_loop now user uuids n m l : steps (RulesTransfer.import_loop now user uuids n m l).
Proof. revert n m. induction l as [|e l IH]; intros n m; cbn [RulesTransfer.import_loop]; stepping ltac:(fun _ => apply IH). Qed.
Lemma steps_add_loop now serials id n sk l : steps (Groups.add_loop now serials id n sk l).
Proof. revert n sk. induction l as [|e l IH]; intros n sk; cbn [Groups.add_loop]; stepping ltac:(fun _ => apply IH). Qed.
Lemma steps_remove_loop id n l : steps (Groups.remove_loop id n l).
Proof. revert n. induction l as [|e l IH]; intros n; cbn [Groups.remove_loop]; stepping ltac:(fun _ => apply IH). Qed.
Lemma steps_invalidate ip : steps (Groups.invalidate_entry ip).
Proof. apply steps_ret. Qed.
Lemma steps_move_loop now serials from to n sk l : steps (Groups.move_loop now serials from to n sk l).
Proof.
  revert n sk. induction l as [|e l IH]; intros n sk; cbn [Groups.move_loop];
    stepping ltac:(fun _ => first [apply IH|lazymatch goal with |- steps (Groups.invalidate_entry _) => apply steps_invalidate end]).
Qed.
Lemma steps_bind_loop now serials id n sk l : steps (Groups.bind_loop now serials id n sk l).
Proof. revert n sk. induction l as [|e l IH]; intros n sk; cbn [Groups.bind_loop]; stepping ltac:(fun _ => apply IH). Qed.
Lemma steps_unbind_loop id ty n l : steps (Groups.unbind_loop id ty n l).
Proof. revert n. induction l as [|e l IH]; intros n; cbn [Groups.unbind_loop]; stepping ltac:(fun _ => apply IH). Qed.
Lemma steps_raise_alerts now uuids l : steps (Insights.raise_alerts now uuids l).
Proof. revert uuids. induction l as [|e l IH]; intros uuids; cbn [Insights.raise_alerts]; stepping ltac:(fun _ => apply IH). Qed.

Definition serves (f : Server -> Reply * Server) : Prop :=
  forall s, hsteps (dns_handler (sv_app s)) (dns_handler (sv_app (snd (f s)))).
Lemma serves_api {A} (m : M App AppError A) : steps m -> serves (api m).
Proof. intros Hm s. unfold api. specialize (Hm (sv_app s)). by destruct (m (sv_app s)). Qed.
Lemma serves_filtered {A} (m : M App Failure A) : steps m -> serves (filtered m).
Proof. intros Hm s. unfold filtered. specialize (Hm (sv_app s)). by destruct (m (sv_app s)). Qed.
Lemma serves_imported {A} (m : M App RulesTransfer.ImportError A) : steps m -> serves (imported m).
Proof. intros Hm s. unfold imported. specialize (Hm (sv_app s)). by destruct (m (sv_app s)). Qed.
Ltac loops := lazymatch goal with
  | |- steps (RulesTransfer.import_loop _ _ _ _ _ _) => apply steps_import_loop
  | |- steps (Groups.add_loop _ _ _ _ _ _) => apply steps_add_loop
  | |- steps (Groups.remove_loop _ _ _) => apply steps_remove_loop
  | |- steps (Groups.move_loop _ _ _ _ _ _ _) => apply steps_move_loop
  | |- steps (Groups.bind_loop _ _ _ _ _ _) => apply steps_bind_loop
  | |- steps (Groups.unbind_loop _ _ _ _) => apply steps_unbind_loop
  | |- steps (Insights.raise_alerts _ _ _) => apply steps_raise_alerts
  | |- steps (Groups.invalidate_entry _) => apply steps_invalidate
  end.
Ltac serve_one := lazymatch goal with
  | |- serves (api _) => apply serves_api
  | |- serves (filtered _) => apply serves_filtered
  | |- serves (imported _) => apply serves_imported
  end.
Lemma serves_doh {A} p (m : IpAddr -> M App AppError A) : (forall ip, steps (m ip)) -> serves (from_peer p m).
Proof. intros Hm s. unfold from_peer. destruct (peer p) as [ip|]; [by apply serves_api|apply rtc_refl]. Qed.
Lemma steps_doh tm data ip : steps (Doh.resolve_doh tm data ip).
Proof. unfold Doh.resolve_doh. stepping ltac:(fun _ => fail). Qed.
Lemma serves_suggested d p q : serves (suggested d p q).
Proof.
  intros s. unfold suggested. assert (Hm : steps (QueryFilters.suggest d p q (sv_suggestions s))) by stepping ltac:(fun _ => fail).
  specialize (Hm (sv_app s)). by destruct (QueryFilters.suggest _ _ _ _ _).
Qed.
#[local] Existing Instances Validators.ValidationState_HasDb Validators.ValidationState_HasAuth.
Lemma serves_validated d p req : serves (validated d p req).
Proof.
  intros s. unfold validated, Validators.validate_rule_handler, bind, gets, modify, ret.
  rewrite (user_state d p _ (sv_app s)) by done. destruct (fst (AuthUser d p (sv_app s))); [|exact (steps_db (sv_app s) (db_of (sv_app s)))].
  cbn [Validators.rule_validation_cache]. destruct (moka_get _ _ _); exact (steps_db (sv_app s) (db_of (sv_app s))).
Qed.
Lemma serves_live now ticket : serves (live now ticket).
Proof. intros s. unfold live, Ws.query_log_ws. repeat case_match; simplify_eq; apply rtc_refl. Qed.
Lemma call_serves d p c : serves (call_endpoint d p c).
Proof.
  destruct c; cbn [call_endpoint]; try (serve_one; stepping ltac:(fun _ => loops)).
  - apply serves_suggested.
  - apply serves_validated.
  - apply steps_update_handler. intros h. apply rtc_once, Handler.HReloadAcl.
  - apply serves_live.
  - apply serves_doh. intros ip. unfold Doh.get_query. stepping ltac:(fun _ => apply steps_doh).
  - apply serves_doh. intros ip. unfold Doh.post_query. stepping ltac:(fun _ => apply steps_doh).
  - apply steps_update_handler. intros h. apply rtc_once, Handler.HFlush.
Qed.

(** ** The tasks *)

Lemma background_steps d u history task : steps (FiltersApi.background_sync d u history task).
Proof. unfold FiltersApi.background_sync. stepping ltac:(fun _ => fail). Qed.
Lemma expired_steps d : steps (Tasks.expired_rules_tick d).
Proof. stepping ltac:(fun _ => fail). Qed.
Lemma rotation_steps days d : steps (Tasks.query_log_rotation_tick days d).
Proof. stepping ltac:(fun _ => fail). Qed.
Section rounds.
Context (ds : nat -> Draws) (clock : nat -> Z).
Lemma refresh_steps u d history : steps (Tasks.filter_refresh_tick ds clock u d history).
Proof.
  assert (Hl : forall i rows h b, steps (Tasks.refresh_lists ds clock u i rows h b)).
  { intros i rows. revert i. induction rows as [|[f url] rows IH]; intros i h b; cbn [Tasks.refresh_lists];
      stepping ltac:(fun _ => apply IH). }
  unfold Tasks.filter_refresh_tick. stepping ltac:(fun _ => apply Hl).
Qed.
Lemma health_steps lookup_ms example_com d : steps (Health.health_check_tick lookup_ms example_com ds d).
Proof.
  assert (Hl : forall us i rs b, steps (Health.health_results ds us i rs b)).
  { intros us i rs. revert i. induction rs as [|[[id ms] h] rs IH]; intros i b; cbn [Health.health_results];
      stepping ltac:(fun _ => apply IH). }
  unfold Health.health_check_tick. stepping ltac:(fun _ => apply Hl).
Qed.
Lemma api_health_steps net d m : steps (Health.api_health_tick ds clock net d m).
Proof.
  assert (Hone : forall i u m, steps (Health.check_one ds net i u m)).
  { intros i u m'. unfold Health.check_one, Health.set_latency. stepping ltac:(fun _ => lazymatch goal with
      |- steps (update_handler _) => apply steps_update_handler; intros h; apply rtc_once, Handler.HLatency end). }
  assert (Hl : forall i rows m, steps (Health.check_rows ds clock net i rows m)).
  { intros i rows. revert i. induction rows as [|u rows IH]; intros i m'; cbn [Health.check_rows];
      stepping ltac:(fun _ => first [apply IH|apply Hone]). }
  unfold Health.api_health_tick. stepping ltac:(fun _ => apply Hl).
Qed.
End rounds.
End calls.
