(* ===== verification/System.v ===== *)
(** * The whole program as one system

    The server of [Router], the channel of the query log, its writer and the
    background tasks on one database.  An event is a request to the API, a
    query of the DNS, a step of the writer or a round of a task;
    [handle_event] runs what the program runs for it, and [process_event] ends
    the process when a handler panics, as the release build does.  The
    theorems say what an event may change, and what holds of the tables after
    any sequence of events. *)
From S2P Require Import Prelude RustStr IpAddr Regex Rules Acl Moka Hickory Cache Db DbLogic Filter Resolver.
From S2P Require Import UpstreamPool Metrics AppCatalog Handler HandlerTests Subscription Api App Auth AppTests Users Ws AuditTrail Validators Listing Tables.
From S2P Require Import QueryLogWriter Rewrites RulesApi RulesTransfer Clients Groups GroupsProps Settings FiltersApi Tasks Alerts Upstreams Health.
From S2P Require Import Doh Tools RuleStats Conditions QueryLog QueryFilters Templates Float Dashboard Insights Activity Endpoints Router Startup Web Frame Integrity Serving.
Local Open Scope N_scope.

Module System.
Section system.
Context `{RustUnicode, RegexEngine, SerdeJson, Collation, IpNetCrate, Moka, Rng,
  Hickory, !HickoryResolver, !DnsCodec, Jwt, SqlTime, SqlJson, SerdeValue}.
Context `{UrlCrate, HttpClient, RegexCaptures, Rfc3339, SqlTimestamp, Base64Url, !RegexSingle, GroupOrder, HourText,
  SqlRatio, Argon2, Chrono, ErrorText, SqlAvg, HourStamp, SystemResolver, PgDump}.
Context `{PathRouter, HeaderCrates} {Body : Type} `{!Router.Extractors (Body := Body)}.
Import Api.

(** The database is that of the handler; the writer's own is not used. *)
Record System := { server : Server; log_task : QueryLogWriter.Writer }.

Inductive Event :=
| Request (d : Draws) (rq : Router.Request (Body := Body))
| Datagram (tm : Timing) (data : list N) (client_ip : str)
| TakeEntry (now : N) (id created_at : str)
| FlushTick (now : N)
| Synchronise (d : Draws) (uuid : nat -> str) (history : list str) (task : str * str)
| RefreshLists (ds : nat -> Draws) (clock : nat -> Z) (uuid : nat -> nat -> str) (d : Draws) (history : list str)
| ExpireRules (d : Draws)
| RotateLog (retention_days : N) (d : Draws)
| CheckPool (lookup_ms : N -> N) (example_com : Name) (ds : nat -> Draws) (d : Draws)
| CheckUpstreams (ds : nat -> Draws) (clock : nat -> Z) (net : nat -> Upstreams.Net) (d : Draws) (known : gmap str UpstreamHealthResult).

(** A call on the shared state. *)
Definition on_app {E A} (m : M App E A) (s : System) : System :=
  {| server := set_app (server s) (snd (m (sv_app (server s)))); log_task := log_task s |}.
(** A step of the writer, on the database of all. *)
Definition on_writer (f : QueryLogWriter.Writer -> QueryLogWriter.Writer) (s : System) : System :=
  let w := f (with_db (log_task s) (db_of (sv_app (server s)))) in
  {| server := set_app (server s) (with_db (sv_app (server s)) (db_of w)); log_task := w |}.
Definition entry_channel (s : System) : QueryLogWriter.Channel := Handler.query_log_entry_tx (dns_handler (sv_app (server s))).
Definition set_channel (c : QueryLogWriter.Channel) (s : System) : System :=
  let a := sv_app (server s) in
  {| server := set_app (server s) (set_dns_handler (Handler.set_log (Handler.query_log_tx (dns_handler a)) c (dns_handler a)) a);
     log_task := log_task s |}.

(** What a running program does for an event. *)
Definition handle_event (e : Event) (s : System) : System :=
  match e with
  | Request d rq => {| server := snd (fst (Router.serve d rq (server s))); log_task := log_task s |}
  | Datagram tm data ip => on_app (on_handler (Handler.handle tm data ip)) s
  | TakeEntry now id created_at =>
      match QueryLogWriter.queue (entry_channel s) with
      | [] => s
      | entry :: rest =>
          on_writer (QueryLogWriter.on_entry now id created_at entry)
            (set_channel {| QueryLogWriter.queue := rest; QueryLogWriter.closed := QueryLogWriter.closed (entry_channel s) |} s)
      end
  | FlushTick now => on_writer (QueryLogWriter.on_tick now) s
  | Synchronise d u history task => on_app (FiltersApi.background_sync d u history task) s
  | RefreshLists ds clock u d history => on_app (Tasks.filter_refresh_tick ds clock u d history) s
  | ExpireRules d => on_app (Tasks.expired_rules_tick d) s
  | RotateLog days d => on_app (Tasks.query_log_rotation_tick days d) s
  | CheckPool lookup_ms example_com ds d => on_app (Health.health_check_tick lookup_ms example_com ds d) s
  | CheckUpstreams ds clock net d known => on_app (Health.api_health_tick ds clock net d known) s
  end.
Definition tables_of (s : System) : Db := tables (db_of (sv_app (server s))).

(** A panic ends the process (Cargo.toml: [panic = "abort"]): then the client
    gets no reply, nothing runs any more, and the tables are left. *)
Definition aborts (e : Event) (s : System) : bool :=
  match e with
  | Request d rq => match fst (fst (Router.serve d rq (server s))) with Down => true | _ => false end
  | _ => false
  end.
Inductive Process := Running (s : System) | Ended (t : Db).
Definition process_event (e : Event) (p : Process) : Process :=
  match p with
  | Running s => if aborts e s then Ended (tables_of (handle_event e s)) else Running (handle_event e s)
  | Ended t => Ended t
  end.
Definition run_events (es : list Event) (p : Process) : Process := fold_left (fun p e => process_event e p) es p.
(** [serve] builds the layers of the API before it listens, and panics on
    origins it may not list. *)
Definition launch (cfg : Config) (s : System) : Process :=
  match Web.build_cors_layer (ac_cors_allowed_origins (cf_api cfg)) with
  | Some _ => Running s
  | None => Ended (tables_of s)
  end.
Definition stored (p : Process) : Db := match p with Running s => tables_of s | Ended t => t end.

(** ** What an event may change *)

Definition event_writes (e : Event) : list Table :=
  match e with
  | Request _ rq =>
      match Router.dispatch (Router.rq_method rq) (Router.rq_path rq) with Router.Handled e _ => writes e | _ => [] end
  | Datagram _ _ _ | ExpireRules _ => []
  | TakeEntry _ _ _ => [TQueryLog; TAlerts]
  | FlushTick _ | RotateLog _ _ => [TQueryLog]
  | Synchronise _ _ _ _ | RefreshLists _ _ _ _ _ => [TFilterLists; TCustomRules]
  | CheckPool _ _ _ _ => [TDnsUpstreams; TUpstreamFailoverLog]
  | CheckUpstreams _ _ _ _ _ => [TDnsUpstreams; TUpstreamLatencyLog]
  end.
Lemma on_app_frame {E A} w (m : M App E A) s : only w m -> erase w (tables_of (on_app m s)) = erase w (tables_of s).
Proof. intros Hm. exact (Hm _ (sv_app (server s)) eq_refl). Qed.
Lemma on_writer_frame w (f : QueryLogWriter.Writer -> QueryLogWriter.Writer) s :
  (forall v, erase w (tables (db_of (f v))) = erase w (tables (db_of v))) ->
  erase w (tables_of (on_writer f s)) = erase w (tables_of s).
Proof. intros Hf. exact (Hf (with_db (log_task s) (db_of (sv_app (server s))))). Qed.
Lemma flush_frame v : erase [TQueryLog] (tables (db_of (QueryLogWriter.flush v))) = erase [TQueryLog] (tables (db_of v)).
Proof.
  assert (Hw : preserves (S := QueryLogWriter.Writer) (fun t => erase [TQueryLog] t = erase [TQueryLog] (tables (db_of v)))
    (QueryLogWriter.write_batch (QueryLogWriter.batch v))).
  { unfold QueryLogWriter.write_batch. destruct (QueryLogWriter.batch v); [apply preserves_ret|].
    solve_preserves; [apply preserves_reads, QueryLogWriter.reads_insert_chunks|]. by intros ? ? ? [= _ <-]. }
  exact (Hw v eq_refl).
Qed.
(** More tables may be left out of the comparison. *)
Lemma erase_more w w' t t' : (forall T, among w T = true -> among w' T = true) -> erase w t = erase w t' -> erase w' t = erase w' t'.
Proof.
  intros Hw He.
  assert (Hfield : forall {X} (T : Table) (f : Db -> X) (e : X),
    (if among w T then e else f t) = (if among w T then e else f t') ->
    (if among w' T then e else f t) = (if among w' T then e else f t')).
  { intros X T f e Heq. destruct (among w' T) eqn:Hw'; [done|]. destruct (among w T) eqn:HwT; [|done]. by rewrite Hw in Hw'. }
  injection He as E1 E2 E3 E4 E5 E6 E7 E8 E9 E10 E11 E12 E13 E14 E15 E16 E17 E18 E19 E20 E21.
  unfold erase. f_equal; by apply Hfield.
Qed.
Lemma on_tick_erase now v : erase [TQueryLog] (tables (db_of (QueryLogWriter.on_tick now v))) = erase [TQueryLog] (tables (db_of v)).
Proof. unfold QueryLogWriter.on_tick. destruct (QueryLogWriter.batch v); [done|]. exact (flush_frame v). Qed.
Lemma detect_erase now id created_at entry v :
  erase [TAlerts] (tables (db_of (QueryLogWriter.detect now id created_at entry v))) = erase [TAlerts] (tables (db_of v)).
Proof.
  unfold QueryLogWriter.detect. destruct (_ =s? _); [|done]. destruct (_ <? _); [done|]. destruct (_ =? _); [|done].
  unfold QueryLogWriter.insert_alert. cbn [QueryLogWriter.send_alert db_of QueryLogWriter.Writer_HasDb QueryLogWriter.wdb].
  match goal with |- context [execute ?f ?v'] =>
    assert (He : preserves (S := QueryLogWriter.Writer) (fun t => erase [TAlerts] t = erase [TAlerts] (tables (db_of v))) (execute f)) end.
  { apply preserves_execute. by intros ? ? ? [= _ <-]. }
  exact (He (QueryLogWriter.set_block_counts _ v) eq_refl).
Qed.
Lemma on_entry_erase now id created_at entry v :
  erase [TQueryLog; TAlerts] (tables (db_of (QueryLogWriter.on_entry now id created_at entry v)))
  = erase [TQueryLog; TAlerts] (tables (db_of v)).
Proof.
  unfold QueryLogWriter.on_entry. transitivity (erase [TQueryLog; TAlerts] (tables (db_of (QueryLogWriter.detect now id created_at entry v)))).
  - destruct (_ <=? _)%nat; [|done]. apply (erase_more [TQueryLog]); [by intros []|].
    exact (flush_frame (QueryLogWriter.set_batch _ (QueryLogWriter.detect now id created_at entry v))).
  - apply (erase_more [TAlerts]); [by intros []|]. apply detect_erase.
Qed.

Lemma event_frame `{!Router.ExtractorsDoc (Body := Body)} e s :
  erase (event_writes e) (tables_of (handle_event e s)) = erase (event_writes e) (tables_of s).
Proof.
  destruct e as [d rq|tm data ip|now id created_at|now|d u history task|ds clock u d history|d|days d|ms name ds d|ds clock net d known];
    cbn [event_writes handle_event].
  - unfold tables_of. cbn [server]. rewrite Router.serve_answer. unfold Router.answer.
    destruct (Router.dispatch _ _) as [ep args| |]; [|done..]. destruct (Router.extract ep args rq) as [c|n] eqn:Hx; [|done].
    rewrite <- (Router.extract_endpoint _ _ _ _ Hx). apply call_frame.
  - apply on_app_frame. intros x. apply preserves_on_handler, frame_handle.
  - destruct (QueryLogWriter.queue (entry_channel s)); [done|]. rewrite on_writer_frame; [done|]. intros v. apply on_entry_erase.
  - apply on_writer_frame, on_tick_erase.
  - apply on_app_frame, background_frame.
  - apply on_app_frame, refresh_frame.
  - apply on_app_frame, expired_frame.
  - apply on_app_frame, rotation_frame.
  - apply on_app_frame, health_frame.
  - apply on_app_frame, api_health_frame.
Qed.

(** The handlers behind GET, which HEAD reaches as well. *)
Lemma get_writes m path e args : m = GET \/ m = HEAD -> Router.dispatch m path = Router.Handled e args -> e <> Anomalies -> e <> CreateBackup -> writes e = [].
Proof.
  intros Hm Hd He Hb. unfold Router.dispatch, Router.target in Hd. destruct (Router.at_route _ _) as [[p b]|]; [|done].
  destruct (Router.handler_for m (Router.methods_of p)) as [e'|] eqn:Hh; [|done]. injection Hd as -> _.
  destruct (Router.handler_route m p e Hh) as (ms & m' & Hr & Hx & Hm').
  assert (Hg : m' = GET \/ m' = HEAD) by naive_solver.
  assert (Hall : forallb (fun r => forallb (fun x => bool_decide ((fst x = GET \/ fst x = HEAD) -> snd x = Anomalies \/ snd x = CreateBackup \/ writes (snd x) = []))
    (snd r)) Router.routes = true) by (vm_compute; reflexivity).
  rewrite forallb_forall in Hall. apply list_elem_of_In in Hr, Hx. specialize (Hall _ Hr). rewrite forallb_forall in Hall.
  specialize (Hall _ Hx). apply bool_decide_eq_true in Hall. by destruct (Hall Hg) as [?|[?|?]].
Qed.

(** C5: What an event may change.  A request leaves all tables but those of its
    endpoint as they are, whatever its path, method, body and caller and
    whatever statements fail; a query of the DNS, a refresh of the lists, a
    round of the health checks and the writer of the log leave all but their
    own; and a request by GET or HEAD changes no table at all, but for the
    call that looks for anomalies and raises alerts, and the backup, which the
    audit log tells of. *)
Theorem events_framed `{!Router.ExtractorsDoc (Body := Body)} :
  (forall e s, erase (event_writes e) (tables_of (handle_event e s)) = erase (event_writes e) (tables_of s)) /\
  (forall d rq s, Router.rq_method rq = GET \/ Router.rq_method rq = HEAD ->
     (forall e args, Router.dispatch (Router.rq_method rq) (Router.rq_path rq) = Router.Handled e args -> e <> Anomalies /\ e <> CreateBackup) ->
     tables_of (handle_event (Request d rq) s) = tables_of s).
Proof.
  split; [exact event_frame|]. intros d rq s Hm Ha. pose proof (event_frame (Request d rq) s) as Hf.
  cbn [event_writes] in Hf. destruct (Router.dispatch _ _) as [e args| |] eqn:Hd; try by apply blind_all.
  destruct (Ha e args eq_refl) as [H1' H2'].
  rewrite (get_writes _ _ _ _ Hm Hd H1' H2') in Hf. by apply blind_all.
Qed.

(** ** What always holds *)

Lemma on_writer_log f s : (forall v, QueryLog.log_ok (tables (db_of v)) -> QueryLog.log_ok (tables (db_of (f v)))) ->
  QueryLog.log_ok (tables_of s) -> QueryLog.log_ok (tables_of (on_writer f s)).
Proof. intros Hf Hs. exact (Hf (with_db (log_task s) (db_of (sv_app (server s)))) Hs). Qed.
Lemma flush_log v : QueryLog.log_ok (tables (db_of v)) -> QueryLog.log_ok (tables (db_of (QueryLogWriter.flush v))).
Proof. apply (QueryLog.write_ok (QueryLogWriter.batch v) v). Qed.
Lemma on_tick_log now v : QueryLog.log_ok (tables (db_of v)) -> QueryLog.log_ok (tables (db_of (QueryLogWriter.on_tick now v))).
Proof. intros Hv. unfold QueryLogWriter.on_tick. destruct (QueryLogWriter.batch v); [exact Hv|]. exact (flush_log v Hv). Qed.
Lemma on_entry_log now id created_at entry v :
  QueryLog.log_ok (tables (db_of v)) -> QueryLog.log_ok (tables (db_of (QueryLogWriter.on_entry now id created_at entry v))).
Proof.
  intros Hv. unfold QueryLogWriter.on_entry.
  assert (Hd : QueryLog.log_ok (tables (db_of (QueryLogWriter.detect now id created_at entry v)))).
  { pose proof (detect_erase now id created_at entry v) as He. unfold QueryLog.log_ok.
    assert (Hq : query_log (tables (db_of (QueryLogWriter.detect now id created_at entry v))) = query_log (tables (db_of v)))
      by exact (f_equal query_log He).
    assert (Hn : query_log_seq (tables (db_of (QueryLogWriter.detect now id created_at entry v))) = query_log_seq (tables (db_of v)))
      by exact (f_equal query_log_seq He).
    rewrite Hq, Hn. exact Hv. }
  destruct (_ <=? _)%nat; [|exact Hd]. exact (flush_log (QueryLogWriter.set_batch _ (QueryLogWriter.detect now id created_at entry v)) Hd).
Qed.
Lemma on_app_keeps {E A} I (m : M App E A) s : preserves I m -> I (tables_of s) -> I (tables_of (on_app m s)).
Proof. intros Hm Hs. exact (Hm (sv_app (server s)) Hs). Qed.

Lemma event_tables `{!Router.ExtractorsDoc (Body := Body)} e s : tables_ok (tables_of s) -> tables_ok (tables_of (handle_event e s)).
Proof.
  intros Hs. destruct e as [d rq|tm data ip|now id created_at|now|d u history task|ds clock u d history|d|days d|ms name ds d|ds clock net d known].
  1: { unfold tables_of in *. cbn [handle_event server]. rewrite Router.serve_answer. unfold Router.answer.
       destruct (Router.dispatch _ _); [|exact Hs..]. destruct (Router.extract _ _ _) as [c|n]; [|exact Hs].
       by apply call_tables. }
  all: match goal with |- tables_ok (tables_of (handle_event ?e ?s)) =>
    pose proof (others_frame _ _ _ (eq_sym (event_frame e s)) Hs) as [O1 O2 O3 O4 O5 O6 O7 O8 O9] end.
  all: constructor; try (first [apply O1|apply O2|apply O3|apply O4|apply O5|apply O6|apply O7|apply O8|apply O9]; reflexivity).
  - unfold tables_of, handle_event. destruct (QueryLogWriter.queue (entry_channel s)); [exact (tk_log _ Hs)|].
    apply on_writer_log; [intros v; apply on_entry_log|exact (tk_log _ Hs)].
  - apply on_writer_log; [apply on_tick_log|exact (tk_log _ Hs)].
  - exact (proj1 (on_app_keeps listed _ s (background_listed d u history task) (conj (tk_rules _ Hs) (tk_lists _ Hs)))).
  - exact (proj2 (on_app_keeps listed _ s (background_listed d u history task) (conj (tk_rules _ Hs) (tk_lists _ Hs)))).
  - exact (proj1 (on_app_keeps listed _ s (refresh_listed ds clock u d history) (conj (tk_rules _ Hs) (tk_lists _ Hs)))).
  - exact (proj2 (on_app_keeps listed _ s (refresh_listed ds clock u d history) (conj (tk_rules _ Hs) (tk_lists _ Hs)))).
  - exact (on_app_keeps _ _ s (QueryLog.rotation_ok days d) (tk_log _ Hs)).
  - exact (on_app_keeps _ _ s (health_keyed ds ms name d) (tk_upstreams _ Hs)).
  - exact (on_app_keeps _ _ s (api_health_keyed ds clock net d known) (tk_upstreams _ Hs)).
Qed.

Lemma on_app_steps {E A} (m : M App E A) s : steps m -> hsteps (dns_handler (sv_app (server s))) (dns_handler (sv_app (server (on_app m s)))).
Proof. intros Hm. apply Hm. Qed.
Lemma on_writer_steps f s : hsteps (dns_handler (sv_app (server s))) (dns_handler (sv_app (server (on_writer f s)))).
Proof. apply (steps_db (sv_app (server s))). Qed.
Lemma event_steps e s : hsteps (dns_handler (sv_app (server s))) (dns_handler (sv_app (server (handle_event e s)))).
Proof.
  destruct e as [d rq|tm data ip|now id created_at|now|d u history task|ds clock u d history|d|days d|ms name ds d|ds clock net d known];
    cbn [handle_event].
  - cbn [server]. rewrite Router.serve_answer. unfold Router.answer.
    destruct (Router.dispatch _ _); [|apply rtc_refl..]. destruct (Router.extract _ _ _); [|apply rtc_refl]. apply call_serves.
  - apply on_app_steps, steps_handle.
  - destruct (QueryLogWriter.queue (entry_channel s)); [apply rtc_refl|]. etrans; [|apply on_writer_steps].
    apply rtc_once. exact (Handler.HLog _ _ (dns_handler (sv_app (server s)))).
  - apply on_writer_steps.
  - apply on_app_steps, background_steps.
  - apply on_app_steps, refresh_steps.
  - apply on_app_steps, expired_steps.
  - apply on_app_steps, rotation_steps.
  - apply on_app_steps, health_steps.
  - apply on_app_steps, api_health_steps.
Qed.
Lemma run_app es es' p : run_events (es ++ es') p = run_events es' (run_events es p).
Proof. apply fold_left_app. Qed.
Lemma run_steps es s s' : run_events es (Running s) = Running s' ->
  hsteps (dns_handler (sv_app (server s))) (dns_handler (sv_app (server s'))).
Proof.
  revert s'. induction es as [|e es IH] using rev_ind; intros s'; [intros [= <-]; apply rtc_refl|].
  rewrite run_app. destruct (run_events es (Running s)) as [s1|t]; [|done]. cbn [run_events fold_left process_event].
  destruct (aborts e s1); [done|]. intros [= <-]. etrans; [by apply IH|apply event_steps].
Qed.
Lemma run_tables `{!Router.ExtractorsDoc (Body := Body)} es p : tables_ok (stored p) -> tables_ok (stored (run_events es p)).
Proof.
  induction es as [|e es IH] using rev_ind; intros Hp; [exact Hp|]. rewrite run_app. specialize (IH Hp).
  destruct (run_events es p) as [s1|t]; [|exact IH]. cbn [run_events fold_left process_event].
  destruct (aborts e s1); exact (event_tables e s1 IH).
Qed.
(** Only a request of a session for a time range of the log ends the
    process. *)
Definition log_request (d : Draws) (rq : Router.Request (Body := Body)) (s : System) : Prop :=
  exists e args claims, Router.dispatch (Router.rq_method rq) (Router.rq_path rq) = Router.Handled e args /\ e ∈ log_queries /\
    fst (AuthUser d (Router.rq_parts rq) (sv_app (server s))) = Ok claims.
Lemma aborts_log `{!Router.ExtractorsDoc (Body := Body)} e s :
  aborts e s = true -> exists d rq, e = Request d rq /\ log_request d rq s.
Proof.
  destruct e as [d rq| | | | | | | | |]; try done. cbn [aborts]. destruct (fst (fst _)) eqn:Hr; try done. intros _.
  exists d, rq. split; [done|]. by apply Router.serve_aborts.
Qed.
Lemma run_ends `{!Router.ExtractorsDoc (Body := Body)} es s t : run_events es (Running s) = Ended t ->
  exists before d rq after s1, es = before ++ Request d rq :: after /\ run_events before (Running s) = Running s1 /\
    aborts (Request d rq) s1 = true /\ log_request d rq s1.
Proof.
  induction es as [|e es IH] using rev_ind; [done|]. rewrite run_app.
  destruct (run_events es (Running s)) as [s1|t1] eqn:Hr.
  - cbn [run_events fold_left process_event]. destruct (aborts e s1) eqn:He; [|done]. intros _.
    destruct (aborts_log _ _ He) as (d & rq & -> & Hlog). by exists es, d, rq, [], s1.
  - intros [= <-]. destruct (IH eq_refl) as (before & d & rq & after & s1 & -> & Hrest).
    exists before, d, rq, (after ++ [e]), s1. by rewrite <- app_assoc.
Qed.

Lemma run_ended es t : run_events es (Ended t) = Ended t.
Proof. by induction es. Qed.
Lemma launch_cases cfg s :
  launch cfg s = Running s \/
  launch cfg s = Ended (tables_of s) /\ lit "*" ∈ ac_cors_allowed_origins (cf_api cfg) /\ header_value (lit "*") = true.
Proof.
  unfold launch. pose proof (Web.cors_layer_cases (ac_cors_allowed_origins (cf_api cfg))) as Hc.
  destruct (Web.build_cors_layer _); [by left|right]. split; [done|]. by apply Web.origins_in.
Qed.
Lemma launch_stored cfg s : stored (launch cfg s) = tables_of s.
Proof. by destruct (launch_cases cfg s) as [->|[-> _]]. Qed.

(** ** From the start *)

Lemma seeded d c c1 : seed_admin d c = (Ok tt, c1) ->
  (users (tables c) = [] /\ exists hash, tables c1 = set_users (tables c) [default_admin d hash]) \/
  (users (tables c) <> [] /\ tables c1 = tables c).
Proof.
  unfold seed_admin, bind, mmap_err, lift, fetch_one, query, execute. cbn [db_of DbState_HasDb with_db tick tables].
  destruct (faults c _); [done|]. cbn [ok_or map_err]. destruct (users (tables c)) as [|u us] eqn:Hu; cbn [length Nat.eqb].
  - destruct (Password.hash _ _) as [hash|]; cbn [ok_or]; [|done].
    match goal with |- context [if ?b then _ else _] => destruct b end; [done|].
    unfold Users.insert_user. cbn [tick tables]. rewrite Hu. cbn [existsb app map_err]. intros [= <-]. left. split; [done|]. by exists hash.
  - intros [= <-]. by right.
Qed.
Lemma startup_serves d cfg c sv : startup d cfg c = Ok sv ->
  Handler.serving (dns_handler (sv_app sv)) /\
  ((users (tables c) = [] /\ exists hash, tables (db_of (sv_app sv)) = set_users (tables c) [default_admin d hash]) \/
   (users (tables c) <> [] /\ tables (db_of (sv_app sv)) = tables c)).
Proof.
  unfold startup. destruct (seed_admin d c) as [[[]|e] c1] eqn:Hs; [|done]. apply seeded in Hs.
  destruct (AppCatalog.load_from_db AppCatalog.new c1) as [[catalog|e] c2] eqn:Hc; [|done]. cbn [map_err].
  destruct (FilterEngine.new c2 (d_text d)) as [f|e] eqn:Hf; [|done]. cbn [map_err].
  destruct (Handler.new _ _ _ f Metrics.new catalog) as [h|e] eqn:Hh; [|done]. cbn [map_err]. intros [= <-]. cbn [sv_app dns_handler].
  split.
  - eexists _, _, _, f, _, _, h. split; [exact Hh|apply rtc_refl].
  - assert (Hc' : tables c2 = tables c1).
    { assert (Hr : reads_only (S := DbState) (AppCatalog.load_from_db AppCatalog.new)) by (unfold AppCatalog.load_from_db; solve_reads).
      destruct (Hr c1) as [n Hn]. rewrite Hc in Hn. cbn [snd] in Hn. by rewrite Hn. }
    assert (Hf' : tables (db_of f) = tables c2).
    { revert Hf. unfold FilterEngine.new. set (f0 := {| FilterEngine.rules := _ |}).
      pose proof (FilterEngine.reload_tables (d_text d) f0) as Ht. destruct (FilterEngine.reload _ f0) as [[?|?] f1]; [|done].
      intros [= <-]. exact (proj1 Ht). }
    assert (Hh' : tables (db_of h) = tables (db_of f)).
    { revert Hh. unfold Handler.new. match goal with |- context [bind ?m ?k f] =>
        assert (Hr : reads_only (bind m k)) by (unfold Handler.load_pool, Handler.acl_setting; solve_reads) end.
      destruct (Hr f) as [n Hn]. destruct (bind _ _ f) as [[[p a]|e] f1]; [|done]. cbn [snd] in Hn. intros [= <-].
      cbn. by rewrite Hn. }
    rewrite <- Hc', <- Hf', <- Hh' in Hs. exact Hs.
Qed.
Lemma first_tables d hash t : users t = [] -> others_ok [TUsers] t -> tables_ok (set_users t [default_admin d hash]).
Proof.
  intros Hu [O1 O2 O3 O4 O5 O6 O7 O8 O9]. constructor.
  - split; [cbn; apply NoDup_singleton|done].
  - destruct (O2 eq_refl). by constructor.
  - exact (O3 eq_refl).
  - exact (O4 eq_refl).
  - exact (O5 eq_refl).
  - exact (O6 eq_refl).
  - exact (O7 eq_refl).
  - exact (O8 eq_refl).
  - exact (O9 eq_refl).
Qed.
Lemma later_tables t : users_ok t -> others_ok [TUsers] t -> tables_ok t.
Proof. intros Hu [O1 O2 O3 O4 O5 O6 O7 O8 O9]. constructor; [exact Hu|by apply O2|by apply O3|by apply O4|by apply O5|by apply O6|by apply O7|by apply O8|by apply O9]. Qed.

(** C2: The program as a whole.  From a start on a database whose tables are
    in order, with no user or with an active super administrator among them,
    and through any sequence of requests, of queries, of steps of the writer
    of the log and of rounds of the tasks, each with any draws and with any of
    its statements failing: the tables stay in order (keys are unique, groups
    have only members and rules of groups there are, rewrites answer with
    addresses, the log is in the order of its numbers) and an active super
    administrator is left.  And as long as the process runs it answers: the
    next query of any client gets the reply it should, unless its bytes do not
    decode or a message cannot be encoded.  But the process need not run: a
    request for a time range of the log, of any session, may have ended it, or
    a wildcard among the allowed origins as soon as it was started; no other
    event ends it. *)
Theorem system_correct `{!Router.ExtractorsDoc (Body := Body), !HickoryDoc, !MokaDoc, !RngDoc} d cfg c sv w es :
  others_ok [TUsers] (tables c) -> users (tables c) = [] \/ users_ok (tables c) ->
  startup d cfg c = Ok sv ->
  let start := launch cfg {| server := sv; log_task := w |} in
  let p := run_events es start in
  tables_ok (stored p) /\ (1 <= Users.super_admins (stored p))%nat /\
  match p with
  | Running s => forall tm data ip,
      match fst (Handler.handle tm data ip (dns_handler (sv_app (server s)))) with
      | Ok bytes => exists request m, from_vec data = Some request /\ from_vec bytes = Some m /\
          Handler.answers request m /\ Handler.reply (t_now tm) ip (dns_handler (sv_app (server s))) request m
      | Err _ => from_vec data = None \/ exists m, to_vec m = None
      end
  | Ended _ =>
      (lit "*" ∈ ac_cors_allowed_origins (cf_api cfg) /\ header_value (lit "*") = true) \/
      exists before d' rq after s, es = before ++ Request d' rq :: after /\
        run_events before start = Running s /\ aborts (Request d' rq) s = true /\ log_request d' rq s
  end.
Proof.
  intros Ho Hu Hsv start p. destruct (startup_serves d cfg c sv Hsv) as [Hserve Hseed].
  assert (Hok : tables_ok (stored p)).
  { apply run_tables. unfold start. rewrite launch_stored. unfold tables_of. cbn [server].
    destruct Hseed as [(Hnone & hash & ->)|(Hsome & ->)]; [by apply first_tables|]. destruct Hu as [Hu|Hu]; [done|by apply later_tables]. }
  split; [exact Hok|]. split; [rewrite Users.super_admins_alt; apply (tk_users _ Hok)|]. clear Hok.
  destruct (launch_cases cfg {| server := sv; log_task := w |}) as [Hl|[Hl Hstar]]; subst p start; rewrite Hl;
    [|rewrite run_ended; by left].
  destruct (run_events es (Running _)) as [s|t] eqn:Hp; [|right; by apply (run_ends es _ t)]. intros tm data ip.
  destruct (Handler.handle _ _ _ _) as [r h'] eqn:Hr. cbn [fst].
  assert (Hinv : Handler.handler_inv (dns_handler (sv_app (server s)))).
  { apply Handler.serving_inv. destruct Hserve as (pf & ttl & now & f & m & cat & h0 & Hn & Hrun).
    exists pf, ttl, now, f, m, cat, h0. split; [exact Hn|]. etrans; [exact Hrun|]. exact (run_steps es _ _ Hp). }
  pose proof (proj2 (Handler.handle_internal_ok tm data ip _ r h' Hinv Hr)) as Hans.
  destruct r as [bytes|e]; [|exact Hans]. destruct Hans as (request & m & Hreq & Hm & Hrep).
  exists request, m. split; [done|]. split; [done|]. split; [by eapply Handler.reply_answers|done].
Qed.
End system.
End System.

Module SystemWitness.
Import AsciiUnicode RefRegex RefJson RefIpNet RefMoka RefRng RefHickory RefResolver RefCrypto RefValue Api AppWitness RefConfig.
Import SubscriptionWitness TasksWitness RefTimestamp RefBase64 RefRegexSingle RefQueryFilters RefDashboard RefSystem.
Import RefRouter RefHeaders Router EndpointsWitness RouterWitness StartupWitness System.

Definition writer : QueryLogWriter.Writer :=
  {| QueryLogWriter.batch := []; QueryLogWriter.block_counts := ∅; QueryLogWriter.broadcast := []; QueryLogWriter.wdb := fresh |}.
(** The settings with the key the tokens of the tests are signed with. *)
Definition keyed : Config :=
  {| cf_dns := cf_dns cfg; cf_api := cf_api cfg; cf_database := cf_database cfg; cf_logging := cf_logging cfg;
     cf_auth := {| uc_jwt_secret := lit "key"; uc_jwt_expiry_hours := 24; uc_allow_default_password := false |} |}.
Definition started_server : Endpoints.Server :=
  match startup today keyed fresh with Ok sv => sv | Err _ => EndpointsWitness.server end.
Definition booted : System.System := {| System.server := started_server; log_task := writer |}.
(** The state of a process that runs. *)
Definition state (p : System.Process) : System.System := match p with Running s => s | Ended _ => booted end.
Definition running (p : System.Process) : bool := match p with Running _ => true | Ended _ => false end.
(** A rewrite by the administrator; a query of the DNS for it, whose entry the
    writer takes and writes at its next tick; a request without a token. *)
Definition day : list Event :=
  [Request today (to POST "/api/v1/rewrites" admin (CCreateRewrite {| crr_domain := lit "a.lan"; crr_answer := lit "10.0.0.9" |}));
   Datagram (HandlerWitness.tm 0) (HandlerWitness.wire (HandlerWitness.msg 5 "a.lan." 1)) (lit "10.0.0.7");
   TakeEntry 1 (lit "a1") (lit "2026-01-01"); FlushTick 2;
   Request today (to DELETE "/api/v1/rules/1" (ApiWitness.from (V4 8 8 8 8) None) (CDeleteRule (lit "1")));
   ExpireRules today; RotateLog 7 today].

Example day_test :
  let t := stored (run_events (firstn 4 day) (Running booted)) in
  (map usr_username (users t), map dr_answer (dns_rewrites t), length (query_log t)) = ([lit "admin"], [lit "10.0.0.9"], 1%nat).
Proof. vm_compute. reflexivity. Qed.

Lemma events_framed_witness :
  (forall s d, tables_of (handle_event (Request d (to GET "/api/v1/rewrites" admin (CListRewrites {| Listing.lp_page := None; Listing.lp_per_page := None; Listing.lp_search := None |}))) s) = tables_of s) /\
  custom_rules (tables_of (handle_event (Datagram (HandlerWitness.tm 0) (HandlerWitness.wire (HandlerWitness.msg 5 "a.lan." 1)) (lit "10.0.0.7")) booted))
  = custom_rules (tables_of booted).
Proof.
  destruct events_framed as [Hframe Hget]. split.
  - intros s d. apply Hget; [by left|]. intros e args. cbn [rq_method rq_path to].
    assert (Hd : dispatch GET (lit "/api/v1/rewrites") = Handled ListRewrites []) by (vm_compute; reflexivity).
    rewrite Hd. by intros [= <- _].
  - exact (f_equal custom_rules (Hframe (Datagram (HandlerWitness.tm 0) (HandlerWitness.wire (HandlerWitness.msg 5 "a.lan." 1)) (lit "10.0.0.7")) booted)).
Defined.
(** Any user ends the process, with one request for a time range whose hours
    are too many; the next query of the DNS is not even looked at. *)
Definition too_long : Router.Request (Body := Call) :=
  to GET "/api/v1/query-log/top" admin (CTopLogs (QueryFiltersWitness.ranking "99999999999h")).
Example ended_test :
  map running [run_events [Request today too_long] (Running booted);
    run_events [Request today (to GET "/api/v1/query-log/top" (ApiWitness.from (V4 8 8 8 8) None) (rq_body too_long))] (Running booted)]
  = [false; true].
Proof. vm_compute. reflexivity. Qed.
Lemma system_correct_witness :
  let s := state (run_events day (Running booted)) in
  tables_ok (tables_of s) /\ (1 <= Users.super_admins (tables_of s))%nat /\
  exists bytes, fst (Handler.handle (HandlerWitness.tm 9) (HandlerWitness.wire (HandlerWitness.msg 6 "b.lan." 1)) (lit "10.0.0.7") (dns_handler (sv_app (System.server s)))) = Ok bytes.
Proof.
  destruct (startup today keyed fresh) as [sv|e] eqn:Hsv; [|exfalso; apply (f_equal is_ok) in Hsv; revert Hsv; vm_compute; discriminate].
  assert (Hb : booted = {| System.server := sv; log_task := writer |}) by (unfold booted, started_server; by rewrite Hsv).
  assert (Hrun : running (run_events day (Running booted)) = true) by HandlerWitness.vm_refl. revert Hrun.
  rewrite Hb. destruct (system_correct today keyed fresh sv writer day) as (Hok & Hadmin & Hreply); [|by left|exact Hsv|].
  { constructor; intros Hw; first [discriminate Hw|exact NoDup_nil_2|split; try apply NoDup_nil_2; intros ? Hin; by apply not_elem_of_nil in Hin|idtac]; [split_and!; try apply NoDup_nil_2; intros ? Hin; by apply not_elem_of_nil in Hin|split_and!; [constructor..|done]]. }
  change (launch keyed _) with (Running {| System.server := sv; log_task := writer |}) in *.
  destruct (run_events day _) as [s|t]; [intros _|discriminate]. cbn [state stored] in *.
  split; [exact Hok|]. split; [exact Hadmin|]. specialize (Hreply (HandlerWitness.tm 9) (HandlerWitness.wire (HandlerWitness.msg 6 "b.lan." 1)) (lit "10.0.0.7")).
  destruct (fst _) as [bytes|e]; [by exists bytes|]. exfalso. destruct Hreply as [Hn|[m Hm]]; [|discriminate Hm].
  apply (f_equal (fun o => match o with Some _ => true | None => false end)) in Hn. revert Hn. vm_compute. discriminate.
Defined.
End SystemWitness.
