(* ===== verification/Enforced.v ===== *)
(** * From a request to a reply

    A change of the custom rules over the API decides the next queries of the
    DNS: the router, the handler of the call, the table, the filter engine and
    the DNS handler one after the other. *)
From S2P Require Import Prelude RustStr IpAddr Regex Rules Acl Moka Hickory Cache Db DbLogic Filter Resolver.
From S2P Require Import UpstreamPool Metrics AppCatalog Handler HandlerTests Subscription Api App Auth AppTests Users Ws AuditTrail Validators Listing Tables.
From S2P Require Import QueryLogWriter Rewrites RulesApi RulesTransfer Clients Groups GroupsProps Settings FiltersApi Tasks Alerts Upstreams Health.
From S2P Require Import Doh Tools RuleStats Conditions QueryLog QueryFilters Templates Float Dashboard Insights Activity Endpoints Router Startup Frame Integrity Serving System.
Local Open Scope N_scope.

Section enforced.
Context `{RustUnicode, RegexEngine, SerdeJson, Collation, IpNetCrate, Moka, Rng,
  Hickory, !HickoryResolver, !DnsCodec, Jwt, SqlTime, SqlJson, SerdeValue}.
Context `{UrlCrate, HttpClient, RegexCaptures, Rfc3339, SqlTimestamp, Base64Url, !RegexSingle, GroupOrder, HourText,
  SqlRatio, Argon2, Chrono, ErrorText, SqlAvg, HourStamp, SystemResolver, PgDump}.
Context `{PathRouter} {Body : Type} `{!Router.Extractors (Body := Body)}.
Import Api.

(** What the rules of the tables say of a name at a time. *)
Definition filter_lines (now : str) (t : Db) : list str := FilterEngine.active_rules now t ++ FilterEngine.parental_lines t.
Definition rules_of (now : str) (t : Db) : Rules.RuleSet := Rules.build (fst (Rules.add_rules Rules.new (filter_lines now t))).
Definition verdict (now : str) (t : Db) (name : str) : Rules.MatchResult := Rules.match_domain (rules_of now t) name.

Lemma add_rule_keeps_blocked rs line d : d ∈ Rules.blocked rs -> d ∈ Rules.blocked (fst (Rules.add_rule rs line)).
Proof.
  intros Hd. destruct (Rules.add_rule_cases line) as ([r|] & Ho & _); rewrite Ho; [|exact Hd].
  destruct r; cbn; try exact Hd. set_solver.
Qed.
Lemma block_line_blocks now t dom name :
  lit "||" ++ dom ++ lit "^" ∈ filter_lines now t -> str_is_ascii dom = true -> Rules.is_valid_domain dom = true ->
  Rules.under (Rules.query_name name) (to_lowercase dom) -> verdict now t name <> Rules.NoMatch.
Proof.
  intros Hl Ha Hv Hu. unfold verdict, rules_of. apply list_elem_of_split in Hl as (l1 & l2 & ->).
  assert (Hd : to_lowercase dom ∈ Rules.blocked (fst (Rules.add_rules Rules.new (l1 ++ (lit "||" ++ dom ++ lit "^") :: l2)))).
  { rewrite (cons_middle _ l1 l2), !FilterEngine.add_rules_app. apply Rules.add_rules_ind; [|intros rs line _; apply add_rule_keeps_blocked].
    match goal with |- context [Rules.add_rules ?rs [_]] => generalize rs end. intros rs.
    unfold Rules.add_rules. cbn [fold_left]. unfold Rules.add_step. rewrite Rules.add_rule_caret by done. cbn. set_solver. }
  rewrite Rules.match_domain_alt. cbn zeta. destruct (_ || _); [done|].
  rewrite (proj2 (Rules.matches_set_alt _ (Rules.blocked _))); [by rewrite orb_true_r|]. by exists (to_lowercase dom).
Qed.

(** The calls that write rules, as calls of the API. *)
Definition rules_call (c : RulesApi.Call) : Call :=
  match c with
  | RulesApi.Create body => CCreateRule body
  | RulesApi.Delete id => CDeleteRule id
  | RulesApi.Toggle id b => CToggleRule id b
  | RulesApi.Bulk req => CBulkRules req
  | RulesApi.Update id body => CUpdateRule id body
  end.
Lemma rules_call_state d p c sv : sv_app (snd (call_endpoint d p (rules_call c) sv)) = snd (RulesApi.run d p c (sv_app sv)).
Proof.
  destruct c; cbn [rules_call call_endpoint RulesApi.run]; unfold api, bind; 
    match goal with |- context [?m (sv_app sv)] => destruct (m (sv_app sv)) as [[a|e] s1] end; reflexivity.
Qed.
(** None of them ends the process. *)
Lemma rules_call_runs d rq args c s :
  Router.dispatch (Router.rq_method rq) (Router.rq_path rq) = Router.Handled (endpoint_of (rules_call c)) args ->
  Router.extract (endpoint_of (rules_call c)) args rq = Ok (rules_call c) ->
  System.process_event (System.Request d rq) (System.Running s) = System.Running (System.handle_event (System.Request d rq) s).
Proof.
  intros Hd Hx. cbn [System.process_event System.aborts]. rewrite Router.serve_answer. unfold Router.answer. rewrite Hd, Hx.
  destruct (fst (call_endpoint _ _ _ _)) eqn:Hab; try done. exfalso. apply call_aborts in Hab as [Hin _]. unfold log_queries in Hin.
  destruct c; cbn [rules_call endpoint_of] in Hin;
    repeat (apply elem_of_cons in Hin as [Hin|Hin]; [discriminate Hin|]); by apply not_elem_of_nil in Hin.
Qed.
(** An accepted call leaves the store it says and an engine that is up to
    date. *)
Lemma accepted_call d rq args c auth m s :
  Router.dispatch (Router.rq_method rq) (Router.rq_path rq) = Router.Handled (endpoint_of (rules_call c)) args ->
  Router.extract (endpoint_of (rules_call c)) args rq = Ok (rules_call c) ->
  db_works (sv_app (System.server s)) -> RulesApi.rules_ok (System.tables_of s) ->
  fst (AuthUser d (Router.rq_parts rq) (sv_app (System.server s))) = Ok auth -> filter_live (d_text d) (sv_app (System.server s)) ->
  RulesApi.spec d (username auth) c (RulesApi.store_of (System.tables_of s)) = Ok m ->
  let s' := System.handle_event (System.Request d rq) s in
  RulesApi.store_of (System.tables_of s') = m /\ filter_live (d_text d) (sv_app (System.server s')).
Proof.
  intros Hd Hx Hw Hr Ha Hl Hs s'.
  assert (Hi : RulesApi.implements d (Router.rq_parts rq) (username auth) c (sv_app (System.server s))).
  { destruct c; [by apply RulesApi.create_does|by apply RulesApi.delete_does|by apply RulesApi.toggle_does|by apply RulesApi.bulk_does
      |by apply RulesApi.update_does]. }
  destruct Hi as (r & sa & [n Hrun]%does_run & Hspec). unfold System.tables_of in Hs. rewrite Hs in Hspec.
  destruct Hspec as (_ & Hm & Hlive & _).
  assert (Happ : sv_app (System.server s') = with_calls n sa).
  { unfold s'. cbn [System.handle_event System.server]. rewrite Router.serve_answer. unfold Router.answer. rewrite Hd, Hx.
    by rewrite rules_call_state, Hrun. }
  unfold System.tables_of. rewrite Happ, tables_with_calls. split; [exact Hm|]. exact Hlive.
Qed.

(** A query the filter decides: of a client without rules of groups, for a
    name without a rewrite. *)
Record decided (h : Handler.DnsHandler) (tm : Timing) (ip : str) (data : list N) (request : Message) (q : Query) (bytes : list N) : Prop := {
  de_admitted : Handler.admitted h ip data request q;
  de_config : exists config h1, Handler.get_client_config (t_now tm) ip h = (Ok config, h1) /\ Handler.filter_enabled config = true /\
    Handler.group_ruleset config = None /\ Handler.rewrite_target h1 config q = None;
  de_encodes : to_vec (Handler.nxdomain_message request) = Some bytes }.

Lemma blocked_reply `{!HickoryDoc} now (s : App) tm ip data request q bytes :
  filter_live now s -> decided (dns_handler s) tm ip data request q bytes ->
  verdict now (tables (db_of s)) (Handler.question_name q) = Rules.Blocked ->
  fst (Handler.handle tm data ip (dns_handler s)) = Ok bytes.
Proof.
  intros [Hr _] [Hadm (config & h1 & Hcfg & Hen & Hg & Hrw) Hv] Hb.
  destruct (Handler.blocked_run tm data ip (dns_handler s) request q config h1 bytes Hadm Hcfg Hrw) as (h' & ev & Hrun & _).
  - unfold Handler.is_query_blocked. rewrite Hen, Hg. cbn [andb]. destruct (Handler.get_client_config_frame (t_now tm) ip (dns_handler s)) as (c & n & cc & Hf).
    rewrite Hf in Hcfg. injection Hcfg as _ <-. unfold FilterEngine.is_blocked, Rules.is_blocked.
    match goal with |- context [Handler.filter ?h] => change (Handler.filter h) with (with_calls n (engine s)) end.
    match goal with |- context [FilterEngine.rules ?f] => change (FilterEngine.rules f) with (FilterEngine.rules (engine s)) end.
    rewrite Hr. unfold verdict in Hb. change (FilterEngine.rules (loaded _ _ _)) with (rules_of now (tables (db_of s))). by rewrite Hb.
  - exact Hv.
  - unfold Handler.handle. by rewrite Hrun.
Qed.

(** C6: A change of the rules takes effect.  When a session sends a call that
    creates, deletes, switches, changes or handles rules in bulk, and the
    store accepts it, then from the next query on the names are decided by the
    rules as the call has left them: a name they block gets NXDOMAIN with its
    question; and a rule of the store that is enabled, has not expired and
    reads [||d^], such as one just created, blocks [d] and every name under
    it unless an allow rule covers the name. *)
Theorem rules_enforced `{!HickoryDoc} d rq args c auth m s :
  Router.dispatch (Router.rq_method rq) (Router.rq_path rq) = Router.Handled (endpoint_of (rules_call c)) args ->
  Router.extract (endpoint_of (rules_call c)) args rq = Ok (rules_call c) ->
  db_works (sv_app (System.server s)) -> RulesApi.rules_ok (System.tables_of s) ->
  fst (AuthUser d (Router.rq_parts rq) (sv_app (System.server s))) = Ok auth -> filter_live (d_text d) (sv_app (System.server s)) ->
  RulesApi.spec d (username auth) c (RulesApi.store_of (System.tables_of s)) = Ok m ->
  let s' := System.handle_event (System.Request d rq) s in
  System.process_event (System.Request d rq) (System.Running s) = System.Running s' /\
  RulesApi.store_of (System.tables_of s') = m /\
  forall tm ip data request q bytes,
    decided (dns_handler (sv_app (System.server s'))) tm ip data request q bytes ->
    (verdict (d_text d) (System.tables_of s') (Handler.question_name q) = Rules.Blocked ->
       fst (Handler.handle tm data ip (dns_handler (sv_app (System.server s')))) = Ok bytes) /\
    (forall id r dom, m !! id = Some r -> FilterEngine.rule_active (d_text d) r = true -> cr_rule r = lit "||" ++ dom ++ lit "^" ->
       str_is_ascii dom = true -> Rules.is_valid_domain dom = true ->
       Rules.under (Rules.query_name (Handler.question_name q)) (to_lowercase dom) ->
       verdict (d_text d) (System.tables_of s') (Handler.question_name q) <> Rules.Allowed ->
       fst (Handler.handle tm data ip (dns_handler (sv_app (System.server s')))) = Ok bytes).
Proof.
  intros Hd Hx Hw Hr Ha Hl Hs s'. destruct (accepted_call d rq args c auth m s Hd Hx Hw Hr Ha Hl Hs) as [Hm Hlive].
  split; [by eapply rules_call_runs|]. split; [exact Hm|]. intros tm ip data request q bytes Hq.
  assert (Hreply : verdict (d_text d) (System.tables_of s') (Handler.question_name q) = Rules.Blocked ->
    fst (Handler.handle tm data ip (dns_handler (sv_app (System.server s')))) = Ok bytes) by (by eapply blocked_reply).
  split; [exact Hreply|]. intros id r dom Hid Hact Hrule Hasc Hv Hu Hallow. apply Hreply.
  assert (Hin : lit "||" ++ dom ++ lit "^" ∈ filter_lines (d_text d) (System.tables_of s')).
  { unfold filter_lines. apply elem_of_app. left. rewrite <- Hrule. apply list_elem_of_fmap. exists r. split; [done|].
    apply list_elem_of_In, filter_In. split; [|exact Hact]. rewrite <- Hm in Hid. unfold System.tables_of in Hid |- *. rewrite RulesApi.lookup_store in Hid.
    apply row_named_Some in Hid as [Hid _]. by apply list_elem_of_In. }
  pose proof (block_line_blocks _ _ _ _ Hin Hasc Hv Hu) as Hn. by destruct (verdict _ _ _).
Qed.

(** ** The rewrites *)

Definition rewrites_call (c : Rewrites.Call) : Call :=
  match c with
  | Rewrites.Create body => CCreateRewrite body
  | Rewrites.Update id body => CUpdateRewrite id body
  | Rewrites.Delete id => CDeleteRewrite id
  end.
Lemma rewrites_call_state d p c sv : sv_app (snd (call_endpoint d p (rewrites_call c) sv)) = snd (Rewrites.run d p c (sv_app sv)).
Proof.
  destruct c; cbn [rewrites_call call_endpoint Rewrites.run]; unfold api, bind;
    match goal with |- context [?m (sv_app sv)] => destruct (m (sv_app sv)) as [[a|e] s1] end; reflexivity.
Qed.
(** A change of the rewrites takes effect.  When a session sends a call that
    creates, changes or deletes a rewrite, and the store accepts it, then from
    the next query on the names are rewritten by the table as the call has
    left it: a question of a client without rewrites of groups for a name the
    table (or safe search) gives an address of its type is answered with that
    address. *)
Theorem rewrites_enforced `{!HickoryDoc} d rq args c auth m s :
  Router.dispatch (Router.rq_method rq) (Router.rq_path rq) = Router.Handled (endpoint_of (rewrites_call c)) args ->
  Router.extract (endpoint_of (rewrites_call c)) args rq = Ok (rewrites_call c) ->
  db_works (sv_app (System.server s)) -> Rewrites.rewrites_ok (System.tables_of s) ->
  fst (AuthUser d (Router.rq_parts rq) (sv_app (System.server s))) = Ok auth ->
  Rewrites.spec (d_uuid d) c (Rewrites.store_of (System.tables_of s)) = Ok m ->
  let s' := System.handle_event (System.Request d rq) s in
  let h := dns_handler (sv_app (System.server s')) in
  Rewrites.store_of (System.tables_of s') = m /\
  forall tm ip data request q config h1 answer target bytes,
    Handler.admitted h ip data request q -> Handler.get_client_config (t_now tm) ip h = (Ok config, h1) ->
    Handler.group_rewrites config = None -> FilterEngine.rewrite_of (System.tables_of s') (Handler.question_name q) = Some answer ->
    Handler.rewrite_ip answer (q_type q) = Some target -> to_vec (Handler.rewrite_message h1 request q target) = Some bytes ->
    fst (Handler.handle tm data ip h) = Ok bytes.
Proof.
  intros Hd Hx Hw Hr Ha Hs s' h.
  assert (Hi : Rewrites.implements d (Router.rq_parts rq) c (sv_app (System.server s))).
  { destruct c; [by eapply Rewrites.rw_create_does|by eapply Rewrites.rw_update_does|by eapply Rewrites.rw_delete_does]. }
  destruct Hi as (r & sa & [n Hrun]%does_run & Hspec). unfold System.tables_of in Hs. rewrite Hs in Hspec.
  destruct Hspec as (_ & Hm & Hlive & _).
  assert (Happ : sv_app (System.server s') = with_calls n sa).
  { unfold s'. cbn [System.handle_event System.server]. rewrite Router.serve_answer. unfold Router.answer. rewrite Hd, Hx.
    by rewrite rewrites_call_state, Hrun. }
  unfold h, System.tables_of. rewrite Happ, tables_with_calls. split; [exact Hm|].
  intros tm ip data request q config h1 answer target bytes Hadm Hcfg Hg Hans Htarget Hv.
  destruct (Handler.rewrite_run tm data ip _ request q config h1 target bytes Hadm Hcfg) as (h' & Hh & _).
  - destruct (Handler.get_client_config_frame (t_now tm) ip (dns_handler (with_calls n sa))) as (cf & k & cc & Hf).
    rewrite Hf in Hcfg. injection Hcfg as -> <-. unfold Handler.rewrite_target, Handler.rewrite_answer. rewrite Hg.
    match goal with |- context [FilterEngine.check_rewrite ?f ?x] => change (FilterEngine.check_rewrite f x) with (FilterEngine.check_rewrite (engine sa) x) end.
    rewrite Hlive, Hans. exact Htarget.
  - exact Hv.
  - unfold Handler.handle. by rewrite Hh.
Qed.
End enforced.

Module EnforcedWitness.
Import AsciiUnicode RefRegex RefJson RefIpNet RefMoka RefRng RefHickory RefResolver RefCrypto RefValue Api AppWitness RefConfig.
Import SubscriptionWitness TasksWitness RefTimestamp RefBase64 RefRegexSingle RefQueryFilters RefDashboard RefSystem.
Import RefRouter Router EndpointsWitness RouterWitness StartupWitness SystemWitness System.

Definition block_ads : RulesApi.Call :=
  RulesApi.Create {| RulesApi.crq_rule := lit " ||ads.com^ "; RulesApi.crq_comment := None; RulesApi.crq_expires_at := None |}.
Definition posted : Router.Request (Body := Call) := to POST "/api/v1/rules" admin (rules_call block_ads).
Definition after : System.System := handle_event (System.Request today posted) booted.
Definition asked : Message := HandlerWitness.msg 7 "x.Ads.com." 1.
Example enforced_test :
  (HandlerWitness.reply_code (Handler.handle (HandlerWitness.tm 3) (HandlerWitness.wire asked) (lit "10.0.0.7") (dns_handler (sv_app (System.server after)))),
   verdict (d_text today) (tables_of booted) (lit "x.ads.com")) = (Some (7, NXDomain), Rules.NoMatch).
Proof. vm_compute. reflexivity. Qed.
(** A rewrite posted is the answer to the next question. *)
Example rewritten_test :
  let s := state (run_events (firstn 1 day) (Running booted)) in
  match fst (Handler.handle (HandlerWitness.tm 3) (HandlerWitness.wire (HandlerWitness.msg 8 "A.lan." 1)) (lit "10.0.0.7")
    (dns_handler (sv_app (System.server s)))) with
  | Ok bytes => (fun m => (m_id m, m_code m, length (m_answers m))) <$> from_vec bytes
  | Err _ => None
  end = Some (8, NoError, 1%nat).
Proof. vm_compute. reflexivity. Qed.
Definition question : Query := HandlerWitness.question "x.Ads.com." 1.
Lemma asked_decided : decided (dns_handler (sv_app (System.server after))) (HandlerWitness.tm 3) (lit "10.0.0.7") (HandlerWitness.wire asked) asked
  question (default [] (to_vec (Handler.nxdomain_message asked))).
Proof.
  set (h := dns_handler _). constructor.
  - assert (H1' : Handler.acl_rejects h (lit "10.0.0.7") = false) by HandlerWitness.vm_refl.
    assert (H2' : from_vec (HandlerWitness.wire (HandlerWitness.msg 7 "x.Ads.com." 1)) = Some (HandlerWitness.msg 7 "x.Ads.com." 1))
      by HandlerWitness.vm_refl.
    exact (HandlerWitness.admitted_ask h (lit "10.0.0.7") 7 "x.Ads.com." 1 H1' H2').
  - assert (Hc : match Handler.get_client_config (t_now (HandlerWitness.tm 3)) (lit "10.0.0.7") h with
      | (Ok config, h1) => Handler.filter_enabled config && (match Handler.group_ruleset config with None => true | _ => false end)
          && (match Handler.rewrite_target h1 config question with None => true | _ => false end)
      | _ => false end = true) by HandlerWitness.vm_refl.
    destruct (Handler.get_client_config _ _ h) as [[config|e] h1]; [|done]. exists config, h1. split; [done|].
    destruct (Handler.filter_enabled config); [|done]. destruct (Handler.group_ruleset config); [done|].
    by destruct (Handler.rewrite_target h1 config question).
  - HandlerWitness.vm_refl.
Qed.
Lemma rules_enforced_witness :
  fst (Handler.handle (HandlerWitness.tm 3) (HandlerWitness.wire asked) (lit "10.0.0.7") (dns_handler (sv_app (System.server after))))
  = Ok (default [] (to_vec (Handler.nxdomain_message asked))).
Proof.
  destruct (AuthUser today admin (sv_app (System.server booted))) as [[auth|e] s1] eqn:Ha; [|apply (f_equal (fun x => is_ok (fst x))) in Ha; revert Ha; vm_compute; discriminate].
  apply (f_equal fst) in Ha. cbn [fst] in Ha.
  destruct (RulesApi.spec today (username auth) block_ads (RulesApi.store_of (tables_of booted))) as [m|e] eqn:Hm;
    [|apply (f_equal is_ok) in Hm; revert Hm; vm_compute; discriminate].
  destruct (rules_enforced today posted [] block_ads auth m booted) as (_ & _ & Hq).
  - HandlerWitness.vm_refl.
  - HandlerWitness.vm_refl.
  - intros n. HandlerWitness.vm_refl.
  - apply NoDup_nil_2.
  - exact Ha.
  - split; HandlerWitness.vm_refl.
  - exact Hm.
  - destruct (Hq _ _ _ _ _ _ asked_decided) as (Hblocked & _). apply Hblocked. HandlerWitness.vm_refl.
Defined.
End EnforcedWitness.
