(* ===== verification/Live.v ===== *)
(** * The live view: [handle_socket] of src/api/handlers/ws.rs

    The values the DNS handler and the log writer broadcast, and the loop that
    sends them to an open WebSocket.  The broadcast channel is tokio's: a class
    of its [recv] with what its documentation says of it.  A client that does
    not read holds up the loop, which then falls behind the channel. *)
From S2P Require Import Prelude RustStr QueryLogWriter Handler.

(** What [query_log_tx] carries: it is the [alert_tx] of the writer as well. *)
Inductive LiveEvent := Logged (e : QueryEvent) | Alerted (a : QueryLogWriter.AlertEvent).

(** Every value sent since the start, and how many senders there are. *)
Record Broadcast := { values : list LiveEvent; senders : nat }.
Definition CAPACITY : nat := 256.
Inductive Received := Received_ok (e : LiveEvent) | Lagged (skipped : nat) | Closed.
(** [recv] of a receiver that has come to the position [next]: the result and
    the position afterwards; [None] when it waits. *)
Class BroadcastChannel := { recv : nat -> Broadcast -> nat -> option (Received * nat) }.
Class BroadcastDoc `{BroadcastChannel} := {
  recv_next : forall c next e, values c !! next = Some e -> (length (values c) - next <= CAPACITY)%nat ->
    recv CAPACITY c next = Some (Received_ok e, S next);
  recv_ok : forall c next e n, recv CAPACITY c next = Some (Received_ok e, n) -> n = S next /\ values c !! next = Some e;
  recv_lagged : forall c next k n, recv CAPACITY c next = Some (Lagged k, n) ->
    n = (next + k)%nat /\ (n + CAPACITY <= length (values c))%nat;
  recv_closed : forall c next n, recv CAPACITY c next = Some (Closed, n) -> senders c = 0%nat }.
(** [serde_json::to_string] of the value. *)
Class LiveJson := { live_text : LiveEvent -> option str }.

Module Live.
Section live.
Context `{BroadcastChannel, LiveJson}.

Record Socket := { next : nat; sent : list str; open : bool }.
Definition shut (s : Socket) : Socket := {| next := next s; sent := sent s; open := false |}.
(** [tx.subscribe()]: the values sent from now on. *)
Definition subscribe (c : Broadcast) : Socket := {| next := length (values c); sent := []; open := true |}.

(** A turn of the loop: a value of the channel, with the outcome of
    [socket.send], or something from the client. *)
Definition on_recv (delivered : bool) (c : Broadcast) (s : Socket) : Socket :=
  match recv CAPACITY c (next s) with
  | None => s
  | Some (Received_ok event, n) =>
      match live_text event with
      | Some text => if delivered then {| next := n; sent := sent s ++ [text]; open := true |} else shut s
      | None => {| next := n; sent := sent s; open := true |}
      end
  | Some (Closed, _) => shut s
  | Some (Lagged _, n) => {| next := n; sent := sent s; open := true |}
  end.
Inductive ClientMessage := Message | ReadError | Disconnected.
Definition on_message (m : ClientMessage) (s : Socket) : Socket :=
  match m with Message => s | ReadError | Disconnected => shut s end.

(** The loop beside the program: values are sent, senders come and go.  The
    loop holds a sender of its own until it ends. *)
Record View := { channel : Broadcast; others : nat; socket : Socket }.
Definition with_channel (vs : list LiveEvent) (n : nat) (s : Socket) : View :=
  {| channel := {| values := vs; senders := n + if open s then 1 else 0 |}; others := n; socket := s |}.
Definition connect (vs : list LiveEvent) (n : nat) : View :=
  with_channel vs n (subscribe {| values := vs; senders := n + 1 |}).
Inductive step : View -> View -> Prop :=
| StepSend v e : step v (with_channel (values (channel v) ++ [e]) (others v) (socket v))
| StepSenders v n : step v (with_channel (values (channel v)) n (socket v))
| StepRecv v delivered : open (socket v) = true ->
    step v (with_channel (values (channel v)) (others v) (on_recv delivered (channel v) (socket v)))
| StepClient v m : open (socket v) = true ->
    step v (with_channel (values (channel v)) (others v) (on_message m (socket v))).

(** What the loop sends from now on when the client reads and no value comes. *)
Definition drain (k : nat) (v : View) : Socket := Nat.iter k (on_recv true (channel v)) (socket v).

(** ** What the client gets *)

Definition text_at (vs : list LiveEvent) (i : nat) : option str := vs !! i ≫= live_text.
(** The positions [taken] are those whose values were sent. *)
Record follows (start : nat) (v : View) (taken : list nat) : Prop := {
  fo_order : StronglySorted lt taken;
  fo_range : forall i, i ∈ taken -> (start <= i < next (socket v))%nat;
  fo_bound : (start <= next (socket v) <= length (values (channel v)))%nat;
  fo_sent : sent (socket v) = omap (text_at (values (channel v))) taken;
  fo_missed : forall i, (start <= i < next (socket v))%nat -> i ∈ taken \/ (i + CAPACITY < length (values (channel v)))%nat }.
Definition whole (v : View) : Prop := senders (channel v) = (others v + if open (socket v) then 1 else 0)%nat.

Lemma text_at_snoc vs e i : (i < length vs)%nat -> text_at (vs ++ [e]) i = text_at vs i.
Proof. intros Hi. unfold text_at. by rewrite lookup_app_l. Qed.
Lemma texts_snoc vs e (taken : list nat) : (forall i, i ∈ taken -> (i < length vs)%nat) -> omap (text_at (vs ++ [e])) taken = omap (text_at vs) taken.
Proof.
  induction taken as [|i l IH]; intros Hi; [done|]. cbn. rewrite text_at_snoc by (apply Hi; by left).
  rewrite IH; [done|]. intros j Hj. apply Hi. by right.
Qed.
Lemma sorted_snoc (l : list nat) i : StronglySorted lt l -> (forall j, j ∈ l -> (j < i)%nat) -> StronglySorted lt (l ++ [i]).
Proof.
  induction 1 as [|j l _ IH Hj]; intros Hi; cbn; [repeat constructor|]. constructor.
  - apply IH. intros j' Hj'. apply Hi. by right.
  - apply Forall_app. split; [done|]. repeat constructor. apply Hi. by left.
Qed.

Context `{!BroadcastDoc}.

(** A value is skipped only when the channel has dropped it. *)
Lemma follows_recv start v taken delivered :
  whole v -> open (socket v) = true -> follows start v taken ->
  exists taken', follows start (with_channel (values (channel v)) (others v) (on_recv delivered (channel v) (socket v))) taken' /\
    (delivered = true -> open (on_recv delivered (channel v) (socket v)) = true).
Proof.
  intros Hw Ho [F1 F2 F3 F4 F5]. unfold on_recv. destruct (recv CAPACITY (channel v) (next (socket v))) as [[r n]|] eqn:Hr; [destruct r as [e|k| ]|].
  - apply recv_ok in Hr as [-> He]. pose proof (lookup_lt_Some _ _ _ He) as Hlt.
    destruct (live_text e) as [text|] eqn:Ht; [destruct delivered|].
    + exists (taken ++ [next (socket v)]). split; [|done]. constructor; cbn [with_channel socket channel next sent values].
      * apply sorted_snoc; [done|]. intros j Hj. by apply F2.
      * intros i [Hi| ->%list_elem_of_singleton]%elem_of_app; [specialize (F2 i Hi); lia|lia].
      * lia.
      * rewrite omap_app, F4. f_equal. cbn. unfold text_at. rewrite He. cbn. by rewrite Ht.
      * intros i Hi. destruct (decide (i = next (socket v))) as [->|Hne]; [left; apply elem_of_app; right; by left|].
        destruct (F5 i) as [?|?]; [lia|left; apply elem_of_app; by left|by right].
    + exists taken. split; [|done]. by constructor.
    + exists (taken ++ [next (socket v)]). split; [|done]. constructor; cbn [with_channel socket channel next sent values].
      * apply sorted_snoc; [done|]. intros j Hj. by apply F2.
      * intros i [Hi| ->%list_elem_of_singleton]%elem_of_app; [specialize (F2 i Hi); lia|lia].
      * lia.
      * rewrite omap_app, F4. cbn. unfold text_at at 3. rewrite He. cbn. rewrite Ht. by rewrite app_nil_r.
      * intros i Hi. destruct (decide (i = next (socket v))) as [->|Hne]; [left; apply elem_of_app; right; by left|].
        destruct (F5 i) as [?|?]; [lia|left; apply elem_of_app; by left|by right].
  - apply recv_lagged in Hr as [-> Hn]. exists taken. split; [|done].
    constructor; cbn [with_channel socket channel next sent values]; [done| |lia|done|].
    + intros i Hi. specialize (F2 i Hi). lia.
    + intros i Hi. destruct (decide (i < next (socket v))%nat) as [Hlt|Hge]; [apply F5; lia|]. right. lia.
  - apply recv_closed in Hr. rewrite Hw, Ho in Hr. lia.
  - exists taken. by split; [constructor|].
Qed.

Lemma follows_step start v v' taken : whole v -> follows start v taken -> step v v' -> whole v' /\ exists taken', follows start v' taken'.
Proof.
  intros Hw Hf Hs. destruct Hs as [v e|v n|v delivered Ho|v m Ho]; (split; [done|]).
  - exists taken. destruct Hf as [F1 F2 F3 F4 F5]. constructor; cbn [with_channel socket channel values]; [done|done| | |].
    + rewrite length_app. cbn. lia.
    + rewrite texts_snoc; [done|]. intros i Hi. specialize (F2 i Hi). lia.
    + intros i Hi. rewrite length_app. cbn. destruct (F5 i Hi); [by left|right; lia].
  - exists taken. by destruct Hf.
  - destruct (follows_recv start v taken delivered Hw Ho Hf) as (taken' & Hf' & _). by exists taken'.
  - exists taken. destruct Hf as [F1 F2 F3 F4 F5]. destruct m; by constructor.
Qed.
Lemma follows_run vs n v : rtc step (connect vs n) v -> whole v /\ exists taken, follows (length vs) v taken.
Proof.
  intros Hr. assert (H0' : whole (connect vs n) /\ exists taken, follows (length vs) (connect vs n) taken).
  { split; [done|]. exists []. constructor; cbn; [constructor|by intros i ?%not_elem_of_nil|lia|done|lia]. }
  revert H0'. induction Hr as [v|v v1 v2 Hs _ IH]; intros [Hw [taken Hf]]; [eauto|]. apply IH. by eapply follows_step.
Qed.

(** What is left in the channel comes out in order. *)
Lemma drain_all vs s others k :
  open s = true -> (next s + k <= length vs)%nat -> (length vs - next s <= CAPACITY)%nat ->
  Nat.iter k (on_recv true {| values := vs; senders := others + 1 |}) s =
  {| next := next s + k; sent := sent s ++ omap live_text (take k (drop (next s) vs)); open := true |}.
Proof.
  intros Ho Hk Hc. induction k as [|k IH].
  - cbn. rewrite app_nil_r, Nat.add_0_r. destruct s; cbn in *. by subst.
  - rewrite Nat.iter_succ, IH by lia.
    destruct (lookup_lt_is_Some_2 vs (next s + k)) as [e He]; [lia|].
    unfold on_recv. cbn [next open sent]. rewrite (recv_next _ _ e) by (cbn; (done || lia)).
    rewrite (take_S_r _ k e) by (by rewrite lookup_drop). rewrite omap_app. cbn.
    rewrite Nat.add_succ_r. destruct (live_text e); cbn; by rewrite ?app_assoc, ?app_nil_r.
Qed.

(** C32: The live view shows the log.  Over any run, with values sent and
    turns of the loop in any order, an open view has sent the texts of values
    broadcast since it was opened, each once and in their order, and has left
    out only values after which two hundred and fifty-six others had been sent
    before it came to them.  A turn whose message reaches the client never
    ends the view, since the loop's own sender keeps the channel open; and a
    client that reads gets all that is left, as long as the view is not more
    than the capacity behind. *)
Theorem live_correct vs n v : rtc step (connect vs n) v ->
  (exists taken, StronglySorted lt taken /\ (forall i, i ∈ taken -> (length vs <= i < next (socket v))%nat) /\
     sent (socket v) = omap (text_at (values (channel v))) taken /\
     forall i, (length vs <= i < next (socket v))%nat -> i ∈ taken \/ (i + CAPACITY < length (values (channel v)))%nat) /\
  (open (socket v) = true -> open (on_recv true (channel v) (socket v)) = true) /\
  (open (socket v) = true -> (length (values (channel v)) - next (socket v) <= CAPACITY)%nat ->
     drain (length (values (channel v)) - next (socket v)) v
     = {| next := length (values (channel v));
          sent := sent (socket v) ++ omap live_text (drop (next (socket v)) (values (channel v))); open := true |}).
Proof.
  intros [Hw [taken Hf]]%follows_run. split; [|split].
  - exists taken. by destruct Hf.
  - intros Ho. destruct (follows_recv (length vs) v taken true Hw Ho Hf) as (_ & _ & Hopen). by apply Hopen.
  - intros Ho Hc. destruct Hf as [_ _ F3 _ _]. destruct v as [[vals m] o s]. unfold whole in Hw. cbn in Hw, Ho, Hc, F3. rewrite Ho in Hw. subst m.
    unfold drain. cbn [channel socket values next sent]. rewrite drain_all by (done || lia).
    rewrite take_ge by (rewrite length_drop; lia). f_equal. lia.
Qed.
End live.
End Live.

(** A channel that keeps exactly what it has room for. *)
Module RefBroadcast.
#[export] Instance channel : BroadcastChannel := { recv capacity c next :=
  if (next + capacity <? length (values c))%nat then Some (Lagged (length (values c) - capacity - next), length (values c) - capacity)%nat
  else match values c !! next with
       | Some e => Some (Received_ok e, S next)
       | None => if (senders c =? 0)%nat then Some (Closed, next) else None
       end }.
#[export] Instance channel_doc : BroadcastDoc.
Proof.
  constructor; intros c next; cbn [recv channel].
  - intros e He Hl. destruct (_ <? _)%nat eqn:Hlt; [lia|]. by rewrite He.
  - intros e n. destruct (_ <? _)%nat; [done|]. destruct (values c !! next); [by intros [= -> <-]|]. by destruct (_ =? _)%nat.
  - intros k n. destruct (_ <? _)%nat eqn:Hlt; [intros [= <- <-]; lia|]. destruct (values c !! next); [done|]. by destruct (_ =? _)%nat.
  - intros n. destruct (_ <? _)%nat; [done|]. destruct (values c !! next); [done|]. destruct (_ =? _)%nat eqn:Hz; [lia|done].
Qed.
(** A query shown by its name. *)
#[export] Instance names : LiveJson := { live_text e := match e with Logged q => Some (ev_question q) | Alerted _ => None end }.
End RefBroadcast.

Module LiveWitness.
Import RefBroadcast Live.
Definition logged (name : string) : LiveEvent :=
  Logged {| ev_time := 0; ev_client_ip := lit "10.0.0.7"; ev_question := lit name; ev_qtype := lit "A"; ev_status := lit "allowed";
            ev_reason := None; ev_answer := None; ev_elapsed_ns := 0; ev_upstream_ns := None; ev_upstream := None |}.
(** The view is opened after one query; two more come, the first is sent. *)
Definition viewed : View :=
  let c := [logged "a.lan"; logged "b.lan"; logged "c.lan"] in
  with_channel c 2 (on_recv true {| values := c; senders := 3 |} (subscribe {| values := firstn 1 c; senders := 3 |})).
Lemma viewed_run : rtc step (connect [logged "a.lan"] 2) viewed.
Proof.
  eapply rtc_l; [apply (StepSend (connect [logged "a.lan"] 2) (logged "b.lan"))|].
  eapply rtc_l; [apply (StepSend _ (logged "c.lan"))|]. apply rtc_once.
  exact (StepRecv (with_channel [logged "a.lan"; logged "b.lan"; logged "c.lan"] 2 (subscribe {| values := [logged "a.lan"]; senders := 3 |})) true eq_refl).
Qed.
(** Of three hundred values sent at once the first forty-four are missed. *)
Example lagging_test :
  let c := {| values := repeat (logged "a.lan") 300; senders := 1 |} in
  let s := on_recv true c (subscribe {| values := []; senders := 1 |}) in
  (next s, length (sent s), length (sent (drain 256 (with_channel (values c) 0 s)))) = (44, 0, 256)%nat.
Proof. vm_compute. reflexivity. Qed.
Lemma live_correct_witness : sent (drain 1 viewed) = [lit "b.lan"; lit "c.lan"].
Proof.
  destruct (live_correct [logged "a.lan"] 2 viewed viewed_run) as (_ & _ & Hdrain).
  specialize (Hdrain eq_refl). assert (Hk : (length (values (channel viewed)) - next (socket viewed) = 1)%nat) by (vm_compute; reflexivity).
  rewrite Hk in Hdrain. rewrite Hdrain by (vm_compute; lia). vm_compute. reflexivity.
Defined.
End LiveWitness.
