(* ===== verification/Connect.v ===== *)
(** * Connecting to the database: [ensure_database_exists] and [init] of src/db/mod.rs

    Before the tables there is the database: it is created when the server
    has none of the name, then connected to and migrated.  The url crate, the
    server and the migrations are classes; the tables after the migrations are
    the model [Db]. *)
From S2P Require Import Prelude RustStr.
Local Open Scope N_scope.

(** The url crate: [Url::parse], [path], [set_path] and [to_string]. *)
Class DbUrlCrate := {
  DbUrl : Type;
  db_url_parse : str -> option DbUrl;
  db_url_path : DbUrl -> str;
  db_url_set_path : str -> DbUrl -> DbUrl;
  db_url_text : DbUrl -> str }.
(** A server, by its connections: the database a URL leads to, the query for a
    database of a name, the run of a statement, the migrations; and whether
    there is a database. *)
Class Postgres := {
  PgServer : Type;
  pg_connect : str -> PgServer -> result str str;
  pg_exists : str -> PgServer -> result bool str;
  pg_execute : str -> PgServer -> result PgServer str;
  pg_migrate : str -> PgServer -> result PgServer str;
  pg_has : str -> PgServer -> bool }.

Inductive InitError := UrlError | NoDatabaseName | ConnectError (e : str) | QueryError (e : str) | CreateError (e : str) | MigrateError (e : str).

Module Connect.
Section connect.
Context `{DbUrlCrate, Postgres}.
Definition SLASH : char := 47.
Definition QUOTE : char := 34.
Definition database_name (u : DbUrl) : str := trim_start_by (fun c => c =? SLASH) (db_url_path u).
Definition maintenance_url (u : DbUrl) : str := db_url_text (db_url_set_path (lit "/postgres") u).
Definition create_database (name : str) : str := lit "CREATE DATABASE " ++ QUOTE :: name ++ [QUOTE].

Definition ensure_database_exists (database_url : str) : M PgServer InitError unit :=
  let! parsed := lift (ok_or (db_url_parse database_url) UrlError) in
  let db_name := database_name parsed in
  if is_empty db_name then fail NoDatabaseName else
  let! s := get in
  let! _ := lift (map_err ConnectError (pg_connect (maintenance_url parsed) s)) in
  let! exists_ := lift (map_err QueryError (pg_exists db_name s)) in
  if exists_ then ret tt else
  let! s' := lift (map_err CreateError (pg_execute (create_database db_name) s)) in
  put s'.
(** The database the pool is connected to. *)
Definition init (database_url : str) : M PgServer InitError str :=
  ensure_database_exists database_url ;;;
  let! s := get in
  let! db := lift (map_err ConnectError (pg_connect database_url s)) in
  let! s' := lift (map_err MigrateError (pg_migrate db s)) in
  put s' ;;;
  ret db.

(** ** What the start leaves *)

(** A statement that creates a database of a plain name adds that one; a
    connection is to a database there is, by a URL without a query the one it
    names; the migrations are of tables. *)
Class PostgresDoc := {
  pg_answers : forall name s b, pg_exists name s = Ok b -> b = pg_has name s;
  pg_created : forall name s s', name <> [] -> QUOTE ∉ name -> len name < 64 -> pg_has name s = false ->
    pg_execute (create_database name) s = Ok s' -> forall n, pg_has n s' = (str_eqb n name || pg_has n s);
  pg_connected : forall u s db, pg_connect u s = Ok db -> pg_has db s = true;
  pg_named : forall u p s db, db_url_parse u = Some p -> (63 : char) ∉ u -> pg_connect u s = Ok db -> db = database_name p;
  pg_migrated : forall db s s', pg_migrate db s = Ok s' -> forall n, pg_has n s' = pg_has n s }.

Section named.
Context `{!PostgresDoc} (url : str) (parsed : DbUrl).
Context (Hparse : db_url_parse url = Some parsed) (Hquery : (63 : char) ∉ url).
Context (Hname : database_name parsed <> []) (Hplain : QUOTE ∉ database_name parsed) (Hlen : len (database_name parsed) < 64).
Definition others_kept (s s' : PgServer) : Prop := forall n, n <> database_name parsed -> pg_has n s' = pg_has n s.

Lemma ensured s r s' : ensure_database_exists url s = (r, s') ->
  others_kept s s' /\ (pg_has (database_name parsed) s = true -> s' = s) /\ (r = Ok tt -> pg_has (database_name parsed) s' = true).
Proof.
  unfold ensure_database_exists, bind, lift, get, put, fail, ret. rewrite Hparse. cbn [ok_or].
  destruct (is_empty _) eqn:He; [by destruct (database_name parsed)|].
  destruct (pg_connect (maintenance_url parsed) s); cbn [map_err]; [|by intros [= <- <-]].
  destruct (pg_exists _ s) as [b|e] eqn:Hb; cbn [map_err]; [|by intros [= <- <-]]. apply pg_answers in Hb. subst b.
  destruct (pg_has _ s) eqn:Hh; [by intros [= <- <-]|].
  destruct (pg_execute _ s) as [s1|e] eqn:Hx; cbn [map_err]; intros [= <- <-]; [|by split_and!].
  pose proof (pg_created _ _ _ Hname Hplain Hlen Hh Hx) as Hc. split_and!; [|done|].
  - intros n Hn. rewrite Hc. by rewrite (proj2 (str_eqb_neq _ _)).
  - intros _. by rewrite Hc, str_eqb_refl.
Qed.
Definition accepts (s : PgServer) : Prop :=
  is_ok (pg_connect (maintenance_url parsed) s) = true /\ is_ok (pg_exists (database_name parsed) s) = true /\
  (pg_has (database_name parsed) s = false -> is_ok (pg_execute (create_database (database_name parsed)) s) = true) /\
  forall s1, pg_has (database_name parsed) s1 = true -> is_ok (pg_connect url s1) = true /\ is_ok (pg_migrate (database_name parsed) s1) = true.

(** The start connects to the database its URL names, whether or not there
    was one: it is there afterwards and migrated, the migrations ran on the
    server as it was when there was one, and no other database is added or
    lost, also by a start that fails.  A server that accepts the connections
    and the statements gets the program started. *)
Theorem init_correct s r s' : init url s = (r, s') ->
  others_kept s s' /\
  match r with
  | Ok db => db = database_name parsed /\ pg_has db s' = true /\
      exists s1, pg_migrate db s1 = Ok s' /\ (pg_has db s = true -> s1 = s)
  | Err _ => (pg_has (database_name parsed) s = true -> s' = s) /\ ~ accepts s
  end.
Proof.
  unfold init, bind, lift, get, put, ret. destruct (ensure_database_exists url s) as [re s1] eqn:He.
  destruct (ensured s re s1 He) as (Hk & Hs & Hhas). destruct re as [[]|e].
  2: { intros [= <- <-]. split; [exact Hk|]. split; [exact Hs|]. intros (Hc & Hq & Hx & _).
       revert He. unfold ensure_database_exists, bind, lift, get, put, fail, ret. rewrite Hparse. cbn [ok_or].
       destruct (is_empty _) eqn:Hn; [by destruct (database_name parsed)|].
       destruct (pg_connect (maintenance_url parsed) s); [|done]. cbn [map_err].
       destruct (pg_exists _ s) as [b|] eqn:Hb; [|done]. apply pg_answers in Hb. subst b. cbn [map_err].
       destruct (pg_has _ s); [done|]. specialize (Hx eq_refl). by destruct (pg_execute _ s). }
  specialize (Hhas eq_refl). destruct (pg_connect url s1) as [db|e] eqn:Hc; cbn [map_err].
  2: { intros [= <- <-]. split; [exact Hk|]. split; [exact Hs|]. intros (_ & _ & _ & Ha).
       destruct (Ha s1 Hhas) as [Hok _]. by rewrite Hc in Hok. }
  pose proof (pg_named _ _ _ _ Hparse Hquery Hc) as ->.
  destruct (pg_migrate _ s1) as [s2|e] eqn:Hm; cbn [map_err]; intros [= <- <-].
  - pose proof (pg_migrated _ _ _ Hm) as Hm'. split; [intros n Hn; rewrite Hm'; by apply Hk|]. split; [done|].
    split; [by rewrite Hm'|]. by exists s1.
  - split; [exact Hk|]. split; [exact Hs|]. intros (_ & _ & _ & Ha). destruct (Ha s1 Hhas) as [_ Hok]. by rewrite Hm in Hok.
Qed.
End named.
End connect.
End Connect.

(** URLs are their paths; a server is the list of its databases with the
    number of migrations of each. *)
Module RefPostgres.
Import Connect.
#[export] Instance urls : DbUrlCrate := {
  DbUrl := str; db_url_parse u := if is_empty u then None else Some u; db_url_path u := u; db_url_set_path p _ := p; db_url_text u := u }.
Definition has (n : str) (s : list str) : bool := existsb (str_eqb n) s.
Definition created (statement : str) : str := removelast (skipn (length (lit "CREATE DATABASE ") + 1) statement).
#[export] Instance server : Postgres := {
  PgServer := list str;
  pg_connect u s := if has (database_name u) s then Ok (database_name u) else Err (lit "does not exist");
  pg_exists n s := Ok (has n s);
  pg_has := has;
  pg_execute st s := if has (created st) s then Err (lit "exists") else Ok (created st :: s);
  pg_migrate _ s := Ok s }.
#[export] Instance server_doc : PostgresDoc.
Proof.
  constructor.
  - by intros name s b [= <-].
  - intros name s s' _ _ _ Hh Hx n.
    assert (Hc : created (create_database name) = name).
    { unfold created, create_database. rewrite Nat.add_1_r.
      change (skipn (S (length (lit "CREATE DATABASE "))) (lit "CREATE DATABASE " ++ QUOTE :: name ++ [QUOTE])) with (name ++ [QUOTE]).
      apply removelast_last. }
    cbn [pg_execute server] in Hx. rewrite Hc in Hx. cbn [pg_has server] in Hh. rewrite Hh in Hx. by injection Hx as <-.
  - intros u s db. cbn [pg_connect server pg_has]. destruct (has _ s) eqn:Hh; [|done]. by intros [= <-].
  - intros u p s db. cbn [db_url_parse urls pg_connect server]. destruct (is_empty u); [done|]. intros [= <-] _.
    destruct (has _ s); [|done]. by intros [= <-].
  - intros db s s' [= <-]. done.
Qed.
End RefPostgres.

Module ConnectWitness.
Import RefPostgres Connect.
Definition target : DbUrl (DbUrlCrate := urls) := lit "/rustdns".
Definition first_server : PgServer (Postgres := server) := [lit "postgres"].
Lemma init_correct_witness :
  init (lit "/rustdns") first_server = (Ok (lit "rustdns"), [lit "rustdns"; lit "postgres"]) /\
  others_kept target first_server [lit "rustdns"; lit "postgres"].
Proof.
  assert (Hi : init (lit "/rustdns") first_server = (Ok (lit "rustdns"), [lit "rustdns"; lit "postgres"])) by (vm_compute; reflexivity).
  split; [exact Hi|]. apply (init_correct (lit "/rustdns") target eq_refl) with (5 := Hi).
  - by apply (bool_decide_unpack _).
  - done.
  - by apply (bool_decide_unpack _).
  - done.
Defined.
End ConnectWitness.
