(* ===== verification/Conformance.v ===== *)
(** * The unit tests of the sources, on the model

    The tests the sources carry in their modules [tests], each as a list of
    steps or a boolean with the name of its function, and that the model
    passes them.  The tests that need the crates' real behaviour run on the
    reference instances; those of the shape of an argon2 hash and of the order
    of sleeping tasks are not here.  What the tests say holds in general is
    what the theorems of the components say. *)
From S2P Require Import Prelude RustStr IpAddr Regex Rules Db Subscription Api Auth AuditTrail Validators Shutdown.
Local Open Scope N_scope.

(** ** src/dns/rules.rs *)

Module RulesTests.
Import AsciiUnicode RefRegex.
(** A call on the rule set [rs], or an assertion. *)
Inductive RuleStep :=
| Add (line : string) | Refused (line : string) | AddAll (content : string) (count : N) | Build
| Blocks (domain : string) | Admits (domain : string) | BlockedCount (n : nat) | AllowedCount (n : nat) | WildcardCount (n : nat).
Definition take_step (x : Rules.RuleSet * bool) (s : RuleStep) : Rules.RuleSet * bool :=
  let '(rs, passed) := x in
  match s with
  | Add line => (fst (Rules.add_rule rs (lit line)), passed)
  | Refused line => let '(rs', added) := Rules.add_rule rs (lit line) in (rs', passed && negb added)
  | AddAll content n => let '(rs', count) := Rules.add_rules_from_str rs (lit content) in (rs', passed && (count =? n))
  | Build => (Rules.build rs, passed)
  | Blocks domain => (rs, passed && Rules.is_blocked rs (lit domain))
  | Admits domain => (rs, passed && negb (Rules.is_blocked rs (lit domain)))
  | BlockedCount n => (rs, passed && (Rules.blocked_count rs =? n)%nat)
  | AllowedCount n => (rs, passed && (Rules.allowed_count rs =? n)%nat)
  | WildcardCount n => (rs, passed && (Rules.wildcard_blocked_count rs =? n)%nat)
  end.
Definition passes (test : list RuleStep) : bool := snd (fold_left take_step test (Rules.new, true)).

Definition test_adguard_block_format : list RuleStep :=
  [Add "||ads.example.com^"; Blocks "ads.example.com"; Blocks "sub.ads.example.com"; Admits "example.com"].
Definition test_allowlist_overrides_block : list RuleStep :=
  [Add "||example.com^"; Add "@@||safe.example.com^"; Blocks "ads.example.com"; Admits "safe.example.com"; Admits "sub.safe.example.com"].
Definition test_hosts_format : list RuleStep :=
  [Add "0.0.0.0 tracker.com"; Add "127.0.0.1 malware.net"; Blocks "tracker.com"; Blocks "sub.tracker.com"; Blocks "malware.net"].
Definition test_plain_domain : list RuleStep :=
  [Add "doubleclick.net"; Blocks "doubleclick.net"; Blocks "ad.doubleclick.net"; Admits "notdoubleclick.net"].
Definition test_comments_ignored : list RuleStep :=
  [Refused "# this is a comment"; Refused "! this is also a comment"; Refused EmptyString; BlockedCount 0].
Definition test_wildcard : list RuleStep :=
  [Add "*.ads.com"; Blocks "sub.ads.com"; Blocks "deep.sub.ads.com"].
Definition test_fqdn_trailing_dot : list RuleStep :=
  [Add "||example.com^"; Blocks "example.com."].
Definition test_case_insensitive_blocking : list RuleStep :=
  [Add "||Example.COM^"; Blocks "example.com"; Blocks "EXAMPLE.COM"; Blocks "sub.Example.Com"].
Definition test_add_rules_from_str_bulk : list RuleStep :=
  [AddAll "||ads.example.com^
# comment
||tracker.net^

! another comment
||malware.io^" 3; BlockedCount 3; Blocks "ads.example.com"; Blocks "tracker.net"; Blocks "malware.io"].
Definition test_parent_domain_not_blocked_by_subdomain_rule : list RuleStep :=
  [Add "||sub.example.com^"; Blocks "sub.example.com"; Blocks "deep.sub.example.com"; Admits "example.com"; Admits "other.example.com"].
Definition test_allowlist_only_no_block : list RuleStep :=
  [Add "@@||safe.com^"; Admits "safe.com"; Admits "any.domain.com"].
Definition test_hosts_localhost_skipped : list RuleStep :=
  [Refused "127.0.0.1 localhost"; Refused "0.0.0.0 mydevice.local"; BlockedCount 0].
Definition test_regex_rules_skipped : list RuleStep :=
  [Refused "/^ads\./"; BlockedCount 0].
Definition test_bare_tld_rejected : list RuleStep :=
  [Refused "com"; BlockedCount 0].
Definition test_adguard_format_with_options : list RuleStep :=
  [Add "||ads.example.com^$third-party"; Blocks "ads.example.com"].
Definition test_stats_after_bulk_add : list RuleStep :=
  [Add "||block1.com^"; Add "||block2.com^"; Add "@@||allow1.com^"; BlockedCount 2; AllowedCount 1].
Definition test_ipv6_hosts_format : list RuleStep :=
  [Add "::1 ipv6block.com"; Blocks "ipv6block.com"].
Definition test_deep_subdomain_matching : list RuleStep :=
  [Add "||evil.com^"; Blocks "a.b.c.d.evil.com"; Admits "notevil.com"].
Definition test_dollar_option_without_caret : list RuleStep :=
  [Add "||deloton.com$important"; Blocks "deloton.com"; Blocks "sub.deloton.com"].
Definition test_dollar_option_with_caret : list RuleStep :=
  [Add "||tracker.net^$third-party"; Blocks "tracker.net"].
Definition test_leading_dot_rule : list RuleStep :=
  [Add ".bbelements.com^"; Blocks "bbelements.com"; Blocks "sub.bbelements.com"].
Definition test_leading_dot_rule_no_caret : list RuleStep :=
  [Add ".doublepimp.com"; Blocks "doublepimp.com"].
Definition test_wildcard_adguard_format : list RuleStep :=
  [Add "||ad-*.aliyuncs.com^"; Build; Blocks "ad-foo.aliyuncs.com"; Blocks "ad-bar.aliyuncs.com"; Blocks "sub.ad-foo.aliyuncs.com";
   Admits "foo.aliyuncs.com"; Admits "aliyuncs.com"].
Definition test_wildcard_allowlist : list RuleStep :=
  [Add "||*.ads.com^"; Add "@@||safe-*.ads.com^"; Build; Blocks "bad-ads.ads.com"; Admits "safe-cdn.ads.com"].
Definition test_wildcard_blocked_count : list RuleStep :=
  [Add "||ad-*.aliyuncs.com^"; Add "||tracker-*.example.com^"; Add "||plain.com^"; WildcardCount 2; BlockedCount 3].
Definition test_wildcard_case_insensitive : list RuleStep :=
  [Add "||AD-*.example.com^"; Build; Blocks "ad-foo.example.com"; Blocks "AD-FOO.example.com"].
Definition test_wildcard_must_match_at_least_one_char : list RuleStep :=
  [Add "||ad-*.example.com^"; Build; Admits "ad-.example.com"; Blocks "ad-x.example.com"].
Definition test_block_all_rule : list RuleStep :=
  [Add "||*^"; Blocks "example.com"; Blocks "google.com"; Blocks "a.b.c.d.example.com"].
Definition test_block_all_allowlist_override : list RuleStep :=
  [Add "||*^"; Add "@@||safe.com^"; Blocks "evil.com"; Admits "safe.com"; Admits "sub.safe.com"].
Definition test_block_all_bare_star : list RuleStep :=
  [Add "||*"; Blocks "anything.com"].

Example rules_tests : forallb passes
  [test_adguard_block_format; test_allowlist_overrides_block; test_hosts_format; test_plain_domain; test_comments_ignored; test_wildcard;
   test_fqdn_trailing_dot; test_case_insensitive_blocking; test_add_rules_from_str_bulk; test_parent_domain_not_blocked_by_subdomain_rule;
   test_allowlist_only_no_block; test_hosts_localhost_skipped; test_regex_rules_skipped; test_bare_tld_rejected;
   test_adguard_format_with_options; test_stats_after_bulk_add; test_ipv6_hosts_format; test_deep_subdomain_matching;
   test_dollar_option_without_caret; test_dollar_option_with_caret; test_leading_dot_rule; test_leading_dot_rule_no_caret;
   test_wildcard_adguard_format; test_wildcard_allowlist; test_wildcard_blocked_count; test_wildcard_case_insensitive;
   test_wildcard_must_match_at_least_one_char; test_block_all_rule; test_block_all_allowlist_override; test_block_all_bare_star] = true.
Proof. vm_compute. reflexivity. Qed.
End RulesTests.

(** ** src/dns/subscription.rs *)

Module SubscriptionTests.
Import AsciiUnicode RefRegex SubscriptionWitness.
Definition contains (rules : list str) (rule : string) : bool := existsb (fun r => r =s? rule) rules.
Definition blocks (content : string) (rules : list string) : bool :=
  forallb (contains (fst (Subscription.parse_adguard_rules (lit content)))) rules.
Definition allows (content : string) (rules : list string) : bool :=
  forallb (contains (snd (Subscription.parse_adguard_rules (lit content)))) rules.

Definition test_parse_adguard_rules : bool :=
  let content := "
! Title: Test Filter
! Version: 1.0

||example.com^
||ads.example.org^
@@||allowed.example.com^
||test.net^$important
"%string in
  blocks content ["||example.com^"; "||ads.example.org^"] && allows content ["@@||allowed.example.com^"].
Definition test_parse_adguard_rules_with_options : bool :=
  let content := "||doubleclick.net^$third-party
||googlesyndication.com^$important
@@||safe.net^$important"%string in
  blocks content ["||doubleclick.net^"; "||googlesyndication.com^"] && allows content ["@@||safe.net^"].
Definition test_parse_adguard_dollar_without_caret : bool :=
  let content := "||deloton.com$important
||oclasrv.com$important
@@||safe.net$important"%string in
  blocks content ["||deloton.com^"; "||oclasrv.com^"] && allows content ["@@||safe.net^"].
Definition test_parse_leading_dot_rules : bool :=
  blocks ".bbelements.com^
.doublepimp.com^" ["||bbelements.com^"; "||doublepimp.com^"].
Definition test_parse_plain_domain_with_caret : bool :=
  blocks "vkcdnservice.appspot.com^" ["||vkcdnservice.appspot.com^"].
Definition test_parse_adguard_wildcard_block_rules : bool :=
  let content := "||ad-*.example.com^
||tracker-*.net^
||plain.com^"%string in
  blocks content ["||ad-*.example.com^"; "||tracker-*.net^"; "||plain.com^"]
  && bool_decide (snd (Subscription.parse_adguard_rules (lit content)) = []).
Definition test_parse_adguard_wildcard_allow_rules : bool :=
  let content := "@@||safe-*.example.com^
||ad-*.example.com^"%string in
  allows content ["@@||safe-*.example.com^"] && blocks content ["||ad-*.example.com^"].
Definition test_wildcard_rule_roundtrip_with_ruleset : bool :=
  let block := fst (Subscription.parse_adguard_rules (lit "||ad-*.example.com^")) in
  bool_decide (block = [lit "||ad-*.example.com^"])
  && let '(rs, added) := Rules.add_rule Rules.new (default [] (head block)) in
     let rs := Rules.build rs in
     added && Rules.is_blocked rs (lit "ad-foo.example.com") && Rules.is_blocked rs (lit "ad-bar.example.com")
     && negb (Rules.is_blocked rs (lit "foo.example.com")).
Definition test_parse_hosts_rules : bool :=
  let rules := Subscription.parse_hosts_rules (lit "
# Hosts file for blocking ads
127.0.0.1 example.com
0.0.0.0 ads.example.org
127.0.0.1 tracker.net
") in
  forallb (contains rules) ["||example.com^"; "||ads.example.org^"; "||tracker.net^"].

Example subscription_tests : forallb (fun t : bool => t)
  [test_parse_adguard_rules; test_parse_adguard_rules_with_options; test_parse_adguard_dollar_without_caret;
   test_parse_leading_dot_rules; test_parse_plain_domain_with_caret; test_parse_adguard_wildcard_block_rules;
   test_parse_adguard_wildcard_allow_rules; test_wildcard_rule_roundtrip_with_ruleset; test_parse_hosts_rules] = true.
Proof. vm_compute. reflexivity. Qed.
End SubscriptionTests.

(** ** src/api/validators *)

Module ValidatorTests.
Import AsciiUnicode RefRegex Validators.
Definition refused_with (r : result unit ValidationError) (c : string) : bool := match r with Ok _ => false | Err e => code e =s? c end.
Definition filter_rule (rule : string) : result unit ValidationError := validate_rule (lit "filter") (lit rule).
Definition rewrite_rule (rule : string) : result unit ValidationError := validate_rule (lit "rewrite") (lit rule).

Definition test_valid_filter_rules : bool :=
  forallb (fun rule => is_ok (filter_rule rule))
    ["||example.com^"; "||ads.example.com^"; "@@||example.com^"; "0.0.0.0 example.com"; "127.0.0.1 ads.example.com"; "example.com"].
Definition test_valid_rewrite_rules : bool :=
  forallb (fun rule => is_ok (rewrite_rule rule))
    ["myapp.local -> 192.168.1.100"; "example.com -> ::1"; "  myapp.local  ->  192.168.1.100  "].
Definition test_empty_rule : bool := refused_with (filter_rule EmptyString) "E008".
Definition test_invalid_rewrite_format : bool :=
  refused_with (rewrite_rule "myapp.local 192.168.1.100") "E009"
  && refused_with (rewrite_rule "myapp.local -> IP -> 192.168.1.100") "E009".
Definition test_invalid_rewrite_parts : bool :=
  refused_with (rewrite_rule " -> 192.168.1.100") "E010" && refused_with (rewrite_rule "myapp.local -> ") "E010".
Definition test_invalid_rule_type : bool := refused_with (validate_rule (lit "unknown") (lit "example.com")) "E011".
Definition test_invalid_domain_in_filter : bool := negb (is_ok (filter_rule "||ex@mple.com^")).
Definition test_invalid_ip_in_hosts_format : bool := negb (is_ok (filter_rule "999.999.999.999 example.com")).

Definition domain (d : string) : result unit ValidationError := validate_domain (lit d).
Definition test_valid_domains : bool :=
  forallb (fun d => is_ok (domain d)) ["example.com"; "sub.example.com"; "my-sub.example.org"; "*.example.com"; "example.com."].
Definition test_empty_domain : bool := refused_with (domain EmptyString) "E001".
Definition test_domain_too_long : bool := refused_with (validate_domain (repeat 97 300)) "E002".
Definition test_empty_label : bool := refused_with (domain "example..com") "E003".
Definition test_label_too_long : bool := refused_with (validate_domain (repeat 97 100 ++ lit ".com")) "E003".
Definition test_invalid_characters : bool := refused_with (domain "ex@mple.com") "E004".
Definition test_invalid_hyphen_position : bool := negb (is_ok (domain "-example.com")) && negb (is_ok (domain "example-.com")).
Definition test_wildcard_domains : bool :=
  is_ok (domain "*.example.com") && negb (is_ok (domain "**.example.com")) && negb (is_ok (domain "*.")).

Definition ip (s : string) : result unit ValidationError := validate_ip (lit s).
Definition test_valid_ipv4 : bool := forallb (fun s => is_ok (ip s)) ["192.168.1.1"; "0.0.0.0"; "255.255.255.255"; "10.0.0.1"].
Definition test_valid_ipv6 : bool := forallb (fun s => is_ok (ip s)) ["::1"; "2001:db8::1"; "fe80::1"].
Definition test_empty_ip : bool := refused_with (ip EmptyString) "E006".
Definition test_invalid_ipv4 : bool := refused_with (ip "192.168.1.256") "E007".
Definition test_invalid_format : bool := refused_with (ip "not-an-ip") "E007".
Definition test_invalid_ipv6_format : bool := negb (is_ok (ip "2001:db8::gggg")).

Example validator_tests : forallb (fun t : bool => t)
  [test_valid_filter_rules; test_valid_rewrite_rules; test_empty_rule; test_invalid_rewrite_format; test_invalid_rewrite_parts;
   test_invalid_rule_type; test_invalid_domain_in_filter; test_invalid_ip_in_hosts_format; test_valid_domains; test_empty_domain;
   test_domain_too_long; test_empty_label; test_label_too_long; test_invalid_characters; test_invalid_hyphen_position;
   test_wildcard_domains; test_valid_ipv4; test_valid_ipv6; test_empty_ip; test_invalid_ipv4; test_invalid_format;
   test_invalid_ipv6_format] = true.
Proof. vm_compute. reflexivity. Qed.
End ValidatorTests.

(** ** src/auth *)

Module AuthTests.
Import RefCrypto Api.
Definition TEST_SECRET : str := lit "test-secret-for-unit-tests-only".
Definition check_admin_permission (r : str) : bool := (r =s? "admin") || (r =s? "super_admin").
(** A token drawn at the time 1000 and read at once; [expect] fails the test. *)
Definition read_token (id : string) (user name r : string) (secret : str) (hours : N) (check : Claims -> bool) : bool :=
  match generate (AuthWitness.draws 1000 0 id) (lit user) (lit name) (lit r) TEST_SECRET hours with
  | Some token => match verify 1000 token secret with Some c => check c | None => false end
  | None => false
  end.
Definition claims_of (id r : string) (check : Claims -> bool) : bool := read_token id "user-1" "testuser" r TEST_SECRET 1 check.

Definition test_generate_and_verify_token : bool :=
  read_token "j" "user-123" "admin" "super_admin" TEST_SECRET 24 (fun c =>
    (sub c =s? "user-123") && (username c =s? "admin") && (role c =s? "super_admin")).
Definition test_verify_wrong_secret_fails : bool :=
  match generate (AuthWitness.draws 1000 0 "j") (lit "user-123") (lit "admin") (lit "admin") TEST_SECRET 24 with
  | Some token => match verify 1000 token (lit "wrong-secret") with Some _ => false | None => true end
  | None => false
  end.
Definition test_verify_malformed_token_fails : bool := match verify 1000 (lit "not.a.valid.jwt") TEST_SECRET with Some _ => false | None => true end.
Definition test_verify_empty_token_fails : bool := match verify 1000 [] TEST_SECRET with Some _ => false | None => true end.
Definition test_claims_contain_correct_role : bool := read_token "j" "u1" "operator" "operator" TEST_SECRET 1 (fun c => role c =s? "operator").
Definition test_jti_is_unique_per_token : bool :=
  read_token "j1" "u1" "admin" "admin" TEST_SECRET 1 (fun c1 =>
    read_token "j2" "u1" "admin" "admin" TEST_SECRET 1 (fun c2 => negb (is_empty (jti c1)) && negb (str_eqb (jti c1) (jti c2)))).
Definition test_token_expiry_set_correctly : bool :=
  read_token "j" "u1" "admin" "admin" TEST_SECRET 2 (fun c => (1000 + 2 * 3600 <=? exp c) && (exp c <=? 1000 + 2 * 3600)).
Definition test_role_preserved_super_admin : bool := claims_of "j" "super_admin" (fun c => role c =s? "super_admin").
Definition test_role_preserved_admin : bool := claims_of "j" "admin" (fun c => role c =s? "admin").
Definition test_role_preserved_operator : bool := claims_of "j" "operator" (fun c => role c =s? "operator").
Definition test_role_preserved_read_only : bool := claims_of "j" "read_only" (fun c => role c =s? "read_only").
Definition test_rbac_super_admin_has_admin_permission : bool := check_admin_permission (lit "super_admin").
Definition test_rbac_admin_has_admin_permission : bool := check_admin_permission (lit "admin").
Definition test_rbac_operator_lacks_admin_permission : bool := negb (check_admin_permission (lit "operator")).
Definition test_rbac_read_only_lacks_admin_permission : bool := negb (check_admin_permission (lit "read_only")).
Definition test_rbac_matrix_all_roles : bool :=
  forallb (fun x : string * bool => claims_of "j" (fst x) (fun c => (role c =s? fst x) && eqb (check_admin_permission (role c)) (snd x)))
    [("super_admin", true); ("admin", true); ("operator", false); ("read_only", false)]%string.
Definition test_rbac_no_role_confusion : bool :=
  claims_of "j" "ADMIN" (fun c => negb (check_admin_permission (role c)))
  && claims_of "j" " admin" (fun c => negb (check_admin_permission (role c))).

(** The tests of src/auth/password.rs whose words are the crate's own. *)
Definition hashed (password salt : string) (check : str -> bool) : bool :=
  match Password.hash (lit password) (lit salt) with Some h => check h | None => false end.
Definition test_hash_and_verify_correct_password : bool :=
  hashed "secure-password-123" "s" (fun h => negb (is_empty h) && Password.verify (lit "secure-password-123") h).
Definition test_wrong_password_fails_verification : bool :=
  hashed "correct-password" "s" (fun h => negb (Password.verify (lit "wrong-password") h)).
Definition test_empty_password_hashes_and_verifies : bool :=
  hashed EmptyString "s" (fun h => Password.verify [] h && negb (Password.verify (lit "notempty") h)).

Example auth_tests : forallb (fun t : bool => t)
  [test_generate_and_verify_token; test_verify_wrong_secret_fails; test_verify_malformed_token_fails; test_verify_empty_token_fails;
   test_claims_contain_correct_role; test_jti_is_unique_per_token; test_token_expiry_set_correctly; test_role_preserved_super_admin;
   test_role_preserved_admin; test_role_preserved_operator; test_role_preserved_read_only; test_rbac_super_admin_has_admin_permission;
   test_rbac_admin_has_admin_permission; test_rbac_operator_lacks_admin_permission; test_rbac_read_only_lacks_admin_permission;
   test_rbac_matrix_all_roles; test_rbac_no_role_confusion; test_hash_and_verify_correct_password;
   test_wrong_password_fails_verification; test_empty_password_hashes_and_verifies] = true.
Proof. vm_compute. reflexivity. Qed.
(** The check the tests mirror is that of the extractor. *)
Lemma check_admin_agrees {S} `{HasDb S, HasAuth S} d p (s : S) c :
  fst (AuthUser d p s) = Ok c -> is_ok (fst (AdminUser d p s)) = check_admin_permission (role c).
Proof.
  intros Hc. unfold AdminUser, bind, check_admin_permission. destruct (AuthUser d p s) as [[c'|e] s1]; [|done].
  injection Hc as ->. by destruct (_ || _).
Qed.
End AuthTests.

(** ** src/shutdown.rs *)

Module ShutdownTests.
Definition test_shutdown_signal_broadcast : bool :=
  let '(rx1, signal) := subscribe new_signal in
  let '(rx2, signal) := subscribe signal in
  let signal := initiate signal in
  received rx1 signal && received rx2 signal.
Definition test_shutdown_signal_recv : bool :=
  let '(rx, signal) := subscribe new_signal in
  negb (received rx signal) && received rx (initiate signal).
Definition test_shutdown_with_timeout_success : bool := is_ok (shutdown_with_timeout 1 (Some (0, Ok tt))).
Definition says (r : result unit str) (text : string) : bool := match r with Ok _ => false | Err e => existsb (fun k => starts_with (drop k e) text) (seq 0 (length e)) end.
Definition test_shutdown_with_timeout_timeout : bool := says (shutdown_with_timeout 1 (Some (2, Ok tt))) "timeout".
Definition test_shutdown_with_timeout_error : bool := says (shutdown_with_timeout 1 (Some (0, Err (lit "test error")))) "test error".

Example shutdown_tests : forallb (fun t : bool => t)
  [test_shutdown_signal_broadcast; test_shutdown_signal_recv; test_shutdown_with_timeout_success; test_shutdown_with_timeout_timeout;
   test_shutdown_with_timeout_error] = true.
Proof. vm_compute. reflexivity. Qed.
End ShutdownTests.

(** ** src/api/middleware/audit.rs *)

Module AuditTests.
Import AsciiUnicode Audit.
Definition check (path : string) (m : Method) (resource action : string) : bool :=
  bool_decide (derive_resource_action (lit path) m = (lit resource, lit action)).
Definition test_basic_crud : bool :=
  check "/api/v1/rules" POST "rules" "create" && check "/api/v1/rules/abc-123" PUT "rules" "update"
  && check "/api/v1/rules/abc-123" PATCH "rules" "update" && check "/api/v1/rules/abc-123" DELETE "rules" "delete".
Definition test_sub_actions : bool :=
  check "/api/v1/rules/bulk" POST "rules" "bulk_create" && check "/api/v1/rules/bulk" DELETE "rules" "bulk_delete"
  && check "/api/v1/filters/toggle" POST "filters" "toggle" && check "/api/v1/upstreams/failover" POST "upstreams" "failover"
  && check "/api/v1/cache/flush" POST "cache" "flush" && check "/api/v1/auth/login" POST "auth" "login"
  && check "/api/v1/auth/ticket" POST "auth" "ticket".
Definition test_hyphen_normalisation : bool :=
  check "/api/v1/client-groups" POST "client_groups" "create" && check "/api/v1/client-groups/abc-123" DELETE "client_groups" "delete".
Definition test_id_then_sub_action : bool :=
  check "/api/v1/upstreams/550e8400-e29b-41d4-a716-446655440000/refresh" POST "upstreams" "refresh".

Example audit_tests : forallb (fun t : bool => t)
  [test_basic_crud; test_sub_actions; test_hyphen_normalisation; test_id_then_sub_action] = true.
Proof. vm_compute. reflexivity. Qed.
End AuditTests.
